(* ===== verification/_CoqProject ===== *)
-Q . S2P
Prelude.v
Dispatch.v
System.v
Tokens.v
Fungible.v
Balances.v
BalancesFungible.v
BalancesCurrency.v
BalancesCalls.v
ClockFacts.v
CurrencyTraits.v
Vesting.v
AccountSpec.v
AccountWf.v
Ledger.v
ScheduleFacts.v
VestingFacts.v
AccountFacts.v
FungibleFacts.v
TransferFacts.v
ImbalanceFacts.v
CurrencyFacts.v
ReserveFacts.v
RepatriateFacts.v
NamedReserveFacts.v
TraitFacts.v
HoldFacts.v
LockFacts.v
VestingLedger.v
CallFacts.v
ReachFacts.v
Findings.v
Words.v
Helpers128.v
Helpers128Facts.v
BigUint.v
BigUintFacts.v
KnuthFacts.v
Rational.v
RationalFacts.v
PerThings.v
PerThingsFacts.v
Normalize.v
FixedPoint.v
FixedPointFacts.v
BridgeLanes.v
BridgeMessages.v
BridgeLaneFacts.v
BridgeMessagesFacts.v
BridgeInvariant.v
BridgeProtocol.v
BridgeSample.v
BridgeProtocolFacts.v
BridgeLiveness.v
BridgeRelayers.v
BridgeRelayersFacts.v
BridgeRelayersLedger.v
BridgeRelayersSample.v
SortedList.v
StakingLedgers.v
StakingLedgerFacts.v
StakingSpans.v
StakingVoters.v
StakingBonds.v
StakingFacts.v
StakingBondFacts.v
StakingAdminFacts.v
StakingStake.v
StakingAsset.v
StakingSnapshot.v
BagsList.v
BagsLinks.v
BagsRun.v
BagsFacts.v
BagsSpec.v
BagsMigrate.v
StakingBags.v
StakingSample.v
StakingSpanFacts.v
