(* ===== verification/Prelude.v ===== *)
(** * Verification of the token ledger, staking and the message bridge of the FRAME runtime

    The repository is a fork of the Polkadot SDK.  This development covers its monetary core: the
    account registry, the token traits, the balances pallet that implements them, the vesting pallet
    that relies on them, and the arithmetic library below; the part of staking that moves stake and keeps
    the voters, with the sorted list of accounts it uses; and the bridge between two chains: the lanes
    that carry messages, and the pallet that stakes and rewards their relayers with the ledger's tokens.
    Paths are under [src/substrate/] unless they start with [bridges/], which is under [src/].

    ** The parts and where they are modelled

    - [Prelude]: the integers of a balance type with their checked and saturating operations, sums over
      finite maps, hint databases and tactics.
    - [Dispatch]: [frame/support/src/storage/] and the error types of [primitives/runtime].  A function of
      the runtime is [M S A]: it takes the storage to a result ([Ok], [Err] or a panic) and the storage
      it leaves.  An error keeps the writes made before it; only [with_storage_layer] undoes them.
      A value that goes out of scope is dropped explicitly, because dropping an imbalance writes storage.
    - [System]: [frame/system/src/lib.rs], accounts with their provider, consumer and sufficient counters,
      and [StoredMap].
    - [Tokens], [Fungible]: [frame/support/src/traits/tokens/] ([misc.rs], the imbalances and [fungible/]).
      Required methods are type classes over the storage, provided methods are definitions over them.
    - [Balances], [BalancesFungible], [BalancesCurrency], [BalancesCalls]: [frame/balances/src/], one file
      each for the account mutator ([lib.rs], [types.rs]), [impl_fungible.rs], [impl_currency.rs], and the
      calls with the genesis build.
    - [CurrencyTraits]: [frame/support/src/traits/tokens/currency.rs] with [reservable.rs], [lockable.rs]
      and the imbalance handlers.
    - [Vesting]: [frame/vesting/src/], over any currency that can lock ([VestingHost]).
    - [Words], [Helpers128], [BigUint], [Rational], [PerThings], [Normalize], [FixedPoint]:
      [primitives/arithmetic/src/] with [helpers_128bit.rs], [biguint.rs], [rational.rs], [per_things.rs],
      [lib.rs] and [fixed_point.rs].  Words are [Z] with the wrap-around written out; [None] is a panic.
    - [BridgeLanes], [BridgeMessages]: [bridges/modules/messages/src/] with the types of
      [bridges/primitives/messages] and the weights of [primitives/weights].  [BridgeLanes] has the lanes
      ([inbound_lane.rs], [outbound_lane.rs], [lanes_manager.rs]), [BridgeMessages] the calls ([lib.rs]), the
      proofs ([proofs.rs]), the checks of the transaction pool ([call_ext.rs]) and what [close_bridge] of the
      bridge hub ([bridges/modules/xcm-bridge-hub/src/lib.rs]) does to lanes.  A lane object is a
      handle with its cached copy of the data, as in the code.  The dispatcher, the header chain, the
      payments and the chain constants are type classes over the rest [W] of the runtime.
    - [BridgeRelayers]: [bridges/modules/relayers/src/] and [bridges/primitives/relayers/src/], over the
      traits [StakeAndSlash] and [PaymentProcedure]; the adapters give them the named reserves and
      transfers of the ledger, and give the messages pallet its payments.

    - [SortedList]: the traits [SortedListProvider] and [ScoreProvider] of
      [frame/election-provider-support/src/lib.rs].
    - [BagsList]: [frame/bags-list/src/] with [list/mod.rs] and [lib.rs]: doubly linked lists in storage,
      the calls, the migration to other thresholds and the self check.
    - [StakingLedgers], [StakingSpans], [StakingVoters], [StakingBonds], [StakingAsset]: [frame/staking/src/].
      [StakingLedgers] has the arithmetic of one ledger ([lib.rs]), [StakingSpans] the computation of slashes
      ([slashing.rs]), [StakingVoters] the registers of validators and nominators, their calls, the snapshot
      of voters and its size ([pallet/impls.rs], [pallet/mod.rs], [election_size_tracker.rs]) with the
      conversions of [primitives/staking/src/currency_to_vote.rs], [StakingBonds] how ledgers are stored
      ([ledger.rs]), the calls that move stake, applying a slash, and payees, controllers and repairs,
      [StakingAsset] the stake as balance on hold ([asset.rs]).  The pallet is modelled over any sorted list
      and any currency ([StakeAsset]); its storage [StakingCore] is part of the storage of the list.

    The storage of the balances pallet is the record [State]; it contains the storage of the system
    pallet ([HasSys]), and the storage of the vesting pallet contains that of its currency.  Maps are
    [gmap]s; a bounded vector is a list with its bound checked where the code checks it.

    ** What the theorems show

    - One account ([AccountSpec], [AccountWf], [AccountFacts]): the mutator through which every balance
      changes refines a computation on one entry, whose errors, result and references are given exactly.
    - The whole ledger ([Ledger], [FungibleFacts], [TransferFacts], [ImbalanceFacts], [CurrencyFacts]):
      transfers, minting, burning, slashing and depositing on every branch; [gap] is the issuance less
      what the accounts hold, and an imbalance is exactly what closes it.
    - Reserves, holds, locks ([ReserveFacts], [RepatriateFacts], [NamedReserveFacts], [HoldFacts],
      [LockFacts], [TraitFacts]): amounts set aside, moved, slashed and given back; sorted vectors
      implement finite maps; the frozen balance is the largest lock.
    - Calls, genesis, reachability ([CallFacts], [ReachFacts]): every call keeps the
      ledger and debits only its payer; from any valid genesis without development accounts, in every
      reachable storage the issuance is exactly what the accounts hold and the forced adjustments of the
      issuance came to.
    - Vesting ([ScheduleFacts], [VestingFacts], [VestingLedger]): schedules unlock linearly and merging never
      unlocks early.  [LockPromise] is what the pallet needs of its currency; against it every call keeps
      the lock at least as large as what is unvested, the balances pallet is an instance ([ClockFacts] has
      the frame facts it needs), and so an unvested amount cannot be transferred.
    - Arithmetic ([Helpers128Facts], [BigUintFacts], [KnuthFacts], [RationalFacts],
      [PerThingsFacts], [Normalize], [FixedPointFacts]): the 128-bit and limb routines are the
      operations on [Z], long division included; fractions compare, add and round exactly; shares of a
      balance are the exact rounding; powers lose less than a part per factor; normalisation ends and
      reaches its target; signed fixed point products and quotients are exact under every rounding.
    - Lanes ([BridgeLaneFacts], [BridgeMessagesFacts], [BridgeInvariant]): the list of
      unrewarded relayers is the run-length encoding of a queue of couriers; every call keeps every lane
      in order whatever its arguments, and so does closing a bridge, which prunes and purges its lanes;
      a delivery call never panics, and the pool's checks are exact.
    - Two chains ([BridgeProtocol], [BridgeProtocolFacts], [BridgeLiveness]): a step relation in which
      relayers may submit anything, with proofs as old as they like.  In every reachable world the target
      has dispatched exactly the messages sent, once and in order, up to its nonce; couriers have been
      rewarded exactly for what is confirmed; a genuine confirmation is never refused; and if relayers
      keep serving the lane (a fairness hypothesis on runs), every message arrives and is confirmed.
      [BridgeSample] is a run.
    - Relayers ([BridgeRelayersFacts], [BridgeRelayersLedger], [BridgeRelayersSample]): [StakeLaws] and
      [PaymentLaws] are what the pallet needs of its currency; against them the stake of every registration
      stays within what the currency has on record.  The ledger satisfies them, and on it registering, deregistering, slashing, rewarding and
      claiming move exactly the amounts they should.
    - The bags list ([BagsLinks], [BagsRun], [BagsFacts], [BagsSpec], [BagsMigrate]): the links in storage
      represent a ranking, a list per threshold; every operation refines the operation on rankings, from
      any sequence of calls iteration ends and meets every account once from the highest bag down, the
      self check passes, and a migration moves exactly the accounts whose bag changes, unless it drops
      the implied top threshold.
    - Ledgers and slashes ([StakingLedgerFacts], [StakingSpanFacts]): rebonding, withdrawing and slashing
      one ledger keep its total the sum of its parts; over any sequence of slashes what is taken for a span
      is the largest slash reported in it, and computing a slash is exact for validator and nominators.
    - Staking ([StakingFacts], [StakingBondFacts], [StakingAdminFacts], [StakingStake], [StakingSnapshot],
      [StakingBags]): [SortedListLaws] and [StakeAssetLaws] are what the pallet needs of its list and its
      currency; against them, from any sequence of calls, slashes and eras, what is on hold for a stash is
      the total of its ledger, registers and list agree, and no call panics; matured stake can be
      withdrawn; the snapshot has the voters in the order of the list up to its bounds, and leaves exactly
      the least stake of the nominators looked at; retiring controllers does what a fold over their
      stashes says.  The bags list and
      the balances pallet satisfy the laws, and [StakingBags] has the composed runtime.
      [StakingSample] is a run.
    - [Findings] and the last theorems of [VestingLedger], [FixedPointFacts], [BridgeInvariant], [BagsMigrate],
      [StakingLedgerFacts], [StakingAdminFacts], [StakingSnapshot] and [StakingBags] show where the code departs from
      its comments or loses its invariants.  The configuration used by witnesses is at the end of [Ledger].

    ** Configuration and bounds

    The pallets are configured as the runtimes of the repository configure them: accounts stored in the
    system pallet, dust burnt, no handler on new and killed accounts, the feature for a zero existential
    deposit off, debug assertions off.  The balance type is any unsigned type of at least 32 bits, the
    existential deposit any positive balance.  Hypotheses on the size of balances say that a sum fits in
    the balance type, which the issuance bounds in practice.

    The bridge runs on a 32-bit machine with overflow checks on: [usize] is 32 bits wide, nonces are 64
    bits and an addition that overflows panics.  The limits on unrewarded relayers and messages are
    arbitrary.  Of storage proofs it is assumed that a proof the header chain accepts shows lanes the
    other chain had at some time ([headers_sound]), and that reading does not invent values
    ([StorageProofs]); of the runtime, a record of the messages executed and rewards paid, to which
    only those calls add ([ObservedRuntime]); of the dispatcher, that weights are pairs of 64-bit numbers and that estimating
    a weight does not change the message ([DispatchLaws]).  [BridgeSample] satisfies them all.

    The thresholds of the bags list are scores that increase, as [integrity_test] checks, and the list has
    fewer accounts than [u32::MAX]; an iteration carries one more unit of fuel than there are nodes, and is
    proved to end.  The loops over the chunks of a ledger carry one more than there are chunks.  [usize] is
    32 bits wide.  Virtual stakers are keyless: they never sign a transaction.  Indices of spans stay below
    [u32::MAX].  The composed theorems exclude three uses of the code that break the agreement, each with a theorem
    that shows how: rebagging a bonded account that is no voter, registering a voter while the list is locked, and
    retiring the same controller twice in one batch.  No ledger is restored of a stash that still has stake under
    the lock of earlier releases, and no voter is rebagged that is not bonded.

    The theorems on histories leave out further uses that break them, each named in its comment: for the ledger, a
    genesis with development accounts, a balance set by force that could push the issuance past its type, and a
    forced adjustment that takes the issuance below what is on accounts; for the lanes, sending a message whose lane
    has changed since it was validated, and calls that panic, which no block contains; for migrating the bags list,
    thresholds that no longer name the largest score.

    Loops without a structural measure carry fuel that is proved sufficient: 260 calls for the binary gcd
    (the product of the arguments halves), 140 rounds for the 256-bit division (the high half at least
    halves), 65 for the square root and for powers (the exponent halves), four tests of a digit in
    Knuth's division (each adds half the base), and in [normalize] one round per unit left over times the
    length of the vector.  A theorem about such a function states that it returns.

    ** Not modelled

    Migrations, weights and benchmarks of the two pallets; block initialisation, code upgrades and
    transaction extensions of the system pallet, which do not touch balances; storage hashing, key
    encoding and iteration; the adapters [item_of] and [union_of] and the implementations for [()].  Of the
    arithmetic library conversions from and to floating point, parsing and the textual output.
    Of the bridges: the finality and parachain-head pallets, whose content is signature cryptography and
    which appear as the class [HeaderChain]; trie proofs; the hashing of lane identifiers and of rewards
    accounts; weight tables; the transaction extension that sets priorities; XCM routing, of the bridge hub all
    but what closing a bridge does to its lanes, and the relayer processes, whose behaviour is left arbitrary.
    Of staking: eras, sessions and elections, exposures and their pages, rewards and payouts, the handling
    of offences around the computation of a slash, paying reporters, the snapshot of targets, the calls
    that set parameters, the migration of the currency, genesis and weights.
    The other pallets are clients of the traits above; consensus, networking, the client, XCM and the
    parachain node are independent of the ledger and mostly input and output. *)

From stdpp Require Import base tactics numbers list gmap.
From Stdlib Require Import ZArith Lia.

Local Open Scope Z_scope.

(** ** Hint databases and tactics of the development *)

Create HintDb frame discriminated.
Create HintDb ledger discriminated.

(** Turns the boolean tests of the code into arithmetic facts. *)
Ltac bool_to_prop :=
  repeat match goal with
  | H : (_ && _) = true |- _ => apply andb_true_iff in H as [? ?]
  | H : (_ && _) = false |- _ => apply andb_false_iff in H
  | H : (_ || _) = true |- _ => apply orb_true_iff in H
  | H : (_ || _) = false |- _ => apply orb_false_iff in H as [? ?]
  | H : negb _ = true |- _ => apply negb_true_iff in H
  | H : negb _ = false |- _ => apply negb_false_iff in H
  | H : (_ =? _)%Z = true |- _ => apply Z.eqb_eq in H
  | H : (_ =? _)%Z = false |- _ => apply Z.eqb_neq in H
  | H : (_ <=? _)%Z = true |- _ => apply Z.leb_le in H
  | H : (_ <=? _)%Z = false |- _ => apply Z.leb_gt in H
  | H : (_ <? _)%Z = true |- _ => apply Z.ltb_lt in H
  | H : (_ <? _)%Z = false |- _ => apply Z.ltb_ge in H
  | H : bool_decide _ = true |- _ => apply bool_decide_eq_true in H
  | H : bool_decide _ = false |- _ => apply bool_decide_eq_false in H
  end.

(** ** Balance arithmetic: [sp_arithmetic]'s checked and saturating operations

    A [T::Balance] is an unsigned machine integer with largest value
    [max_value]; it is kept as a [Z] between [0] and [max_value]. *)

Class BalanceType := {
  max_value : Z;
  max_value_u32 : 2 ^ 32 - 1 <= max_value;
}.

Definition u32_max : Z := 2 ^ 32 - 1.

Definition saturating_add `{BalanceType} (a b : Z) : Z := Z.min max_value (a + b).

Definition saturating_sub (a b : Z) : Z := Z.max 0 (a - b).

Definition checked_add `{BalanceType} (a b : Z) : option Z :=
  if a + b <=? max_value then Some (a + b) else None.

Definition checked_sub (a b : Z) : option Z :=
  if b <=? a then Some (a - b) else None.

(** [u32] arithmetic of the reference counters. *)
Definition u32_saturating_add (a b : Z) : Z := Z.min u32_max (a + b).

Definition is_balance `{BalanceType} (a : Z) : Prop := 0 <= a <= max_value.

Section arithmetic.
Context `{BalanceType}.

Lemma max_value_pos : 0 < max_value.
Proof. pose proof max_value_u32. lia. Qed.

Lemma saturating_add_exact a b : a + b <= max_value -> saturating_add a b = a + b.
Proof. unfold saturating_add. lia. Qed.

Lemma saturating_sub_exact a b : b <= a -> saturating_sub a b = a - b.
Proof. unfold saturating_sub. lia. Qed.

Lemma saturating_sub_floor a b : a <= b -> saturating_sub a b = 0.
Proof. unfold saturating_sub. lia. Qed.

Lemma saturating_sub_nonneg a b : 0 <= saturating_sub a b.
Proof. unfold saturating_sub. lia. Qed.

Lemma saturating_sub_le a b : 0 <= a -> 0 <= b -> saturating_sub a b <= a.
Proof. unfold saturating_sub. lia. Qed.

Lemma saturating_add_bounded a b : is_balance a -> is_balance b -> is_balance (saturating_add a b).
Proof. unfold is_balance, saturating_add. lia. Qed.

Lemma saturating_sub_bounded a b : is_balance a -> is_balance b -> is_balance (saturating_sub a b).
Proof. unfold is_balance, saturating_sub. lia. Qed.

Lemma checked_add_Some a b c : checked_add a b = Some c <-> c = a + b /\ a + b <= max_value.
Proof. unfold checked_add. destruct (Z.leb_spec (a + b) max_value); naive_solver lia. Qed.

Lemma checked_add_None a b : checked_add a b = None <-> max_value < a + b.
Proof. unfold checked_add. destruct (Z.leb_spec (a + b) max_value); naive_solver lia. Qed.

Lemma checked_sub_Some a b c : checked_sub a b = Some c <-> c = a - b /\ b <= a.
Proof. unfold checked_sub. destruct (Z.leb_spec b a); naive_solver lia. Qed.

Lemma checked_sub_None a b : checked_sub a b = None <-> a < b.
Proof. unfold checked_sub. destruct (Z.leb_spec b a); naive_solver lia. Qed.
End arithmetic.

#[export] Hint Resolve saturating_add_bounded saturating_sub_bounded saturating_sub_nonneg : ledger.

(** ** Sums over finite maps *)

Section map_sum.
Context {K V : Type} `{Countable K} (w : V -> Z).

Definition map_sum (m : gmap K V) : Z := map_fold (fun _ v acc => w v + acc) 0 m.

Lemma map_sum_empty : map_sum ∅ = 0.
Proof. apply map_fold_empty. Qed.

Lemma map_sum_insert_new m k v : m !! k = None -> map_sum (<[k := v]> m) = w v + map_sum m.
Proof. intros Hk. unfold map_sum. rewrite map_fold_insert_L; [done | intros; lia | done]. Qed.

Lemma map_sum_delete m k v : m !! k = Some v -> map_sum m = w v + map_sum (delete k m).
Proof.
  intros Hk. rewrite <- (insert_delete_id m k v Hk) at 1.
  apply map_sum_insert_new, lookup_delete_eq.
Qed.

Definition map_weight (m : gmap K V) (k : K) : Z := from_option w 0 (m !! k).

Lemma map_sum_split m k : map_sum m = map_weight m k + map_sum (delete k m).
Proof.
  unfold map_weight. destruct (m !! k) as [v |] eqn:Hk; simpl.
  - by apply map_sum_delete.
  - by rewrite delete_id.
Qed.

(** Two maps that agree away from [k] differ in their sum by the weights at [k]. *)
Lemma map_sum_update m m' k :
  (forall j, j <> k -> m' !! j = m !! j) ->
  map_sum m' = map_sum m - map_weight m k + map_weight m' k.
Proof.
  intros Hagree. rewrite (map_sum_split m k), (map_sum_split m' k).
  replace (delete k m') with (delete k m); [lia |].
  apply map_eq. intros j. destruct (decide (j = k)) as [-> |].
  - by rewrite !lookup_delete_eq.
  - rewrite !lookup_delete_ne by done. symmetry. auto.
Qed.

Lemma map_sum_nonneg m : (forall k v, m !! k = Some v -> 0 <= w v) -> 0 <= map_sum m.
Proof.
  intros Hw. induction m as [| k v m Hk IH] using map_ind.
  - by rewrite map_sum_empty.
  - rewrite map_sum_insert_new by done.
    assert (0 <= w v) by (apply (Hw k); apply lookup_insert_eq).
    enough (0 <= map_sum m) by lia.
    apply IH. intros j u Hj. apply (Hw j). rewrite lookup_insert_ne; [done |].
    intros ->. congruence.
Qed.

Lemma map_sum_weight_le m k :
  (forall k v, m !! k = Some v -> 0 <= w v) -> map_weight m k <= map_sum m.
Proof.
  intros Hw. rewrite (map_sum_split m k).
  enough (0 <= map_sum (delete k m)) by lia.
  apply map_sum_nonneg. intros j v. rewrite lookup_delete_Some. intros [_ Hj]. by apply (Hw j).
Qed.

Lemma map_sum_weight2_le m k j :
  (forall k v, m !! k = Some v -> 0 <= w v) -> k <> j ->
  map_weight m k + map_weight m j <= map_sum m.
Proof.
  intros Hw Hne. rewrite (map_sum_split m k).
  enough (map_weight m j <= map_sum (delete k m)) by lia.
  replace (map_weight m j) with (map_weight (delete k m) j).
  - assert (Hw' : forall i v, delete k m !! i = Some v -> 0 <= w v).
    { intros i v. rewrite lookup_delete_Some. intros [_ Hi]. by apply (Hw i). }
    rewrite (map_sum_split (delete k m) j).
    enough (0 <= map_sum (delete j (delete k m))) by lia.
    apply map_sum_nonneg. intros i v. rewrite lookup_delete_Some. intros [_ Hi]. by apply (Hw' i).
  - unfold map_weight. by rewrite lookup_delete_ne.
Qed.
End map_sum.

Arguments map_sum {K V _ _} w m.
Arguments map_weight {K V _ _} w m k.

(** ** Sums over lists *)

Section list_sum.
Context {A : Type} (w : A -> Z).

Fixpoint list_sum (l : list A) : Z :=
  match l with
  | [] => 0
  | x :: l => w x + list_sum l
  end.

Lemma list_sum_app l1 l2 : list_sum (l1 ++ l2) = list_sum l1 + list_sum l2.
Proof. induction l1 as [| x l1 IH]; simpl; lia. Qed.

Lemma list_sum_nonneg l : (forall x, x ∈ l -> 0 <= w x) -> 0 <= list_sum l.
Proof.
  induction l as [| x l IH]; intros Hw; simpl; [lia |].
  assert (0 <= w x) by (apply Hw; left).
  assert (0 <= list_sum l) by (apply IH; intros y Hy; apply Hw; by right). lia.
Qed.

Lemma list_sum_insert l i x y :
  l !! i = Some x -> list_sum (<[i := y]> l) = list_sum l - w x + w y.
Proof.
  revert i. induction l as [| z l IH]; intros [| i] Hi; simplify_eq/=; [lia |].
  rewrite (IH _ Hi). lia.
Qed.

Lemma list_sum_delete l i x : l !! i = Some x -> list_sum (delete i l) = list_sum l - w x.
Proof.
  revert i. induction l as [| z l IH]; intros [| i] Hi; simplify_eq/=; [lia |].
  rewrite (IH _ Hi). lia.
Qed.

Lemma list_sum_lookup_le l i x :
  (forall x, x ∈ l -> 0 <= w x) -> l !! i = Some x -> w x <= list_sum l.
Proof.
  intros Hw Hi. pose proof (list_sum_delete l i x Hi).
  enough (0 <= list_sum (delete i l)) by lia.
  apply list_sum_nonneg. intros y Hy. apply Hw.
  rewrite <- (take_drop_middle l i x Hi). rewrite delete_take_drop in Hy. set_solver.
Qed.
End list_sum.
