(* ===== verification/Dispatch.v ===== *)
(** * Fallible, storage-threading computations

    The runtime's functions read and write storage, return a [Result] whose
    error is a [DispatchError], and may panic.  A failing function does not undo
    the writes it made before it failed: only a storage layer
    ([with_storage_layer], around every dispatchable) does.  The monad [M] keeps
    exactly that: the state a computation ends in is returned on every path.

    The file also holds the storage-map accessors of [frame_support] and Rust's
    drop glue, as a type class: a value that goes out of scope on an early return
    may itself write storage (imbalances do). *)

From stdpp Require Import base tactics numbers list gmap.
From Stdlib Require Import String.
From S2P Require Import Prelude.
Local Open Scope Z_scope.

(** ** Errors *)

Inductive TokenError :=
  | FundsUnavailable
  | OnlyProvider
  | BelowMinimum
  | CannotCreate
  | UnknownAsset
  | Frozen
  | Unsupported
  | CannotCreateHold
  | NotExpendable
  | Blocked.

Inductive ArithmeticError :=
  | Underflow
  | Overflow
  | DivisionByZero.

(** A pallet's own error is its pallet index and the index of the variant. *)
Inductive DispatchError :=
  | Other (msg : string)
  | CannotLookup
  | BadOrigin
  | ModuleError (index error : Z)
  | ConsumerRemaining
  | NoProviders
  | TooManyConsumers
  | Token (e : TokenError)
  | Arithmetic (e : ArithmeticError)
  | Exhausted
  | Corruption
  | Unavailable
  | RootNotAllowed.

#[export] Instance TokenError_eq_dec : EqDecision TokenError.
Proof. solve_decision. Defined.
#[export] Instance ArithmeticError_eq_dec : EqDecision ArithmeticError.
Proof. solve_decision. Defined.
#[export] Instance DispatchError_eq_dec : EqDecision DispatchError.
Proof. solve_decision. Defined.

(** ** The monad *)

Inductive Res (A : Type) :=
  | Ok (a : A)
  | Err (e : DispatchError)
  | Panic.
Arguments Ok {A} a.
Arguments Err {A} e.
Arguments Panic {A}.

Definition M (S A : Type) : Type := S -> Res A * S.

Definition ret {S A} (a : A) : M S A := fun s => (Ok a, s).

Definition bind {S A B} (m : M S A) (f : A -> M S B) : M S B := fun s =>
  match m s with
  | (Ok a, s') => f a s'
  | (Err e, s') => (Err e, s')
  | (Panic, s') => (Panic, s')
  end.

Definition fail {S A} (e : DispatchError) : M S A := fun s => (Err e, s).

Definition panic {S A} : M S A := fun s => (Panic, s).

Definition gets {S A} (f : S -> A) : M S A := fun s => (Ok (f s), s).

Definition modify {S} (f : S -> S) : M S unit := fun s => (Ok tt, f s).

Declare Scope frame_scope.
Delimit Scope frame_scope with frame.
#[global] Open Scope frame_scope.

Notation "x <- m ;; k" := (bind m (fun x => k))
  (at level 20, m at level 99, k at level 200, right associativity) : frame_scope.
Notation "' p <- m ;; k" := (bind m (fun x => match x with p => k end))
  (at level 20, p pattern, m at level 99, k at level 200, right associativity) : frame_scope.
Notation "'do' m ;; k" := (bind m (fun _ => k))
  (at level 20, m at level 99, k at level 200, right associativity) : frame_scope.

(** [ensure!(c, e)] *)
Definition ensure {S} (c : bool) (e : DispatchError) : M S unit :=
  if c then ret tt else fail e.

(** [o.ok_or(e)?] *)
Definition ok_or {S A} (o : option A) (e : DispatchError) : M S A :=
  match o with
  | Some a => ret a
  | None => fail e
  end.

(** [assert!(c)] *)
Definition rust_assert {S} (c : bool) : M S unit := if c then ret tt else panic.

(** [a - b] and [a + b] with overflow checks on. *)
Definition rust_sub {S} (a b : Z) : M S Z := if b <=? a then ret (a - b) else panic.
Definition rust_add `{BalanceType} {S} (a b : Z) : M S Z :=
  if a + b <=? max_value then ret (a + b) else panic.

(** A [Result] taken as a value, as a [match] or [let _ =] on it does: the error
    no longer propagates, the storage writes stay. *)
Definition try {S A} (m : M S A) : M S (A + DispatchError) := fun s =>
  match m s with
  | (Ok a, s') => (Ok (inl a), s')
  | (Err e, s') => (Ok (inr e), s')
  | (Panic, s') => (Panic, s')
  end.

Definition when {S} (c : bool) (m : M S unit) : M S unit := if c then m else ret tt.

Fixpoint for_each {S A} (l : list A) (f : A -> M S unit) : M S unit :=
  match l with
  | [] => ret tt
  | x :: l => do f x ;; for_each l f
  end.

(** [with_storage_layer]: an error rolls the storage back. *)
Definition with_storage_layer {S A} (m : M S A) : M S A := fun s =>
  match m s with
  | (Ok a, s') => (Ok a, s')
  | (Err e, _) => (Err e, s)
  | (Panic, s') => (Panic, s')
  end.

(** ** Drop glue *)

Class Droppable (S A : Type) := drop_value : A -> S -> S.

#[export] Instance drop_unit S : Droppable S unit := fun _ s => s.
#[export] Instance drop_Z S : Droppable S Z := fun _ s => s.
#[export] Instance drop_pair S A B `{Droppable S A} `{Droppable S B} : Droppable S (A * B) :=
  fun p s => drop_value (snd p) (drop_value (fst p) s).
#[export] Instance drop_option S A `{Droppable S A} : Droppable S (option A) :=
  fun o s => match o with Some a => drop_value a s | None => s end.
#[export] Instance drop_result S A `{Droppable S A} : Droppable S (A + DispatchError) :=
  fun r s => match r with inl a => drop_value a s | inr _ => s end.

(** ** Storage maps *)

Record Lens (S A : Type) := { lget : S -> A; lset : A -> S -> S }.
Arguments lget {S A} _ _.
Arguments lset {S A} _ _ _.

Section storage_map.
Context {S K V : Type} `{Countable K} (L : Lens S (gmap K V)).

(** A closure [FnOnce(&mut V) -> Result<R, E>] returns its result and the
    final value of the reference. *)
Definition map_try_mutate {R} (dflt : V) (k : K) (f : V -> M S (R * V)) : M S R := fun s =>
  match f (default dflt (lget L s !! k)) s with
  | (Ok (r, v), s') => (Ok r, lset L (<[k := v]> (lget L s')) s')
  | (Err e, s') => (Err e, s')
  | (Panic, s') => (Panic, s')
  end.

Definition map_try_mutate_exists {R} (k : K) (f : option V -> M S (R * option V)) : M S R :=
  fun s =>
  match f (lget L s !! k) s with
  | (Ok (r, Some v), s') => (Ok r, lset L (<[k := v]> (lget L s')) s')
  | (Ok (r, None), s') => (Ok r, lset L (delete k (lget L s')) s')
  | (Err e, s') => (Err e, s')
  | (Panic, s') => (Panic, s')
  end.

Definition map_mutate {R} (dflt : V) (k : K) (f : V -> M S (R * V)) : M S R :=
  map_try_mutate dflt k f.

Definition map_mutate_exists {R} (k : K) (f : option V -> M S (R * option V)) : M S R :=
  map_try_mutate_exists k f.

Definition storage_insert (k : K) (v : V) : M S unit :=
  modify (fun s => lset L (<[k := v]> (lget L s)) s).

Definition storage_remove (k : K) : M S unit :=
  modify (fun s => lset L (delete k (lget L s)) s).
End storage_map.

(** ** Postconditions

    [wp m s Q]: running [m] from [s] gives an outcome and a final state in [Q]. *)

Definition wp {S A} (m : M S A) (s : S) (Q : Res A -> S -> Prop) : Prop :=
  Q (fst (m s)) (snd (m s)).

(** [no_panic m s Q E]: the computation does not panic, ends in [Q] on [Ok] and in [E] on [Err]. *)
Definition outcome {A S} (Q : A -> S -> Prop) (E : DispatchError -> S -> Prop)
    (r : Res A) (s : S) : Prop :=
  match r with
  | Ok a => Q a s
  | Err e => E e s
  | Panic => False
  end.

Section wp.
Context {S : Type}.

Lemma wp_ret {A} (a : A) (s : S) Q : Q (Ok a) s -> wp (ret a) s Q.
Proof. done. Qed.

Lemma wp_fail {A} e (s : S) (Q : Res A -> S -> Prop) : Q (Err e) s -> wp (fail e) s Q.
Proof. done. Qed.

Lemma wp_bind {A B} (m : M S A) (f : A -> M S B) (s : S) Q :
  wp m s (fun r s' =>
    match r with
    | Ok a => wp (f a) s' Q
    | Err e => Q (Err e) s'
    | Panic => Q Panic s'
    end) ->
  wp (bind m f) s Q.
Proof. unfold wp, bind. by destruct (m s) as [[a | e |] s']. Qed.

Lemma wp_gets {A} (f : S -> A) (s : S) Q : Q (Ok (f s)) s -> wp (gets f) s Q.
Proof. done. Qed.

Lemma wp_modify (f : S -> S) (s : S) Q : Q (Ok tt) (f s) -> wp (modify f) s Q.
Proof. done. Qed.

Lemma wp_mono {A} (m : M S A) (s : S) (Q Q' : Res A -> S -> Prop) :
  wp m s Q -> (forall r s', Q r s' -> Q' r s') -> wp m s Q'.
Proof. unfold wp. auto. Qed.

Lemma wp_and {A} (m : M S A) (s : S) (Q Q' : Res A -> S -> Prop) :
  wp m s Q -> wp m s Q' -> wp m s (fun r s' => Q r s' /\ Q' r s').
Proof. unfold wp. auto. Qed.

Lemma wp_run {A} (m : M S A) (s : S) Q r s' : wp m s Q -> m s = (r, s') -> Q r s'.
Proof. unfold wp. intros HQ Hm. by rewrite Hm in HQ. Qed.

Lemma wp_fst {A} (m : M S A) (s : S) Q r : wp m s Q -> fst (m s) = r -> Q r (snd (m s)).
Proof. by intros HQ <-. Qed.

Lemma wp_ensure (c : bool) e (s : S) (Q : Res unit -> S -> Prop) :
  (c = true -> Q (Ok tt) s) -> (c = false -> Q (Err e) s) -> wp (ensure c e) s Q.
Proof. destruct c; unfold wp; auto. Qed.

Lemma wp_ok_or {A} (o : option A) e (s : S) (Q : Res A -> S -> Prop) :
  (forall a, o = Some a -> Q (Ok a) s) -> (o = None -> Q (Err e) s) -> wp (ok_or o e) s Q.
Proof. intros HS HN. destruct o as [a |]; [apply (HS a eq_refl) | apply (HN eq_refl)]. Qed.

Lemma wp_try {A} (m : M S A) (s : S) Q :
  wp m s (fun r s' =>
    match r with
    | Ok a => Q (Ok (inl a)) s'
    | Err e => Q (Ok (inr e)) s'
    | Panic => Q Panic s'
    end) ->
  wp (try m) s Q.
Proof. unfold wp, try. by destruct (m s) as [[a | e |] s']. Qed.

Lemma wp_storage_layer {A} (m : M S A) (s : S) Q :
  wp m s (fun r s' =>
    match r with
    | Ok a => Q (Ok a) s'
    | Err e => Q (Err e) s
    | Panic => Q Panic s'
    end) ->
  wp (with_storage_layer m) s Q.
Proof. unfold wp, with_storage_layer. by destruct (m s) as [[a | e |] s']. Qed.

Lemma bind_ret_l {A B} (a : A) (f : A -> M S B) s : bind (ret a) f s = f a s.
Proof. done. Qed.

Lemma bind_ext {A B} (m : M S A) (f g : A -> M S B) s :
  (forall a s', f a s' = g a s') -> bind m f s = bind m g s.
Proof. intros Hfg. unfold bind. by destruct (m s) as [[a | e |] s']. Qed.

Lemma bind_Ok {A B} (m : M S A) (f : A -> M S B) s a s' :
  m s = (Ok a, s') -> bind m f s = f a s'.
Proof. unfold bind. by intros ->. Qed.

Lemma bind_Err {A B} (m : M S A) (f : A -> M S B) s e s' :
  m s = (Err e, s') -> bind m f s = (Err e, s').
Proof. unfold bind. by intros ->. Qed.

(** An invariant of the body is an invariant of the loop. *)
Lemma wp_for_each {A} (l : list A) (f : A -> M S unit) (I : S -> Prop) s :
  I s ->
  (forall x s, x ∈ l -> I s -> wp (f x) s (outcome (fun _ => I) (fun _ => I))) ->
  wp (for_each l f) s (outcome (fun _ => I) (fun _ => I)).
Proof.
  revert s. induction l as [| x l IH]; intros s HI Hf; simpl; [done |].
  apply wp_bind. eapply wp_mono; [apply Hf; [left | done] |].
  intros [[] | e |] s' Hs'; simpl in *; try done.
  apply IH; [done |]. intros y t Hy Ht. apply Hf; [by right | done].
Qed.
End wp.

Section wp_storage.
Context {S K V : Type} `{Countable K} (L : Lens S (gmap K V)).

Lemma wp_map_try_mutate {R} dflt k (f : V -> M S (R * V)) s Q :
  wp (f (default dflt (lget L s !! k))) s (fun r s' =>
    match r with
    | Ok (x, v) => Q (Ok x) (lset L (<[k := v]> (lget L s')) s')
    | Err e => Q (Err e) s'
    | Panic => Q Panic s'
    end) ->
  wp (map_try_mutate L dflt k f) s Q.
Proof. unfold wp, map_try_mutate. by destruct (f _ s) as [[[x v] | e |] s']. Qed.

Lemma wp_map_try_mutate_exists {R} k (f : option V -> M S (R * option V)) s Q :
  wp (f (lget L s !! k)) s (fun r s' =>
    match r with
    | Ok (x, Some v) => Q (Ok x) (lset L (<[k := v]> (lget L s')) s')
    | Ok (x, None) => Q (Ok x) (lset L (delete k (lget L s')) s')
    | Err e => Q (Err e) s'
    | Panic => Q Panic s'
    end) ->
  wp (map_try_mutate_exists L k f) s Q.
Proof. unfold wp, map_try_mutate_exists. by destruct (f _ s) as [[[x [v |]] | e |] s']. Qed.
End wp_storage.

(** One step of symbolic execution. *)
Ltac wp_step :=
  lazymatch goal with
  | |- wp (bind _ _) _ _ => apply wp_bind
  | |- wp (ret _) _ _ => apply wp_ret
  | |- wp (fail _) _ _ => apply wp_fail
  | |- wp (gets _) _ _ => apply wp_gets
  | |- wp (modify _) _ _ => apply wp_modify
  | |- wp (ensure _ _) _ _ => apply wp_ensure; intros
  | |- wp (ok_or _ _) _ _ => apply wp_ok_or; intros
  | |- wp (try _) _ _ => apply wp_try
  end.
Ltac wp_steps := repeat (wp_step; cbn beta iota).
