(* ===== verification/System.v ===== *)
(** * The account registry of [frame_system]

    [src/substrate/frame/system/src/lib.rs]: the [Account] map with its provider,
    consumer and sufficient reference counters, the event record, and the
    [StoredMap] through which a pallet keeps its own data inside the system
    account.  [OnNewAccount] and [OnKilledAccount] are [()], as every runtime of
    the repository configures them. *)

From stdpp Require Import base tactics numbers list gmap.
From S2P Require Import Prelude Dispatch.
Local Open Scope Z_scope.

(** An account identifier: an opaque key with a total order. *)
Abbreviation AccountId := N (only parsing).

(** ** Data *)

Record AccountInfo (D : Type) := {
  ai_nonce : Z;
  ai_consumers : Z;
  ai_providers : Z;
  ai_sufficients : Z;
  ai_data : D;
}.
Arguments ai_nonce {D} _.
Arguments ai_consumers {D} _.
Arguments ai_providers {D} _.
Arguments ai_sufficients {D} _.
Arguments ai_data {D} _.
Arguments Build_AccountInfo {D} _ _ _ _ _.

Definition set_consumers {D} (a : AccountInfo D) (n : Z) : AccountInfo D :=
  Build_AccountInfo (ai_nonce a) n (ai_providers a) (ai_sufficients a) (ai_data a).
Definition set_providers {D} (a : AccountInfo D) (n : Z) : AccountInfo D :=
  Build_AccountInfo (ai_nonce a) (ai_consumers a) n (ai_sufficients a) (ai_data a).
Definition set_sufficients {D} (a : AccountInfo D) (n : Z) : AccountInfo D :=
  Build_AccountInfo (ai_nonce a) (ai_consumers a) (ai_providers a) n (ai_data a).
Definition set_data {D} (a : AccountInfo D) (d : D) : AccountInfo D :=
  Build_AccountInfo (ai_nonce a) (ai_consumers a) (ai_providers a) (ai_sufficients a) d.

Inductive IncRefStatus := Created | Existed.
Inductive DecRefStatus := Reaped | Exists.

Inductive Phase :=
  | ApplyExtrinsic (n : Z)
  | Finalization
  | Initialization.

Inductive SystemEvent :=
  | NewAccount (account : AccountId)
  | KilledAccount (account : AccountId).

Record EventRecord (E : Type) := { er_phase : Phase; er_event : E; er_topics : list N }.
Arguments er_event {E} _.
Arguments Build_EventRecord {E} _ _ _.

Record Sys (D E : Type) := {
  Account : gmap AccountId (AccountInfo D);
  Number : Z;
  ExecutionPhase : option Phase;
  EventCount : Z;
  Events : list (EventRecord E);
}.
Arguments Account {D E} _.
Arguments Number {D E} _.
Arguments ExecutionPhase {D E} _.
Arguments EventCount {D E} _.
Arguments Events {D E} _.
Arguments Build_Sys {D E} _ _ _ _ _.

(** What a runtime tells the pallet. *)
Class SystemConfig (D E : Type) := {
  data_default : D;
  data_eq_dec :: EqDecision D;
  system_event : SystemEvent -> E;
  max_consumers : Z;
}.

Section system.
Context {D E : Type} `{SystemConfig D E}.
Abbreviation Sys := (Sys D E).

Definition AccountL : Lens Sys (gmap AccountId (AccountInfo D)) := {|
  lget := Account;
  lset m s := Build_Sys m (Number s) (ExecutionPhase s) (EventCount s) (Events s);
|}.

Definition AccountInfo_default : AccountInfo D := Build_AccountInfo 0 0 0 0 data_default.

(** [Account::<T>::get] *)
Definition account_get (who : AccountId) (s : Sys) : AccountInfo D :=
  default AccountInfo_default (Account s !! who).

Definition account_exists (who : AccountId) (s : Sys) : bool :=
  bool_decide (is_Some (Account s !! who)).

(** ** Events *)

Definition deposit_event (e : E) (s : Sys) : Sys :=
  if Number s =? 0 then s else
  let phase := default Initialization (ExecutionPhase s) in
  if u32_max <? EventCount s + 1 then s else
  Build_Sys (Account s) (Number s) (ExecutionPhase s) (EventCount s + 1)
    (Events s ++ [Build_EventRecord phase e []]).

Definition on_created_account (who : AccountId) : Sys -> Sys :=
  deposit_event (system_event (NewAccount who)).

Definition on_killed_account (who : AccountId) : Sys -> Sys :=
  deposit_event (system_event (KilledAccount who)).

(** ** Reference counters *)

Definition inc_providers (who : AccountId) : M Sys IncRefStatus :=
  map_mutate AccountL AccountInfo_default who (fun a =>
    if (ai_providers a =? 0) && (ai_sufficients a =? 0) then
      do modify (on_created_account who) ;;
      ret (Created, set_providers a 1)
    else ret (Existed, set_providers a (u32_saturating_add (ai_providers a) 1))).

Definition dec_providers (who : AccountId) : M Sys DecRefStatus :=
  map_try_mutate_exists AccountL who (fun maybe_account =>
    match maybe_account with
    | Some account =>
        let account := if ai_providers account =? 0 then set_providers account 1 else account in
        if (ai_providers account =? 1) && (ai_consumers account =? 0)
           && (ai_sufficients account =? 0) then
          do modify (on_killed_account who) ;;
          ret (Reaped, None)
        else if (ai_providers account =? 1) && (0 <? ai_consumers account) then
          fail ConsumerRemaining
        else
          ret (Exists, Some (set_providers account (ai_providers account - 1)))
    | None => ret (Reaped, None)
    end).

Definition inc_sufficients (who : AccountId) : M Sys IncRefStatus :=
  map_mutate AccountL AccountInfo_default who (fun a =>
    if ai_providers a + ai_sufficients a =? 0 then
      do modify (on_created_account who) ;;
      ret (Created, set_sufficients a 1)
    else ret (Existed, set_sufficients a (u32_saturating_add (ai_sufficients a) 1))).

Definition dec_sufficients (who : AccountId) : M Sys DecRefStatus :=
  map_mutate_exists AccountL who (fun maybe_account =>
    match maybe_account with
    | Some account =>
        if ((ai_sufficients account =? 0) || (ai_sufficients account =? 1))
           && (ai_providers account =? 0) then
          do modify (on_killed_account who) ;;
          ret (Reaped, None)
        else
          ret (Exists, Some (set_sufficients account (saturating_sub (ai_sufficients account) 1)))
    | None => ret (Reaped, None)
    end).

Definition providers (who : AccountId) (s : Sys) : Z := ai_providers (account_get who s).
Definition sufficients (who : AccountId) (s : Sys) : Z := ai_sufficients (account_get who s).
Definition consumers (who : AccountId) (s : Sys) : Z := ai_consumers (account_get who s).

Definition inc_consumers (who : AccountId) : M Sys unit :=
  map_try_mutate AccountL AccountInfo_default who (fun a =>
    if 0 <? ai_providers a then
      if ai_consumers a <? max_consumers then
        ret (tt, set_consumers a (u32_saturating_add (ai_consumers a) 1))
      else fail TooManyConsumers
    else fail NoProviders).

Definition inc_consumers_without_limit (who : AccountId) : M Sys unit :=
  map_try_mutate AccountL AccountInfo_default who (fun a =>
    if 0 <? ai_providers a then
      ret (tt, set_consumers a (u32_saturating_add (ai_consumers a) 1))
    else fail NoProviders).

Definition dec_consumers (who : AccountId) : M Sys unit :=
  map_mutate AccountL AccountInfo_default who (fun a =>
    if 0 <? ai_consumers a then ret (tt, set_consumers a (ai_consumers a - 1))
    else ret (tt, a)).

Definition is_provider_required (who : AccountId) (s : Sys) : bool :=
  negb (consumers who s =? 0).

Definition can_dec_provider (who : AccountId) (s : Sys) : bool :=
  let a := account_get who s in
  (ai_consumers a =? 0) || (1 <? ai_providers a).

Definition can_accrue_consumers (who : AccountId) (amount : Z) (s : Sys) : bool :=
  let a := account_get who s in
  if ai_consumers a + amount <=? u32_max then
    (0 <? ai_providers a) && (ai_consumers a + amount <=? max_consumers)
  else false.

Definition can_inc_consumer (who : AccountId) (s : Sys) : bool :=
  can_accrue_consumers who 1 s.
End system.

(** ** The system account as a [StoredMap]

    The closure a pallet passes to [try_mutate_exists] runs on the storage of the
    whole runtime, so the map is defined for any storage that contains the
    system's. *)

Class HasSys (S D E : Type) := {
  sys : S -> Sys D E;
  set_sys : Sys D E -> S -> S;
}.

Section stored_map.
Context {S D E : Type} `{SystemConfig D E} `{HasSys S D E}.

Definition lift_sys {A} (m : M (Sys D E) A) : M S A := fun s =>
  let '(r, s') := m (sys s) in (r, set_sys s' s).

Definition stored_get (k : AccountId) (s : S) : D := ai_data (account_get k (sys s)).

Definition try_mutate_exists {R} (k : AccountId) (f : option D -> M S (R * option D)) : M S R :=
  account <- gets (fun s => account_get k (sys s)) ;;
  let is_default := bool_decide (ai_data account = data_default) in
  let some_data := if is_default then None else Some (ai_data account) in
  '(result, some_data) <- f some_data ;;
  keep <- gets (fun s => (0 <? providers k (sys s)) || (0 <? sufficients k (sys s))) ;;
  do (if keep : bool then
        lift_sys (map_mutate AccountL AccountInfo_default k (fun a =>
          ret (tt, set_data a (default data_default some_data))))
      else lift_sys (storage_remove AccountL k)) ;;
  ret result.

(** The trait's derived operations ([support/src/traits/stored_map.rs]). *)

Definition stored_mutate_exists {R} (k : AccountId) (f : option D -> M S (R * option D)) :
    M S R :=
  try_mutate_exists k f.

Definition stored_mutate {R} (k : AccountId) (f : D -> M S (R * D)) : M S R :=
  stored_mutate_exists k (fun maybe_account =>
    '(r, account) <- f (default data_default maybe_account) ;;
    ret (r, Some account)).

Definition stored_insert (k : AccountId) (t : D) : M S unit :=
  stored_mutate k (fun _ => ret (tt, t)).

Definition stored_remove (k : AccountId) : M S unit :=
  stored_mutate_exists k (fun _ => ret (tt, None)).
End stored_map.
