(* ===== verification/Tokens.v ===== *)
(** * Token vocabulary

    [src/substrate/frame/support/src/traits/tokens/misc.rs] and the imbalance
    types: how a withdrawal or deposit is to be performed, what its consequence
    would be, and the linear-like values that record that issuance and balances
    have come apart. *)

From stdpp Require Import base tactics numbers.
From S2P Require Import Prelude Dispatch.
Local Open Scope Z_scope.

Inductive Provenance := Minted | Extant.
Inductive Restriction := Free | OnHold.
Inductive Preservation := Expendable | Protect | Preserve.
Inductive Fortitude := Polite | Force.
Inductive Precision := Exact | BestEffort.
Inductive ExistenceRequirement := KeepAlive | AllowDeath.
Inductive BalanceStatus := StatusFree | StatusReserved.

#[export] Instance Provenance_eq_dec : EqDecision Provenance.
Proof. solve_decision. Defined.
#[export] Instance Restriction_eq_dec : EqDecision Restriction.
Proof. solve_decision. Defined.
#[export] Instance Preservation_eq_dec : EqDecision Preservation.
Proof. solve_decision. Defined.
#[export] Instance Fortitude_eq_dec : EqDecision Fortitude.
Proof. solve_decision. Defined.
#[export] Instance Precision_eq_dec : EqDecision Precision.
Proof. solve_decision. Defined.
#[export] Instance ExistenceRequirement_eq_dec : EqDecision ExistenceRequirement.
Proof. solve_decision. Defined.
#[export] Instance BalanceStatus_eq_dec : EqDecision BalanceStatus.
Proof. solve_decision. Defined.

Inductive WithdrawConsequence :=
  | WithdrawBalanceLow
  | WithdrawWouldDie
  | WithdrawUnknownAsset
  | WithdrawUnderflow
  | WithdrawOverflow
  | WithdrawFrozen
  | WithdrawReducedToZero (amount : Z)
  | WithdrawSuccess.

Definition withdraw_into_result {S} (c : WithdrawConsequence) (keep_nonzero : bool) : M S Z :=
  match c with
  | WithdrawBalanceLow => fail (Token FundsUnavailable)
  | WithdrawWouldDie => fail (Token OnlyProvider)
  | WithdrawUnknownAsset => fail (Token UnknownAsset)
  | WithdrawUnderflow => fail (Arithmetic Underflow)
  | WithdrawOverflow => fail (Arithmetic Overflow)
  | WithdrawFrozen => fail (Token Frozen)
  | WithdrawReducedToZero result =>
      if keep_nonzero then fail (Token NotExpendable) else ret result
  | WithdrawSuccess => ret 0
  end.

Inductive DepositConsequence :=
  | DepositBelowMinimum
  | DepositCannotCreate
  | DepositUnknownAsset
  | DepositOverflow
  | DepositSuccess
  | DepositBlocked.

#[export] Instance DepositConsequence_eq_dec : EqDecision DepositConsequence.
Proof. solve_decision. Defined.
#[export] Instance WithdrawConsequence_eq_dec : EqDecision WithdrawConsequence.
Proof. solve_decision. Defined.

Definition deposit_into_result {S} (c : DepositConsequence) : M S unit :=
  match c with
  | DepositBelowMinimum => fail (Token BelowMinimum)
  | DepositCannotCreate => fail (Token CannotCreate)
  | DepositUnknownAsset => fail (Token UnknownAsset)
  | DepositOverflow => fail (Arithmetic Overflow)
  | DepositBlocked => fail (Token Blocked)
  | DepositSuccess => ret tt
  end.

(** [WithdrawReasons], a set of flags in a [u8]. *)
Definition WR_TRANSACTION_PAYMENT : Z := 1.
Definition WR_TRANSFER : Z := 2.
Definition WR_RESERVE : Z := 4.
Definition WR_FEE : Z := 8.
Definition WR_TIP : Z := 16.
Definition WR_all : Z := 31.

Definition wr_is_empty (r : Z) : bool := r =? 0.
Definition wr_contains (r one : Z) : bool := Z.land r one =? one.
Definition wr_except (one : Z) : Z := Z.lxor WR_all one.

Record IdAmount := { ia_id : N; ia_amount : Z }.

#[export] Instance IdAmount_eq_dec : EqDecision IdAmount.
Proof. solve_decision. Defined.

(** ** Imbalances

    [PositiveImbalance] (funds created) and [NegativeImbalance] (funds destroyed)
    of the [Currency] family; [Debt] and [Credit] of the [fungible] family.  The
    amount is all a value carries; what dropping it does is in the pallet. *)

Inductive PositiveImbalance := PosImb (amount : Z).
Inductive NegativeImbalance := NegImb (amount : Z).
Inductive SignedImbalance := SPositive (p : PositiveImbalance) | SNegative (n : NegativeImbalance).
Inductive Debt := MkDebt (amount : Z).
Inductive Credit := MkCredit (amount : Z).
Inductive SameOrOther (A B : Type) := SONone | SOSame (a : A) | SOOther (b : B).
Arguments SONone {A B}.
Arguments SOSame {A B} a.
Arguments SOOther {A B} b.

(** The [Imbalance] trait.  [imb_new] and [imb_peek] are the private
    constructor and accessor both implementations have. *)
Class Imbalance (I O : Type) := {
  imb_new : Z -> I;
  imb_peek : I -> Z;
  imb_opp : Z -> O;
  imb_opp_peek : O -> Z;
}.

#[export] Instance Imbalance_Positive : Imbalance PositiveImbalance NegativeImbalance := {|
  imb_new := PosImb; imb_peek '(PosImb a) := a;
  imb_opp := NegImb; imb_opp_peek '(NegImb a) := a |}.
#[export] Instance Imbalance_Negative : Imbalance NegativeImbalance PositiveImbalance := {|
  imb_new := NegImb; imb_peek '(NegImb a) := a;
  imb_opp := PosImb; imb_opp_peek '(PosImb a) := a |}.
#[export] Instance Imbalance_Debt : Imbalance Debt Credit := {|
  imb_new := MkDebt; imb_peek '(MkDebt a) := a;
  imb_opp := MkCredit; imb_opp_peek '(MkCredit a) := a |}.
#[export] Instance Imbalance_Credit : Imbalance Credit Debt := {|
  imb_new := MkCredit; imb_peek '(MkCredit a) := a;
  imb_opp := MkDebt; imb_opp_peek '(MkDebt a) := a |}.

Section imbalance.
Context `{BalanceType} {I O : Type} `{Imbalance I O}.

Definition imb_zero : I := imb_new 0.

(** [Ok(())] is [None]: the zero imbalance is gone. *)
Definition drop_zero (i : I) : option I :=
  if imb_peek i =? 0 then None else Some i.

Definition split (i : I) (amount : Z) : I * I :=
  let first := Z.min (imb_peek i) amount in
  let second := imb_peek i - first in
  (imb_new first, imb_new second).

(** The extracted imbalance and what [&mut self] is left with. *)
Definition extract (i : I) (amount : Z) : I * I :=
  let new := Z.min (imb_peek i) amount in
  (imb_new new, imb_new (imb_peek i - new)).

Definition merge (i other : I) : I := imb_new (saturating_add (imb_peek i) (imb_peek other)).

Definition subsume (i other : I) : I := imb_new (saturating_add (imb_peek i) (imb_peek other)).

Definition offset (i : I) (other : O) : SameOrOther I O :=
  let a := imb_peek i in
  let b := imb_opp_peek other in
  if b <? a then SOSame (imb_new (a - b))
  else if a <? b then SOOther (imb_opp (b - a))
  else SONone.

(** The trait's default methods.  [ration] drops [self] when both shares are zero. *)

Definition ration {S} `{Droppable S I} (i : I) (first second : Z) : M S (I * I) :=
  let total := u32_saturating_add first second in
  if total =? 0 then
    do modify (drop_value i) ;;
    ret (imb_zero, imb_zero)
  else
    let amount1 := Z.min max_value (imb_peek i * first) / total in
    ret (split i amount1).

Definition split_merge (i : I) (amount : Z) (others : I * I) : I * I :=
  let '(a, b) := split i amount in
  (merge a (fst others), merge b (snd others)).

Definition ration_merge {S} `{Droppable S I} (i : I) (first second : Z) (others : I * I) :
    M S (I * I) :=
  '(a, b) <- ration i first second ;;
  ret (merge a (fst others), merge b (snd others)).

(** What the [&mut] argument becomes. *)
Definition split_merge_into (i : I) (amount : Z) (others : I * I) : I * I :=
  let '(a, b) := split i amount in
  (subsume (fst others) a, subsume (snd others) b).

Definition ration_merge_into {S} `{Droppable S I} (i : I) (first second : Z) (others : I * I) :
    M S (I * I) :=
  '(a, b) <- ration i first second ;;
  ret (subsume (fst others) a, subsume (snd others) b).

Definition merge_into (i other : I) : I := subsume other i.

Definition maybe_merge (i : I) (other : option I) : I :=
  match other with
  | Some o => merge i o
  | None => i
  end.

Definition maybe_subsume (i : I) (other : option I) : I :=
  match other with
  | Some o => subsume i o
  | None => i
  end.
End imbalance.

(** [SignedImbalance::merge] *)
Definition signed_merge `{BalanceType} (one other : SignedImbalance) : SignedImbalance :=
  let mixed (p : PositiveImbalance) (n : NegativeImbalance) :=
    match offset p n with
    | SOSame positive => SPositive positive
    | SOOther negative => SNegative negative
    | SONone => SPositive imb_zero
    end in
  match one, other with
  | SPositive one, SPositive other => SPositive (merge one other)
  | SNegative one, SNegative other => SNegative (merge one other)
  | SPositive one, SNegative other => mixed one other
  | SNegative one, SPositive other => mixed other one
  end.
