(* ===== verification/Fungible.v ===== *)
(** * The [fungible] traits

    [src/substrate/frame/support/src/traits/tokens/fungible/]: what a token class
    must provide ([Inspect], [Unbalanced] and the hold and freeze counterparts)
    as type classes over the storage [S], and the provided methods the traits
    define on top ([regular.rs], [hold.rs], [freeze.rs], [imbalance.rs]). *)

From stdpp Require Import base tactics numbers.
From Stdlib Require Import String.
From S2P Require Import Prelude Dispatch System Tokens.
Local Open Scope Z_scope.

(** ** Required methods *)

Class Inspect (S : Type) := {
  total_issuance : S -> Z;
  active_issuance : S -> Z;
  minimum_balance : Z;
  total_balance : AccountId -> S -> Z;
  balance : AccountId -> S -> Z;
  reducible_balance : AccountId -> Preservation -> Fortitude -> S -> Z;
  can_deposit : AccountId -> Z -> Provenance -> S -> DepositConsequence;
  can_withdraw : AccountId -> Z -> S -> WithdrawConsequence;
}.

Class Unbalanced (S : Type) `{Inspect S} := {
  handle_dust : Z -> S -> S;
  write_balance : AccountId -> Z -> M S (option Z);
  set_total_issuance : Z -> S -> S;
  deactivate : Z -> S -> S;
  reactivate : Z -> S -> S;
}.

(** The notification hooks of [Mutate] and [Balanced]. *)
Class Mutate (S : Type) := {
  done_mint_into : AccountId -> Z -> S -> S;
  done_burn_from : AccountId -> Z -> S -> S;
  done_shelve : AccountId -> Z -> S -> S;
  done_restore : AccountId -> Z -> S -> S;
  done_transfer : AccountId -> AccountId -> Z -> S -> S;
}.

Class Balanced (S : Type) := {
  done_rescind : Z -> S -> S;
  done_issue : Z -> S -> S;
  done_deposit : AccountId -> Z -> S -> S;
  done_withdraw : AccountId -> Z -> S -> S;
  drop_debt :: Droppable S Debt;
  drop_credit :: Droppable S Credit;
}.

Class InspectHold (S : Type) := {
  total_balance_on_hold : AccountId -> S -> Z;
  reducible_total_balance_on_hold : AccountId -> Fortitude -> S -> Z;
  balance_on_hold : N -> AccountId -> S -> Z;
  hold_available : N -> AccountId -> S -> bool;
}.

Class UnbalancedHold (S : Type) := {
  set_balance_on_hold : N -> AccountId -> Z -> M S unit;
}.

Class InspectFreeze (S : Type) := {
  balance_frozen : N -> AccountId -> S -> Z;
  can_freeze : N -> AccountId -> S -> bool;
}.

Class MutateFreeze (S : Type) := {
  set_freeze : N -> AccountId -> Z -> M S unit;
  extend_freeze : N -> AccountId -> Z -> M S unit;
  thaw : N -> AccountId -> M S unit;
}.

(** ** [regular.rs] *)

Section unbalanced.
Context `{BalanceType} {S : Type} `{Inspect S} `{!Unbalanced S}.

Definition handle_raw_dust (amount : Z) : S -> S :=
  handle_dust (Z.min amount (saturating_sub minimum_balance 1)).

Definition handle_maybe_dust (maybe_dust : option Z) : M S unit :=
  match maybe_dust with
  | Some dust => modify (handle_dust dust)
  | None => ret tt
  end.

Definition decrease_balance (who : AccountId) (amount : Z) (precision : Precision)
    (preservation : Preservation) (force : Fortitude) : M S Z :=
  old_balance <- gets (balance who) ;;
  reducible <- gets (reducible_balance who preservation force) ;;
  amount <- match precision with
            | BestEffort => ret (Z.min amount reducible)
            | Exact => do ensure (amount <=? reducible) (Token FundsUnavailable) ;; ret amount
            end ;;
  new_balance <- ok_or (checked_sub old_balance amount) (Token FundsUnavailable) ;;
  maybe_dust <- write_balance who new_balance ;;
  do handle_maybe_dust maybe_dust ;;
  ret (saturating_sub old_balance new_balance).

Definition increase_balance (who : AccountId) (amount : Z) (precision : Precision) : M S Z :=
  old_balance <- gets (balance who) ;;
  new_balance <- match precision with
                 | BestEffort => ret (saturating_add old_balance amount)
                 | Exact => ok_or (checked_add old_balance amount) (Arithmetic Overflow)
                 end ;;
  if new_balance <? minimum_balance then
    match precision with
    | BestEffort => ret 0
    | Exact => fail (Token BelowMinimum)
    end
  else if new_balance =? old_balance then ret 0
  else
    maybe_dust <- write_balance who new_balance ;;
    do handle_maybe_dust maybe_dust ;;
    ret (saturating_sub new_balance old_balance).

(** [IncreaseIssuance::handle] and [DecreaseIssuance::handle] *)
Definition increase_issuance (amount : Z) (s : S) : S :=
  set_total_issuance (saturating_add (total_issuance s) amount) s.

Definition decrease_issuance (amount : Z) (s : S) : S :=
  set_total_issuance (saturating_sub (total_issuance s) amount) s.
End unbalanced.

Section mutate.
Context `{BalanceType} {S : Type} `{Inspect S} `{!Unbalanced S} `{!Mutate S}.

Definition mint_into (who : AccountId) (amount : Z) : M S Z :=
  issued <- gets total_issuance ;;
  do ok_or (checked_add issued amount) (Arithmetic Overflow) ;;
  actual <- increase_balance who amount Exact ;;
  do modify (fun s => set_total_issuance (saturating_add (total_issuance s) actual) s) ;;
  do modify (done_mint_into who amount) ;;
  ret actual.

Definition burn_from (who : AccountId) (amount : Z) (preservation : Preservation)
    (precision : Precision) (force : Fortitude) : M S Z :=
  reducible <- gets (reducible_balance who preservation force) ;;
  let actual := Z.min reducible amount in
  do ensure ((actual =? amount) || bool_decide (precision = BestEffort))
       (Token FundsUnavailable) ;;
  issued <- gets total_issuance ;;
  do ok_or (checked_sub issued actual) (Arithmetic Overflow) ;;
  actual <- decrease_balance who actual BestEffort preservation force ;;
  do modify (fun s => set_total_issuance (saturating_sub (total_issuance s) actual) s) ;;
  do modify (done_burn_from who actual) ;;
  ret actual.

Definition shelve (who : AccountId) (amount : Z) : M S Z :=
  reducible <- gets (reducible_balance who Expendable Polite) ;;
  let actual := Z.min reducible amount in
  do ensure (actual =? amount) (Token FundsUnavailable) ;;
  issued <- gets total_issuance ;;
  do ok_or (checked_sub issued actual) (Arithmetic Overflow) ;;
  actual <- decrease_balance who actual BestEffort Expendable Polite ;;
  do modify (fun s => set_total_issuance (saturating_sub (total_issuance s) actual) s) ;;
  do modify (done_shelve who actual) ;;
  ret actual.

Definition restore (who : AccountId) (amount : Z) : M S Z :=
  issued <- gets total_issuance ;;
  do ok_or (checked_add issued amount) (Arithmetic Overflow) ;;
  actual <- increase_balance who amount Exact ;;
  do modify (fun s => set_total_issuance (saturating_add (total_issuance s) actual) s) ;;
  do modify (done_restore who amount) ;;
  ret actual.

Definition transfer (source dest : AccountId) (amount : Z) (preservation : Preservation) :
    M S Z :=
  wc <- gets (can_withdraw source amount) ;;
  do withdraw_into_result wc (bool_decide (preservation <> Expendable)) ;;
  dc <- gets (can_deposit dest amount Extant) ;;
  do deposit_into_result dc ;;
  if (source =? dest)%N then ret amount else
  do decrease_balance source amount BestEffort preservation Polite ;;
  do try (increase_balance dest amount BestEffort) ;;
  do modify (done_transfer source dest amount) ;;
  ret amount.

Definition set_balance (who : AccountId) (amount : Z) : M S Z :=
  b <- gets (balance who) ;;
  r <- (if amount <? b then
          r <- try (burn_from who (b - amount) Expendable BestEffort Force) ;;
          ret (match r with inl d => inl (saturating_sub b d) | inr e => inr e end)
        else
          r <- try (mint_into who (amount - b)) ;;
          ret (match r with inl d => inl (saturating_add b d) | inr e => inr e end)) ;;
  ret (match (r : Z + DispatchError) with inl n => n | inr _ => b end).
End mutate.

Section balanced.
Context `{BalanceType} {S : Type} `{Inspect S} `{!Unbalanced S} `{!Balanced S}.

Definition rescind (amount : Z) : M S Debt :=
  old <- gets total_issuance ;;
  let new := saturating_sub old amount in
  do modify (set_total_issuance new) ;;
  delta <- rust_sub old new ;;
  do modify (done_rescind delta) ;;
  ret (MkDebt delta).

Definition issue (amount : Z) : M S Credit :=
  old <- gets total_issuance ;;
  let new := saturating_add old amount in
  do modify (set_total_issuance new) ;;
  delta <- rust_sub new old ;;
  do modify (done_issue delta) ;;
  ret (MkCredit delta).

Definition pair (amount : Z) : M S (Debt * Credit) :=
  issued <- issue amount ;;
  rescinded <- rescind amount ;;
  if negb (imb_peek issued =? imb_peek rescinded) || negb (imb_peek issued =? amount) then
    do modify (drop_value rescinded) ;;
    do modify (drop_value issued) ;;
    fail (Other "Failed to issue and rescind equal amounts")
  else ret (rescinded, issued).

Definition deposit (who : AccountId) (value : Z) (precision : Precision) : M S Debt :=
  increase <- increase_balance who value precision ;;
  do modify (done_deposit who increase) ;;
  ret (MkDebt increase).

Definition withdraw (who : AccountId) (value : Z) (precision : Precision)
    (preservation : Preservation) (force : Fortitude) : M S Credit :=
  decrease <- decrease_balance who value precision preservation force ;;
  do modify (done_withdraw who decrease) ;;
  ret (MkCredit decrease).

(** Dropping what [offset] leaves. *)
#[local] Instance drop_same_or_other : Droppable S (SameOrOther Credit Debt) := fun x s =>
  match x with
  | SONone => s
  | SOSame c => drop_value c s
  | SOOther d => drop_value d s
  end.

Definition resolve (who : AccountId) (credit : Credit) : M S (unit + Credit) :=
  let v := imb_peek credit in
  r <- try (deposit who v Exact) ;;
  match r with
  | inr _ => ret (inr credit)
  | inl debt =>
      do modify (drop_value (offset credit debt)) ;;
      ret (inl tt)
  end.

Definition settle (who : AccountId) (debt : Debt) (preservation : Preservation) :
    M S (Credit + Debt) :=
  let amount := imb_peek debt in
  r <- try (withdraw who amount Exact preservation Polite) ;;
  match r with
  | inr _ => ret (inr debt)
  | inl credit =>
      match offset credit debt with
      | SONone => ret (inl imb_zero)
      | SOSame dust => ret (inl dust)
      | SOOther rest => ret (inr rest)
      end
  end.
End balanced.

(** ** [hold.rs] *)

Section hold.
Context `{BalanceType} {S : Type} `{Inspect S} `{!Unbalanced S}
  `{!InspectHold S} `{!UnbalancedHold S}.

Definition ensure_can_hold (reason : N) (who : AccountId) (amount : Z) : M S unit :=
  reducible <- gets (reducible_balance who Protect Force) ;;
  do ensure (amount <=? reducible) (Token FundsUnavailable) ;;
  available <- gets (hold_available reason who) ;;
  ensure available (Token CannotCreateHold).

Definition can_hold (reason : N) (who : AccountId) (amount : Z) : M S bool :=
  r <- try (ensure_can_hold reason who amount) ;;
  ret (match r with inl _ => true | inr _ => false end).

Definition decrease_balance_on_hold (reason : N) (who : AccountId) (amount : Z)
    (precision : Precision) : M S Z :=
  old_balance <- gets (balance_on_hold reason who) ;;
  let amount := match precision with BestEffort => Z.min amount old_balance | Exact => amount end in
  new_balance <- ok_or (checked_sub old_balance amount) (Token FundsUnavailable) ;;
  do set_balance_on_hold reason who new_balance ;;
  ret amount.

Definition increase_balance_on_hold (reason : N) (who : AccountId) (amount : Z)
    (precision : Precision) : M S Z :=
  old_balance <- gets (balance_on_hold reason who) ;;
  new_balance <- match precision with
                 | BestEffort => ret (saturating_add old_balance amount)
                 | Exact => ok_or (checked_add old_balance amount) (Arithmetic Overflow)
                 end ;;
  let amount := saturating_sub new_balance old_balance in
  do when (negb (amount =? 0)) (set_balance_on_hold reason who new_balance) ;;
  ret amount.

Definition hold (reason : N) (who : AccountId) (amount : Z) : M S unit :=
  do ensure_can_hold reason who amount ;;
  do decrease_balance who amount Exact Protect Force ;;
  do increase_balance_on_hold reason who amount BestEffort ;;
  ret tt.

Definition release (reason : N) (who : AccountId) (amount : Z) (precision : Precision) : M S Z :=
  dc <- gets (can_deposit who amount Extant) ;;
  do ensure (bool_decide (dc = DepositSuccess)) (Token CannotCreate) ;;
  amount <- decrease_balance_on_hold reason who amount precision ;;
  increase_balance who amount BestEffort.

Definition set_on_hold (reason : N) (who : AccountId) (amount : Z) : M S unit :=
  current_amount <- gets (balance_on_hold reason who) ;;
  if current_amount <? amount then hold reason who (amount - current_amount)
  else if amount <? current_amount then
    do release reason who (current_amount - amount) Exact ;; ret tt
  else ret tt.

Definition release_all (reason : N) (who : AccountId) (precision : Precision) : M S Z :=
  amount <- gets (balance_on_hold reason who) ;;
  release reason who amount precision.

Definition burn_held (reason : N) (who : AccountId) (amount : Z) (precision : Precision)
    (force : Fortitude) : M S Z :=
  liquid <- gets (reducible_total_balance_on_hold who force) ;;
  amount <- match precision with
            | BestEffort => ret (Z.min amount liquid)
            | Exact => do ensure (amount <=? liquid) (Token Frozen) ;; ret amount
            end ;;
  amount <- decrease_balance_on_hold reason who amount precision ;;
  do modify (fun s => set_total_issuance (saturating_sub (total_issuance s) amount) s) ;;
  ret amount.

Definition burn_all_held (reason : N) (who : AccountId) (precision : Precision)
    (force : Fortitude) : M S Z :=
  amount <- gets (balance_on_hold reason who) ;;
  burn_held reason who amount precision force.

Definition transfer_on_hold (reason : N) (source dest : AccountId) (amount : Z)
    (precision : Precision) (mode : Restriction) (force : Fortitude) : M S Z :=
  have <- gets (balance_on_hold reason source) ;;
  liquid <- gets (reducible_total_balance_on_hold source force) ;;
  amount <- match precision with
            | BestEffort => ret (Z.min (Z.min amount liquid) have)
            | Exact =>
                do ensure (amount <=? liquid) (Token Frozen) ;;
                do ensure (amount <=? have) (Token FundsUnavailable) ;;
                ret amount
            end ;;
  dc <- gets (can_deposit dest amount Extant) ;;
  do ensure (bool_decide (dc = DepositSuccess)) (Token CannotCreate) ;;
  available <- gets (hold_available reason dest) ;;
  do ensure (bool_decide (mode = Free) || available) (Token CannotCreateHold) ;;
  amount <- decrease_balance_on_hold reason source amount precision ;;
  match mode with
  | OnHold => increase_balance_on_hold reason dest amount precision
  | Free => increase_balance dest amount precision
  end.

Definition transfer_and_hold (reason : N) (source dest : AccountId) (amount : Z)
    (precision : Precision) (expendability : Preservation) (force : Fortitude) : M S Z :=
  available <- gets (hold_available reason dest) ;;
  do ensure available (Token CannotCreateHold) ;;
  dc <- gets (can_deposit dest amount Extant) ;;
  do ensure (bool_decide (dc = DepositSuccess)) (Token CannotCreate) ;;
  actual <- decrease_balance source amount precision expendability force ;;
  do increase_balance_on_hold reason dest actual precision ;;
  ret actual.

(** [hold::Balanced::slash], with the [DoneSlash] handler [()]. *)
Definition slash_on_hold (reason : N) (who : AccountId) (amount : Z) : M S (Credit * Z) :=
  r <- try (decrease_balance_on_hold reason who amount BestEffort) ;;
  let decrease := match r with inl d => d | inr _ => 0 end in
  ret (MkCredit decrease, saturating_sub amount decrease).
End hold.

(** ** [freeze.rs] *)

Section freeze.
Context `{BalanceType} {S : Type} `{Inspect S} `{!InspectFreeze S} `{!MutateFreeze S}.

Definition balance_freezable (who : AccountId) (s : S) : Z := total_balance who s.

Definition set_frozen (id : N) (who : AccountId) (amount : Z) (fortitude : Fortitude) : M S unit :=
  let force := bool_decide (fortitude = Force) in
  freezable <- gets (balance_freezable who) ;;
  do ensure (force || (amount <=? freezable)) (Token FundsUnavailable) ;;
  set_freeze id who amount.

Definition ensure_frozen (id : N) (who : AccountId) (amount : Z) (fortitude : Fortitude) :
    M S unit :=
  let force := bool_decide (fortitude = Force) in
  freezable <- gets (balance_freezable who) ;;
  do ensure (force || (amount <=? freezable)) (Token FundsUnavailable) ;;
  extend_freeze id who amount.

Definition decrease_frozen (id : N) (who : AccountId) (amount : Z) : M S unit :=
  frozen <- gets (balance_frozen id who) ;;
  a <- ok_or (checked_sub frozen amount) (Arithmetic Underflow) ;;
  set_freeze id who a.

Definition increase_frozen (id : N) (who : AccountId) (amount : Z) : M S unit :=
  frozen <- gets (balance_frozen id who) ;;
  a <- ok_or (checked_add frozen amount) (Arithmetic Overflow) ;;
  set_frozen id who a Polite.
End freeze.
