(* ===== verification/Balances.v ===== *)
(** * The balances pallet: types, storage and the account mutator

    [src/substrate/frame/balances/src/types.rs] and the account functions of
    [lib.rs].  The pallet is configured as the runtimes of the repository
    configure it: [AccountStore = System], [DustRemoval = ()],
    [DoneSlashHandler = ()], the feature [insecure_zero_ed] off. *)

From stdpp Require Import base tactics numbers list gmap.
From S2P Require Import Prelude Dispatch System Tokens.
Local Open Scope Z_scope.

(** ** Types *)

Inductive Reasons := Fee | Misc | All.

#[export] Instance Reasons_eq_dec : EqDecision Reasons.
Proof. solve_decision. Defined.

Definition Reasons_from (r : Z) : Reasons :=
  if r =? WR_TRANSACTION_PAYMENT then Fee
  else if wr_contains r WR_TRANSACTION_PAYMENT then All
  else Misc.

Definition Reasons_bitor (self other : Reasons) : Reasons :=
  if bool_decide (self = other) then self else All.

Record BalanceLock := { lock_id : N; lock_amount : Z; lock_reasons : Reasons }.

#[export] Instance BalanceLock_eq_dec : EqDecision BalanceLock.
Proof. solve_decision. Defined.

Record ReserveData := { rd_id : N; rd_amount : Z }.

Definition IS_NEW_LOGIC : Z := 0x80000000000000000000000000000000.

Record AccountData := { free : Z; reserved : Z; frozen : Z; flags : Z }.

#[export] Instance AccountData_eq_dec : EqDecision AccountData.
Proof. solve_decision. Defined.

Definition AccountData_default : AccountData :=
  {| free := 0; reserved := 0; frozen := 0; flags := IS_NEW_LOGIC |}.

Definition set_new_logic (flags : Z) : Z := Z.lor flags IS_NEW_LOGIC.

Definition is_new_logic (flags : Z) : bool := Z.land flags IS_NEW_LOGIC =? IS_NEW_LOGIC.

Definition usable (a : AccountData) : Z := saturating_sub (free a) (frozen a).

Definition total `{BalanceType} (a : AccountData) : Z := saturating_add (free a) (reserved a).

Definition with_free (a : AccountData) (n : Z) : AccountData :=
  {| free := n; reserved := reserved a; frozen := frozen a; flags := flags a |}.
Definition with_reserved (a : AccountData) (n : Z) : AccountData :=
  {| free := free a; reserved := n; frozen := frozen a; flags := flags a |}.
Definition with_frozen (a : AccountData) (n : Z) : AccountData :=
  {| free := free a; reserved := reserved a; frozen := n; flags := flags a |}.
Definition with_flags (a : AccountData) (n : Z) : AccountData :=
  {| free := free a; reserved := reserved a; frozen := frozen a; flags := n |}.

Inductive AdjustmentDirection := Increase | Decrease.

(** ** Events and errors *)

Inductive Event :=
  | Endowed (account : AccountId) (free_balance : Z)
  | DustLost (account : AccountId) (amount : Z)
  | Transfer (from to : AccountId) (amount : Z)
  | BalanceSet (who : AccountId) (free : Z)
  | Reserved (who : AccountId) (amount : Z)
  | Unreserved (who : AccountId) (amount : Z)
  | ReserveRepatriated (from to : AccountId) (amount : Z) (destination_status : BalanceStatus)
  | Deposit (who : AccountId) (amount : Z)
  | Withdraw (who : AccountId) (amount : Z)
  | Slashed (who : AccountId) (amount : Z)
  | MintedEv (who : AccountId) (amount : Z)
  | Burned (who : AccountId) (amount : Z)
  | Suspended (who : AccountId) (amount : Z)
  | Restored (who : AccountId) (amount : Z)
  | Upgraded (who : AccountId)
  | Issued (amount : Z)
  | Rescinded (amount : Z)
  | Locked (who : AccountId) (amount : Z)
  | Unlocked (who : AccountId) (amount : Z)
  | FrozenEv (who : AccountId) (amount : Z)
  | Thawed (who : AccountId) (amount : Z)
  | TotalIssuanceForced (old new : Z).

(** The events of the vesting pallet, which shares the runtime. *)
Inductive VestingEvent :=
  | VestingCreated (account : AccountId) (schedule_index : Z)
  | VestingUpdated (account : AccountId) (unvested : Z)
  | VestingCompleted (account : AccountId).

Inductive RuntimeEvent :=
  | SystemEv (e : SystemEvent)
  | BalancesEv (e : Event)
  | VestingEv (e : VestingEvent).

Inductive Error :=
  | VestingBalance
  | LiquidityRestrictions
  | InsufficientBalance
  | ExistentialDepositError
  | Expendability
  | ExistingVestingSchedule
  | DeadAccount
  | TooManyReserves
  | TooManyHolds
  | TooManyFreezes
  | IssuanceDeactivated
  | DeltaZero.

Definition Error_index (e : Error) : Z :=
  match e with
  | VestingBalance => 0
  | LiquidityRestrictions => 1
  | InsufficientBalance => 2
  | ExistentialDepositError => 3
  | Expendability => 4
  | ExistingVestingSchedule => 5
  | DeadAccount => 6
  | TooManyReserves => 7
  | TooManyHolds => 8
  | TooManyFreezes => 9
  | IssuanceDeactivated => 10
  | DeltaZero => 11
  end.

(** ** Configuration and storage *)

(** The constants of the pallet.  [existential_deposit_pos] is what the pallet's
    [integrity_test] asserts. *)
Class Config := {
  config_balance :: BalanceType;
  ExistentialDeposit : Z;
  MaxConsumers : Z;
  MaxReserves : nat;
  MaxFreezes : nat;
  HoldVariantCount : nat;
  PalletIndex : Z;
  existential_deposit_pos : 0 < ExistentialDeposit <= max_value;
}.

Definition Error_into `{Config} (e : Error) : DispatchError := ModuleError PalletIndex (Error_index e).

#[export] Instance balances_system_config `{Config} : SystemConfig AccountData RuntimeEvent := {|
  data_default := AccountData_default;
  data_eq_dec := AccountData_eq_dec;
  system_event := SystemEv;
  max_consumers := MaxConsumers;
|}.

Record State := {
  st_sys : Sys AccountData RuntimeEvent;
  TotalIssuance : Z;
  InactiveIssuance : Z;
  Locks : gmap AccountId (list BalanceLock);
  Reserves : gmap AccountId (list ReserveData);
  Holds : gmap AccountId (list IdAmount);
  Freezes : gmap AccountId (list IdAmount);
}.

Definition set_st_sys (y : Sys AccountData RuntimeEvent) (s : State) : State :=
  Build_State y (TotalIssuance s) (InactiveIssuance s) (Locks s) (Reserves s) (Holds s) (Freezes s).
Definition set_TotalIssuance (n : Z) (s : State) : State :=
  Build_State (st_sys s) n (InactiveIssuance s) (Locks s) (Reserves s) (Holds s) (Freezes s).
Definition set_InactiveIssuance (n : Z) (s : State) : State :=
  Build_State (st_sys s) (TotalIssuance s) n (Locks s) (Reserves s) (Holds s) (Freezes s).
Definition LocksL : Lens State (gmap AccountId (list BalanceLock)) := {|
  lget := Locks;
  lset m s := Build_State (st_sys s) (TotalIssuance s) (InactiveIssuance s) m (Reserves s)
                (Holds s) (Freezes s) |}.
Definition ReservesL : Lens State (gmap AccountId (list ReserveData)) := {|
  lget := Reserves;
  lset m s := Build_State (st_sys s) (TotalIssuance s) (InactiveIssuance s) (Locks s) m
                (Holds s) (Freezes s) |}.
Definition HoldsL : Lens State (gmap AccountId (list IdAmount)) := {|
  lget := Holds;
  lset m s := Build_State (st_sys s) (TotalIssuance s) (InactiveIssuance s) (Locks s) (Reserves s)
                m (Freezes s) |}.
Definition FreezesL : Lens State (gmap AccountId (list IdAmount)) := {|
  lget := Freezes;
  lset m s := Build_State (st_sys s) (TotalIssuance s) (InactiveIssuance s) (Locks s) (Reserves s)
                (Holds s) m |}.

#[export] Instance State_HasSys : HasSys State AccountData RuntimeEvent := {|
  sys := st_sys;
  set_sys := set_st_sys;
|}.

Section pallet.
Context `{Config}.

Definition deposit (e : Event) (s : State) : State :=
  set_sys (deposit_event (BalancesEv e) (sys s)) s.

Definition ed : Z := ExistentialDeposit.

Definition locks (who : AccountId) (s : State) : list BalanceLock := default [] (Locks s !! who).
Definition reserves (who : AccountId) (s : State) : list ReserveData :=
  default [] (Reserves s !! who).
Definition holds (who : AccountId) (s : State) : list IdAmount := default [] (Holds s !! who).
Definition freezes (who : AccountId) (s : State) : list IdAmount := default [] (Freezes s !! who).

(** [Self::account] *)
Definition account (who : AccountId) (s : State) : AccountData := stored_get who s.

Definition free_balance (who : AccountId) (s : State) : Z := free (account who s).
Definition reserved_balance (who : AccountId) (s : State) : Z := reserved (account who s).

(** ** [ensure_upgraded] *)

Definition ensure_upgraded (who : AccountId) : M State bool :=
  a <- gets (account who) ;;
  if is_new_logic (flags a) then ret false else
  let a := with_flags a (set_new_logic (flags a)) in
  a <- (if negb (reserved a =? 0) && (frozen a =? 0) then
          p <- gets (fun s => providers who (sys s)) ;;
          a <- (if p =? 0 then
                  do lift_sys (inc_providers who) ;;
                  ret (with_free a (Z.max (free a) ed))
                else ret a) ;;
          do try (lift_sys (inc_consumers_without_limit who)) ;;
          ret a
        else ret a) ;;
  do try (try_mutate_exists who (fun _ => ret (tt, Some a))) ;;
  do modify (deposit (Upgraded who)) ;;
  ret true.

(** ** [try_mutate_account]

    The closure of the code's [try_mutate_exists] is in three parts: the
    reference counters ([update_refs]), what becomes of the entry
    ([settle_account]), and the closure itself ([mutate_entry]). *)

Definition provides (a : AccountData) : bool := ed <=? free a.
Definition consumes (a : AccountData) : bool := negb (reserved a =? 0) || negb (frozen a =? 0).

Definition update_refs (who : AccountId) (did_provide did_consume does_provide does_consume : bool) :
    M State unit :=
  do when (negb did_provide && does_provide) (do lift_sys (inc_providers who) ;; ret tt) ;;
  do when (did_consume && negb does_consume) (lift_sys (dec_consumers who)) ;;
  do when (negb did_consume && does_consume) (lift_sys (inc_consumers who)) ;;
  c <- gets (fun s => consumers who (sys s)) ;;
  do when (does_consume && (c =? 0)) (lift_sys (inc_consumers who)) ;;
  when (did_provide && negb does_provide)
    (r <- try (lift_sys (dec_providers who)) ;;
     match r with
     | inl _ => ret tt
     | inr e =>
         do when (did_consume && negb does_consume)
              (do try (lift_sys (inc_consumers who)) ;; ret tt) ;;
         do when (negb did_consume && does_consume) (lift_sys (dec_consumers who)) ;;
         fail e
     end).

(** The new entry and the dust. *)
Definition settle_account (account : AccountData) : M State (option AccountData * option Z) :=
  if (free account <? ed) && (reserved account =? 0) then
    ret (None, if free account =? 0 then None else Some (free account))
  else
    do rust_assert ((free account =? 0) || (ed <=? free account) || negb (reserved account =? 0)) ;;
    ret (Some account, None).

(** A value the closure has already produced is dropped when a later step fails. *)
Definition or_drop {R A} `{Droppable State R} (r : R) (m : M State A) : M State A := fun s =>
  match m s with
  | (Err e, s') => (Err e, drop_value r s')
  | o => o
  end.

Definition mutate_entry {R} `{Droppable State R} (who : AccountId)
    (f : AccountData -> bool -> M State (R * AccountData)) (maybe_account : option AccountData) :
    M State ((option Z * option Z * R) * option AccountData) :=
  let is_new := match maybe_account with None => true | Some _ => false end in
  let account := default AccountData_default maybe_account in
  let did_provide := provides account in
  let did_consume := negb is_new && consumes account in
  '(result, account) <- f account is_new ;;
  do or_drop result
       (update_refs who did_provide did_consume (provides account) (consumes account)) ;;
  let maybe_endowed := if is_new then Some (free account) else None in
  '(maybe_account, maybe_dust) <- settle_account account ;;
  ret ((maybe_endowed, maybe_dust, result), maybe_account).

Definition try_mutate_account {R} `{Droppable State R} (who : AccountId)
    (f : AccountData -> bool -> M State (R * AccountData)) : M State (R * option Z) :=
  do ensure_upgraded who ;;
  '(maybe_endowed, maybe_dust, result) <- try_mutate_exists who (mutate_entry who f) ;;
  do match maybe_endowed with
     | Some endowed => modify (deposit (Endowed who endowed))
     | None => ret tt
     end ;;
  do match maybe_dust with
     | Some amount => modify (deposit (DustLost who amount))
     | None => ret tt
     end ;;
  ret (result, maybe_dust).

Definition mutate_account {R} `{Droppable State R} (who : AccountId)
    (f : AccountData -> M State (R * AccountData)) : M State (R * option Z) :=
  try_mutate_account who (fun a _ => f a).

(** ** Locks and freezes *)

Definition max_frozen (ls : list BalanceLock) (fs : list IdAmount) : Z :=
  fold_left (fun b l => Z.max b (ia_amount l)) fs
    (fold_left (fun b l => Z.max b (lock_amount l)) ls 0).

(** [prev_frozen] and [after_frozen] are captured by the closure and keep their
    values when the mutation fails; the account's entry is then unchanged. *)
Definition update_locks (who : AccountId) (ls : list BalanceLock) : M State unit :=
  fs <- gets (freezes who) ;;
  res <- try (mutate_account who (fun b =>
           let after := max_frozen ls fs in
           ret ((frozen b, after), with_frozen b after))) ;;
  '(prev_frozen, after_frozen) <-
    match res with
    | inl (pa, _) => ret pa
    | inr _ => b <- gets (account who) ;; ret (frozen b, max_frozen ls fs)
    end ;;
  do (if bool_decide (ls = []) then storage_remove LocksL who else storage_insert LocksL who ls) ;;
  if after_frozen <? prev_frozen then
    modify (deposit (Unlocked who (saturating_sub prev_frozen after_frozen)))
  else if prev_frozen <? after_frozen then
    modify (deposit (Locked who (saturating_sub after_frozen prev_frozen)))
  else ret tt.

Definition update_freezes (who : AccountId) (fs : list IdAmount) : M State unit :=
  '((prev_frozen, after_frozen), _) <- mutate_account who (fun b =>
     ls <- gets (locks who) ;;
     let after := max_frozen ls fs in
     ret ((frozen b, after), with_frozen b after)) ;;
  do (if bool_decide (fs = []) then storage_remove FreezesL who else storage_insert FreezesL who fs) ;;
  if after_frozen <? prev_frozen then
    modify (deposit (Thawed who (saturating_sub prev_frozen after_frozen)))
  else if prev_frozen <? after_frozen then
    modify (deposit (FrozenEv who (saturating_sub after_frozen prev_frozen)))
  else ret tt.
End pallet.
