(* ===== verification/BalancesFungible.v ===== *)
(** * The balances pallet as a [fungible]

    [src/substrate/frame/balances/src/impl_fungible.rs]: the pallet's
    implementation of the [fungible] traits, as instances of the classes of
    [Fungible], and the account functions of [lib.rs] that hand dust to them. *)

From stdpp Require Import base tactics numbers list gmap.
From S2P Require Import Prelude Dispatch System Tokens Fungible Balances.
Local Open Scope Z_scope.

Section inspect.
Context `{Config}.

Definition bal_active_issuance (s : State) : Z :=
  saturating_sub (TotalIssuance s) (InactiveIssuance s).

Definition bal_total_balance (who : AccountId) (s : State) : Z := total (account who s).

Definition bal_reducible_balance (who : AccountId) (preservation : Preservation)
    (force : Fortitude) (s : State) : Z :=
  let a := account who s in
  let untouchable :=
    if bool_decide (force = Polite) then saturating_sub (frozen a) (reserved a) else 0 in
  let untouchable :=
    if bool_decide (preservation = Preserve)
       || bool_decide (preservation = Protect) && negb (free a =? 0)
          && (providers who (sys s) =? 1)
       || bool_decide (preservation = Expendable) && negb (free a =? 0)
          && negb (can_dec_provider who (sys s))
    then Z.max untouchable ExistentialDeposit
    else untouchable in
  saturating_sub (free a) untouchable.

Definition bal_can_deposit (who : AccountId) (amount : Z) (provenance : Provenance) (s : State) :
    DepositConsequence :=
  if amount =? 0 then DepositSuccess else
  if bool_decide (provenance = Minted)
     && match checked_add (TotalIssuance s) amount with None => true | Some _ => false end
  then DepositOverflow else
  let account := account who s in
  match checked_add (free account) amount with
  | None => DepositOverflow
  | Some x =>
      if x <? ExistentialDeposit then DepositBelowMinimum else
      match checked_add (reserved account) x with
      | Some _ => DepositSuccess
      | None => DepositOverflow
      end
  end.

Definition bal_can_withdraw (who : AccountId) (amount : Z) (s : State) : WithdrawConsequence :=
  if amount =? 0 then WithdrawSuccess else
  match checked_sub (TotalIssuance s) amount with
  | None => WithdrawUnderflow
  | Some _ =>
      let account := account who s in
      match checked_sub (free account) amount with
      | None => WithdrawBalanceLow
      | Some new_free_balance =>
          let liquid := bal_reducible_balance who Expendable Polite s in
          if liquid <? amount then WithdrawFrozen else
          let ed := ExistentialDeposit in
          if (new_free_balance <? ed) && negb (can_dec_provider who (sys s)) then
            WithdrawWouldDie
          else
            let success :=
              if new_free_balance <? ed then WithdrawReducedToZero new_free_balance
              else WithdrawSuccess in
            let new_total_balance := saturating_add new_free_balance (reserved account) in
            if new_total_balance <? frozen account then WithdrawFrozen else success
      end
  end.
End inspect.

#[export] Instance balances_Inspect `{Config} : Inspect State := {|
  total_issuance := TotalIssuance;
  active_issuance := bal_active_issuance;
  minimum_balance := ExistentialDeposit;
  total_balance := bal_total_balance;
  balance := free_balance;
  reducible_balance := bal_reducible_balance;
  can_deposit := bal_can_deposit;
  can_withdraw := bal_can_withdraw;
|}.

Section unbalanced.
Context `{Config}.

Definition bal_deactivate (amount : Z) (s : State) : State :=
  set_InactiveIssuance
    (Z.min (saturating_add (InactiveIssuance s) amount) (TotalIssuance s)) s.

Definition bal_reactivate (amount : Z) (s : State) : State :=
  set_InactiveIssuance (saturating_sub (InactiveIssuance s) amount) s.

(** [<() as OnUnbalanced<Credit>>::on_unbalanced]: the credit is dropped, and
    [OnDropCredit = DecreaseIssuance]. *)
Definition bal_drop_credit (amount : Z) (s : State) : State :=
  if amount =? 0 then s
  else set_TotalIssuance (saturating_sub (TotalIssuance s) amount) s.

Definition bal_drop_debt (amount : Z) (s : State) : State :=
  if amount =? 0 then s
  else set_TotalIssuance (saturating_add (TotalIssuance s) amount) s.

Definition bal_handle_dust (dust : Z) : State -> State := bal_drop_credit dust.

(** The closure's [Result] is a value; its error is raised after the account has
    been settled. *)
Definition bal_write_balance (who : AccountId) (amount : Z) : M State (option Z) :=
  max_reduction <- gets (bal_reducible_balance who Expendable Force) ;;
  '(result, maybe_dust) <- mutate_account who (fun account =>
     let reduction := saturating_sub (free account) amount in
     if reduction <=? max_reduction then
       ret (inl tt : unit + DispatchError, with_free account amount)
     else ret (inr (Error_into InsufficientBalance), account)) ;;
  match result with
  | inl _ => ret maybe_dust
  | inr e => fail e
  end.
End unbalanced.

#[export] Instance balances_Unbalanced `{Config} : Unbalanced State := {|
  handle_dust := bal_handle_dust;
  write_balance := bal_write_balance;
  set_total_issuance := set_TotalIssuance;
  deactivate := bal_deactivate;
  reactivate := bal_reactivate;
|}.

#[export] Instance balances_Mutate `{Config} : Mutate State := {|
  done_mint_into who amount := deposit (MintedEv who amount);
  done_burn_from who amount := deposit (Burned who amount);
  done_shelve who amount := deposit (Suspended who amount);
  done_restore who amount := deposit (Restored who amount);
  done_transfer source dest amount := deposit (Transfer source dest amount);
|}.

#[export] Instance balances_Balanced `{Config} : Balanced State := {|
  done_rescind amount := deposit (Rescinded amount);
  done_issue amount := fun s => if amount =? 0 then s else deposit (Issued amount) s;
  done_deposit who amount := deposit (Deposit who amount);
  done_withdraw who amount := deposit (Withdraw who amount);
  drop_debt '(MkDebt amount) := bal_drop_debt amount;
  drop_credit '(MkCredit amount) := bal_drop_credit amount;
|}.

(** ** Holds *)

Section holds.
Context `{Config}.

Definition bal_reducible_total_balance_on_hold (who : AccountId) (force : Fortitude) (s : State) :
    Z :=
  let a := account who s in
  let unavailable :=
    if bool_decide (force = Force) then 0 else saturating_sub (frozen a) (free a) in
  saturating_sub (reserved a) unavailable.

Definition find_amount (id : N) (l : list IdAmount) : option (nat * IdAmount) :=
  list_find (fun x => ia_id x = id) l.

Definition bal_balance_on_hold (reason : N) (who : AccountId) (s : State) : Z :=
  match find_amount reason (holds who s) with
  | Some (_, x) => ia_amount x
  | None => 0
  end.

Definition has_id (id : N) (l : list IdAmount) : bool := existsb (fun x => (ia_id x =? id)%N) l.

Definition is_full {A} (bound : nat) (l : list A) : bool := (bound <=? length l)%nat.

Definition bal_hold_available (reason : N) (who : AccountId) (s : State) : bool :=
  if providers who (sys s) =? 0 then false else
  let hs := holds who s in
  if is_full HoldVariantCount hs && negb (has_id reason hs) then false else true.

(** [BoundedVec::try_push] *)
Definition try_push {A} (bound : nat) (l : list A) (x : A) (e : DispatchError) :
    M State (list A) :=
  if (length l <? bound)%nat then ret (l ++ [x]) else fail e.

Definition bal_set_balance_on_hold (reason : N) (who : AccountId) (amount : Z) : M State unit :=
  new_account <- gets (account who) ;;
  hs <- gets (holds who) ;;
  '(increase, delta, hs) <-
    match find_amount reason hs with
    | Some (i, item) =>
        delta <- rust_sub (Z.max (ia_amount item) amount) (Z.min (ia_amount item) amount) ;;
        let increase := ia_amount item <? amount in
        let hs := <[i := {| ia_id := ia_id item; ia_amount := amount |}]> hs in
        ret (increase, delta, filter (fun x => ia_amount x <> 0) hs)
    | None =>
        hs <- (if amount =? 0 then ret hs
               else try_push HoldVariantCount hs {| ia_id := reason; ia_amount := amount |}
                      (Error_into TooManyHolds)) ;;
        ret (true, amount, hs)
    end ;;
  new_reserved <-
    (if increase : bool then ok_or (checked_add (reserved new_account) delta) (Arithmetic Overflow)
     else ok_or (checked_sub (reserved new_account) delta) (Arithmetic Underflow)) ;;
  let new_account := with_reserved new_account new_reserved in
  '(result, _) <- try_mutate_account who (fun _ _ => ret (tt, new_account)) ;;
  do storage_insert HoldsL who hs ;;
  ret result.
End holds.

#[export] Instance balances_InspectHold `{Config} : InspectHold State := {|
  total_balance_on_hold := reserved_balance;
  reducible_total_balance_on_hold := bal_reducible_total_balance_on_hold;
  balance_on_hold := bal_balance_on_hold;
  hold_available := bal_hold_available;
|}.

#[export] Instance balances_UnbalancedHold `{Config} : UnbalancedHold State := {|
  set_balance_on_hold := bal_set_balance_on_hold;
|}.

(** ** Freezes *)

Section freezes.
Context `{Config}.

Definition bal_balance_frozen (id : N) (who : AccountId) (s : State) : Z :=
  match find_amount id (freezes who s) with
  | Some (_, l) => ia_amount l
  | None => 0
  end.

Definition bal_can_freeze (id : N) (who : AccountId) (s : State) : bool :=
  let l := freezes who s in
  negb (is_full MaxFreezes l) || has_id id l.

Definition bal_thaw (id : N) (who : AccountId) : M State unit :=
  ls <- gets (freezes who) ;;
  update_freezes who (filter (fun l => ia_id l <> id) ls).

Definition bal_set_freeze (id : N) (who : AccountId) (amount : Z) : M State unit :=
  if amount =? 0 then bal_thaw id who else
  ls <- gets (freezes who) ;;
  ls <- match find_amount id ls with
        | Some (i, x) => ret (<[i := {| ia_id := ia_id x; ia_amount := amount |}]> ls)
        | None => try_push MaxFreezes ls {| ia_id := id; ia_amount := amount |}
                    (Error_into TooManyFreezes)
        end ;;
  update_freezes who ls.

Definition bal_extend_freeze (id : N) (who : AccountId) (amount : Z) : M State unit :=
  if amount =? 0 then ret tt else
  ls <- gets (freezes who) ;;
  ls <- match find_amount id ls with
        | Some (i, x) =>
            ret (<[i := {| ia_id := ia_id x; ia_amount := Z.max (ia_amount x) amount |}]> ls)
        | None => try_push MaxFreezes ls {| ia_id := id; ia_amount := amount |}
                    (Error_into TooManyFreezes)
        end ;;
  update_freezes who ls.
End freezes.

#[export] Instance balances_InspectFreeze `{Config} : InspectFreeze State := {|
  balance_frozen := bal_balance_frozen;
  can_freeze := bal_can_freeze;
|}.

#[export] Instance balances_MutateFreeze `{Config} : MutateFreeze State := {|
  set_freeze := bal_set_freeze;
  extend_freeze := bal_extend_freeze;
  thaw := bal_thaw;
|}.

(** ** Mutation with dust handling ([lib.rs]) *)

Section handling_dust.
Context `{Config}.

Definition handle_raw_maybe_dust (maybe_dust : option Z) : M State unit :=
  match maybe_dust with
  | Some dust => modify (handle_raw_dust dust)
  | None => ret tt
  end.

Definition try_mutate_account_handling_dust {R} `{Droppable State R} (who : AccountId)
    (f : AccountData -> bool -> M State (R * AccountData)) : M State R :=
  '(r, maybe_dust) <- try_mutate_account who f ;;
  do handle_raw_maybe_dust maybe_dust ;;
  ret r.

Definition mutate_account_handling_dust {R} `{Droppable State R} (who : AccountId)
    (f : AccountData -> M State (R * AccountData)) : M State R :=
  '(r, maybe_dust) <- mutate_account who f ;;
  do handle_raw_maybe_dust maybe_dust ;;
  ret r.

Definition usable_balance (who : AccountId) (s : State) : Z :=
  reducible_balance who Expendable Polite s.

Definition usable_balance_for_fees (who : AccountId) (s : State) : Z :=
  reducible_balance who Protect Polite s.
End handling_dust.
