(* ===== verification/BalancesCurrency.v ===== *)
(** * The balances pallet as a [Currency]

    [src/substrate/frame/balances/src/impl_currency.rs]: the imbalances and what
    dropping them does, [Currency], [ReservableCurrency],
    [NamedReservableCurrency] and [LockableCurrency]; and [do_transfer_reserved]
    of [lib.rs], which needs [unreserve]. *)

From stdpp Require Import base tactics numbers list gmap.
From S2P Require Import Prelude Dispatch System Tokens Fungible Balances BalancesFungible.
Local Open Scope Z_scope.

(** ** Imbalances *)

#[export] Instance drop_positive `{Config} : Droppable State PositiveImbalance := fun i s =>
  let '(PosImb amount) := i in
  if amount =? 0 then s
  else deposit (Issued amount) (set_TotalIssuance (saturating_add (TotalIssuance s) amount) s).

#[export] Instance drop_negative `{Config} : Droppable State NegativeImbalance := fun i s =>
  let '(NegImb amount) := i in
  if amount =? 0 then s
  else deposit (Rescinded amount) (set_TotalIssuance (saturating_sub (TotalIssuance s) amount) s).

#[export] Instance drop_signed `{Config} : Droppable State SignedImbalance := fun i s =>
  match i with
  | SPositive p => drop_value p s
  | SNegative n => drop_value n s
  end.

#[export] Instance drop_account_data : Droppable State AccountData := fun _ s => s.

Section currency.
Context `{Config}.

Definition cur_can_slash (who : AccountId) (value : Z) (s : State) : bool :=
  if value =? 0 then true else value <=? free_balance who s.

Definition cur_burn (amount : Z) : M State PositiveImbalance :=
  if amount =? 0 then ret imb_zero else
  issued <- gets TotalIssuance ;;
  let '(new, amount) :=
    match checked_sub issued amount with
    | Some x => (x, amount)
    | None => (0, issued)
    end in
  do modify (set_TotalIssuance new) ;;
  do modify (deposit (Rescinded amount)) ;;
  ret (PosImb amount).

Definition cur_issue (amount : Z) : M State NegativeImbalance :=
  if amount =? 0 then ret imb_zero else
  issued <- gets TotalIssuance ;;
  '(new, amount) <-
    match checked_add issued amount with
    | Some x => ret (x, amount)
    | None => amount <- rust_sub max_value issued ;; ret (max_value, amount)
    end ;;
  do modify (set_TotalIssuance new) ;;
  do modify (deposit (Issued amount)) ;;
  ret (NegImb amount).

Definition cur_ensure_can_withdraw (who : AccountId) (amount : Z) (_reasons : Z) (new_balance : Z) :
    M State unit :=
  if amount =? 0 then ret tt else
  a <- gets (account who) ;;
  ensure (frozen a <=? new_balance) (Error_into LiquidityRestrictions).

Definition cur_transfer (transactor dest : AccountId) (value : Z)
    (existence_requirement : ExistenceRequirement) : M State unit :=
  if (value =? 0) || (transactor =? dest)%N then ret tt else
  let keep_alive :=
    match existence_requirement with
    | KeepAlive => Preserve
    | AllowDeath => Expendable
    end in
  do transfer transactor dest value keep_alive ;;
  ret tt.

Definition cur_slash (who : AccountId) (value : Z) : M State (NegativeImbalance * Z) :=
  if value =? 0 then ret (imb_zero, 0) else
  tb <- gets (bal_total_balance who) ;;
  if tb =? 0 then ret (imb_zero, value) else
  result <- try (try_mutate_account_handling_dust who (fun account _is_new =>
    can_dec <- gets (fun s => can_dec_provider who (sys s)) ;;
    let actual :=
      if can_dec : bool then Z.min value (free account)
      else Z.min value (saturating_sub (free account) ExistentialDeposit) in
    let account := with_free account (saturating_sub (free account) actual) in
    let remaining := saturating_sub value actual in
    ret ((NegImb actual, remaining), account))) ;;
  match result with
  | inl (imbalance, remaining) =>
      do modify (deposit (Slashed who (saturating_sub value remaining))) ;;
      ret (imbalance, remaining)
  | inr _ => ret (imb_zero, value)
  end.

Definition cur_deposit_into_existing (who : AccountId) (value : Z) : M State PositiveImbalance :=
  if value =? 0 then ret imb_zero else
  try_mutate_account_handling_dust who (fun account is_new =>
    do ensure (negb is_new) (Error_into DeadAccount) ;;
    new_free <- ok_or (checked_add (free account) value) (Arithmetic Overflow) ;;
    do modify (deposit (Deposit who value)) ;;
    ret (PosImb value, with_free account new_free)).

Definition cur_deposit_creating (who : AccountId) (value : Z) : M State PositiveImbalance :=
  if value =? 0 then ret imb_zero else
  r <- try (try_mutate_account_handling_dust who (fun account is_new =>
    let ed := ExistentialDeposit in
    do ensure ((ed <=? value) || negb is_new) (Error_into ExistentialDepositError) ;;
    match checked_add (free account) value with
    | None => ret (imb_zero, account)
    | Some x =>
        do modify (deposit (Deposit who value)) ;;
        ret (PosImb value, with_free account x)
    end)) ;;
  ret (match r with inl i => i | inr _ => imb_zero end).

Definition cur_withdraw (who : AccountId) (value : Z) (reasons : Z)
    (liveness : ExistenceRequirement) : M State NegativeImbalance :=
  if value =? 0 then ret imb_zero else
  try_mutate_account_handling_dust who (fun account _ =>
    new_free_account <- ok_or (checked_sub (free account) value)
                          (Error_into InsufficientBalance) ;;
    let ed := ExistentialDeposit in
    let would_be_dead := new_free_account <? ed in
    let would_kill := would_be_dead && (ed <=? free account) in
    do ensure (bool_decide (liveness = AllowDeath) || negb would_kill)
         (Error_into Expendability) ;;
    do cur_ensure_can_withdraw who value reasons new_free_account ;;
    do modify (deposit (Withdraw who value)) ;;
    ret (NegImb value, with_free account new_free_account)).

Definition cur_make_free_balance_be (who : AccountId) (value : Z) : M State SignedImbalance :=
  r <- try (try_mutate_account_handling_dust who (fun account is_new =>
    let ed := ExistentialDeposit in
    do ensure ((ed <=? value) || negb is_new) (Error_into ExistentialDepositError) ;;
    imbalance <-
      (if free account <=? value then
         d <- rust_sub value (free account) ;; ret (SPositive (PosImb d))
       else
         d <- rust_sub (free account) value ;; ret (SNegative (NegImb d))) ;;
    do modify (deposit (BalanceSet who value)) ;;
    ret (imbalance, with_free account value))) ;;
  ret (match r with inl i => i | inr _ => SPositive imb_zero end).
End currency.

(** ** [ReservableCurrency] *)

Section reservable.
Context `{Config}.

Definition cur_can_reserve (who : AccountId) (value : Z) : M State bool :=
  if value =? 0 then ret true else
  a <- gets (account who) ;;
  match checked_sub (free a) value with
  | None => ret false
  | Some new_balance =>
      if ExistentialDeposit <=? new_balance then
        r <- try (cur_ensure_can_withdraw who value WR_RESERVE new_balance) ;;
        ret (match r with inl _ => true | inr _ => false end)
      else ret false
  end.

Definition cur_reserve (who : AccountId) (value : Z) : M State unit :=
  if value =? 0 then ret tt else
  do try_mutate_account_handling_dust who (fun account _ =>
       new_free <- ok_or (checked_sub (free account) value) (Error_into InsufficientBalance) ;;
       new_reserved <- ok_or (checked_add (reserved account) value) (Arithmetic Overflow) ;;
       do cur_ensure_can_withdraw who value WR_RESERVE new_free ;;
       ret (tt, with_reserved (with_free account new_free) new_reserved)) ;;
  modify (deposit (Reserved who value)).

Definition cur_unreserve (who : AccountId) (value : Z) : M State Z :=
  if value =? 0 then ret 0 else
  tb <- gets (bal_total_balance who) ;;
  if tb =? 0 then ret value else
  r <- try (mutate_account_handling_dust who (fun account =>
    let actual := Z.min (reserved account) value in
    new_reserved <- rust_sub (reserved account) actual ;;
    let new_free := saturating_add (free account) actual in
    ret (actual, with_free (with_reserved account new_reserved) new_free))) ;;
  match r with
  | inl actual =>
      do modify (deposit (Unreserved who actual)) ;;
      rust_sub value actual
  | inr _ => ret value
  end.

Definition cur_slash_reserved (who : AccountId) (value : Z) : M State (NegativeImbalance * Z) :=
  if value =? 0 then ret (imb_zero, 0) else
  tb <- gets (bal_total_balance who) ;;
  if tb =? 0 then ret (imb_zero, value) else
  r <- try (mutate_account_handling_dust who (fun account =>
    let actual := Z.min value (reserved account) in
    let account := with_reserved account (saturating_sub (reserved account) actual) in
    ret ((NegImb actual, saturating_sub value actual), account))) ;;
  match r with
  | inl (imbalance, not_slashed) =>
      do modify (deposit (Slashed who (saturating_sub value not_slashed))) ;;
      ret (imbalance, not_slashed)
  | inr _ => ret (imb_zero, value)
  end.

Definition do_transfer_reserved (slashed beneficiary : AccountId) (value : Z)
    (precision : Precision) (fortitude : Fortitude) (status : BalanceStatus) : M State Z :=
  if value =? 0 then ret 0 else
  max <- gets (bal_reducible_total_balance_on_hold slashed fortitude) ;;
  let actual := match precision with BestEffort => Z.min value max | Exact => value end in
  do ensure (actual <=? max) (Token FundsUnavailable) ;;
  if (slashed =? beneficiary)%N then
    match status with
    | StatusFree =>
        rest <- cur_unreserve slashed actual ;;
        ret (saturating_sub actual rest)
    | StatusReserved => ret actual
    end
  else
    '((_, maybe_dust_1), maybe_dust_2) <-
      try_mutate_account beneficiary (fun to_account is_new =>
        do ensure (negb is_new) (Error_into DeadAccount) ;;
        '((to_account, u), maybe_dust) <-
          try_mutate_account slashed (fun from_account _ =>
            to_account <-
              match status with
              | StatusFree =>
                  x <- ok_or (checked_add (free to_account) actual) (Arithmetic Overflow) ;;
                  ret (with_free to_account x)
              | StatusReserved =>
                  x <- ok_or (checked_add (reserved to_account) actual) (Arithmetic Overflow) ;;
                  ret (with_reserved to_account x)
              end ;;
            let from_account :=
              with_reserved from_account (saturating_sub (reserved from_account) actual) in
            ret ((to_account, tt), from_account)) ;;
        ret ((u, maybe_dust), to_account)) ;;
    do handle_raw_maybe_dust maybe_dust_1 ;;
    do handle_raw_maybe_dust maybe_dust_2 ;;
    do modify (deposit (ReserveRepatriated slashed beneficiary actual status)) ;;
    ret actual.

Definition cur_repatriate_reserved (slashed beneficiary : AccountId) (value : Z)
    (status : BalanceStatus) : M State Z :=
  actual <- do_transfer_reserved slashed beneficiary value BestEffort Polite status ;;
  ret (saturating_sub value actual).
End reservable.

(** ** [NamedReservableCurrency]

    Named reserves are kept in a vector sorted by identifier. *)

(** [slice::binary_search_by_key] of the Rust standard library: [size] is halved
    until one candidate is left. *)
Fixpoint binary_search_loop (fuel : nat) (key : N) (keys : list N) (base size : nat) : nat :=
  match fuel with
  | O => base
  | S fuel =>
      if (1 <? size)%nat then
        let half := (size / 2)%nat in
        let mid := (base + half)%nat in
        let base :=
          match keys !! mid with
          | Some k => if (key <? k)%N then base else mid
          | None => base
          end in
        binary_search_loop fuel key keys base (size - half)%nat
      else base
  end.

(** [inl] is [Ok(index)], [inr] is [Err(index)]. *)
Definition binary_search (key : N) (keys : list N) : nat + nat :=
  match keys with
  | [] => inr 0%nat
  | _ :: _ =>
      let base := binary_search_loop (length keys) key keys 0 (length keys) in
      match keys !! base with
      | Some k => if (k =? key)%N then inl base
                  else if (k <? key)%N then inr (S base) else inr base
      | None => inr base
      end
  end.

Definition search_reserve (id : N) (l : list ReserveData) : nat + nat :=
  binary_search id (rd_id <$> l).

Definition reserve_amount (l : list ReserveData) (i : nat) : Z :=
  from_option rd_amount 0 (l !! i).

(** [reserves[index].amount = n] *)
Definition set_reserve_amount (l : list ReserveData) (i : nat) (n : Z) : list ReserveData :=
  alter (fun d => {| rd_id := rd_id d; rd_amount := n |}) i l.

(** [Vec::insert] *)
Definition vec_insert {A} (i : nat) (x : A) (l : list A) : list A := take i l ++ x :: drop i l.

Section named_reservable.
Context `{Config}.

Definition cur_reserved_balance_named (id : N) (who : AccountId) (s : State) : Z :=
  match search_reserve id (reserves who s) with
  | inl index => reserve_amount (reserves who s) index
  | inr _ => 0
  end.

(** [BoundedVec::try_insert] *)
Definition try_insert_reserve (l : list ReserveData) (i : nat) (d : ReserveData) :
    M State (list ReserveData) :=
  if (length l <? MaxReserves)%nat then ret (vec_insert i d l)
  else fail (Error_into TooManyReserves).

Definition cur_reserve_named (id : N) (who : AccountId) (value : Z) : M State unit :=
  if value =? 0 then ret tt else
  map_try_mutate ReservesL [] who (fun reserves =>
    reserves <-
      match search_reserve id reserves with
      | inl index =>
          amount <- ok_or (checked_add (reserve_amount reserves index) value)
                      (Arithmetic Overflow) ;;
          ret (set_reserve_amount reserves index amount)
      | inr index =>
          try_insert_reserve reserves index {| rd_id := id; rd_amount := value |}
      end ;;
    do cur_reserve who value ;;
    ret (tt, reserves)).

Definition cur_unreserve_named (id : N) (who : AccountId) (value : Z) : M State Z :=
  if value =? 0 then ret 0 else
  map_mutate_exists ReservesL who (fun maybe_reserves =>
    match maybe_reserves with
    | Some reserves =>
        match search_reserve id reserves with
        | inl index =>
            let to_change := Z.min (reserve_amount reserves index) value in
            remain <- cur_unreserve who to_change ;;
            let actual := saturating_sub to_change remain in
            amount <- rust_sub (reserve_amount reserves index) actual ;;
            let reserves := set_reserve_amount reserves index amount in
            let maybe_reserves :=
              if amount =? 0 then
                if (length reserves =? 1)%nat then None
                else Some (delete index reserves)
              else Some reserves in
            rest <- rust_sub value actual ;;
            ret (rest, maybe_reserves)
        | inr _ => ret (value, Some reserves)
        end
    | None => ret (value, None)
    end).

Definition cur_slash_reserved_named (id : N) (who : AccountId) (value : Z) :
    M State (NegativeImbalance * Z) :=
  if value =? 0 then ret (imb_zero, 0) else
  map_mutate ReservesL [] who (fun reserves =>
    match search_reserve id reserves with
    | inl index =>
        let to_change := Z.min (reserve_amount reserves index) value in
        '(imb, remain) <- cur_slash_reserved who to_change ;;
        let actual := saturating_sub to_change remain in
        amount <- rust_sub (reserve_amount reserves index) actual ;;
        let reserves := set_reserve_amount reserves index amount in
        do modify (deposit (Slashed who actual)) ;;
        rest <- rust_sub value actual ;;
        ret ((imb, rest), reserves)
    | inr _ => ret ((imb_zero, value), reserves)
    end).

(** The part of [repatriate_reserved_named] that credits the beneficiary's
    reserve of the same name. *)
Definition repatriate_to_named (id : N) (slashed beneficiary : AccountId) (to_change : Z) :
    M State Z :=
  map_try_mutate ReservesL [] beneficiary (fun reserves =>
    match search_reserve id reserves with
    | inl index =>
        remain <- cur_repatriate_reserved slashed beneficiary to_change StatusReserved ;;
        let actual := saturating_sub to_change remain in
        let amount := saturating_add (reserve_amount reserves index) actual in
        ret (actual, set_reserve_amount reserves index amount)
    | inr index =>
        remain <- cur_repatriate_reserved slashed beneficiary to_change StatusReserved ;;
        let actual := saturating_sub to_change remain in
        reserves <- try_insert_reserve reserves index {| rd_id := id; rd_amount := actual |} ;;
        ret (actual, reserves)
    end).

Definition cur_repatriate_reserved_named (id : N) (slashed beneficiary : AccountId) (value : Z)
    (status : BalanceStatus) : M State Z :=
  if value =? 0 then ret 0 else
  if (slashed =? beneficiary)%N then
    match status with
    | StatusFree => cur_unreserve_named id slashed value
    | StatusReserved =>
        have <- gets (cur_reserved_balance_named id slashed) ;;
        ret (saturating_sub value have)
    end
  else
  map_try_mutate ReservesL [] slashed (fun reserves =>
    match search_reserve id reserves with
    | inl index =>
        let to_change := Z.min (reserve_amount reserves index) value in
        actual <-
          match status with
          | StatusReserved => repatriate_to_named id slashed beneficiary to_change
          | StatusFree =>
              remain <- cur_repatriate_reserved slashed beneficiary to_change status ;;
              ret (saturating_sub to_change remain)
          end ;;
        amount <- rust_sub (reserve_amount reserves index) actual ;;
        let reserves := set_reserve_amount reserves index amount in
        rest <- rust_sub value actual ;;
        ret (rest, reserves)
    | inr _ => ret (value, reserves)
    end).
End named_reservable.

(** ** [LockableCurrency] *)

Section lockable.
Context `{Config}.

(** The [filter_map] over the locks with [new_lock.take()]: the first lock named
    [id] becomes [f] of it and the new lock, later ones disappear; the new lock is
    returned if it was not taken. *)
Fixpoint replace_lock (id : N) (f : BalanceLock -> BalanceLock -> BalanceLock)
    (new_lock : option BalanceLock) (ls : list BalanceLock) :
    list BalanceLock * option BalanceLock :=
  match ls with
  | [] => ([], new_lock)
  | l :: ls =>
      if (lock_id l =? id)%N then
        let '(ls', rest) := replace_lock id f None ls in
        match new_lock with
        | Some nl => (f l nl :: ls', rest)
        | None => (ls', rest)
        end
      else
        let '(ls', rest) := replace_lock id f new_lock ls in
        (l :: ls', rest)
  end.

Definition push_left (r : list BalanceLock * option BalanceLock) : list BalanceLock :=
  match snd r with
  | Some lock => fst r ++ [lock]
  | None => fst r
  end.

Definition cur_remove_lock (id : N) (who : AccountId) : M State unit :=
  ls <- gets (locks who) ;;
  update_locks who (filter (fun l => lock_id l <> id) ls).

Definition cur_set_lock (id : N) (who : AccountId) (amount : Z) (reasons : Z) : M State unit :=
  if wr_is_empty reasons || (amount =? 0) then cur_remove_lock id who else
  let new_lock :=
    {| lock_id := id; lock_amount := amount; lock_reasons := Reasons_from reasons |} in
  ls <- gets (locks who) ;;
  update_locks who (push_left (replace_lock id (fun _ nl => nl) (Some new_lock) ls)).

Definition extend_with (l nl : BalanceLock) : BalanceLock :=
  {| lock_id := lock_id l;
     lock_amount := Z.max (lock_amount l) (lock_amount nl);
     lock_reasons := Reasons_bitor (lock_reasons l) (lock_reasons nl) |}.

Definition cur_extend_lock (id : N) (who : AccountId) (amount : Z) (reasons : Z) : M State unit :=
  if (amount =? 0) || wr_is_empty reasons then ret tt else
  let new_lock :=
    {| lock_id := id; lock_amount := amount; lock_reasons := Reasons_from reasons |} in
  ls <- gets (locks who) ;;
  update_locks who (push_left (replace_lock id extend_with (Some new_lock) ls)).

Definition cur_balance_locked (id : N) (who : AccountId) : M State Z :=
  ls <- gets (locks who) ;;
  (fix sum (acc : Z) (ls : list BalanceLock) : M State Z :=
     match ls with
     | [] => ret acc
     | l :: ls => acc <- rust_add acc (lock_amount l) ;; sum acc ls
     end) 0 (filter (fun l => lock_id l = id) ls).
End lockable.
