(* ===== verification/BalancesCalls.v ===== *)
(** * The balances pallet: dispatchables and genesis

    The extrinsics of [src/substrate/frame/balances/src/lib.rs], each in its own
    storage layer as the [pallet::call] macro wraps them, the genesis build, and
    the pallet as a transition system over its calls. *)

From stdpp Require Import base tactics numbers list gmap strings.
From Stdlib Require Import Ascii.
From Stdlib Require DecimalString.
From S2P Require Import Prelude Dispatch System Tokens Fungible Balances BalancesFungible BalancesCurrency.
Local Open Scope Z_scope.

(** ** Origins and address lookup *)

(** [NoOrigin] is the code's [None]; the origin of another pallet converts to no
    [RawOrigin] and is refused the same way. *)
Inductive RawOrigin := Root | Signed (who : AccountId) | NoOrigin | Authorized.

Definition ensure_signed {S} (o : RawOrigin) : M S AccountId :=
  match o with
  | Signed t => ret t
  | _ => fail BadOrigin
  end.

Definition ensure_root {S} (o : RawOrigin) : M S unit :=
  match o with
  | Root => ret tt
  | _ => fail BadOrigin
  end.

Inductive MultiAddress :=
  | Id (a : AccountId)
  | Index (i : N)
  | Raw (bytes : list N)
  | Address32 (bytes : N)
  | Address20 (bytes : N).

(** [AccountIdLookup::lookup] *)
Definition lookup_address {S} (x : MultiAddress) : M S AccountId :=
  match x with
  | Id i => ret i
  | _ => fail CannotLookup
  end.

(** [Perbill::from_rational] on [u32] and [Perbill::from_percent] *)
Definition perbill_from_rational (p q : Z) : Z :=
  if (q =? 0) || (q <? p) then 10 ^ 9 else 10 ^ 9 * p / q.
Definition perbill_from_percent (x : Z) : Z := Z.min x 100 * 10 ^ 9 / 100.

Inductive Pays := PaysYes | PaysNo.

Section calls.
Context `{Config}.

Definition transfer_allow_death (origin : RawOrigin) (dest : MultiAddress) (value : Z) :
    M State unit :=
  with_storage_layer (
    source <- ensure_signed origin ;;
    dest <- lookup_address dest ;;
    do transfer source dest value Expendable ;;
    ret tt).

Definition force_transfer (origin : RawOrigin) (source dest : MultiAddress) (value : Z) :
    M State unit :=
  with_storage_layer (
    do ensure_root origin ;;
    source <- lookup_address source ;;
    dest <- lookup_address dest ;;
    do transfer source dest value Expendable ;;
    ret tt).

Definition transfer_keep_alive (origin : RawOrigin) (dest : MultiAddress) (value : Z) :
    M State unit :=
  with_storage_layer (
    source <- ensure_signed origin ;;
    dest <- lookup_address dest ;;
    do transfer source dest value Preserve ;;
    ret tt).

Definition transfer_all (origin : RawOrigin) (dest : MultiAddress) (keep_alive : bool) :
    M State unit :=
  with_storage_layer (
    transactor <- ensure_signed origin ;;
    let keep_alive := if keep_alive then Preserve else Expendable in
    reducible <- gets (reducible_balance transactor keep_alive Polite) ;;
    dest <- lookup_address dest ;;
    do transfer transactor dest reducible keep_alive ;;
    ret tt).

Definition force_unreserve (origin : RawOrigin) (who : MultiAddress) (amount : Z) : M State unit :=
  with_storage_layer (
    do ensure_root origin ;;
    who <- lookup_address who ;;
    do cur_unreserve who amount ;;
    ret tt).

Fixpoint upgrade_loop (who : list AccountId) (upgrade_count : Z) : M State Z :=
  match who with
  | [] => ret upgrade_count
  | i :: who =>
      upgraded <- ensure_upgraded i ;;
      upgrade_loop who (if upgraded : bool then u32_saturating_add upgrade_count 1 else upgrade_count)
  end.

Definition upgrade_accounts (origin : RawOrigin) (who : list AccountId) : M State Pays :=
  with_storage_layer (
    do ensure_signed origin ;;
    if bool_decide (who = []) then ret PaysYes else
    upgrade_count <- upgrade_loop who 0 ;;
    let proportion_upgraded :=
      perbill_from_rational upgrade_count (Z.of_nat (length who) mod 2 ^ 32) in
    ret (if perbill_from_percent 90 <=? proportion_upgraded then PaysNo else PaysYes)).

Definition force_set_balance (origin : RawOrigin) (who : MultiAddress) (new_free : Z) :
    M State unit :=
  with_storage_layer (
    do ensure_root origin ;;
    who <- lookup_address who ;;
    let existential_deposit := ed in
    let wipeout := new_free <? existential_deposit in
    let new_free := if wipeout then 0 else new_free in
    old_free <- mutate_account_handling_dust who (fun account =>
      let old_free := free account in
      ret (old_free, with_free account new_free)) ;;
    do (if old_free <? new_free then
          d <- rust_sub new_free old_free ;; modify (drop_value (PosImb d))
        else if new_free <? old_free then
          d <- rust_sub old_free new_free ;; modify (drop_value (NegImb d))
        else ret tt) ;;
    modify (deposit (BalanceSet who new_free))).

Definition force_adjust_total_issuance (origin : RawOrigin) (direction : AdjustmentDirection)
    (delta : Z) : M State unit :=
  with_storage_layer (
    do ensure_root origin ;;
    do ensure (0 <? delta) (Error_into DeltaZero) ;;
    old <- gets TotalIssuance ;;
    let new :=
      match direction with
      | Increase => saturating_add old delta
      | Decrease => saturating_sub old delta
      end in
    inactive <- gets InactiveIssuance ;;
    do ensure (inactive <=? new) (Error_into IssuanceDeactivated) ;;
    do modify (set_TotalIssuance new) ;;
    modify (deposit (TotalIssuanceForced old new))).

Definition burn (origin : RawOrigin) (value : Z) (keep_alive : bool) : M State unit :=
  with_storage_layer (
    source <- ensure_signed origin ;;
    let preservation := if keep_alive then Preserve else Expendable in
    do burn_from source value preservation Exact Polite ;;
    ret tt).

(** ** The calls as data *)

Inductive Call :=
  | CTransferAllowDeath (dest : MultiAddress) (value : Z)
  | CForceTransfer (source dest : MultiAddress) (value : Z)
  | CTransferKeepAlive (dest : MultiAddress) (value : Z)
  | CTransferAll (dest : MultiAddress) (keep_alive : bool)
  | CForceUnreserve (who : MultiAddress) (amount : Z)
  | CUpgradeAccounts (who : list AccountId)
  | CForceSetBalance (who : MultiAddress) (new_free : Z)
  | CForceAdjustTotalIssuance (direction : AdjustmentDirection) (delta : Z)
  | CBurn (value : Z) (keep_alive : bool).

Definition dispatch (c : Call) (origin : RawOrigin) : M State unit :=
  match c with
  | CTransferAllowDeath dest value => transfer_allow_death origin dest value
  | CForceTransfer source dest value => force_transfer origin source dest value
  | CTransferKeepAlive dest value => transfer_keep_alive origin dest value
  | CTransferAll dest keep_alive => transfer_all origin dest keep_alive
  | CForceUnreserve who amount => force_unreserve origin who amount
  | CUpgradeAccounts who => do upgrade_accounts origin who ;; ret tt
  | CForceSetBalance who new_free => force_set_balance origin who new_free
  | CForceAdjustTotalIssuance direction delta => force_adjust_total_issuance origin direction delta
  | CBurn value keep_alive => burn origin value keep_alive
  end.

(** ** Genesis *)

Fixpoint genesis_total (acc : Z) (balances : list (AccountId * Z)) : M State Z :=
  match balances with
  | [] => ret acc
  | (_, n) :: balances => acc <- rust_add acc n ;; genesis_total acc balances
  end.

(** [derivation.replace("{}", r)] *)
Fixpoint replace_placeholder (r derivation : string) : string :=
  match derivation with
  | String.String "{"%char (String.String "}"%char rest) => r +:+ replace_placeholder r rest
  | String.String c rest => String.String c (replace_placeholder r rest)
  | String.EmptyString => String.EmptyString
  end.

Definition u32_to_string (n : nat) : string := DecimalString.NilZero.string_of_uint (Nat.to_uint n).

(** The account of the sr25519 pair of a secret string, [None] where the code's [expect]
    panics, is an argument: a library computes it. *)
Definition derive_dev_account (account_from_string : string -> option AccountId)
    (num_accounts : nat) (balance : Z) (derivation : string) : M State unit :=
  do rust_assert (0 <? num_accounts)%nat ;;
  do rust_assert (ExistentialDeposit <=? balance) ;;
  do rust_assert (match String.index 0 "{}" derivation with Some _ => true | None => false end) ;;
  for_each (seq 0 num_accounts) (fun index =>
    let derivation_string := replace_placeholder (u32_to_string index) derivation in
    match account_from_string derivation_string with
    | None => panic
    | Some who =>
        r <- try (mutate_account_handling_dust who (fun account =>
               ret (tt, with_free account balance))) ;;
        match r with
        | inl _ => ret tt
        | inr _ => panic
        end
    end).

Definition DEFAULT_ADDRESS_URI : string := "//Sender//{}".

Definition genesis_build (account_from_string : string -> option AccountId)
    (balances : list (AccountId * Z)) (dev_accounts : option (nat * Z * option string)) :
    M State unit :=
  total <- genesis_total 0 balances ;;
  do modify (set_TotalIssuance total) ;;
  do for_each balances (fun p => rust_assert (ExistentialDeposit <=? snd p)) ;;
  do rust_assert (size (list_to_set (fst <$> balances) : gset AccountId) =? length balances)%nat ;;
  do match dev_accounts with
     | Some (num_accounts, balance, derivation) =>
         derive_dev_account account_from_string num_accounts balance
           (default DEFAULT_ADDRESS_URI derivation)
     | None => ret tt
     end ;;
  for_each balances (fun p =>
    let '(who, free) := p in
    do lift_sys (inc_providers who) ;;
    r <- try (stored_insert who (with_free AccountData_default free)) ;;
    match r with
    | inl _ => ret tt
    | inr _ => panic
    end).
End calls.
