(* ===== verification/ClockFacts.v ===== *)
(** * Token operations do not touch the clock

    A frame property: the transfers and locks of the pallet leave the block number alone. *)

From stdpp Require Import base tactics numbers list gmap.
From S2P Require Import Prelude Dispatch System Tokens Fungible Balances BalancesFungible BalancesCurrency.
Local Open Scope Z_scope.

(** ** Computations that stay within a preorder *)

Section keeps.
Context {S : Type} (R : relation S) `{!PreOrder R}.

Definition keeps {A} (m : M S A) : Prop := forall s, R s (snd (m s)).

Lemma keeps_ret {A} (a : A) : keeps (ret a).
Proof. by intros s. Qed.

Lemma keeps_fail {A} e : keeps (A := A) (fail e).
Proof. by intros s. Qed.

Lemma keeps_panic {A} : keeps (A := A) panic.
Proof. by intros s. Qed.

Lemma keeps_gets {A} (f : S -> A) : keeps (gets f).
Proof. by intros s. Qed.

Lemma keeps_modify (f : S -> S) : (forall s, R s (f s)) -> keeps (modify f).
Proof. done. Qed.

Lemma keeps_bind {A B} (m : M S A) (f : A -> M S B) : keeps m -> (forall a, keeps (f a)) -> keeps (bind m f).
Proof.
  intros Hm Hf s. specialize (Hm s). unfold bind. destruct (m s) as [[a | e |] s']; [| done | done].
  etrans; [done |]. apply Hf.
Qed.

Lemma keeps_try {A} (m : M S A) : keeps m -> keeps (try m).
Proof. intros Hm s. specialize (Hm s). unfold try. by destruct (m s) as [[a | e |] s']. Qed.

Lemma keeps_ensure c e : keeps (ensure c e).
Proof. destruct c; [apply keeps_ret | apply keeps_fail]. Qed.

Lemma keeps_ok_or {A} (o : option A) e : keeps (ok_or o e).
Proof. destruct o; [apply keeps_ret | apply keeps_fail]. Qed.

Lemma keeps_assert c : keeps (rust_assert c).
Proof. destruct c; [apply keeps_ret | apply keeps_panic]. Qed.

Lemma keeps_when (c : bool) m : keeps m -> keeps (when c m).
Proof. intros. destruct c; [done | apply keeps_ret]. Qed.

Context {K V : Type} `{Countable K} (L : Lens S (gmap K V)) (HL : forall m s, R s (lset L m s)).

Lemma keeps_map_try_mutate {X} d k (f : V -> M S (X * V)) : (forall v, keeps (f v)) -> keeps (map_try_mutate L d k f).
Proof.
  intros Hf s. unfold map_try_mutate. specialize (Hf (default d (lget L s !! k)) s).
  destruct (f _ s) as [[[x v] | e |] s']; [| done | done]. etrans; [done | apply HL].
Qed.

Lemma keeps_map_try_mutate_exists {X} k (f : option V -> M S (X * option V)) :
  (forall v, keeps (f v)) -> keeps (map_try_mutate_exists L k f).
Proof.
  intros Hf s. unfold map_try_mutate_exists. specialize (Hf (lget L s !! k) s).
  destruct (f _ s) as [[[x [v |]] | e |] s']; [| | done | done]; (etrans; [done | apply HL]).
Qed.

Lemma keeps_storage_insert k v : keeps (storage_insert L k v).
Proof. intros s. apply HL. Qed.

Lemma keeps_storage_remove k : keeps (storage_remove L k).
Proof. intros s. apply HL. Qed.
End keeps.

(** ** The system *)

Section clock.
Context `{Config}.
Abbreviation Sys := (Sys AccountData RuntimeEvent).

Definition same_number (y y' : Sys) : Prop := Number y' = Number y.

#[local] Instance same_number_preorder : PreOrder same_number.
Proof. split; [by intros y | intros y1 y2 y3 E1 E2; unfold same_number in *; congruence]. Qed.

Lemma same_number_event e (y : Sys) : same_number y (deposit_event e y).
Proof. unfold deposit_event, same_number. by repeat case_match. Qed.

Lemma same_number_account m (y : Sys) : same_number y (lset AccountL m y).
Proof. done. Qed.

(** One rule per form of computation; what is left goes to the [clock] hints. *)
Ltac keeps_step :=
  lazymatch goal with
  | |- keeps _ (ret _) => apply keeps_ret; apply _
  | |- keeps _ (fail _) => apply keeps_fail; apply _
  | |- keeps _ panic => apply keeps_panic; apply _
  | |- keeps _ (gets _) => apply keeps_gets; apply _
  | |- keeps _ (ensure _ _) => apply keeps_ensure; apply _
  | |- keeps _ (ok_or _ _) => apply keeps_ok_or; apply _
  | |- keeps _ (rust_assert _) => apply keeps_assert; apply _
  | |- keeps _ (bind _ _) => apply keeps_bind; [apply _ | | intros]
  | |- keeps _ (try _) => apply keeps_try
  | |- keeps _ (when _ _) => apply keeps_when; [apply _ |]
  | |- keeps _ (modify _) => apply keeps_modify; intros
  | |- keeps _ (map_try_mutate _ _ _ _) => apply keeps_map_try_mutate; [apply _ | | intros]
  | |- keeps _ (map_try_mutate_exists _ _ _) => apply keeps_map_try_mutate_exists; [apply _ | | intros]
  | |- keeps _ (storage_insert _ _ _) => apply keeps_storage_insert
  | |- keeps _ (storage_remove _ _) => apply keeps_storage_remove
  | |- keeps _ (match _ with _ => _ end) => case_match
  | |- keeps _ (let _ := _ in _) => cbv zeta
  | |- forall _, _ => intros
  end.

Ltac keeps_auto := repeat (keeps_step || solve [auto with clock]).

Create HintDb clock.
#[local] Hint Resolve same_number_event same_number_account : clock.

Lemma inc_providers_keeps who : keeps same_number (inc_providers who).
Proof. unfold inc_providers, map_mutate, on_created_account. keeps_auto. Qed.

Lemma dec_providers_keeps who : keeps same_number (dec_providers who).
Proof. unfold dec_providers, on_killed_account. keeps_auto. Qed.

Lemma inc_consumers_keeps who : keeps same_number (inc_consumers who).
Proof. unfold inc_consumers. keeps_auto. Qed.

Lemma inc_consumers_without_limit_keeps who : keeps same_number (inc_consumers_without_limit who).
Proof. unfold inc_consumers_without_limit. keeps_auto. Qed.

Lemma dec_consumers_keeps who : keeps same_number (dec_consumers who).
Proof. unfold dec_consumers, map_mutate. keeps_auto. Qed.

(** ** The pallet *)

Definition same_clock (s s' : State) : Prop := Number (sys s') = Number (sys s).

#[local] Instance same_clock_preorder : PreOrder same_clock.
Proof. split; [by intros s | intros s1 s2 s3 E1 E2; unfold same_clock in *; congruence]. Qed.

Lemma same_clock_deposit ev s : same_clock s (Balances.deposit ev s).
Proof. apply same_number_event. Qed.

Lemma keeps_lift_sys {A} (m : M Sys A) : keeps same_number m -> keeps same_clock (lift_sys m).
Proof. intros Hm s. specialize (Hm (sys s)). unfold lift_sys. by destruct (m (sys s)). Qed.

Lemma keeps_write_account who (f : AccountInfo AccountData -> M Sys (unit * AccountInfo AccountData)) :
  (forall a, keeps same_number (f a)) ->
  keeps same_clock (lift_sys (map_mutate AccountL AccountInfo_default who f)).
Proof. intros Hf. by apply keeps_lift_sys, keeps_map_try_mutate; [apply _ | |]. Qed.

#[local] Hint Resolve inc_providers_keeps dec_providers_keeps inc_consumers_keeps
  inc_consumers_without_limit_keeps dec_consumers_keeps same_clock_deposit keeps_lift_sys : clock.

Lemma try_mutate_exists_keeps {X} who (f : option AccountData -> M State (X * option AccountData)) :
  (forall o, keeps same_clock (f o)) -> keeps same_clock (try_mutate_exists who f).
Proof.
  intros Hf. unfold try_mutate_exists. keeps_auto.
  - apply keeps_write_account. intros. keeps_auto.
  - apply keeps_lift_sys. keeps_auto.
Qed.

Lemma ensure_upgraded_keeps who : keeps same_clock (ensure_upgraded who).
Proof.
  unfold ensure_upgraded. keeps_auto. apply try_mutate_exists_keeps. intros. keeps_auto.
Qed.

Lemma update_refs_keeps who dp dc dp' dc' : keeps same_clock (update_refs who dp dc dp' dc').
Proof. unfold update_refs. keeps_auto. Qed.

(** Dropping what a closure returned leaves the clock alone. *)
Class DropKeeps (X : Type) `{Droppable State X} : Prop := drop_keeps : forall (x : X) s, same_clock s (drop_value x s).

#[export] Instance drop_keeps_unit : DropKeeps unit.
Proof. done. Qed.
#[export] Instance drop_keeps_Z : DropKeeps Z.
Proof. done. Qed.
#[export] Instance drop_keeps_pair X Y `{Droppable State X} `{Droppable State Y} `{!DropKeeps X} `{!DropKeeps Y} :
  DropKeeps (X * Y).
Proof. intros [x y] s. etrans; [apply (drop_keeps x) | apply (drop_keeps y)]. Qed.
#[export] Instance drop_keeps_result X `{Droppable State X} `{!DropKeeps X} : DropKeeps (X + DispatchError).
Proof. intros [x | e] s; [apply (drop_keeps x) | done]. Qed.

#[export] Instance drop_keeps_option X `{Droppable State X} `{!DropKeeps X} : DropKeeps (option X).
Proof. intros [x |] s; [apply (drop_keeps x) | done]. Qed.
#[export] Instance drop_keeps_account_data : DropKeeps AccountData.
Proof. done. Qed.

Lemma try_mutate_account_keeps {X} `{Droppable State X} `{!DropKeeps X} who
    (f : AccountData -> bool -> M State (X * AccountData)) :
  (forall a b, keeps same_clock (f a b)) -> keeps same_clock (try_mutate_account who f).
Proof.
  intros Hf. unfold try_mutate_account. pose proof (ensure_upgraded_keeps who).
  keeps_auto; auto with clock. apply try_mutate_exists_keeps. intros o. unfold mutate_entry, settle_account.
  keeps_auto; auto with clock. intros s. pose proof (update_refs_keeps who) as Hu.
  unfold or_drop. match goal with |- context [update_refs who ?a ?b ?c ?d s] => specialize (Hu a b c d s) end.
  destruct (update_refs who _ _ _ _ s) as [[u | e |] s']; [done | | done].
  etrans; [exact Hu | apply drop_keeps].
Qed.

Lemma mutate_account_keeps {X} `{Droppable State X} `{!DropKeeps X} who
    (f : AccountData -> M State (X * AccountData)) :
  (forall a, keeps same_clock (f a)) -> keeps same_clock (mutate_account who f).
Proof. intros Hf. by apply try_mutate_account_keeps. Qed.

(** ** Transfers and locks *)

Lemma write_balance_keeps who n : keeps same_clock (bal_write_balance who n).
Proof.
  unfold bal_write_balance. keeps_auto. apply mutate_account_keeps. intros. keeps_auto.
Qed.

Lemma drop_credit_clock x s : same_clock s (bal_drop_credit x s).
Proof. unfold bal_drop_credit. by case_match. Qed.

#[local] Hint Resolve write_balance_keeps drop_credit_clock : clock.

Lemma handle_maybe_dust_keeps o : keeps same_clock (handle_maybe_dust o).
Proof. destruct o; simpl; [intros s; apply drop_credit_clock | keeps_auto]. Qed.

#[local] Hint Resolve handle_maybe_dust_keeps : clock.

Lemma decrease_balance_keeps who n pr p f : keeps same_clock (decrease_balance who n pr p f).
Proof. unfold decrease_balance. simpl write_balance. keeps_auto. Qed.

Lemma increase_balance_keeps who n pr : keeps same_clock (increase_balance who n pr).
Proof. unfold increase_balance. simpl write_balance. keeps_auto. Qed.

#[local] Hint Resolve decrease_balance_keeps increase_balance_keeps : clock.

Lemma transfer_keeps source dest n p : keeps same_clock (transfer source dest n p).
Proof.
  unfold transfer, withdraw_into_result, deposit_into_result. keeps_auto. apply same_clock_deposit.
Qed.

Lemma cur_transfer_keeps source dest n er : keeps same_clock (cur_transfer source dest n er).
Proof. unfold cur_transfer. pose proof (transfer_keeps source dest n). keeps_auto. Qed.

Lemma update_locks_keeps who ls : keeps same_clock (update_locks who ls).
Proof.
  unfold update_locks. keeps_auto; try done. apply mutate_account_keeps. intros. keeps_auto.
Qed.

Lemma set_lock_keeps id who n r : keeps same_clock (cur_set_lock id who n r).
Proof. unfold cur_set_lock, cur_remove_lock. pose proof (update_locks_keeps who). keeps_auto. Qed.

Lemma remove_lock_keeps id who : keeps same_clock (cur_remove_lock id who).
Proof. unfold cur_remove_lock. pose proof (update_locks_keeps who). keeps_auto. Qed.

(** ** Reserves *)

#[local] Hint Resolve same_clock_deposit : clock.

Lemma rust_sub_keeps a b : keeps same_clock (rust_sub a b).
Proof. unfold rust_sub. keeps_auto. Qed.

#[local] Hint Resolve rust_sub_keeps : clock.

Lemma handle_raw_maybe_dust_keeps o : keeps same_clock (handle_raw_maybe_dust o).
Proof. destruct o; simpl; [intros s; apply drop_credit_clock | keeps_auto]. Qed.

#[local] Hint Resolve handle_raw_maybe_dust_keeps : clock.

Lemma reserve_keeps_clock who n : keeps same_clock (cur_reserve who n).
Proof.
  unfold cur_reserve, try_mutate_account_handling_dust, cur_ensure_can_withdraw. keeps_auto.
  apply try_mutate_account_keeps. intros. keeps_auto.
Qed.

Lemma unreserve_keeps who n : keeps same_clock (cur_unreserve who n).
Proof.
  unfold cur_unreserve, mutate_account_handling_dust. keeps_auto. apply mutate_account_keeps. intros. keeps_auto.
Qed.

#[local] Hint Resolve reserve_keeps_clock unreserve_keeps : clock.

Lemma repatriate_reserved_keeps slashed beneficiary n status :
  keeps same_clock (cur_repatriate_reserved slashed beneficiary n status).
Proof.
  unfold cur_repatriate_reserved, do_transfer_reserved. keeps_auto.
  apply try_mutate_account_keeps. intros. keeps_auto. apply try_mutate_account_keeps. intros. keeps_auto.
Qed.

#[local] Hint Resolve repatriate_reserved_keeps : clock.

Lemma reserve_named_keeps id who n : keeps same_clock (cur_reserve_named id who n).
Proof. unfold cur_reserve_named, try_insert_reserve. keeps_auto; done. Qed.

Lemma unreserve_named_keeps id who n : keeps same_clock (cur_unreserve_named id who n).
Proof. unfold cur_unreserve_named, map_mutate_exists. keeps_auto; done. Qed.

#[local] Hint Resolve unreserve_named_keeps : clock.

Lemma repatriate_named_keeps id slashed beneficiary n status :
  keeps same_clock (cur_repatriate_reserved_named id slashed beneficiary n status).
Proof.
  unfold cur_repatriate_reserved_named, repatriate_to_named, try_insert_reserve. keeps_auto; done.
Qed.
End clock.
