(* ===== verification/CurrencyTraits.v ===== *)
(** * The currency traits

    [src/substrate/frame/support/src/traits/tokens/currency.rs], [currency/reservable.rs],
    [currency/lockable.rs], [imbalance/on_unbalanced.rs] and [imbalance/split_two_ways.rs]: the required methods as
    type classes, the provided methods as definitions over them, and the pallet as an instance. *)

From stdpp Require Import base tactics numbers list gmap.
From S2P Require Import Prelude Dispatch System Tokens Fungible Balances BalancesFungible BalancesCurrency.
Local Open Scope Z_scope.

(** ** [Currency] *)

Class Currency (S : Type) := {
  c_total_balance : AccountId -> S -> Z;
  c_can_slash : AccountId -> Z -> S -> bool;
  c_total_issuance : S -> Z;
  c_minimum_balance : Z;
  c_burn : Z -> M S PositiveImbalance;
  c_issue : Z -> M S NegativeImbalance;
  c_free_balance : AccountId -> S -> Z;
  c_ensure_can_withdraw : AccountId -> Z -> Z -> Z -> M S unit;
  c_transfer : AccountId -> AccountId -> Z -> ExistenceRequirement -> M S unit;
  c_slash : AccountId -> Z -> M S (NegativeImbalance * Z);
  c_deposit_into_existing : AccountId -> Z -> M S PositiveImbalance;
  c_deposit_creating : AccountId -> Z -> M S PositiveImbalance;
  c_withdraw : AccountId -> Z -> Z -> ExistenceRequirement -> M S NegativeImbalance;
  c_make_free_balance_be : AccountId -> Z -> M S SignedImbalance;
  #[global] c_drop_positive :: Droppable S PositiveImbalance;
  #[global] c_drop_negative :: Droppable S NegativeImbalance;
}.

(** Dropping the result of [offset]. *)
#[export] Instance drop_offset S A B `{Droppable S A} `{Droppable S B} : Droppable S (SameOrOther A B) :=
  fun x s =>
  match x with
  | SONone => s
  | SOSame a => drop_value a s
  | SOOther b => drop_value b s
  end.

Section currency.
Context {S : Type} `{Currency S}.

Definition c_pair (amount : Z) : M S (PositiveImbalance * NegativeImbalance) :=
  p <- c_burn amount ;;
  n <- c_issue amount ;;
  ret (p, n).

Definition c_resolve_into_existing (who : AccountId) (value : NegativeImbalance) :
    M S (unit + NegativeImbalance) :=
  let v := imb_peek value in
  r <- try (c_deposit_into_existing who v) ;;
  match r with
  | inl opposite =>
      do modify (drop_value (offset value opposite)) ;;
      ret (inl tt)
  | inr _ => ret (inr value)
  end.

Definition c_resolve_creating (who : AccountId) (value : NegativeImbalance) : M S unit :=
  let v := imb_peek value in
  opposite <- c_deposit_creating who v ;;
  modify (drop_value (offset value opposite)).

Definition c_settle (who : AccountId) (value : PositiveImbalance) (reasons : Z)
    (liveness : ExistenceRequirement) : M S (unit + PositiveImbalance) :=
  let v := imb_peek value in
  r <- try (c_withdraw who v reasons liveness) ;;
  match r with
  | inl opposite =>
      do modify (drop_value (offset value opposite)) ;;
      ret (inl tt)
  | inr _ => ret (inr value)
  end.
End currency.

(** ** [ReservableCurrency] and [NamedReservableCurrency] *)

Class ReservableCurrency (S : Type) := {
  rc_can_reserve : AccountId -> Z -> M S bool;
  rc_slash_reserved : AccountId -> Z -> M S (NegativeImbalance * Z);
  rc_reserved_balance : AccountId -> S -> Z;
  rc_reserve : AccountId -> Z -> M S unit;
  rc_unreserve : AccountId -> Z -> M S Z;
  rc_repatriate_reserved : AccountId -> AccountId -> Z -> BalanceStatus -> M S Z;
}.

Class NamedReservableCurrency (S : Type) := {
  nr_slash_reserved_named : N -> AccountId -> Z -> M S (NegativeImbalance * Z);
  nr_reserved_balance_named : N -> AccountId -> S -> Z;
  nr_reserve_named : N -> AccountId -> Z -> M S unit;
  nr_unreserve_named : N -> AccountId -> Z -> M S Z;
  nr_repatriate_reserved_named : N -> AccountId -> AccountId -> Z -> BalanceStatus -> M S Z;
}.

Section named.
Context {S : Type} `{NamedReservableCurrency S}.

Definition ensure_reserved_named (id : N) (who : AccountId) (value : Z) : M S unit :=
  current <- gets (nr_reserved_balance_named id who) ;;
  if value <? current then
    d <- rust_sub current value ;;
    do nr_unreserve_named id who d ;;
    ret tt
  else if current <? value then
    d <- rust_sub value current ;;
    nr_reserve_named id who d
  else ret tt.

Definition unreserve_all_named (id : N) (who : AccountId) : M S Z :=
  value <- gets (nr_reserved_balance_named id who) ;;
  do nr_unreserve_named id who value ;;
  ret value.

Definition slash_all_reserved_named (id : N) (who : AccountId) : M S NegativeImbalance :=
  value <- gets (nr_reserved_balance_named id who) ;;
  '(imbalance, _) <- nr_slash_reserved_named id who value ;;
  ret imbalance.

Definition repatriate_all_reserved_named (id : N) (slashed beneficiary : AccountId)
    (status : BalanceStatus) : M S unit :=
  value <- gets (nr_reserved_balance_named id slashed) ;;
  do nr_repatriate_reserved_named id slashed beneficiary value status ;;
  ret tt.

(** [WithName]: the anonymous operations as the named ones with a fixed [Id]. *)
Definition WithName `{!ReservableCurrency S} (id : N) : ReservableCurrency S := {|
  rc_can_reserve := rc_can_reserve;
  rc_slash_reserved := nr_slash_reserved_named id;
  rc_reserved_balance := nr_reserved_balance_named id;
  rc_reserve := nr_reserve_named id;
  rc_unreserve := nr_unreserve_named id;
  rc_repatriate_reserved := nr_repatriate_reserved_named id;
|}.
End named.

(** ** [LockableCurrency] *)

Class LockableCurrency (S : Type) := {
  lc_set_lock : N -> AccountId -> Z -> Z -> M S unit;
  lc_extend_lock : N -> AccountId -> Z -> Z -> M S unit;
  lc_remove_lock : N -> AccountId -> M S unit;
}.

(** ** The pallet *)

#[export] Instance balances_Currency `{Config} : Currency State := {|
  c_total_balance := bal_total_balance;
  c_can_slash := cur_can_slash;
  c_total_issuance := TotalIssuance;
  c_minimum_balance := ed;
  c_burn := cur_burn;
  c_issue := cur_issue;
  c_free_balance := free_balance;
  c_ensure_can_withdraw := cur_ensure_can_withdraw;
  c_transfer := cur_transfer;
  c_slash := cur_slash;
  c_deposit_into_existing := cur_deposit_into_existing;
  c_deposit_creating := cur_deposit_creating;
  c_withdraw := cur_withdraw;
  c_make_free_balance_be := cur_make_free_balance_be;
|}.

#[export] Instance balances_ReservableCurrency `{Config} : ReservableCurrency State := {|
  rc_can_reserve := cur_can_reserve;
  rc_slash_reserved := cur_slash_reserved;
  rc_reserved_balance := reserved_balance;
  rc_reserve := cur_reserve;
  rc_unreserve := cur_unreserve;
  rc_repatriate_reserved := cur_repatriate_reserved;
|}.

#[export] Instance balances_NamedReservableCurrency `{Config} : NamedReservableCurrency State := {|
  nr_slash_reserved_named := cur_slash_reserved_named;
  nr_reserved_balance_named := cur_reserved_balance_named;
  nr_reserve_named := cur_reserve_named;
  nr_unreserve_named := cur_unreserve_named;
  nr_repatriate_reserved_named := cur_repatriate_reserved_named;
|}.

#[export] Instance balances_LockableCurrency `{Config} : LockableCurrency State := {|
  lc_set_lock := cur_set_lock;
  lc_extend_lock := cur_extend_lock;
  lc_remove_lock := cur_remove_lock;
|}.

(** ** [OnUnbalanced] *)

(** The hook a handler may override; the other two methods are provided. *)
Class OnUnbalanced (S I : Type) := on_nonzero_unbalanced : I -> M S unit.

(** [()] drops the imbalance. *)
Definition on_unbalanced_unit {S I} `{Droppable S I} : OnUnbalanced S I :=
  fun amount => modify (drop_value amount).

Section on_unbalanced.
Context `{BalanceType} {S I O : Type} `{Imbalance I O} `{Droppable S I} `{!OnUnbalanced S I}.

(** [try_drop] is [drop_zero] for every imbalance of the code. *)
Definition on_unbalanced (amount : I) : M S unit :=
  match drop_zero amount with
  | None => ret tt
  | Some amount => on_nonzero_unbalanced amount
  end.

(** [try_merge] always merges. *)
Definition try_merge (i other : I) : I + I * I := inl (merge i other).

Fixpoint sum_unbalanceds (sum : option I) (amounts : list I) : M S (option I) :=
  match amounts with
  | [] => ret sum
  | next :: amounts =>
      sum <- match sum with
             | Some sum =>
                 match try_merge sum next with
                 | inl sum => ret (Some sum)
                 | inr (sum, next) => do on_unbalanced next ;; ret (Some sum)
                 end
             | None => ret (Some next)
             end ;;
      sum_unbalanceds sum amounts
  end.

Definition on_unbalanceds (amounts : list I) : M S unit :=
  sum <- sum_unbalanceds None amounts ;;
  match sum with
  | Some sum => on_unbalanced sum
  | None => ret tt
  end.
End on_unbalanced.

(** [SplitTwoWays]: the two parts go to two handlers. *)
Definition split_two_ways `{BalanceType} {S I O} `{Imbalance I O} `{Droppable S I}
    (target1 target2 : OnUnbalanced S I) (part1 part2 : Z) : OnUnbalanced S I := fun amount =>
  let total := part1 + part2 in
  do rust_assert (total <=? u32_max) ;;
  do rust_assert (negb (total =? 0)) ;;
  let amount1 := Z.min max_value (imb_peek amount * part1) / total in
  let '(imb1, imb2) := split amount amount1 in
  do on_unbalanced (OnUnbalanced0 := target1) imb1 ;;
  on_unbalanced (OnUnbalanced0 := target2) imb2.

(** [ResolveTo]: a credit goes to an account, or is dropped when it cannot. *)
Definition resolve_to `{Config} (who : AccountId) : OnUnbalanced State Credit := fun credit =>
  r <- resolve who credit ;;
  match r with
  | inl _ => ret tt
  | inr c => modify (drop_value c)
  end.
