(* ===== verification/Vesting.v ===== *)
(** * The vesting pallet

    [src/substrate/frame/vesting/src/lib.rs] and [vesting_info.rs]: schedules that unlock linearly,
    kept per account in a bounded vector, and the lock that the pallet maintains through
    [LockableCurrency].  The pallet is a client of the currency traits: its storage contains
    the storage [C] of the currency. *)

From stdpp Require Import base tactics numbers list gmap.
From S2P Require Import Prelude Dispatch System Tokens Fungible Balances BalancesFungible BalancesCurrency.
From S2P Require Import BalancesCalls CurrencyTraits.
Local Open Scope Z_scope.

(** ** [VestingInfo] *)

Record VestingInfo := { locked : Z; raw_per_block : Z; starting_block : Z }.

#[export] Instance VestingInfo_eq_dec : EqDecision VestingInfo.
Proof. solve_decision. Defined.

Definition is_valid (v : VestingInfo) : bool := negb (locked v =? 0) && negb (raw_per_block v =? 0).

Definition per_block (v : VestingInfo) : Z := Z.max (raw_per_block v) 1.

Section info.
Context `{BalanceType}.

(** [BlockNumberToBalance] is [ConvertInto]: a block number is the balance of the same value. *)
Definition convert (n : Z) : Z := n.

Definition checked_mul (a b : Z) : option Z := if a * b <=? max_value then Some (a * b) else None.

Definition locked_at (v : VestingInfo) (n : Z) : Z :=
  let vested_block_count := saturating_sub n (starting_block v) in
  let vested_block_count := convert vested_block_count in
  match checked_mul vested_block_count (per_block v) with
  | Some to_unlock => saturating_sub (locked v) to_unlock
  | None => 0
  end.

Definition ending_block_as_balance (v : VestingInfo) : Z :=
  let starting_block := convert (starting_block v) in
  let duration :=
    if locked v <=? per_block v then 1
    else locked v / per_block v + (if locked v mod per_block v =? 0 then 0 else 1) in
  saturating_add starting_block duration.
End info.

(** ** Actions *)

Inductive VestingAction :=
  | Passive
  | Remove (index : nat)
  | Merge (index1 index2 : nat).

Definition should_remove (a : VestingAction) (index : nat) : bool :=
  match a with
  | Passive => false
  | Remove index1 => (index1 =? index)%nat
  | Merge index1 index2 => (index1 =? index)%nat || (index2 =? index)%nat
  end.

Fixpoint pick_from (a : VestingAction) (index : nat) (schedules : list VestingInfo) : list VestingInfo :=
  match schedules with
  | [] => []
  | schedule :: schedules =>
      if should_remove a index then pick_from a (S index) schedules
      else schedule :: pick_from a (S index) schedules
  end.

Definition pick_schedules (a : VestingAction) (schedules : list VestingInfo) : list VestingInfo :=
  pick_from a 0 schedules.

(** ** Configuration and storage *)

(** What the runtime of the pallet offers: the currency, the block number and the event log. *)
Class VestingHost (C : Type) := {
  vh_currency :: Currency C;
  vh_lockable :: LockableCurrency C;
  current_block_number : C -> Z;
  vh_deposit_event : VestingEvent -> C -> C;
}.

Class VestingConfig := {
  vesting_balance_type :: BalanceType;
  MinVestedTransfer : Z;
  UnvestedFundsAllowedWithdrawReasons : Z;
  MAX_VESTING_SCHEDULES : nat;
  VestingPalletIndex : Z;
}.

Inductive Releases := V0 | V1.

Record VState (C : Type) := {
  vs_currency : C;
  VestingSchedules : gmap AccountId (list VestingInfo);
  StorageVersion : Releases;
}.
Arguments vs_currency {C} _.
Arguments VestingSchedules {C} _.
Arguments StorageVersion {C} _.
Arguments Build_VState {C} _ _ _.

Inductive VestingError :=
  | NotVesting | AtMaxVestingSchedules | AmountLow | ScheduleIndexOutOfBounds | InvalidScheduleParams.

Definition VestingError_index (e : VestingError) : Z :=
  match e with
  | NotVesting => 0
  | AtMaxVestingSchedules => 1
  | AmountLow => 2
  | ScheduleIndexOutOfBounds => 3
  | InvalidScheduleParams => 4
  end.

(** [*b"vesting "] *)
Definition VESTING_ID : N := 0x76657374696e6720.

Section vesting.
Context `{VestingConfig} {C : Type} `{VestingHost C}.
Abbreviation VState := (VState C).

Definition VError (e : VestingError) : DispatchError := ModuleError VestingPalletIndex (VestingError_index e).

Definition VestingL : Lens VState (gmap AccountId (list VestingInfo)) := {|
  lget := VestingSchedules;
  lset m s := Build_VState (vs_currency s) m (StorageVersion s);
|}.

(** Code of the currency, run on its part of the storage. *)
Definition in_currency {A} (m : M C A) : M VState A := fun s =>
  let '(r, c) := m (vs_currency s) in (r, Build_VState c (VestingSchedules s) (StorageVersion s)).

Definition deposit_vesting (e : VestingEvent) : M VState unit :=
  in_currency (modify (vh_deposit_event e)).

Definition block_number (s : VState) : Z := current_block_number (vs_currency s).

Definition vesting (who : AccountId) (s : VState) : option (list VestingInfo) := VestingSchedules s !! who.

Definition lock_reasons_of : Z := wr_except UnvestedFundsAllowedWithdrawReasons.

(** ** The schedules of an account *)

Definition merge_vesting_info (now : Z) (schedule1 schedule2 : VestingInfo) : option VestingInfo :=
  let schedule1_ending_block := ending_block_as_balance schedule1 in
  let schedule2_ending_block := ending_block_as_balance schedule2 in
  let now_as_balance := convert now in
  match schedule1_ending_block <=? now_as_balance, schedule2_ending_block <=? now_as_balance with
  | true, true => None
  | true, false => Some schedule2
  | false, true => Some schedule1
  | false, false =>
      let locked := saturating_add (locked_at schedule1 now) (locked_at schedule2 now) in
      let ending_block := Z.max schedule1_ending_block schedule2_ending_block in
      let starting_block := Z.max (Z.max now (starting_block schedule1)) (starting_block schedule2) in
      let per_block :=
        let duration := Z.max (saturating_sub ending_block (convert starting_block)) 1 in
        Z.max (locked / duration) 1 in
      Some {| locked := locked; raw_per_block := per_block; starting_block := starting_block |}
  end.

(** The filter adds up what it keeps. *)
Fixpoint filter_locked (now : Z) (total_locked_now : Z) (schedules : list VestingInfo) :
    list VestingInfo * Z :=
  match schedules with
  | [] => ([], total_locked_now)
  | schedule :: schedules =>
      let locked_now := locked_at schedule now in
      if locked_now =? 0 then filter_locked now total_locked_now schedules
      else
        let '(kept, total) := filter_locked now (saturating_add total_locked_now locked_now) schedules in
        (schedule :: kept, total)
  end.

Definition report_schedule_updates (schedules : list VestingInfo) (action : VestingAction) (s : VState) :
    list VestingInfo * Z :=
  filter_locked (block_number s) 0 (pick_schedules action schedules).

Definition exec_action (schedules : list VestingInfo) (action : VestingAction) :
    M VState (list VestingInfo * Z) :=
  match action with
  | Merge idx1 idx2 =>
      schedule1 <- ok_or (schedules !! idx1) (VError ScheduleIndexOutOfBounds) ;;
      schedule2 <- ok_or (schedules !! idx2) (VError ScheduleIndexOutOfBounds) ;;
      '(schedules, locked_now) <- gets (report_schedule_updates schedules action) ;;
      now <- gets block_number ;;
      ret match merge_vesting_info now schedule1 schedule2 with
          | Some new_schedule =>
              let new_schedule_locked := locked_at new_schedule now in
              (schedules ++ [new_schedule], saturating_add locked_now new_schedule_locked)
          | None => (schedules, locked_now)
          end
  | _ => gets (report_schedule_updates schedules action)
  end.

Definition write_lock (who : AccountId) (total_locked_now : Z) : M VState unit :=
  if total_locked_now =? 0 then
    do in_currency (lc_remove_lock VESTING_ID who) ;;
    deposit_vesting (VestingCompleted who)
  else
    do in_currency (lc_set_lock VESTING_ID who total_locked_now lock_reasons_of) ;;
    deposit_vesting (VestingUpdated who total_locked_now).

Definition write_vesting (who : AccountId) (schedules : list VestingInfo) : M VState unit :=
  do ensure (length schedules <=? MAX_VESTING_SCHEDULES)%nat (VError AtMaxVestingSchedules) ;;
  if (length schedules =? 0)%nat then storage_remove VestingL who
  else storage_insert VestingL who schedules.

Definition do_vest (who : AccountId) : M VState unit :=
  schedules <- gets (vesting who) ;;
  schedules <- ok_or schedules (VError NotVesting) ;;
  '(schedules, locked_now) <- exec_action schedules Passive ;;
  do write_vesting who schedules ;;
  write_lock who locked_now.

(** ** [VestingSchedule] *)

Definition vesting_balance (who : AccountId) (s : VState) : option Z :=
  match vesting who s with
  | Some v =>
      let total_locked_now :=
        fold_left (fun total schedule => saturating_add (locked_at schedule (block_number s)) total) v 0 in
      Some (Z.min (c_free_balance who (vs_currency s)) total_locked_now)
  | None => None
  end.

Definition add_vesting_schedule (who : AccountId) (locked per_block starting_block : Z) : M VState unit :=
  if locked =? 0 then ret tt else
  let vesting_schedule :=
    {| locked := locked; raw_per_block := per_block; starting_block := starting_block |} in
  if negb (is_valid vesting_schedule) then fail (VError InvalidScheduleParams) else
  schedules <- gets (fun s => default [] (vesting who s)) ;;
  do ensure (length schedules <? MAX_VESTING_SCHEDULES)%nat (VError AtMaxVestingSchedules) ;;
  let schedules := schedules ++ [vesting_schedule] in
  let schedule_index := Z.of_nat (length schedules - 1) in
  do deposit_vesting (VestingCreated who (schedule_index mod 2 ^ 32)) ;;
  '(schedules, locked_now) <- exec_action schedules Passive ;;
  do write_vesting who schedules ;;
  write_lock who locked_now.

Definition schedules_count (who : AccountId) (s : VState) : nat := length (default [] (vesting who s)).

Definition can_add_vesting_schedule (who : AccountId) (locked per_block starting_block : Z) : M VState unit :=
  if negb (is_valid {| locked := locked; raw_per_block := per_block; starting_block := starting_block |})
  then fail (VError InvalidScheduleParams) else
  count <- gets (schedules_count who) ;;
  ensure (Z.of_nat count mod 2 ^ 32 <? Z.of_nat MAX_VESTING_SCHEDULES) (VError AtMaxVestingSchedules).

Definition remove_vesting_schedule (who : AccountId) (schedule_index : nat) : M VState unit :=
  schedules <- gets (vesting who) ;;
  schedules <- ok_or schedules (VError NotVesting) ;;
  '(schedules, locked_now) <- exec_action schedules (Remove schedule_index) ;;
  do write_vesting who schedules ;;
  write_lock who locked_now.

(** The result of adding the schedule is not looked at. *)
Definition do_vested_transfer (source target : AccountId) (schedule : VestingInfo) : M VState unit :=
  do ensure (MinVestedTransfer <=? locked schedule) (VError AmountLow) ;;
  if negb (is_valid schedule) then fail (VError InvalidScheduleParams) else
  do can_add_vesting_schedule target (locked schedule) (per_block schedule) (starting_block schedule) ;;
  do in_currency (c_transfer source target (locked schedule) AllowDeath) ;;
  do try (add_vesting_schedule target (locked schedule) (per_block schedule) (starting_block schedule)) ;;
  ret tt.

(** [VestedTransfer::vested_transfer] *)
Definition vested_transfer_for (source target : AccountId) (locked per_block starting_block : Z) :
    M VState unit :=
  with_storage_layer (do_vested_transfer source target
    {| locked := locked; raw_per_block := per_block; starting_block := starting_block |}).

(** ** Calls *)

Definition vest (origin : RawOrigin) : M VState unit :=
  with_storage_layer (who <- ensure_signed origin ;; do_vest who).

Definition vest_other (origin : RawOrigin) (target : MultiAddress) : M VState unit :=
  with_storage_layer (
    do ensure_signed origin ;;
    who <- lookup_address target ;;
    do_vest who).

Definition vested_transfer (origin : RawOrigin) (target : MultiAddress) (schedule : VestingInfo) :
    M VState unit :=
  with_storage_layer (
    transactor <- ensure_signed origin ;;
    target <- lookup_address target ;;
    do_vested_transfer transactor target schedule).

Definition force_vested_transfer (origin : RawOrigin) (source target : MultiAddress)
    (schedule : VestingInfo) : M VState unit :=
  with_storage_layer (
    do ensure_root origin ;;
    target <- lookup_address target ;;
    source <- lookup_address source ;;
    do_vested_transfer source target schedule).

Definition merge_schedules (origin : RawOrigin) (schedule1_index schedule2_index : nat) : M VState unit :=
  with_storage_layer (
    who <- ensure_signed origin ;;
    if (schedule1_index =? schedule2_index)%nat then ret tt else
    schedules <- gets (vesting who) ;;
    schedules <- ok_or schedules (VError NotVesting) ;;
    '(schedules, locked_now) <- exec_action schedules (Merge schedule1_index schedule2_index) ;;
    do write_vesting who schedules ;;
    write_lock who locked_now).

Definition force_remove_vesting_schedule (origin : RawOrigin) (target : MultiAddress)
    (schedule_index : nat) : M VState unit :=
  with_storage_layer (
    do ensure_root origin ;;
    who <- lookup_address target ;;
    count <- gets (schedules_count who) ;;
    do ensure (Z.of_nat schedule_index <? Z.of_nat count mod 2 ^ 32) (VError InvalidScheduleParams) ;;
    remove_vesting_schedule who schedule_index).

(** ** Genesis *)

Definition vesting_genesis_step (e : AccountId * Z * Z * Z) : M VState unit :=
  let '(who, begin, length_, liquid) := e in
  balance <- gets (fun s => c_free_balance who (vs_currency s)) ;;
  do rust_assert (negb (balance =? 0)) ;;
  let locked := saturating_sub balance liquid in
  let length_as_balance := convert length_ in
  let per_block := locked / Z.max length_as_balance 1 in
  let vesting_info := {| locked := locked; raw_per_block := per_block; starting_block := begin |} in
  do rust_assert (is_valid vesting_info) ;;
  schedules <- gets (fun s => default [] (vesting who s)) ;;
  do rust_assert (length schedules <? MAX_VESTING_SCHEDULES)%nat ;;
  do storage_insert VestingL who (schedules ++ [vesting_info]) ;;
  in_currency (lc_set_lock VESTING_ID who locked lock_reasons_of).

Definition vesting_genesis_build (l : list (AccountId * Z * Z * Z)) : M VState unit :=
  do modify (fun s => Build_VState (vs_currency s) (VestingSchedules s) V1) ;;
  for_each l vesting_genesis_step.
End vesting.

(** ** On the balances pallet *)

#[export] Instance balances_VestingHost `{Config} : VestingHost State := {|
  current_block_number s := Number (sys s);
  vh_deposit_event e s := set_sys (deposit_event (VestingEv e) (sys s)) s;
|}.
