(* ===== verification/AccountSpec.v ===== *)
(** * The account-local specification of the balances pallet

    [try_mutate_account] touches one entry of the account map.  This file gives
    the same computation on that entry alone ([M Entry]), proves that the storage
    code refines it ([sim]), and proves what the entry-level computation does to a
    well-formed account: which error it returns, what it leaves in the entry, and
    that it never panics. *)

From stdpp Require Import base tactics numbers list gmap.
From S2P Require Import Prelude Dispatch System Tokens Fungible Balances.
Local Open Scope Z_scope.

Abbreviation Entry := (option (AccountInfo AccountData)).

(** ** Storage apart from the account map *)

Definition accts (s : State) : gmap AccountId (AccountInfo AccountData) := Account (st_sys s).

Record same_storage (s s' : State) : Prop := {
  same_issuance : TotalIssuance s' = TotalIssuance s;
  same_inactive : InactiveIssuance s' = InactiveIssuance s;
  same_locks : Locks s' = Locks s;
  same_reserves : Reserves s' = Reserves s;
  same_holds : Holds s' = Holds s;
  same_freezes : Freezes s' = Freezes s;
}.

#[export] Instance same_storage_equiv : Equivalence same_storage.
Proof.
  split.
  - by intros s.
  - intros s s' []. by split.
  - intros s1 s2 s3 [] []. split; by etrans.
Qed.

(** ** One entry of the map *)

Definition put_entry (who : AccountId) (e : Entry) (m : gmap AccountId (AccountInfo AccountData)) :
    gmap AccountId (AccountInfo AccountData) :=
  partial_alter (fun _ => e) who m.

Lemma put_entry_eq who e m : put_entry who e m !! who = e.
Proof. apply lookup_partial_alter_eq. Qed.

Lemma put_entry_ne who w e m : w <> who -> put_entry who e m !! w = m !! w.
Proof. intros. by apply lookup_partial_alter_ne. Qed.

Lemma put_entry_twice who e e' m : put_entry who e' (put_entry who e m) = put_entry who e' m.
Proof.
  apply map_eq. intros w. destruct (decide (w = who)) as [-> |].
  - by rewrite !put_entry_eq.
  - by rewrite !put_entry_ne.
Qed.

Lemma put_entry_same who m : put_entry who (m !! who) m = m.
Proof.
  apply map_eq. intros w. destruct (decide (w = who)) as [-> |].
  - by rewrite put_entry_eq.
  - by rewrite put_entry_ne.
Qed.

(** [upd who e s s']: [s'] is [s] with the entry of [who] set to [e], up to events. *)
Record upd (who : AccountId) (e : Entry) (s s' : State) : Prop := {
  upd_storage : same_storage s s';
  upd_accts : accts s' = put_entry who e (accts s);
}.

Lemma upd_lookup who e s s' : upd who e s s' -> accts s' !! who = e.
Proof. intros [_ ->]. apply put_entry_eq. Qed.

Lemma upd_lookup_ne who w e s s' : upd who e s s' -> w <> who -> accts s' !! w = accts s !! w.
Proof. intros [_ ->]. apply put_entry_ne. Qed.

Lemma upd_trans who e e' s1 s2 s3 : upd who e s1 s2 -> upd who e' s2 s3 -> upd who e' s1 s3.
Proof.
  intros [H1 E1] [H2 E2]. split; [by etrans |]. by rewrite E2, E1, put_entry_twice.
Qed.

Lemma upd_refl who s : upd who (accts s !! who) s s.
Proof. split; [done |]. by rewrite put_entry_same. Qed.

Lemma upd_deposit who e s s' ev : upd who e s s' -> upd who e s (deposit ev s').
Proof.
  intros [[] E]. unfold deposit, sys, set_sys; simpl. unfold deposit_event.
  repeat case_match; by repeat split.
Qed.

Lemma accts_deposit ev s : accts (deposit ev s) = accts s.
Proof. unfold deposit, accts; simpl. unfold deposit_event. by repeat case_match. Qed.

Lemma same_storage_deposit ev s : same_storage s (deposit ev s).
Proof. by split. Qed.

#[export] Hint Resolve upd_refl upd_deposit same_storage_deposit : frame.

(** ** Refinement of storage code by entry code *)

Definition refines {A} (who : AccountId) (s : State) (o : Res A * State) (oe : Res A * Entry) : Prop :=
  fst o = fst oe /\ upd who (snd oe) s (snd o).

(** From every state whose other storage is that of [s0]. *)
Definition sim (s0 : State) (who : AccountId) {A} (m : M State A) (me : M Entry A) : Prop :=
  forall s, same_storage s0 s -> refines who s (m s) (me (accts s !! who)).

Section sim.
Context (s0 : State) (who : AccountId).

Lemma sim_ret {A} (a : A) : sim s0 who (ret a) (ret a).
Proof. intros s _. split; simpl; auto with frame. Qed.

Lemma sim_fail {A} e : sim s0 who (A := A) (fail e) (fail e).
Proof. intros s _. split; simpl; auto with frame. Qed.

Lemma sim_bind {A B} (m : M State A) me (f : A -> M State B) fe :
  sim s0 who m me -> (forall a, sim s0 who (f a) (fe a)) -> sim s0 who (bind m f) (bind me fe).
Proof.
  intros Hm Hf s Hs. destruct (Hm s Hs) as [Hr Hu]. unfold bind.
  destruct (m s) as [r s'], (me (accts s !! who)) as [re e']; simpl in *; subst re.
  destruct r as [a | e |]; [| by split | by split].
  pose proof (upd_lookup _ _ _ _ Hu) as He.
  destruct (Hf a s') as [Hr' Hu']; [by etrans; [| apply Hu] |].
  rewrite He in Hr', Hu'. split; [done |]. by eapply upd_trans.
Qed.

Lemma sim_when (c : bool) m me : sim s0 who m me -> sim s0 who (when c m) (when c me).
Proof. destruct c; [done |]. intros _. apply sim_ret. Qed.

Lemma sim_if {A} (c : bool) (m1 m2 : M State A) me1 me2 :
  sim s0 who m1 me1 -> sim s0 who m2 me2 ->
  sim s0 who (if c then m1 else m2) (if c then me1 else me2).
Proof. by destruct c. Qed.

Lemma sim_try {A} (m : M State A) me : sim s0 who m me -> sim s0 who (try m) (try me).
Proof.
  intros Hm s Hs. destruct (Hm s Hs) as [Hr Hu]. unfold try.
  destruct (m s) as [[a | e |] s'], (me (accts s !! who)) as [[a' | e' |] e'']; simplify_eq/=; by split.
Qed.

Lemma sim_gets {A} (f : State -> A) (fe : Entry -> A) :
  (forall s, same_storage s0 s -> f s = fe (accts s !! who)) -> sim s0 who (gets f) (gets fe).
Proof. intros Hf s Hs. split; simpl; [by rewrite Hf | apply upd_refl]. Qed.

Lemma sim_deposit ev : sim s0 who (modify (deposit ev)) (ret tt).
Proof. intros s _. split; simpl; auto with frame. Qed.

Lemma sim_deposit_then {A} ev (m : M State A) me :
  sim s0 who m me -> sim s0 who (do modify (deposit ev) ;; m) me.
Proof. intros Hm. by apply (sim_bind _ (ret tt) _ (fun _ => me)); [apply sim_deposit |]. Qed.
End sim.

#[export] Hint Resolve sim_ret sim_fail sim_bind sim_when sim_try sim_deposit sim_if : frame.

(** ** The system's counters on one entry *)

Section entry.
Context `{Config}.

Definition edefault : AccountInfo AccountData := AccountInfo_default.
Definition einfo (e : Entry) : AccountInfo AccountData := default edefault e.
Definition edata (e : Entry) : AccountData := ai_data (einfo e).

Definition e_inc_providers : M Entry IncRefStatus := fun e =>
  (Ok (if (ai_providers (einfo e) =? 0) && (ai_sufficients (einfo e) =? 0) then Created else Existed),
   Some (set_providers (einfo e) (u32_saturating_add (ai_providers (einfo e)) 1))).

Definition e_inc_consumers (limited : bool) : M Entry unit := fun e =>
  let a := einfo e in
  if 0 <? ai_providers a then
    if negb limited || (ai_consumers a <? MaxConsumers) then
      (Ok tt, Some (set_consumers a (u32_saturating_add (ai_consumers a) 1)))
    else (Err TooManyConsumers, e)
  else (Err NoProviders, e).

Definition e_dec_consumers : M Entry unit := fun e =>
  let a := einfo e in
  (Ok tt, Some (if 0 <? ai_consumers a then set_consumers a (ai_consumers a - 1) else a)).

Definition e_dec_providers : M Entry DecRefStatus := fun e =>
  match e with
  | Some a =>
      let a := if ai_providers a =? 0 then set_providers a 1 else a in
      if (ai_providers a =? 1) && (ai_consumers a =? 0) && (ai_sufficients a =? 0) then
        (Ok Reaped, None)
      else if (ai_providers a =? 1) && (0 <? ai_consumers a) then (Err ConsumerRemaining, e)
      else (Ok Exists, Some (set_providers a (ai_providers a - 1)))
  | None => (Ok Reaped, None)
  end.

(** [AccountStore::try_mutate_exists] after the closure. *)
Definition e_write (d : option AccountData) : M Entry unit := fun e =>
  let a := einfo e in
  if (0 <? ai_providers a) || (0 <? ai_sufficients a) then
    (Ok tt, Some (set_data a (default AccountData_default d)))
  else (Ok tt, None).

Definition e_some_data (e : Entry) : option AccountData :=
  if bool_decide (edata e = AccountData_default) then None else Some (edata e).

Definition e_ensure_upgraded : M Entry bool :=
  a <- gets edata ;;
  if is_new_logic (flags a) then ret false else
  let a := with_flags a (set_new_logic (flags a)) in
  a <- (if negb (reserved a =? 0) && (frozen a =? 0) then
          p <- gets (fun e => ai_providers (einfo e)) ;;
          a <- (if p =? 0 then do e_inc_providers ;; ret (with_free a (Z.max (free a) ed))
                else ret a) ;;
          do try (e_inc_consumers false) ;;
          ret a
        else ret a) ;;
  do try (e_write (Some a)) ;;
  ret true.

Definition e_update_refs (did_provide did_consume does_provide does_consume : bool) :
    M Entry unit :=
  do when (negb did_provide && does_provide) (do e_inc_providers ;; ret tt) ;;
  do when (did_consume && negb does_consume) e_dec_consumers ;;
  do when (negb did_consume && does_consume) (e_inc_consumers true) ;;
  c <- gets (fun e => ai_consumers (einfo e)) ;;
  do when (does_consume && (c =? 0)) (e_inc_consumers true) ;;
  when (did_provide && negb does_provide)
    (r <- try e_dec_providers ;;
     match r with
     | inl _ => ret tt
     | inr e =>
         do when (did_consume && negb does_consume) (do try (e_inc_consumers true) ;; ret tt) ;;
         do when (negb did_consume && does_consume) e_dec_consumers ;;
         fail e
     end).

(** What becomes of the data, and the dust. *)
Definition settled (a : AccountData) : AccountData :=
  if (free a <? ed) && (reserved a =? 0) then AccountData_default else a.

Definition dust_of (a : AccountData) : option Z :=
  if (free a <? ed) && (reserved a =? 0) && negb (free a =? 0) then Some (free a) else None.

Definition e_settle (a : AccountData) : M Entry (option AccountData * option Z) :=
  if (free a <? ed) && (reserved a =? 0) then
    ret (None, if free a =? 0 then None else Some (free a))
  else
    do rust_assert ((free a =? 0) || (ed <=? free a) || negb (reserved a =? 0)) ;;
    ret (Some a, None).

(** Everything [try_mutate_account] does after the closure has turned [a] into [a']. *)
Definition e_commit (a a' : AccountData) : M Entry (option Z) :=
  do e_update_refs (provides a) (consumes a) (provides a') (consumes a') ;;
  '(d, dust) <- e_settle a' ;;
  do e_write d ;;
  ret dust.
End entry.

(** ** The storage code refines the entry code *)

Section refinement.
Context `{Config} (s0 : State) (who : AccountId).

Lemma account_get_einfo s : account_get who (sys s) = einfo (accts s !! who).
Proof. done. Qed.

Lemma account_edata s : account who s = edata (accts s !! who).
Proof. done. Qed.

(** A system operation that only rewrites the entry of [who]. *)
Lemma sim_lift_sys {A} (m : M (Sys AccountData RuntimeEvent) A) (me : M Entry A) :
  (forall y, fst (m y) = fst (me (Account y !! who)) /\
     Account (snd (m y)) = put_entry who (snd (me (Account y !! who))) (Account y)) ->
  sim s0 who (lift_sys m) me.
Proof.
  intros Hm s Hs. destruct (Hm (st_sys s)) as [Hr Ha]. unfold lift_sys, sys, set_sys; simpl.
  unfold refines. change (Account (st_sys s)) with (accts s) in Hr, Ha.
  destruct (m (st_sys s)) as [r y']; simpl in *. by repeat split.
Qed.

Lemma Account_deposit_event (ev : RuntimeEvent) (y : Sys AccountData RuntimeEvent) :
  Account (deposit_event ev y) = Account y.
Proof. unfold deposit_event. by repeat case_match. Qed.

Lemma sim_inc_providers : sim s0 who (lift_sys (inc_providers who)) e_inc_providers.
Proof.
  apply sim_lift_sys. intros y. unfold inc_providers, map_mutate, map_try_mutate, e_inc_providers.
  simpl. change (default AccountInfo_default (Account y !! who)) with (einfo (Account y !! who)).
  destruct (_ && _) eqn:E; simpl; [| done]. split; [done |].
  unfold on_created_account. rewrite Account_deposit_event. bool_to_prop.
  unfold u32_saturating_add, u32_max. by replace (ai_providers _) with 0 by lia.
Qed.

Lemma sim_dec_providers : sim s0 who (lift_sys (dec_providers who)) e_dec_providers.
Proof.
  apply sim_lift_sys. intros y. unfold dec_providers, map_try_mutate_exists, e_dec_providers. simpl.
  destruct (Account y !! who) as [a |] eqn:Ha; simpl.
  - destruct (_ && _ && _); simpl.
    { unfold on_killed_account. by rewrite Account_deposit_event. }
    destruct (_ && _); simpl; [| done].
    split; [done |]. rewrite <- Ha. by rewrite put_entry_same.
  - done.
Qed.

Lemma sim_inc_consumers : sim s0 who (lift_sys (inc_consumers who)) (e_inc_consumers true).
Proof.
  apply sim_lift_sys. intros y. unfold inc_consumers, map_try_mutate, e_inc_consumers. simpl.
  change (default AccountInfo_default (Account y !! who)) with (einfo (Account y !! who)).
  destruct (0 <? _); [destruct (_ <? _) |]; simpl; rewrite ?put_entry_same; done.
Qed.

Lemma sim_inc_consumers_without_limit :
  sim s0 who (lift_sys (inc_consumers_without_limit who)) (e_inc_consumers false).
Proof.
  apply sim_lift_sys. intros y.
  unfold inc_consumers_without_limit, map_try_mutate, e_inc_consumers. simpl.
  change (default AccountInfo_default (Account y !! who)) with (einfo (Account y !! who)).
  destruct (0 <? _); simpl; rewrite ?put_entry_same; done.
Qed.

Lemma sim_dec_consumers : sim s0 who (lift_sys (dec_consumers who)) e_dec_consumers.
Proof.
  apply sim_lift_sys. intros y. unfold dec_consumers, map_mutate, map_try_mutate, e_dec_consumers.
  simpl. change (default AccountInfo_default (Account y !! who)) with (einfo (Account y !! who)).
  by destruct (0 <? _).
Qed.

Lemma sim_update_refs dp dc dp' dc' :
  sim s0 who (update_refs who dp dc dp' dc') (e_update_refs dp dc dp' dc').
Proof.
  pose proof sim_inc_providers. pose proof sim_dec_providers.
  pose proof sim_inc_consumers. pose proof sim_dec_consumers.
  unfold update_refs, e_update_refs.
  repeat first
    [ apply sim_bind; intros | apply sim_when | apply sim_try | apply sim_ret | apply sim_fail
    | done | apply sim_gets; intros; done | case_match ].
Qed.

(** *** [StoredMap::try_mutate_exists] *)

Definition write_back (d : option AccountData) : M State unit :=
  keep <- gets (fun s => (0 <? providers who (sys s)) || (0 <? sufficients who (sys s))) ;;
  if keep : bool then
    lift_sys (map_mutate AccountL AccountInfo_default who (fun a =>
      ret (tt, set_data a (default data_default d))))
  else lift_sys (storage_remove AccountL who).

Lemma sim_write_back d : sim s0 who (write_back d) (e_write d).
Proof.
  intros s Hs. unfold write_back, e_write, bind, gets, providers, sufficients.
  rewrite account_get_einfo. destruct (_ || _); by repeat split.
Qed.

Lemma try_mutate_exists_run {R} (f : option AccountData -> M State (R * option AccountData)) s :
  try_mutate_exists who f s =
  bind (f (e_some_data (accts s !! who))) (fun '(r, d) => do write_back d ;; ret r) s.
Proof.
  unfold try_mutate_exists, bind, gets, write_back, ret.
  change (ai_data (account_get who (sys s))) with (edata (accts s !! who)).
  unfold e_some_data, bind, gets. simpl data_default.
  destruct (bool_decide _); destruct (f _ s) as [[[r d] | e |] s']; try done;
    by destruct (_ || _).
Qed.

Lemma sim_ensure_upgraded : sim s0 who (ensure_upgraded who) e_ensure_upgraded.
Proof.
  unfold ensure_upgraded, e_ensure_upgraded.
  apply sim_bind; [by apply sim_gets |]. intros a. apply sim_if; [apply sim_ret |].
  apply sim_bind.
  - apply sim_if; [| apply sim_ret].
    apply sim_bind; [by apply sim_gets |]. intros p.
    apply sim_bind.
    + apply sim_if; [| apply sim_ret].
      apply sim_bind; [apply sim_inc_providers | intros; apply sim_ret].
    + intros a'. apply sim_bind; [apply sim_try, sim_inc_consumers_without_limit |].
      intros; apply sim_ret.
  - intros a'. apply sim_bind.
    + apply sim_try. intros s Hs. rewrite try_mutate_exists_run.
      unfold bind, ret. pose proof (sim_write_back (Some a') s Hs) as Hw.
      destruct (write_back (Some a') s) as [[[] | e |] s']; exact Hw.
    + intros _. apply sim_deposit_then, sim_ret.
Qed.

(** *** [try_mutate_account] *)

Definition commit {R} `{Droppable State R} (is_new : bool) (a : AccountData) (r : R)
    (a' : AccountData) : M State (R * option Z) :=
  do or_drop r (update_refs who (provides a) (consumes a) (provides a') (consumes a')) ;;
  '(d, dust) <- settle_account a' ;;
  do write_back d ;;
  do when is_new (modify (deposit (Endowed who (free a')))) ;;
  do match dust with Some x => modify (deposit (DustLost who x)) | None => ret tt end ;;
  ret (r, dust).

Definition is_new_entry (e : Entry) : bool := bool_decide (edata e = AccountData_default).

Lemma e_some_data_default e : default AccountData_default (e_some_data e) = edata e.
Proof. unfold e_some_data. by case_bool_decide. Qed.

Lemma try_mutate_account_run {R} `{Droppable State R} f s :
  try_mutate_account (R := R) who f s =
  bind (ensure_upgraded who) (fun _ s1 =>
    let e := accts s1 !! who in
    bind (f (edata e) (is_new_entry e))
      (fun '(r, a') => commit (is_new_entry e) (edata e) r a') s1) s.
Proof.
  unfold try_mutate_account. apply bind_ext. intros b s1.
  unfold bind at 1. rewrite try_mutate_exists_run.
  unfold mutate_entry. rewrite e_some_data_default.
  assert (Hnew : match e_some_data (accts s1 !! who) with None => true | Some _ => false end
                 = is_new_entry (accts s1 !! who)).
  { unfold e_some_data, is_new_entry. by case_bool_decide. }
  rewrite Hnew.
  assert (Hc : negb (is_new_entry (accts s1 !! who)) && consumes (edata (accts s1 !! who))
               = consumes (edata (accts s1 !! who))).
  { unfold is_new_entry. case_bool_decide as Hd; [| done]. by rewrite Hd. }
  rewrite Hc. unfold commit. unfold bind, ret, when, modify.
  destruct (f _ _ s1) as [[[r a'] | e |] s2]; try done.
  destruct (or_drop _ _ s2) as [[[] | e |] s3]; try done.
  destruct (settle_account a' s3) as [[[d dust] | e |] s4]; try done.
  destruct (write_back d s4) as [[[] | e |] s5]; try done.
  destruct (is_new_entry _), dust; done.
Qed.

End refinement.

Section commit.
Context `{Config} (who : AccountId).

Lemma settle_cases a s e :
  (exists x, settle_account a s = (Ok x, s) /\ e_settle a e = (Ok x, e)) \/
  (settle_account a s = (Panic, s) /\ e_settle a e = (Panic, e)).
Proof.
  unfold settle_account, e_settle, rust_assert.
  destruct ((free a <? ed) && (reserved a =? 0)); [left; by eexists |].
  destruct (_ || _ || _); [left; by eexists | by right].
Qed.

Lemma commit_refines {R} `{Droppable State R} is_new a (r : R) a' s :
  match e_commit a a' (accts s !! who) with
  | (Ok dust, e') => exists s', commit who is_new a r a' s = (Ok (r, dust), s') /\ upd who e' s s'
  | (Err e, e') => exists s', commit who is_new a r a' s = (Err e, drop_value r s') /\ upd who e' s s'
  | (Panic, _) => True
  end.
Proof.
  pose proof (sim_update_refs s who (provides a) (consumes a) (provides a') (consumes a') s
                (reflexivity s)) as [Hr Hu].
  unfold e_commit, commit, or_drop, bind.
  destruct (update_refs _ _ _ _ _ s) as [ru s1], (e_update_refs _ _ _ _ _) as [rue e1];
    simpl in *; subst rue.
  destruct ru as [[] | e |]; [| by exists s1 | done].
  rewrite <- (upd_lookup _ _ _ _ Hu).
  destruct (settle_cases a' s1 (accts s1 !! who)) as [([d dust] & -> & ->) | [_ ->]]; [| done].
  destruct (sim_write_back s who d s1 (upd_storage _ _ _ _ Hu)) as [Hr' Hu'].
  destruct (write_back who d s1) as [rw s2]. unfold e_write in *.
  destruct (_ || _); simpl in *; subst rw;
    pose proof (upd_trans _ _ _ _ _ _ Hu Hu'); destruct is_new, dust;
    (eexists; split; [reflexivity | auto with frame]).
Qed.
End commit.
