(* ===== verification/AccountWf.v ===== *)
(** * Well-formed accounts

    The invariant of one system account that holds a balance, and the exact effect
    of the account-local computation of [AccountSpec] on an account that
    satisfies it. *)

From stdpp Require Import base tactics numbers list gmap.
From S2P Require Import Prelude Dispatch System Tokens Fungible Balances AccountSpec.
Local Open Scope Z_scope.

Lemma u32_saturating_succ x : 0 <= x <= u32_max -> 0 < u32_saturating_add x 1 <= u32_max.
Proof. unfold u32_saturating_add, u32_max. lia. Qed.

Section wf.
Context `{Config}.

Record data_bounded (d : AccountData) : Prop := {
  free_bounded : is_balance (free d);
  reserved_bounded : is_balance (reserved d);
  frozen_bounded : is_balance (frozen d);
}.

(** The balances for which the pallet holds a consumer reference; an account
    not yet upgraded holds one for its locks only. *)
Definition counted (d : AccountData) : Prop :=
  frozen d <> 0 \/ (reserved d <> 0 /\ is_new_logic (flags d) = true).

Record account_wf (i : AccountInfo AccountData) : Prop := {
  wf_bounded : data_bounded (ai_data i);
  wf_consumers : 0 <= ai_consumers i <= u32_max;
  wf_providers : 0 <= ai_providers i <= u32_max;
  wf_sufficients : 0 <= ai_sufficients i;
  (** consumers need a provider *)
  wf_consumer_provider : 0 < ai_consumers i -> 0 < ai_providers i;
  (** a free balance of the existential deposit provides *)
  wf_provider : ed <= free (ai_data i) -> 0 < ai_providers i;
  (** reserved or frozen balance consumes *)
  wf_consumer : counted (ai_data i) -> 0 < ai_consumers i;
  wf_reserved : reserved (ai_data i) <> 0 -> 0 < ai_providers i;
  (** no dust: below the existential deposit only next to a reserve *)
  wf_no_dust : free (ai_data i) = 0 \/ ed <= free (ai_data i) \/ reserved (ai_data i) <> 0;
}.

Definition entry_wf (e : Entry) : Prop := account_wf (einfo e).

Lemma ed_pos : 0 < ed <= max_value.
Proof. apply existential_deposit_pos. Qed.

Lemma data_default_bounded : data_bounded AccountData_default.
Proof. pose proof max_value_pos. split; simpl; unfold is_balance; lia. Qed.

Lemma entry_wf_None : entry_wf None.
Proof.
  pose proof ed_pos. split; simpl; unfold u32_max; try lia.
  - apply data_default_bounded.
  - intros [| []]; simpl in *; lia.
Qed.

Lemma is_new_logic_set f : is_new_logic (set_new_logic f) = true.
Proof.
  unfold is_new_logic, set_new_logic. apply Z.eqb_eq.
  rewrite Z.land_lor_distr_l, Z.land_diag. apply Z.bits_inj'. intros n _.
  rewrite Z.lor_spec, Z.land_spec. by destruct (Z.testbit f n), (Z.testbit IS_NEW_LOGIC n).
Qed.

Lemma counted_consumes d : is_new_logic (flags d) = true -> counted d <-> consumes d = true.
Proof.
  intros Hf. unfold counted, consumes. rewrite orb_true_iff, !negb_true_iff, !Z.eqb_neq. tauto.
Qed.

(** ** Upgrading *)

Definition balances_eq (d d' : AccountData) : Prop :=
  free d' = free d /\ reserved d' = reserved d /\ frozen d' = frozen d.

(** What [ensure_upgraded] makes of an entry. *)
Record upgraded (e e' : Entry) : Prop := {
  up_wf : entry_wf e';
  up_new : is_new_logic (flags (edata e')) = true;
  up_balances : balances_eq (edata e) (edata e');
  up_providers : ai_providers (einfo e') = ai_providers (einfo e);
  up_sufficients : ai_sufficients (einfo e') = ai_sufficients (einfo e);
  up_consumers : ai_consumers (einfo e) <= ai_consumers (einfo e');
  up_consumers_eq : reserved (edata e) = 0 -> ai_consumers (einfo e') = ai_consumers (einfo e);
  up_same : is_new_logic (flags (edata e)) = true -> e' = e;
}.

(** An account nobody provides for holds nothing. *)
Lemma unprovided_empty e :
  entry_wf e -> ai_providers (einfo e) = 0 -> balances_eq (edata e) AccountData_default /\
    ai_consumers (einfo e) = 0.
Proof.
  intros [_ Hc Hp Hs Hcp Hpr Hco Hre Hnd] Hz. change (ai_data (einfo e)) with (edata e) in *.
  assert (ai_consumers (einfo e) = 0) by lia.
  assert (frozen (edata e) = 0).
  { destruct (decide (frozen (edata e) = 0)); [done |]. assert (0 < ai_consumers (einfo e)); [| lia].
    apply Hco. by left. }
  unfold balances_eq; simpl. lia.
Qed.

Lemma e_ensure_upgraded_wf e :
  entry_wf e -> exists b e', e_ensure_upgraded e = (Ok b, e') /\ upgraded e e'.
Proof.
  intros Hwf. unfold e_ensure_upgraded, bind, gets, ret.
  destruct (is_new_logic (flags (edata e))) eqn:Hf.
  { exists false, e. by repeat (split; [done |]). }
  pose proof (unprovided_empty e Hwf) as Hz.
  destruct Hwf as [[Hf1 Hf2 Hf3] Hc Hp Hs Hcp Hpr Hco Hre Hnd].
  change (ai_data (einfo e)) with (edata e) in *.
  cbn [with_flags reserved frozen].
  destruct (negb (reserved (edata e) =? 0) && (frozen (edata e) =? 0)) eqn:Hr; bool_to_prop;
    cbn beta iota.
  - assert (0 < ai_providers (einfo e)) as Hp0 by auto.
    rewrite (proj2 (Z.eqb_neq (ai_providers (einfo e)) 0)) by lia.
    unfold e_inc_consumers, try. rewrite (proj2 (Z.ltb_lt _ _)) by done. simpl.
    unfold e_write. simpl. rewrite (proj2 (Z.ltb_lt _ _)) by done. simpl.
    eexists _, _. split; [done |]. pose proof (u32_saturating_succ _ Hc).
    split; try done; unfold entry_wf; simpl; [| apply is_new_logic_set | | congruence].
    + split; simpl; try done; lia.
    + unfold u32_saturating_add, u32_max in *. lia.
  - unfold try, e_write. simpl.
    destruct ((0 <? ai_providers (einfo e)) || (0 <? ai_sufficients (einfo e))) eqn:Hk; simpl.
    + eexists _, _. split; [done |].
      split; try done; unfold entry_wf; simpl; [| apply is_new_logic_set | congruence].
      split; simpl; try lia; try done.
      intros [Hy | [Hy _]]; apply Hco; simpl in Hy; [by left |].
      destruct Hr as [Hr | Hr]; bool_to_prop; [done | by left].
    + bool_to_prop. destruct Hz as [[Hz1 [Hz2 Hz3]] Hz4]; [lia |].
      eexists _, _. split; [done |]. split; simpl; try done; try lia; [apply entry_wf_None | congruence].
Qed.

(** ** Committing new data

    The counters, the error and the entry that a change of the data of [i] to
    [a'] leads to. *)

Definition commit_providers (i : AccountInfo AccountData) (a' : AccountData) : Z :=
  let p := ai_providers i in
  if negb (provides (ai_data i)) && provides a' then u32_saturating_add p 1
  else if provides (ai_data i) && negb (provides a') then p - 1
  else p.

Definition commit_consumers (i : AccountInfo AccountData) (a' : AccountData) : Z :=
  let c := ai_consumers i in
  if negb (consumes (ai_data i)) && consumes a' then u32_saturating_add c 1
  else if consumes (ai_data i) && negb (consumes a') then c - 1
  else c.

Definition commit_error (i : AccountInfo AccountData) (a' : AccountData) : option DispatchError :=
  let starts_consuming := negb (consumes (ai_data i)) && consumes a' in
  if starts_consuming && (ai_providers i =? 0) && negb (provides a') then Some NoProviders
  else if starts_consuming && (MaxConsumers <=? ai_consumers i) then Some TooManyConsumers
  else if provides (ai_data i) && negb (provides a') && (ai_providers i =? 1)
          && (0 <? commit_consumers i a') then Some ConsumerRemaining
  else None.

Definition commit_entry (i : AccountInfo AccountData) (a' : AccountData) : Entry :=
  let p := commit_providers i a' in
  if (0 <? p) || (0 <? ai_sufficients i) then
    Some (Build_AccountInfo (ai_nonce i) (commit_consumers i a') p (ai_sufficients i) (settled a'))
  else None.

Lemma provides_true d : provides d = true <-> ed <= free d.
Proof. unfold provides. apply Z.leb_le. Qed.

Ltac no_branch t :=
  lazymatch t with
  | context [if _ then _ else _] => fail
  | _ => idtac
  end.

(** Decide every comparison of the goal, innermost branches first. *)
Ltac compare_all :=
  repeat (simpl; match goal with
  | |- context [?a <? ?b] => no_branch a; no_branch b; destruct (Z.ltb_spec a b); try lia
  | |- context [?a <=? ?b] => no_branch a; no_branch b; destruct (Z.leb_spec a b); try lia
  | |- context [?a =? ?b] => no_branch a; no_branch b; destruct (Z.eqb_spec a b); try lia
  end); simpl.

Definition wf_refs (e : Entry) : Prop :=
  (provides (edata e) = true -> 0 < ai_providers (einfo e)) /\
  (consumes (edata e) = true -> 0 < ai_consumers (einfo e)) /\
  (0 < ai_consumers (einfo e) -> 0 < ai_providers (einfo e)) /\
  0 <= ai_consumers (einfo e) <= u32_max /\ 0 <= ai_providers (einfo e) <= u32_max /\
  0 <= ai_sufficients (einfo e).

Lemma entry_wf_refs e : entry_wf e -> is_new_logic (flags (edata e)) = true -> wf_refs e.
Proof.
  intros [] Hf. split_and!; try done; try lia.
  - by rewrite provides_true.
  - by rewrite <- counted_consumes.
Qed.

Lemma provides_default : provides (edata None) = false.
Proof. pose proof ed_pos. unfold provides. apply Z.leb_gt. simpl. lia. Qed.

Lemma consumes_default : consumes (edata None) = false.
Proof. done. Qed.

(** Run the counter updates of [e] on every combination of what the old and
    the new data provide and consume. *)
Ltac unfold_refs e a' :=
  intros (Hp & Hc & Hcp & Hcb & Hpb & Hs);
  pose proof (u32_saturating_succ _ Hcb); pose proof (u32_saturating_succ _ Hpb);
  unfold commit_error, commit_providers, commit_consumers, e_update_refs, bind, when, gets, ret, try,
    fail, e_inc_providers, e_inc_consumers, e_dec_consumers, e_dec_providers, e_write;
  change (ai_data (einfo e)) with (edata e);
  destruct e as [i |];
  [ change (einfo (Some i)) with i in *; destruct i as [n c p su da]; unfold edata in *; simpl in *;
    destruct (provides da), (consumes da), (provides a'), (consumes a'); simpl;
    try (specialize (Hp eq_refl)); try (specialize (Hc eq_refl))
  | rewrite provides_default, consumes_default; destruct (provides a'), (consumes a'); simpl ];
  compare_all; try done.

Lemma e_update_refs_ok e a' d :
  wf_refs e -> commit_error (einfo e) a' = None ->
  bind (e_update_refs (provides (edata e)) (consumes (edata e)) (provides a') (consumes a'))
    (fun _ => e_write d) e =
  (Ok tt, let i := einfo e in let p := commit_providers i a' in
          if (0 <? p) || (0 <? ai_sufficients i) then
            Some (Build_AccountInfo (ai_nonce i) (commit_consumers i a') p (ai_sufficients i)
                    (default AccountData_default d))
          else None).
Proof. unfold_refs e a'. Qed.

(** A failed update keeps the data and what the invariant needs of the counters. *)
Record failed_update (i i' : AccountInfo AccountData) : Prop := {
  failed_data : ai_data i' = ai_data i;
  failed_sufficients : ai_sufficients i' = ai_sufficients i;
  failed_nonce : ai_nonce i' = ai_nonce i;
  failed_providers : ai_providers i <= ai_providers i' <= u32_max;
  failed_consumers : 0 <= ai_consumers i' <= ai_consumers i;
  failed_consumers_pos : 0 < ai_consumers i -> 0 < ai_consumers i';
}.

Lemma e_update_refs_err e a' er :
  wf_refs e -> commit_error (einfo e) a' = Some er ->
  exists e',
    e_update_refs (provides (edata e)) (consumes (edata e)) (provides a') (consumes a') e
      = (Err er, e') /\
    failed_update (einfo e) (einfo e').
Proof.
  unfold_refs e a'; intros [= <-]; (eexists; split; [reflexivity |]);
    unfold u32_saturating_add, u32_max in *; split; simpl; unfold u32_max; try done; lia.
Qed.

Lemma failed_update_wf e e' : entry_wf e -> failed_update (einfo e) (einfo e') -> entry_wf e'.
Proof.
  intros [] [Hd ? ? ? ? ?]. split; rewrite ?Hd; try done; try lia; intros Hx.
  all: match goal with Hw : _ -> 0 < _ |- _ => specialize (Hw Hx); lia end.
Qed.

Lemma e_settle_ok a e : e_settle a e = (Ok (if (free a <? ed) && (reserved a =? 0) then None else Some a,
  dust_of a), e).
Proof.
  unfold e_settle, dust_of, rust_assert. compare_all; done.
Qed.

Lemma settled_default a :
  default AccountData_default (if (free a <? ed) && (reserved a =? 0) then None else Some a) = settled a.
Proof. unfold settled. by destruct (_ && _). Qed.

Lemma e_commit_ok e a' :
  wf_refs e -> commit_error (einfo e) a' = None ->
  e_commit (edata e) a' e = (Ok (dust_of a'), commit_entry (einfo e) a').
Proof.
  intros Hr He. set (d := if (free a' <? ed) && (reserved a' =? 0) then None else Some a').
  pose proof (e_update_refs_ok e a' d Hr He) as Hu.
  unfold e_commit. unfold bind in *. destruct (e_update_refs _ _ _ _ e) as [[[] | |] e1]; try done.
  rewrite e_settle_ok. fold d. rewrite Hu. unfold commit_entry, d. by rewrite settled_default.
Qed.

Lemma e_commit_err e a' er :
  wf_refs e -> commit_error (einfo e) a' = Some er ->
  exists e', e_commit (edata e) a' e = (Err er, e') /\ failed_update (einfo e) (einfo e').
Proof.
  intros Hr He. destruct (e_update_refs_err e a' er Hr He) as (e' & Hu & Hf).
  exists e'. unfold e_commit, bind. by rewrite Hu.
Qed.

Lemma commit_counts e a' :
  wf_refs e -> commit_error (einfo e) a' = None ->
  let c := commit_consumers (einfo e) a' in let p := commit_providers (einfo e) a' in
  0 <= c <= u32_max /\ 0 <= p <= u32_max /\ (0 < c -> 0 < p) /\
  (provides a' = true -> 0 < p) /\ (consumes a' = true -> 0 < c).
Proof.
  unfold_refs e a'; intros _; unfold u32_saturating_add, u32_max in *; split_and!; intros; lia.
Qed.

Lemma data_settled_bounded a : data_bounded a -> data_bounded (settled a).
Proof. unfold settled. intros. case_match; [apply data_default_bounded | done]. Qed.

Lemma commit_entry_spec e a' :
  wf_refs e -> data_bounded a' -> commit_error (einfo e) a' = None ->
  entry_wf (commit_entry (einfo e) a') /\ edata (commit_entry (einfo e) a') = settled a' /\
  ai_providers (einfo (commit_entry (einfo e) a')) = commit_providers (einfo e) a'.
Proof.
  intros Hr Hb He. destruct (commit_counts e a' Hr He) as (Hc & Hp & Hcp & Hpr & Hco).
  destruct Hr as (_ & _ & _ & _ & _ & Hs).
  assert (Hres : reserved a' <> 0 -> 0 < commit_consumers (einfo e) a').
  { intros. apply Hco. unfold consumes. by rewrite (proj2 (Z.eqb_neq _ _)). }
  assert (Hfro : frozen a' <> 0 -> 0 < commit_consumers (einfo e) a').
  { intros. apply Hco. unfold consumes. rewrite (proj2 (Z.eqb_neq (frozen a') 0)) by done. apply orb_true_r. }
  rewrite provides_true in Hpr. pose proof ed_pos.
  unfold commit_entry. destruct (_ || _) eqn:Hk; simpl; bool_to_prop.
  - split; [| done]. split; simpl; try done; try lia; unfold settled, counted.
    + by apply data_settled_bounded.
    + destruct (_ && _); simpl; [lia | done].
    + destruct (_ && _); simpl; [lia | tauto].
    + destruct (_ && _); simpl; [lia |]. auto.
    + destruct (_ && _) eqn:E; simpl; [lia |].
      apply andb_false_iff in E as [E | E]; bool_to_prop; tauto.
  - split; [apply entry_wf_None |]. split; [| simpl; lia].
    assert (reserved a' = 0) by (destruct (decide (reserved a' = 0)); [done | lia]).
    unfold settled. rewrite (proj2 (Z.ltb_lt _ _)), (proj2 (Z.eqb_eq _ _)); [done | done | lia].
Qed.
End wf.
