(* ===== verification/Ledger.v ===== *)
(** * The ledger: all accounts and the issuance

    The invariant of the whole storage, the sum of all balances, and the rules by
    which an account mutation is reasoned about: [wp_try_mutate_account] reduces
    a mutation to its closure, the error of [commit_error] and the entry of
    [commit_entry].  At the end is the sample chain that witnesses run on. *)

From stdpp Require Import base tactics numbers list gmap.
From S2P Require Import Prelude Dispatch System Tokens Fungible Balances BalancesFungible BalancesCurrency BalancesCalls AccountSpec AccountWf.
Local Open Scope Z_scope.

Section ledger.
Context `{Config}.

(** ** Invariant and supply *)

Definition wf (s : State) : Prop := forall who, entry_wf (accts s !! who).

(** Free and reserved balance, without saturation. *)
Definition holdings (d : AccountData) : Z := free d + reserved d.

Definition supply (s : State) : Z := map_sum (fun i => holdings (ai_data i)) (accts s).

(** Issuance that is on no account. *)
Definition gap (s : State) : Z := TotalIssuance s - supply s.

Record ledger_ok (s : State) : Prop := {
  lo_wf : wf s;
  lo_gap : 0 <= gap s;
  lo_max : TotalIssuance s <= max_value;
}.

Lemma wf_account s who : wf s -> data_bounded (account who s).
Proof. intros Hw. apply (Hw who). Qed.

Lemma holdings_nonneg d : data_bounded d -> 0 <= holdings d.
Proof. intros [[] [] _]. unfold holdings. lia. Qed.

Lemma map_weight_holdings s who :
  map_weight (fun i => holdings (ai_data i)) (accts s) who = holdings (account who s).
Proof.
  unfold map_weight. rewrite account_edata. unfold edata, einfo. by destruct (accts s !! who).
Qed.

Lemma wf_holdings_nonneg s : wf s -> forall k v, accts s !! k = Some v -> 0 <= holdings (ai_data v).
Proof.
  intros Hw k v Hk. apply holdings_nonneg. pose proof (wf_account s k Hw) as Hb.
  by rewrite account_edata, Hk in Hb.
Qed.

Lemma holdings_le_supply s who : wf s -> holdings (account who s) <= supply s.
Proof.
  intros Hw. rewrite <- map_weight_holdings. by apply map_sum_weight_le, wf_holdings_nonneg.
Qed.

Lemma holdings2_le_supply s w1 w2 :
  wf s -> w1 <> w2 -> holdings (account w1 s) + holdings (account w2 s) <= supply s.
Proof.
  intros Hw Hne. rewrite <- !map_weight_holdings.
  apply map_sum_weight2_le; [by apply wf_holdings_nonneg | done].
Qed.

Lemma supply_nonneg s : wf s -> 0 <= supply s.
Proof. intros Hw. by apply map_sum_nonneg, wf_holdings_nonneg. Qed.

Lemma supply_upd who e s s' :
  upd who e s s' -> supply s' = supply s - holdings (account who s) + holdings (edata e).
Proof.
  intros Hu. unfold supply. rewrite (map_sum_update _ (accts s) (accts s') who).
  - rewrite !map_weight_holdings, !account_edata. by rewrite (upd_lookup _ _ _ _ Hu).
  - intros j Hj. by apply (upd_lookup_ne _ _ _ _ _ Hu).
Qed.

Lemma supply_same s s' : accts s' = accts s -> supply s' = supply s.
Proof. unfold supply. by intros ->. Qed.

(** ** States that differ in events only *)

Record quiet (s s' : State) : Prop := {
  quiet_storage : same_storage s s';
  quiet_accts : accts s' = accts s;
}.

#[global] Instance quiet_preorder : PreOrder quiet.
Proof.
  split; [by split |]. intros s1 s2 s3 [? E1] [? E2]. split; [by etrans | by rewrite E2].
Qed.

Lemma quiet_deposit ev s : quiet s (Balances.deposit ev s).
Proof. split; [apply same_storage_deposit | apply accts_deposit]. Qed.

Lemma upd_quiet_r who e s1 s2 s3 : upd who e s1 s2 -> quiet s2 s3 -> upd who e s1 s3.
Proof. intros [? E1] [? E2]. split; [by etrans | by rewrite E2]. Qed.

Lemma quiet_upd who s s' : quiet s s' -> upd who (accts s !! who) s s'.
Proof. intros [? E]. split; [done |]. by rewrite E, put_entry_same. Qed.

Lemma wf_upd who e s s' : wf s -> entry_wf e -> upd who e s s' -> wf s'.
Proof.
  intros Hw He Hu w. destruct (decide (w = who)) as [-> |].
  - by rewrite (upd_lookup _ _ _ _ Hu).
  - by rewrite (upd_lookup_ne _ _ _ _ _ Hu).
Qed.

Lemma account_upd who e s s' : upd who e s s' -> account who s' = edata e.
Proof. intros Hu. by rewrite account_edata, (upd_lookup _ _ _ _ Hu). Qed.

Lemma account_upd_ne who w e s s' : upd who e s s' -> w <> who -> account w s' = account w s.
Proof. intros Hu Hne. by rewrite !account_edata, (upd_lookup_ne _ _ _ _ _ Hu). Qed.

(** ** The account mutation *)

Lemma ensure_upgraded_upd who s :
  wf s -> exists b e1 s1, ensure_upgraded who s = (Ok b, s1) /\ upd who e1 s s1 /\
    upgraded (accts s !! who) e1.
Proof.
  intros Hw. destruct (e_ensure_upgraded_wf _ (Hw who)) as (b & e1 & He & Hup).
  destruct (sim_ensure_upgraded s who s (reflexivity s)) as [Hr Hu].
  destruct (ensure_upgraded who s) as [r s1]. rewrite He in Hr, Hu. simpl in *. subst r. eauto 10.
Qed.

Lemma upgraded_refs e e1 : upgraded e e1 -> wf_refs e1.
Proof. intros []. by apply entry_wf_refs. Qed.

(** What may be assumed of the outcome of a mutation whose closure, given the
    upgraded entry [e1], returned [x] and the new data [a']. *)
Definition commits {R} `{Droppable State R} (who : AccountId) (s : State) (e1 : Entry) (x : R)
    (a' : AccountData) (Q : Res (R * option Z) -> State -> Prop) : Prop :=
  match commit_error (einfo e1) a' with
  | None => forall s', upd who (commit_entry (einfo e1) a') s s' -> wf s' ->
              account who s' = settled a' -> Q (Ok (x, dust_of a')) s'
  | Some er => forall e' s', failed_update (einfo e1) (einfo e') -> upd who e' s s' -> wf s' ->
                 balances_eq (account who s) (account who s') -> Q (Err er) (drop_value x s')
  end.

Lemma commits_mono {R} `{Droppable State R} who s e1 (x : R) a' (Q Q' : Res (R * option Z) -> State -> Prop) :
  commits who s e1 x a' Q -> (forall r s', Q r s' -> Q' r s') -> commits who s e1 x a' Q'.
Proof. unfold commits. intros Hc HQ. destruct (commit_error _ _); eauto. Qed.

Lemma wp_commit {R} `{Droppable State R} who n s e1 s2 (x : R) a' Q :
  wf s -> upgraded (accts s !! who) e1 -> upd who e1 s s2 -> data_bounded a' ->
  commits who s e1 x a' Q -> wp (commit who n (edata e1) x a') s2 Q.
Proof.
  intros Hw Hup Hu Hb Hc. unfold commits in Hc. pose proof (upgraded_refs _ _ Hup) as Hrefs.
  pose proof (commit_refines who n (edata e1) x a' s2) as Hr.
  rewrite (upd_lookup _ _ _ _ Hu) in Hr. unfold wp.
  destruct (commit_error (einfo e1) a') as [er |] eqn:Her.
  - destruct (e_commit_err _ _ _ Hrefs Her) as (e' & He & Hf). rewrite He in Hr.
    destruct Hr as (s' & -> & Hu'). simpl. pose proof (upd_trans _ _ _ _ _ _ Hu Hu') as Hut.
    apply (Hc e'); [done | done | |].
    + apply (wf_upd who e' s s' Hw); [| done]. eapply failed_update_wf; [apply Hup | done].
    + rewrite (account_upd _ _ _ _ Hut), account_edata. unfold edata.
      rewrite (failed_data _ _ Hf). apply Hup.
  - rewrite (e_commit_ok _ _ Hrefs Her) in Hr. destruct Hr as (s' & -> & Hu'). simpl.
    pose proof (upd_trans _ _ _ _ _ _ Hu Hu') as Hut.
    destruct (commit_entry_spec _ _ Hrefs Hb Her) as (Hwf' & Hd & _).
    apply Hc; [done | by eapply wf_upd | by rewrite (account_upd _ _ _ _ Hut)].
Qed.

(** The rule for a mutation whose closure only reads storage and emits events. *)
Lemma wp_try_mutate_account {R} `{Droppable State R} who f s Q :
  wf s ->
  (forall e1 s1, upgraded (accts s !! who) e1 -> upd who e1 s s1 ->
     wp (f (edata e1) (is_new_entry e1)) s1 (fun r s2 =>
       match r with
       | Ok (x, a') => quiet s1 s2 /\ data_bounded a' /\ commits who s e1 x a' Q
       | Err er => Q (Err er) s2
       | Panic => Q Panic s2
       end)) ->
  wp (try_mutate_account (R := R) who f) s Q.
Proof.
  intros Hw Hf. destruct (ensure_upgraded_upd who s Hw) as (b & e1 & s1 & Hrun & Hu & Hup).
  specialize (Hf e1 s1 Hup Hu). unfold wp in *. rewrite try_mutate_account_run.
  unfold bind. rewrite Hrun. cbn zeta. rewrite (upd_lookup _ _ _ _ Hu).
  destruct (f (edata e1) (is_new_entry e1) s1) as [[[x a'] | er |] s2]; simpl in *; try done.
  destruct Hf as (Hq & Hb & Hc). eapply (wp_commit who _ s e1 s2); eauto using upd_quiet_r.
Qed.

Lemma upgraded_refl e : entry_wf e -> is_new_logic (flags (edata e)) = true -> upgraded e e.
Proof. intros Hw Hf. by repeat (split; [done |]). Qed.

(** The rule for a closure that itself changes other accounts. *)
Lemma wp_try_mutate_account_nested {R} `{Droppable State R} who f s Q :
  wf s ->
  (forall e1 s1, upgraded (accts s !! who) e1 -> upd who e1 s s1 ->
     wp (f (edata e1) (is_new_entry e1)) s1 (fun r s2 =>
       match r with
       | Ok (x, a') => wf s2 /\ accts s2 !! who = e1 /\ data_bounded a' /\ commits who s2 e1 x a' Q
       | Err er => Q (Err er) s2
       | Panic => Q Panic s2
       end)) ->
  wp (try_mutate_account (R := R) who f) s Q.
Proof.
  intros Hw Hf. destruct (ensure_upgraded_upd who s Hw) as (b & e1 & s1 & Hrun & Hu & Hup).
  specialize (Hf e1 s1 Hup Hu). unfold wp in *. rewrite try_mutate_account_run.
  unfold bind. rewrite Hrun. cbn zeta. rewrite (upd_lookup _ _ _ _ Hu).
  destruct (f (edata e1) (is_new_entry e1) s1) as [[[x a'] | er |] s2]; simpl in *; try done.
  destruct Hf as (Hw2 & He1 & Hb & Hc). apply (wp_commit who _ s2 e1 s2); try done.
  - rewrite He1. apply upgraded_refl; apply Hup.
  - rewrite <- He1. apply upd_refl.
Qed.

(** ** Dust *)

Definition dust_amount (a : AccountData) : Z := default 0 (dust_of a).

Lemma dust_amount_bounds a : data_bounded a -> 0 <= dust_amount a <= free a /\ dust_amount a < ed.
Proof.
  intros [[] _ _]. pose proof ed_pos. unfold dust_amount, dust_of.
  destruct (_ && _ && _) eqn:E; simpl; bool_to_prop; lia.
Qed.

Lemma holdings_settled a :
  data_bounded a -> holdings (settled a) = holdings a - dust_amount a.
Proof.
  intros [[] [] _]. unfold settled, holdings, dust_amount, dust_of.
  destruct (free a <? ed), (reserved a =? 0) eqn:E1, (free a =? 0) eqn:E2; simpl; bool_to_prop; lia.
Qed.

(** ** One account changed, whatever the issuance *)

Record same_lists (s s' : State) : Prop := {
  sl_inactive : InactiveIssuance s' = InactiveIssuance s;
  sl_locks : Locks s' = Locks s;
  sl_reserves : Reserves s' = Reserves s;
  sl_holds : Holds s' = Holds s;
  sl_freezes : Freezes s' = Freezes s;
}.

#[global] Instance same_lists_equiv : Equivalence same_lists.
Proof.
  split.
  - by intros s.
  - intros s s' []. by split.
  - intros s1 s2 s3 [] []. split; by etrans.
Qed.

Lemma same_storage_lists s s' : same_storage s s' -> same_lists s s'.
Proof. intros []. by split. Qed.

Lemma same_lists_deposit ev s : same_lists s (Balances.deposit ev s).
Proof. by split. Qed.

Lemma TotalIssuance_deposit ev s : TotalIssuance (Balances.deposit ev s) = TotalIssuance s.
Proof. done. Qed.

(** A step of the ledger at account [who] that moves the gap by [g]. *)
Record acct_step (who : AccountId) (g : Z) (s s' : State) : Prop := {
  as_wf : wf s';
  as_others : forall w, w <> who -> accts s' !! w = accts s !! w;
  as_lists : same_lists s s';
  as_gap : gap s' = gap s + g;
}.

Lemma acct_step_account who g s s' w :
  acct_step who g s s' -> w <> who -> account w s' = account w s.
Proof. intros Hs Hw. rewrite !account_edata. by rewrite (as_others _ _ _ _ Hs). Qed.

Lemma acct_step_refl who s : wf s -> acct_step who 0 s s.
Proof. intros. split; try done. lia. Qed.

Lemma acct_step_trans who g g' s1 s2 s3 :
  acct_step who g s1 s2 -> acct_step who g' s2 s3 -> acct_step who (g + g') s1 s3.
Proof.
  intros [Hw1 Ho1 Hl1 Hg1] [Hw2 Ho2 Hl2 Hg2]. split; [done | | by etrans | lia].
  intros w Hw. by rewrite Ho2, Ho1.
Qed.

Lemma gap_quiet s s' : accts s' = accts s -> TotalIssuance s' = TotalIssuance s -> gap s' = gap s.
Proof. unfold gap. intros HA ->. by rewrite (supply_same _ _ HA). Qed.

Lemma wf_accts s s' : accts s' = accts s -> wf s -> wf s'.
Proof. intros HA Hw w. by rewrite HA. Qed.

Lemma acct_step_deposit who g s s' ev : acct_step who g s s' -> acct_step who g s (Balances.deposit ev s').
Proof.
  intros [Hw Ho Hl Hg]. pose proof (accts_deposit ev s') as HA. split.
  - by eapply wf_accts.
  - intros w Hne. by rewrite HA, Ho.
  - by etrans; [| apply same_lists_deposit].
  - by rewrite (gap_quiet s' _ HA).
Qed.

Lemma acct_step_upd who e s s' :
  upd who e s s' -> wf s' ->
  acct_step who (holdings (account who s) - holdings (account who s')) s s'.
Proof.
  intros Hu Hw. split; [done | | |].
  - intros w Hne. by apply (upd_lookup_ne _ _ _ _ _ Hu).
  - apply same_storage_lists, Hu.
  - unfold gap. rewrite (supply_upd _ _ _ _ Hu), (account_upd _ _ _ _ Hu).
    rewrite (same_issuance _ _ (upd_storage _ _ _ _ Hu)). lia.
Qed.

(** Setting the issuance. *)
Lemma acct_step_issuance who n s : wf s ->
  acct_step who (n - TotalIssuance s) s (set_TotalIssuance n s).
Proof.
  intros Hw. split; try done. unfold gap, supply, accts; simpl. lia.
Qed.

Lemma account_deposit w ev s : account w (Balances.deposit ev s) = account w s.
Proof. by rewrite !account_edata, accts_deposit. Qed.

(** ** Mutations that hand over the dust *)

Lemma drop_credit_step who x s :
  wf s -> 0 <= x <= TotalIssuance s -> acct_step who (- x) s (bal_drop_credit x s).
Proof.
  intros Hw Hx. unfold bal_drop_credit. destruct (x =? 0) eqn:E; bool_to_prop.
  - subst x. by apply acct_step_refl.
  - replace (- x) with (saturating_sub (TotalIssuance s) x - TotalIssuance s)
      by (unfold saturating_sub; lia).
    by apply acct_step_issuance.
Qed.

Lemma drop_credit_frame x s :
  0 <= x <= TotalIssuance s ->
  accts (bal_drop_credit x s) = accts s /\ TotalIssuance (bal_drop_credit x s) = TotalIssuance s - x.
Proof.
  intros Hx. unfold bal_drop_credit. destruct (x =? 0) eqn:E; bool_to_prop; [split; [done | lia] |].
  split; [done |]. simpl. unfold saturating_sub. lia.
Qed.

Lemma handle_raw_maybe_dust_run a s :
  data_bounded a -> handle_raw_maybe_dust (dust_of a) s = (Ok tt, bal_drop_credit (dust_amount a) s).
Proof.
  intros Hb. pose proof (dust_amount_bounds a Hb) as [_ Hd]. unfold dust_amount in *.
  destruct (dust_of a) as [x |]; simpl in *; [| done].
  unfold handle_raw_dust, modify; simpl. unfold bal_handle_dust, saturating_sub. change ExistentialDeposit with ed.
  by rewrite Z.min_l by lia.
Qed.

Lemma handle_maybe_dust_run a s :
  handle_maybe_dust (dust_of a) s = (Ok tt, bal_drop_credit (dust_amount a) s).
Proof. unfold dust_amount. by destruct (dust_of a). Qed.

(** What may be assumed of such a mutation: the gap moves by what the closure
    took from the account. *)
Definition settles {R} `{Droppable State R} (who : AccountId) (s : State) (e1 : Entry) (x : R)
    (a' : AccountData) (Q : Res R -> State -> Prop) : Prop :=
  match commit_error (einfo e1) a' with
  | None => forall s', acct_step who (holdings (account who s) - holdings a') s s' ->
              accts s' !! who = commit_entry (einfo e1) a' -> account who s' = settled a' ->
              TotalIssuance s' = TotalIssuance s - dust_amount a' -> Q (Ok x) s'
  | Some er => forall s', acct_step who 0 s s' -> balances_eq (account who s) (account who s') ->
                 TotalIssuance s' = TotalIssuance s -> Q (Err er) (drop_value x s')
  end.

Lemma settles_commits {R} `{Droppable State R} who s e1 (x : R) a' Q :
  data_bounded a' -> dust_amount a' <= TotalIssuance s ->
  settles who s e1 x a' Q ->
  commits who s e1 x a' (fun r s' =>
    match r with
    | Ok (x, _) => Q (Ok x) (bal_drop_credit (dust_amount a') s')
    | Err er => Q (Err er) s'
    | Panic => Q Panic s'
    end).
Proof.
  intros Hb Hti. unfold settles, commits. pose proof (dust_amount_bounds _ Hb) as [[Hd _] _].
  destruct (commit_error _ _) as [er |]; intros Hs.
  - intros e' s' _ Hu Hw [Hf [Hr Hz]]. apply Hs; [| done | apply Hu].
    replace 0 with (holdings (account who s) - holdings (account who s'))
      by (unfold holdings; lia).
    by eapply acct_step_upd.
  - intros s' Hu Hw Ha. pose proof (same_issuance _ _ (upd_storage _ _ _ _ Hu)) as Hi.
    destruct (drop_credit_frame (dust_amount a') s') as [HA HT]; [lia |].
    apply Hs.
    + replace (_ - _) with ((holdings (account who s) - holdings (account who s')) + - dust_amount a').
      * eapply acct_step_trans; [by eapply acct_step_upd |]. apply drop_credit_step; [done | lia].
      * rewrite Ha, holdings_settled by done. lia.
    + by rewrite HA, (upd_lookup _ _ _ _ Hu).
    + by rewrite account_edata, HA, <- account_edata.
    + lia.
Qed.

Lemma wp_handling_dust {R} `{Droppable State R} who f s Q :
  wf s ->
  (forall e1 s1, upgraded (accts s !! who) e1 -> upd who e1 s s1 ->
     wp (f (edata e1) (is_new_entry e1)) s1 (fun r s2 =>
       match r with
       | Ok (x, a') => quiet s1 s2 /\ data_bounded a' /\ dust_amount a' <= TotalIssuance s /\
                       settles who s e1 x a' Q
       | Err er => Q (Err er) s2
       | Panic => Q Panic s2
       end)) ->
  wp (try_mutate_account_handling_dust (R := R) who f) s Q.
Proof.
  intros Hw Hf. unfold try_mutate_account_handling_dust. apply wp_bind.
  apply wp_try_mutate_account; [done |]. intros e1 s1 Hup Hu.
  eapply wp_mono; [apply (Hf e1 s1 Hup Hu) |].
  intros [[x a'] | er |] s2; [| done | done]. intros (Hq & Hb & Hti & Hs).
  split; [done |]. split; [done |]. pose proof (settles_commits who s e1 x a' Q Hb Hti Hs) as Hc.
  unfold commits in *. destruct (commit_error _ _) as [er |]; [done |].
  intros s' Hu' Hw' Ha. apply wp_bind. unfold wp.
  rewrite handle_raw_maybe_dust_run by done. by apply Hc.
Qed.

Lemma mutate_account_handling_dust_try {R} `{Droppable State R} who f s :
  mutate_account_handling_dust (R := R) who f s =
  try_mutate_account_handling_dust who (fun a _ => f a) s.
Proof. done. Qed.

(** ** Deciding the invariant *)

Definition in_range (lo hi n : Z) : bool := (lo <=? n) && (n <=? hi).

Definition account_ok (i : AccountInfo AccountData) : bool :=
  let d := ai_data i in
  in_range 0 max_value (free d) && in_range 0 max_value (reserved d) && in_range 0 max_value (frozen d)
  && in_range 0 u32_max (ai_consumers i) && in_range 0 u32_max (ai_providers i)
  && (0 <=? ai_sufficients i)
  && ((ai_consumers i <=? 0) || (0 <? ai_providers i))
  && ((free d <? ed) || (0 <? ai_providers i))
  && ((frozen d =? 0) && ((reserved d =? 0) || negb (is_new_logic (flags d))) || (0 <? ai_consumers i))
  && ((reserved d =? 0) || (0 <? ai_providers i))
  && ((free d =? 0) || (ed <=? free d) || negb (reserved d =? 0)).

Definition ledger_check (s : State) : bool :=
  forallb (fun '(_, i) => account_ok i) (map_to_list (accts s))
  && (supply s <=? TotalIssuance s) && (TotalIssuance s <=? max_value).

Lemma in_range_spec lo hi n : in_range lo hi n = true -> lo <= n <= hi.
Proof. unfold in_range. intros ?. bool_to_prop. lia. Qed.

Lemma account_ok_sound i : account_ok i = true -> account_wf i.
Proof.
  unfold account_ok. intros Hok. rewrite !andb_true_iff in Hok.
  destruct Hok as ((((((((((Hf & Hr) & Hz) & Hc) & Hp) & Hs) & Hcp) & Hfp) & Hco) & Hre) & Hnd).
  apply in_range_spec in Hf, Hr, Hz, Hc, Hp. apply Z.leb_le in Hs.
  rewrite !orb_true_iff, ?andb_true_iff, ?orb_true_iff, ?negb_true_iff, ?Z.leb_le, ?Z.ltb_lt,
    ?Z.eqb_eq, ?Z.eqb_neq in *.
  split; try done; try lia. intros [? | [? Hn]]; [lia |]. rewrite Hn in Hco. naive_solver lia.
Qed.

Lemma ledger_check_sound s : ledger_check s = true -> ledger_ok s.
Proof.
  unfold ledger_check. rewrite !andb_true_iff, !Z.leb_le, forallb_forall. intros [[Hall Hsup] Hmax].
  split; [| unfold gap; lia | done]. intros who.
  destruct (accts s !! who) as [i |] eqn:Hi; [| apply entry_wf_None].
  apply account_ok_sound. apply (Hall (who, i)). by apply list_elem_of_In, elem_of_map_to_list.
Qed.
End ledger.

#[export] Hint Resolve quiet_deposit : frame.
#[global] Arguments Balances.deposit : simpl never.
#[global] Arguments account : simpl never.
#[global] Arguments accts : simpl never.
#[global] Arguments gap : simpl never.
#[global] Arguments supply : simpl never.

(** * A sample chain

    One concrete configuration (128-bit balances, existential deposit 10) and a few
    storages reached by running the model from genesis. *)

Definition u128 : BalanceType.
Proof. refine {| max_value := 2 ^ 128 - 1 |}. lia. Defined.

Definition sample_config : Config.
Proof.
  refine {| config_balance := u128; ExistentialDeposit := 10; MaxConsumers := 16; MaxReserves := 50;
            MaxFreezes := 3; HoldVariantCount := 5; PalletIndex := 10 |}.
  simpl. lia.
Defined.

#[local] Existing Instance sample_config.

Definition empty_state : State := Build_State (Build_Sys ∅ 1 None 0 []) 0 0 ∅ ∅ ∅ ∅.

(** Two endowed accounts. *)
Definition sample_genesis : State :=
  snd (genesis_build (fun _ => None) [(1%N, 100); (2%N, 200)] None empty_state).

(** Account 1 has 30 of its 100 reserved, 20 of them under name 7; account 2 has
    50 locked; account 3 has 40 on hold of 90. *)
Definition sample_state : State :=
  snd ((do cur_reserve 1 10 ;;
        do cur_reserve_named 7 1 20 ;;
        do cur_set_lock 4 2 50 WR_all ;;
        do mint_into 3 90 ;;
        hold 2 3 40) sample_genesis).

Ltac sample_ledger := apply (@ledger_check_sound sample_config); vm_compute; reflexivity.

Ltac sample_balance := clear; vm_compute; split; discriminate.
