(* ===== verification/ScheduleFacts.v ===== *)
(** * Vesting schedules

    The arithmetic of [VestingInfo]: what is locked when, when a schedule ends, and what merging
    two schedules does to the account's unlocking. *)

From stdpp Require Import base tactics numbers list gmap.
From S2P Require Import Prelude Dispatch Tokens Balances CurrencyTraits Vesting Ledger.
Local Open Scope Z_scope.

Section schedule.
Context `{BalanceType}.

(** Fields in the range of their types; block numbers are [u32]. *)
Record schedule_wf (v : VestingInfo) : Prop := {
  sw_locked : is_balance (locked v);
  sw_per_block : is_balance (raw_per_block v);
  sw_start : 0 <= starting_block v <= u32_max;
}.

(** ** The linear function *)

Definition elapsed (v : VestingInfo) (n : Z) : Z := Z.max 0 (n - starting_block v).

Lemma elapsed_after v n : starting_block v <= n -> elapsed v n = n - starting_block v.
Proof. unfold elapsed. lia. Qed.

Lemma per_block_pos v : 1 <= per_block v.
Proof. unfold per_block. lia. Qed.

Lemma locked_at_linear v n :
  schedule_wf v -> locked_at v n = Z.max 0 (locked v - per_block v * elapsed v n).
Proof.
  intros [[_ Hl] _ _]. pose proof (per_block_pos v).
  unfold locked_at, checked_mul, convert, saturating_sub, elapsed.
  destruct (Z.leb_spec (Z.max 0 (n - starting_block v) * per_block v) max_value); nia.
Qed.

Lemma locked_at_bounds v n : schedule_wf v -> 0 <= locked_at v n <= locked v.
Proof.
  intros Hv. rewrite locked_at_linear by done. destruct Hv as [[Hl _] _ _]. pose proof (per_block_pos v).
  unfold elapsed. nia.
Qed.

Lemma locked_at_antitone v n m : schedule_wf v -> n <= m -> locked_at v m <= locked_at v n.
Proof.
  intros Hv Hnm. rewrite !locked_at_linear by done. pose proof (per_block_pos v). unfold elapsed. nia.
Qed.

(** ** The end *)

(** Blocks until everything is unlocked: the quotient rounded up. *)
Definition duration (v : VestingInfo) : Z :=
  if locked v <=? per_block v then 1
  else locked v / per_block v + (if locked v mod per_block v =? 0 then 0 else 1).

Lemma duration_least v k : 0 < locked v -> 0 <= k -> locked v <= per_block v * k <-> duration v <= k.
Proof.
  intros Hl Hk. pose proof (per_block_pos v) as Hp. unfold duration.
  pose proof (Z.div_mod (locked v) (per_block v) ltac:(lia)) as Hdm.
  pose proof (Z.mod_pos_bound (locked v) (per_block v) ltac:(lia)) as Hm.
  destruct (Z.leb_spec (locked v) (per_block v)); [nia |].
  destruct (Z.eqb_spec (locked v mod per_block v) 0); nia.
Qed.

Lemma duration_pos v : 0 < locked v -> 1 <= duration v <= locked v.
Proof.
  intros Hl. pose proof (per_block_pos v) as Hp. split.
  - destruct (Z.le_gt_cases 1 (duration v)) as [| Hd]; [done |]. exfalso.
    assert (Hz : duration v <= 0) by lia. apply duration_least in Hz; [nia | done | lia].
  - apply duration_least; [done | lia | nia].
Qed.

Definition ends_at (v : VestingInfo) : Z := starting_block v + duration v.

Lemma ending_block_exact v :
  schedule_wf v -> 0 < locked v -> locked v + u32_max <= max_value -> ending_block_as_balance v = ends_at v.
Proof.
  intros [_ _ Hs] Hl Hm. pose proof (duration_pos v Hl). unfold ending_block_as_balance, convert, ends_at.
  fold (duration v). rewrite saturating_add_exact; [done | lia].
Qed.

Lemma locked_until_end v n :
  schedule_wf v -> 0 < locked v -> locked_at v n = 0 <-> ends_at v <= n.
Proof.
  intros Hv Hl. rewrite locked_at_linear by done. pose proof (duration_pos v Hl) as Hd.
  assert (He : 0 <= elapsed v n) by (unfold elapsed; lia).
  pose proof (duration_least v (elapsed v n) Hl He). unfold ends_at, elapsed in *. lia.
Qed.

(** A schedule unlocks linearly: the locked amount never grows, is the whole amount up to the
    starting block, drops by [per_block] with every block until it reaches zero, and is zero
    exactly from the ending block that the pallet computes; the overflow and saturation
    branches of the code do not disturb this. *)
Theorem schedule_unlocks_linearly v n :
  schedule_wf v -> 0 < locked v -> 0 <= n <= u32_max -> u32_max < max_value ->
  locked_at v n = Z.max 0 (locked v - per_block v * Z.max 0 (n - starting_block v)) /\
  (n <= starting_block v -> locked_at v n = locked v) /\
  locked_at v (n + 1) <= locked_at v n /\
  (locked_at v n = 0 <-> ending_block_as_balance v <= n).
Proof.
  intros Hv Hl Hn Hm. split_and!.
  - by apply locked_at_linear.
  - intros Hs. rewrite locked_at_linear by done. unfold elapsed.
    rewrite (Z.max_l 0 (n - _)) by lia. lia.
  - apply locked_at_antitone; [done | lia].
  - rewrite locked_until_end by done. unfold ending_block_as_balance, convert. fold (duration v).
    unfold saturating_add, ends_at. lia.
Qed.

(** ** Merging *)

(** A schedule is below its chord from [st] to an end [st + d]. *)
Lemma below_chord v st d t :
  schedule_wf v -> starting_block v <= st -> locked_at v (st + d) = 0 -> 0 <= t <= d ->
  d * locked_at v (st + t) <= locked_at v st * (d - t).
Proof.
  intros Hv Hs Hz Ht. revert Hz. rewrite !locked_at_linear, !elapsed_after by (done || lia).
  pose proof (per_block_pos v). intros Hz.
  destruct (Z.le_gt_cases (locked v - per_block v * (st + t - starting_block v)) 0) as [Hle | Hgt]; nia.
Qed.

(** Before its end a schedule holds at least one unit per remaining block. *)
Lemma locked_ge_remaining v st :
  schedule_wf v -> 0 < locked v -> starting_block v <= st < ends_at v -> ends_at v - st <= locked_at v st.
Proof.
  intros Hv Hl Hs. rewrite locked_at_linear by done. pose proof (per_block_pos v) as Hp.
  assert (Hnot : ~ locked v <= per_block v * (ends_at v - 1 - starting_block v)).
  { rewrite (duration_least v); [unfold ends_at; lia | done | unfold ends_at in *; lia]. }
  rewrite elapsed_after by lia. nia.
Qed.
End schedule.

Section merge.
Context `{VestingConfig}.

(** The amounts leave room for the block numbers, so that no ending block saturates. *)
Definition mergeable (v1 v2 : VestingInfo) : Prop :=
  schedule_wf v1 /\ schedule_wf v2 /\ 0 < locked v1 /\ 0 < locked v2 /\
  locked v1 + locked v2 + u32_max <= max_value.

(** Both schedules still run. *)
Definition merged (now : Z) (v1 v2 : VestingInfo) : VestingInfo :=
  let l := locked_at v1 now + locked_at v2 now in
  let st := Z.max (Z.max now (starting_block v1)) (starting_block v2) in
  let d := Z.max (ends_at v1) (ends_at v2) - st in
  {| locked := l; raw_per_block := l / d; starting_block := st |}.

Lemma merge_start now v1 v2 :
  mergeable v1 v2 -> now < ends_at v1 -> now < ends_at v2 ->
  let st := starting_block (merged now v1 v2) in
  now <= st /\ starting_block v1 <= st /\ starting_block v2 <= st /\ st < Z.max (ends_at v1) (ends_at v2).
Proof.
  intros (_ & _ & Hl1 & Hl2 & _) H1 H2. pose proof (duration_pos v1 Hl1). pose proof (duration_pos v2 Hl2).
  simpl. unfold ends_at in *. lia.
Qed.

(** What is locked at [now] is at least one unit for every block the merged schedule runs. *)
Lemma merge_locked_ge now v1 v2 :
  mergeable v1 v2 -> now < ends_at v1 -> now < ends_at v2 ->
  let m := merged now v1 v2 in
  Z.max (ends_at v1) (ends_at v2) - starting_block m <= locked m.
Proof.
  intros Hm H1 H2 m. pose proof (merge_start now v1 v2 Hm H1 H2) as (Hst & Hs1 & Hs2 & He). fold m in Hst, Hs1, Hs2, He.
  destruct Hm as (Hv1 & Hv2 & Hl1 & Hl2 & _). change (locked m) with (locked_at v1 now + locked_at v2 now).
  pose proof (locked_at_antitone v1 now (starting_block m) Hv1 Hst). pose proof (locked_at_bounds v1 (starting_block m) Hv1).
  pose proof (locked_at_antitone v2 now (starting_block m) Hv2 Hst). pose proof (locked_at_bounds v2 (starting_block m) Hv2).
  destruct (Z.le_gt_cases (ends_at v1) (ends_at v2)) as [Hle | Hgt].
  - pose proof (locked_ge_remaining v2 (starting_block m) Hv2 Hl2 ltac:(lia)). lia.
  - pose proof (locked_ge_remaining v1 (starting_block m) Hv1 Hl1 ltac:(lia)). lia.
Qed.

Lemma merge_vesting_info_run now v1 v2 :
  mergeable v1 v2 -> 0 <= now ->
  merge_vesting_info now v1 v2 =
  match ends_at v1 <=? now, ends_at v2 <=? now with
  | true, true => None
  | true, false => Some v2
  | false, true => Some v1
  | false, false => Some (merged now v1 v2)
  end.
Proof.
  intros Hm Hn. pose proof Hm as (Hv1 & Hv2 & Hl1 & Hl2 & Hfit). unfold merge_vesting_info, convert.
  destruct (sw_locked _ Hv1), (sw_locked _ Hv2).
  rewrite !ending_block_exact by (done || lia).
  destruct (Z.leb_spec (ends_at v1) now) as [E1 | E1], (Z.leb_spec (ends_at v2) now) as [E2 | E2]; try done.
  pose proof (merge_start now v1 v2 Hm ltac:(lia) ltac:(lia)) as (_ & _ & _ & He).
  pose proof (merge_locked_ge now v1 v2 Hm ltac:(lia) ltac:(lia)) as Hge. unfold merged in *. simpl in *.
  pose proof (locked_at_bounds v1 now Hv1). pose proof (locked_at_bounds v2 now Hv2).
  rewrite saturating_add_exact by (unfold u32_max in Hfit; lia). rewrite saturating_sub_exact by lia. 
  rewrite (Z.max_l (Z.max (ends_at v1) (ends_at v2) - _) 1) by lia.
  do 2 f_equal. apply Z.max_l. apply Z.div_le_lower_bound; lia.
Qed.

Lemma merged_wf now v1 v2 :
  mergeable v1 v2 -> 0 <= now <= u32_max -> now < ends_at v1 -> now < ends_at v2 ->
  schedule_wf (merged now v1 v2) /\ per_block (merged now v1 v2) = raw_per_block (merged now v1 v2).
Proof.
  intros Hm Hn H1 H2. pose proof (merge_start now v1 v2 Hm H1 H2) as (_ & _ & _ & He).
  pose proof (merge_locked_ge now v1 v2 Hm H1 H2) as Hge. pose proof Hm as (Hv1 & Hv2 & Hl1 & Hl2 & Hfit).
  pose proof (locked_at_bounds v1 now Hv1). pose proof (locked_at_bounds v2 now Hv2).
  destruct (sw_start _ Hv1), (sw_start _ Hv2). unfold merged, per_block in *. simpl in *.
  set (l := locked_at v1 now + locked_at v2 now) in *.
  set (d := Z.max (ends_at v1) (ends_at v2) - Z.max (Z.max now (starting_block v1)) (starting_block v2)) in *.
  assert (1 <= l / d <= l).
  { split; [apply Z.div_le_lower_bound; lia |]. apply Z.div_le_upper_bound; nia. }
  unfold u32_max in *. split; [| lia]. split; simpl; unfold is_balance, u32_max; lia.
Qed.

(** The merged schedule is above both originals together. *)
Lemma merged_above now v1 v2 n :
  mergeable v1 v2 -> 0 <= now <= u32_max -> now < ends_at v1 -> now < ends_at v2 -> now <= n ->
  locked_at v1 n + locked_at v2 n <= locked_at (merged now v1 v2) n.
Proof.
  intros Hm Hnow H1 H2 Hn. pose proof (merge_start now v1 v2 Hm H1 H2) as (Hst & Hs1 & Hs2 & He).
  pose proof (merge_locked_ge now v1 v2 Hm H1 H2) as Hge.
  destruct (merged_wf now v1 v2 Hm Hnow H1 H2) as [Hwf Hpb]. pose proof Hm as (Hv1 & Hv2 & Hl1 & Hl2 & _).
  set (m := merged now v1 v2) in *. set (st := starting_block m) in *.
  pose proof (locked_at_antitone v1 now n Hv1 Hn). pose proof (locked_at_antitone v2 now n Hv2 Hn).
  pose proof (locked_at_antitone v1 now st Hv1 Hst). pose proof (locked_at_antitone v2 now st Hv2 Hst).
  assert (Hl : locked m = locked_at v1 now + locked_at v2 now) by done.
  rewrite (locked_at_linear m) by done. rewrite Hpb.
  destruct (Z.le_gt_cases n st) as [Hle | Hgt].
  { unfold elapsed. fold st. rewrite (Z.max_l 0 (n - st)) by lia. lia. }
  rewrite elapsed_after by (unfold st in *; lia). fold st. set (d := Z.max (ends_at v1) (ends_at v2) - st) in *.
  assert (Hz1 : locked_at v1 (st + d) = 0) by (apply locked_until_end; [done | done | lia]).
  assert (Hz2 : locked_at v2 (st + d) = 0) by (apply locked_until_end; [done | done | lia]).
  destruct (Z.le_gt_cases d (n - st)) as [Hend | Hrun].
  { pose proof (locked_at_antitone v1 (st + d) n Hv1 ltac:(lia)).
    pose proof (locked_at_antitone v2 (st + d) n Hv2 ltac:(lia)). lia. }
  pose proof (below_chord v1 st d (n - st) Hv1 Hs1 Hz1 ltac:(lia)) as Hc1.
  pose proof (below_chord v2 st d (n - st) Hv2 Hs2 Hz2 ltac:(lia)) as Hc2.
  replace (st + (n - st)) with n in Hc1, Hc2 by lia.
  assert (Hdp : d * raw_per_block m <= locked m) by (apply Z.mul_div_le; lia).
  pose proof (locked_at_bounds v1 n Hv1). pose proof (locked_at_bounds v2 n Hv2). nia.
Qed.

Lemma merge_cases now v1 v2 :
  mergeable v1 v2 -> 0 <= now <= u32_max ->
  match merge_vesting_info now v1 v2 with
  | Some m => schedule_wf m /\ locked_at m now = locked_at v1 now + locked_at v2 now /\
      forall n, now <= n -> locked_at v1 n + locked_at v2 n <= locked_at m n
  | None => locked_at v1 now = 0 /\ locked_at v2 now = 0
  end.
Proof.
  intros Hm Hnow. rewrite merge_vesting_info_run by (done || lia). pose proof Hm as (Hv1 & Hv2 & Hl1 & Hl2 & _).
  assert (Hzero : forall v n, schedule_wf v -> 0 < locked v -> ends_at v <= now -> now <= n -> locked_at v n = 0).
  { intros v n Hv Hl He Hn. apply locked_until_end; [done | done | lia]. }
  destruct (Z.leb_spec (ends_at v1) now), (Z.leb_spec (ends_at v2) now).
  - split; by apply Hzero.
  - rewrite (Hzero v1 now) by done. split_and!; [done | lia |]. intros n Hn. rewrite (Hzero v1 n) by done. lia.
  - rewrite (Hzero v2 now) by done. split_and!; [done | lia |]. intros n Hn. rewrite (Hzero v2 n) by done. lia.
  - destruct (merged_wf now v1 v2 Hm Hnow ltac:(lia) ltac:(lia)) as [Hwf _]. split_and!; [done | |].
    + pose proof (merged_above now v1 v2 now Hm Hnow ltac:(lia) ltac:(lia) ltac:(lia)).
      pose proof (locked_at_bounds _ now Hwf) as Hb. simpl in Hb. lia.
    + intros n Hn. apply merged_above; (done || lia).
Qed.

(** Merging never unlocks early: the merged schedule holds at [now] exactly what the two
    held together, and at every later block at least what they would hold; there is no
    merged schedule exactly when both have ended. *)
Theorem merge_never_unlocks_early now v1 v2 :
  mergeable v1 v2 -> 0 <= now <= u32_max ->
  match merge_vesting_info now v1 v2 with
  | Some m => schedule_wf m /\ locked_at m now = locked_at v1 now + locked_at v2 now /\
      forall n, now <= n -> locked_at v1 n + locked_at v2 n <= locked_at m n
  | None => locked_at v1 now = 0 /\ locked_at v2 now = 0
  end.
Proof. apply merge_cases. Qed.

(** The documentation of [merge_schedules] promises [MAX(schedule1.ending_block,
    schedule2.ending_block)] as the end of the merged schedule. The rate is rounded down, so the
    merged schedule can run for almost twice as long: two schedules that end at blocks 10 and 9
    merge into one that ends at block 19. *)
Theorem merge_can_end_later :
  19 + u32_max <= max_value ->
  let v1 := {| locked := 10; raw_per_block := 1; starting_block := 0 |} in
  let v2 := {| locked := 9; raw_per_block := 1; starting_block := 0 |} in
  ending_block_as_balance v1 = 10 /\ ending_block_as_balance v2 = 9 /\
  (ending_block_as_balance <$> merge_vesting_info 0 v1 v2) = Some 19.
Proof.
  intros Hmax v1 v2. unfold u32_max in Hmax.
  assert (Hm : mergeable v1 v2).
  { split_and!; try (split; simpl; unfold is_balance, u32_max); simpl; unfold u32_max; lia. }
  pose proof Hm as (Hv1 & Hv2 & _). rewrite !ending_block_exact by (done || simpl; unfold u32_max; lia).
  split_and!; [done | done |]. rewrite merge_vesting_info_run by done.
  change (ends_at v1 <=? 0) with false. change (ends_at v2 <=? 0) with false. cbv iota.
  assert (Hmg : merged 0 v1 v2 = {| locked := 19; raw_per_block := 1; starting_block := 0 |})
    by (unfold merged; by rewrite !locked_at_linear).
  rewrite Hmg. cbn [fmap option_fmap option_map]. rewrite ending_block_exact; [done | | done | simpl; unfold u32_max; lia].
  split; simpl; unfold is_balance, u32_max; lia.
Qed.
End merge.

Section witness.
#[local] Existing Instance sample_config.

Definition sample_vesting : VestingConfig := {|
  MinVestedTransfer := 10; UnvestedFundsAllowedWithdrawReasons := Z.lor WR_TRANSFER WR_RESERVE;
  MAX_VESTING_SCHEDULES := 28; VestingPalletIndex := 25 |}.

#[local] Existing Instance sample_vesting.

Definition sample_schedule1 : VestingInfo := {| locked := 100; raw_per_block := 7; starting_block := 3 |}.
Definition sample_schedule2 : VestingInfo := {| locked := 60; raw_per_block := 2; starting_block := 10 |}.

Lemma sample_schedules_wf : schedule_wf sample_schedule1 /\ schedule_wf sample_schedule2.
Proof. split; split; vm_compute; split; discriminate. Qed.

Lemma schedule_unlocks_linearly_witness : locked_at sample_schedule1 17 = 2.
Proof.
  destruct (schedule_unlocks_linearly sample_schedule1 17 (proj1 sample_schedules_wf)) as [Hl _];
    [reflexivity | vm_compute; split; discriminate | reflexivity |].
  rewrite Hl. reflexivity.
Defined.

Lemma merge_never_unlocks_early_witness :
  exists m, merge_vesting_info 5 sample_schedule1 sample_schedule2 = Some m /\ schedule_wf m.
Proof.
  assert (Hm : mergeable sample_schedule1 sample_schedule2).
  { split; [exact (proj1 sample_schedules_wf) |]. split; [exact (proj2 sample_schedules_wf) |].
    repeat split; vm_compute; discriminate. }
  pose proof (merge_never_unlocks_early 5 sample_schedule1 sample_schedule2 Hm ltac:(vm_compute; split; discriminate)) as W.
  destruct (merge_vesting_info 5 sample_schedule1 sample_schedule2) as [m |] eqn:E; [| discriminate E].
  exists m. split; [reflexivity | exact (proj1 W)].
Defined.

Lemma merge_can_end_later_witness :
  (ending_block_as_balance <$> merge_vesting_info 0 {| locked := 10; raw_per_block := 1; starting_block := 0 |}
     {| locked := 9; raw_per_block := 1; starting_block := 0 |}) = Some 19.
Proof.
  assert (Hm : 19 + u32_max <= max_value) by (vm_compute; discriminate).
  exact (proj2 (proj2 (merge_can_end_later Hm))).
Defined.
End witness.
