(* ===== verification/VestingFacts.v ===== *)
(** * The vesting pallet keeps its promise

    What the pallet relies on from its currency is the interface [LockPromise]; against it every
    call is shown to keep the invariant that the lock of an account covers what its schedules
    still hold.  The balances pallet is an instance. *)

From stdpp Require Import base tactics numbers list gmap.
From S2P Require Import Prelude Dispatch System Tokens Fungible Balances BalancesFungible BalancesCurrency.
From S2P Require Import BalancesCalls CurrencyTraits Vesting ScheduleFacts.
Local Open Scope Z_scope.

(** ** The interface *)

(** The currency keeps one amount per account under [VESTING_ID], and moves it only when told to. *)
Class LockPromise `{BalanceType} (C : Type) `{VestingHost C} := {
  lp_inv : C -> Prop;
  lp_locked : AccountId -> C -> Z;
  lp_set : forall who n reasons c,
    lp_inv c -> is_balance n -> n <> 0 -> wr_is_empty reasons = false ->
    exists c', lc_set_lock VESTING_ID who n reasons c = (Ok tt, c') /\ lp_inv c' /\
      lp_locked who c' = n /\ (forall w, w <> who -> lp_locked w c' = lp_locked w c) /\
      current_block_number c' = current_block_number c /\
      (forall w, c_free_balance w c' = c_free_balance w c);
  lp_remove : forall who c, lp_inv c ->
    exists c', lc_remove_lock VESTING_ID who c = (Ok tt, c') /\ lp_inv c' /\
      lp_locked who c' = 0 /\ (forall w, w <> who -> lp_locked w c' = lp_locked w c) /\
      current_block_number c' = current_block_number c;
  lp_transfer : forall source dest n liveness c, lp_inv c -> is_balance n ->
    wp (c_transfer source dest n liveness) c (fun r c' =>
      match r with
      | Ok _ => lp_inv c' /\ (forall w, lp_locked w c' = lp_locked w c) /\
          current_block_number c' = current_block_number c
      | Err _ => True
      | Panic => False
      end);
  lp_event : forall e c, lp_inv c ->
    lp_inv (vh_deposit_event e c) /\ (forall w, lp_locked w (vh_deposit_event e c) = lp_locked w c) /\
    current_block_number (vh_deposit_event e c) = current_block_number c;
  lp_free : forall who c, lp_inv c -> is_balance (c_free_balance who c);
}.

(** ** Lists of schedules *)

Section schedules.
Context `{VestingConfig}.

(** A schedule as the pallet stores it. *)
Record good (v : VestingInfo) : Prop := {
  gd_wf : schedule_wf v;
  gd_valid : is_valid v = true;
}.

(** What a list of schedules holds at a block, in the balance type. *)
Definition unvested (now : Z) (l : list VestingInfo) : Z :=
  Z.min max_value (list_sum (fun v => locked_at v now) l).

(** The schedules that still run. *)
Definition running (now : Z) (l : list VestingInfo) : list VestingInfo :=
  filter (fun v => locked_at v now <> 0) l.

Lemma good_locked v : good v -> 0 < locked v.
Proof. intros [[[Hl _] _ _] Hv]. unfold is_valid in Hv. bool_to_prop. lia. Qed.

Lemma good_locked_at v n : good v -> 0 <= locked_at v n.
Proof. intros [Hw _]. by apply locked_at_bounds. Qed.

Lemma sum_nonneg now l : Forall good l -> 0 <= list_sum (fun v => locked_at v now) l.
Proof.
  intros Hl. apply list_sum_nonneg. intros v Hv. apply good_locked_at. rewrite Forall_forall in Hl. auto.
Qed.

Lemma unvested_balance now l : Forall good l -> is_balance (unvested now l).
Proof. intros Hl. pose proof (sum_nonneg now l Hl). pose proof max_value_pos. unfold is_balance, unvested. lia. Qed.

Lemma filter_locked_spec now t l :
  Forall good l -> 0 <= t ->
  filter_locked now (Z.min max_value t) l =
  (running now l, Z.min max_value (t + list_sum (fun v => locked_at v now) l)).
Proof.
  intros Hl. revert t. induction Hl as [| v l Hv Hl IH]; intros t Ht; simpl; [by rewrite Z.add_0_r |].
  pose proof (good_locked_at v now Hv). unfold running. rewrite filter_cons.
  destruct (Z.eqb_spec (locked_at v now) 0) as [E | E].
  - rewrite E, decide_False by (by intros []). rewrite IH by done. done.
  - rewrite decide_True by done.
    replace (saturating_add (Z.min max_value t) (locked_at v now)) with (Z.min max_value (t + locked_at v now))
      by (unfold saturating_add; lia).
    rewrite IH by lia. fold (running now l). do 2 f_equal. lia.
Qed.

Lemma report_run now l : Forall good l -> filter_locked now 0 l = (running now l, unvested now l).
Proof.
  intros Hl. pose proof max_value_pos. rewrite <- (Z.min_r max_value 0) at 1 by lia. by apply filter_locked_spec.
Qed.

Lemma running_good now l : Forall good l -> Forall good (running now l).
Proof. intros Hl. rewrite Forall_forall in *. intros v [_ Hv]%list_elem_of_filter. auto. Qed.

Lemma running_sum now l :
  list_sum (fun v => locked_at v now) (running now l) = list_sum (fun v => locked_at v now) l.
Proof.
  induction l as [| v l IH]; [done |]. unfold running in *. rewrite filter_cons. simpl.
  destruct (decide (locked_at v now <> 0)) as [? | E]; simpl; [lia |].
  apply dec_stable in E. lia.
Qed.

Lemma unvested_running now l : unvested now (running now l) = unvested now l.
Proof. unfold unvested. by rewrite running_sum. Qed.

Lemma unvested_later now now' l : Forall good l -> now <= now' -> unvested now' l <= unvested now l.
Proof.
  intros Hl Hn. unfold unvested.
  enough (list_sum (fun v => locked_at v now') l <= list_sum (fun v => locked_at v now) l) by lia.
  induction Hl as [| v l Hv Hl IH]; simpl; [lia |].
  pose proof (locked_at_antitone v now now' (gd_wf _ Hv) Hn). lia.
Qed.

(** Something is held exactly while a schedule runs. *)
Lemma unvested_zero now l :
  Forall good l -> Forall (fun v => locked_at v now <> 0) l -> unvested now l = 0 <-> l = [].
Proof.
  intros Hl Hr. pose proof max_value_pos. destruct l as [| v l]; [split; [done |]; unfold unvested; simpl; lia |].
  split; [| done]. apply Forall_cons in Hl as [Hv Hl]. apply Forall_cons in Hr as [Hn _].
  pose proof (good_locked_at v now Hv). pose proof (sum_nonneg now l Hl). unfold unvested. simpl. lia.
Qed.

Lemma running_nonzero now l : Forall (fun v => locked_at v now <> 0) (running now l).
Proof. apply Forall_forall. by intros v [? _]%list_elem_of_filter. Qed.

Lemma pick_good a l i : Forall good l -> Forall good (pick_from a i l).
Proof.
  intros Hl. revert i. induction Hl as [| v l Hv Hl IH]; intros i; simpl; [done |].
  destruct (should_remove a i); auto.
Qed.

Lemma pick_passive l i : pick_from Passive i l = l.
Proof. revert i. induction l as [| v l IH]; intros i; simpl; [done | by rewrite IH]. Qed.

Lemma pick_length a l i : (length (pick_from a i l) <= length l)%nat.
Proof.
  revert i. induction l as [| v l IH]; intros i; simpl; [done |]. specialize (IH (S i)).
  destruct (should_remove a i); simpl; lia.
Qed.

Lemma pick_drops a l i j :
  (j < length l)%nat -> should_remove a (i + j) = true -> (length (pick_from a i l) < length l)%nat.
Proof.
  revert i j. induction l as [| v l IH]; intros i [| j] Hj Hr; simpl in *; try lia.
  - rewrite Nat.add_0_r in Hr. rewrite Hr. pose proof (pick_length a l (S i)). lia.
  - specialize (IH (S i) j ltac:(lia)). rewrite Nat.add_succ_comm in IH. specialize (IH Hr).
    destruct (should_remove a i); simpl; lia.
Qed.

(** The weight of the schedule at index [i], counting from [k]. *)
Definition weight_at (w : VestingInfo -> Z) (i k : nat) (l : list VestingInfo) : Z :=
  if (k <=? i)%nat then from_option w 0 (l !! (i - k)%nat) else 0.

Lemma weight_at_cons w i k v l :
  weight_at w i k (v :: l) = (if (i =? k)%nat then w v else 0) + weight_at w i (S k) l.
Proof.
  unfold weight_at. destruct (Nat.eqb_spec i k) as [-> | Hne].
  - rewrite Nat.leb_refl, Nat.sub_diag. destruct (Nat.leb_spec (S k) k); simpl; lia.
  - destruct (Nat.leb_spec k i), (Nat.leb_spec (S k) i); try lia. by replace (i - k)%nat with (S (i - S k)) by lia.
Qed.

Lemma pick_merge_sum w i j k l :
  i <> j -> list_sum w (pick_from (Merge i j) k l) + weight_at w i k l + weight_at w j k l = list_sum w l.
Proof.
  intros Hij. revert k. induction l as [| v l IH]; intros k.
  { unfold weight_at. simpl. by repeat case_match. }
  specialize (IH (S k)). rewrite !weight_at_cons. simpl.
  destruct (Nat.eqb_spec i k), (Nat.eqb_spec j k); simpl; lia.
Qed.

(** What had ended stays ended. *)
Lemma running_sum_later now n l :
  Forall good l -> now <= n ->
  list_sum (fun v => locked_at v n) (running now l) = list_sum (fun v => locked_at v n) l.
Proof.
  intros Hl Hn. unfold running. induction Hl as [| v l Hv Hl IH]; [done |]. rewrite filter_cons. simpl.
  destruct (decide (locked_at v now <> 0)) as [? | E%dec_stable]; simpl; [lia |].
  pose proof (locked_at_antitone v now n (gd_wf _ Hv) Hn). pose proof (good_locked_at v n Hv). lia.
Qed.

(** ** Merging, with saturation *)

Lemma ending_le v now :
  good v -> 0 <= now <= u32_max -> u32_max < max_value ->
  ending_block_as_balance v <= now <-> locked_at v now = 0.
Proof.
  intros Hv Hn Hm. pose proof (good_locked v Hv) as Hl. rewrite locked_until_end by (apply Hv || done).
  unfold ending_block_as_balance, convert. fold (duration v). unfold saturating_add, ends_at. lia.
Qed.

Lemma merge_good now v1 v2 :
  good v1 -> good v2 -> 0 <= now <= u32_max -> u32_max < max_value ->
  match merge_vesting_info now v1 v2 with
  | Some m => good m /\ locked_at m now <> 0
  | None => True
  end.
Proof.
  intros Hg1 Hg2 Hn Hm. pose proof (ending_le v1 now Hg1 Hn Hm) as E1. pose proof (ending_le v2 now Hg2 Hn Hm) as E2.
  pose proof (good_locked_at v1 now Hg1). pose proof (good_locked_at v2 now Hg2).
  unfold merge_vesting_info, convert.
  destruct (Z.leb_spec (ending_block_as_balance v1) now), (Z.leb_spec (ending_block_as_balance v2) now);
    [done | split; [done | lia] | split; [done | lia] |].
  set (l := saturating_add _ _). set (st := Z.max (Z.max now _) _). set (d := Z.max (saturating_sub _ st) 1).
  assert (Hl : 0 < l <= max_value) by (unfold l, saturating_add; lia).
  assert (Hd : 0 <= l / d <= l).
  { unfold d. split; [apply Z.div_pos; lia | apply Z.div_le_upper_bound; nia]. }
  destruct (sw_start _ (gd_wf _ Hg1)), (sw_start _ (gd_wf _ Hg2)).
  assert (Hw : schedule_wf {| locked := l; raw_per_block := Z.max (l / d) 1; starting_block := st |}).
  { unfold u32_max in *. split; simpl; unfold is_balance, u32_max, st; lia. }
  split.
  - split; [done |]. unfold is_valid; simpl. apply andb_true_iff. rewrite !negb_true_iff, !Z.eqb_neq. lia.
  - rewrite locked_at_linear by done. unfold elapsed. simpl. rewrite (Z.max_l 0 (now - st)) by (unfold st; lia). lia.
Qed.
End schedules.

(** ** The pallet *)

Section pallet.
Context `{VestingConfig} {C : Type} `{VestingHost C} `{!LockPromise C}.
Context (Hwide : u32_max < max_value) (Hreasons : wr_is_empty lock_reasons_of = false).
Context (Hbound : Z.of_nat MAX_VESTING_SCHEDULES < 2 ^ 32).
Abbreviation VState := (VState C).

Definition vlock (who : AccountId) (s : VState) : Z := lp_locked who (vs_currency s).

(** The schedules of [who]: a bounded vector of valid schedules, and a lock that covers what they
    hold; no schedules, no lock. *)
Definition account_covered (now : Z) (l : option (list VestingInfo)) (lock : Z) : Prop :=
  match l with
  | Some l => l <> [] /\ (length l <= MAX_VESTING_SCHEDULES)%nat /\ Forall good l /\ unvested now l <= lock
  | None => lock = 0
  end.

Record vesting_ok (s : VState) : Prop := {
  vo_currency : lp_inv (vs_currency s);
  vo_now : 0 <= block_number s <= u32_max;
  vo_covered : forall who, account_covered (block_number s) (vesting who s) (vlock who s);
}.

(** The schedules of [who] have been written as [l], with a lock of [n]. *)
Record written (who : AccountId) (l : list VestingInfo) (n : Z) (s s' : VState) : Prop := {
  wr_inv : lp_inv (vs_currency s');
  wr_schedules : vesting who s' = if decide (l = []) then None else Some l;
  wr_lock : vlock who s' = n;
  wr_others : forall w, w <> who -> vesting w s' = vesting w s /\ vlock w s' = vlock w s;
  wr_number : block_number s' = block_number s;
}.

(** Currency operations only touch the currency. *)
Lemma wp_in_currency {A} (m : M C A) s Q :
  wp m (vs_currency s) (fun r c => Q r (Build_VState c (VestingSchedules s) (StorageVersion s))) ->
  wp (in_currency m) s Q.
Proof. unfold wp, in_currency. by destruct (m (vs_currency s)). Qed.

Lemma write_lock_spec who n s :
  lp_inv (vs_currency s) -> is_balance n ->
  exists c', write_lock who n s = (Ok tt, Build_VState c' (VestingSchedules s) (StorageVersion s)) /\
    lp_inv c' /\ lp_locked who c' = n /\
    (forall w, w <> who -> lp_locked w c' = lp_locked w (vs_currency s)) /\
    current_block_number c' = current_block_number (vs_currency s).
Proof.
  intros Hi Hn. unfold write_lock, deposit_vesting, in_currency, bind, modify.
  destruct (Z.eqb_spec n 0) as [-> | Hne].
  - destruct (lp_remove who _ Hi) as (c1 & -> & Hi1 & Hl & Ho & Hb).
    destruct (lp_event (VestingCompleted who) _ Hi1) as (Hi2 & Hl2 & Hb2). simpl. eexists. split; [done |].
    rewrite Hl2, Hb2. split_and!; try done. intros w Hw. rewrite Hl2. auto.
  - destruct (lp_set who n lock_reasons_of _ Hi Hn Hne Hreasons) as (c1 & -> & Hi1 & Hl & Ho & Hb & _).
    destruct (lp_event (VestingUpdated who n) _ Hi1) as (Hi2 & Hl2 & Hb2). simpl. eexists. split; [done |].
    rewrite Hl2, Hb2. split_and!; try done. intros w Hw. rewrite Hl2. auto.
Qed.

Lemma write_spec who l n s :
  lp_inv (vs_currency s) -> is_balance n -> (length l <= MAX_VESTING_SCHEDULES)%nat ->
  exists s', (do write_vesting who l ;; write_lock who n) s = (Ok tt, s') /\ written who l n s s'.
Proof.
  intros Hi Hn Hlen. unfold write_vesting. rewrite (proj2 (Nat.leb_le _ _)) by done.
  set (m := if decide (l = []) then delete who (VestingSchedules s) else <[who := l]> (VestingSchedules s)).
  destruct (write_lock_spec who n (Build_VState (vs_currency s) m (StorageVersion s)) Hi Hn)
    as (c' & Hrun & Hi' & Hl & Ho & Hb). simpl in *. eexists. split.
  - unfold bind at 1 2. simpl.
    replace ((if (length l =? 0)%nat then storage_remove VestingL who else storage_insert VestingL who l) s)
      with (Ok tt, Build_VState (vs_currency s) m (StorageVersion s)); [exact Hrun |].
    unfold m, storage_remove, storage_insert. destruct l; [by rewrite decide_True | by rewrite decide_False].
  - unfold vlock, vesting, block_number. split; simpl; try done.
    + unfold vesting. simpl. unfold m. destruct (decide (l = [])); [apply lookup_delete_eq | apply lookup_insert_eq].
    + intros w Hw. unfold vesting, vlock. simpl. split; [| auto]. unfold m.
      destruct (decide (l = [])); [by apply lookup_delete_ne | by apply lookup_insert_ne].
Qed.

(** A written account is covered by its exact lock. *)
Lemma written_ok who l s s' :
  vesting_ok s -> Forall good l -> (length l <= MAX_VESTING_SCHEDULES)%nat ->
  written who l (unvested (block_number s) l) s s' -> vesting_ok s'.
Proof.
  intros [Hi Hn Hc] Hl Hlen [Hi' Hs Hk Ho Hb]. split; [done | by rewrite Hb |]. intros w. rewrite Hb.
  destruct (decide (w = who)) as [-> | Hne]; [| destruct (Ho w Hne) as [-> ->]; apply Hc].
  rewrite Hs, Hk. destruct (decide (l = [])) as [-> | Hne]; simpl; [| split_and!; try done; lia].
  unfold unvested. simpl. pose proof max_value_pos. lia.
Qed.

(** ** Actions *)

Lemma report_spec l a s :
  Forall good l ->
  report_schedule_updates l a s =
  (running (block_number s) (pick_schedules a l), unvested (block_number s) (pick_schedules a l)).
Proof. intros Hl. apply report_run. by apply pick_good. Qed.

(** What an action leaves: good schedules that all run, within the bound, and their sum. *)
Definition acted (l : list VestingInfo) (n : Z) (s : VState) (l' : list VestingInfo) : Prop :=
  Forall good l' /\ (length l' <= length l)%nat /\ n = unvested (block_number s) l' /\
  Forall (fun v => locked_at v (block_number s) <> 0) l'.

Lemma report_acted l a s :
  Forall good l ->
  let p := pick_schedules a l in
  acted l (unvested (block_number s) p) s (running (block_number s) p).
Proof.
  intros Hl p. assert (Hp : Forall good p) by by apply pick_good. split; [by apply running_good |]. split.
  - unfold running. etrans; [apply length_filter | apply pick_length].
  - split; [by rewrite unvested_running | apply running_nonzero].
Qed.

Lemma exec_spec l a s :
  Forall good l -> 0 <= block_number s <= u32_max ->
  wp (exec_action l a) s (fun r s' => s' = s /\
    match r with
    | Ok (l', n) => acted l n s l'
    | Err _ => match a with Merge i j => l !! i = None \/ l !! j = None | _ => False end
    | Panic => False
    end).
Proof.
  intros Hl Hn. pose proof (report_acted l a s Hl) as Hr. pose proof (report_spec l a s Hl) as Hrep.
  destruct a as [| i | i j]; [unfold wp; simpl; by rewrite Hrep | unfold wp; simpl; by rewrite Hrep |].
  unfold exec_action. apply wp_bind, wp_ok_or; [| intros E; split; [done | by left]].
  intros v1 E1. apply wp_bind, wp_ok_or; [| intros E; split; [done | by right]]. intros v2 E2.
  apply wp_bind, wp_gets. rewrite Hrep. apply wp_bind, wp_gets, wp_ret. split; [done |].
  destruct Hr as (Hg & Hlen & _ & Hnz). set (p := pick_schedules _ l) in *. set (now := block_number s) in *.
  assert (Hgi : forall k v, l !! k = Some v -> good v).
  { intros k v Hk. rewrite Forall_lookup in Hl. eauto. }
  pose proof (merge_good now v1 v2 (Hgi _ _ E1) (Hgi _ _ E2) Hn Hwide) as Hm.
  destruct (merge_vesting_info now v1 v2) as [m |]; [| split_and!; try done; by rewrite unvested_running].
  destruct Hm as [Hgm Hnm]. split; [apply Forall_app; split; [done | by constructor] |]. split.
  - rewrite length_app. simpl. assert (length (running now p) <= length p)%nat by apply length_filter.
    assert (length p < length l)%nat; [| lia]. apply (pick_drops _ l 0 i); [by eapply lookup_lt_Some |].
    simpl. by rewrite Nat.eqb_refl.
  - split; [| apply Forall_app; split; [done | by constructor]].
    pose proof (sum_nonneg now (running now p) Hg). pose proof (good_locked_at m now Hgm).
    unfold unvested, saturating_add. rewrite list_sum_app. rewrite running_sum in *. simpl. fold now. lia.
Qed.

(** Time passes, and the currency may do anything that leaves the vesting locks alone. *)
Lemma vesting_ok_later s c' :
  vesting_ok s -> lp_inv c' -> (forall w, lp_locked w c' = lp_locked w (vs_currency s)) ->
  current_block_number (vs_currency s) <= current_block_number c' <= u32_max ->
  vesting_ok (Build_VState c' (VestingSchedules s) (StorageVersion s)).
Proof.
  intros [Hi [Hn _] Hc] Hi' Hl [Hb Hmax]. unfold block_number in *.
  split; unfold block_number; simpl; [done | lia |]. intros w. specialize (Hc w). unfold vesting, vlock in *. simpl.
  rewrite Hl. destruct (VestingSchedules s !! w) as [l |]; simpl in *; [| done].
  destruct Hc as (? & ? & Hg & Hu). split_and!; try done. etrans; [| exact Hu]. by apply unvested_later.
Qed.

(** The last steps of every operation on the schedules [l] of an account. *)
Lemma perform_spec who l a s :
  vesting_ok s -> Forall good l -> (length l <= MAX_VESTING_SCHEDULES)%nat ->
  wp ('(schedules, locked_now) <- exec_action l a ;;
      do write_vesting who schedules ;; write_lock who locked_now) s (fun r s' =>
    match r with
    | Ok _ => exists l' n, acted l n s l' /\ fst (exec_action l a s) = Ok (l', n) /\ written who l' n s s'
    | Err _ => s' = s /\ match a with Merge i j => l !! i = None \/ l !! j = None | _ => False end
    | Panic => False
    end).
Proof.
  intros Hok Hg Hlen. pose proof (exec_spec l a s Hg (vo_now _ Hok)) as Hx. unfold wp in Hx. apply wp_bind. unfold wp at 1.
  destruct (exec_action l a s) as [[[l' n] | er |] s1] eqn:E; simpl in Hx; destruct Hx as [-> Hx]; [| done | done].
  pose proof Hx as (Hg' & Hl' & -> & _).
  destruct (write_spec who l' (unvested (block_number s) l') s (vo_currency _ Hok) (unvested_balance _ _ Hg')
    ltac:(lia)) as (s' & Hrun & Hw). unfold wp. cbn [fst snd]. rewrite Hrun. cbn [fst snd]. eauto 6.
Qed.

Lemma acted_ok who l l' n s s' :
  vesting_ok s -> (length l <= MAX_VESTING_SCHEDULES)%nat -> acted l n s l' -> written who l' n s s' -> vesting_ok s'.
Proof. intros Hok Hlen (Hg & Hl & -> & _) Hw. eapply written_ok; [done | done | lia | done]. Qed.

Lemma covered_Some s who l :
  vesting_ok s -> vesting who s = Some l ->
  l <> [] /\ (length l <= MAX_VESTING_SCHEDULES)%nat /\ Forall good l /\ unvested (block_number s) l <= vlock who s.
Proof. intros Hok Hl. pose proof (vo_covered _ Hok who) as Hc. by rewrite Hl in Hc. Qed.

(** Without an action only the schedules that have ended go. *)
Lemma settle_spec who l s :
  vesting_ok s -> Forall good l -> (length l <= MAX_VESTING_SCHEDULES)%nat ->
  exists s', ('(schedules, locked_now) <- exec_action l Passive ;;
      do write_vesting who schedules ;; write_lock who locked_now) s = (Ok tt, s') /\
    written who (running (block_number s) l) (unvested (block_number s) l) s s' /\ vesting_ok s'.
Proof.
  intros Hok Hg Hlen. pose proof (perform_spec who l Passive s Hok Hg Hlen) as Hp. unfold wp in Hp.
  match type of Hp with context [fst (?m s)] => destruct (m s) as [[[] | er |] s'] end; [| by destruct Hp | done].
  destruct Hp as (l' & n & Ha & Hx & Hw). exists s'. split; [done |].
  simpl in Hx. rewrite report_spec in Hx by done. unfold pick_schedules in Hx. rewrite pick_passive in Hx.
  injection Hx as <- <-. split; [done |]. by eapply acted_ok.
Qed.

Lemma do_vest_spec who s :
  vesting_ok s ->
  wp (do_vest who) s (fun r s' =>
    match r with
    | Ok _ => exists l, vesting who s = Some l /\
        written who (running (block_number s) l) (unvested (block_number s) l) s s' /\ vesting_ok s'
    | Err er => s' = s /\ vesting who s = None /\ er = VError NotVesting
    | Panic => False
    end).
Proof.
  intros Hok. apply wp_bind, wp_gets, wp_bind, wp_ok_or; [| done]. intros l Hl.
  destruct (covered_Some _ _ _ Hok Hl) as (_ & Hlen & Hg & _).
  destruct (settle_spec who l s Hok Hg Hlen) as (s' & Hrun & Hw & Hok'). unfold wp. rewrite Hrun. by exists l.
Qed.

(** ** Adding a schedule *)

Definition schedules_of (who : AccountId) (s : VState) : list VestingInfo := default [] (vesting who s).

Lemma schedules_of_covered s who :
  vesting_ok s -> Forall good (schedules_of who s) /\ (length (schedules_of who s) <= MAX_VESTING_SCHEDULES)%nat.
Proof.
  intros Hok. unfold schedules_of. destruct (vesting who s) as [l |] eqn:Hl; simpl; [| split; [done | lia]].
  by destruct (covered_Some _ _ _ Hok Hl) as (_ & ? & ? & _).
Qed.

(** The schedule [v] is on record for [who], and the lock is what all of its schedules hold. *)
Definition recorded (who : AccountId) (v : VestingInfo) (s s' : VState) : Prop :=
  let l := schedules_of who s ++ [v] in
  written who (running (block_number s) l) (unvested (block_number s) l) s s' /\ vesting_ok s'.

Lemma written_after who l n s s1 s' :
  (forall w, vlock w s1 = vlock w s) -> VestingSchedules s1 = VestingSchedules s ->
  block_number s1 = block_number s -> written who l n s1 s' -> written who l n s s'.
Proof.
  intros Hv Hs Hb []. split; try done; [| by rewrite <- Hb]. intros w Hw. unfold vesting in *. rewrite <- Hs, <- Hv. auto.
Qed.

Lemma add_spec who v s :
  vesting_ok s -> schedule_wf v -> is_valid v = true ->
  (length (schedules_of who s) < MAX_VESTING_SCHEDULES)%nat ->
  exists s', add_vesting_schedule who (locked v) (raw_per_block v) (starting_block v) s = (Ok tt, s') /\
    recorded who v s s'.
Proof.
  intros Hok Hv Hval Hlen. destruct (schedules_of_covered s who Hok) as [Hg _].
  pose proof (good_locked v (Build_good _ Hv Hval)). unfold add_vesting_schedule. destruct v as [L R B]. simpl in *.
  rewrite (proj2 (Z.eqb_neq L 0)), Hval by lia. simpl. unfold bind at 1, gets. fold (schedules_of who s).
  unfold bind at 1. rewrite (proj2 (Nat.ltb_lt _ _)) by done. simpl. set (v := {| locked := L |}) in *.
  set (l := schedules_of who s ++ [v]).
  unfold bind at 1, deposit_vesting at 1, in_currency at 1, modify. set (ev := VestingCreated _ _).
  destruct (lp_event ev _ (vo_currency _ Hok)) as (Hi1 & Hl1 & Hb1).
  set (s1 := Build_VState (vh_deposit_event ev (vs_currency s)) (VestingSchedules s) (StorageVersion s)).
  pose proof (vo_now _ Hok) as Hn. unfold block_number in Hn.
  assert (Hok1 : vesting_ok s1) by (apply vesting_ok_later; [done | done | done | rewrite Hb1; lia]).
  assert (Hgl : Forall good l) by (apply Forall_app; split; [done | by constructor; [split |]]).
  assert (Hll : (length l <= MAX_VESTING_SCHEDULES)%nat) by (unfold l; rewrite length_app; simpl; lia).
  destruct (settle_spec who l s1 Hok1 Hgl Hll) as (s' & Hrun & Hw & Hok'). exists s'. split; [exact Hrun |].
  split; [| done]. assert (Hbn : block_number s1 = block_number s) by done. rewrite Hbn in Hw.
  by apply (written_after _ _ _ s s1).
Qed.

Lemma valid_per_block v : schedule_wf v -> is_valid v = true -> per_block v = raw_per_block v.
Proof. intros [_ [Hr _] _] Hv. unfold is_valid in Hv. bool_to_prop. unfold per_block. lia. Qed.

Lemma can_add_spec who v s :
  vesting_ok s ->
  wp (can_add_vesting_schedule who (locked v) (raw_per_block v) (starting_block v)) s (fun r s' =>
    s' = s /\
    match r with
    | Ok _ => is_valid v = true /\ (length (schedules_of who s) < MAX_VESTING_SCHEDULES)%nat
    | Err _ => is_valid v = false \/ length (schedules_of who s) = MAX_VESTING_SCHEDULES
    | Panic => False
    end).
Proof.
  intros Hok. destruct (schedules_of_covered s who Hok) as [_ Hlen]. unfold can_add_vesting_schedule. destruct v as [L R B].
  simpl. set (v := {| locked := L |}). destruct (is_valid v) eqn:Hv; simpl; [| split; [done | by left]].
  apply wp_bind, wp_gets. unfold schedules_count. fold (schedules_of who s).
  apply wp_ensure; intros Hc; bool_to_prop; rewrite Z.mod_small in Hc by lia; (split; [done |]); [split; [done | lia] |].
  right. lia.
Qed.

(** A vested transfer moves the funds and then cannot fail to put the schedule on record. *)
Lemma do_vested_transfer_spec source target v s :
  vesting_ok s -> schedule_wf v ->
  wp (do_vested_transfer source target v) s (fun r s' =>
    match r with
    | Ok _ => MinVestedTransfer <= locked v /\ exists c1,
        c_transfer source target (locked v) AllowDeath (vs_currency s) = (Ok tt, c1) /\
        recorded target v (Build_VState c1 (VestingSchedules s) (StorageVersion s)) s'
    | Err _ => True
    | Panic => False
    end).
Proof.
  intros Hok Hv. unfold do_vested_transfer. apply wp_bind, wp_ensure; intros Hmin; bool_to_prop; [| done].
  destruct (is_valid v) eqn:Hval; [| done]. simpl. rewrite (valid_per_block v Hv Hval).
  apply wp_bind. eapply wp_mono; [by apply can_add_spec |]. intros [[] | er |] s0 [-> Hadd]; [| done | done].
  destruct Hadd as [_ Hlen]. apply wp_bind, wp_in_currency.
  pose proof (lp_transfer source target (locked v) AllowDeath _ (vo_currency _ Hok) (sw_locked _ Hv)) as Ht.
  unfold wp in *. destruct (c_transfer _ _ _ _ _) as [[[] | er |] c1] eqn:Hrun; simpl in Ht |- *; [| done | done].
  destruct Ht as (Hi1 & Hl1 & Hb1). pose proof (vo_now _ Hok) as Hn. unfold block_number in Hn.
  set (s1 := Build_VState c1 _ _).
  assert (Hok1 : vesting_ok s1) by (apply vesting_ok_later; [done | done | done | rewrite Hb1; lia]).
  destruct (add_spec target v s1 Hok1 Hv Hval Hlen) as (s' & Hadd & Hrec).
  unfold bind, try. rewrite Hadd. simpl. eauto.
Qed.

(** ** The calls *)

Inductive VestingCall :=
  | CVest
  | CVestOther (target : MultiAddress)
  | CVestedTransfer (target : MultiAddress) (schedule : VestingInfo)
  | CForceVestedTransfer (source target : MultiAddress) (schedule : VestingInfo)
  | CMergeSchedules (schedule1_index schedule2_index : nat)
  | CForceRemoveVestingSchedule (target : MultiAddress) (schedule_index : nat).

Definition vesting_dispatch (c : VestingCall) (origin : RawOrigin) : M VState unit :=
  match c with
  | CVest => vest origin
  | CVestOther target => vest_other origin target
  | CVestedTransfer target schedule => vested_transfer origin target schedule
  | CForceVestedTransfer source target schedule => force_vested_transfer origin source target schedule
  | CMergeSchedules i j => merge_schedules origin i j
  | CForceRemoveVestingSchedule target i => force_remove_vesting_schedule origin target i
  end.

(** Arguments are values of their types. *)
Definition vesting_call_fits (c : VestingCall) : Prop :=
  match c with
  | CVestedTransfer _ v | CForceVestedTransfer _ _ v => schedule_wf v
  | _ => True
  end.

(** An operation on the schedules that are on record, by [action]. *)
Lemma perform_ok who a s :
  vesting_ok s ->
  wp (schedules <- gets (vesting who) ;; schedules <- ok_or schedules (VError NotVesting) ;;
      '(schedules, locked_now) <- exec_action schedules a ;;
      do write_vesting who schedules ;; write_lock who locked_now) s (fun r s' =>
    match r with Ok _ => vesting_ok s' | Err _ => True | Panic => False end).
Proof.
  intros Hok. apply wp_bind, wp_gets, wp_bind, wp_ok_or; [| done]. intros l Hl.
  destruct (covered_Some _ _ _ Hok Hl) as (_ & Hlen & Hg & _). eapply wp_mono; [by apply perform_spec |].
  intros [[] | er |] s'; [| done | done]. intros (l' & n & Ha & _ & Hw). by eapply acted_ok.
Qed.

Lemma vested_transfer_ok source target v s :
  vesting_ok s -> schedule_wf v ->
  wp (do_vested_transfer source target v) s (fun r s' =>
    match r with Ok _ => vesting_ok s' | Err _ => True | Panic => False end).
Proof.
  intros Hok Hv. eapply wp_mono; [by apply do_vested_transfer_spec |].
  intros [[] | er |] s'; [| done | done]. by intros (_ & c1 & _ & _ & ?).
Qed.

Lemma do_vest_ok who s :
  vesting_ok s -> wp (do_vest who) s (fun r s' => match r with Ok _ => vesting_ok s' | Err _ => True | Panic => False end).
Proof.
  intros Hok. eapply wp_mono; [by apply do_vest_spec |]. intros [[] | er |] s'; [| done | done]. by intros (? & _ & _ & ?).
Qed.

Lemma wp_vesting_call (m : M VState unit) s :
  wp m s (fun r s' => match r with Ok _ => vesting_ok s' | Err _ => True | Panic => False end) ->
  wp (with_storage_layer m) s (fun r s' =>
    match r with Ok _ => vesting_ok s' | Err _ => s' = s | Panic => False end).
Proof. intros Hm. apply wp_storage_layer. eapply wp_mono; [done |]. by intros [] s'. Qed.

Lemma vesting_dispatch_spec c o s :
  vesting_ok s -> vesting_call_fits c ->
  wp (vesting_dispatch c o) s (fun r s' =>
    match r with Ok _ => vesting_ok s' | Err _ => s' = s | Panic => False end).
Proof.
  intros Hok Hfit. destruct c as [| t | t v | f t v | i j | t i]; apply wp_vesting_call, wp_bind;
    (destruct o as [| w | |]; try done); apply wp_ret.
  - by apply do_vest_ok.
  - apply wp_bind. destruct t; try done. by apply wp_ret, do_vest_ok.
  - apply wp_bind. destruct t; try done. by apply wp_ret, vested_transfer_ok.
  - apply wp_bind. destruct t; try done. apply wp_ret, wp_bind. destruct f; try done. by apply wp_ret, vested_transfer_ok.
  - destruct (i =? j)%nat; [by apply wp_ret | by apply perform_ok].
  - apply wp_bind. destruct t; try done. apply wp_ret, wp_bind, wp_gets, wp_bind, wp_ensure; intros _; [| done].
    by apply perform_ok.
Qed.

(** C32. The lock covers what is unvested: any call of the pallet, from any origin, either succeeds and
    leaves for every account a bounded list of valid schedules whose unvested sum the account's lock
    covers (and no lock without schedules), or fails and leaves the storage as it was. It never
    panics, and the passing of blocks keeps the invariant too. *)
Theorem vesting_calls_covered c o s :
  vesting_ok s -> vesting_call_fits c ->
  match vesting_dispatch c o s with
  | (Ok _, s') => vesting_ok s' /\
      forall c', lp_inv c' -> (forall w, lp_locked w c' = vlock w s') ->
        block_number s' <= current_block_number c' <= u32_max ->
        vesting_ok (Build_VState c' (VestingSchedules s') (StorageVersion s'))
  | (Err _, s') => s' = s
  | (Panic, _) => False
  end.
Proof.
  intros Hok Hfit. pose proof (vesting_dispatch_spec c o s Hok Hfit) as Hs. unfold wp in Hs.
  destruct (vesting_dispatch c o s) as [[[] | er |] s']; [| done | done]. split; [done |]. intros. by apply vesting_ok_later.
Qed.

(** [vest] unlocks exactly what has vested: the lock becomes the sum that the schedules hold at the
    current block, never more than before, the schedules that have ended are removed, and the lock
    goes with the last of them; no other account is touched. Without schedules it fails with
    [NotVesting]. *)
Theorem vest_exact who s :
  vesting_ok s ->
  match vest (Signed who) s with
  | (Ok _, s') => exists l, vesting who s = Some l /\
      schedules_of who s' = running (block_number s) l /\
      vlock who s' = unvested (block_number s) l /\ vlock who s' <= vlock who s /\
      (vlock who s' = 0 <-> vesting who s' = None) /\
      (forall w, w <> who -> vesting w s' = vesting w s /\ vlock w s' = vlock w s)
  | (Err er, s') => s' = s /\ vesting who s = None /\ er = VError NotVesting
  | (Panic, _) => False
  end.
Proof.
  intros Hok. unfold vest. assert (Hs : wp (with_storage_layer (do_vest who)) s (fun r s' =>
    match r with
    | Ok _ => exists l, vesting who s = Some l /\
        written who (running (block_number s) l) (unvested (block_number s) l) s s' /\ vesting_ok s'
    | Err er => s' = s /\ vesting who s = None /\ er = VError NotVesting
    | Panic => False
    end)).
  { apply wp_storage_layer. eapply wp_mono; [by apply do_vest_spec |]. intros [[] | er |] s'; [done | | done]. naive_solver. }
  unfold wp in Hs. change (with_storage_layer _ s) with (with_storage_layer (do_vest who) s).
  destruct (with_storage_layer (do_vest who) s) as [[[] | er |] s']; [| done | done].
  destruct Hs as (l & Hl & [Hi Hsch Hk Ho Hb] & _). exists l. destruct (covered_Some _ _ _ Hok Hl) as (_ & _ & Hg & Hc).
  pose proof (unvested_zero (block_number s) _ (running_good (block_number s) _ Hg) (running_nonzero _ l)) as Hz.
  rewrite unvested_running in Hz. simpl in *. unfold schedules_of. rewrite Hk, Hsch.
  split_and!; try done; destruct (decide (running _ l = [])) as [E | E]; simpl; try done; naive_solver.
Qed.

(** A vested transfer is all or nothing: on success the currency has moved the whole amount and the
    schedule is on record (unless it holds nothing any more) with a lock of exactly what all of the
    target's schedules hold, although the code ignores the result of adding it; on failure the
    storage is as before. *)
Theorem vested_transfer_recorded who target v s :
  vesting_ok s -> schedule_wf v ->
  match vested_transfer (Signed who) (Id target) v s with
  | (Ok _, s') => is_valid v = true /\ MinVestedTransfer <= locked v /\
      let l := schedules_of target s ++ [v] in
      schedules_of target s' = running (block_number s) l /\ vlock target s' = unvested (block_number s) l /\
      exists c1, c_transfer who target (locked v) AllowDeath (vs_currency s) = (Ok tt, c1)
  | (Err _, s') => s' = s
  | (Panic, _) => False
  end.
Proof.
  intros Hok Hv. assert (Hval : fst (vested_transfer (Signed who) (Id target) v s) = Ok tt -> is_valid v = true).
  { unfold vested_transfer, with_storage_layer, do_vested_transfer, bind, ensure_signed, lookup_address, ret, fail, ensure.
    destruct (is_valid v); [done |]. by destruct (MinVestedTransfer <=? locked v). }
  pose proof (do_vested_transfer_spec who target v s Hok Hv) as Hs. unfold wp in Hs.
  change (vested_transfer (Signed who) (Id target) v s) with (with_storage_layer (do_vested_transfer who target v) s) in *.
  unfold with_storage_layer in *. destruct (do_vested_transfer who target v s) as [[[] | er |] s']; [| done | done].
  simpl in Hs. destruct Hs as (Hmin & c1 & Ht & [[Hi Hsch Hk Ho Hb] Hok']). simpl. split_and!; [by apply Hval | done | ..].
  all: pose proof (lp_transfer who target (locked v) AllowDeath _ (vo_currency _ Hok) (sw_locked _ Hv)) as Hlp;
    unfold wp in Hlp; rewrite Ht in Hlp; destruct Hlp as (_ & _ & Hbn); simpl in Hbn.
  all: assert (Hn : forall m n, block_number (Build_VState c1 m n) = block_number s) by (intros; exact Hbn).
  all: rewrite Hn in Hsch, Hk; change (schedules_of target (Build_VState c1 _ _)) with (schedules_of target s) in Hsch, Hk.
  - unfold schedules_of at 1. rewrite Hsch. destruct (decide _) as [E |]; [by rewrite E | done].
  - done.
  - eauto.
Qed.

(** ** Merging *)

Lemma merge_run i j l v1 v2 s :
  vesting_ok s -> Forall good l -> i <> j -> l !! i = Some v1 -> l !! j = Some v2 -> mergeable v1 v2 ->
  exists l', fst (exec_action l (Merge i j) s) = Ok (l', unvested (block_number s) l) /\
    forall n, block_number s <= n -> unvested n l <= unvested n l'.
Proof.
  intros Hok Hg Hij H1 H2 Hm. set (now := block_number s). pose proof (vo_now _ Hok) as Hn. fold now in Hn.
  assert (Hsum : forall w, list_sum w l = list_sum w (pick_schedules (Merge i j) l) + (w v1 + w v2)).
  { intros w. rewrite <- (pick_merge_sum w i j 0 l Hij). unfold weight_at. rewrite !Nat.sub_0_r, H1, H2. simpl.
    unfold pick_schedules. lia. }
  unfold exec_action, bind, gets. rewrite H1, H2. cbn [ok_or ret]. rewrite report_spec by done. fold now.
  set (p := pick_schedules (Merge i j) l) in *. assert (Hp : Forall good p) by by apply pick_good.
  pose proof (merge_cases now v1 v2 Hm Hn) as Hmc. pose proof (sum_nonneg now p Hp).
  destruct (merge_vesting_info now v1 v2) as [m |]; cbn [fst ret].
  - destruct Hmc as (Hw & Hnow & Hlater). exists (running now p ++ [m]). split.
    + do 2 f_equal. pose proof (locked_at_bounds m now Hw).
      unfold unvested, saturating_add. rewrite (Hsum (fun v => locked_at v now)). lia.
    + intros n Hle. specialize (Hlater n Hle). unfold unvested. rewrite list_sum_app, running_sum_later by done.
      rewrite (Hsum (fun v => locked_at v n)). simpl. lia.
  - destruct Hmc as [Hz1 Hz2]. exists (running now p). split.
    + do 2 f_equal. unfold unvested. rewrite (Hsum (fun v => locked_at v now)). f_equal. lia.
    + intros n Hle. unfold unvested. rewrite running_sum_later by done. rewrite (Hsum (fun v => locked_at v n)).
      destruct Hm as (Hv1 & Hv2 & _). pose proof (locked_at_antitone v1 now n Hv1 Hle).
      pose proof (locked_at_antitone v2 now n Hv2 Hle). lia.
Qed.

(** Merging two schedules of an account unlocks nothing: the call succeeds, the lock is what the
    schedules held before at this block, and at every later block the new list holds at least as
    much as the old one would. *)
Theorem merge_call_safe who i j l v1 v2 s :
  vesting_ok s -> vesting who s = Some l -> i <> j -> l !! i = Some v1 -> l !! j = Some v2 -> mergeable v1 v2 ->
  exists s', merge_schedules (Signed who) i j s = (Ok tt, s') /\ vesting_ok s' /\
    vlock who s' = unvested (block_number s) l /\
    forall n, block_number s <= n -> unvested n l <= unvested n (schedules_of who s').
Proof.
  intros Hok Hl Hij H1 H2 Hm. destruct (covered_Some _ _ _ Hok Hl) as (_ & Hlen & Hg & _).
  destruct (merge_run i j l v1 v2 s Hok Hg Hij H1 H2 Hm) as (l' & Hx & Hlater).
  pose proof (perform_spec who l (Merge i j) s Hok Hg Hlen) as Hp.
  unfold merge_schedules, with_storage_layer, bind at 1, ensure_signed, ret at 1.
  rewrite (proj2 (Nat.eqb_neq _ _)) by done. unfold bind at 1, gets at 1. rewrite Hl. unfold bind at 1, ok_or, ret at 1.
  unfold wp in Hp. match type of Hp with context [fst (?m s)] => destruct (m s) as [[[] | er |] s'] end; [| | done].
  - cbn [fst snd] in Hp. destruct Hp as (l2 & n & Ha & Hx' & Hw). rewrite Hx in Hx'. injection Hx' as <- <-. exists s'. split; [done |].
    split; [by eapply acted_ok |]. destruct Hw as [_ Hs Hk _ _]. split; [done |].
    unfold schedules_of. rewrite Hs. destruct (decide (l' = [])) as [-> |]; done.
  - destruct Hp as [_ [? | ?]]; congruence.
Qed.

(** ** Genesis *)

Abbreviation GenesisEntry := (AccountId * Z * Z * Z)%type.

Definition entry_account (e : GenesisEntry) : AccountId := fst (fst (fst e)).

(** The schedule of a genesis entry, from the account's balance. *)
Definition genesis_info (c : C) (e : GenesisEntry) : VestingInfo :=
  let '(who, begin, length_, liquid) := e in
  let locked := saturating_sub (c_free_balance who c) liquid in
  {| locked := locked; raw_per_block := locked / Z.max length_ 1; starting_block := begin |}.

Definition entry_fits (e : GenesisEntry) : Prop :=
  let '(_, begin, length_, liquid) := e in
  0 <= begin <= u32_max /\ 0 <= length_ <= u32_max /\ is_balance liquid.

Lemma genesis_info_wf c e : lp_inv c -> entry_fits e -> schedule_wf (genesis_info c e).
Proof.
  destruct e as [[[who begin] len] liquid]. intros Hi (Hb & Hlen & Hliq).
  pose proof (saturating_sub_bounded _ _ (lp_free who c Hi) Hliq) as Hl. unfold genesis_info. set (n := saturating_sub _ _) in *.
  split; simpl; [done | | done]. destruct Hl. split; [apply Z.div_pos; lia |].
  etrans; [| done]. apply Z.div_le_upper_bound; nia.
Qed.

(** The storage after the entries of [l]. *)
Record genesis_done (c : C) (l : list GenesisEntry) (s s' : VState) : Prop := {
  gn_ok : vesting_ok s';
  gn_entries : forall e, e ∈ l -> vesting (entry_account e) s' = Some [genesis_info c e] /\
    vlock (entry_account e) s' = locked (genesis_info c e);
  gn_others : forall w, w ∉ entry_account <$> l -> vesting w s' = vesting w s /\ vlock w s' = vlock w s;
}.

Lemma genesis_step_run e s :
  vesting_ok s -> entry_fits e -> vesting (entry_account e) s = None -> (0 < MAX_VESTING_SCHEDULES)%nat ->
  let v := genesis_info (vs_currency s) e in
  vesting_genesis_step e s =
  if is_valid v then
    in_currency (lc_set_lock VESTING_ID (entry_account e) (locked v) lock_reasons_of)
      (Build_VState (vs_currency s) (<[entry_account e := [v]]> (VestingSchedules s)) (StorageVersion s))
  else (Panic, s).
Proof.
  intros Hok Hfit Hnone Hmax v. destruct e as [[[who begin] len] liquid]. unfold entry_account in *. simpl in Hnone |- *.
  destruct Hfit as (_ & _ & [Hliq _]). pose proof (lp_free who _ (vo_currency _ Hok)) as [Hf0 _].
  unfold bind at 1, gets at 1. cbn beta iota. unfold convert. set (f := c_free_balance who (vs_currency s)) in *.
  change {| locked := saturating_sub f liquid; raw_per_block := _; starting_block := begin |} with v.
  change (saturating_sub f liquid) with (locked v).
  destruct (is_valid v) eqn:Hval; unfold bind at 1; destruct (Z.eqb_spec f 0) as [E | E]; simpl.
  - exfalso. unfold is_valid, v, genesis_info, saturating_sub in Hval. simpl in Hval. fold f in Hval. rewrite E in Hval.
    bool_to_prop. lia.
  - unfold bind. simpl. rewrite Hnone. simpl. by rewrite (proj2 (Nat.ltb_lt _ _)).
  - done.
  - done.
Qed.

Lemma genesis_step_spec e s :
  vesting_ok s -> entry_fits e -> vesting (entry_account e) s = None -> (0 < MAX_VESTING_SCHEDULES)%nat ->
  let v := genesis_info (vs_currency s) e in
  if is_valid v then
    exists s', vesting_genesis_step e s = (Ok tt, s') /\ vesting_ok s' /\ vesting (entry_account e) s' = Some [v] /\
      vlock (entry_account e) s' = locked v /\
      (forall w, c_free_balance w (vs_currency s') = c_free_balance w (vs_currency s)) /\
      (forall w, w <> entry_account e -> vesting w s' = vesting w s /\ vlock w s' = vlock w s)
  else fst (vesting_genesis_step e s) = Panic.
Proof.
  intros Hok Hfit Hnone Hmax v. pose proof (genesis_info_wf _ e (vo_currency _ Hok) Hfit) as Hw. fold v in Hw.
  pose proof (genesis_step_run e s Hok Hfit Hnone Hmax) as Hrun. cbv zeta in Hrun. fold v in Hrun.
  destruct (is_valid v) eqn:Hval; rewrite Hrun; [| done].
  pose proof (good_locked v (Build_good _ Hw Hval)) as Hpos. set (who := entry_account e) in *. unfold in_currency. simpl.
  destruct (lp_set who (locked v) lock_reasons_of _ (vo_currency _ Hok) (sw_locked _ Hw) ltac:(lia) Hreasons)
    as (c1 & -> & Hi1 & Hl & Ho & Hb & Hfr).
  eexists. split; [done |]. unfold vlock, vesting; simpl. rewrite lookup_insert_eq.
  assert (Hcov : unvested (block_number s) [v] <= locked v).
  { unfold unvested. simpl. pose proof (locked_at_bounds v (block_number s) Hw). lia. }
  split_and!; try done.
  - destruct Hok as [_ Hn Hc]. split; unfold block_number; simpl; [done | by rewrite Hb |]. rewrite Hb. intros w.
    unfold vlock, vesting in *. simpl. destruct (decide (w = who)) as [-> | Hne].
    + rewrite lookup_insert_eq, Hl. simpl. split_and!; [done | lia | by constructor; [split |] | done].
    + rewrite lookup_insert_ne by done. rewrite Ho by done. apply Hc.
  - intros w Hne. rewrite lookup_insert_ne by done. auto.
Qed.

Lemma genesis_steps l c s :
  vesting_ok s -> (forall w, c_free_balance w (vs_currency s) = c_free_balance w c) ->
  Forall entry_fits l -> NoDup (entry_account <$> l) -> (forall e, e ∈ l -> vesting (entry_account e) s = None) ->
  (0 < MAX_VESTING_SCHEDULES)%nat ->
  if forallb (fun e => is_valid (genesis_info c e)) l then
    exists s', for_each l vesting_genesis_step s = (Ok tt, s') /\ genesis_done c l s s'
  else fst (for_each l vesting_genesis_step s) = Panic.
Proof.
  intros Hok Hfree Hfit Hnd Hnone Hmax. revert s Hok Hfree Hnone.
  induction l as [| e l IH]; intros s Hok Hfree Hnone; simpl.
  { exists s. split; [done |]. split; [done | by intros e ?%elem_of_nil | done]. }
  apply Forall_cons in Hfit as [He Hfit]. apply NoDup_cons in Hnd as [Hni Hnd].
  pose proof (genesis_step_spec e s Hok He (Hnone e ltac:(left)) Hmax) as Hstep. cbv zeta in Hstep.
  assert (Hinfo : forall e, genesis_info (vs_currency s) e = genesis_info c e).
  { intros [[[who b] len] liq]. unfold genesis_info. by rewrite Hfree. }
  rewrite Hinfo in Hstep. unfold bind. destruct (is_valid (genesis_info c e)); simpl.
  2: { destruct (vesting_genesis_step e s) as [r s1]. simpl in Hstep. by subst r. }
  destruct Hstep as (s1 & -> & Hok1 & Hv1 & Hk1 & Hf1 & Ho1).
  assert (Hn1 : forall e', e' ∈ l -> vesting (entry_account e') s1 = None).
  { intros e' He'. assert (Hne : entry_account e' <> entry_account e).
    { intros E. apply Hni. rewrite <- E. by apply list_elem_of_fmap_2. }
    rewrite (proj1 (Ho1 _ Hne)). apply Hnone. by right. }
  specialize (IH Hfit Hnd s1 Hok1 ltac:(intros w; by rewrite Hf1) Hn1).
  destruct (forallb _ l); [| done]. destruct IH as (s' & Hrun & [Hok' Hent Hoth]). exists s'. split; [done |].
  split; [done | |].
  - intros e' [-> | He']%elem_of_cons; [| by apply Hent]. destruct (Hoth _ Hni) as [-> ->]. done.
  - intros w Hw. rewrite fmap_cons, not_elem_of_cons in Hw. destruct Hw as [Hwe Hw].
    destruct (Hoth _ Hw) as [-> ->]. by apply Ho1.
Qed.

(** Genesis establishes the coverage when no account is listed twice: the build succeeds exactly when
    every listed account has a valid schedule (it panics otherwise), every listed account then has its
    one schedule and a lock of the amount, and no other account has either. *)
Theorem vesting_genesis_covers l c :
  lp_inv c -> 0 <= current_block_number c <= u32_max -> (forall w, lp_locked w c = 0) ->
  Forall entry_fits l -> NoDup (entry_account <$> l) -> (0 < MAX_VESTING_SCHEDULES)%nat ->
  let s := Build_VState c ∅ V0 in
  if forallb (fun e => is_valid (genesis_info c e)) l then
    exists s', vesting_genesis_build l s = (Ok tt, s') /\ vesting_ok s' /\
      (forall e, e ∈ l -> vesting (entry_account e) s' = Some [genesis_info c e] /\
         vlock (entry_account e) s' = locked (genesis_info c e)) /\
      (forall w, w ∉ entry_account <$> l -> vesting w s' = None /\ vlock w s' = 0)
  else fst (vesting_genesis_build l s) = Panic.
Proof.
  intros Hi Hn Hz Hfit Hnd Hmax s. set (s1 := Build_VState c ∅ V1).
  assert (Hok : vesting_ok s1) by (split; [done | done |]; intros w; exact (Hz w)).
  pose proof (genesis_steps l c s1 Hok ltac:(done) Hfit Hnd ltac:(done) Hmax) as Hg.
  change (vesting_genesis_build l s) with (for_each l vesting_genesis_step s1).
  destruct (forallb _ l); [| done]. destruct Hg as (s' & Hrun & [Hok' He Ho]). exists s'. split_and!; try done.
  intros w Hw. destruct (Ho w Hw) as [-> ->]. split; [done | apply Hz].
Qed.
End pallet.
