(* ===== verification/AccountFacts.v ===== *)
(** * The account mutation

    The one routine through which every balance changes, [try_mutate_account], implements the
    account-local specification of [AccountWf]: the error of [commit_error] and the entry of
    [commit_entry]. *)

From stdpp Require Import base tactics numbers list gmap.
From S2P Require Import Prelude Dispatch System Tokens Fungible Balances BalancesFungible BalancesCurrency.
From S2P Require Import AccountSpec AccountWf Ledger.
Local Open Scope Z_scope.

Section mutation.
Context `{Config}.

(** C8. [mutate_account] refines the account-local specification: for any bounded change [g] of
    the balances it fails exactly with the error that the reference counters call for, leaving
    balances and issuance alone; otherwise the entry becomes the specified one (counters
    adjusted, dust cut off and reported, an account nobody provides for removed). No other
    account changes, all accounts stay well-formed, and it never panics. *)
Theorem mutate_account_refines who (g : AccountData -> AccountData) s :
  wf s -> (forall d, data_bounded d -> data_bounded (g d)) ->
  exists e1, upgraded (accts s !! who) e1 /\
  let a' := g (edata e1) in
  match mutate_account who (fun a => ret (tt, g a)) s with
  | (Ok (_, dust), s') => commit_error (einfo e1) a' = None /\ dust = dust_of a' /\
      upd who (commit_entry (einfo e1) a') s s' /\ wf s'
  | (Err er, s') => commit_error (einfo e1) a' = Some er /\
      (exists e', upd who e' s s') /\ balances_eq (account who s) (account who s') /\ wf s'
  | (Panic, _) => False
  end.
Proof.
  intros Hw Hg. destruct (ensure_upgraded_upd who s Hw) as (b & e1 & s1 & Hrun & Hu & Hup).
  exists e1. split; [done |]. pose proof (up_wf _ _ Hup) as [Hb _ _ _ _ _ _ _ _].
  change (ai_data (einfo e1)) with (edata e1) in Hb. intros a'.
  assert (Hm : mutate_account who (fun a => ret (tt, g a)) s =
    commit who (is_new_entry e1) (edata e1) tt a' s1).
  { unfold mutate_account. rewrite try_mutate_account_run. unfold bind. rewrite Hrun. cbn zeta.
    by rewrite (upd_lookup _ _ _ _ Hu). }
  rewrite Hm. pose proof (wp_commit who (is_new_entry e1) s e1 s1 tt a') as Hc. unfold wp in Hc.
  destruct (commit who (is_new_entry e1) (edata e1) tt a' s1) as [r s']. cbn [fst snd] in Hc.
  apply (Hc (fun r s' => match r with
    | Ok (_, dust) => commit_error (einfo e1) a' = None /\ dust = dust_of a' /\
        upd who (commit_entry (einfo e1) a') s s' /\ wf s'
    | Err er => commit_error (einfo e1) a' = Some er /\
        (exists e', upd who e' s s') /\ balances_eq (account who s) (account who s') /\ wf s'
    | Panic => False end)); [done | done | done | by apply Hg |].
  unfold commits. destruct (commit_error (einfo e1) a') as [er |].
  - intros e' s2 _ Hu' Hw' Hbal. eauto.
  - intros s2 Hu' Hw' _. by split_and!.
Qed.
End mutation.

Section witness.
#[local] Existing Instance sample_config.

Lemma mutate_account_refines_witness :
  exists e1, upgraded (accts sample_state !! 1%N) e1.
Proof.
  assert (Hok : ledger_ok sample_state) by sample_ledger.
  destruct (mutate_account_refines 1 (fun d => with_frozen d 0) sample_state (lo_wf _ Hok)) as (e1 & Hup & _).
  - intros d [Hf Hr _]. split; [exact Hf | exact Hr | split; [exact (Z.le_refl 0) | exact (Z.lt_le_incl _ _ max_value_pos)]].
  - exists e1. exact Hup.
Defined.
End witness.
