(* ===== verification/FungibleFacts.v ===== *)
(** * Facts about the fungible interface of the balances pallet

    Each operation of [Fungible], run on the pallet's storage: what it does to the
    account, to the issuance and to the gap between issuance and balances, on every
    branch. *)

From stdpp Require Import base tactics numbers list gmap.
From S2P Require Import Prelude Dispatch System Tokens Fungible Balances BalancesFungible BalancesCurrency.
From S2P Require Import AccountSpec AccountWf Ledger.
Local Open Scope Z_scope.

Section regular.
Context `{Config}.

(** ** Setting the free balance *)

(** What is lost as dust when the free balance of [d] becomes [n]. *)
Definition dust_left (d : AccountData) (n : Z) : Z :=
  if (n <? ed) && (reserved d =? 0) then n else 0.

(** The free balance of [who] has become [n], less the dust. *)
Record set_free (who : AccountId) (n : Z) (s s' : State) : Prop := {
  sf_free : free (account who s') = n - dust_left (account who s) n;
  sf_reserved : reserved (account who s') = reserved (account who s);
  sf_frozen : frozen (account who s') =
    if (n <? ed) && (reserved (account who s) =? 0) then 0 else frozen (account who s);
}.

Lemma dust_amount_with_free d d1 n :
  balances_eq d d1 -> dust_amount (with_free d1 n) = dust_left d n.
Proof.
  intros (_ & Hr & _). unfold dust_amount, dust_of, dust_left; simpl. rewrite Hr.
  destruct (n <? ed), (reserved d =? 0), (n =? 0) eqn:E; simpl; bool_to_prop; lia.
Qed.

Lemma set_free_settled who n s s' d1 :
  balances_eq (account who s) d1 -> account who s' = settled (with_free d1 n) ->
  set_free who n s s'.
Proof.
  intros Hb Ha. destruct Hb as (Hf & Hr & Hz).
  unfold settled in Ha. simpl in Ha. rewrite Hr in Ha. unfold dust_left in *.
  split; rewrite ?Ha; unfold dust_left.
  all: destruct (n <? ed), (reserved (account who s) =? 0) eqn:E; bool_to_prop; simpl in *; lia.
Qed.

Lemma commit_error_with_free e1 n :
  commit_error (einfo e1) (with_free (edata e1) n) =
  if (ed <=? free (edata e1)) && (n <? ed) && (ai_providers (einfo e1) =? 1)
     && (0 <? ai_consumers (einfo e1)) then Some ConsumerRemaining else None.
Proof.
  unfold commit_error, commit_consumers. change (ai_data (einfo e1)) with (edata e1).
  assert (Hc : consumes (with_free (edata e1) n) = consumes (edata e1)) by done. rewrite Hc.
  assert (Hp : negb (provides (with_free (edata e1) n)) = (n <? ed)).
  { unfold provides; simpl. by rewrite Z.leb_antisym, negb_involutive. }
  rewrite Hp. unfold provides at 1. by destruct (consumes (edata e1)).
Qed.

Lemma with_free_bounded d n : data_bounded d -> is_balance n -> data_bounded (with_free d n).
Proof. by intros [] ?. Qed.

Lemma upgraded_bounded e e1 : upgraded e e1 -> data_bounded (edata e1).
Proof. intros []. by apply up_wf. Qed.

(** [write_balance] followed by the treatment of its dust. *)
Lemma wp_write_dust {A} who n s (k : M State A) Q :
  wf s -> is_balance n -> 0 <= TotalIssuance s -> n <= TotalIssuance s \/ ed <= n ->
  saturating_sub (free (account who s)) n <= bal_reducible_balance who Expendable Force s ->
  (forall e1, upgraded (accts s !! who) e1 ->
     settles who s e1 tt (with_free (edata e1) n) (fun r s' =>
       match r with Ok _ => wp k s' Q | Err er => Q (Err er) s' | Panic => False end)) ->
  wp (maybe_dust <- write_balance who n ;; do handle_maybe_dust maybe_dust ;; k) s Q.
Proof.
  intros Hw Hn Hti0 Hti Hred Hk. apply wp_bind. simpl. unfold bal_write_balance, mutate_account.
  apply wp_bind, wp_gets, wp_bind, wp_try_mutate_account; [done |]. intros e1 s1 Hup Hu.
  pose proof (up_balances _ _ Hup) as (Hf & Hr & Hz). rewrite <- account_edata in Hf, Hr, Hz.
  rewrite Hf, (proj2 (Z.leb_le _ _)) by done. apply wp_ret.
  pose proof (with_free_bounded _ n (upgraded_bounded _ _ Hup) Hn) as Hb.
  split; [done |]. split; [done |].
  specialize (Hk e1 Hup). eapply settles_commits in Hk; [| done |].
  - unfold commits in *. destruct (commit_error _ _) as [er |]; [exact Hk |].
    intros s' Hu' Hw' Ha. apply wp_ret. apply wp_bind. unfold wp at 1.
    rewrite handle_maybe_dust_run. by apply Hk.
  - pose proof (dust_amount_bounds _ Hb) as [[_ Hd] Hd']. simpl in Hd.
    destruct Hti as [| Hge]; [lia |]. unfold dust_amount, dust_of; simpl.
    rewrite (proj2 (Z.ltb_ge _ _)) by done. done.
Qed.

(** ** Reducible balance *)

(** The condition under which the existential deposit stays. *)
Definition keeps_ed (who : AccountId) (p : Preservation) (s : State) : bool :=
  bool_decide (p = Preserve)
  || bool_decide (p = Protect) && negb (free (account who s) =? 0) && (providers who (sys s) =? 1)
  || bool_decide (p = Expendable) && negb (free (account who s) =? 0)
     && negb (can_dec_provider who (sys s)).

Definition untouchable (who : AccountId) (p : Preservation) (f : Fortitude) (s : State) : Z :=
  Z.max (if bool_decide (f = Polite)
         then Z.max 0 (frozen (account who s) - reserved (account who s)) else 0)
        (if keeps_ed who p s then ed else 0).

Lemma reducible_untouchable who p f s :
  bal_reducible_balance who p f s = Z.max 0 (free (account who s) - untouchable who p f s).
Proof.
  pose proof ed_pos. unfold bal_reducible_balance, untouchable, saturating_sub.
  change ExistentialDeposit with ed. fold (keeps_ed who p s).
  destruct (bool_decide (f = Polite)), (keeps_ed who p s); lia.
Qed.

Lemma reducible_le_free who p f s :
  wf s -> 0 <= bal_reducible_balance who p f s <= free (account who s).
Proof.
  intros Hw. destruct (wf_account s who Hw) as [[] _ _]. rewrite reducible_untouchable.
  pose proof ed_pos. unfold untouchable. destruct (bool_decide _), (keeps_ed _ _ _); lia.
Qed.

Lemma cannot_dec_provider who s :
  wf s -> can_dec_provider who (sys s) = false <->
  0 < ai_consumers (einfo (accts s !! who)) /\ ai_providers (einfo (accts s !! who)) = 1.
Proof.
  intros Hw. pose proof (Hw who) as [_ Hc _ _ Hcp _ _ _ _].
  unfold can_dec_provider. rewrite account_get_einfo, orb_false_iff, Z.eqb_neq, Z.ltb_ge. lia.
Qed.

Lemma keeps_ed_expendable who p s :
  wf s -> keeps_ed who Expendable s = true -> keeps_ed who p s = true.
Proof.
  intros Hw Hk. destruct p; [done | | done]. unfold keeps_ed in *. simpl in *.
  apply andb_true_iff in Hk as [Hf Hc].
  apply negb_true_iff, cannot_dec_provider in Hc as [_ Hp]; [| done].
  rewrite Hf. simpl. rewrite orb_false_r. unfold providers. rewrite account_get_einfo.
  by apply Z.eqb_eq.
Qed.

(** No preservation and fortitude frees more than [Expendable] with [Force]. *)
Lemma reducible_le_force who p f s :
  wf s -> bal_reducible_balance who p f s <= bal_reducible_balance who Expendable Force s.
Proof.
  intros Hw. rewrite !reducible_untouchable. unfold untouchable. simpl. pose proof ed_pos.
  pose proof (keeps_ed_expendable who p s Hw) as Hk.
  destruct (keeps_ed who Expendable s); [rewrite Hk by done |];
    destruct (bool_decide _), (keeps_ed who p s); lia.
Qed.

(** Within the reducible balance an upgraded account does not lose the provider
    its consumers need. *)
Lemma reducible_safe who p f s n e1 :
  wf s -> is_new_logic (flags (account who s)) = true -> upgraded (accts s !! who) e1 ->
  0 <= n <= bal_reducible_balance who p f s ->
  commit_error (einfo e1) (with_free (edata e1) (free (account who s) - n)) = None.
Proof.
  intros Hw Hnew Hup Hn. rewrite (up_same _ _ Hup Hnew), commit_error_with_free, <- account_edata.
  destruct (_ && _ && _ && _) eqn:E; bool_to_prop; [| done]. exfalso.
  assert (Hc : can_dec_provider who (sys s) = false) by (by apply cannot_dec_provider).
  pose proof ed_pos. rewrite reducible_untouchable in Hn. unfold untouchable in Hn.
  rewrite (keeps_ed_expendable who p s Hw) in Hn; [destruct (bool_decide _); lia |].
  unfold keeps_ed. rewrite Hc, (proj2 (Z.eqb_neq (free (account who s)) 0)); [done | lia].
Qed.

(** ** Decreasing *)

Definition decrease_amount (precision : Precision) (amount reducible : Z) : Z :=
  match precision with BestEffort => Z.min amount reducible | Exact => amount end.

Lemma balances_eq_refl d : balances_eq d d.
Proof. done. Qed.

(** An error that leaves every balance and the issuance as they were. *)
Record harmless (who : AccountId) (s s' : State) : Prop := {
  hl_step : acct_step who 0 s s';
  hl_balances : balances_eq (account who s) (account who s');
  hl_issuance : TotalIssuance s' = TotalIssuance s;
}.

Lemma harmless_refl who s : wf s -> harmless who s s.
Proof. intros Hw. split; [by apply acct_step_refl | done | done]. Qed.

(** An upgrade and events are harmless. *)
Lemma harmless_upgrade who e1 s s1 s2 :
  wf s -> upgraded (accts s !! who) e1 -> upd who e1 s s1 -> quiet s1 s2 -> harmless who s s2.
Proof.
  intros Hw Hup Hu Hq. pose proof (upd_quiet_r _ _ _ _ _ Hu Hq) as Hu2.
  pose proof (wf_upd _ _ _ _ Hw (up_wf _ _ Hup) Hu2) as Hw2.
  pose proof (up_balances _ _ Hup) as Hbal. rewrite <- account_edata in Hbal.
  split; [| by rewrite (account_upd _ _ _ _ Hu2) | apply Hu2].
  replace 0 with (holdings (account who s) - holdings (account who s2)); [by eapply acct_step_upd |].
  rewrite (account_upd _ _ _ _ Hu2). destruct Hbal as (? & ? & _). unfold holdings. lia.
Qed.

Lemma ledger_issuance_nonneg s : ledger_ok s -> 0 <= TotalIssuance s.
Proof. intros [Hw Hg _]. pose proof (supply_nonneg s Hw). unfold gap in Hg. lia. Qed.

Lemma free_le_issuance s who : ledger_ok s -> free (account who s) <= TotalIssuance s.
Proof.
  intros [Hw Hg _]. pose proof (holdings_le_supply s who Hw). unfold gap, holdings in *.
  destruct (wf_account s who Hw) as [_ [] _]. lia.
Qed.

(** The outcome of taking [n] from the free balance of [who]. *)
Definition decreased (who : AccountId) (n reducible : Z) (s : State) (r : Res Z) (s' : State) : Prop :=
  match r with
  | Ok x => x = n /\ n <= reducible /\ acct_step who n s s' /\
            set_free who (free (account who s) - n) s s' /\
            TotalIssuance s' = TotalIssuance s - dust_left (account who s) (free (account who s) - n)
  | Err er => harmless who s s' /\
              (er = Token FundsUnavailable /\ reducible < n \/
               er = ConsumerRemaining /\ is_new_logic (flags (account who s)) = false)
  | Panic => False
  end.

Lemma decrease_write who n p f s :
  ledger_ok s -> 0 <= n <= bal_reducible_balance who p f s ->
  let b := free (account who s) in
  wp (maybe_dust <- write_balance who (b - n) ;; do handle_maybe_dust maybe_dust ;;
      ret (saturating_sub b (b - n))) s
    (decreased who n (bal_reducible_balance who p f s) s).
Proof.
  intros Hok Hn b. pose proof (lo_wf _ Hok) as Hw. pose proof (wf_account s who Hw) as Hd.
  pose proof (reducible_le_free who p f s Hw). pose proof (reducible_le_force who p f s Hw).
  pose proof (free_le_issuance s who Hok). pose proof (free_bounded _ Hd) as Hfb.
  unfold b, is_balance in *. apply wp_write_dust; [done | unfold is_balance; lia | | lia | |].
  - by apply ledger_issuance_nonneg.
  - unfold saturating_sub. lia.
  - intros e1 Hup. pose proof (up_balances _ _ Hup) as Hbal. rewrite <- account_edata in Hbal.
    unfold settles.
    pose proof (fun Hnew => reducible_safe who p f s n e1 Hw Hnew Hup Hn) as Hsafe.
    rewrite commit_error_with_free in *.
    destruct (_ && _ && _ && _).
    + intros s' Hst Hba Hti. split; [done |]. right. split; [done |].
      destruct (is_new_logic _); [by specialize (Hsafe eq_refl) | done].
    + intros s' Hst _ Ha Hti. apply wp_ret. split; [unfold saturating_sub; lia |].
      rewrite (dust_amount_with_free _ _ _ Hbal) in Hti.
      split; [lia |]. split; [| split; [by eapply set_free_settled | done]].
      replace n with (holdings (account who s) - holdings (with_free (edata e1) (free (account who s) - n)));
        [done |]. destruct Hbal as (_ & Hr & _). unfold holdings; simpl. lia.
Qed.

Lemma decrease_balance_spec who amount precision p f s :
  ledger_ok s -> is_balance amount ->
  let reducible := bal_reducible_balance who p f s in
  wp (decrease_balance who amount precision p f) s
    (decreased who (decrease_amount precision amount reducible) reducible s).
Proof.
  intros Hok Ham reducible. pose proof (lo_wf _ Hok) as Hw. unfold is_balance in Ham.
  pose proof (reducible_le_free who p f s Hw) as Hred. fold reducible in Hred.
  unfold decrease_balance. apply wp_bind, wp_gets, wp_bind, wp_gets. simpl reducible_balance.
  simpl balance. unfold free_balance. fold reducible. set (n := decrease_amount _ _ _).
  apply wp_bind. destruct precision; simpl in n.
  - apply wp_bind, wp_ensure; intros E; bool_to_prop.
    + apply wp_ret, wp_bind, wp_ok_or; [intros b [-> _]%checked_sub_Some | intros ?%checked_sub_None; lia].
      apply decrease_write; [done | lia].
    + split; [by apply harmless_refl |]. left. split; [done | lia].
  - apply wp_ret, wp_bind, wp_ok_or; [intros b [-> _]%checked_sub_Some | intros ?%checked_sub_None; lia].
    apply decrease_write; [done | lia].
Qed.

(** ** Increasing *)

(** [x] has been added to the free balance of [who], from the gap. *)
Record credited (who : AccountId) (x : Z) (s s' : State) : Prop := {
  cr_step : acct_step who (- x) s s';
  cr_free : free (account who s') = free (account who s) + x;
  cr_reserved : reserved (account who s') = reserved (account who s);
  cr_frozen : frozen (account who s') = frozen (account who s);
  cr_issuance : TotalIssuance s' = TotalIssuance s;
}.

Lemma credited_refl who s : wf s -> credited who 0 s s.
Proof. intros. split; [by apply acct_step_refl | lia | done | done | done]. Qed.

Lemma increase_write who x s :
  wf s -> 0 <= TotalIssuance s -> 0 <= x -> ed <= free (account who s) + x <= max_value ->
  let n := free (account who s) + x in
  wp (maybe_dust <- write_balance who n ;; do handle_maybe_dust maybe_dust ;;
      ret (saturating_sub n (free (account who s)))) s
    (outcome (fun y s' => y = x /\ credited who x s s') (fun _ _ => False)).
Proof.
  intros Hw Hti Hx Hn n. pose proof (wf_account s who Hw) as [Hfb _ _]. pose proof ed_pos.
  pose proof (reducible_le_free who Expendable Force s Hw).
  unfold n, is_balance in *. apply wp_write_dust; [done | unfold is_balance; lia | done | lia | |].
  - unfold saturating_sub. lia.
  - intros e1 Hup. pose proof (up_balances _ _ Hup) as Hbal. rewrite <- account_edata in Hbal.
    unfold settles. rewrite commit_error_with_free, (proj2 (Z.ltb_ge _ _)), andb_false_r by lia. simpl.
    intros s' Hst _ Ha Ht. apply wp_ret. split; [unfold saturating_sub; lia |].
    destruct (set_free_settled who _ s s' _ Hbal Ha) as [Hsf Hsr Hsz].
    rewrite (dust_amount_with_free _ _ _ Hbal) in Ht.
    unfold dust_left in *. rewrite (proj2 (Z.ltb_ge _ _)) in * by lia. simpl in *.
    split; try done; try lia. destruct Hbal as (_ & Hr & _).
    replace (- x) with (holdings (account who s) - holdings (with_free (edata e1) (free (account who s) + x)));
      [done |]. unfold holdings; simpl. lia.
Qed.

Definition increase_amount (precision : Precision) (old amount : Z) : Z :=
  match precision with
  | Exact => amount
  | BestEffort => if saturating_add old amount <? ed then 0 else saturating_add old amount - old
  end.

Lemma increase_tail who x precision s :
  wf s -> 0 <= TotalIssuance s -> 0 <= x -> free (account who s) + x <= max_value ->
  let old := free (account who s) in
  wp (if old + x <? ExistentialDeposit then
        match precision with BestEffort => ret 0 | Exact => fail (Token BelowMinimum) end
      else if old + x =? old then ret 0
      else maybe_dust <- write_balance who (old + x) ;; do handle_maybe_dust maybe_dust ;;
           ret (saturating_sub (old + x) old)) s
    (outcome (fun y s' => y = (if old + x <? ed then 0 else x) /\
                          (old + x < ed -> precision = BestEffort) /\ credited who y s s')
       (fun er s' => s' = s /\ precision = Exact /\ er = Token BelowMinimum /\ old + x < ed)).
Proof.
  intros Hw Hti Hx Hn old. unfold old in *. change ExistentialDeposit with ed.
  destruct (_ <? ed) eqn:E; bool_to_prop.
  - destruct precision; simpl.
    + apply wp_fail. by split_and!.
    + apply wp_ret. split_and!; [done | done | by apply credited_refl].
  - destruct (_ =? _) eqn:E'; bool_to_prop.
    + apply wp_ret. assert (x = 0) as -> by lia. split_and!; [done | lia | by apply credited_refl].
    + eapply wp_mono; [by apply increase_write |].
      intros [y | er |] s'; simpl; [| done | done]. intros [-> ?]. split_and!; [done | lia | done].
Qed.

Lemma increase_balance_spec who amount precision s :
  wf s -> 0 <= TotalIssuance s -> is_balance amount ->
  let old := free (account who s) in
  wp (increase_balance who amount precision) s
    (outcome (fun x s' => x = increase_amount precision old amount /\
                (precision = Exact -> ed <= old + amount) /\ credited who x s s')
       (fun er s' => s' = s /\ precision = Exact /\
          (er = Arithmetic Overflow /\ max_value < old + amount \/
           er = Token BelowMinimum /\ old + amount < ed))).
Proof.
  intros Hw Hti Ham old. pose proof (wf_account s who Hw) as [Hfb _ _]. unfold is_balance in *.
  fold old in Hfb. unfold increase_balance. apply wp_bind, wp_gets. simpl balance. unfold free_balance.
  fold old. apply wp_bind. destruct precision; simpl.
  - apply wp_ok_or; [intros b [-> Hb]%checked_add_Some | intros Hb%checked_add_None].
    + eapply wp_mono; [apply (increase_tail who amount Exact); [done | done | lia | done] |].
      fold old. intros [y | er |] s'; simpl; [| | done].
      * intros (-> & Hlt & ?). destruct (_ <? ed) eqn:E; bool_to_prop; [by specialize (Hlt E) | done].
      * intros (-> & _ & -> & ?). auto.
    + split_and!; auto.
  - apply wp_ret. remember (saturating_add old amount - old) as x eqn:Hx.
    assert (Hs : saturating_add old amount = old + x) by lia. rewrite Hs.
    unfold saturating_add in Hx.
    eapply wp_mono; [apply (increase_tail who x BestEffort); [done | done | lia | fold old; lia] |].
    fold old. intros [y | er |] s'; simpl; [| by intros (_ & ? & _) | done].
    intros (-> & _ & ?). split_and!; [| done | done].
    destruct (_ <? ed); lia.
Qed.

(** ** Minting and burning *)

Lemma acct_step_ledger who g s s' :
  ledger_ok s -> acct_step who g s s' -> 0 <= gap s + g -> TotalIssuance s' <= max_value ->
  ledger_ok s'.
Proof. intros [] [Hw _ _ Hg] ? ?. split; [done | lia | done]. Qed.

(** Adding [n] to the issuance. *)
Lemma issuance_step who s n t :
  wf s -> t = TotalIssuance s + n -> acct_step who n s (set_TotalIssuance t s).
Proof.
  intros Hw ->. replace n with (TotalIssuance s + n - TotalIssuance s) at 1 by lia.
  by apply acct_step_issuance.
Qed.

(** The outcome of issuing [amount] to [who]. *)
Definition minted (who : AccountId) (amount : Z) (s : State) : Res Z -> State -> Prop :=
  outcome
    (fun x s' => x = amount /\ TotalIssuance s + amount <= max_value /\
       ed <= free (account who s) + amount /\ acct_step who 0 s s' /\ ledger_ok s' /\
       free (account who s') = free (account who s) + amount /\
       reserved (account who s') = reserved (account who s) /\
       frozen (account who s') = frozen (account who s) /\
       TotalIssuance s' = TotalIssuance s + amount)
    (fun er s' => s' = s /\
       (er = Arithmetic Overflow /\ max_value < TotalIssuance s + amount \/
        er = Token BelowMinimum /\ TotalIssuance s + amount <= max_value /\
        free (account who s) + amount < ed)).

(** The body shared by [mint_into] and [restore]. *)
Lemma mint_body_spec who amount ev s :
  ledger_ok s -> is_balance amount ->
  wp (issued <- gets TotalIssuance ;;
      do ok_or (checked_add issued amount) (Arithmetic Overflow) ;;
      actual <- increase_balance who amount Exact ;;
      do modify (fun s => set_TotalIssuance (saturating_add (TotalIssuance s) actual) s) ;;
      do modify (Balances.deposit ev) ;;
      ret actual) s (minted who amount s).
Proof.
  intros Hok Ham. pose proof (ledger_issuance_nonneg s Hok) as Hti.
  pose proof (lo_wf _ Hok) as Hw. pose proof (free_le_issuance s who Hok) as Hle.
  apply wp_bind, wp_gets, wp_bind.
  apply wp_ok_or; [intros t [_ Hmax]%checked_add_Some | intros Hmax%checked_add_None; simpl; auto].
  apply wp_bind. eapply wp_mono; [by apply (increase_balance_spec who amount Exact) |].
  intros [x | er |] s1; simpl; [| | done].
  - intros [-> [Hed [Hst Hf Hr Hz Ht]]]. apply wp_bind, wp_modify, wp_bind, wp_modify, wp_ret. simpl.
    rewrite !account_deposit. simpl.
    assert (Hs : saturating_add (TotalIssuance s1) amount = TotalIssuance s + amount)
      by (unfold saturating_add; lia). rewrite Hs.
    assert (Hstep : acct_step who 0 s
      (Balances.deposit ev (set_TotalIssuance (TotalIssuance s + amount) s1))).
    { apply acct_step_deposit. replace 0 with (- amount + amount) by lia.
      eapply acct_step_trans; [done |]. apply issuance_step; [apply Hst | lia]. }
    split_and!; try done; [auto |]. eapply acct_step_ledger; [done | done | | done].
    pose proof (lo_gap _ Hok). lia.
  - intros (-> & _ & [[-> ?] | [-> ?]]); split; auto. left. split; [done |]. lia.
Qed.

Lemma mint_into_spec who amount s :
  ledger_ok s -> is_balance amount -> wp (mint_into who amount) s (minted who amount s).
Proof. apply (mint_body_spec who amount (MintedEv who amount) s). Qed.

Lemma restore_spec who amount s :
  ledger_ok s -> is_balance amount -> wp (restore who amount) s (minted who amount s).
Proof. apply (mint_body_spec who amount (Restored who amount) s). Qed.

(** The outcome of burning [n] from the free balance of [who]. *)
Definition burned (who : AccountId) (n : Z) (s : State) (r : Res Z) (s' : State) : Prop :=
  match r with
  | Ok x => x = n /\ acct_step who 0 s s' /\ ledger_ok s' /\
            set_free who (free (account who s) - n) s s' /\
            TotalIssuance s' =
              TotalIssuance s - n - dust_left (account who s) (free (account who s) - n)
  | Err er => harmless who s s' /\ er = ConsumerRemaining /\
              is_new_logic (flags (account who s)) = false
  | Panic => False
  end.

Lemma dust_left_bounds d n : 0 <= n -> 0 <= dust_left d n <= n.
Proof. unfold dust_left. destruct (_ && _); lia. Qed.

(** The body shared by [burn_from] and [shelve], within the reducible balance. *)
Lemma burn_body_spec who n p f (ev : Z -> Event) s :
  ledger_ok s -> 0 <= n <= bal_reducible_balance who p f s ->
  wp (issued <- gets TotalIssuance ;;
      do ok_or (checked_sub issued n) (Arithmetic Overflow) ;;
      actual <- decrease_balance who n BestEffort p f ;;
      do modify (fun s => set_TotalIssuance (saturating_sub (TotalIssuance s) actual) s) ;;
      do modify (Balances.deposit (ev actual)) ;;
      ret actual) s (burned who n s).
Proof.
  intros Hok Hn. pose proof (lo_wf _ Hok) as Hw. pose proof (reducible_le_free who p f s Hw) as Hred.
  pose proof (free_le_issuance s who Hok) as Hle. pose proof (wf_account s who Hw) as [[] _ _].
  apply wp_bind, wp_gets, wp_bind.
  apply wp_ok_or; [intros t [_ Hmin]%checked_sub_Some | intros ?%checked_sub_None; lia].
  apply wp_bind.
  eapply wp_mono; [apply (decrease_balance_spec who n BestEffort p f s Hok); unfold is_balance; lia |].
  unfold decrease_amount. rewrite Z.min_l by lia.
  intros [x | er |] s1; simpl; [| | done].
  - intros (-> & _ & Hst & Hsf & Ht). apply wp_bind, wp_modify, wp_bind, wp_modify, wp_ret. simpl.
    pose proof (dust_left_bounds (account who s) (free (account who s) - n)).
    assert (Hs : saturating_sub (TotalIssuance s1) n = TotalIssuance s1 - n)
      by (unfold saturating_sub; lia). rewrite Hs.
    assert (Hstep : acct_step who 0 s
      (Balances.deposit (ev n) (set_TotalIssuance (TotalIssuance s1 - n) s1))).
    { apply acct_step_deposit. replace 0 with (n + - n) by lia.
      eapply acct_step_trans; [done |]. apply issuance_step; [apply Hst | lia]. }
    split_and!; try done; [| | lia].
    + eapply acct_step_ledger; [done | done | |]; pose proof (lo_gap _ Hok); pose proof (lo_max _ Hok);
        [lia |]. rewrite TotalIssuance_deposit. simpl. lia.
    + destruct Hsf as [Hf Hr Hz]. split; rewrite account_deposit; done.
  - intros [Hh [[_ ?] | ?]]; [lia | done].
Qed.

Lemma burn_from_spec who amount p precision f s :
  ledger_ok s -> is_balance amount ->
  let reducible := bal_reducible_balance who p f s in
  wp (burn_from who amount p precision f) s (fun r s' =>
    if (amount <=? reducible) || bool_decide (precision = BestEffort)
    then burned who (Z.min reducible amount) s r s'
    else r = Err (Token FundsUnavailable) /\ s' = s).
Proof.
  intros Hok Ham reducible. pose proof (reducible_le_free who p f s (lo_wf _ Hok)) as Hred.
  unfold is_balance in Ham. unfold burn_from. apply wp_bind, wp_gets, wp_bind. simpl reducible_balance.
  fold reducible in Hred |- *.
  assert (Hc : (Z.min reducible amount =? amount) = (amount <=? reducible)).
  { apply eq_true_iff_eq. rewrite Z.eqb_eq, Z.leb_le. lia. }
  rewrite Hc. apply wp_ensure; intros ->; [| done].
  apply (burn_body_spec who _ p f (Burned who)); [done | lia].
Qed.

Lemma shelve_spec who amount s :
  ledger_ok s -> is_balance amount ->
  let reducible := bal_reducible_balance who Expendable Polite s in
  wp (shelve who amount) s (fun r s' =>
    if amount <=? reducible then burned who amount s r s'
    else r = Err (Token FundsUnavailable) /\ s' = s).
Proof.
  intros Hok Ham reducible. pose proof (reducible_le_free who Expendable Polite s (lo_wf _ Hok)) as Hred.
  unfold is_balance in Ham. unfold shelve. apply wp_bind, wp_gets, wp_bind. simpl reducible_balance.
  fold reducible in Hred |- *. destruct (Z.leb_spec amount reducible).
  - rewrite Z.min_r by done. rewrite Z.eqb_refl. apply wp_ensure; [intros _ | done].
    apply (burn_body_spec who amount Expendable Polite (Suspended who)); [done | lia].
  - apply wp_ensure; [intros ?%Z.eqb_eq; lia | done].
Qed.
End regular.
