(* ===== verification/TransferFacts.v ===== *)
(** * Transfers, minting and burning

    The theorems on the regular operations of the [fungible] interface. *)

From stdpp Require Import base tactics numbers list gmap.
From S2P Require Import Prelude Dispatch System Tokens Fungible Balances BalancesFungible BalancesCurrency.
From S2P Require Import AccountSpec AccountWf Ledger FungibleFacts.
Local Open Scope Z_scope.

Section transfer.
Context `{Config}.

(** ** The checks *)

(** The consequences [into_result] accepts. *)
Definition withdraw_passes (c : WithdrawConsequence) (p : Preservation) : Prop :=
  c = WithdrawSuccess \/ (exists x, c = WithdrawReducedToZero x) /\ p = Expendable.

Lemma withdraw_into_result_spec c p (s : State) :
  wp (withdraw_into_result c (bool_decide (p <> Expendable))) s (fun r s' =>
    s' = s /\ match r with
              | Ok _ => withdraw_passes c p
              | Err _ => ~ withdraw_passes c p
              | Panic => False
              end).
Proof.
  unfold withdraw_passes. destruct c; unfold wp; simpl; try naive_solver.
  case_bool_decide as E; simpl; [naive_solver |].
  split; [done |]. right. split; [eauto |]. destruct p; naive_solver.
Qed.

Lemma deposit_into_result_spec c (s : State) :
  wp (deposit_into_result c) s (fun r s' =>
    s' = s /\ match r with
              | Ok _ => c = DepositSuccess
              | Err _ => c <> DepositSuccess
              | Panic => False
              end).
Proof. by destruct c. Qed.

(** A withdrawal that passes is within the reducible balance, and leaves the
    existential deposit unless it may kill the account. *)
Lemma can_withdraw_passes who amount p s :
  wf s -> 0 <= amount -> withdraw_passes (bal_can_withdraw who amount s) p ->
  amount <= bal_reducible_balance who p Polite s /\
  (p <> Expendable -> amount <> 0 -> ed <= free (account who s) - amount).
Proof.
  intros Hw Ham Hp. pose proof (reducible_le_free who p Polite s Hw).
  unfold bal_can_withdraw in Hp. destruct (Z.eqb_spec amount 0) as [-> | Hne]; [split; [lia | done] |].
  destruct (checked_sub (TotalIssuance s) amount); [| by destruct Hp as [| [[? ?] _]]].
  destruct (checked_sub (free _) amount) as [n |] eqn:Hn; [| by destruct Hp as [| [[? ?] _]]].
  apply checked_sub_Some in Hn as [-> Hle].
  destruct (Z.ltb_spec (bal_reducible_balance who Expendable Polite s) amount) as [| Hred];
    [by destruct Hp as [| [[? ?] _]] |].
  change ExistentialDeposit with ed in *. pose proof ed_pos.
  destruct (Z.ltb_spec (free (account who s) - amount) ed) as [Hlt | Hge]; simpl in Hp.
  - assert (p = Expendable) as ->; [| done].
    destruct Hp as [Hp | [_ Hp]]; [| done].
    destruct (negb _); [done |]. by destruct (_ <? frozen _).
  - split; [| done]. rewrite reducible_untouchable in *. unfold untouchable in *. simpl in *.
    destruct (keeps_ed who p s), (keeps_ed who Expendable s); lia.
Qed.

Lemma can_deposit_success who amount pr s :
  wf s -> 0 <= amount -> bal_can_deposit who amount pr s = DepositSuccess ->
  amount = 0 \/ ed <= free (account who s) + amount <= max_value.
Proof.
  intros Hw Ham. unfold bal_can_deposit. destruct (Z.eqb_spec amount 0) as [-> | Hne]; [by left |].
  destruct (_ && _); [done |].
  destruct (checked_add (free _) amount) as [n |] eqn:Hn; [| done].
  apply checked_add_Some in Hn as [-> Hle]. change ExistentialDeposit with ed.
  destruct (Z.ltb_spec (free (account who s) + amount) ed); [done |]. intros _. right. lia.
Qed.

(** ** The transfer *)

(** [amount] has gone from [source] to [dest]. *)
Record transferred (source dest : AccountId) (amount : Z) (s s' : State) : Prop := {
  tr_ledger : ledger_ok s';
  tr_gap : gap s' = gap s;
  tr_lists : same_lists s s';
  tr_others : forall w, w <> source -> w <> dest -> accts s' !! w = accts s !! w;
  tr_self : source = dest -> s' = s;
  tr_source : source <> dest -> set_free source (free (account source s) - amount) s s';
  tr_dest : source <> dest -> balances_eq
    (with_free (account dest s) (free (account dest s) + amount)) (account dest s');
  tr_issuance : source <> dest -> TotalIssuance s' =
    TotalIssuance s - dust_left (account source s) (free (account source s) - amount);
}.

Lemma transferred_self who amount s : ledger_ok s -> transferred who who amount s s.
Proof. intros. by split. Qed.

(** The two halves of a transfer, once the checks have passed. *)
Lemma transfer_moves source dest amount p s :
  ledger_ok s -> is_balance amount -> source <> dest ->
  amount <= bal_reducible_balance source p Polite s ->
  amount = 0 \/ ed <= free (account dest s) + amount <= max_value ->
  wp (do decrease_balance source amount BestEffort p Polite ;;
      do try (increase_balance dest amount BestEffort) ;;
      do modify (done_transfer source dest amount) ;;
      ret amount) s (fun r s' =>
    match r with
    | Ok n => n = amount /\ transferred source dest amount s s'
    | Err er => harmless source s s' /\ er = ConsumerRemaining /\
                is_new_logic (flags (account source s)) = false
    | Panic => False
    end).
Proof.
  intros Hok Ham Hne Hred Hdep. apply wp_bind.
  eapply wp_mono; [by apply decrease_balance_spec |]. unfold decrease_amount.
  rewrite Z.min_l by done. intros [x | er |] s1; simpl; [| | done].
  2: { intros [Hh [[_ ?] | ?]]; [lia | done]. }
  intros (-> & _ & Hst & Hsf & Ht). pose proof (acct_step_account _ _ _ _ dest Hst) as Hd.
  specialize (Hd ltac:(done)). unfold is_balance in Ham.
  assert (Hle : amount <= free (account source s)).
  { pose proof (reducible_le_free source p Polite s (lo_wf _ Hok)). lia. }
  pose proof (dust_left_bounds (account source s) (free (account source s) - amount)) as Hdl.
  pose proof (free_le_issuance s source Hok). pose proof (lo_gap _ Hok).
  apply wp_bind, wp_try. eapply wp_mono; [apply (increase_balance_spec dest amount BestEffort s1) |].
  { apply Hst. } { lia. } { done. }
  rewrite Hd. intros [y | er |] s2; simpl; [| by intros (_ & ? & _) | done].
  assert (Hinc : (if saturating_add (free (account dest s)) amount <? ed then 0
                  else saturating_add (free (account dest s)) amount - free (account dest s)) = amount).
  { pose proof (wf_account s dest (lo_wf _ Hok)) as [[] _ _]. unfold saturating_add.
    destruct (Z.ltb_spec (Z.min max_value (free (account dest s) + amount)) ed); lia. }
  rewrite Hinc. intros [-> [_ [Hcr Hcf Hcres Hcz Hct]]]. apply wp_bind, wp_modify, wp_ret.
  split; [done |]. simpl. apply (acct_step_deposit _ _ _ _ (Transfer source dest amount)) in Hcr.
  set (s3 := Balances.deposit _ s2) in *.
  assert (Hs3 : forall w, account w s3 = account w s2) by (intros; apply account_deposit).
  assert (Hgap : gap s3 = gap s) by (rewrite (as_gap _ _ _ _ Hcr), (as_gap _ _ _ _ Hst); lia).
  assert (Hti : TotalIssuance s3 = TotalIssuance s1) by done.
  pose proof (acct_step_account _ _ _ _ source Hcr Hne) as Hsrc. pose proof (lo_max _ Hok).
  split; try done.
  - split; [apply Hcr | lia | lia].
  - etrans; [apply Hst | apply Hcr].
  - intros w Hw1 Hw2. rewrite (as_others _ _ _ _ Hcr), (as_others _ _ _ _ Hst); done.
  - intros _. destruct Hsf. by split; rewrite Hsrc.
  - intros _. rewrite Hs3. rewrite Hd in *. unfold balances_eq; simpl. lia.
  - intros _. lia.
Qed.

(** The checks a transfer makes before it moves anything. *)
Definition transfer_checks (source dest : AccountId) (amount : Z) (p : Preservation) (s : State) : Prop :=
  withdraw_passes (bal_can_withdraw source amount s) p /\
  bal_can_deposit dest amount Extant s = DepositSuccess.

(** Every branch of [transfer]: it moves [amount] only when the checks passed, and
    when they passed it fails only for a source that still has to be upgraded. *)
Lemma transfer_spec source dest amount p s :
  ledger_ok s -> is_balance amount ->
  wp (transfer source dest amount p) s (fun r s' =>
    match r with
    | Ok n => n = amount /\ transferred source dest amount s s' /\ transfer_checks source dest amount p s
    | Err er => harmless source s s' /\
                (~ transfer_checks source dest amount p s \/
                 er = ConsumerRemaining /\ is_new_logic (flags (account source s)) = false)
    | Panic => False
    end).
Proof.
  intros Hok Ham. pose proof (lo_wf _ Hok) as Hw. unfold transfer, transfer_checks. simpl.
  apply wp_bind, wp_gets, wp_bind. eapply wp_mono; [apply withdraw_into_result_spec |].
  intros [z | er |] s1 [-> Hwd]; [| | done].
  2: { split; [by apply harmless_refl |]. left. tauto. }
  apply wp_bind, wp_gets, wp_bind. eapply wp_mono; [apply deposit_into_result_spec |].
  intros [[] | er |] s1 [-> Hde]; [| | done].
  2: { split; [by apply harmless_refl |]. left. tauto. }
  destruct (N.eqb_spec source dest) as [-> | Hne].
  - apply wp_ret. split_and!; [done | by apply transferred_self | done | done].
  - destruct Ham as [Ham1 Ham2].
    destruct (can_withdraw_passes _ _ _ _ Hw Ham1 Hwd) as [Hred _].
    eapply wp_mono; [apply transfer_moves; try done; by eapply can_deposit_success |].
    intros [n | er |] s'; [| | done].
    + intros [-> Ht]. by split_and!.
    + intros (Hh & -> & Hf). auto.
Qed.

(** The checks of a positive transfer between two accounts, in terms of balances. *)
Lemma transfer_checks_iff source dest amount p s :
  ledger_ok s -> 0 < amount -> source <> dest ->
  transfer_checks source dest amount p s <->
  amount <= bal_reducible_balance source p Polite s /\ (p = Protect -> ed <= free (account source s) - amount) /\
  ed <= free (account dest s) + amount.
Proof.
  intros Hok Ham Hne. pose proof (lo_wf _ Hok) as Hw. unfold transfer_checks.
  split.
  { intros [Hwd Hde]. apply can_withdraw_passes in Hwd as [Hred Hkeep]; [| done | lia].
    apply can_deposit_success in Hde; [| done | lia]. split; [lia |]. split; [| lia].
    intros ->. apply Hkeep; [done | lia]. }
  intros (Hred & Hprot & Hed). pose proof (reducible_le_free source p Polite s Hw) as Hfree.
  pose proof (holdings2_le_supply s source dest Hw Hne) as Hsum.
  pose proof (lo_gap _ Hok) as Hgap. pose proof (lo_max _ Hok) as Hmax. unfold holdings, gap in *.
  pose proof (wf_account s source Hw) as [[] [] []]. pose proof (wf_account s dest Hw) as [[] [] []].
  assert (Hpe : untouchable source Expendable Polite s <= untouchable source p Polite s).
  { unfold untouchable. pose proof (keeps_ed_expendable source p s Hw) as Hk. pose proof ed_pos.
    destruct (keeps_ed source Expendable s); [rewrite Hk by done; lia |].
    destruct (keeps_ed source p s); lia. }
  split.
  - unfold bal_can_withdraw. rewrite (proj2 (Z.eqb_neq _ _)) by lia.
    rewrite (proj2 (checked_sub_Some _ _ _)) by (split; [reflexivity | lia]).
    rewrite (proj2 (checked_sub_Some (free _) _ _)) by (split; [reflexivity | lia]).
    rewrite !reducible_untouchable in *.
    rewrite (proj2 (Z.ltb_ge _ _)) by lia. change ExistentialDeposit with ed.
    assert (Hfro : frozen (account source s) <= saturating_add (free (account source s) - amount)
      (reserved (account source s))).
    { unfold saturating_add, untouchable in *. simpl in *. lia. }
    rewrite (proj2 (Z.ltb_ge _ (frozen _))) by done.
    destruct (Z.ltb_spec (free (account source s) - amount) ed) as [Hlt |]; simpl; [| by left].
    unfold untouchable in Hred. unfold keeps_ed in Hred.
    destruct p; simpl in Hred; [| specialize (Hprot eq_refl); lia | lia].
    rewrite (proj2 (Z.eqb_neq (free _) 0)) in Hred by lia. simpl in Hred.
    destruct (can_dec_provider source (st_sys s)); simpl in *; [right; eauto | lia].
  - unfold bal_can_deposit. rewrite (proj2 (Z.eqb_neq _ _)) by lia. simpl.
    rewrite (proj2 (checked_add_Some _ _ _)) by (split; [reflexivity | lia]).
    change ExistentialDeposit with ed. rewrite (proj2 (Z.ltb_ge _ _)) by lia.
    rewrite (proj2 (checked_add_Some _ _ _)) by (split; [reflexivity | lia]). done.
Qed.

(** C1. A transfer that returns has moved exactly [amount]: the destination gains it,
    the source loses it (and its dust, by which alone the issuance drops), every
    other account, every lock, reserve, hold and freeze and the gap between
    issuance and balances are unchanged, and the ledger's invariant holds again.
    What was frozen of the source is still covered, and unless the transfer was
    [Expendable] the source keeps the existential deposit. *)
Theorem transfer_conserves source dest amount p s n s' :
  ledger_ok s -> is_balance amount ->
  transfer source dest amount p s = (Ok n, s') ->
  n = amount /\ transferred source dest amount s s' /\
  (amount <> 0 -> frozen (account source s) <=
     free (account source s) - amount + reserved (account source s)) /\
  (amount <> 0 -> p <> Expendable -> ed <= free (account source s) - amount).
Proof.
  intros Hok Ham Hrun. pose proof (lo_wf _ Hok) as Hw. destruct Ham as [Ham Ham'].
  pose proof (wp_run _ _ _ _ _ (transfer_spec source dest amount p s Hok (conj Ham Ham')) Hrun) as Hs.
  simpl in Hs. destruct Hs as (-> & Ht & [Hwd _]). split; [done |]. split; [done |].
  pose proof (wf_account s source Hw) as [[] [] []].
  destruct (can_withdraw_passes _ _ _ _ Hw Ham Hwd) as [Hred Hed]. split; [| auto].
  intros Hne. rewrite reducible_untouchable in Hred. unfold untouchable in Hred. simpl in Hred. lia.
Qed.


(** A transfer that fails leaves every balance, the issuance and the gap as they
    were, and a transfer never panics, whatever the amount and the accounts. *)
Theorem transfer_error_harmless source dest amount p s :
  ledger_ok s -> is_balance amount ->
  fst (transfer source dest amount p s) <> Panic /\
  forall er s', transfer source dest amount p s = (Err er, s') ->
    ledger_ok s' /\ gap s' = gap s /\ TotalIssuance s' = TotalIssuance s /\
    forall w, balances_eq (account w s) (account w s').
Proof.
  intros Hok Ham. pose proof (transfer_spec source dest amount p s Hok Ham) as Hs. unfold wp in Hs.
  split; [by destruct (transfer _ _ _ _ s) as [[] ?] |]. intros er s' Hrun. rewrite Hrun in Hs; simpl in Hs.
  destruct Hs as ([Hst Hb Hi] & _). pose proof (as_gap _ _ _ _ Hst). destruct Hok as [? ? ?].
  split_and!; [split; [apply Hst | lia | lia] | lia | done |].
  intros w. destruct (decide (w = source)) as [-> |]; [done |].
  by rewrite (acct_step_account _ _ _ _ w Hst).
Qed.

(** ** Minting and burning *)

(** [mint_into] succeeds exactly when the issuance has room for [amount] and the account
    reaches the existential deposit; then the free balance and the issuance grow by
    [amount] and nothing else changes, and otherwise the storage is untouched. *)
Theorem mint_into_exact who amount s :
  ledger_ok s -> is_balance amount ->
  let possible := TotalIssuance s + amount <= max_value /\ ed <= free (account who s) + amount in
  match mint_into who amount s with
  | (Ok x, s') => possible /\ x = amount /\ ledger_ok s' /\ acct_step who 0 s s' /\
      balances_eq (with_free (account who s) (free (account who s) + amount)) (account who s') /\
      TotalIssuance s' = TotalIssuance s + amount
  | (Err er, s') => ~ possible /\ s' = s
  | (Panic, _) => False
  end.
Proof.
  intros Hok Ham possible. pose proof (mint_into_spec who amount s Hok Ham) as Hs. unfold wp in Hs.
  destruct (mint_into who amount s) as [[x | er |] s']; simpl in Hs; [| | done].
  - destruct Hs as (-> & ? & ? & ? & ? & ? & ? & ? & ?). unfold possible, balances_eq. by split_and!.
  - destruct Hs as (-> & Hs). unfold possible. split; [lia | done].
Qed.

(** [burn_from] takes [amount], or with [BestEffort] what is reducible, off the account and
    off the issuance, together with the dust of an account that falls below the
    existential deposit; an [Exact] burn beyond the reducible balance is refused with
    the storage untouched, and an upgraded account knows no other failure. *)
Theorem burn_from_exact who amount p precision f s :
  ledger_ok s -> is_balance amount -> is_new_logic (flags (account who s)) = true ->
  let reducible := reducible_balance who p f s in
  let n := Z.min reducible amount in
  let left := free (account who s) - n in
  match burn_from who amount p precision f s with
  | (Ok x, s') => (precision = Exact -> amount <= reducible) /\ x = n /\ ledger_ok s' /\
      acct_step who 0 s s' /\ set_free who left s s' /\
      TotalIssuance s' = TotalIssuance s - n - dust_left (account who s) left
  | (Err er, s') => precision = Exact /\ reducible < amount /\ er = Token FundsUnavailable /\ s' = s
  | (Panic, _) => False
  end.
Proof.
  intros Hok Ham Hnew reducible n left.
  pose proof (burn_from_spec who amount p precision f s Hok Ham) as Hs. unfold wp in Hs.
  change (bal_reducible_balance who p f s) with reducible in Hs. fold n in Hs.
  destruct (burn_from who amount p precision f s) as [r s']; simpl in Hs.
  destruct (_ || _) eqn:Hc.
  - destruct r as [x | er |]; simpl in Hs; [| | done].
    + destruct Hs as (-> & ? & ? & ? & ?). split_and!; try done. intros ->. simpl in Hc.
      rewrite orb_false_r in Hc. by apply Z.leb_le.
    + destruct Hs as (_ & _ & Hf). congruence.
  - destruct Hs as (-> & ->). apply orb_false_iff in Hc as [Hc Hp]. apply Z.leb_gt in Hc.
    split_and!; try done. destruct precision; [done |]. by rewrite bool_decide_true in Hp.
Qed.

(** [set_balance] never fails: it returns the balance it could reach (the amount asked
    for, or what freezing, providers, the existential deposit or the issuance leave
    possible), the account holds that balance less its dust, and the gap, every other
    account and the invariant are kept. *)
Theorem set_balance_reaches who amount s :
  ledger_ok s -> is_balance amount -> is_new_logic (flags (account who s)) = true ->
  let b := free (account who s) in
  let n := if amount <? b then Z.max amount (b - reducible_balance who Expendable Force s)
           else if (TotalIssuance s + (amount - b) <=? max_value) && (ed <=? amount) then amount else b in
  exists s', set_balance who amount s = (Ok n, s') /\ ledger_ok s' /\ acct_step who 0 s s' /\
    free (account who s') = n - (if amount <? b then dust_left (account who s) n else 0).
Proof.
  intros Hok Ham Hnew b n. pose proof (lo_wf _ Hok) as Hw. unfold is_balance in Ham.
  pose proof (wf_account s who Hw) as [[Hb0 Hb1] _ _]. fold b in Hb0, Hb1.
  unfold set_balance, bind, gets, ret, try. change (balance who s) with b.
  destruct (Z.ltb_spec amount b) as [Hlt | Hge].
  - pose proof (burn_from_spec who (b - amount) Expendable BestEffort Force s Hok) as Hs.
    specialize (Hs ltac:(unfold is_balance; lia)). unfold wp in Hs.
    cbn beta zeta in Hs. rewrite bool_decide_true, orb_true_r in Hs by done.
    pose proof (reducible_le_free who Expendable Force s Hw) as Hrf. fold b in Hrf.
    destruct (burn_from _ _ _ _ _ s) as [[x | er |] s']; simpl in Hs; [| | done].
    + destruct Hs as (-> & Hst & Hl & [Hsf _ _] & Ht). exists s'. simpl in n. fold b in Hsf.
      set (red := bal_reducible_balance who Expendable Force s) in *.
      replace (b - Z.min red (b - amount)) with n in Hsf by (unfold n; lia).
      split_and!; try done. f_equal. f_equal. unfold saturating_sub, n. lia.
    + destruct Hs as (_ & _ & Hf). congruence.
  - pose proof (mint_into_spec who (amount - b) s Hok) as Hs.
    specialize (Hs ltac:(unfold is_balance; lia)). unfold wp in Hs.
    destruct (mint_into _ _ s) as [[x | er |] s']; simpl in Hs; [| | done].
    + destruct Hs as (-> & Hroom & Hal & Hst & Hl & Hf & _ & _ & Ht). exists s'. fold b in Hal, Hf.
      unfold n. rewrite !(proj2 (Z.leb_le _ _)) by lia. simpl.
      split_and!; try done; [| lia]. f_equal. f_equal. unfold saturating_add. lia.
    + destruct Hs as (-> & Hs). exists s. fold b in Hs.
      assert (Hn : n = b).
      { unfold n. destruct (_ && _) eqn:E; [| done]. bool_to_prop. lia. }
      rewrite Hn. split_and!; try done; [by apply acct_step_refl | fold b; lia].
Qed.
End transfer.

Section witness.
#[local] Existing Instance sample_config.

Lemma transfer_conserves_witness :
  exists s', transfer 2 3 150 Preserve sample_state = (Ok 150, s') /\
    transferred 2 3 150 sample_state s'.
Proof.
  exists (snd (transfer 2 3 150 Preserve sample_state)).
  assert (Hrun : transfer 2 3 150 Preserve sample_state
    = (Ok 150, snd (transfer 2 3 150 Preserve sample_state))) by (vm_compute; reflexivity).
  split; [exact Hrun |].
  refine (proj1 (proj2 (transfer_conserves 2 3 150 Preserve sample_state 150 _ _ _ Hrun)));
    [sample_ledger | sample_balance].
Defined.


Lemma transfer_error_harmless_witness :
  fst (transfer 2 3 151 Expendable sample_state) = Err (Token Frozen) /\
  forall w, balances_eq (account w sample_state)
              (account w (snd (transfer 2 3 151 Expendable sample_state))).
Proof.
  assert (Hrun : transfer 2 3 151 Expendable sample_state
    = (Err (Token Frozen), snd (transfer 2 3 151 Expendable sample_state))) by (vm_compute; reflexivity).
  split; [exact (f_equal fst Hrun) |].
  refine (proj2 (proj2 (proj2 (proj2 (transfer_error_harmless 2 3 151 Expendable sample_state _ _)
    _ _ Hrun)))); [sample_ledger | sample_balance].
Defined.

Lemma mint_into_exact_witness :
  ledger_ok (snd (mint_into 9 10 sample_state)) /\ TotalIssuance (snd (mint_into 9 10 sample_state)) = 400.
Proof.
  assert (Hrun : fst (mint_into 9 10 sample_state) = Ok 10) by (vm_compute; reflexivity).
  assert (Hok : ledger_ok sample_state) by sample_ledger. assert (Hb : is_balance 10) by sample_balance.
  pose proof (mint_into_exact 9 10 sample_state Hok Hb) as W.
  destruct (mint_into 9 10 sample_state) as [[x | er |] s']; [| discriminate Hrun | discriminate Hrun].
  split; [apply W |]. etransitivity; [apply W |]. vm_compute. reflexivity.
Defined.

Lemma burn_from_exact_witness :
  ledger_ok (snd (burn_from 2 150 Expendable Exact Polite sample_state)).
Proof.
  assert (Hrun : fst (burn_from 2 150 Expendable Exact Polite sample_state) = Ok 150)
    by (vm_compute; reflexivity).
  assert (Hok : ledger_ok sample_state) by sample_ledger. assert (Hb : is_balance 150) by sample_balance.
  assert (Hnew : is_new_logic (flags (account 2 sample_state)) = true) by (vm_compute; reflexivity).
  pose proof (burn_from_exact 2 150 Expendable Exact Polite sample_state Hok Hb Hnew) as W.
  destruct (burn_from 2 150 Expendable Exact Polite sample_state) as [[x | er |] s'];
    [apply W | discriminate Hrun | discriminate Hrun].
Defined.

Lemma set_balance_reaches_witness :
  exists s', set_balance 2 500 sample_state = (Ok 500, s') /\ ledger_ok s'.
Proof.
  assert (Hok : ledger_ok sample_state) by sample_ledger. assert (Hb : is_balance 500) by sample_balance.
  assert (Hnew : is_new_logic (flags (account 2 sample_state)) = true) by (vm_compute; reflexivity).
  destruct (set_balance_reaches 2 500 sample_state Hok Hb Hnew) as (s' & Hrun & Hl & _).
  exists s'. split; [| exact Hl]. rewrite Hrun. vm_compute. reflexivity.
Defined.
End witness.
