(* ===== verification/ImbalanceFacts.v ===== *)
(** * Imbalances

    The arithmetic of the four imbalance types, what dropping one does to the gap
    between issuance and balances, and the operations of [Balanced] that create and
    consume them. *)

From stdpp Require Import base tactics numbers list gmap.
From Stdlib Require Import String.
From S2P Require Import Prelude Dispatch System Tokens Fungible Balances BalancesFungible.
From S2P Require Import BalancesCurrency AccountSpec AccountWf Ledger FungibleFacts.
Local Open Scope Z_scope.

(** ** The interface's laws *)

Class ImbalanceLaws (I O : Type) `{Imbalance I O} : Prop := {
  imb_peek_new : forall a, imb_peek (imb_new a) = a;
  imb_new_peek : forall i : I, imb_new (imb_peek i) = i;
  imb_opp_peek_opp : forall a, imb_opp_peek (imb_opp a) = a;
}.

#[export] Instance laws_Positive : ImbalanceLaws PositiveImbalance NegativeImbalance.
Proof. by split; [| intros []|]. Qed.
#[export] Instance laws_Negative : ImbalanceLaws NegativeImbalance PositiveImbalance.
Proof. by split; [| intros []|]. Qed.
#[export] Instance laws_Debt : ImbalanceLaws Debt Credit.
Proof. by split; [| intros []|]. Qed.
#[export] Instance laws_Credit : ImbalanceLaws Credit Debt.
Proof. by split; [| intros []|]. Qed.

Section arithmetic.
Context `{BalanceType} {I O : Type} `{Himb : Imbalance I O} `{!ImbalanceLaws I O}.

(** The net value of what [offset] leaves. *)
Definition so_value (x : SameOrOther I O) : Z :=
  match x with
  | SONone => 0
  | SOSame i => imb_peek i
  | SOOther o => - imb_opp_peek o
  end.

Lemma split_sum i amount :
  0 <= amount -> is_balance (imb_peek i) ->
  imb_peek (fst (split i amount)) + imb_peek (snd (split i amount)) = imb_peek i /\
  0 <= imb_peek (fst (split i amount)) <= amount /\ 0 <= imb_peek (snd (split i amount)).
Proof. intros Ha [Hi _]. unfold split; simpl. rewrite !imb_peek_new. lia. Qed.

(** Nothing is created or lost in the arithmetic of imbalances, for each of the
    four types: [split] cuts an imbalance into a part of at most [amount] and the
    rest, [extract] is the same cut, [merge] and [subsume] put the parts together
    again, and [offset] leaves the difference on the side that was larger. *)
Theorem imbalance_arithmetic i (o : O) amount :
  is_balance (imb_peek i) -> 0 <= amount ->
  imb_peek (fst (split i amount)) = Z.min (imb_peek i) amount /\
  merge (fst (split i amount)) (snd (split i amount)) = i /\
  extract i amount = split i amount /\
  subsume (snd (extract i amount)) (fst (extract i amount)) = i /\
  so_value (offset i o) = imb_peek i - imb_opp_peek o.
Proof.
  intros Hi Ha. pose proof (split_sum i amount Ha Hi) as (Hsum & _ & _).
  split_and!; [simpl; by rewrite imb_peek_new | | done | |].
  - unfold merge, saturating_add. rewrite Hsum, Z.min_r by apply Hi. apply imb_new_peek.
  - change (extract i amount) with (split i amount). unfold subsume, saturating_add.
    rewrite Z.add_comm, Hsum, Z.min_r by apply Hi. apply imb_new_peek.
  - unfold offset, so_value. destruct (Z.ltb_spec (imb_opp_peek o) (imb_peek i)).
    + by rewrite imb_peek_new.
    + destruct (Z.ltb_spec (imb_peek i) (imb_opp_peek o)); [rewrite imb_opp_peek_opp |]; lia.
Qed.

(** [ration] cuts an imbalance in the given ratio without loss: the parts add up to
    the whole, the first is the rounded-down share when the product fits the balance
    type, and only when both shares are zero is the imbalance dropped instead. *)
Theorem ration_shares {S} `{Droppable S I} (i : I) first second (s : S) :
  is_balance (imb_peek i) -> 0 <= first -> 0 <= second ->
  exists a b, ration i first second s =
    (Ok (a, b), if first + second =? 0 then drop_value i s else s) /\
  (first + second <> 0 -> imb_peek a + imb_peek b = imb_peek i /\ 0 <= imb_peek a /\ 0 <= imb_peek b) /\
  (first + second <> 0 -> first + second <= u32_max -> imb_peek i * first <= max_value ->
     imb_peek a = imb_peek i * first / (first + second)) /\
  (first + second = 0 -> imb_peek a = 0 /\ imb_peek b = 0).
Proof.
  intros Hi Hf Hs. unfold ration, u32_saturating_add. pose proof Hi as [Hi0 _].
  destruct (Z.eqb_spec (first + second) 0) as [Hz | Hz].
  { rewrite (proj2 (Z.eqb_eq _ _)) by (unfold u32_max; lia).
    eexists _, _. split; [reflexivity |]. unfold imb_zero. rewrite !imb_peek_new. lia. }
  rewrite (proj2 (Z.eqb_neq _ _)) by (unfold u32_max; lia).
  set (amount1 := _ / _). eexists (fst (split i amount1)), (snd (split i amount1)).
  split; [by destruct (split i amount1) |].
  assert (0 <= amount1).
  { apply Z.div_pos; [pose proof max_value_pos; lia | unfold u32_max; lia]. }
  split; [intros _; pose proof (split_sum i amount1 ltac:(done) Hi); lia |]. split; [| done].
  intros _ Hu Hfit. simpl. rewrite imb_peek_new. unfold amount1.
  rewrite (Z.min_r u32_max), (Z.min_r max_value) by done. apply Z.min_r.
  apply Z.div_le_upper_bound; [lia |]. nia.
Qed.
End arithmetic.

(** ** The effect on the ledger *)

(** The part of the gap an imbalance accounts for: what has been taken from accounts
    and not destroyed, or given to accounts and not issued. *)
Class Backing (I : Type) := backing : I -> Z.

#[export] Instance backing_Credit : Backing Credit := fun '(MkCredit a) => a.
#[export] Instance backing_Debt : Backing Debt := fun '(MkDebt a) => - a.
#[export] Instance backing_Negative : Backing NegativeImbalance := fun '(NegImb a) => a.
#[export] Instance backing_Positive : Backing PositiveImbalance := fun '(PosImb a) => - a.
#[export] Instance backing_Signed : Backing SignedImbalance := fun i =>
  match i with SPositive p => backing p | SNegative n => backing n end.

Section drop.
Context `{Config}.

(** [s'] is [s] with the issuance moved by [- b]. *)
Record issuance_moved (b : Z) (s s' : State) : Prop := {
  im_accts : accts s' = accts s;
  im_issuance : TotalIssuance s' = TotalIssuance s - b;
  im_lists : same_lists s s';
}.

Lemma issuance_moved_gap b s s' : issuance_moved b s s' -> gap s' = gap s - b.
Proof. intros [HA HT _]. unfold gap. rewrite (supply_same _ _ HA). lia. Qed.

Lemma issuance_moved_step who b s s' : wf s -> issuance_moved b s s' -> acct_step who (- b) s s'.
Proof.
  intros Hw Hm. split.
  - eapply wf_accts; [apply Hm | done].
  - intros w _. by rewrite (im_accts _ _ _ Hm).
  - apply Hm.
  - rewrite (issuance_moved_gap _ _ _ Hm). lia.
Qed.

(** Dropping moves the issuance by the backing, while it stays in range. *)
Class DropLaw (I : Type) `{Droppable State I} `{Backing I} : Prop :=
  drop_moves : forall (i : I) s, 0 <= TotalIssuance s - backing i <= max_value ->
    0 <= TotalIssuance s <= max_value -> issuance_moved (backing i) s (drop_value i s).

Lemma moved_to n b s : n = TotalIssuance s - b -> issuance_moved b s (set_TotalIssuance n s).
Proof. intros ->. by split. Qed.

Lemma moved_deposit b ev s s' : issuance_moved b s s' -> issuance_moved b s (Balances.deposit ev s').
Proof.
  intros [HA HT HL]. split; [by rewrite accts_deposit | done |]. by etrans; [| apply same_lists_deposit].
Qed.

Lemma moved_zero s : issuance_moved 0 s s.
Proof. split; [done | lia | done]. Qed.

Ltac drop_law :=
  intros [a] s Hr Ht; unfold drop_value, backing in *; simpl in *;
  unfold bal_drop_credit, bal_drop_debt; destruct (Z.eqb_spec a 0) as [-> | Hne];
  [ by apply moved_zero
  | try apply moved_deposit; apply moved_to; unfold saturating_add, saturating_sub; lia ].

#[export] Instance drop_law_Credit : DropLaw Credit.
Proof. drop_law. Qed.
#[export] Instance drop_law_Debt : DropLaw Debt.
Proof. drop_law. Qed.
#[export] Instance drop_law_Negative : DropLaw NegativeImbalance.
Proof. drop_law. Qed.
#[export] Instance drop_law_Positive : DropLaw PositiveImbalance.
Proof. drop_law. Qed.
#[export] Instance drop_law_Signed : DropLaw SignedImbalance.
Proof. intros [p | n] s; [apply (drop_law_Positive p s) | apply (drop_law_Negative n s)]. Qed.

(** Dropping an imbalance settles the account it keeps: a credit or a negative
    imbalance is burned, a debt or a positive imbalance is issued, so that the gap
    between issuance and balances moves by exactly the imbalance's backing and no
    account changes, for every imbalance type of the two families. *)
Theorem drop_closes_gap {I} `{Droppable State I} `{Backing I} `{!DropLaw I} (i : I) s :
  ledger_ok s -> 0 <= TotalIssuance s - backing i <= max_value ->
  gap (drop_value i s) = gap s - backing i /\
  (forall w, account w (drop_value i s) = account w s) /\
  (0 <= gap s - backing i -> ledger_ok (drop_value i s)).
Proof.
  intros Hok Hr. pose proof (ledger_issuance_nonneg s Hok). destruct Hok as [Hw Hg Hm].
  pose proof (drop_moves i s Hr (conj H2 Hm)) as Hmv. pose proof (issuance_moved_gap _ _ _ Hmv) as Hgap.
  destruct Hmv as [HA HT _]. split_and!; [done | |].
  - intros w. by rewrite !account_edata, HA.
  - intros ?. split; [by eapply wf_accts | lia | lia].
Qed.
End drop.

Section balanced.
Context `{Config}.

(** ** Issuing and rescinding *)

Lemma issue_spec amount s :
  0 <= TotalIssuance s <= max_value -> 0 <= amount ->
  let n := Z.min amount (max_value - TotalIssuance s) in
  wp (issue amount) s (outcome
    (fun c s' => c = MkCredit n /\ issuance_moved (- n) s s') (fun _ _ => False)).
Proof.
  intros Ht Ha n. unfold issue. apply wp_bind, wp_gets, wp_bind, wp_modify, wp_bind. simpl.
  unfold saturating_add, rust_sub. rewrite (proj2 (Z.leb_le _ _)) by lia. apply wp_ret.
  apply wp_bind, wp_modify, wp_ret. simpl.
  replace (Z.min max_value (TotalIssuance s + amount) - TotalIssuance s) with n by lia.
  split; [done |].
  assert (Hm : issuance_moved (- n) s (set_TotalIssuance (Z.min max_value (TotalIssuance s + amount)) s))
    by (apply moved_to; lia).
  destruct (n =? 0); [done | by apply moved_deposit].
Qed.

Lemma rescind_spec amount s :
  0 <= TotalIssuance s <= max_value -> 0 <= amount ->
  let n := Z.min amount (TotalIssuance s) in
  wp (rescind amount) s (outcome
    (fun d s' => d = MkDebt n /\ issuance_moved n s s') (fun _ _ => False)).
Proof.
  intros Ht Ha n. unfold rescind. apply wp_bind, wp_gets, wp_bind, wp_modify, wp_bind. simpl.
  unfold saturating_sub, rust_sub. rewrite (proj2 (Z.leb_le _ _)) by lia. apply wp_ret.
  apply wp_bind, wp_modify, wp_ret. simpl.
  replace (TotalIssuance s - Z.max 0 (TotalIssuance s - amount)) with n by lia.
  split; [done |]. apply moved_deposit, moved_to. lia.
Qed.

Lemma issuance_moved_trans b b' s1 s2 s3 :
  issuance_moved b s1 s2 -> issuance_moved b' s2 s3 -> issuance_moved (b + b') s1 s3.
Proof. intros [A1 T1 L1] [A2 T2 L2]. split; [by rewrite A2 | lia | by etrans]. Qed.

(** [pair] gives a debt and a credit of [amount] each and leaves the issuance and
    every account as they were; it fails exactly when the issuance has no room for
    [amount], and then what it had issued and rescinded is undone. *)
Theorem pair_balanced amount s :
  0 <= TotalIssuance s <= max_value -> is_balance amount ->
  fst (pair amount s) =
    (if TotalIssuance s + amount <=? max_value then Ok (MkDebt amount, MkCredit amount)
     else Err (Other "Failed to issue and rescind equal amounts"%string)) /\
  issuance_moved 0 s (snd (pair amount s)).
Proof.
  intros Ht [Ha Ha']. unfold pair. 
  pose proof (issue_spec amount s Ht Ha) as Hi. unfold wp, bind in *.
  destruct (issue amount s) as [[c | |] s1]; [| done | done]. simpl in Hi. destruct Hi as [-> Hm1].
  pose proof (im_issuance _ _ _ Hm1) as Ht1.
  pose proof (rescind_spec amount s1 ltac:(lia) Ha) as Hd. unfold wp in Hd.
  destruct (rescind amount s1) as [[d | |] s2]; [| done | done]. simpl in Hd. destruct Hd as [-> Hm2].
  pose proof (im_issuance _ _ _ Hm2) as Ht2. simpl.
  destruct (Z.leb_spec (TotalIssuance s + amount) max_value).
  - rewrite Z.min_l, Z.min_l, !Z.eqb_refl by lia. simpl. split; [done |].
    replace 0 with (- amount + amount) by lia. rewrite Z.min_l in Hm1, Hm2 by lia.
    by eapply issuance_moved_trans.
  - rewrite (Z.min_r amount (max_value - _)) in * by lia.
    rewrite (proj2 (Z.eqb_neq (max_value - _) amount)), orb_true_r by lia. simpl. split; [done |].
    assert (Hmin : Z.min amount (TotalIssuance s1) = amount) by lia. rewrite Hmin in *.
    pose proof (drop_moves (MkDebt amount) s2) as Hm3.
    change (backing (MkDebt amount)) with (- amount) in Hm3.
    specialize (Hm3 ltac:(lia) ltac:(lia)).
    pose proof (im_issuance _ _ _ Hm3) as Ht3.
    set (c := MkCredit (max_value - TotalIssuance s)). 
    pose proof (drop_moves c (drop_value (MkDebt amount) s2)) as Hm4.
    change (backing c) with (max_value - TotalIssuance s) in Hm4.
    specialize (Hm4 ltac:(lia) ltac:(lia)).
    replace 0 with (- (max_value - TotalIssuance s) + amount + - amount + (max_value - TotalIssuance s)) by lia.
    eauto using issuance_moved_trans.
Qed.

(** ** Depositing and withdrawing *)

Lemma deposit_spec who value precision s :
  wf s -> 0 <= TotalIssuance s -> is_balance value ->
  let x := increase_amount precision (free (account who s)) value in
  wp (Fungible.deposit who value precision) s
    (outcome (fun d s' => d = MkDebt x /\ credited who x s s') (fun _ s' => s' = s /\ precision = Exact)).
Proof.
  intros Hw Ht Hv x. unfold Fungible.deposit. apply wp_bind.
  eapply wp_mono; [by apply increase_balance_spec |].
  intros [y | er |] s1; simpl; [| tauto | done]. intros [-> [_ [Hst Hf Hr Hz Hi]]].
  apply wp_bind, wp_modify, wp_ret. split; [done |].
  split; rewrite ?account_deposit; try done. by apply acct_step_deposit.
Qed.

Lemma withdraw_spec who value precision p f s :
  ledger_ok s -> is_balance value ->
  let reducible := bal_reducible_balance who p f s in
  let n := decrease_amount precision value reducible in
  wp (withdraw who value precision p f) s (fun r s' =>
    match r with
    | Ok c => c = MkCredit n /\ decreased who n reducible s (Ok n) s'
    | Err er => decreased who n reducible s (Err er) s'
    | Panic => False
    end).
Proof.
  intros Hok Hv reducible n. unfold withdraw. apply wp_bind.
  eapply wp_mono; [by apply decrease_balance_spec |]. fold reducible. fold n.
  intros [y | er |] s1; simpl; [| done | done]. intros (-> & Hle & Hst & [Hf Hr Hz] & Ht).
  apply wp_bind, wp_modify, wp_ret. split_and!; try done.
  - by apply acct_step_deposit.
  - by split; rewrite account_deposit.
Qed.

(** [resolve] either gives the whole credit to the account, so that the gap shrinks by
    the credit that is now spent and the issuance stays, or returns the credit with
    the storage untouched. *)
Theorem resolve_all_or_nothing who c s :
  ledger_ok s -> is_balance c ->
  wp (resolve who (MkCredit c)) s (fun r s' =>
    match r with
    | Ok (inl _) => credited who c s s'
    | Ok (inr credit) => credit = MkCredit c /\ s' = s
    | _ => False
    end).
Proof.
  intros Hok Hc. unfold resolve. simpl. apply wp_bind, wp_try.
  eapply wp_mono; [apply (deposit_spec who c Exact); [apply Hok | by apply ledger_issuance_nonneg | done] |].
  intros [d | er |] s1; simpl; [| | done].
  - intros [-> Hcr]. apply wp_bind, wp_modify, wp_ret. unfold offset; simpl. by rewrite !Z.ltb_irrefl.
  - intros [-> _]. by apply wp_ret.
Qed.

(** [settle] either takes the whole debt from the account, so that the gap grows by the
    debt that is now paid and nothing is left over, or returns the debt with every
    balance and the issuance unchanged. *)
Theorem settle_all_or_nothing who d p s :
  ledger_ok s -> is_balance d ->
  wp (settle who (MkDebt d) p) s (fun r s' =>
    match r with
    | Ok (inl credit) => credit = MkCredit 0 /\ acct_step who d s s' /\
                         set_free who (free (account who s) - d) s s'
    | Ok (inr debt) => debt = MkDebt d /\ harmless who s s'
    | _ => False
    end).
Proof.
  intros Hok Hd. unfold settle. simpl. apply wp_bind, wp_try.
  eapply wp_mono; [by apply withdraw_spec |].
  intros [c | er |] s1; simpl; [| | done].
  - intros (-> & _ & _ & Hst & Hsf & _). unfold offset; simpl. rewrite !Z.ltb_irrefl. by apply wp_ret.
  - intros [Hh _]. by apply wp_ret.
Qed.
End balanced.

Section witness.
#[local] Existing Instance sample_config.

Lemma imbalance_arithmetic_witness :
  merge (fst (split (MkCredit 50) 20)) (snd (split (MkCredit 50) 20)) = MkCredit 50.
Proof.
  refine (proj1 (proj2 (imbalance_arithmetic (MkCredit 50) (MkDebt 0) 20 _ _)));
    [sample_balance | done].
Defined.

Lemma ration_shares_witness :
  exists a b, ration (MkCredit 100) 1 2 sample_state = (Ok (a, b), sample_state).
Proof.
  destruct (ration_shares (MkCredit 100) 1 2 sample_state) as (a & b & Hr & _);
    [sample_balance | done | done |]. exists a, b. exact Hr.
Defined.

Lemma drop_closes_gap_witness :
  gap (drop_value (NegImb 7) sample_state) = gap sample_state - 7.
Proof.
  refine (proj1 (drop_closes_gap (NegImb 7) sample_state _ _)); [sample_ledger | sample_balance].
Defined.

Lemma pair_balanced_witness : fst (pair 5 sample_state) = Ok (MkDebt 5, MkCredit 5).
Proof. refine (proj1 (pair_balanced 5 sample_state _ _)); sample_balance. Defined.

Lemma resolve_all_or_nothing_witness : credited 2 7 sample_state (snd (resolve 2 (MkCredit 7) sample_state)).
Proof.
  assert (Hr : fst (resolve 2 (MkCredit 7) sample_state) = Ok (inl tt)) by (vm_compute; reflexivity).
  assert (Hok : ledger_ok sample_state) by sample_ledger. assert (Hb : is_balance 7) by sample_balance.
  exact (wp_fst _ _ _ _ (resolve_all_or_nothing 2 7 sample_state Hok Hb) Hr).
Defined.

Lemma settle_all_or_nothing_witness :
  set_free 2 (free (account 2 sample_state) - 7) sample_state
    (snd (settle 2 (MkDebt 7) Expendable sample_state)).
Proof.
  assert (Hr : fst (settle 2 (MkDebt 7) Expendable sample_state) = Ok (inl (MkCredit 0)))
    by (vm_compute; reflexivity).
  assert (Hok : ledger_ok sample_state) by sample_ledger. assert (Hb : is_balance 7) by sample_balance.
  exact (proj2 (proj2 (wp_fst _ _ _ _ (settle_all_or_nothing 2 7 Expendable sample_state Hok Hb) Hr))).
Defined.
End witness.
