(* ===== verification/CurrencyFacts.v ===== *)
(** * Facts about the [Currency] family

    Slashing, depositing, withdrawing and reserving, run on the pallet's storage:
    the exact amounts, the effect on the gap, and the errors. *)

From stdpp Require Import base tactics numbers list gmap.
From S2P Require Import Prelude Dispatch System Tokens Fungible Balances BalancesFungible.
From S2P Require Import BalancesCurrency AccountSpec AccountWf Ledger FungibleFacts ImbalanceFacts.
Local Open Scope Z_scope.

Section commit_errors.
Context `{Config}.

(** A change that neither stops providing nor starts consuming cannot fail. *)
Lemma commit_error_relaxed e1 a' :
  (provides (edata e1) = true -> provides a' = true) ->
  (consumes a' = true -> consumes (edata e1) = true) ->
  commit_error (einfo e1) a' = None.
Proof.
  intros Hp Hc. unfold commit_error. change (ai_data (einfo e1)) with (edata e1).
  destruct (consumes a'); [rewrite Hc by done |]; simpl;
    rewrite ?andb_false_r; simpl; destruct (provides (edata e1)); try done; by rewrite Hp.
Qed.

(** A change that keeps consuming fails at most for want of a second provider. *)
Lemma commit_error_consuming e1 a' :
  consumes a' = consumes (edata e1) ->
  commit_error (einfo e1) a' =
  if provides (edata e1) && negb (provides a') && (ai_providers (einfo e1) =? 1)
     && (0 <? ai_consumers (einfo e1)) then Some ConsumerRemaining else None.
Proof.
  intros Hc. unfold commit_error, commit_consumers. change (ai_data (einfo e1)) with (edata e1).
  rewrite Hc. by destruct (consumes (edata e1)).
Qed.

Lemma reserved_consumes d : reserved d <> 0 -> consumes d = true.
Proof. intros Hr. unfold consumes. by rewrite (proj2 (Z.eqb_neq _ _)). Qed.

Lemma consumes_mono d d' :
  (reserved d' <> 0 -> reserved d <> 0) -> frozen d' = frozen d ->
  consumes d' = true -> consumes d = true.
Proof.
  unfold consumes. intros Hr ->. rewrite !orb_true_iff, !negb_true_iff, !Z.eqb_neq. tauto.
Qed.

Lemma provides_mono d d' : free d <= free d' -> provides d = true -> provides d' = true.
Proof. rewrite !provides_true. lia. Qed.

Lemma can_dec_upd who e1 s s1 :
  upd who e1 s s1 ->
  can_dec_provider who (sys s1) =
  (ai_consumers (einfo e1) =? 0) || (1 <? ai_providers (einfo e1)).
Proof.
  intros Hu. unfold can_dec_provider. by rewrite account_get_einfo, (upd_lookup _ _ _ _ Hu).
Qed.

(** The dust of data whose balances are bounded by those of an account. *)
Lemma dust_le_free who s a' :
  ledger_ok s -> data_bounded a' -> free a' <= holdings (account who s) ->
  dust_amount a' <= TotalIssuance s.
Proof.
  intros Hok Hb Hle. pose proof (dust_amount_bounds _ Hb) as [[_ Hd] _].
  destruct Hok as [Hw Hg _]. pose proof (holdings_le_supply s who Hw). unfold gap in Hg. lia.
Qed.

Lemma account_holdings_max who s :
  ledger_ok s -> holdings (account who s) <= max_value.
Proof.
  intros [Hw Hg Hm]. pose proof (holdings_le_supply s who Hw). unfold gap in Hg. lia.
Qed.
End commit_errors.

Section slash.
Context `{Config}.

(** ** Slashing *)

Definition slash_free_amount (value : Z) (e1 : Entry) : Z :=
  if (ai_consumers (einfo e1) =? 0) || (1 <? ai_providers (einfo e1))
  then Z.min value (free (edata e1))
  else Z.min value (saturating_sub (free (edata e1)) ed).

(** A slash of an upgraded entry leaves the provider its consumers need. *)
Lemma slash_no_error value e e1 :
  upgraded e e1 -> 0 <= value ->
  commit_error (einfo e1) (with_free (edata e1) (free (edata e1) - slash_free_amount value e1)) = None.
Proof.
  intros Hup Hv. rewrite commit_error_with_free. destruct (_ && _ && _ && _) eqn:E; [| done].
  bool_to_prop. pose proof ed_pos. unfold slash_free_amount, saturating_sub in *.
  rewrite (proj2 (Z.eqb_neq _ _)) in * by lia. rewrite (proj2 (Z.ltb_ge _ _)) in * by lia. simpl in *. lia.
Qed.

Lemma dust_left_self who s : wf s -> dust_left (account who s) (free (account who s)) = 0.
Proof.
  intros Hw. pose proof (wf_no_dust _ (Hw who)) as Hnd. unfold dust_left.
  change (ai_data (einfo (accts s !! who))) with (account who s) in Hnd.
  destruct (_ && _) eqn:E; bool_to_prop; lia.
Qed.

(** The outcome of taking [x] of the [value] asked for from the free balance. *)
Record slashed_free (who : AccountId) (x : Z) (s s' : State) : Prop := {
  sl_step : acct_step who x s s';
  sl_free : free (account who s') =
    free (account who s) - x - dust_left (account who s) (free (account who s) - x);
  sl_reserved : reserved (account who s') = reserved (account who s);
  sl_issuance : TotalIssuance s' =
    TotalIssuance s - dust_left (account who s) (free (account who s) - x);
}.

Lemma slashed_free_none who s : wf s -> slashed_free who 0 s s.
Proof.
  intros Hw. pose proof (dust_left_self who s Hw). split; try done; [by apply acct_step_refl | |];
    rewrite Z.sub_0_r; lia.
Qed.

Lemma total_zero who s : wf s -> bal_total_balance who s = 0 -> free (account who s) = 0.
Proof.
  intros Hw. pose proof (wf_account s who Hw) as [[] [] _]. pose proof max_value_pos.
  unfold bal_total_balance, total, saturating_add. lia.
Qed.

(** What a slash takes of an account in [s]. *)
Definition slashable (who : AccountId) (value x : Z) (s : State) : Prop :=
  0 <= x <= value /\ x <= free (account who s) /\
  (ed <= free (account who s) - value -> x = value) /\
  (can_dec_provider who (sys s) = true -> is_new_logic (flags (account who s)) = true ->
     x = Z.min value (free (account who s))).

Lemma slash_amount_slashable who value s e1 :
  wf s -> 0 <= value -> upgraded (accts s !! who) e1 ->
  slashable who value (slash_free_amount value e1) s.
Proof.
  intros Hw Hv Hup. pose proof (wf_account s who Hw) as [[Hf0 Hf1] _ _]. pose proof ed_pos.
  pose proof (up_balances _ _ Hup) as (Hbf & _ & _). rewrite <- account_edata in Hbf.
  unfold slashable, slash_free_amount, saturating_sub. rewrite Hbf.
  split; [destruct (_ || _); lia |]. split; [destruct (_ || _); lia |].
  split; [intros; destruct (_ || _); lia |].
  intros Hc Hn. rewrite account_edata in Hn. rewrite (up_same _ _ Hup Hn).
  unfold can_dec_provider in Hc. rewrite account_get_einfo in Hc. by rewrite Hc.
Qed.

Lemma slash_run who value s :
  ledger_ok s -> 0 <= value <= max_value ->
  wp (try_mutate_account_handling_dust who (fun account _is_new =>
      can_dec <- gets (fun s => can_dec_provider who (sys s)) ;;
      let actual :=
        if can_dec : bool then Z.min value (free account)
        else Z.min value (saturating_sub (free account) ExistentialDeposit) in
      let account := with_free account (saturating_sub (free account) actual) in
      let remaining := saturating_sub value actual in
      ret ((NegImb actual, remaining), account))) s (fun r s' => exists x,
    r = Ok (NegImb x, value - x) /\ slashable who value x s /\ slashed_free who x s s').
Proof.
  intros Hok [Hv0 Hv1]. pose proof (lo_wf _ Hok) as Hw. pose proof (wf_account s who Hw) as Hb.
  apply wp_handling_dust; [done |]. intros e1 s1 Hup Hu.
  apply wp_bind, wp_gets. rewrite (can_dec_upd _ _ _ _ Hu). cbv zeta.
  fold (slash_free_amount value e1). change ExistentialDeposit with ed. fold (slash_free_amount value e1).
  set (x := slash_free_amount value e1).
  pose proof (slash_amount_slashable who value s e1 Hw Hv0 Hup) as Hsl. fold x in Hsl.
  pose proof Hsl as (Hx & Hxf & _).
  pose proof (up_balances _ _ Hup) as Hbal. rewrite <- account_edata in Hbal.
  pose proof Hbal as (Hbf & Hbr & _). destruct (free_bounded _ Hb) as [Hf0 Hf1].
  assert (Hsx : saturating_sub (free (edata e1)) x = free (account who s) - x)
    by (unfold saturating_sub; lia). rewrite Hsx.
  assert (Hsv : saturating_sub value x = value - x) by (unfold saturating_sub; lia). rewrite Hsv.
  apply wp_ret.
  assert (Hba : data_bounded (with_free (edata e1) (free (account who s) - x)))
    by (apply with_free_bounded; [by eapply upgraded_bounded | unfold is_balance; lia]).
  split; [done |]. split; [done |]. split.
  { apply (dust_le_free who); [done | done |]. simpl. unfold holdings.
    destruct (reserved_bounded _ Hb). lia. }
  unfold settles. pose proof (slash_no_error value _ e1 Hup Hv0) as Hce. fold x in Hce.
  rewrite Hbf in Hce. rewrite Hce. intros s' Hst _ Ha Ht. exists x. split; [done |]. split; [done |].
  destruct (set_free_settled who _ s s' _ Hbal Ha) as [Hsf Hsr _].
  rewrite (dust_amount_with_free _ _ _ Hbal) in Ht. split; try done.
  replace x with (holdings (account who s) - holdings (with_free (edata e1) (free (account who s) - x))) at 1;
    [done |]. unfold holdings; simpl. lia.
Qed.

Lemma slash_spec who value s :
  ledger_ok s -> is_balance value ->
  wp (cur_slash who value) s (fun r s' => exists x,
    r = Ok (NegImb x, value - x) /\ slashable who value x s /\ slashed_free who x s s').
Proof.
  intros Hok Hv. pose proof (lo_wf _ Hok) as Hw. unfold cur_slash, is_balance in *. pose proof ed_pos.
  pose proof (wf_account s who Hw) as [[Hf0 Hf1] _ _].
  destruct (Z.eqb_spec value 0) as [-> | Hne].
  { apply wp_ret. exists 0. split; [done |]. split; [| by apply slashed_free_none].
    unfold slashable. lia. }
  apply wp_bind, wp_gets. destruct (Z.eqb_spec (bal_total_balance who s) 0) as [Hz | Hz].
  { apply (total_zero who s Hw) in Hz. apply wp_ret. exists 0. rewrite Z.sub_0_r. split; [done |].
    split; [| by apply slashed_free_none]. unfold slashable. lia. }
  apply wp_bind, wp_try. eapply wp_mono; [by apply slash_run |].
  intros r s1 (x & -> & Hsl & [Hst Hf Hr Ht]). apply wp_bind, wp_modify, wp_ret. exists x.
  split; [done |]. split; [done |]. split; rewrite ?account_deposit; try done. by apply acct_step_deposit.
Qed.
End slash.

Section deposit_withdraw.
Context `{Config}.

(** ** Depositing and withdrawing with imbalances *)

(** The rule for a closure that sets the free balance to [n]. *)
Lemma settles_free {R} `{Droppable State R} who s e1 (x : R) n (Q : Res R -> State -> Prop) :
  upgraded (accts s !! who) e1 ->
  (if (ed <=? free (account who s)) && (n <? ed) && (ai_providers (einfo e1) =? 1)
      && (0 <? ai_consumers (einfo e1))
   then forall s', harmless who s s' -> Q (Err ConsumerRemaining) (drop_value x s')
   else forall s', acct_step who (free (account who s) - n) s s' -> set_free who n s s' ->
          TotalIssuance s' = TotalIssuance s - dust_left (account who s) n -> Q (Ok x) s') ->
  settles who s e1 x (with_free (edata e1) n) Q.
Proof.
  intros Hup. unfold settles. pose proof (up_balances _ _ Hup) as Hbal. rewrite <- account_edata in Hbal.
  pose proof Hbal as (Hf & Hr & _). rewrite commit_error_with_free, Hf.
  destruct (_ && _ && _ && _); intros HQ.
  - intros s' Hst Hb Ht. by apply HQ.
  - intros s' Hst _ Ha Ht. rewrite (dust_amount_with_free _ _ _ Hbal) in Ht. apply HQ; [| | done].
    + replace (free (account who s) - n) with (holdings (account who s) - holdings (with_free (edata e1) n));
        [done |]. unfold holdings; simpl. lia.
    + by eapply set_free_settled.
Qed.

(** [x] has been added to the free balance of [who] against an imbalance: as [credited],
    but the account may not keep it. *)
Record deposited (who : AccountId) (x : Z) (s s' : State) : Prop := {
  dp_step : acct_step who (- x) s s';
  dp_free : free (account who s') =
    free (account who s) + x - dust_left (account who s) (free (account who s) + x);
  dp_reserved : reserved (account who s') = reserved (account who s);
  dp_issuance : TotalIssuance s' =
    TotalIssuance s - dust_left (account who s) (free (account who s) + x);
}.

Lemma deposited_none who s : wf s -> deposited who 0 s s.
Proof.
  intros Hw. pose proof (dust_left_self who s Hw).
  split; [by apply acct_step_refl | rewrite Z.add_0_r; lia | done | rewrite Z.add_0_r; lia].
Qed.

Lemma dust_le_ed who e1 s n :
  upgraded (accts s !! who) e1 -> is_balance n -> ed <= TotalIssuance s ->
  data_bounded (with_free (edata e1) n) /\ dust_amount (with_free (edata e1) n) <= TotalIssuance s.
Proof.
  intros Hup Hn Ht.
  assert (Hb : data_bounded (with_free (edata e1) n))
    by (apply with_free_bounded; [by eapply upgraded_bounded | done]).
  split; [done |]. pose proof (dust_amount_bounds _ Hb) as [_ Hlt]. lia.
Qed.

Lemma deposit_into_existing_spec who v s :
  wf s -> ed <= TotalIssuance s -> is_balance v ->
  wp (cur_deposit_into_existing who v) s
    (outcome (fun i s' => i = PosImb v /\ deposited who v s s') (fun _ s' => harmless who s s')).
Proof.
  intros Hw Ht [Hv0 Hv1]. unfold cur_deposit_into_existing. pose proof ed_pos.
  pose proof (wf_account s who Hw) as [[Hf0 Hf1] _ _].
  destruct (Z.eqb_spec v 0) as [-> | Hne]; [apply wp_ret; split; [done | by apply deposited_none] |].
  apply wp_handling_dust; [done |]. intros e1 s1 Hup Hu.
  pose proof (harmless_upgrade who e1 s s1 s1 Hw Hup Hu ltac:(done)) as Hh.
  pose proof (up_balances _ _ Hup) as (Hbf & _ & _). rewrite <- account_edata in Hbf. rewrite Hbf.
  apply wp_bind, wp_ensure; intros _; [| done].
  apply wp_bind, wp_ok_or; [intros n [-> Hle]%checked_add_Some | done].
  apply wp_bind, wp_modify, wp_ret. split; [apply quiet_deposit |].
  destruct (dust_le_ed who e1 s (free (account who s) + v) Hup) as [Hb Hd]; [unfold is_balance; lia | done |].
  split; [done |]. split; [done |]. apply settles_free; [done |].
  destruct (_ && _ && _ && _) eqn:E; bool_to_prop; [lia |].
  intros s' Hst [Hsf Hsr _] Hti. split; [done |]. split; [| done | done | done].
  by replace (- v) with (free (account who s) - (free (account who s) + v)) by lia.
Qed.

Lemma deposit_creating_spec who v s :
  wf s -> ed <= TotalIssuance s -> is_balance v ->
  wp (cur_deposit_creating who v) s
    (outcome (fun i s' => exists x, i = PosImb x /\ (x = v \/ x = 0) /\ deposited who x s s')
       (fun _ _ => False)).
Proof.
  intros Hw Ht [Hv0 Hv1]. unfold cur_deposit_creating. pose proof ed_pos.
  pose proof (wf_account s who Hw) as [[Hf0 Hf1] _ _].
  destruct (Z.eqb_spec v 0) as [-> | Hne]; [apply wp_ret; exists 0; eauto using deposited_none |].
  apply wp_bind, wp_try, wp_handling_dust; [done |]. intros e1 s1 Hup Hu.
  pose proof (harmless_upgrade who e1 s s1 s1 Hw Hup Hu ltac:(done)) as Hh.
  pose proof (up_balances _ _ Hup) as Hbal. rewrite <- account_edata in Hbal.
  pose proof Hbal as (Hbf & Hbr & _). rewrite Hbf.
  pose proof (dust_left_self who s Hw) as Hds.
  apply wp_bind, wp_ensure; intros _.
  2: { apply wp_ret. exists 0. split_and!; [done | by right |]. destruct Hh as [Hst (Hf & Hr & _) Hti].
       split; [done | rewrite Z.add_0_r; lia | done | rewrite Z.add_0_r; lia]. }
  destruct (checked_add _ _) as [n |] eqn:Hn.
  - apply checked_add_Some in Hn as [-> Hle].
    apply wp_bind, wp_modify, wp_ret. split; [apply quiet_deposit |].
    destruct (dust_le_ed who e1 s (free (account who s) + v) Hup) as [Hb Hd]; [unfold is_balance; lia | done |].
    split; [done |]. split; [done |]. apply settles_free; [done |].
    destruct (_ && _ && _ && _) eqn:E; bool_to_prop; [lia |].
    intros s' Hst [Hsf Hsr _] Hti. apply wp_ret. exists v. split_and!; [done | by left |].
    split; [| done | done | done].
    by replace (- v) with (free (account who s) - (free (account who s) + v)) by lia.
  - apply wp_ret. split; [done |].
    assert (Hself : edata e1 = with_free (edata e1) (free (account who s))).
    { destruct (edata e1); unfold with_free; simpl in *. by subst. }
    rewrite Hself.
    destruct (dust_le_ed who e1 s (free (account who s)) Hup) as [Hb Hd]; [unfold is_balance; lia | done |].
    split; [done |]. split; [done |]. apply settles_free; [done |].
    destruct (_ && _ && _ && _) eqn:E; bool_to_prop; [lia |].
    intros s' Hst [Hsf Hsr _] Hti. apply wp_ret. exists 0. split_and!; [done | by right |].
    split; [| rewrite Z.add_0_r; lia | done | rewrite Z.add_0_r; lia]. by rewrite Z.sub_diag in Hst.
Qed.

(** An imbalance dropped after a failed mutation: no balance changed, but the issuance
    has moved by its backing. *)
Record leaked (who : AccountId) (b : Z) (s s' : State) : Prop := {
  lk_balances : forall w, balances_eq (account w s) (account w s');
  lk_issuance : TotalIssuance s' = TotalIssuance s - b;
  lk_gap : gap s' = gap s - b;
  lk_wf : wf s';
}.

Lemma harmless_drop {I} `{Droppable State I} `{Backing I} `{!DropLaw I} who (i : I) s s' :
  ledger_ok s -> 0 <= TotalIssuance s - backing i <= max_value ->
  harmless who s s' -> leaked who (backing i) s (drop_value i s').
Proof.
  intros Hok Hr [Hst Hb Hi]. pose proof (ledger_issuance_nonneg s Hok). pose proof (lo_max _ Hok).
  rewrite <- Hi in Hr. destruct (drop_moves i s' Hr) as [HA HT _]; [lia |].
  assert (Hac : forall w, account w (drop_value i s') = account w s') by (intros; by rewrite !account_edata, HA).
  split.
  - intros w. rewrite Hac. destruct (decide (w = who)) as [-> |]; [done |].
    by rewrite (acct_step_account _ _ _ _ w Hst).
  - lia.
  - pose proof (as_gap _ _ _ _ Hst). unfold gap in *. rewrite HT, (supply_same _ _ HA). lia.
  - eapply wf_accts; [done | apply Hst].
Qed.

Lemma cur_withdraw_spec who v reasons liveness s :
  ledger_ok s -> is_balance v ->
  let d := account who s in
  wp (cur_withdraw who v reasons liveness) s (fun r s' =>
    match r with
    | Ok i => i = NegImb v /\ v <= free d /\ (v <> 0 -> frozen d <= free d - v) /\
              (v <> 0 -> liveness = KeepAlive -> ed <= free d -> ed <= free d - v) /\ slashed_free who v s s'
    | Err er => harmless who s s' \/ er = ConsumerRemaining /\ leaked who v s s'
    | Panic => False
    end).
Proof.
  intros Hok [Hv0 Hv1] d. pose proof (lo_wf _ Hok) as Hw. unfold cur_withdraw. pose proof ed_pos.
  pose proof (wf_account s who Hw) as Hb. pose proof Hb as [[Hf0 Hf1] [Hr0 _] _]. fold d in Hf0, Hf1, Hr0.
  pose proof (free_le_issuance s who Hok) as Hfi. fold d in Hfi. pose proof (lo_max _ Hok).
  destruct (Z.eqb_spec v 0) as [-> | Hne].
  { apply wp_ret. split_and!; try done. by apply slashed_free_none. }
  apply wp_handling_dust; [done |]. intros e1 s1 Hup Hu.
  pose proof (harmless_upgrade who e1 s s1 s1 Hw Hup Hu ltac:(done)) as Hh.
  pose proof (up_balances _ _ Hup) as (Hbf & _ & Hbz). rewrite <- account_edata in Hbf, Hbz. fold d in Hbf, Hbz.
  rewrite Hbf. apply wp_bind, wp_ok_or; [intros n [-> Hle]%checked_sub_Some | by left].
  change ExistentialDeposit with ed. apply wp_bind, wp_ensure; intros Hlive; [| by left].
  apply wp_bind. unfold cur_ensure_can_withdraw. rewrite (proj2 (Z.eqb_neq _ _)) by done.
  apply wp_bind, wp_gets. rewrite (account_upd _ _ _ _ Hu), Hbz. apply wp_ensure; intros Hfz; [| by left].
  apply Z.leb_le in Hfz. apply wp_bind, wp_modify, wp_ret. split; [apply quiet_deposit |].
  assert (Hba : data_bounded (with_free (edata e1) (free d - v)))
    by (apply with_free_bounded; [by eapply upgraded_bounded | unfold is_balance; lia]).
  split; [done |]. split.
  { apply (dust_le_free who); [done | done |]. simpl. unfold holdings. fold d. lia. }
  apply settles_free; [done |]. destruct (_ && _ && _ && _).
  - intros s' Hh'. right. split; [done |]. change v with (backing (NegImb v)) at 1.
    apply harmless_drop; [done | | done]. change (backing (NegImb v)) with v. lia.
  - fold d. intros s' Hst [Hsf Hsr _] Ht. split_and!; try done.
    + intros _ -> Hge. simpl in Hlive. destruct (Z.ltb_spec (free d - v) ed); simpl in *; [| lia].
      rewrite (proj2 (Z.leb_le _ _)) in Hlive by done. done.
    + split; fold d; try done. by replace v with (free d - (free d - v)) at 1 by lia.
Qed.

(** The imbalance [make_free_balance_be] reports for a free balance that goes from [f] to [v]. *)
Definition signed_change (f v : Z) : SignedImbalance :=
  if f <=? v then SPositive (PosImb (v - f)) else SNegative (NegImb (f - v)).

Lemma signed_change_backing f v : backing (signed_change f v) = f - v.
Proof. unfold signed_change. destruct (f <=? v); unfold backing; simpl; unfold backing; simpl; lia. Qed.

Lemma make_free_balance_be_spec who v s :
  ledger_ok s -> ed <= TotalIssuance s -> is_balance v ->
  let f := free (account who s) in
  wp (cur_make_free_balance_be who v) s (outcome (fun i s' =>
    i = signed_change f v /\ acct_step who (f - v) s s' /\ set_free who v s s' \/
    i = SPositive (PosImb 0) /\ (harmless who s s' \/ v < ed <= f /\ leaked who (f - v) s s'))
    (fun _ _ => False)).
Proof.
  intros Hok Ht [Hv0 Hv1] f. pose proof (lo_wf _ Hok) as Hw. unfold cur_make_free_balance_be.
  pose proof (wf_account s who Hw) as [[Hf0 Hf1] _ _]. fold f in Hf0, Hf1.
  pose proof (free_le_issuance s who Hok) as Hfi. fold f in Hfi. pose proof (lo_max _ Hok).
  apply wp_bind, wp_try, wp_handling_dust; [done |]. intros e1 s1 Hup Hu.
  pose proof (harmless_upgrade who e1 s s1 s1 Hw Hup Hu ltac:(done)) as Hh.
  pose proof (up_balances _ _ Hup) as (Hbf & _ & _). rewrite <- account_edata in Hbf. fold f in Hbf.
  rewrite Hbf. apply wp_bind, wp_ensure; intros _; [| apply wp_ret; right; auto].
  apply wp_bind.
  assert (Himb : (if f <=? v then d <- rust_sub v f ;; ret (SPositive (PosImb d))
                  else d <- rust_sub f v ;; ret (SNegative (NegImb d))) s1 = (Ok (signed_change f v), s1)).
  { unfold signed_change, rust_sub, bind, ret. destruct (Z.leb_spec f v); [done |].
    by rewrite (proj2 (Z.leb_le _ _)) by lia. }
  unfold wp at 1. rewrite Himb. apply wp_bind, wp_modify, wp_ret. split; [apply quiet_deposit |].
  destruct (dust_le_ed who e1 s v Hup) as [Hb Hd]; [done | done |].
  split; [done |]. split; [done |]. apply settles_free; [done |]. fold f.
  destruct (_ && _ && _ && _) eqn:E; bool_to_prop.
  - intros s' Hh'. apply wp_ret. right. split; [done |]. right. split; [done |].
    rewrite <- signed_change_backing. apply harmless_drop; [done | | done].
    rewrite signed_change_backing. lia.
  - intros s' Hst Hsf Hti. apply wp_ret. left. by split_and!.
Qed.

(** ** Theorems *)

(** [slash] always returns, never fails: what it slashed and what it did not add up to
    the value asked for, the free balance drops by the former and the reserved one
    stays, an account that can afford it pays in full, and dropping the negative
    imbalance burns it so that the gap is as before. *)
Theorem slash_accounts who value s :
  ledger_ok s -> is_balance value ->
  exists x s', cur_slash who value s = (Ok (NegImb x, value - x), s') /\
    slashable who value x s /\ slashed_free who x s s' /\
    gap (drop_value (NegImb x) s') = gap s /\ ledger_ok (drop_value (NegImb x) s').
Proof.
  intros Hok Hv. pose proof (slash_spec who value s Hok Hv) as (x & Hr & Hsl & Hsf).
  exists x, (snd (cur_slash who value s)). split; [by rewrite <- Hr; destruct (cur_slash who value s) |].
  split; [done |]. split; [done |]. set (s' := snd _) in *. destruct Hsf as [Hst Hf _ Ht].
  pose proof Hsl as (Hx & Hxf & _). pose proof (free_le_issuance s who Hok). pose proof (lo_max _ Hok).
  pose proof (dust_left_bounds (account who s) (free (account who s) - x)).
  pose proof (drop_moves (NegImb x) s') as Hm. change (backing (NegImb x)) with x in Hm.
  specialize (Hm ltac:(lia) ltac:(lia)). pose proof (issuance_moved_gap _ _ _ Hm) as Hg.
  pose proof (as_gap _ _ _ _ Hst). pose proof (lo_gap _ Hok). destruct Hm as [HA HT _].
  split; [lia |]. split; [eapply wf_accts; [done | apply Hst] | lia | lia].
Qed.

(** The two deposits of [Currency] give a positive imbalance for what they added: the
    gap drops by exactly that amount, to be closed when the imbalance is dropped.
    [deposit_creating] never fails and deposits all or nothing. *)
Theorem currency_deposit_imbalance who v s :
  wf s -> ed <= TotalIssuance s -> is_balance v ->
  (forall i s', cur_deposit_into_existing who v s = (Ok i, s') ->
     i = PosImb v /\ deposited who v s s') /\
  (forall er s', cur_deposit_into_existing who v s = (Err er, s') -> harmless who s s') /\
  (exists x s', cur_deposit_creating who v s = (Ok (PosImb x), s') /\
     (x = v \/ x = 0) /\ deposited who x s s').
Proof.
  intros Hw Ht Hv. pose proof (deposit_into_existing_spec who v s Hw Ht Hv) as He.
  pose proof (deposit_creating_spec who v s Hw Ht Hv) as Hc. unfold wp in *.
  split_and!.
  - intros i s' Hrun. by rewrite Hrun in He.
  - intros er s' Hrun. by rewrite Hrun in He.
  - destruct (cur_deposit_creating who v s) as [[i | |] s']; [| done | done].
    destruct Hc as (x & -> & Hx & Hd). by exists x, s'.
Qed.

(** [withdraw] of [Currency] takes exactly [v], leaves what is frozen, keeps an account
    alive when told to, and gives a negative imbalance that accounts for the gap. *)
Theorem currency_withdraw_exact who v reasons liveness s i s' :
  ledger_ok s -> is_balance v ->
  cur_withdraw who v reasons liveness s = (Ok i, s') ->
  let d := account who s in
  i = NegImb v /\ v <= free d /\ slashed_free who v s s' /\
  (v <> 0 -> frozen d <= free d - v) /\
  (v <> 0 -> liveness = KeepAlive -> ed <= free d -> ed <= free d - v).
Proof.
  intros Hok Hv Hrun d.
  pose proof (cur_withdraw_spec who v reasons liveness s Hok Hv) as Hs. unfold wp in Hs.
  rewrite Hrun in Hs. simpl in Hs. fold d in Hs. tauto.
Qed.
End deposit_withdraw.

Section witness.
#[local] Existing Instance sample_config.

Lemma slash_accounts_witness :
  exists x s', cur_slash 1 100 sample_state = (Ok (NegImb x, 100 - x), s') /\
    ledger_ok (drop_value (NegImb x) s').
Proof.
  destruct (slash_accounts 1 100 sample_state) as (x & s' & Hrun & _ & _ & _ & Hl);
    [sample_ledger | sample_balance |]. exists x, s'. split; [exact Hrun | exact Hl].
Defined.

Lemma currency_deposit_imbalance_witness :
  exists x s', cur_deposit_creating 5 50 sample_state = (Ok (PosImb x), s') /\ deposited 5 x sample_state s'.
Proof.
  assert (Hok : ledger_ok sample_state) by sample_ledger.
  destruct (currency_deposit_imbalance 5 50 sample_state) as (_ & _ & x & s' & Hrun & _ & Hd);
    [apply Hok | vm_compute; discriminate | sample_balance |]. exists x, s'. split; [exact Hrun | exact Hd].
Defined.

Lemma currency_withdraw_exact_witness :
  slashed_free 2 150 sample_state (snd (cur_withdraw 2 150 WR_TRANSFER KeepAlive sample_state)).
Proof.
  assert (Hok : ledger_ok sample_state) by sample_ledger. assert (Hb : is_balance 150) by sample_balance.
  assert (Hrun : cur_withdraw 2 150 WR_TRANSFER KeepAlive sample_state =
    (Ok (NegImb 150), snd (cur_withdraw 2 150 WR_TRANSFER KeepAlive sample_state)))
    by (vm_compute; reflexivity).
  exact (proj1 (proj2 (proj2 (currency_withdraw_exact 2 150 WR_TRANSFER KeepAlive sample_state _ _ Hok Hb Hrun)))).
Defined.
End witness.
