(* ===== verification/ReserveFacts.v ===== *)
(** * Reserves

    [ReservableCurrency] on the pallet's storage: [reserve], [unreserve],
    [slash_reserved] and [repatriate_reserved]. *)

From stdpp Require Import base tactics numbers list gmap.
From S2P Require Import Prelude Dispatch System Tokens Fungible Balances BalancesFungible.
From S2P Require Import BalancesCurrency AccountSpec AccountWf Ledger FungibleFacts ImbalanceFacts CurrencyFacts.
Local Open Scope Z_scope.

Section reserve.
Context `{Config}.

(** The data of [d] with other free and reserved balances. *)
Definition with_balances (d : AccountData) (f r : Z) : AccountData := with_reserved (with_free d f) r.

Lemma with_balances_bounded d f r :
  data_bounded d -> is_balance f -> is_balance r -> data_bounded (with_balances d f r).
Proof. by intros [] ? ?. Qed.

(** The free and reserved balance of [who] have become [f] and [r], less the dust. *)
Record set_balances (who : AccountId) (f r : Z) (s s' : State) : Prop := {
  sb_free : free (account who s') = f - dust_left (with_reserved (account who s) r) f;
  sb_reserved : reserved (account who s') = r;
  sb_frozen : frozen (account who s') = if (f <? ed) && (r =? 0) then 0 else frozen (account who s);
  sb_issuance : TotalIssuance s' = TotalIssuance s - dust_left (with_reserved (account who s) r) f;
}.

Lemma set_balances_settled who f r s s' d1 :
  balances_eq (account who s) d1 -> account who s' = settled (with_balances d1 f r) ->
  TotalIssuance s' = TotalIssuance s - dust_amount (with_balances d1 f r) ->
  set_balances who f r s s'.
Proof.
  intros (Hf & Hr & Hz) Ha Ht. unfold settled, with_balances in Ha. simpl in Ha.
  unfold dust_amount, dust_of in Ht. simpl in Ht.
  split; rewrite ?Ha; unfold dust_left; simpl.
  all: destruct (f <? ed) eqn:E1, (r =? 0) eqn:E2, (f =? 0) eqn:E3; bool_to_prop; simpl in *; try lia.
Qed.

Lemma set_balances_deposit who f r s s' ev :
  set_balances who f r s s' -> set_balances who f r s (Balances.deposit ev s').
Proof. intros []. by split; rewrite ?account_deposit. Qed.

(** A mutation by a pure closure that changes free and reserved balance. *)
Lemma settles_balances {R} `{Droppable State R} who s e1 (x : R) f r (Q : Res R -> State -> Prop) :
  wf s -> upgraded (accts s !! who) e1 ->
  match commit_error (einfo e1) (with_balances (edata e1) f r) with
  | None => forall s', acct_step who (holdings (account who s) - (f + r)) s s' ->
              set_balances who f r s s' -> Q (Ok x) s'
  | Some er => forall s', harmless who s s' -> Q (Err er) (drop_value x s')
  end ->
  settles who s e1 x (with_balances (edata e1) f r) Q.
Proof.
  intros Hw Hup. unfold settles. pose proof (up_balances _ _ Hup) as Hbal.
  rewrite <- account_edata in Hbal. destruct (commit_error _ _).
  - intros HQ s' Hst Hb Ht. by apply HQ.
  - intros HQ s' Hst _ Ha Ht. apply HQ; [done |]. by eapply set_balances_settled.
Qed.

(** ** [reserve] *)

Lemma consumes_balances_eq d d1 : balances_eq d d1 -> consumes d1 = consumes d.
Proof. intros (_ & Hr & Hz). unfold consumes. by rewrite Hr, Hz. Qed.

(** An account that keeps the existential deposit can begin to consume while the
    counter has room. *)
Lemma commit_error_alive e e1 a' :
  upgraded e e1 -> provides a' = true ->
  consumes (edata e) = true \/ ai_consumers (einfo e) < MaxConsumers ->
  commit_error (einfo e1) a' = None.
Proof.
  intros Hup Hp Hc. unfold commit_error. change (ai_data (einfo e1)) with (edata e1).
  rewrite Hp, (consumes_balances_eq _ _ (up_balances _ _ Hup)). simpl. rewrite !andb_false_r. simpl.
  destruct (consumes (edata e)) eqn:E; simpl; [done |]. destruct Hc as [| Hc]; [done |].
  rewrite (up_consumers_eq _ _ Hup), (proj2 (Z.leb_gt _ _)), ?andb_false_r; [done | done |].
  unfold consumes in E. apply orb_false_iff in E as [E _]. bool_to_prop. done.
Qed.

Definition can_reserve_now (who : AccountId) (v : Z) (s : State) : Prop :=
  let d := account who s in
  frozen d <= free d - v /\ ed <= free d - v /\
  (consumes d = true \/ ai_consumers (einfo (accts s !! who)) < MaxConsumers).

Lemma reserve_spec who v s :
  ledger_ok s -> is_balance v ->
  let d := account who s in
  wp (cur_reserve who v) s (fun r s' =>
    match r with
    | Ok _ => v <= free d /\ (v <> 0 -> frozen d <= free d - v) /\ acct_step who 0 s s' /\
              balances_eq (with_balances d (free d - v) (reserved d + v)) (account who s') /\
              TotalIssuance s' = TotalIssuance s
    | Err er => harmless who s s' /\ ~ can_reserve_now who v s
    | Panic => False
    end).
Proof.
  intros Hok [Hv0 Hv1] d. pose proof (lo_wf _ Hok) as Hw. pose proof (wf_account s who Hw) as Hb.
  fold d in Hb. pose proof Hb as [[Hf0 Hf1] [Hr0 Hr1] _]. unfold cur_reserve. pose proof ed_pos.
  destruct (Z.eqb_spec v 0) as [-> | Hne].
  { apply wp_ret. split_and!; try done; [by apply acct_step_refl |].
    unfold balances_eq; simpl. fold d. lia. }
  apply wp_bind, wp_handling_dust; [done |]. intros e1 s1 Hup Hu.
  pose proof (harmless_upgrade who e1 s s1 s1 Hw Hup Hu ltac:(done)) as Hh.
  pose proof (up_balances _ _ Hup) as Hbal. rewrite <- account_edata in Hbal. fold d in Hbal.
  pose proof Hbal as (Hbf & Hbr & Hbz). rewrite Hbf, Hbr. unfold can_reserve_now. fold d.
  pose proof (account_holdings_max who s Hok) as Hhm. fold d in Hhm. unfold holdings in Hhm.
  apply wp_bind, wp_ok_or; [intros nf [-> Hle]%checked_sub_Some | intros ?%checked_sub_None; split; [done | lia]].
  apply wp_bind, wp_ok_or; [intros nr [-> Hle']%checked_add_Some | intros ?%checked_add_None; lia].
  apply wp_bind. unfold cur_ensure_can_withdraw. rewrite (proj2 (Z.eqb_neq _ _)) by done.
  apply wp_bind, wp_gets. rewrite (account_upd _ _ _ _ Hu), Hbz.
  apply wp_ensure; intros Hfz; bool_to_prop; [| split; [done | lia]].
  apply wp_ret. fold (with_balances (edata e1) (free d - v) (reserved d + v)).
  assert (Hba : data_bounded (with_balances (edata e1) (free d - v) (reserved d + v))).
  { apply with_balances_bounded; [by eapply upgraded_bounded | |]; unfold is_balance; lia. }
  split; [done |]. split; [done |]. split.
  { apply (dust_le_free who); [done | done |]. simpl. fold d. unfold holdings. lia. }
  apply settles_balances; [done | done |].
  destruct (commit_error _ _) as [er |] eqn:Hce; fold d.
  - intros s' Hh'. split; [done |]. intros (_ & Hed & Hc). rewrite (commit_error_alive _ _ _ Hup) in Hce;
      [done | by apply provides_true | done].
  - intros s' Hst [Sf Sr Sz Si]. fold d in Sf, Sr, Sz, Si. unfold dust_left in *. simpl in *.
    rewrite (proj2 (Z.eqb_neq (reserved d + v) 0)), andb_false_r in * by lia.
    apply wp_modify. split_and!; try done.
    + apply acct_step_deposit. by replace 0 with (holdings d - (free d - v + (reserved d + v)))
        by (unfold holdings; lia).
    + rewrite account_deposit. unfold balances_eq; simpl. lia.
    + rewrite TotalIssuance_deposit. lia.
Qed.

(** ** [unreserve] and [slash_reserved] *)

Lemma total_zero_reserved who s : wf s -> bal_total_balance who s = 0 -> reserved (account who s) = 0.
Proof.
  intros Hw. pose proof (wf_account s who Hw) as [[] [] _]. pose proof max_value_pos.
  unfold bal_total_balance, total, saturating_add. lia.
Qed.

(** What a release of reserved balance leaves: [f] free and [r] reserved. *)
Record unreserved (who : AccountId) (f r : Z) (s s' : State) : Prop := {
  un_free : free (account who s') = f - dust_left (with_reserved (account who s) r) f;
  un_reserved : reserved (account who s') = r;
  un_issuance : TotalIssuance s' = TotalIssuance s - dust_left (with_reserved (account who s) r) f;
}.

Lemma unreserved_none who s :
  wf s -> unreserved who (free (account who s)) (reserved (account who s)) s s.
Proof.
  intros Hw. pose proof (dust_left_self who s Hw) as Hd. unfold dust_left in *.
  split; unfold dust_left; simpl; lia.
Qed.

Lemma set_balances_unreserved who f r s s' : set_balances who f r s s' -> unreserved who f r s s'.
Proof. by intros []. Qed.

(** Lowering the reserved balance without lowering the free one cannot fail. *)
Lemma commit_error_release e1 f r :
  free (edata e1) <= f -> (r <> 0 -> reserved (edata e1) <> 0) ->
  commit_error (einfo e1) (with_balances (edata e1) f r) = None.
Proof.
  intros Hf Hr. apply commit_error_relaxed.
  - by apply provides_mono.
  - by apply consumes_mono.
Qed.

Lemma unreserve_run who v s :
  ledger_ok s -> is_balance v ->
  let d := account who s in
  let actual := Z.min (reserved d) v in
  wp (mutate_account_handling_dust who (fun account =>
      let actual := Z.min (reserved account) v in
      new_reserved <- rust_sub (reserved account) actual ;;
      let new_free := saturating_add (free account) actual in
      ret (actual, with_free (with_reserved account new_reserved) new_free))) s
    (outcome (fun x s' => x = actual /\ acct_step who 0 s s' /\
                unreserved who (free d + actual) (reserved d - actual) s s')
       (fun _ _ => False)).
Proof.
  intros Hok [Hv0 Hv1] d actual. pose proof (lo_wf _ Hok) as Hw. pose proof (wf_account s who Hw) as Hb.
  fold d in Hb. pose proof Hb as [[Hf0 Hf1] [Hr0 Hr1] _].
  pose proof (account_holdings_max who s Hok) as Hhm. fold d in Hhm. unfold holdings in Hhm.
  apply (wp_handling_dust who); [done |]. intros e1 s1 Hup Hu.
  pose proof (up_balances _ _ Hup) as Hbal. rewrite <- account_edata in Hbal. fold d in Hbal.
  pose proof Hbal as (Hbf & Hbr & _). cbv zeta. rewrite Hbf, Hbr. fold actual.
  apply wp_bind. unfold rust_sub. rewrite (proj2 (Z.leb_le _ _)) by lia. apply wp_ret, wp_ret.
  assert (Hsat : saturating_add (free d) actual = free d + actual) by (unfold saturating_add; lia).
  rewrite Hsat. change (with_free (with_reserved (edata e1) (reserved d - actual)) (free d + actual))
    with (with_balances (edata e1) (free d + actual) (reserved d - actual)).
  split; [done |].
  assert (Hba : data_bounded (with_balances (edata e1) (free d + actual) (reserved d - actual))).
  { apply with_balances_bounded; [by eapply upgraded_bounded | |]; unfold is_balance; lia. }
  split; [done |]. split.
  { apply (dust_le_free who); [done | done |]. simpl. fold d. unfold holdings. lia. }
  apply settles_balances; [done | done |]. rewrite commit_error_release by lia. fold d.
  intros s' Hst Hsb. split; [done |]. split; [| by apply set_balances_unreserved].
  by replace 0 with (holdings d - (free d + actual + (reserved d - actual))) by (unfold holdings; lia).
Qed.

Lemma unreserve_spec who v s :
  ledger_ok s -> is_balance v ->
  let d := account who s in
  let actual := Z.min (reserved d) v in
  wp (cur_unreserve who v) s
    (outcome (fun x s' => x = v - actual /\ acct_step who 0 s s' /\
                unreserved who (free d + actual) (reserved d - actual) s s')
       (fun _ _ => False)).
Proof.
  intros Hok Hv d actual. pose proof (lo_wf _ Hok) as Hw. pose proof (wf_account s who Hw) as [_ [Hr0 _] _].
  fold d in Hr0. pose proof Hv as [Hv0 _]. unfold cur_unreserve.
  assert (Hnop : actual = 0 -> acct_step who 0 s s /\
    unreserved who (free d + actual) (reserved d - actual) s s).
  { intros ->. split; [by apply acct_step_refl |]. rewrite Z.add_0_r, Z.sub_0_r. by apply unreserved_none. }
  destruct (Z.eqb_spec v 0) as [-> | Hne].
  { apply wp_ret. split; [lia |]. apply Hnop. lia. }
  apply wp_bind, wp_gets. destruct (Z.eqb_spec (bal_total_balance who s) 0) as [Hz | Hz].
  { apply (total_zero_reserved who s Hw) in Hz. fold d in Hz. apply wp_ret. split; [lia |]. apply Hnop. lia. }
  apply wp_bind, wp_try. eapply wp_mono; [by apply unreserve_run |]. fold d. fold actual.
  intros [x | er |] s1; simpl; [| done | done]. intros (-> & Hst & [Uf Ur Ui]).
  apply wp_bind, wp_modify. unfold rust_sub. rewrite (proj2 (Z.leb_le _ _)) by lia. apply wp_ret.
  split; [done |]. split; [by apply acct_step_deposit |]. split; rewrite ?account_deposit; done.
Qed.

Lemma slash_reserved_run who v s :
  ledger_ok s -> is_balance v ->
  let d := account who s in
  let actual := Z.min v (reserved d) in
  wp (mutate_account_handling_dust who (fun account =>
      let actual := Z.min v (reserved account) in
      let account := with_reserved account (saturating_sub (reserved account) actual) in
      ret ((NegImb actual, saturating_sub v actual), account))) s
    (outcome (fun x s' => x = (NegImb actual, v - actual) /\ acct_step who actual s s' /\
                unreserved who (free d) (reserved d - actual) s s')
       (fun _ _ => False)).
Proof.
  intros Hok [Hv0 Hv1] d actual. pose proof (lo_wf _ Hok) as Hw. pose proof (wf_account s who Hw) as Hb.
  fold d in Hb. pose proof Hb as [[Hf0 Hf1] [Hr0 Hr1] _].
  apply (wp_handling_dust who); [done |]. intros e1 s1 Hup Hu.
  pose proof (up_balances _ _ Hup) as Hbal. rewrite <- account_edata in Hbal. fold d in Hbal.
  pose proof Hbal as (Hbf & Hbr & _). cbv zeta. rewrite Hbr. fold actual. apply wp_ret.
  assert (Hsr : saturating_sub (reserved d) actual = reserved d - actual) by (unfold saturating_sub; lia).
  assert (Hsv : saturating_sub v actual = v - actual) by (unfold saturating_sub; lia). rewrite Hsr, Hsv.
  assert (Hw' : with_reserved (edata e1) (reserved d - actual) =
                with_balances (edata e1) (free d) (reserved d - actual)).
  { unfold with_balances, with_reserved, with_free; simpl. by rewrite Hbf. }
  rewrite Hw'. split; [done |].
  assert (Hba : data_bounded (with_balances (edata e1) (free d) (reserved d - actual))).
  { apply with_balances_bounded; [by eapply upgraded_bounded | |]; unfold is_balance; lia. }
  split; [done |]. split.
  { apply (dust_le_free who); [done | done |]. simpl. fold d. unfold holdings. lia. }
  apply settles_balances; [done | done |]. rewrite commit_error_release by lia. fold d.
  intros s' Hst Hsb. split; [done |]. split; [| by apply set_balances_unreserved].
  by replace actual with (holdings d - (free d + (reserved d - actual))) at 1 by (unfold holdings; lia).
Qed.

Lemma slash_reserved_spec who v s :
  ledger_ok s -> is_balance v ->
  let d := account who s in
  let actual := Z.min v (reserved d) in
  wp (cur_slash_reserved who v) s
    (outcome (fun x s' => x = (NegImb actual, v - actual) /\ acct_step who actual s s' /\
                unreserved who (free d) (reserved d - actual) s s')
       (fun _ _ => False)).
Proof.
  intros Hok Hv d actual. pose proof (lo_wf _ Hok) as Hw. pose proof (wf_account s who Hw) as [_ [Hr0 _] _].
  fold d in Hr0. pose proof Hv as [Hv0 _]. unfold cur_slash_reserved.
  assert (Hnop : actual = 0 -> acct_step who actual s s /\ unreserved who (free d) (reserved d - actual) s s).
  { intros ->. split; [by apply acct_step_refl |]. rewrite Z.sub_0_r. by apply unreserved_none. }
  destruct (Z.eqb_spec v 0) as [-> | Hne].
  { apply wp_ret. assert (actual = 0) as Ha by lia. split; [by rewrite Ha |]. by apply Hnop. }
  apply wp_bind, wp_gets. destruct (Z.eqb_spec (bal_total_balance who s) 0) as [Hz | Hz].
  { apply (total_zero_reserved who s Hw) in Hz. fold d in Hz. apply wp_ret.
    assert (actual = 0) as Ha by lia. split; [by rewrite Ha, Z.sub_0_r |]. by apply Hnop. }
  apply wp_bind, wp_try. eapply wp_mono; [by apply slash_reserved_run |]. fold d. fold actual.
  intros [x | er |] s1; simpl; [| done | done]. intros (-> & Hst & [Uf Ur Ui]).
  apply wp_bind, wp_modify, wp_ret.
  split; [done |]. split; [by apply acct_step_deposit |]. split; rewrite ?account_deposit; done.
Qed.

(** ** Theorems *)

(** [reserve] moves [v] from the free to the reserved balance and nothing else: neither
    the issuance nor the gap nor any other account changes, what is frozen stays
    covered by the free balance, and on failure every balance is as before.  When
    [can_reserve] says so and the account can take a consumer reference, it succeeds. *)
Theorem reserve_exact who v s :
  ledger_ok s -> is_balance v ->
  let d := account who s in
  match cur_reserve who v s with
  | (Ok _, s') => v <= free d /\ (v <> 0 -> frozen d <= free d - v) /\ acct_step who 0 s s' /\
      balances_eq (with_balances d (free d - v) (reserved d + v)) (account who s') /\
      TotalIssuance s' = TotalIssuance s
  | (Err er, s') => harmless who s s' /\
      (fst (cur_can_reserve who v s) = Ok true ->
       consumes d = false /\ MaxConsumers <= ai_consumers (einfo (accts s !! who)))
  | (Panic, _) => False
  end.
Proof.
  intros Hok Hv d. pose proof (reserve_spec who v s Hok Hv) as Hs. unfold wp in Hs.
  assert (Hz : v = 0 -> cur_reserve who v s = (Ok tt, s)) by (by intros ->).
  destruct (cur_reserve who v s) as [[[] | er |] s']; simpl in Hs; [done | | done].
  destruct Hs as [Hh Hc]. split; [done |]. unfold cur_can_reserve, can_reserve_now in *. fold d in Hc.
  destruct (Z.eqb_spec v 0) as [E | E]; [by specialize (Hz E) |].
  unfold bind at 1, gets at 1. fold d. destruct (checked_sub (free d) v) as [n |] eqn:Hn; [| done].
  apply checked_sub_Some in Hn as [-> Hle]. change ExistentialDeposit with ed.
  destruct (Z.leb_spec ed (free d - v)); [| done].
  unfold bind, try, cur_ensure_can_withdraw. rewrite (proj2 (Z.eqb_neq _ _)) by done.
  unfold bind, gets. fold d. unfold ensure. destruct (Z.leb_spec (frozen d) (free d - v)); [| done].
  intros _. destruct (consumes d); [tauto |]. split; [done |].
  destruct (decide (ai_consumers (einfo (accts s !! who)) < MaxConsumers)); [tauto | lia].
Qed.

Lemma acct_step_ok who s s' :
  ledger_ok s -> acct_step who 0 s s' -> TotalIssuance s' <= TotalIssuance s -> ledger_ok s'.
Proof.
  intros Hok Hst Ht. eapply acct_step_ledger; [done | done | |].
  - pose proof (lo_gap _ Hok). lia.
  - pose proof (lo_max _ Hok). lia.
Qed.

(** Reserving and then unreserving the same value is the identity on balances: the
    account has its old free, reserved and frozen balance back, nothing is left to
    unreserve, and the issuance has not changed. *)
Theorem reserve_unreserve who v s s1 :
  ledger_ok s -> is_balance v -> cur_reserve who v s = (Ok tt, s1) ->
  exists s2, cur_unreserve who v s1 = (Ok 0, s2) /\
    free (account who s2) = free (account who s) /\
    reserved (account who s2) = reserved (account who s) /\
    TotalIssuance s2 = TotalIssuance s /\ ledger_ok s2 /\
    forall w, w <> who -> account w s2 = account w s.
Proof.
  intros Hok Hv Hrun. pose proof (reserve_spec who v s Hok Hv) as Hs. unfold wp in Hs. rewrite Hrun in Hs.
  simpl in Hs. destruct Hs as (Hle & _ & Hst & (Hf & Hr & Hz) & Ht). simpl in Hf, Hr, Hz.
  pose proof (wf_account s who (lo_wf _ Hok)) as [_ [Hr0 _] _]. pose proof Hv as [Hv0 _].
  assert (Hok1 : ledger_ok s1) by (eapply acct_step_ok; [done | done | lia]).
  pose proof (unreserve_spec who v s1 Hok1 Hv) as Hs. unfold wp in Hs.
  destruct (cur_unreserve who v s1) as [[x | |] s2]; simpl in Hs; [| done | done].
  rewrite Hf, Hr in Hs. rewrite Z.min_r in Hs by lia. destruct Hs as (-> & Hst2 & [Uf Ur Ui]).
  assert (Hd : dust_left (with_reserved (account who s1) (reserved (account who s) + v - v))
    (free (account who s) - v + v) = 0).
  { rewrite <- (dust_left_self who s (lo_wf _ Hok)). unfold dust_left; simpl.
    by replace (reserved _ + v - v) with (reserved (account who s)) by lia;
      replace (free _ - v + v) with (free (account who s)) by lia. }
  rewrite Hd in *. exists s2. split; [f_equal; f_equal; lia |]. split_and!; try lia.
  - eapply acct_step_ok; [exact Hok1 | done | lia].
  - intros w Hw. by rewrite (acct_step_account _ _ _ _ w Hst2 Hw), (acct_step_account _ _ _ _ w Hst Hw).
Qed.

(** [unreserve] and [slash_reserved] never fail and account for every unit: the reserved
    balance drops by the smaller of the value and what is reserved, that amount is
    freed or handed over as a negative imbalance, and the rest of the value is
    returned. *)
Theorem unreserve_slash_account who v s :
  ledger_ok s -> is_balance v ->
  let d := account who s in
  let n := Z.min (reserved d) v in
  (exists s', cur_unreserve who v s = (Ok (v - n), s') /\ acct_step who 0 s s' /\
     unreserved who (free d + n) (reserved d - n) s s') /\
  (exists s', cur_slash_reserved who v s = (Ok (NegImb n, v - n), s') /\ acct_step who n s s' /\
     unreserved who (free d) (reserved d - n) s s').
Proof.
  intros Hok Hv d n. pose proof (unreserve_spec who v s Hok Hv) as Hu.
  pose proof (slash_reserved_spec who v s Hok Hv) as Hs. unfold wp in *. fold d in Hu, Hs. fold n in Hu.
  rewrite (Z.min_comm v) in Hs. fold n in Hs. split.
  - destruct (cur_unreserve who v s) as [[x | |] s']; simpl in Hu; [| done | done].
    destruct Hu as (-> & ? & ?). by exists s'.
  - destruct (cur_slash_reserved who v s) as [[x | |] s']; simpl in Hs; [| done | done].
    destruct Hs as (-> & ? & ?). by exists s'.
Qed.
End reserve.

Section witness.
#[local] Existing Instance sample_config.

Lemma reserve_exact_witness :
  acct_step 2 0 sample_state (snd (cur_reserve 2 150 sample_state)).
Proof.
  assert (Hrun : fst (cur_reserve 2 150 sample_state) = Ok tt) by (vm_compute; reflexivity).
  assert (Hok : ledger_ok sample_state) by sample_ledger. assert (Hb : is_balance 150) by sample_balance.
  pose proof (reserve_exact 2 150 sample_state Hok Hb) as W.
  destruct (cur_reserve 2 150 sample_state) as [[[] | er |] s'];
    [exact (proj1 (proj2 (proj2 W))) | discriminate Hrun | discriminate Hrun].
Defined.

Lemma reserve_unreserve_witness :
  exists s2, cur_unreserve 2 150 (snd (cur_reserve 2 150 sample_state)) = (Ok 0, s2) /\ ledger_ok s2.
Proof.
  assert (Hrun : cur_reserve 2 150 sample_state = (Ok tt, snd (cur_reserve 2 150 sample_state)))
    by (vm_compute; reflexivity).
  assert (Hok : ledger_ok sample_state) by sample_ledger. assert (Hb : is_balance 150) by sample_balance.
  destruct (reserve_unreserve 2 150 sample_state _ Hok Hb Hrun) as (s2 & Hu & _ & _ & _ & Hl & _).
  exists s2. split; [exact Hu | exact Hl].
Defined.

Lemma unreserve_slash_account_witness :
  exists s', cur_slash_reserved 1 50 sample_state
    = (Ok (NegImb (Z.min (reserved (account 1 sample_state)) 50),
           50 - Z.min (reserved (account 1 sample_state)) 50), s').
Proof.
  destruct (unreserve_slash_account 1 50 sample_state) as [_ (s' & Hs & _)];
    [sample_ledger | sample_balance |]. exists s'. exact Hs.
Defined.
End witness.
