(* ===== verification/RepatriateFacts.v ===== *)
(** * Moving reserved balance between accounts

    [do_transfer_reserved] mutates one account inside the mutation of another; the
    theorems here say what the two mutations do together. *)

From stdpp Require Import base tactics numbers list gmap.
From S2P Require Import Prelude Dispatch System Tokens Fungible Balances BalancesFungible.
From S2P Require Import BalancesCurrency AccountSpec AccountWf Ledger FungibleFacts CurrencyFacts.
From S2P Require Import ReserveFacts.
Local Open Scope Z_scope.

Section repatriate.
Context `{Config}.

(** The beneficiary's data with [n] more, free or reserved. *)
Definition credit_to (status : BalanceStatus) (d : AccountData) (n : Z) : AccountData :=
  match status with
  | StatusFree => with_free d (free d + n)
  | StatusReserved => with_reserved d (reserved d + n)
  end.

Lemma credit_to_bounded status d n :
  data_bounded d -> 0 <= n -> holdings d + n <= max_value -> data_bounded (credit_to status d n).
Proof.
  intros [[] [] ?] Hn Hh. unfold holdings in Hh. destruct status; split; simpl; try done; unfold is_balance; lia.
Qed.

Lemma holdings_credit_to status d n : holdings (credit_to status d n) = holdings d + n.
Proof. destruct status; unfold holdings; simpl; lia. Qed.

Lemma with_reserved_bounded d n : data_bounded d -> is_balance n -> data_bounded (with_reserved d n).
Proof. by intros [] ?. Qed.

Definition inner_moved (slashed : AccountId) (to_account : AccountData) (actual : Z)
    (status : BalanceStatus) (s1 : State) (r : Res (AccountData * unit * option Z)) (s2 : State) : Prop :=
  exists d1 e2, balances_eq (account slashed s1) d1 /\ data_bounded d1 /\
    let a' := with_reserved d1 (reserved (account slashed s1) - actual) in
    r = Ok ((credit_to status to_account actual, tt), dust_of a') /\
    upd slashed e2 s1 s2 /\ wf s2 /\ account slashed s2 = settled a'.

(** The inner mutation: [actual] leaves the reserved balance of [slashed] and is added
    to the data of the beneficiary that the outer mutation holds. *)
Lemma inner_transfer_spec slashed to_account actual status s1 :
  wf s1 -> 0 <= actual <= reserved (account slashed s1) ->
  data_bounded to_account -> holdings to_account + actual <= max_value ->
  wp (try_mutate_account slashed (fun from_account _ =>
        to_account <-
          match status with
          | StatusFree =>
              x <- ok_or (checked_add (free to_account) actual) (Arithmetic Overflow) ;;
              ret (with_free to_account x)
          | StatusReserved =>
              x <- ok_or (checked_add (reserved to_account) actual) (Arithmetic Overflow) ;;
              ret (with_reserved to_account x)
          end ;;
        let from_account :=
          with_reserved from_account (saturating_sub (reserved from_account) actual) in
        ret ((to_account, tt), from_account))) s1 (inner_moved slashed to_account actual status s1).
Proof.
  intros Hw Ha Hto Hmax. apply wp_try_mutate_account; [done |]. intros e1 s2 Hup Hu.
  pose proof (up_balances _ _ Hup) as Hbal. rewrite <- account_edata in Hbal.
  pose proof Hbal as (Hbf & Hbr & Hbz). pose proof (upgraded_bounded _ _ Hup) as Hb1.
  pose proof (wf_account s1 slashed Hw) as [_ [Hr0 Hr1] _].
  assert (Hsr : saturating_sub (reserved (edata e1)) actual = reserved (account slashed s1) - actual)
    by (unfold saturating_sub; lia).
  assert (Hfin : forall s3, quiet s2 s3 ->
    wp (ret ((credit_to status to_account actual, tt),
             with_reserved (edata e1) (reserved (account slashed s1) - actual))) s3
    (fun r s4 => match r with
       | Ok (x, a') => quiet s2 s4 /\ data_bounded a' /\ commits slashed s1 e1 x a'
                                        (inner_moved slashed to_account actual status s1)
       | _ => False end)).
  { intros s3 Hq. apply wp_ret. split; [done |].
    split; [apply with_reserved_bounded; [done | unfold is_balance; lia] |].
    unfold commits. rewrite commit_error_relaxed.
    - intros s' Hu' Hw' Ha'. exists (edata e1). unfold inner_moved. eauto 10.
    - by apply provides_mono.
    - apply consumes_mono; [simpl; lia | done]. }
  apply wp_bind. pose proof Hto as [[] [] _]. unfold holdings in Hmax.
  destruct status.
  all: apply wp_bind, wp_ok_or; [intros x [-> _]%checked_add_Some | intros ?%checked_add_None; lia];
    apply wp_ret; cbv zeta; rewrite Hsr.
  all: eapply wp_mono; [by apply Hfin |]; by intros [[x a'] | |] s4.
Qed.

(** [n] of the reserved balance of [slashed] has gone to [beneficiary]. *)
Record repatriated (slashed beneficiary : AccountId) (n : Z) (status : BalanceStatus)
    (s s' : State) : Prop := {
  rp_ledger : ledger_ok s';
  rp_gap : gap s' = gap s;
  rp_lists : same_lists s s';
  rp_others : forall w, w <> slashed -> w <> beneficiary -> accts s' !! w = accts s !! w;
  rp_slashed : slashed <> beneficiary ->
    let d := account slashed s in
    reserved (account slashed s') = reserved d - n /\
    free (account slashed s') = free d - dust_left (with_reserved d (reserved d - n)) (free d);
  rp_beneficiary : slashed <> beneficiary ->
    let d := credit_to status (account beneficiary s) n in
    reserved (account beneficiary s') = reserved d /\
    free (account beneficiary s') = free d - dust_left d (free d);
  rp_self : slashed = beneficiary ->
    match status with
    | StatusFree => unreserved slashed (free (account slashed s) + n) (reserved (account slashed s) - n) s s'
    | StatusReserved => s' = s
    end;
}.

(** Settling new data: what is left, and the dust. *)
Lemma settled_balances a :
  reserved (settled a) = reserved a /\ free (settled a) = free a - dust_left a (free a) /\
  dust_amount a = dust_left a (free a).
Proof.
  unfold settled, dust_amount, dust_of, dust_left.
  destruct (free a <? ed), (reserved a =? 0) eqn:E, (free a =? 0) eqn:E'; bool_to_prop; simpl; lia.
Qed.

Lemma dust_left_ext d d' n : reserved d = reserved d' -> dust_left d n = dust_left d' n.
Proof. unfold dust_left. by intros ->. Qed.

(** An error of [do_transfer_reserved]: the issuance and the lists are as before.  Either no balance has
    changed, because there was not enough or the beneficiary had nothing at all; or the reserved
    balance of the beneficiary could not take a consumer reference, and balance is off the accounts. *)
Definition repatriate_failed (beneficiary : AccountId) (precision : Precision) (status : BalanceStatus) (s : State)
    (er : DispatchError) (s' : State) : Prop :=
  wf s' /\ TotalIssuance s' = TotalIssuance s /\ gap s <= gap s' /\ same_lists s s' /\
  (harmless beneficiary s s' /\
     (er = Token FundsUnavailable /\ precision = Exact \/
      er = Error_into DeadAccount /\ holdings (account beneficiary s) = 0) \/
   status = StatusReserved /\ (er = TooManyConsumers \/ er = NoProviders)).

Lemma harmless_failed beneficiary precision status s s' er : harmless beneficiary s s' ->
  er = Token FundsUnavailable /\ precision = Exact \/
  er = Error_into DeadAccount /\ holdings (account beneficiary s) = 0 ->
  repatriate_failed beneficiary precision status s er s'.
Proof.
  intros Hh Her. pose proof Hh as [[] _ ?]. unfold repatriate_failed.
  split_and!; [done | done | lia | done | left; by split].
Qed.

Lemma commit_error_credit_to e1 status n er :
  0 <= n -> commit_error (einfo e1) (credit_to status (edata e1) n) = Some er ->
  status = StatusReserved /\ (er = TooManyConsumers \/ er = NoProviders).
Proof.
  intros Hn. unfold commit_error. change (ai_data (einfo e1)) with (edata e1). destruct status.
  - change (consumes (credit_to StatusFree (edata e1) n)) with (consumes (edata e1)).
    destruct (provides (edata e1)) eqn:Hp.
    + rewrite (provides_mono (edata e1) (credit_to StatusFree (edata e1) n)); [| simpl; lia | done].
      by destruct (consumes (edata e1)).
    + by destruct (consumes (edata e1)).
  - intros Hce. split; [done |]. revert Hce.
    destruct (_ && _ && _); [intros [= <-]; auto |].
    destruct (_ && _); [intros [= <-]; auto |].
    destruct (provides (edata e1)) eqn:Hp; [| done].
    by rewrite (provides_mono (edata e1) (credit_to StatusReserved (edata e1) n)).
Qed.

(** Both mutations, before the dust is handed over. *)
Definition both_moved (slashed beneficiary : AccountId) (actual : Z) (status : BalanceStatus) (s : State)
    (r : Res (unit * option Z * option Z)) (s3 : State) : Prop :=
  exists d1 d2, balances_eq (account slashed s) d1 /\ balances_eq (account beneficiary s) d2 /\
    let a1 := with_reserved d1 (reserved (account slashed s) - actual) in
    let a2 := credit_to status d2 actual in
    data_bounded a1 /\ data_bounded a2 /\
    r = Ok ((tt, dust_of a1), dust_of a2) /\ wf s3 /\ same_storage s s3 /\
    (forall w, w <> slashed -> w <> beneficiary -> accts s3 !! w = accts s !! w) /\
    account slashed s3 = settled a1 /\ account beneficiary s3 = settled a2 /\
    gap s3 = gap s + dust_amount a1 + dust_amount a2.

Definition both_failed (beneficiary : AccountId) (status : BalanceStatus) (s : State) (r : Res (unit * option Z * option Z)) (s3 : State) : Prop :=
  exists er, r = Err er /\ forall precision, repatriate_failed beneficiary precision status s er s3.

Lemma balances_eq_holdings d d1 : balances_eq d d1 -> holdings d1 = holdings d.
Proof. intros (? & ? & _). unfold holdings. lia. Qed.

(** The state between the two commits: the beneficiary upgraded to [e1], and [actual]
    off the reserved balance of [slashed], whose data before settling is [a1]. *)
Record between (slashed beneficiary : AccountId) (actual : Z) (e1 : Entry) (a1 : AccountData)
    (s s2 : State) : Prop := {
  bt_wf : wf s2;
  bt_storage : same_storage s s2;
  bt_bounded : data_bounded a1;
  bt_slashed : account slashed s2 = settled a1;
  bt_beneficiary : account beneficiary s2 = edata e1;
  bt_others : forall w, w <> slashed -> w <> beneficiary -> accts s2 !! w = accts s !! w;
  bt_gap : gap s2 = gap s + actual + dust_amount a1;
}.

Lemma inner_between slashed beneficiary actual s s1 s2 e1 e2 d1 :
  wf s -> slashed <> beneficiary -> 0 <= actual <= reserved (account slashed s) ->
  upgraded (accts s !! beneficiary) e1 -> upd beneficiary e1 s s1 ->
  balances_eq (account slashed s) d1 -> data_bounded d1 -> upd slashed e2 s1 s2 -> wf s2 ->
  let a1 := with_reserved d1 (reserved (account slashed s) - actual) in
  account slashed s2 = settled a1 -> between slashed beneficiary actual e1 a1 s s2.
Proof.
  intros Hw Hne Ha Hup Hu1 Hb1 Hd1 Hu2 Hw2 a1 Ha1.
  pose proof (up_balances _ _ Hup) as Hbal. rewrite <- account_edata in Hbal.
  pose proof (account_upd_ne _ slashed _ _ _ Hu1 Hne) as Hs1.
  assert (Hba1 : data_bounded a1).
  { apply with_reserved_bounded; [done |]. pose proof (wf_account s slashed Hw) as [_ [] _].
    unfold is_balance. lia. }
  pose proof (wf_upd _ _ _ _ Hw (up_wf _ _ Hup) Hu1) as Hw1.
  pose proof (as_gap _ _ _ _ (acct_step_upd _ _ _ _ Hu1 Hw1)) as Hg1.
  pose proof (as_gap _ _ _ _ (acct_step_upd _ _ _ _ Hu2 Hw2)) as Hg2.
  rewrite (account_upd _ _ _ _ Hu1), (balances_eq_holdings _ _ Hbal) in Hg1.
  rewrite Ha1, Hs1, (holdings_settled a1 Hba1) in Hg2. split; try done.
  - etrans; [apply Hu1 | apply Hu2].
  - rewrite (account_upd_ne _ _ _ _ _ Hu2) by congruence. by apply (account_upd _ _ _ _ Hu1).
  - intros w ? ?. rewrite (upd_lookup_ne _ _ _ _ _ Hu2) by done. by apply (upd_lookup_ne _ _ _ _ _ Hu1).
  - destruct Hb1 as (? & _ & _). unfold holdings, a1 in *; simpl in *. lia.
Qed.

Lemma drop_no_imbalance (x : unit * option Z) (s : State) : drop_value x s = s.
Proof. by destruct x as [[] [|]]. Qed.

Lemma outer_commit slashed beneficiary actual status s s2 e1 d1 :
  slashed <> beneficiary -> 0 <= actual -> holdings (account beneficiary s) + actual <= max_value ->
  upgraded (accts s !! beneficiary) e1 -> balances_eq (account slashed s) d1 ->
  let a1 := with_reserved d1 (reserved (account slashed s) - actual) in
  between slashed beneficiary actual e1 a1 s s2 ->
  commits beneficiary s2 e1 (tt, dust_of a1) (credit_to status (edata e1) actual) (fun r s3 =>
    both_moved slashed beneficiary actual status s r s3 \/ both_failed beneficiary status s r s3).
Proof.
  intros Hne Ha Hmax Hup Hb1 a1 [Hw2 Hst Hba1 Hsl Hbe Hot Hg].
  pose proof (up_balances _ _ Hup) as Hbal. rewrite <- account_edata in Hbal.
  pose proof (dust_amount_bounds a1 Hba1) as [[Hdp _] _].
  assert (Hba2 : data_bounded (credit_to status (edata e1) actual)).
  { apply credit_to_bounded; [by eapply upgraded_bounded | done |]. by rewrite (balances_eq_holdings _ _ Hbal). }
  unfold commits. destruct (commit_error _ _) as [er |] eqn:Hce.
  - intros e' s3 _ Hu3 Hw3 Hb3. right. exists er. split; [done |]. intros precision. rewrite drop_no_imbalance.
    pose proof (as_gap _ _ _ _ (acct_step_upd _ _ _ _ Hu3 Hw3)) as Hg3.
    rewrite (balances_eq_holdings _ _ Hb3) in Hg3. split_and!; [done | | lia | |].
    + rewrite (same_issuance _ _ (upd_storage _ _ _ _ Hu3)). apply Hst.
    + apply same_storage_lists. etrans; [done | apply Hu3].
    + right. eapply commit_error_credit_to; [| exact Hce]. done.
  - intros s3 Hu3 Hw3 Ha3. left. exists d1, (edata e1).
    pose proof (as_gap _ _ _ _ (acct_step_upd _ _ _ _ Hu3 Hw3)) as Hg3.
    rewrite Hbe, Ha3, (holdings_settled _ Hba2), holdings_credit_to in Hg3.
    split; [done |]. split; [done |]. cbv zeta. fold a1. split_and!; try done.
    + etrans; [done | apply Hu3].
    + intros w ? ?. rewrite (upd_lookup_ne _ _ _ _ _ Hu3) by done. by apply Hot.
    + by rewrite (account_upd_ne _ _ _ _ _ Hu3).
    + lia.
Qed.

Lemma both_mutations slashed beneficiary actual status s :
  wf s -> slashed <> beneficiary -> 0 <= actual <= reserved (account slashed s) ->
  holdings (account beneficiary s) + actual <= max_value ->
  wp (try_mutate_account beneficiary (fun to_account is_new =>
        do ensure (negb is_new) (Error_into DeadAccount) ;;
        '((to_account, u), maybe_dust) <-
          try_mutate_account slashed (fun from_account _ =>
            to_account <-
              match status with
              | StatusFree =>
                  x <- ok_or (checked_add (free to_account) actual) (Arithmetic Overflow) ;;
                  ret (with_free to_account x)
              | StatusReserved =>
                  x <- ok_or (checked_add (reserved to_account) actual) (Arithmetic Overflow) ;;
                  ret (with_reserved to_account x)
              end ;;
            let from_account :=
              with_reserved from_account (saturating_sub (reserved from_account) actual) in
            ret ((to_account, tt), from_account)) ;;
        ret ((u, maybe_dust), to_account))) s (fun r s3 =>
    both_moved slashed beneficiary actual status s r s3 \/ both_failed beneficiary status s r s3).
Proof.
  intros Hw Hne Ha Hmax. apply wp_try_mutate_account_nested; [done |]. intros e1 s1 Hup Hu1.
  pose proof (up_balances _ _ Hup) as Hbal. rewrite <- account_edata in Hbal.
  apply wp_bind, wp_ensure; intros Hnew.
  2: { right. eexists. split; [done |]. intros precision. apply harmless_failed; [by eapply harmless_upgrade |]. right. split; [done |].
       apply negb_false_iff, bool_decide_eq_true in Hnew. destruct Hbal as (Hf & Hr & _). rewrite Hnew in Hf, Hr.
       unfold holdings. rewrite <- Hf, <- Hr. done. }
  pose proof (account_upd_ne _ slashed _ _ _ Hu1 Hne) as Hs1.
  pose proof (wf_upd _ _ _ _ Hw (up_wf _ _ Hup) Hu1) as Hw1. pose proof (upgraded_bounded _ _ Hup) as Hbe.
  apply wp_bind. eapply wp_mono; [apply inner_transfer_spec; [done | by rewrite Hs1 | done |] |].
  { by rewrite (balances_eq_holdings _ _ Hbal). }
  intros r s2 (d1 & e2 & Hb1 & Hd1 & -> & Hu2 & Hw2 & Ha1). rewrite Hs1 in *. apply wp_ret.
  pose proof (inner_between _ _ _ _ _ _ _ _ _ Hw Hne Ha Hup Hu1 Hb1 Hd1 Hu2 Hw2 Ha1) as Hbt.
  split_and!; [done | | |].
  - rewrite (upd_lookup_ne _ _ _ _ _ Hu2) by congruence. by apply (upd_lookup _ _ _ _ Hu1).
  - apply credit_to_bounded; [done | lia |]. by rewrite (balances_eq_holdings _ _ Hbal).
  - apply outer_commit; try done. lia.
Qed.

Lemma drop_credit_lists x s : same_lists s (bal_drop_credit x s).
Proof. unfold bal_drop_credit. by destruct (x =? 0). Qed.

(** Handing over the dust of both accounts closes the gap again. *)
Lemma both_moved_dust slashed beneficiary actual status s r s3 ev :
  ledger_ok s -> slashed <> beneficiary -> 0 <= actual ->
  holdings (account slashed s) + holdings (account beneficiary s) <= supply s ->
  both_moved slashed beneficiary actual status s r s3 ->
  exists dust1 dust2, r = Ok ((tt, dust1), dust2) /\
  wp (do handle_raw_maybe_dust dust1 ;; do handle_raw_maybe_dust dust2 ;;
      do modify (Balances.deposit ev) ;; ret actual) s3
    (outcome (fun x s' => x = actual /\ repatriated slashed beneficiary actual status s s')
       (fun _ _ => False)).
Proof.
  intros Hok Hne Ha Hsum (d1 & d2 & Hb1 & Hb2 & Hbd1 & Hbd2 & -> & Hw3 & Hst & Hot & Hs1 & Hs2 & Hg).
  set (a1 := with_reserved d1 _) in *. set (a2 := credit_to status d2 actual) in *.
  eexists _, _. split; [done |].
  pose proof (dust_amount_bounds a1 Hbd1) as [[Hd10 Hd11] _].
  pose proof (dust_amount_bounds a2 Hbd2) as [[Hd20 Hd21] _].
  assert (Hle : dust_amount a1 + dust_amount a2 <= TotalIssuance s3).
  { rewrite (same_issuance _ _ Hst). pose proof (lo_gap _ Hok). unfold gap in *.
    pose proof (supply_nonneg _ Hw3). rewrite (same_issuance _ _ Hst) in Hg. lia. }
  apply wp_bind. unfold wp at 1. rewrite handle_raw_maybe_dust_run by done. simpl.
  destruct (drop_credit_frame (dust_amount a1) s3) as [HA1 HT1]; [lia |].
  set (s4 := bal_drop_credit (dust_amount a1) s3) in *.
  apply wp_bind. unfold wp at 1. rewrite handle_raw_maybe_dust_run by done. simpl.
  destruct (drop_credit_frame (dust_amount a2) s4) as [HA2 HT2]; [lia |].
  set (s5 := bal_drop_credit (dust_amount a2) s4) in *. apply wp_bind, wp_modify, wp_ret.
  assert (HA : accts (Balances.deposit ev s5) = accts s3) by (rewrite accts_deposit, HA2; done).
  assert (Hac : forall w, account w (Balances.deposit ev s5) = account w s3)
    by (intros w; by rewrite !account_edata, HA).
  assert (HT : TotalIssuance (Balances.deposit ev s5) = TotalIssuance s - dust_amount a1 - dust_amount a2)
    by (rewrite TotalIssuance_deposit, HT2, HT1, (same_issuance _ _ Hst); done).
  assert (Hgap : gap (Balances.deposit ev s5) = gap s).
  { unfold gap in *. rewrite HT, (supply_same _ _ HA). rewrite (same_issuance _ _ Hst) in Hg. lia. }
  split; [done |].
  split; try done.
  - split; [by eapply wf_accts | rewrite Hgap; apply Hok |]. pose proof (lo_max _ Hok). lia.
  - etrans; [by apply same_storage_lists |]. etrans; [apply drop_credit_lists |].
    etrans; [apply drop_credit_lists |]. apply same_lists_deposit.
  - intros w ? ?. rewrite HA. by apply Hot.
  - intros _. rewrite Hac, Hs1. destruct (settled_balances a1) as (-> & -> & _). destruct Hb1 as (Hf & Hr & _).
    simpl. split; [done |]. rewrite Hf. f_equal.
  - intros _. rewrite Hac, Hs2. destruct (settled_balances a2) as (-> & -> & _). destruct Hb2 as (Hf & Hr & _).
    unfold a2, dust_left. destruct status; simpl; rewrite Hf, ?Hr; done.
Qed.

(** The amount moved, when it is moved. *)
Definition repatriate_amount (precision : Precision) (value available : Z) : Z :=
  match precision with BestEffort => Z.min value available | Exact => value end.

Lemma available_le_reserved who f s :
  wf s -> 0 <= bal_reducible_total_balance_on_hold who f s <= reserved (account who s).
Proof.
  intros Hw. pose proof (wf_account s who Hw) as [[] [] []].
  unfold bal_reducible_total_balance_on_hold, saturating_sub. destruct (bool_decide _); lia.
Qed.

Lemma repatriated_self who n status s s' :
  ledger_ok s -> acct_step who 0 s s' -> TotalIssuance s' <= max_value ->
  match status with
  | StatusFree => unreserved who (free (account who s) + n) (reserved (account who s) - n) s s'
  | StatusReserved => s' = s
  end -> repatriated who who n status s s'.
Proof.
  intros Hok [Hw Ho Hl Hg] Hm Hself. pose proof (lo_gap _ Hok). split; try done; [split; [done | lia | done] | lia |].
  intros w ? _. by apply Ho.
Qed.

Lemma repatriate_self who actual status s :
  ledger_ok s -> 0 <= actual <= reserved (account who s) ->
  wp (match status with
      | StatusFree => rest <- cur_unreserve who actual ;; ret (saturating_sub actual rest)
      | StatusReserved => ret actual
      end) s
    (outcome (fun x s' => x = actual /\ repatriated who who actual status s s') (fun _ _ => False)).
Proof.
  intros Hok Ha. pose proof (lo_wf _ Hok) as Hw. pose proof (lo_max _ Hok) as Hm.
  pose proof (wf_account s who Hw) as [[Hf0 _] [Hr0 Hr1] _].
  destruct status.
  - apply wp_bind. eapply wp_mono; [apply unreserve_spec; [done | unfold is_balance; lia] |].
    rewrite Z.min_r by lia. intros [x | |] s1; simpl; [| done | done]. intros (-> & Hst & Hun). pose proof (un_issuance _ _ _ _ _ Hun) as Ui.
    apply wp_ret. split; [unfold saturating_sub; lia |]. apply repatriated_self; [done | done | | done].
    pose proof (dust_left_bounds (with_reserved (account who s) (reserved (account who s) - actual))
      (free (account who s) + actual)). lia.
  - apply wp_ret. split; [done |]. apply repatriated_self; [done | by apply acct_step_refl | done | done].
Qed.

Lemma repatriated_zero slashed beneficiary status s :
  ledger_ok s -> repatriated slashed beneficiary 0 status s s.
Proof.
  intros Hok. pose proof (dust_left_self slashed s (lo_wf _ Hok)) as H1.
  pose proof (dust_left_self beneficiary s (lo_wf _ Hok)) as H2. unfold dust_left in *.
  split; try done; [intros _; cbv zeta; unfold dust_left.. |].
  - simpl. rewrite Z.sub_0_r. lia.
  - destruct status; simpl; rewrite Z.add_0_r; lia.
  - intros _. destruct status; [| done]. rewrite Z.add_0_r, Z.sub_0_r. apply unreserved_none, Hok.
Qed.

Lemma do_transfer_reserved_spec slashed beneficiary value precision f status s :
  ledger_ok s -> is_balance value ->
  let available := bal_reducible_total_balance_on_hold slashed f s in
  let n := repatriate_amount precision value available in
  wp (do_transfer_reserved slashed beneficiary value precision f status) s (fun r s' =>
    match r with
    | Ok x => x = n /\ (value <> 0 -> n <= available) /\ repatriated slashed beneficiary n status s s'
    | Err er => repatriate_failed beneficiary precision status s er s'
    | Panic => False
    end).
Proof.
  intros Hok [Hv0 Hv1] available n. pose proof (lo_wf _ Hok) as Hw.
  pose proof (available_le_reserved slashed f s Hw) as Hav. fold available in Hav.
  assert (Hn0 : 0 <= n) by (unfold n, repatriate_amount; destruct precision; lia).
  unfold do_transfer_reserved. destruct (Z.eqb_spec value 0) as [Hz | Hz].
  { apply wp_ret. assert (n = 0) as -> by (unfold n, repatriate_amount; destruct precision; lia).
    split_and!; [done | done | by apply repatriated_zero]. }
  apply wp_bind, wp_gets. fold available. cbv zeta. fold (repatriate_amount precision value available). fold n.
  apply wp_bind, wp_ensure; intros Hle; bool_to_prop.
  2: { apply harmless_failed; [by apply harmless_refl |]. left. split; [done |].
       unfold n, repatriate_amount in Hle. destruct precision; [done | lia]. }
  destruct (N.eqb_spec slashed beneficiary) as [<- | Hne].
  { eapply wp_mono; [apply (repatriate_self slashed n status s Hok); lia |].
    intros [x | |] s'; simpl; [| done | done]. intros [-> ?]. by split_and!. }
  pose proof (holdings2_le_supply s slashed beneficiary Hw Hne) as Hsum.
  pose proof (lo_gap _ Hok) as Hg. pose proof (lo_max _ Hok) as Hm. unfold gap in Hg.
  pose proof (wf_account s slashed Hw) as [[Hf0 _] _ _].
  assert (Hmax : holdings (account beneficiary s) + n <= max_value) by (unfold holdings in *; lia).
  apply wp_bind. eapply wp_mono; [apply both_mutations; [done | done | lia | done] |].
  intros r s3 [Hmoved | (er & -> & Hf)]; [| done].
  destruct (both_moved_dust _ _ _ _ _ _ _ (ReserveRepatriated slashed beneficiary n status) Hok Hne Hn0 Hsum Hmoved)
    as (dust1 & dust2 & -> & Hwp).
  eapply wp_mono; [apply Hwp |]. intros [x | |] s'; simpl; [| done | done]. intros [-> ?]. by split_and!.
Qed.

End repatriate.

Section witness.
#[local] Existing Instance sample_config.

End witness.
