(* ===== verification/NamedReserveFacts.v ===== *)
(** * Named reserves

    The reserves of an account are a vector sorted by name and searched by bisection.
    This file proves the search correct, shows that the vector implements a finite map
    from names to amounts, and derives what the named operations do. *)

From stdpp Require Import base tactics numbers list gmap sorting.
From S2P Require Import Prelude Dispatch System Tokens Fungible Balances BalancesFungible.
From S2P Require Import BalancesCurrency AccountSpec AccountWf Ledger FungibleFacts CurrencyFacts.
From S2P Require Import ReserveFacts.
Local Open Scope Z_scope.

(** ** Bisection *)

Section search.
Context (key : N) (keys : list N).

Definition below (b : nat) : Prop := b <> 0%nat -> forall k, keys !! b = Some k -> (k <= key)%N.
Definition above (b : nat) : Prop := forall j k, (b <= j)%nat -> keys !! j = Some k -> (key < k)%N.

Lemma sorted_lookup_lt i j a b :
  StronglySorted N.lt keys -> keys !! i = Some a -> keys !! j = Some b -> (i < j)%nat -> (a < b)%N.
Proof.
  intros Hs. revert i j. induction Hs as [| x l _ IH Hall]; intros [| i] [| j] Hi Hj Hlt;
    simplify_eq/=; try lia.
  - rewrite Forall_lookup in Hall. by apply (Hall j).
  - eapply IH; [done | done | lia].
Qed.

Lemma search_loop_spec fuel b size :
  StronglySorted N.lt keys -> (size <= fuel)%nat -> (1 <= size)%nat -> (b + size <= length keys)%nat ->
  below b -> above (b + size) ->
  let r := binary_search_loop fuel key keys b size in
  (r < length keys)%nat /\ below r /\ above (S r).
Proof.
  intros Hs. revert b size. induction fuel as [| fuel IH]; intros b size Hf H1 Hlen Hb Ha;
    cbn [binary_search_loop]; [lia |].
  destruct (Nat.ltb_spec 1 size) as [Hgt | Hle].
  2: { assert (size = 1%nat) as -> by lia. rewrite Nat.add_1_r in Ha. split_and!; [lia | done | done]. }
  assert (Hhalf : (1 <= size / 2 < size)%nat).
  { split; [by apply Nat.div_le_lower_bound; lia | by apply Nat.div_lt; lia]. }
  destruct (lookup_lt_is_Some_2 keys (b + size / 2)) as [k Hk]; [lia |]. rewrite Hk.
  destruct (N.ltb_spec key k) as [Hlt | Hge].
  - apply IH; try lia; [done |]. intros j k' Hj Hk'.
    assert (size / 2 <= size - size / 2)%nat by (pose proof (Nat.div_mod_eq size 2); lia).
    destruct (decide (j = (b + size / 2)%nat)) as [-> |]; [by simplify_eq |].
    pose proof (sorted_lookup_lt _ _ _ _ Hs Hk Hk' ltac:(lia)). lia.
  - apply IH; try lia.
    + intros _ k' Hk'. simplify_eq. done.
    + replace (b + size / 2 + (size - size / 2))%nat with (b + size)%nat by lia. done.
Qed.
End search.

(** What a search must return: the index of the key, or where to insert it. *)
Definition search_result (key : N) (keys : list N) (r : nat + nat) : Prop :=
  match r with
  | inl i => keys !! i = Some key
  | inr i => (i <= length keys)%nat /\ (key ∉ keys) /\
             (forall j k, (j < i)%nat -> keys !! j = Some k -> (k < key)%N) /\
             (forall j k, (i <= j)%nat -> keys !! j = Some k -> (key < k)%N)
  end.

Lemma not_elem_of_split (key : N) (keys : list N) (i : nat) :
  (forall j k, (j < i)%nat -> keys !! j = Some k -> (k < key)%N) ->
  (forall j k, (i <= j)%nat -> keys !! j = Some k -> (key < k)%N) -> (key ∉ keys).
Proof.
  intros Hlo Hhi [j Hj]%list_elem_of_lookup. destruct (decide (j < i)%nat).
  - specialize (Hlo j key ltac:(done) Hj). lia.
  - specialize (Hhi j key ltac:(lia) Hj). lia.
Qed.

Lemma binary_search_spec key keys :
  StronglySorted N.lt keys -> search_result key keys (binary_search key keys).
Proof.
  intros Hs. destruct keys as [| k0 ks] eqn:Hk; [split_and!; [done | apply not_elem_of_nil | by intros | by intros] |].
  unfold binary_search. rewrite <- Hk in *.
  destruct (search_loop_spec key keys (length keys) 0 (length keys)) as (Hlt & Hb & Ha);
    [done | done | subst; simpl; lia | lia | by intros ? | |].
  { intros j k Hj Hl. apply lookup_lt_Some in Hl. simpl in Hj. lia. }
  set (r := binary_search_loop _ _ _ _ _) in *.
  destruct (lookup_lt_is_Some_2 keys r Hlt) as [k Hr]. rewrite Hr.
  destruct (N.eqb_spec k key) as [-> | Hne]; [done |].
  assert (Hlow : forall j k', (j < r)%nat -> keys !! j = Some k' -> (k' < k)%N).
  { intros j k' Hj Hk'. by apply (sorted_lookup_lt keys j r). }
  destruct (N.ltb_spec k key) as [Hkl | Hkg]; simpl.
  - assert (Hlo : forall j k', (j < S r)%nat -> keys !! j = Some k' -> (k' < key)%N).
    { intros j k' Hj Hk'. destruct (decide (j = r)) as [-> |]; [by simplify_eq |].
      specialize (Hlow j k' ltac:(lia) Hk'). lia. }
    split_and!; [lia | by eapply not_elem_of_split | done | done].
  - assert (r = 0%nat) as Hr0.
    { destruct (decide (r = 0%nat)); [done |]. pose proof (Hb ltac:(done) k Hr). lia. }
    assert (Hhi : forall j k', (r <= j)%nat -> keys !! j = Some k' -> (key < k')%N).
    { intros j k' Hj Hk'. destruct (decide (j = r)) as [-> |]; [simplify_eq; lia |].
      apply (Ha j); [lia | done]. }
    assert (Hlo : forall j k', (j < r)%nat -> keys !! j = Some k' -> (k' < key)%N) by (intros; lia).
    split_and!; [lia | by eapply not_elem_of_split | done | done].
Qed.

(** ** The vector as a map *)

Definition reserve_map (l : list ReserveData) : gmap N Z :=
  list_to_map ((fun d => (rd_id d, rd_amount d)) <$> l).

Definition sorted_reserves (l : list ReserveData) : Prop := StronglySorted N.lt (rd_id <$> l).

Lemma reserve_map_middle l1 d l2 :
  (rd_id d ∉ rd_id <$> l1) ->
  reserve_map (l1 ++ d :: l2) = <[rd_id d := rd_amount d]> (reserve_map (l1 ++ l2)).
Proof.
  intros Hd. unfold reserve_map. rewrite !fmap_app, fmap_cons, !list_to_map_app. simpl.
  rewrite insert_union_r; [done |]. apply not_elem_of_list_to_map. by rewrite <- list_fmap_compose.
Qed.

Lemma reserve_map_None l id : (id ∉ rd_id <$> l) -> reserve_map l !! id = None.
Proof. intros Hid. apply not_elem_of_list_to_map. by rewrite <- list_fmap_compose. Qed.

Lemma sorted_NoDup l : StronglySorted N.lt l -> NoDup l.
Proof.
  induction 1 as [| x l _ IH Hall]; constructor; [| done].
  rewrite Forall_forall in Hall. intros Hx. specialize (Hall x Hx). lia.
Qed.

(** An entry of a sorted vector, and the vector around it. *)
Lemma sorted_split l i d :
  sorted_reserves l -> l !! i = Some d ->
  l = take i l ++ d :: drop (S i) l /\
  (rd_id d ∉ rd_id <$> take i l) /\ (rd_id d ∉ rd_id <$> drop (S i) l).
Proof.
  intros Hs Hi. pose proof (take_drop_middle l i d Hi) as Hl. split; [done |].
  apply sorted_NoDup in Hs. rewrite <- Hl, fmap_app, fmap_cons in Hs.
  apply NoDup_app in Hs as (_ & Hdis & Hnd). apply NoDup_cons in Hnd as [Hd _]. split; [| done].
  intros Hin. apply (Hdis _ Hin). by left.
Qed.

Lemma search_found l id i :
  sorted_reserves l -> search_reserve id l = inl i ->
  exists d, l !! i = Some d /\ rd_id d = id /\ reserve_amount l i = rd_amount d /\
    reserve_map l !! id = Some (rd_amount d).
Proof.
  intros Hs Hr. pose proof (binary_search_spec id _ Hs) as Hb. unfold search_reserve in Hr.
  rewrite Hr in Hb. simpl in Hb. rewrite list_lookup_fmap in Hb.
  destruct (l !! i) as [d |] eqn:Hd; simplify_eq/=. exists d. unfold reserve_amount. rewrite Hd.
  split_and!; try done. destruct (sorted_split l i d Hs Hd) as (Hl & Hn & _).
  rewrite Hl, reserve_map_middle by done. apply lookup_insert_eq.
Qed.

Lemma search_missing l id i :
  sorted_reserves l -> search_reserve id l = inr i -> reserve_map l !! id = None.
Proof.
  intros Hs Hr. pose proof (binary_search_spec id _ Hs) as Hb. unfold search_reserve in Hr.
  rewrite Hr in Hb. apply reserve_map_None, Hb.
Qed.

Lemma set_reserve_amount_map l id i n :
  sorted_reserves l -> search_reserve id l = inl i ->
  sorted_reserves (set_reserve_amount l i n) /\
  reserve_map (set_reserve_amount l i n) = <[id := n]> (reserve_map l).
Proof.
  intros Hs Hr. destruct (search_found l id i Hs Hr) as (d & Hd & Hid & _).
  assert (Hids : rd_id <$> set_reserve_amount l i n = rd_id <$> l).
  { unfold set_reserve_amount. apply list_eq. intros j. rewrite !list_lookup_fmap.
    destruct (decide (j = i)) as [-> |].
    - rewrite list_lookup_alter_eq, Hd. done.
    - by rewrite list_lookup_alter_ne. }
  split; [unfold sorted_reserves; by rewrite Hids |].
  destruct (sorted_split l i d Hs Hd) as (Hl & Hn & Hn').
  assert (Hset : set_reserve_amount l i n =
    take i l ++ {| rd_id := rd_id d; rd_amount := n |} :: drop (S i) l).
  { apply list_eq. intros j. unfold set_reserve_amount.
    assert (Hlen : length (take i l) = i) by (apply length_take_le; apply lookup_lt_Some in Hd; lia).
    destruct (decide (j = i)) as [-> |].
    - rewrite list_lookup_alter_eq, Hd, lookup_app_r, Hlen, Nat.sub_diag by lia. done.
    - rewrite list_lookup_alter_ne by done. rewrite Hl at 1.
      destruct (decide (j < i)%nat); [by rewrite !lookup_app_l by lia |].
      rewrite !lookup_app_r, Hlen by lia. by destruct (j - i)%nat eqn:E; [lia |]. }
  rewrite Hset, reserve_map_middle by done. simpl. rewrite Hl at 3. rewrite reserve_map_middle by done.
  by rewrite Hid, insert_insert_eq.
Qed.

Lemma sorted_app l1 l2 :
  StronglySorted N.lt l1 -> StronglySorted N.lt l2 -> (forall a b, a ∈ l1 -> b ∈ l2 -> (a < b)%N) ->
  StronglySorted N.lt (l1 ++ l2).
Proof.
  induction 1 as [| x l1 H1 IH Hall]; intros H2 H; simpl; [done |]. constructor.
  - apply IH; [done |]. intros a b Ha Hb. apply H; [by right | done].
  - apply Forall_app. split; [done |]. apply Forall_forall. intros b Hb. apply H; [by left | done].
Qed.

Lemma sorted_take_drop (l : list N) i :
  StronglySorted N.lt l -> StronglySorted N.lt (take i l) /\ StronglySorted N.lt (drop i l).
Proof.
  intros Hs. rewrite <- (take_drop i l) in Hs.
  split; [by eapply StronglySorted_app_1_l | by eapply StronglySorted_app_1_r].
Qed.

Lemma vec_insert_map l id i n :
  sorted_reserves l -> search_reserve id l = inr i ->
  sorted_reserves (vec_insert i {| rd_id := id; rd_amount := n |} l) /\
  reserve_map (vec_insert i {| rd_id := id; rd_amount := n |} l) = <[id := n]> (reserve_map l).
Proof.
  intros Hs Hr. pose proof (binary_search_spec id _ Hs) as Hb. unfold search_reserve in Hr.
  rewrite Hr in Hb. destruct Hb as (Hi & Hn & Hlo & Hhi). unfold vec_insert, sorted_reserves in *. split.
  - rewrite fmap_app, fmap_cons, fmap_take, fmap_drop. simpl.
    destruct (sorted_take_drop _ i Hs) as [Ht Hd]. apply sorted_app; [done | |].
    + constructor; [done |]. apply Forall_lookup. intros j k Hj. rewrite lookup_drop in Hj.
      apply (Hhi (i + j)%nat); [lia | done].
    + intros a b [j Ha]%list_elem_of_lookup Hb. apply lookup_take_Some in Ha as [Ha Hj].
      specialize (Hlo j a Hj Ha). apply elem_of_cons in Hb as [-> | [j' Hb]%list_elem_of_lookup]; [done |].
      rewrite lookup_drop in Hb. specialize (Hhi (i + j')%nat b ltac:(lia) Hb). lia.
  - rewrite reserve_map_middle; simpl; [by rewrite take_drop |].
    intros Hin. apply Hn. rewrite <- (take_drop i l), fmap_app. apply elem_of_app. by left.
Qed.

Lemma delete_reserve_map l id i :
  sorted_reserves l -> search_reserve id l = inl i ->
  sorted_reserves (delete i l) /\ reserve_map (delete i l) = delete id (reserve_map l).
Proof.
  intros Hs Hr. destruct (search_found l id i Hs Hr) as (d & Hd & <- & _).
  destruct (sorted_split l i d Hs Hd) as (Hl & Hn & Hn'). rewrite delete_take_drop. split.
  - unfold sorted_reserves in *. rewrite fmap_app. rewrite Hl, fmap_app, fmap_cons in Hs.
    apply sorted_app.
    + by eapply StronglySorted_app_1_l.
    + apply StronglySorted_app_1_r in Hs. by inversion Hs.
    + intros a b Ha Hb. rewrite StronglySorted_app in Hs. destruct Hs as (Hab & _ & _). apply Hab; [done |]. by right.
  - rewrite Hl at 3. rewrite reserve_map_middle by done. rewrite delete_insert_id; [done |].
    apply reserve_map_None. rewrite fmap_app, elem_of_app. tauto.
Qed.

(** ** The named operations *)

Section named.
Context `{Config}.

Record vec_wf (l : list ReserveData) : Prop := {
  vw_sorted : sorted_reserves l;
  vw_length : (length l <= MaxReserves)%nat;
  vw_amounts : map_Forall (fun _ a => is_balance a) (reserve_map l);
}.

Definition named_wf (s : State) : Prop := forall who, vec_wf (reserves who s).

(** The amounts reserved by name. *)
Definition names (who : AccountId) (s : State) : gmap N Z := reserve_map (reserves who s).
Definition named (id : N) (who : AccountId) (s : State) : Z := default 0 (names who s !! id).

Lemma reserved_balance_named_map id who s :
  named_wf s -> cur_reserved_balance_named id who s = named id who s.
Proof.
  intros Hn. destruct (Hn who) as [Hs _ _]. unfold cur_reserved_balance_named, named, names.
  destruct (search_reserve id (reserves who s)) as [i | i] eqn:Hr.
  - destruct (search_found _ _ _ Hs Hr) as (d & _ & _ & Ha & ->). done.
  - by rewrite (search_missing _ _ _ Hs Hr).
Qed.

Definition set_reserves (who : AccountId) (l : list ReserveData) (s : State) : State :=
  lset ReservesL (<[who := l]> (lget ReservesL s)) s.

Lemma reserves_set who w l s : reserves w (set_reserves who l s) = if decide (w = who) then l else reserves w s.
Proof.
  unfold reserves, set_reserves; simpl. destruct (decide (w = who)) as [-> |].
  - by rewrite lookup_insert_eq.
  - by rewrite lookup_insert_ne.
Qed.

Lemma reserves_lists w s s' : same_lists s s' -> reserves w s' = reserves w s.
Proof. intros Hl. unfold reserves. by rewrite (sl_reserves _ _ Hl). Qed.

Lemma named_wf_set who l s s' :
  named_wf s -> same_lists s s' -> vec_wf l -> named_wf (set_reserves who l s').
Proof.
  intros Hn Hl Hs w. rewrite reserves_set. destruct (decide (w = who)); [done |].
  rewrite (reserves_lists _ _ _ Hl). apply Hn.
Qed.

Lemma ledger_ok_accts s s' :
  accts s' = accts s -> TotalIssuance s' = TotalIssuance s -> ledger_ok s -> ledger_ok s'.
Proof.
  intros HA HT [Hw Hg Hm]. split; [by eapply wf_accts | | by rewrite HT]. by rewrite (gap_quiet s s').
Qed.

(** The names of [who] have become [m], and its free and reserved balance [f] and [r]
    less the dust; nothing else has changed but the issuance, by the dust. *)
Record renamed (who : AccountId) (m : gmap N Z) (g : Z) (s s' : State) : Prop := {
  rn_names : names who s' = m;
  rn_other_names : forall w, w <> who -> reserves w s' = reserves w s;
  rn_wf : named_wf s';
  rn_others : forall w, w <> who -> account w s' = account w s;
  rn_gap : gap s' = gap s + g;
  rn_accounts : wf s';
}.

Lemma renamed_set who l g s s1 :
  named_wf s -> acct_step who g s s1 -> vec_wf l ->
  renamed who (reserve_map l) g s (set_reserves who l s1).
Proof.
  intros Hn Hst Hs. pose proof (as_lists _ _ _ _ Hst) as Hl. split.
  - unfold names. rewrite reserves_set. by rewrite decide_True.
  - intros w Hw. rewrite reserves_set, decide_False by done. by apply reserves_lists.
  - by eapply named_wf_set.
  - intros w Hw. by apply (acct_step_account _ _ _ _ w Hst).
  - apply (as_gap _ _ _ _ Hst).
  - apply Hst.
Qed.

Lemma set_reserve_amount_length l i n : length (set_reserve_amount l i n) = length l.
Proof. apply length_alter. Qed.

Lemma vec_insert_length {A} i (x : A) l : length (vec_insert i x l) = S (length l).
Proof. unfold vec_insert. rewrite length_app. simpl. rewrite length_take, length_drop. lia. Qed.

(** The vector [reserve_named] writes. *)
Lemma reserve_named_vector id v l (s : State) :
  vec_wf l -> 0 <= v <= max_value ->
  let old := default 0 (reserve_map l !! id) in
  wp (match search_reserve id l with
      | inl index =>
          amount <- ok_or (checked_add (reserve_amount l index) v) (Arithmetic Overflow) ;;
          ret (set_reserve_amount l index amount)
      | inr index => try_insert_reserve l index {| rd_id := id; rd_amount := v |}
      end) s (fun r s' => s' = s /\
    match r with
    | Ok l' => vec_wf l' /\ reserve_map l' = <[id := old + v]> (reserve_map l)
    | Err er => er = Arithmetic Overflow /\ max_value < old + v \/ er = Error_into TooManyReserves
    | Panic => False
    end).
Proof.
  intros [Hs Hlen Ham] Hv old. destruct (search_reserve id l) as [i | i] eqn:Hr.
  - destruct (search_found _ _ _ Hs Hr) as (d & _ & _ & Ha & Hm). unfold old. rewrite Hm, Ha. simpl.
    pose proof (Ham _ _ Hm) as [Ha0 _].
    apply wp_bind, wp_ok_or; [intros n [-> Hle]%checked_add_Some | intros ?%checked_add_None; auto].
    apply wp_ret. destruct (set_reserve_amount_map l id i (rd_amount d + v) Hs Hr) as [Hs' Hm'].
    split_and!; [done | | done]. split; [done | by rewrite set_reserve_amount_length |].
    rewrite Hm'. apply map_Forall_insert_2; [unfold is_balance; lia | done].
  - unfold old. rewrite (search_missing _ _ _ Hs Hr). simpl. unfold try_insert_reserve.
    destruct (Nat.ltb_spec (length l) MaxReserves); [| apply wp_fail; split; [done | by right]].
    apply wp_ret. destruct (vec_insert_map l id i v Hs Hr) as [Hs' Hm'].
    split_and!; [done | | done]. split; [done | rewrite vec_insert_length; lia |].
    rewrite Hm'. apply map_Forall_insert_2; [done | done].
Qed.

Lemma reserve_named_spec id who v s :
  ledger_ok s -> named_wf s -> is_balance v -> v <> 0 ->
  let d := account who s in
  wp (cur_reserve_named id who v) s (fun r s' =>
    match r with
    | Ok _ => renamed who (<[id := named id who s + v]> (names who s)) 0 s s' /\
              balances_eq (with_balances d (free d - v) (reserved d + v)) (account who s') /\
              TotalIssuance s' = TotalIssuance s
    | Err er => harmless who s s' /\ same_lists s s'
    | Panic => False
    end).
Proof.
  intros Hok Hn Hv Hne d. pose proof (lo_wf _ Hok) as Hw.
  unfold cur_reserve_named. rewrite (proj2 (Z.eqb_neq _ _)) by done.
  apply wp_map_try_mutate. simpl. fold (reserves who s).
  apply wp_bind. eapply wp_mono; [by apply reserve_named_vector |].
  intros [l | er |] s1 [-> Hl]; [| by split; [apply harmless_refl | ] | done].
  destruct Hl as (Hs' & Hm).
  apply wp_bind. eapply wp_mono; [by apply reserve_spec |]. fold d.
  intros [[] | er |] s1; simpl; [| | done].
  - intros (_ & _ & Hst & Hb & Ht). apply wp_ret. fold (set_reserves who l s1).
    split; [| done]. unfold names, named. unfold names. rewrite <- Hm. by apply renamed_set.
  - intros [Hh _]. split; [done |]. apply Hh.
Qed.

(** The vector [unreserve_named] writes for a name found at [i]. *)
Definition release_vector (l : list ReserveData) (i : nat) (amount : Z) : list ReserveData :=
  if amount =? 0 then delete i (set_reserve_amount l i amount) else set_reserve_amount l i amount.

(** A map without its entry of amount zero. *)
Definition put_amount (id : N) (amount : Z) (m : gmap N Z) : gmap N Z :=
  if amount =? 0 then delete id m else <[id := amount]> m.

Lemma search_set l i n id : search_reserve id (set_reserve_amount l i n) = search_reserve id l.
Proof.
  unfold search_reserve. f_equal. unfold set_reserve_amount. apply list_eq. intros j.
  rewrite !list_lookup_fmap. destruct (decide (j = i)) as [-> |].
  - rewrite list_lookup_alter_eq. by destruct (l !! i).
  - by rewrite list_lookup_alter_ne.
Qed.

Lemma release_vector_wf l id i n :
  vec_wf l -> search_reserve id l = inl i -> is_balance n ->
  vec_wf (release_vector l i n) /\ reserve_map (release_vector l i n) = put_amount id n (reserve_map l).
Proof.
  intros [Hs Hlen Ham] Hr Hn. destruct (set_reserve_amount_map l id i n Hs Hr) as [Hs' Hm'].
  unfold release_vector, put_amount. destruct (n =? 0).
  - pose proof (search_set l i n id) as Hr'. rewrite Hr in Hr'.
    destruct (delete_reserve_map _ id i Hs' Hr') as [Hs'' Hm'']. rewrite Hm', delete_insert_eq in Hm''.
    split; [| done]. split; [done | | rewrite Hm''; by apply map_Forall_delete].
    destruct (search_found l id i Hs Hr) as (d & Hd & _).
    apply lookup_lt_Some in Hd. rewrite length_delete, set_reserve_amount_length; [lia |].
    apply lookup_lt_is_Some_2. by rewrite set_reserve_amount_length.
  - split; [| done]. split; [done | by rewrite set_reserve_amount_length |].
    rewrite Hm'. by apply map_Forall_insert_2.
Qed.

Definition remove_reserves (who : AccountId) (s : State) : State :=
  lset ReservesL (delete who (lget ReservesL s)) s.

Lemma reserves_remove who w s :
  reserves w (remove_reserves who s) = reserves w (set_reserves who [] s).
Proof.
  rewrite reserves_set. unfold reserves, remove_reserves; simpl. destruct (decide (w = who)) as [-> |].
  - by rewrite lookup_delete_eq.
  - by rewrite lookup_delete_ne.
Qed.

(** Removing the vector is as good as writing the empty one. *)
Lemma renamed_remove who m g s s1 :
  renamed who m g s (set_reserves who [] s1) -> renamed who m g s (remove_reserves who s1).
Proof.
  intros [Hm Ho Hw Hac Hg Hwf]. split; try done.
  - unfold names in *. by rewrite reserves_remove.
  - intros w Hne. rewrite reserves_remove. by apply Ho.
  - intros w. rewrite reserves_remove. apply Hw.
Qed.

Lemma vec_wf_nil : vec_wf [].
Proof. split; [constructor | simpl; lia | apply map_Forall_empty]. Qed.

(** The names after [n] of [id] has been released: an amount that reaches zero goes. *)
Definition released (id : N) (n : Z) (m : gmap N Z) : gmap N Z :=
  match m !! id with
  | Some a => put_amount id (a - n) m
  | None => m
  end.

Lemma renamed_same who s : wf s -> named_wf s -> renamed who (names who s) 0 s s.
Proof. intros Hw Hn. split; try done. lia. Qed.

Lemma names_None_missing id who s i :
  named_wf s -> search_reserve id (reserves who s) = inr i -> names who s !! id = None.
Proof. intros Hn Hr. eapply search_missing; [apply (Hn who) | done]. Qed.

Lemma unreserve_named_found id who v s l i (Hrs : Reserves s !! who = Some l) :
  ledger_ok s -> named_wf s -> is_balance v -> search_reserve id l = inl i ->
  let d := account who s in
  let n := Z.min (reserved d) (Z.min (named id who s) v) in
  wp (let to_change := Z.min (reserve_amount l i) v in
      remain <- cur_unreserve who to_change ;;
      let actual := saturating_sub to_change remain in
      amount <- rust_sub (reserve_amount l i) actual ;;
      let reserves := set_reserve_amount l i amount in
      let maybe_reserves :=
        if amount =? 0 then
          if (length reserves =? 1)%nat then None else Some (delete i reserves)
        else Some reserves in
      rest <- rust_sub v actual ;;
      ret (rest, maybe_reserves)) s (fun r s1 =>
    exists m, r = Ok (v - n, m) /\ acct_step who 0 s s1 /\
      unreserved who (free d + n) (reserved d - n) s s1 /\
      default [] m = release_vector l i (named id who s - n)).
Proof.
  intros Hok Hn [Hv0 Hv1] Hr d n. pose proof (Hn who) as [Hs _ Ham].
  assert (Hl : reserves who s = l) by (unfold reserves; by rewrite Hrs). rewrite Hl in Hs, Ham.
  destruct (search_found l id i Hs Hr) as (x & _ & _ & Ha & Hm).
  assert (Hnm : named id who s = rd_amount x) by (unfold named, names; by rewrite Hl, Hm).
  pose proof (Ham _ _ Hm) as [Hx0 Hx1]. unfold n in *. rewrite Hnm in *. rewrite Ha. clear n.
  pose proof (wf_account s who (lo_wf _ Hok)) as [_ [Hr0 _] _]. fold d in Hr0.
  set (t := Z.min (rd_amount x) v). apply wp_bind.
  eapply wp_mono; [apply (unreserve_spec who t s Hok); unfold is_balance; lia |]. fold d.
  intros [rem | |] s1; simpl; [| done | done]. intros (-> & Hst & Hun).
  set (n := Z.min (reserved d) t) in *. change (Z.min (reserved d) (Z.min (rd_amount x) v)) with n.
  assert (Hsat : saturating_sub t (t - n) = n) by (unfold saturating_sub; lia). rewrite Hsat.
  unfold rust_sub. rewrite !(proj2 (Z.leb_le _ _)) by lia.
  apply wp_bind, wp_ret, wp_bind, wp_ret, wp_ret. eexists. split; [done |]. split; [done |]. split; [done |].
  unfold release_vector. destruct (rd_amount x - n =? 0) eqn:E; [| done].
  destruct (Nat.eqb_spec (length (set_reserve_amount l i (rd_amount x - n))) 1) as [H1 |]; [| done].
  simpl. destruct (set_reserve_amount l i (rd_amount x - n)) as [| y [| z ys]] eqn:Es; try done.
  assert (Hi : (i < 1)%nat).
  { pose proof (set_reserve_amount_length l i (rd_amount x - n)) as Hlen. rewrite Es in Hlen. simpl in Hlen.
    destruct (search_found l id i Hs Hr) as (y' & Hy & _). apply lookup_lt_Some in Hy. lia. }
  by destruct i; [| lia].
Qed.

Lemma unreserve_named_spec id who v s :
  ledger_ok s -> named_wf s -> is_balance v -> v <> 0 ->
  let d := account who s in
  let n := Z.min (reserved d) (Z.min (named id who s) v) in
  wp (cur_unreserve_named id who v) s (outcome (fun x s' =>
      x = v - n /\ renamed who (released id n (names who s)) 0 s s' /\
      unreserved who (free d + n) (reserved d - n) s s') (fun _ _ => False)).
Proof.
  intros Hok Hn Hv Hne d n. pose proof (lo_wf _ Hok) as Hw. pose proof Hv as [Hv0 _].
  pose proof (wf_account s who Hw) as [_ [Hr0 _] _]. fold d in Hr0.
  unfold cur_unreserve_named. rewrite (proj2 (Z.eqb_neq _ _)) by done.
  assert (Hskip : names who s !! id = None -> n = 0 /\ released id n (names who s) = names who s /\
    unreserved who (free d + n) (reserved d - n) s s).
  { intros Hnone. assert (n = 0) as -> by (unfold n, named; rewrite Hnone; simpl; lia).
    split; [done |]. split; [unfold released; by rewrite Hnone |].
    rewrite Z.add_0_r, Z.sub_0_r. by apply unreserved_none. }
  apply wp_map_try_mutate_exists. simpl. destruct (Reserves s !! who) as [l |] eqn:Hrs.
  - assert (Hl : reserves who s = l) by (unfold reserves; by rewrite Hrs).
    destruct (search_reserve id l) as [i | i] eqn:Hr.
    + eapply wp_mono; [by apply unreserve_named_found |]. fold d. fold n.
      intros r s1 (m & -> & Hst & Hun & Hm).
      destruct (search_found l id i) as (x & _ & _ & _ & Hx); [rewrite <- Hl; apply (Hn who) | done |].
      assert (Hbn : is_balance (named id who s - n)).
      { pose proof (vw_amounts _ (Hn who)) as Ham. rewrite Hl in Ham. specialize (Ham _ _ Hx).
        unfold n, named, names. rewrite Hl, Hx. simpl. unfold is_balance in *. lia. }
      destruct (release_vector_wf l id i (named id who s - n)) as [Hvw Hvm];
        [rewrite <- Hl; apply (Hn who) | done | done |].
      assert (Hrel : released id n (names who s) = reserve_map (release_vector l i (named id who s - n))).
      { rewrite Hvm. unfold released, named, names. by rewrite Hl, Hx. }
      rewrite Hrel, <- Hm. rewrite <- Hm in Hvw.
      destruct m as [l' |]; simpl in *.
      * split; [done |]. split; [by apply renamed_set | by destruct Hun].
      * split; [done |]. split; [by apply renamed_remove, renamed_set | by destruct Hun].
    + apply wp_ret. destruct Hskip as (-> & -> & Hun); [eapply names_None_missing; [done | by rewrite Hl] |].
      split; [lia |]. split; [| by destruct Hun].
      unfold names. rewrite Hl. apply renamed_set; [done | by apply acct_step_refl | rewrite <- Hl; apply (Hn who)].
  - assert (Hl : reserves who s = []) by (unfold reserves; by rewrite Hrs).
    apply wp_ret. destruct Hskip as (-> & -> & Hun); [unfold names; rewrite Hl; done |].
    split; [lia |]. split; [| by destruct Hun].
    unfold names. rewrite Hl. apply renamed_remove, renamed_set;
      [done | by apply acct_step_refl | apply vec_wf_nil].
Qed.

(** The names after [n] of [id] has been slashed: the entry stays, also at zero. *)
Definition reduced (id : N) (n : Z) (m : gmap N Z) : gmap N Z :=
  match m !! id with
  | Some a => <[id := a - n]> m
  | None => m
  end.

Lemma unreserved_frame who f r s s1 s2 :
  unreserved who f r s s1 -> accts s2 = accts s1 -> TotalIssuance s2 = TotalIssuance s1 ->
  unreserved who f r s s2.
Proof. intros [Hf Hr Hi] HA HT. split; rewrite ?HT, ?account_edata, ?HA; done. Qed.

Lemma slash_reserved_named_spec id who v s :
  ledger_ok s -> named_wf s -> is_balance v -> v <> 0 ->
  let d := account who s in
  let n := Z.min (Z.min (named id who s) v) (reserved d) in
  wp (cur_slash_reserved_named id who v) s (outcome (fun x s' =>
      x = (NegImb n, v - n) /\ renamed who (reduced id n (names who s)) n s s' /\
      unreserved who (free d) (reserved d - n) s s') (fun _ _ => False)).
Proof.
  intros Hok Hn [Hv0 Hv1] Hne d n. pose proof (lo_wf _ Hok) as Hw.
  pose proof (wf_account s who Hw) as [_ [Hr0 _] _]. fold d in Hr0.
  unfold cur_slash_reserved_named. rewrite (proj2 (Z.eqb_neq _ _)) by done.
  apply wp_map_try_mutate. simpl. fold (reserves who s). pose proof (Hn who) as [Hs Hlen Ham].
  destruct (search_reserve id (reserves who s)) as [i | i] eqn:Hr.
  - destruct (search_found _ id i Hs Hr) as (x & _ & _ & Ha & Hm). pose proof (Ham _ _ Hm) as [Hx0 Hx1].
    assert (Hnm : named id who s = rd_amount x) by (unfold named, names; by rewrite Hm).
    unfold n in *. rewrite Hnm. clear n. rewrite Ha. set (t := Z.min (rd_amount x) v).
    apply wp_bind. eapply wp_mono; [apply (slash_reserved_spec who t s Hok); unfold is_balance; lia |].
    fold d. set (n := Z.min t (reserved d)). intros [y | |] s1; simpl; [| done | done].
    intros (-> & Hst & Hun).
    assert (Hsat : saturating_sub t (t - n) = n) by (unfold saturating_sub; lia). rewrite Hsat.
    unfold rust_sub. rewrite !(proj2 (Z.leb_le _ _)) by lia.
    apply wp_bind, wp_ret, wp_bind, wp_modify, wp_bind, wp_ret, wp_ret. split; [done |].
    destruct (set_reserve_amount_map _ id i (rd_amount x - n) Hs Hr) as [Hs' Hm'].
    split; [| eapply unreserved_frame; [done | apply (accts_deposit (Slashed who n) s1) | done]].
    unfold reduced. change (names who s !! id) with (reserve_map (reserves who s) !! id). rewrite Hm.
    unfold names. rewrite <- Hm'. apply (renamed_set who _ n s); [done | by apply acct_step_deposit |].
    split; [done | by rewrite set_reserve_amount_length |].
    rewrite Hm'. apply map_Forall_insert_2; [unfold is_balance; lia | done].
  - apply wp_ret. assert (Hnone : names who s !! id = None) by (eapply names_None_missing; done).
    assert (n = 0) as -> by (unfold n, named; rewrite Hnone; simpl; lia).
    unfold reduced. rewrite Hnone, !Z.sub_0_r. split; [by rewrite ?Z.sub_0_r |].
    split; [| eapply unreserved_frame; [by apply unreserved_none | done | done]].
    apply renamed_set; [done | by apply acct_step_refl | by apply (Hn who)].
Qed.

(** ** Theorems *)

(** The sorted vector of named reserves implements a finite map: reading a name,
    writing the amount of a name that is there, inserting one that is not and deleting
    one are lookup, update, insertion and deletion of the map, and all keep the vector
    sorted. *)
Theorem reserve_vector_is_map l id n :
  sorted_reserves l ->
  match search_reserve id l with
  | inl i => reserve_map l !! id = Some (reserve_amount l i) /\
      reserve_map (set_reserve_amount l i n) = <[id := n]> (reserve_map l) /\
      reserve_map (delete i l) = delete id (reserve_map l) /\
      sorted_reserves (set_reserve_amount l i n) /\ sorted_reserves (delete i l)
  | inr i => reserve_map l !! id = None /\
      reserve_map (vec_insert i {| rd_id := id; rd_amount := n |} l) = <[id := n]> (reserve_map l) /\
      sorted_reserves (vec_insert i {| rd_id := id; rd_amount := n |} l)
  end.
Proof.
  intros Hs. destruct (search_reserve id l) as [i | i] eqn:Hr.
  - destruct (search_found l id i Hs Hr) as (d & _ & _ & -> & ->).
    destruct (set_reserve_amount_map l id i n Hs Hr). by destruct (delete_reserve_map l id i Hs Hr).
  - split; [by eapply search_missing |]. by destruct (vec_insert_map l id i n Hs Hr).
Qed.

(** [binary_search_by_key] finds a key of a sorted vector, or the one position where
    inserting it keeps the vector sorted. *)
Theorem binary_search_correct key keys :
  StronglySorted N.lt keys ->
  match binary_search key keys with
  | inl i => keys !! i = Some key
  | inr i => (key ∉ keys) /\ StronglySorted N.lt (take i keys ++ key :: drop i keys)
  end.
Proof.
  intros Hs. pose proof (binary_search_spec key keys Hs) as Hb.
  destruct (binary_search key keys) as [i | i]; [done |]. destruct Hb as (_ & Hn & Hlo & Hhi).
  split; [done |]. destruct (sorted_take_drop keys i Hs) as [Ht Hd]. apply sorted_app; [done | |].
  - constructor; [done |]. apply Forall_lookup. intros j k Hj. rewrite lookup_drop in Hj.
    apply (Hhi (i + j)%nat); [lia | done].
  - intros a b [j Ha]%list_elem_of_lookup Hb. apply lookup_take_Some in Ha as [Ha Hj].
    specialize (Hlo j a Hj Ha). apply elem_of_cons in Hb as [-> | [j' Hb]%list_elem_of_lookup]; [done |].
    rewrite lookup_drop in Hb. specialize (Hhi (i + j')%nat b ltac:(lia) Hb). lia.
Qed.

(** [reserve_named] adds [v] to the amount under its name and to the reserved balance,
    leaves every other name and account alone and keeps the vectors sorted, bounded
    and in range; on failure balances and names are as before.  What it added,
    [reserved_balance_named] reports. *)
Theorem reserve_named_adds id who v s :
  ledger_ok s -> named_wf s -> is_balance v -> v <> 0 ->
  let d := account who s in
  match cur_reserve_named id who v s with
  | (Ok _, s') => renamed who (<[id := named id who s + v]> (names who s)) 0 s s' /\
      cur_reserved_balance_named id who s' = cur_reserved_balance_named id who s + v /\
      balances_eq (with_balances d (free d - v) (reserved d + v)) (account who s')
  | (Err er, s') => harmless who s s' /\ same_lists s s'
  | (Panic, _) => False
  end.
Proof.
  intros Hok Hn Hv Hne d. pose proof (reserve_named_spec id who v s Hok Hn Hv Hne) as Hs. unfold wp in Hs.
  destruct (cur_reserve_named id who v s) as [[[] | er |] s']; simpl in Hs; [| done | done].
  destruct Hs as (Hr & Hb & _). split_and!; [done | | done].
  rewrite (reserved_balance_named_map id who s Hn), (reserved_balance_named_map id who s' (rn_wf _ _ _ _ _ Hr)).
  unfold named at 1. rewrite (rn_names _ _ _ _ _ Hr), lookup_insert_eq. done.
Qed.

(** [unreserve_named] and [slash_reserved_named] never fail: they take the smallest of the
    value, the amount under the name and the reserved balance from both the name and
    the reserved balance, to the free balance or as a negative imbalance, and return
    the rest of the value.  A name that reaches zero is removed by the first and kept by
    the second. *)
Theorem named_release_accounts id who v s :
  ledger_ok s -> named_wf s -> is_balance v -> v <> 0 ->
  let d := account who s in
  let n := Z.min (reserved d) (Z.min (named id who s) v) in
  (exists s', cur_unreserve_named id who v s = (Ok (v - n), s') /\
     renamed who (released id n (names who s)) 0 s s' /\
     unreserved who (free d + n) (reserved d - n) s s') /\
  (exists s', cur_slash_reserved_named id who v s = (Ok (NegImb n, v - n), s') /\
     renamed who (reduced id n (names who s)) n s s' /\
     unreserved who (free d) (reserved d - n) s s').
Proof.
  intros Hok Hn Hv Hne d n. pose proof (unreserve_named_spec id who v s Hok Hn Hv Hne) as Hu.
  pose proof (slash_reserved_named_spec id who v s Hok Hn Hv Hne) as Hs. unfold wp in *.
  fold d in Hu, Hs. fold n in Hu. rewrite (Z.min_comm _ (reserved d)) in Hs. fold n in Hs. split.
  - destruct (cur_unreserve_named id who v s) as [[x | |] s']; simpl in Hu; [| done | done].
    destruct Hu as (-> & ? & ?). by exists s'.
  - destruct (cur_slash_reserved_named id who v s) as [[x | |] s']; simpl in Hs; [| done | done].
    destruct Hs as (-> & ? & ?). by exists s'.
Qed.
End named.

(** ** Deciding the invariant *)

Fixpoint sorted_check (l : list N) : bool :=
  match l with
  | [] => true
  | x :: l => forallb (N.ltb x) l && sorted_check l
  end.

Lemma sorted_check_sound l : sorted_check l = true -> StronglySorted N.lt l.
Proof.
  induction l as [| x l IH]; simpl; [constructor |]. rewrite andb_true_iff, forallb_forall. intros [Hx Hl].
  constructor; [auto |]. apply Forall_forall. intros y Hy. apply N.ltb_lt, Hx. by apply list_elem_of_In.
Qed.

Section check.
Context `{Config}.

Definition vec_check (l : list ReserveData) : bool :=
  sorted_check (rd_id <$> l) && (length l <=? MaxReserves)%nat &&
  forallb (fun '(_, a) => in_range 0 max_value a) (map_to_list (reserve_map l)).

Definition named_check (s : State) : bool :=
  forallb (fun '(_, l) => vec_check l) (map_to_list (Reserves s)).

Lemma named_check_sound s : named_check s = true -> named_wf s.
Proof.
  unfold named_check. rewrite forallb_forall. intros Hall who. unfold reserves.
  destruct (Reserves s !! who) as [l |] eqn:Hl; simpl; [| apply vec_wf_nil].
  assert (Hv : vec_check l = true).
  { apply (Hall (who, l)). by apply list_elem_of_In, elem_of_map_to_list. }
  unfold vec_check in Hv. rewrite !andb_true_iff, forallb_forall in Hv. destruct Hv as [[Hs Hlen] Ham].
  split; [by apply sorted_check_sound | by apply Nat.leb_le |].
  intros k a Hk. apply in_range_spec. apply (Ham (k, a)). by apply list_elem_of_In, elem_of_map_to_list.
Qed.
End check.

Section witness.
#[local] Existing Instance sample_config.

Lemma reserve_vector_is_map_witness :
  let l := [{| rd_id := 3; rd_amount := 5 |}; {| rd_id := 8; rd_amount := 1 |}] in
  reserve_map (set_reserve_amount l 1 9) = <[8%N := 9]> (reserve_map l).
Proof.
  assert (Hs : sorted_reserves [{| rd_id := 3; rd_amount := 5 |}; {| rd_id := 8; rd_amount := 1 |}])
    by (apply sorted_check_sound; vm_compute; reflexivity).
  exact (proj1 (proj2 (reserve_vector_is_map _ 8 9 Hs))).
Defined.

Lemma binary_search_correct_witness :
  binary_search 5 [2; 4; 9]%N = inr 2%nat /\ StronglySorted N.lt [2; 4; 5; 9]%N.
Proof.
  assert (Hs : StronglySorted N.lt [2; 4; 9]%N) by (apply sorted_check_sound; vm_compute; reflexivity).
  split; [vm_compute; reflexivity |]. exact (proj2 (binary_search_correct 5 [2; 4; 9]%N Hs)).
Defined.

Lemma reserve_named_adds_witness :
  exists s', cur_reserve_named 9 2 100 sample_state = (Ok tt, s') /\ cur_reserved_balance_named 9 2 s' =
    cur_reserved_balance_named 9 2 sample_state + 100.
Proof.
  assert (Hrun : fst (cur_reserve_named 9 2 100 sample_state) = Ok tt) by (vm_compute; reflexivity).
  assert (Hok : ledger_ok sample_state) by sample_ledger. assert (Hb : is_balance 100) by sample_balance.
  assert (Hn : named_wf sample_state) by (apply named_check_sound; vm_compute; reflexivity).
  assert (Hne : 100 <> 0) by discriminate.
  pose proof (reserve_named_adds 9 2 100 sample_state Hok Hn Hb Hne) as W.
  destruct (cur_reserve_named 9 2 100 sample_state) as [[[] | er |] s'];
    [| discriminate Hrun | discriminate Hrun].
  exists s'. split; [reflexivity | exact (proj1 (proj2 W))].
Defined.

Lemma named_release_accounts_witness :
  exists x s', cur_unreserve_named 7 1 50 sample_state = (Ok x, s') /\ named_wf s'.
Proof.
  assert (Hok : ledger_ok sample_state) by sample_ledger. assert (Hb : is_balance 50) by sample_balance.
  assert (Hn : named_wf sample_state) by (apply named_check_sound; vm_compute; reflexivity).
  assert (Hne : 50 <> 0) by discriminate.
  destruct (named_release_accounts 7 1 50 sample_state Hok Hn Hb Hne) as [(s' & Hrun & Hr & _) _].
  eexists _, s'. split; [exact Hrun | exact (rn_wf _ _ _ _ _ Hr)].
Defined.
End witness.
