(* ===== verification/TraitFacts.v ===== *)
(** * The provided methods of the currency traits

    What the generic methods of [CurrencyTraits] promise when the pallet implements the traits. *)

From stdpp Require Import base tactics numbers list gmap.
From S2P Require Import Prelude Dispatch System Tokens Fungible Balances BalancesFungible.
From S2P Require Import BalancesCurrency CurrencyTraits AccountSpec AccountWf Ledger.
From S2P Require Import FungibleFacts ImbalanceFacts CurrencyFacts ReserveFacts NamedReserveFacts.
Local Open Scope Z_scope.

Section traits.
Context `{Config}.

(** ** [ensure_reserved_named] *)

Lemma named_renamed id who m g s s' :
  renamed who m g s s' -> cur_reserved_balance_named id who s' = default 0 (m !! id).
Proof.
  intros Hr. rewrite (reserved_balance_named_map _ _ _ (rn_wf _ _ _ _ _ Hr)). unfold named.
  by rewrite (rn_names _ _ _ _ _ Hr).
Qed.

Lemma named_balance id who s : named_wf s -> is_balance (named id who s).
Proof.
  intros Hn. pose proof (vw_amounts _ (Hn who)) as Ha. unfold named, names.
  destruct (reserve_map (reserves who s) !! id) as [a |] eqn:E; simpl; [by apply (Ha _ _ E) |].
  pose proof max_value_pos. unfold is_balance. lia.
Qed.

Lemma released_to id n m : default 0 (m !! id) <> 0 -> default 0 (released id n m !! id) = default 0 (m !! id) - n.
Proof.
  unfold released, put_amount. destruct (m !! id) as [a |]; simpl; [| done]. intros _.
  destruct (Z.eqb_spec (a - n) 0) as [He | He]; [rewrite lookup_delete_eq | rewrite lookup_insert_eq]; simpl; lia.
Qed.

(** [ensure_reserved_named] makes the named reserve equal to [value], whether that takes
    reserving or unreserving; it fails only when more has to be reserved than can be, and then no
    balance and no reserve has changed. *)
Theorem ensure_reserved_named_exact id who value s :
  ledger_ok s -> named_wf s -> is_balance value -> named id who s <= reserved (account who s) ->
  match ensure_reserved_named id who value s with
  | (Ok _, s') => cur_reserved_balance_named id who s' = value /\ named_wf s' /\ wf s' /\ gap s' = gap s
  | (Err er, s') => cur_reserved_balance_named id who s < value /\ harmless who s s' /\ same_lists s s'
  | (Panic, _) => False
  end.
Proof.
  intros Hok Hn [Hv0 Hv1] Hb. pose proof (lo_wf _ Hok) as Hw. pose proof (named_balance id who s Hn) as [Hc0 Hc1].
  unfold ensure_reserved_named, bind at 1, gets at 1. simpl nr_reserved_balance_named.
  rewrite (reserved_balance_named_map _ _ _ Hn). set (cur := named id who s) in *.
  destruct (Z.ltb_spec value cur) as [Hlt | Hge]; [| destruct (Z.ltb_spec cur value) as [Hlt | Hge']].
  - unfold bind, rust_sub. rewrite (proj2 (Z.leb_le _ _)) by lia. unfold ret at 1. simpl nr_unreserve_named.
    assert (Hd : is_balance (cur - value)) by (unfold is_balance; lia).
    pose proof (unreserve_named_spec id who (cur - value) s Hok Hn Hd ltac:(lia)) as Hs. unfold wp in Hs.
    destruct (cur_unreserve_named id who (cur - value) s) as [[x | er |] s']; simpl in Hs; [| done | done].
    destruct Hs as (_ & Hr & _). unfold ret. rewrite (named_renamed _ _ _ _ _ _ Hr). fold cur in Hr |- *.
    rewrite released_to by (fold (named id who s); lia). fold (named id who s). fold cur.
    split_and!; [lia | apply Hr | apply Hr | rewrite (rn_gap _ _ _ _ _ Hr); lia].
  - unfold bind, rust_sub. rewrite (proj2 (Z.leb_le _ _)) by lia. unfold ret at 1. simpl nr_reserve_named.
    assert (Hd : is_balance (value - cur)) by (unfold is_balance; lia).
    pose proof (reserve_named_spec id who (value - cur) s Hok Hn Hd ltac:(lia)) as Hs. unfold wp in Hs.
    destruct (cur_reserve_named id who (value - cur) s) as [[[] | er |] s']; simpl in Hs; [| | done].
    + destruct Hs as (Hr & _). rewrite (named_renamed _ _ _ _ _ _ Hr), lookup_insert_eq. simpl. fold cur.
      split_and!; [lia | apply Hr | apply Hr | rewrite (rn_gap _ _ _ _ _ Hr); lia].
    + destruct Hs. rewrite (reserved_balance_named_map _ _ _ Hn). by split_and!.
  - unfold ret. rewrite (reserved_balance_named_map _ _ _ Hn). fold cur. split_and!; [lia | done | done | done].
Qed.

(** ** Paying out what was slashed *)

(** A slash paid out to another account conserves: [slash] followed by [resolve_creating] of
    its imbalance never fails, and whatever part of the imbalance could not be deposited
    is burned, so that the gap between issuance and holdings is as before. *)
Theorem slash_resolve_conserves who dest v s :
  ledger_ok s -> is_balance v -> 2 * ed <= TotalIssuance s ->
  exists s', ('(imbalance, _) <- c_slash who v ;; c_resolve_creating dest imbalance) s = (Ok tt, s') /\
    ledger_ok s' /\ gap s' = gap s /\ TotalIssuance s' <= TotalIssuance s.
Proof.
  intros Hok Hv Ht. pose proof (slash_spec who v s Hok Hv) as Hs. unfold wp in Hs. unfold bind at 1. simpl c_slash.
  destruct (cur_slash who v s) as [r s1]. cbn [fst snd] in Hs. destruct Hs as (x & -> & Hsl & [Hst _ _ Ht1]).
  destruct Hsl as ((Hx0 & Hxv) & Hxf & _). destruct Hv as [_ Hv1].
  pose proof (free_le_issuance s who Hok) as Hfi. pose proof ed_pos. pose proof (lo_max _ Hok). pose proof (lo_gap _ Hok).
  assert (Hd1 : 0 <= dust_left (account who s) (free (account who s) - x) < ed).
  { unfold dust_left. destruct (_ && _) eqn:E; bool_to_prop; lia. }
  pose proof (as_wf _ _ _ _ Hst) as Hw1. pose proof (as_gap _ _ _ _ Hst) as Hg1.
  assert (Hbx : is_balance x) by (unfold is_balance; lia).
  pose proof (deposit_creating_spec dest x s1 Hw1 ltac:(lia) Hbx) as Hd. unfold wp in Hd.
  unfold c_resolve_creating, bind. simpl c_deposit_creating. simpl imb_peek.
  destruct (cur_deposit_creating dest x s1) as [[i | |] s2]; [| done | done].
  destruct Hd as (y & -> & Hy & [Hst2 _ _ Ht2]). cbn [snd] in Hst2, Ht2.
  assert (Hd2 : 0 <= dust_left (account dest s1) (free (account dest s1) + y) < ed).
  { pose proof (wf_account s1 dest Hw1) as [[] _ _]. unfold dust_left. destruct (_ && _) eqn:E; bool_to_prop; lia. }
  pose proof (as_wf _ _ _ _ Hst2) as Hw2. pose proof (as_gap _ _ _ _ Hst2) as Hg2.
  pose proof (supply_nonneg s2 Hw2) as Hsn.
  assert (Hm : issuance_moved (x - y) s2 (drop_value (offset (NegImb x) (PosImb y)) s2)).
  { unfold offset. simpl. destruct Hy as [-> | ->].
    - rewrite Z.ltb_irrefl, Z.sub_diag. apply moved_zero.
    - rewrite Z.sub_0_r. destruct (Z.ltb_spec 0 x) as [Hx | Hx].
      + apply (drop_law_Negative (NegImb x) s2); unfold backing; simpl; unfold gap in *; lia.
      + rewrite (proj2 (Z.ltb_ge _ _)) by lia. replace x with 0 by lia. apply moved_zero. }
  exists (drop_value (offset (NegImb x) (PosImb y)) s2). split; [reflexivity |].
  pose proof (issuance_moved_gap _ _ _ Hm) as Hg3. destruct Hm as [HA HT _].
  split; [split; [by eapply wf_accts | lia | lia] | split; [lia | lia]].
Qed.

(** ** Handlers *)

(** [SplitTwoWays] loses nothing: the two targets together get the whole imbalance, the first
    its share rounded down, in this order; an imbalance of zero reaches neither. *)
Theorem split_two_ways_shares {I O} `{Imbalance I O} `{!ImbalanceLaws I O} `{Droppable State I}
    (t1 t2 : OnUnbalanced State I) part1 part2 (i : I) s :
  0 <= part1 -> 0 <= part2 -> 0 < part1 + part2 <= u32_max -> 0 <= imb_peek i -> imb_peek i * part1 <= max_value ->
  exists i1 i2, imb_peek i1 = imb_peek i * part1 / (part1 + part2) /\ imb_peek i1 + imb_peek i2 = imb_peek i /\
    split_two_ways t1 t2 part1 part2 i s =
    (do (if imb_peek i1 =? 0 then ret tt else t1 i1) ;; if imb_peek i2 =? 0 then ret tt else t2 i2) s.
Proof.
  intros Hp1 Hp2 Ht Hi Hm. set (n := imb_peek i * part1 / (part1 + part2)).
  assert (Hn : 0 <= n <= imb_peek i).
  { split; [apply Z.div_pos; nia |]. apply Z.div_le_upper_bound; nia. }
  exists (imb_new n), (imb_new (imb_peek i - n)). rewrite !imb_peek_new. split; [done |]. split; [lia |].
  unfold split_two_ways, bind at 1, rust_assert. rewrite (proj2 (Z.leb_le _ u32_max)) by lia.
  unfold ret at 1, bind at 1. rewrite (proj2 (Z.eqb_neq (part1 + part2) 0)) by lia. cbn [negb]. unfold ret at 1.
  rewrite (Z.min_r max_value) by done. fold n. unfold split. rewrite (Z.min_r _ n) by lia.
  unfold on_unbalanced, drop_zero. rewrite !imb_peek_new. by destruct (n =? 0), (imb_peek i - n =? 0).
Qed.
End traits.

Section witness.
#[local] Existing Instance sample_config.

Lemma ensure_reserved_named_exact_witness :
  cur_reserved_balance_named 7 1 (snd (ensure_reserved_named 7 1 45 sample_state)) = 45.
Proof.
  assert (Hrun : fst (ensure_reserved_named 7 1 45 sample_state) = Ok tt) by (vm_compute; reflexivity).
  assert (Hok : ledger_ok sample_state) by sample_ledger. assert (Hb : is_balance 45) by sample_balance.
  assert (Hn : named_wf sample_state) by (apply named_check_sound; vm_compute; reflexivity).
  assert (Hk : named 7 1 sample_state <= reserved (account 1 sample_state)) by (clear; vm_compute; discriminate).
  pose proof (ensure_reserved_named_exact 7 1 45 sample_state Hok Hn Hb Hk) as W.
  destruct (ensure_reserved_named 7 1 45 sample_state) as [[[] | er |] s'];
    [exact (proj1 W) | discriminate Hrun | discriminate Hrun].
Defined.

Lemma slash_resolve_conserves_witness :
  exists s', ('(imbalance, _) <- c_slash 2 60 ;; c_resolve_creating 8 imbalance) sample_state = (Ok tt, s') /\
    ledger_ok s'.
Proof.
  assert (Hok : ledger_ok sample_state) by sample_ledger. assert (Hb : is_balance 60) by sample_balance.
  assert (Ht : 2 * ed <= TotalIssuance sample_state) by (clear; vm_compute; discriminate).
  destruct (slash_resolve_conserves 2 8 60 sample_state Hok Hb Ht) as (s' & Hr & Hl & _).
  exists s'. split; [exact Hr | exact Hl].
Defined.

Lemma split_two_ways_shares_witness :
  exists i1 i2 : Credit, imb_peek i1 = 101 * 4 / 5 /\ imb_peek i1 + imb_peek i2 = 101.
Proof.
  destruct (split_two_ways_shares on_unbalanced_unit (resolve_to 1) 4 1 (MkCredit 101) sample_state)
    as (i1 & i2 & H1 & H2 & _); try (clear; vm_compute; discriminate); try (clear; vm_compute; split; congruence).
  exists i1, i2. split; [exact H1 | exact H2].
Defined.
End witness.
