(* ===== verification/HoldFacts.v ===== *)
(** * Holds

    The holds of an account as a map from reasons to amounts, [set_balance_on_hold] and
    the operations of [hold.rs] built on it. *)

From stdpp Require Import base tactics numbers list gmap.
From S2P Require Import Prelude Dispatch System Tokens Fungible Balances BalancesFungible.
From S2P Require Import BalancesCurrency AccountSpec AccountWf Ledger FungibleFacts CurrencyFacts.
From S2P Require Import ReserveFacts TransferFacts NamedReserveFacts RepatriateFacts.
Local Open Scope Z_scope.

(** ** Vectors of identified amounts *)

Definition amount_map (l : list IdAmount) : gmap N Z :=
  list_to_map ((fun x => (ia_id x, ia_amount x)) <$> l).

Definition distinct_ids (l : list IdAmount) : Prop := NoDup (ia_id <$> l).

Lemma amount_map_None l id : (id ∉ ia_id <$> l) -> amount_map l !! id = None.
Proof. intros Hid. apply not_elem_of_list_to_map. by rewrite <- list_fmap_compose. Qed.

Lemma amount_map_middle l1 x l2 :
  (ia_id x ∉ ia_id <$> l1) ->
  amount_map (l1 ++ x :: l2) = <[ia_id x := ia_amount x]> (amount_map (l1 ++ l2)).
Proof.
  intros Hd. unfold amount_map. rewrite !fmap_app, fmap_cons, !list_to_map_app. simpl.
  rewrite insert_union_r; [done |]. apply not_elem_of_list_to_map. by rewrite <- list_fmap_compose.
Qed.

Lemma distinct_split l i x :
  distinct_ids l -> l !! i = Some x ->
  l = take i l ++ x :: drop (S i) l /\
  (ia_id x ∉ ia_id <$> take i l) /\ (ia_id x ∉ ia_id <$> drop (S i) l).
Proof.
  intros Hs Hi. pose proof (take_drop_middle l i x Hi) as Hl. split; [done |].
  unfold distinct_ids in Hs. rewrite <- Hl, fmap_app, fmap_cons in Hs.
  apply NoDup_app in Hs as (_ & Hdis & Hnd). apply NoDup_cons in Hnd as [Hd _]. split; [| done].
  intros Hin. apply (Hdis _ Hin). by left.
Qed.

Lemma find_amount_Some id l i x :
  distinct_ids l -> find_amount id l = Some (i, x) ->
  l !! i = Some x /\ ia_id x = id /\ amount_map l !! id = Some (ia_amount x).
Proof.
  intros Hd Hf. apply list_find_Some in Hf as (Hi & <- & _). split_and!; try done.
  destruct (distinct_split l i x Hd Hi) as (Hl & Hn & _). rewrite Hl, amount_map_middle by done.
  apply lookup_insert_eq.
Qed.

Lemma find_amount_None id l : find_amount id l = None -> (id ∉ ia_id <$> l) /\ amount_map l !! id = None.
Proof.
  intros Hf. apply list_find_None in Hf. rewrite Forall_forall in Hf.
  assert (Hn : id ∉ ia_id <$> l).
  { intros (x & -> & Hx)%list_elem_of_fmap. by apply (Hf x). }
  split; [done |]. by apply amount_map_None.
Qed.

(** Writing the amount of the entry at [i]. *)
Definition set_amount (l : list IdAmount) (i : nat) (x : IdAmount) (n : Z) : list IdAmount :=
  <[i := {| ia_id := ia_id x; ia_amount := n |}]> l.

Lemma set_amount_ids l i x n : l !! i = Some x -> ia_id <$> set_amount l i x n = ia_id <$> l.
Proof.
  intros Hi. unfold set_amount. rewrite list_fmap_insert. simpl. apply list_insert_id.
  by rewrite list_lookup_fmap, Hi.
Qed.

Lemma set_amount_map l i x n :
  distinct_ids l -> l !! i = Some x ->
  distinct_ids (set_amount l i x n) /\ amount_map (set_amount l i x n) = <[ia_id x := n]> (amount_map l).
Proof.
  intros Hd Hi. split; [unfold distinct_ids; by rewrite set_amount_ids |].
  destruct (distinct_split l i x Hd Hi) as (Hl & Hn & _).
  assert (Hset : set_amount l i x n = take i l ++ {| ia_id := ia_id x; ia_amount := n |} :: drop (S i) l).
  { unfold set_amount. rewrite Hl at 1. assert (Hlen : length (take i l) = i)
      by (apply length_take_le; apply lookup_lt_Some in Hi; lia).
    rewrite insert_app_r_alt by lia. by rewrite Hlen, Nat.sub_diag. }
  rewrite Hset, amount_map_middle by done. simpl. rewrite Hl at 3. rewrite amount_map_middle by done.
  by rewrite insert_insert_eq.
Qed.

Lemma amount_map_app_one l x :
  distinct_ids l -> (ia_id x ∉ ia_id <$> l) ->
  distinct_ids (l ++ [x]) /\ amount_map (l ++ [x]) = <[ia_id x := ia_amount x]> (amount_map l).
Proof.
  intros Hd Hx. split.
  - unfold distinct_ids in *. rewrite fmap_app. apply NoDup_app. split_and!; [done | | apply NoDup_singleton].
    intros y Hy ->%list_elem_of_singleton. done.
  - rewrite amount_map_middle by done. by rewrite app_nil_r.
Qed.

(** All amounts positive but that of [id]: dropping the zero entries drops at most it. *)
Lemma filter_nonzero_map l :
  distinct_ids l ->
  distinct_ids (filter (fun x => ia_amount x <> 0) l) /\
  (forall id, amount_map (filter (fun x => ia_amount x <> 0) l) !! id =
              match amount_map l !! id with Some a => if a =? 0 then None else Some a | None => None end).
Proof.
  induction l as [| x l IH]; intros Hd; [done |].
  apply NoDup_cons in Hd as [Hx Hd]. destruct (IH Hd) as [IHd IHm]. rewrite filter_cons.
  assert (Hsub : ia_id x ∉ ia_id <$> filter (fun x => ia_amount x <> 0) l).
  { intros (y & Hy & Hyl)%list_elem_of_fmap. apply list_elem_of_filter in Hyl as [_ Hyl]. apply Hx.
    rewrite Hy. by apply list_elem_of_fmap_2. }
  assert (Hl : forall id, amount_map (x :: l) !! id = if decide (id = ia_id x) then Some (ia_amount x)
                else amount_map l !! id).
  { intros id. change (amount_map (x :: l)) with (<[ia_id x := ia_amount x]> (amount_map l)).
    destruct (decide (id = ia_id x)) as [-> |]; [by rewrite lookup_insert_eq | by rewrite lookup_insert_ne]. }
  destruct (decide (ia_amount x <> 0)) as [Hne | He].
  - split; [by apply NoDup_cons |]. intros id. rewrite Hl.
    change (amount_map (x :: ?m)) with (<[ia_id x := ia_amount x]> (amount_map m)).
    destruct (decide (id = ia_id x)) as [-> |].
    + rewrite lookup_insert_eq. by rewrite (proj2 (Z.eqb_neq _ _)).
    + rewrite lookup_insert_ne by done. apply IHm.
  - split; [done |]. intros id. rewrite Hl. destruct (decide (id = ia_id x)) as [-> |]; [| apply IHm].
    rewrite (proj2 (Z.eqb_eq _ _)) by lia. by apply amount_map_None.
Qed.

Section holds.
Context `{Config}.

(** ** The vector of holds *)

Record hold_vec_wf (l : list IdAmount) : Prop := {
  hv_distinct : distinct_ids l;
  hv_length : (length l <= HoldVariantCount)%nat;
  hv_amounts : map_Forall (fun _ a => 0 < a <= max_value) (amount_map l);
}.

Definition holds_wf (s : State) : Prop := forall who, hold_vec_wf (holds who s).

Definition held_map (who : AccountId) (s : State) : gmap N Z := amount_map (holds who s).
Definition held (reason : N) (who : AccountId) (s : State) : Z := default 0 (held_map who s !! reason).

Lemma balance_on_hold_map reason who s :
  holds_wf s -> bal_balance_on_hold reason who s = held reason who s.
Proof.
  intros Hh. destruct (Hh who) as [Hd _ _]. unfold bal_balance_on_hold, held, held_map.
  destruct (find_amount reason (holds who s)) as [[i x] |] eqn:Hf.
  - by destruct (find_amount_Some _ _ _ _ Hd Hf) as (_ & _ & ->).
  - by destruct (find_amount_None _ _ Hf) as [_ ->].
Qed.

Lemma held_bounds reason who s : holds_wf s -> 0 <= held reason who s <= max_value.
Proof.
  intros Hh. destruct (Hh who) as [_ _ Ha]. unfold held, held_map. pose proof max_value_pos.
  destruct (amount_map (holds who s) !! reason) as [a |] eqn:E; simpl; [| lia].
  specialize (Ha _ _ E). simpl in Ha. lia.
Qed.

(** Updating an entry and dropping it at zero. *)
Lemma hold_update_wf l i x n :
  hold_vec_wf l -> l !! i = Some x -> 0 <= n <= max_value ->
  hold_vec_wf (filter (fun x => ia_amount x <> 0) (set_amount l i x n)) /\
  amount_map (filter (fun x => ia_amount x <> 0) (set_amount l i x n)) =
    put_amount (ia_id x) n (amount_map l).
Proof.
  intros [Hd Hlen Ha] Hi Hn. destruct (set_amount_map l i x n Hd Hi) as [Hd' Hm'].
  destruct (filter_nonzero_map _ Hd') as [Hdf Hmf].
  assert (Hm : amount_map (filter (fun x => ia_amount x <> 0) (set_amount l i x n)) =
               put_amount (ia_id x) n (amount_map l)).
  { apply map_eq. intros id. rewrite Hmf, Hm'. unfold put_amount.
    destruct (decide (id = ia_id x)) as [-> | Hne].
    - rewrite lookup_insert_eq. destruct (n =? 0); by rewrite ?lookup_delete_eq, ?lookup_insert_eq.
    - rewrite lookup_insert_ne by done.
      assert (Hr : put_amount (ia_id x) n (amount_map l) !! id = amount_map l !! id).
      { unfold put_amount. destruct (n =? 0); by rewrite ?lookup_delete_ne, ?lookup_insert_ne. }
      unfold put_amount in Hr. rewrite Hr. destruct (amount_map l !! id) as [a |] eqn:E; [| done].
      specialize (Ha _ _ E). simpl in Ha. by rewrite (proj2 (Z.eqb_neq _ _)) by lia. }
  split; [| done]. split; [done | |].
  - etrans; [apply length_filter |]. unfold set_amount. by rewrite length_insert.
  - rewrite Hm. unfold put_amount. destruct (Z.eqb_spec n 0).
    + by apply map_Forall_delete.
    + apply map_Forall_insert_2; [lia | done].
Qed.

Definition set_holds (who : AccountId) (l : list IdAmount) (s : State) : State :=
  lset HoldsL (<[who := l]> (lget HoldsL s)) s.

Lemma holds_set who w l s : holds w (set_holds who l s) = if decide (w = who) then l else holds w s.
Proof.
  unfold holds, set_holds; simpl. destruct (decide (w = who)) as [-> |].
  - by rewrite lookup_insert_eq.
  - by rewrite lookup_insert_ne.
Qed.

Lemma holds_lists w s s' : same_lists s s' -> holds w s' = holds w s.
Proof. intros Hl. unfold holds. by rewrite (sl_holds _ _ Hl). Qed.

(** The vector, and by how much the reserved balance must change. *)
Lemma hold_vector_spec reason amount l (s : State) :
  hold_vec_wf l -> 0 <= amount <= max_value ->
  let old := default 0 (amount_map l !! reason) in
  wp (match find_amount reason l with
      | Some (i, item) =>
          delta <- rust_sub (Z.max (ia_amount item) amount) (Z.min (ia_amount item) amount) ;;
          let increase := ia_amount item <? amount in
          let hs := <[i := {| ia_id := ia_id item; ia_amount := amount |}]> l in
          ret (increase, delta, filter (fun x => ia_amount x <> 0) hs)
      | None =>
          hs <- (if amount =? 0 then ret l
                 else try_push HoldVariantCount l {| ia_id := reason; ia_amount := amount |}
                        (Error_into TooManyHolds)) ;;
          ret (true, amount, hs)
      end) s (fun r s' => s' = s /\
    match r with
    | Ok (increase, delta, l') => hold_vec_wf l' /\ amount_map l' = put_amount reason amount (amount_map l) /\
        0 <= delta /\ (if increase : bool then delta = amount - old else delta = old - amount)
    | Err er => er = Error_into TooManyHolds /\ length l = HoldVariantCount /\ old = 0 /\ amount <> 0
    | Panic => False
    end).
Proof.
  intros Hl Ham old. pose proof Hl as [Hd Hlen Ha].
  destruct (find_amount reason l) as [[i x] |] eqn:Hf.
  - destruct (find_amount_Some _ _ _ _ Hd Hf) as (Hi & <- & Hm). unfold old. rewrite Hm. simpl.
    apply wp_bind. unfold rust_sub. rewrite (proj2 (Z.leb_le _ _)) by lia. apply wp_ret, wp_ret.
    split; [done |]. destruct (hold_update_wf l i x amount Hl Hi Ham) as [Hw Hm'].
    split_and!; [done | done | lia |]. destruct (Z.ltb_spec (ia_amount x) amount); lia.
  - destruct (find_amount_None _ _ Hf) as [Hn Hm]. unfold old. rewrite Hm. simpl.
    destruct (Z.eqb_spec amount 0) as [-> | Hne].
    + apply wp_bind, wp_ret, wp_ret. split; [done |]. split_and!; [done | | done | done].
      unfold put_amount. simpl. symmetry. by apply delete_id.
    + apply wp_bind. unfold try_push. destruct (Nat.ltb_spec (length l) HoldVariantCount).
      * apply wp_ret, wp_ret. split; [done |].
        destruct (amount_map_app_one l {| ia_id := reason; ia_amount := amount |} Hd Hn) as [Hd' Hm'].
        simpl in Hm'. split_and!; [| | lia | lia].
        -- split; [done | rewrite length_app; simpl; lia |]. rewrite Hm'.
           apply map_Forall_insert_2; [lia | done].
        -- rewrite Hm'. unfold put_amount. by rewrite (proj2 (Z.eqb_neq _ _)).
      * apply wp_fail. split_and!; try done. lia.
Qed.

(** The hold of [who] for [reason] has become [amount]. *)
Record held_set (reason : N) (who : AccountId) (amount : Z) (s s' : State) : Prop := {
  hs_map : held_map who s' = put_amount reason amount (held_map who s);
  hs_wf : holds_wf s';
  hs_other_holds : forall w, w <> who -> holds w s' = holds w s;
  hs_other_accounts : forall w, w <> who -> accts s' !! w = accts s !! w;
  hs_accounts : wf s';
  hs_issuance : TotalIssuance s' = TotalIssuance s;
}.

Lemma held_set_of reason who amount g l s s1 :
  holds_wf s -> acct_step who g s s1 -> TotalIssuance s1 = TotalIssuance s -> hold_vec_wf l ->
  amount_map l = put_amount reason amount (held_map who s) ->
  held_set reason who amount s (set_holds who l s1).
Proof.
  intros Hh Hst Ht Hl Hm. pose proof (as_lists _ _ _ _ Hst) as Hls. split; try done.
  - unfold held_map. by rewrite holds_set, decide_True by done.
  - intros w. rewrite holds_set. destruct (decide (w = who)); [done |].
    rewrite (holds_lists _ _ _ Hls). apply Hh.
  - intros w Hw. rewrite holds_set, decide_False by done. by apply holds_lists.
  - intros w Hw. by apply (as_others _ _ _ _ Hst).
  - apply Hst.
Qed.

Lemma held_put reason who amount s s' :
  held_set reason who amount s s' -> held reason who s' = amount.
Proof.
  intros Hs. unfold held. rewrite (hs_map _ _ _ _ _ Hs). unfold put_amount.
  destruct (Z.eqb_spec amount 0) as [-> |]; by rewrite ?lookup_delete_eq, ?lookup_insert_eq.
Qed.

(** Why [set_balance_on_hold] fails. *)
Definition cannot_hold (reason : N) (who : AccountId) (amount : Z) (s : State) : Prop :=
  let d := account who s in
  let r := reserved d + (amount - held reason who s) in
  (length (holds who s) = HoldVariantCount /\ held reason who s = 0 /\ amount <> 0) \/
  r < 0 \/ max_value < r \/
  (consumes d = false /\ r <> 0 /\
   (ai_providers (einfo (accts s !! who)) = 0 \/ MaxConsumers <= ai_consumers (einfo (accts s !! who)))).

Lemma commit_error_same_free e e1 a' er :
  upgraded e e1 -> free a' = free (edata e) -> frozen a' = frozen (edata e) ->
  commit_error (einfo e1) a' = Some er ->
  consumes (edata e) = false /\ reserved a' <> 0 /\
  (ai_providers (einfo e) = 0 \/ MaxConsumers <= ai_consumers (einfo e)).
Proof.
  intros Hup Hf Hz. pose proof (up_balances _ _ Hup) as Hbal. pose proof Hbal as (Hbf & _ & _).
  unfold commit_error. change (ai_data (einfo e1)) with (edata e1).
  assert (Hp : provides a' = provides (edata e1)) by (unfold provides; by rewrite Hf, Hbf). rewrite Hp.
  rewrite (consumes_balances_eq _ _ Hbal), (up_providers _ _ Hup).
  destruct (consumes (edata e)) eqn:Hc; simpl; [by destruct (provides (edata e1)) |].
  pose proof Hc as Hc'. unfold consumes in Hc'. apply orb_false_iff in Hc' as [Hc1 Hc2]. bool_to_prop.
  rewrite (up_consumers_eq _ _ Hup) by done.
  destruct (consumes a') eqn:Hca; simpl; [| by destruct (provides (edata e1))].
  assert (Hra : reserved a' <> 0).
  { unfold consumes in Hca. rewrite Hz, Hc2 in Hca. simpl in Hca. rewrite orb_false_r in Hca. bool_to_prop. done. }
  intros Her. split; [done |]. split; [done |].
  destruct (Z.eqb_spec (ai_providers (einfo e)) 0); [by left |]. simpl in Her.
  destruct (Z.leb_spec MaxConsumers (ai_consumers (einfo e))); [by right |].
  by destruct (provides (edata e1)).
Qed.

(** The outcome of [set_balance_on_hold]. *)
Definition hold_outcome (reason : N) (who : AccountId) (amount : Z) (s : State) (res : Res unit)
    (s' : State) : Prop :=
  let d := account who s in
  let r := reserved d + (amount - held reason who s) in
  let dust := dust_left (with_reserved d r) (free d) in
  match res with
  | Ok _ => held_set reason who amount s s' /\ 0 <= r <= max_value /\
      reserved (account who s') = r /\ free (account who s') = free d - dust /\
      frozen (account who s') = (if (free d <? ed) && (r =? 0) then 0 else frozen d) /\
      gap s' = gap s + (held reason who s - amount) + dust
  | Err er => harmless who s s' /\ same_lists s s' /\ cannot_hold reason who amount s
  | Panic => False
  end.

Lemma harmless_upd who e s s' :
  upd who e s s' -> wf s' -> balances_eq (account who s) (account who s') -> harmless who s s'.
Proof.
  intros Hu Hw Hb. split; [| done | apply Hu].
  replace 0 with (holdings (account who s) - holdings (account who s')); [by eapply acct_step_upd |].
  rewrite (balances_eq_holdings _ _ Hb). lia.
Qed.

Lemma hold_commit reason who amount s e1 l :
  wf s -> holds_wf s -> upgraded (accts s !! who) e1 -> hold_vec_wf l ->
  amount_map l = put_amount reason amount (held_map who s) ->
  let d := account who s in
  let r := reserved d + (amount - held reason who s) in
  0 <= r <= max_value ->
  commits who s e1 tt (with_reserved d r) (fun r s' =>
    match r with
    | Ok _ => hold_outcome reason who amount s (Ok tt) (set_holds who l s')
    | Err er => hold_outcome reason who amount s (Err er) s'
    | Panic => False
    end).
Proof.
  intros Hw Hh Hup Hl Hm d r Hr. pose proof (wf_account s who Hw) as Hb. fold d in Hb.
  assert (Hba : data_bounded (with_reserved d r)) by (by apply with_reserved_bounded).
  unfold commits. destruct (commit_error _ _) as [er |] eqn:Hce.
  - intros e' s' _ Hu Hw' Hbal. simpl. split; [by eapply harmless_upd |].
    split; [apply same_storage_lists, Hu |]. right; right; right.
    by destruct (commit_error_same_free _ _ (with_reserved d r) _ Hup eq_refl eq_refl Hce).
  - intros s' Hu Hw' Ha. pose proof (acct_step_upd _ _ _ _ Hu Hw') as Hst.
    pose proof (as_gap _ _ _ _ Hst) as Hg. rewrite Ha, (holdings_settled _ Hba) in Hg. fold d in Hg.
    destruct (settled_balances (with_reserved d r)) as (Sr & Sf & Sd). simpl in Sr, Sf, Sd.
    unfold hold_outcome. fold d. fold r. cbv zeta.
    assert (Ha' : account who (set_holds who l s') = settled (with_reserved d r)) by exact Ha.
    split; [eapply held_set_of; try done; apply Hu |]. rewrite Ha', Sr, Sf.
    split_and!; try done; try lia.
    + unfold settled. simpl. by destruct (_ && _).
    + change (gap (set_holds who l s')) with (gap s'). unfold holdings in Hg. simpl in Hg. lia.
Qed.

Lemma set_balance_on_hold_spec reason who amount s :
  wf s -> holds_wf s -> is_balance amount ->
  wp (bal_set_balance_on_hold reason who amount) s (hold_outcome reason who amount s).
Proof.
  intros Hw Hh [Ha0 Ha1]. set (d := account who s).
  set (r := reserved d + (amount - held reason who s)). pose proof (wf_account s who Hw) as Hb. fold d in Hb.
  pose proof Hb as [_ [Hr0 Hr1] _]. unfold bal_set_balance_on_hold.
  apply wp_bind, wp_gets, wp_bind, wp_gets. fold d. apply wp_bind.
  eapply wp_mono; [by apply hold_vector_spec; [apply (Hh who) |] |].
  fold (held_map who s). fold (held reason who s).
  intros [[[inc delta] l] | er |] s1 [-> Hl]; [| | done].
  2: { destruct Hl as (-> & Hlen & Hold & Hne). split; [by apply harmless_refl |].
       split; [done |]. left. by split_and!. }
  destruct Hl as (Hlw & Hlm & Hd0 & Hdelta).
  assert (Hnr : wp (if inc then ok_or (checked_add (reserved d) delta) (Arithmetic Overflow)
                    else ok_or (checked_sub (reserved d) delta) (Arithmetic Underflow) : M State Z) s
    (fun res s' => s' = s /\ match res with Ok x => x = r /\ 0 <= r <= max_value
                             | Err _ => r < 0 \/ max_value < r | Panic => False end)).
  { destruct inc.
    - apply wp_ok_or; [intros x [-> ?]%checked_add_Some | intros ?%checked_add_None]; unfold r; (split; [done | lia]).
    - apply wp_ok_or; [intros x [-> ?]%checked_sub_Some | intros ?%checked_sub_None]; unfold r; (split; [done | lia]). }
  apply wp_bind. eapply wp_mono; [apply Hnr |]. intros [x | er |] s1 [-> Hx]; [| | done].
  2: { split; [by apply harmless_refl |]. split; [done |]. right. unfold cannot_hold in *. fold d r. tauto. }
  destruct Hx as [-> Hrb]. apply wp_bind, wp_try_mutate_account; [done |]. intros e1 s1 Hup Hu.
  apply wp_ret. split; [done |]. split; [by apply with_reserved_bounded |].
  eapply commits_mono; [by apply hold_commit |]. fold d r.
  intros [[[] dust] | er |] s'; [| done | done]. intros Ho. apply wp_bind, wp_modify, wp_ret. exact Ho.
Qed.

(** ** Decreasing and increasing a hold *)

(** Every hold is covered by the reserved balance. *)
Definition backed (reason : N) (who : AccountId) (s : State) : Prop :=
  held reason who s <= reserved (account who s).

(** Lowering a backed hold cannot fail. *)
Lemma lower_hold_possible reason who amount s :
  wf s -> holds_wf s -> backed reason who s -> 0 <= amount <= held reason who s ->
  ~ cannot_hold reason who amount s.
Proof.
  intros Hw Hh Hb Ha. pose proof (wf_account s who Hw) as [_ [Hr0 Hr1] _]. unfold backed in Hb.
  unfold cannot_hold. intros [(_ & Hz & Hne) | [Hc | [Hc | (Hc & Hr & _)]]]; try lia.
  unfold consumes in Hc. apply orb_false_iff in Hc as [Hc _]. bool_to_prop. lia.
Qed.

Lemma decrease_on_hold_spec reason who amount precision s :
  wf s -> holds_wf s -> backed reason who s -> is_balance amount ->
  let h := held reason who s in
  let n := match precision with BestEffort => Z.min amount h | Exact => amount end in
  wp (decrease_balance_on_hold reason who amount precision) s (fun res s' =>
    match res with
    | Ok x => x = n /\ n <= h /\ hold_outcome reason who (h - n) s (Ok tt) s'
    | Err er => s' = s /\ er = Token FundsUnavailable /\ precision = Exact /\ h < amount
    | Panic => False
    end).
Proof.
  intros Hw Hh Hb [Ha0 Ha1] h n. pose proof (held_bounds reason who s Hh) as Hhb. fold h in Hhb.
  unfold decrease_balance_on_hold. apply wp_bind, wp_gets. simpl balance_on_hold.
  rewrite balance_on_hold_map by done. fold h. fold n. apply wp_bind.
  assert (Hn0 : 0 <= n) by (unfold n; destruct precision; lia).
  apply wp_ok_or; [intros x [-> Hle]%checked_sub_Some | intros Hlt%checked_sub_None].
  2: { unfold n in *. destruct precision; [done | lia]. }
  apply wp_bind. eapply wp_mono; [apply (set_balance_on_hold_spec reason who (h - n) s Hw Hh); unfold is_balance; lia |].
  intros [[] | er |] s'; [| | done].
  - intros Ho. apply wp_ret. by split_and!.
  - intros (_ & _ & Hc). exfalso. apply (lower_hold_possible reason who (h - n) s); try done. lia.
Qed.

Lemma increase_on_hold_spec reason who amount s :
  wf s -> holds_wf s -> 0 <= amount -> held reason who s + amount <= max_value ->
  wp (increase_balance_on_hold reason who amount BestEffort) s (fun res s' =>
    match res with
    | Ok x => x = amount /\ (amount = 0 /\ s' = s \/
        amount <> 0 /\ hold_outcome reason who (held reason who s + amount) s (Ok tt) s')
    | Err er => hold_outcome reason who (held reason who s + amount) s (Err er) s'
    | Panic => False
    end).
Proof.
  intros Hw Hh Ha Hmax. pose proof (held_bounds reason who s Hh) as Hhb.
  unfold increase_balance_on_hold. apply wp_bind, wp_gets. simpl balance_on_hold.
  rewrite balance_on_hold_map by done. apply wp_bind, wp_ret.
  assert (Hsa : saturating_add (held reason who s) amount = held reason who s + amount)
    by (unfold saturating_add; lia). rewrite Hsa.
  assert (Hss : saturating_sub (held reason who s + amount) (held reason who s) = amount)
    by (unfold saturating_sub; lia). rewrite Hss.
  apply wp_bind. unfold when. destruct (Z.eqb_spec amount 0) as [-> | Hne]; simpl.
  - apply wp_ret, wp_ret. split; [done |]. by left.
  - eapply wp_mono; [apply (set_balance_on_hold_spec reason who); [done | done | unfold is_balance; lia] |].
    intros [[] | er |] s'; [| done | done]. intros Ho. apply wp_ret. split; [done |]. right. done.
Qed.

(** ** [hold] *)

Lemma ensure_can_hold_spec reason who amount s :
  wp (ensure_can_hold reason who amount) s (fun res s' => s' = s /\
    match res with
    | Ok _ => amount <= bal_reducible_balance who Protect Force s /\ bal_hold_available reason who s = true
    | Err _ => True
    | Panic => False
    end).
Proof.
  unfold ensure_can_hold. apply wp_bind, wp_gets, wp_bind. simpl.
  apply wp_ensure; intros Hr; bool_to_prop; [| done]. apply wp_bind, wp_gets.
  apply wp_ensure; intros Ha; done.
Qed.

(** [amount] of the free balance of [who] is on hold for [reason]. *)
Record on_hold (reason : N) (who : AccountId) (amount : Z) (s s' : State) : Prop := {
  oh_free : free (account who s') = free (account who s) - amount
              - dust_left (account who s) (free (account who s) - amount);
  oh_reserved : reserved (account who s') = reserved (account who s) + amount;
  oh_held : held_map who s' = if amount =? 0 then held_map who s
                              else <[reason := held reason who s + amount]> (held_map who s);
  oh_issuance : TotalIssuance s' = TotalIssuance s
                  - dust_left (account who s) (free (account who s) - amount);
  oh_others : forall w, w <> who -> accts s' !! w = accts s !! w;
  oh_other_holds : forall w, w <> who -> holds w s' = holds w s;
  oh_wf : holds_wf s';
  oh_ledger : ledger_ok s';
  oh_gap : gap s' = gap s;
}.

Lemma held_lists reason who s s' : same_lists s s' -> held reason who s' = held reason who s.
Proof. intros Hl. unfold held, held_map. by rewrite (holds_lists _ _ _ Hl). Qed.

Lemma hold_spec reason who amount s :
  ledger_ok s -> holds_wf s -> backed reason who s -> is_balance amount ->
  wp (hold reason who amount) s (fun res s' =>
    match res with
    | Ok _ => on_hold reason who amount s s'
    | Err _ => True
    | Panic => False
    end).
Proof.
  intros Hok Hh Hb Ha. pose proof (lo_wf _ Hok) as Hw. pose proof Ha as [Ha0 Ha1]. unfold hold.
  apply wp_bind. eapply wp_mono; [apply ensure_can_hold_spec |]. intros [[] | er |] s0 [-> Hc]; [| done | done].
  destruct Hc as [Hred _]. pose proof (reducible_le_free who Protect Force s Hw) as Hrf.
  apply wp_bind. eapply wp_mono; [by apply decrease_balance_spec |]. simpl.
  intros [x | er |] s1; [| done | done]. intros (_ & _ & Hst & [Sf Sr Sz] & Ht).
  pose proof (as_lists _ _ _ _ Hst) as Hl. pose proof (as_gap _ _ _ _ Hst) as Hg.
  pose proof (account_holdings_max who s Hok) as Hhm. unfold holdings, backed in *.
  pose proof (held_lists reason who s s1 Hl) as Hhe. pose proof (lo_gap _ Hok). pose proof (lo_max _ Hok).
  assert (Hh1 : holds_wf s1) by (intros w; rewrite (holds_lists w _ _ Hl); apply Hh).
  pose proof (dust_left_bounds (account who s) (free (account who s) - amount)) as Hdl.
  apply wp_bind. eapply wp_mono; [apply increase_on_hold_spec; [apply Hst | done | done | lia] |].
  intros [y | er |] s2; [| done | done]. intros [-> Hcase]. apply wp_ret. rewrite Hhe in Hcase.
  destruct Hcase as [[Hz ->] | [Hne (Hs & Hrb & Or & Of & _ & Og)]].
  - rewrite Hz in *. split; try done; try lia; [| apply Hst | |].
    + unfold held_map. by rewrite (holds_lists _ _ _ Hl).
    + intros w Hne. by apply holds_lists.
    + split; [apply Hst | lia | lia].
  - rewrite Hhe, Sr in *.
    assert (Hd0 : dust_left (with_reserved (account who s1) (reserved (account who s) +
      (held reason who s + amount - held reason who s))) (free (account who s1)) = 0).
    { unfold dust_left; simpl. rewrite (proj2 (Z.eqb_neq _ _)), andb_false_r; [done |].
      pose proof (wf_account s who Hw) as [_ [] _]. lia. }
    rewrite Hd0 in *. pose proof (hs_issuance _ _ _ _ _ Hs) as Hti. split; try lia; try apply Hs.
    + rewrite (hs_map _ _ _ _ _ Hs). unfold put_amount, held_map. rewrite (holds_lists _ _ _ Hl).
      pose proof (held_bounds reason who s Hh). by rewrite !(proj2 (Z.eqb_neq _ 0)) by lia.
    + intros w Hw'. rewrite (hs_other_accounts _ _ _ _ _ Hs) by done. by apply (as_others _ _ _ _ Hst).
    + intros w Hw'. rewrite (hs_other_holds _ _ _ _ _ Hs) by done. by apply holds_lists.
    + split; [apply Hs | lia | lia].
Qed.

(** ** [release] and the destruction of held balance *)

(** [amount] of the balance on hold for [reason] has left it: [freed] of it is free again. *)
Record released_hold (reason : N) (who : AccountId) (amount freed : Z) (s s' : State) : Prop := {
  rh_free : free (account who s') = free (account who s) + freed;
  rh_reserved : reserved (account who s') = reserved (account who s) - amount;
  rh_frozen : frozen (account who s') = frozen (account who s);
  rh_held : held_map who s' = put_amount reason (held reason who s - amount) (held_map who s);
  rh_others : forall w, w <> who -> accts s' !! w = accts s !! w;
  rh_other_holds : forall w, w <> who -> holds w s' = holds w s;
  rh_wf : holds_wf s';
  rh_accounts : wf s';
  rh_gap : gap s' = gap s + (amount - freed);
}.

(** Lowering the hold of an account that keeps the existential deposit free. *)
Lemma lowered_hold reason who n s s1 :
  ed <= free (account who s) ->
  hold_outcome reason who (held reason who s - n) s (Ok tt) s1 ->
  released_hold reason who n 0 s s1 /\ TotalIssuance s1 = TotalIssuance s.
Proof.
  intros Hed (Hs & _ & Or & Of & Oz & Og). unfold dust_left in *.
  rewrite (proj2 (Z.ltb_ge _ _)) in * by done. simpl in *. split; [| apply Hs].
  split; try lia; try apply Hs.
Qed.

Lemma released_then_credited reason who n s s1 s2 :
  released_hold reason who n 0 s s1 -> credited who n s1 s2 -> released_hold reason who n n s s2.
Proof.
  intros [Rf Rr Rz Rh Ro Roh Rw Ra Rg] [Cst Cf Cr Cz _]. pose proof (as_lists _ _ _ _ Cst) as Hl.
  pose proof (as_gap _ _ _ _ Cst). split; try lia.
  - unfold held_map. rewrite (holds_lists _ _ _ Hl). apply Rh.
  - intros w Hw. rewrite (as_others _ _ _ _ Cst) by done. by apply Ro.
  - intros w Hw. rewrite (holds_lists _ _ _ Hl). by apply Roh.
  - intros w. rewrite (holds_lists _ _ _ Hl). apply Rw.
  - apply Cst.
Qed.

Lemma release_spec reason who amount precision s :
  ledger_ok s -> holds_wf s -> backed reason who s -> is_balance amount -> ed <= free (account who s) ->
  let h := held reason who s in
  let n := match precision with BestEffort => Z.min amount h | Exact => amount end in
  wp (release reason who amount precision) s (fun res s' =>
    match res with
    | Ok x => x = n /\ n <= h /\ released_hold reason who n n s s' /\ TotalIssuance s' = TotalIssuance s
    | Err er => s' = s /\
        (er = Token CannotCreate /\ max_value < free (account who s) + reserved (account who s) + amount \/
         er = Token FundsUnavailable /\ h < n)
    | Panic => False
    end).
Proof.
  intros Hok Hh Hb Ha Hed h n. pose proof (lo_wf _ Hok) as Hw. pose proof Ha as [Ha0 Ha1]. unfold release.
  pose proof (account_holdings_max who s Hok) as Hhm. unfold holdings, backed in *.
  pose proof (wf_account s who Hw) as [[Hf0 Hf1] [Hr0 Hr1] _].
  apply wp_bind, wp_gets, wp_bind, wp_ensure; intros Hdep.
  2: { split; [done |]. left. split; [done |]. apply bool_decide_eq_false in Hdep.
       simpl in Hdep. unfold bal_can_deposit in Hdep. destruct (amount =? 0); [done |]. simpl in Hdep.
       destruct (checked_add (free (account who s)) amount) as [x |] eqn:E; [| apply checked_add_None in E; lia].
       apply checked_add_Some in E as [-> _]. change ExistentialDeposit with ed in Hdep.
       rewrite (proj2 (Z.ltb_ge _ _)) in Hdep by lia.
       destruct (checked_add (reserved (account who s)) _) eqn:E'; [done |]. apply checked_add_None in E'. lia. }
  apply wp_bind. eapply wp_mono; [by apply decrease_on_hold_spec |]. fold h. fold n.
  intros [x | er |] s1; [| intros (-> & -> & Hp & Hlt); split; [done |]; right | done].
  2: { split; [done |]. unfold n. by rewrite Hp. }
  intros (-> & Hle & Ho). destruct (lowered_hold reason who n s s1 Hed Ho) as [Hrel Ht].
  assert (Hn0 : 0 <= n) by (pose proof (held_bounds reason who s Hh); unfold n, h in *; destruct precision; lia).
  pose proof (ledger_issuance_nonneg s Hok).
  eapply wp_mono; [apply increase_balance_spec; [apply Hrel | lia | unfold is_balance; lia] |].
  pose proof (rh_free _ _ _ _ _ _ Hrel) as Hfree. rewrite Hfree, Z.add_0_r.
  assert (Hsat : saturating_add (free (account who s)) n = free (account who s) + n)
    by (unfold saturating_add; lia).
  intros [x | er |] s2; simpl; [| by intros (_ & ? & _) | done]. rewrite Hsat.
  rewrite (proj2 (Z.ltb_ge _ _)) by lia. replace (free (account who s) + n - free (account who s)) with n by lia.
  intros (-> & _ & Hcr). split_and!; [done | done | by eapply released_then_credited |].
  rewrite (cr_issuance _ _ _ _ Hcr). done.
Qed.

Lemma map_sum_put id n (m : gmap N Z) :
  map_sum (fun a => a) (put_amount id n m) = map_sum (fun a => a) m - default 0 (m !! id) + n.
Proof.
  rewrite (map_sum_update _ m _ id).
  - unfold map_weight, put_amount. destruct (Z.eqb_spec n 0) as [-> |];
      rewrite ?lookup_delete_eq, ?lookup_insert_eq; simpl; by destruct (m !! id).
  - intros j Hj. unfold put_amount. destruct (n =? 0); by rewrite ?lookup_delete_ne, ?lookup_insert_ne.
Qed.

Lemma put_amount_self id (m : gmap N Z) :
  map_Forall (fun _ a => 0 < a <= max_value) m -> put_amount id (default 0 (m !! id)) m = m.
Proof.
  intros Ham. unfold put_amount. destruct (m !! id) as [a |] eqn:E; simpl; [| by apply delete_id].
  specialize (Ham _ _ E). simpl in Ham. rewrite (proj2 (Z.eqb_neq _ _)) by lia. by apply insert_id.
Qed.

Lemma put_amount_insert id n x (m : gmap N Z) : put_amount id n (<[id := x]> m) = put_amount id n m.
Proof. unfold put_amount. destruct (n =? 0); by rewrite ?delete_insert_eq, ?insert_insert_eq. Qed.

Lemma slash_on_hold_run reason who amount s :
  ledger_ok s -> holds_wf s -> backed reason who s -> is_balance amount -> ed <= free (account who s) ->
  let n := Z.min amount (held reason who s) in
  exists s', slash_on_hold reason who amount s = (Ok (MkCredit n, amount - n), s') /\
    released_hold reason who n 0 s s' /\ TotalIssuance s' = TotalIssuance s.
Proof.
  intros Hok Hh Hb Ha Hed n. pose proof (lo_wf _ Hok) as Hw. pose proof Ha as [Ha0 _].
  pose proof (held_bounds reason who s Hh) as Hhb.
  pose proof (decrease_on_hold_spec reason who amount BestEffort s Hw Hh Hb Ha) as Hs. unfold wp in Hs.
  unfold slash_on_hold, bind, try, ret. destruct (decrease_balance_on_hold _ _ _ _ s) as [[x | er |] s1];
    simpl in Hs; [| by destruct Hs as (_ & _ & ? & _) | done].
  destruct Hs as (-> & _ & Ho). fold n in Ho |- *. exists s1.
  destruct (lowered_hold reason who n s s1 Hed Ho) as [Hrel Ht]. split_and!; try done.
  by replace (saturating_sub amount n) with (amount - n) by (unfold saturating_sub; lia).
Qed.

(** The part of the reserved balance that no hold claims. *)
Definition unclaimed (who : AccountId) (s : State) : Z :=
  reserved (account who s) - map_sum (fun a => a) (held_map who s).

(** ** Theorems *)

(** [set_balance_on_hold] makes [balance_on_hold] report the new amount, leaves the holds
    for other reasons and all other accounts alone, moves the reserved balance by the
    difference so that the part no hold claims is unchanged, and keeps the vector
    within its bound and free of zero entries.  It fails only when the vector is full,
    the reserved balance would leave its range or a first reserve finds no provider or
    no room for a consumer, and then changes no balance. *)
Theorem set_balance_on_hold_exact reason who amount s :
  wf s -> holds_wf s -> is_balance amount ->
  match bal_set_balance_on_hold reason who amount s with
  | (Ok _, s') => bal_balance_on_hold reason who s' = amount /\ unclaimed who s' = unclaimed who s /\
      held_map who s' = put_amount reason amount (held_map who s) /\ holds_wf s' /\ wf s' /\
      (forall w, w <> who -> accts s' !! w = accts s !! w /\ holds w s' = holds w s)
  | (Err _, s') => harmless who s s' /\ same_lists s s' /\ cannot_hold reason who amount s
  | (Panic, _) => False
  end.
Proof.
  intros Hw Hh Ha. pose proof (set_balance_on_hold_spec reason who amount s Hw Hh Ha) as Hs. unfold wp in Hs.
  destruct (bal_set_balance_on_hold reason who amount s) as [[[] | er |] s']; simpl in Hs; [| done | done].
  destruct Hs as (Hs & _ & Hr & _). pose proof (hs_map _ _ _ _ _ Hs) as Hm.
  split_and!; try done; try apply Hs.
  - rewrite balance_on_hold_map by apply Hs. by eapply held_put.
  - unfold unclaimed. rewrite Hr, Hm, map_sum_put. fold (held reason who s). lia.
  - split; [by apply (hs_other_accounts _ _ _ _ _ Hs) | by apply (hs_other_holds _ _ _ _ _ Hs)].
Qed.

(** [hold] that returns has moved [amount] from the free balance to the hold for
    [reason], to no other account's and no other reason's change, with the gap kept;
    the issuance drops only by the dust of an account that another provider keeps
    below the existential deposit.  It never panics. *)
Theorem hold_exact reason who amount s :
  ledger_ok s -> holds_wf s -> backed reason who s -> is_balance amount ->
  fst (hold reason who amount s) <> Panic /\
  forall s', hold reason who amount s = (Ok tt, s') ->
    on_hold reason who amount s s' /\
    balance_on_hold reason who s' = balance_on_hold reason who s + amount.
Proof.
  intros Hok Hh Hb Ha. pose proof (hold_spec reason who amount s Hok Hh Hb Ha) as Hs. unfold wp in Hs.
  split; [by destruct (hold reason who amount s) as [[] ?] |]. intros s' Hrun. rewrite Hrun in Hs.
  simpl in Hs. split; [done |]. simpl. rewrite !balance_on_hold_map by (try done; apply Hs).
  unfold held at 1. rewrite (oh_held _ _ _ _ _ Hs). destruct (Z.eqb_spec amount 0) as [-> |].
  - fold (held reason who s). lia.
  - by rewrite lookup_insert_eq.
Qed.

(** C31. Holding and then releasing the same amount is the identity on an account that keeps
    the existential deposit in between: free and reserved balance, every hold, the
    issuance and the gap are as before. *)
Theorem hold_release reason who amount s s1 :
  ledger_ok s -> holds_wf s -> backed reason who s -> is_balance amount ->
  ed <= free (account who s) - amount ->
  free (account who s) + reserved (account who s) + amount <= max_value ->
  hold reason who amount s = (Ok tt, s1) ->
  exists s2, release reason who amount Exact s1 = (Ok amount, s2) /\
    free (account who s2) = free (account who s) /\
    reserved (account who s2) = reserved (account who s) /\
    held_map who s2 = held_map who s /\ TotalIssuance s2 = TotalIssuance s /\ gap s2 = gap s.
Proof.
  intros Hok Hh Hb Ha Hed Hmax Hrun. pose proof (hold_spec reason who amount s Hok Hh Hb Ha) as Hs.
  unfold wp in Hs. rewrite Hrun in Hs. simpl in Hs. destruct Hs as [Of Or Oh Oi Oo Ooh Ow Ol Og].
  unfold dust_left in *. rewrite (proj2 (Z.ltb_ge _ _)) in * by done. simpl in *. pose proof Ha as [Ha0 _].
  assert (Hheld : held reason who s1 = held reason who s + amount).
  { unfold held at 1. rewrite Oh. destruct (Z.eqb_spec amount 0) as [-> |];
      [fold (held reason who s); lia | by rewrite lookup_insert_eq]. }
  pose proof (held_bounds reason who s Hh). unfold backed in *.
  pose proof (release_spec reason who amount Exact s1 Ol Ow ltac:(unfold backed; lia) Ha ltac:(lia)) as Hr.
  unfold wp in Hr. destruct (release reason who amount Exact s1) as [[x | er |] s2]; simpl in Hr; [| | done].
  - destruct Hr as (-> & _ & [Rf Rr _ Rh _ _ _ _ Rg] & Rt). exists s2. split_and!; try done; try lia.
    rewrite Rh, Hheld, Oh. replace (held reason who s + amount - amount) with (held reason who s) by lia.
    pose proof (hv_amounts _ (Hh who)) as Ham. destruct (Z.eqb_spec amount 0) as [-> |].
    + by apply put_amount_self.
    + rewrite put_amount_insert. by apply put_amount_self.
  - destruct Hr as (_ & [[_ ?] | [_ ?]]); lia.
Qed.

(** Slashing a hold always returns: the credit and the part not slashed add up to the
    amount asked for, the hold and the reserved balance drop by the credit, nothing
    becomes free, and the gap grows by the credit that is to be dropped or resolved. *)
Theorem slash_on_hold_accounts reason who amount s :
  ledger_ok s -> holds_wf s -> backed reason who s -> is_balance amount -> ed <= free (account who s) ->
  let n := Z.min amount (held reason who s) in
  exists s', slash_on_hold reason who amount s = (Ok (MkCredit n, amount - n), s') /\
    released_hold reason who n 0 s s' /\ TotalIssuance s' = TotalIssuance s.
Proof. apply slash_on_hold_run. Qed.

(** ** Deciding the invariant *)

Definition hold_vec_check (l : list IdAmount) : bool :=
  bool_decide (NoDup (ia_id <$> l)) && (length l <=? HoldVariantCount)%nat &&
  forallb (fun '(_, a) => in_range 1 max_value a) (map_to_list (amount_map l)).

Definition holds_check (s : State) : bool :=
  forallb (fun '(_, l) => hold_vec_check l) (map_to_list (Holds s)).

Lemma holds_check_sound s : holds_check s = true -> holds_wf s.
Proof.
  unfold holds_check. rewrite forallb_forall. intros Hall who. unfold holds.
  destruct (Holds s !! who) as [l |] eqn:Hl; simpl.
  2: { split; [apply NoDup_nil_2 | simpl; lia | apply map_Forall_empty]. }
  assert (Hv : hold_vec_check l = true).
  { apply (Hall (who, l)). by apply list_elem_of_In, elem_of_map_to_list. }
  unfold hold_vec_check in Hv. rewrite !andb_true_iff, forallb_forall in Hv. destruct Hv as [[Hs Hlen] Ham].
  split; [by apply bool_decide_eq_true in Hs | by apply Nat.leb_le |].
  intros k a Hk. assert (1 <= a <= max_value); [| lia]. apply in_range_spec.
  apply (Ham (k, a)). by apply list_elem_of_In, elem_of_map_to_list.
Qed.
End holds.

Section witness.
#[local] Existing Instance sample_config.

Lemma sample_holds : holds_wf sample_state.
Proof. apply holds_check_sound. vm_compute. reflexivity. Qed.

Lemma set_balance_on_hold_exact_witness :
  bal_balance_on_hold 2 3 (snd (bal_set_balance_on_hold 2 3 25 sample_state)) = 25.
Proof.
  assert (Hrun : fst (bal_set_balance_on_hold 2 3 25 sample_state) = Ok tt) by (vm_compute; reflexivity).
  assert (Hok : ledger_ok sample_state) by sample_ledger. assert (Hb : is_balance 25) by sample_balance.
  pose proof (set_balance_on_hold_exact 2 3 25 sample_state (lo_wf _ Hok) sample_holds Hb) as W.
  destruct (bal_set_balance_on_hold 2 3 25 sample_state) as [[[] | er |] s'];
    [exact (proj1 W) | discriminate Hrun | discriminate Hrun].
Defined.

Lemma hold_exact_witness : on_hold 1 2 60 sample_state (snd (hold 1 2 60 sample_state)).
Proof.
  assert (Hrun : hold 1 2 60 sample_state = (Ok tt, snd (hold 1 2 60 sample_state)))
    by (vm_compute; reflexivity).
  assert (Hok : ledger_ok sample_state) by sample_ledger. assert (Hb : is_balance 60) by sample_balance.
  assert (Hbk : backed 1 2 sample_state) by (vm_compute; discriminate).
  exact (proj1 (proj2 (hold_exact 1 2 60 sample_state Hok sample_holds Hbk Hb) _ Hrun)).
Defined.

Lemma hold_release_witness :
  exists s2, release 1 2 60 Exact (snd (hold 1 2 60 sample_state)) = (Ok 60, s2) /\
    held_map 2 s2 = held_map 2 sample_state.
Proof.
  assert (Hrun : hold 1 2 60 sample_state = (Ok tt, snd (hold 1 2 60 sample_state)))
    by (vm_compute; reflexivity).
  assert (Hok : ledger_ok sample_state) by sample_ledger. assert (Hb : is_balance 60) by sample_balance.
  assert (Hbk : backed 1 2 sample_state) by (vm_compute; discriminate).
  assert (Hed : ed <= free (account 2 sample_state) - 60) by (clear; vm_compute; discriminate).
  assert (Hmax : free (account 2 sample_state) + reserved (account 2 sample_state) + 60 <= max_value)
    by (clear; vm_compute; discriminate).
  destruct (hold_release 1 2 60 sample_state _ Hok sample_holds Hbk Hb Hed Hmax Hrun)
    as (s2 & Hr & _ & _ & Hm & _).
  exists s2. split; [exact Hr | exact Hm].
Defined.

Lemma slash_on_hold_accounts_witness :
  exists x s', slash_on_hold 2 3 60 sample_state = (Ok x, s') /\ holds_wf s'.
Proof.
  assert (Hok : ledger_ok sample_state) by sample_ledger. assert (Hb : is_balance 60) by sample_balance.
  assert (Hbk : backed 2 3 sample_state) by (vm_compute; discriminate).
  destruct (slash_on_hold_accounts 2 3 60 sample_state Hok sample_holds Hbk Hb) as (s' & Hr & Hrel & _);
    [vm_compute; discriminate |].
  eexists _, s'. split; [exact Hr | exact (rh_wf _ _ _ _ _ _ Hrel)].
Defined.
End witness.
