(* ===== verification/LockFacts.v ===== *)
(** * Locks and freezes

    The locks of an account as a map from identifiers, the frozen balance as the largest of
    its locks and freezes, and the operations of [LockableCurrency] and of
    [fungible::freeze] that maintain it. *)

From stdpp Require Import base tactics numbers list gmap.
From S2P Require Import Prelude Dispatch System Tokens Fungible Balances BalancesFungible.
From S2P Require Import BalancesCurrency AccountSpec AccountWf Ledger FungibleFacts CurrencyFacts.
From S2P Require Import ReserveFacts TransferFacts NamedReserveFacts RepatriateFacts HoldFacts.
Local Open Scope Z_scope.

(** ** Vectors of locks *)

Definition lock_map (ls : list BalanceLock) : gmap N BalanceLock :=
  list_to_map ((fun l => (lock_id l, l)) <$> ls).

Definition distinct_locks (ls : list BalanceLock) : Prop := NoDup (lock_id <$> ls).

Lemma lock_map_cons l ls : lock_map (l :: ls) = <[lock_id l := l]> (lock_map ls).
Proof. done. Qed.

Lemma lock_map_None id ls : (id ∉ lock_id <$> ls) -> lock_map ls !! id = None.
Proof. intros Hid. apply not_elem_of_list_to_map. by rewrite <- list_fmap_compose. Qed.

Lemma lock_map_app_one ls l :
  (lock_id l ∉ lock_id <$> ls) -> lock_map (ls ++ [l]) = <[lock_id l := l]> (lock_map ls).
Proof.
  induction ls as [| l' ls IH]; [done |]. rewrite fmap_cons. intros [Hne Hin]%not_elem_of_cons.
  rewrite <- app_comm_cons, !lock_map_cons, IH by done. by apply insert_insert_ne.
Qed.

Lemma replace_lock_absent id f nl ls :
  (id ∉ lock_id <$> ls) -> replace_lock id f nl ls = (ls, nl).
Proof.
  induction ls as [| l ls IH]; [done |]. rewrite fmap_cons. intros [Hne Hin]%not_elem_of_cons. simpl.
  rewrite (proj2 (N.eqb_neq _ _)) by done. by rewrite IH.
Qed.

(** With distinct identifiers, replacing an existing lock keeps the identifiers. *)
Lemma replace_lock_present id f nl ls l :
  distinct_locks ls -> lock_map ls !! id = Some l -> (forall l, lock_id l = id -> lock_id (f l nl) = id) ->
  exists ls', replace_lock id f (Some nl) ls = (ls', None) /\ lock_id <$> ls' = lock_id <$> ls /\
    lock_map ls' = <[id := f l nl]> (lock_map ls).
Proof.
  intros Hd Hl Hf. induction ls as [| l' ls IH]; [done |]. rewrite lock_map_cons in Hl.
  apply NoDup_cons in Hd as [Hn Hd]. simpl. destruct (N.eqb_spec (lock_id l') id) as [<- | Hne].
  - rewrite lookup_insert_eq in Hl. injection Hl as <-. rewrite replace_lock_absent by done.
    eexists. split; [done |]. rewrite !fmap_cons, !lock_map_cons, Hf by done.
    split; [done |]. by rewrite insert_insert_eq.
  - rewrite lookup_insert_ne in Hl by done. destruct (IH Hd Hl) as (ls' & -> & Hids & Hm).
    eexists. split; [done |]. rewrite !fmap_cons, !lock_map_cons, Hids, Hm. split; [done |].
    by apply insert_insert_ne.
Qed.

(** The new vector of [set_lock] and [extend_lock]. *)
Lemma put_lock id f nl ls :
  distinct_locks ls -> lock_id nl = id -> (forall l, lock_id l = id -> lock_id (f l nl) = id) ->
  distinct_locks (push_left (replace_lock id f (Some nl) ls)) /\
  lock_map (push_left (replace_lock id f (Some nl) ls)) =
    <[id := match lock_map ls !! id with Some l => f l nl | None => nl end]> (lock_map ls).
Proof.
  intros Hd Hid Hf. destruct (decide (id ∈ lock_id <$> ls)) as [Hin | Hin].
  - destruct (lock_map ls !! id) as [l |] eqn:Hl.
    + destruct (replace_lock_present id f nl ls l Hd Hl Hf) as (ls' & -> & Hids & Hm).
      cbn [push_left fst snd]. split; [| done]. red. by rewrite Hids.
    + exfalso. apply not_elem_of_list_to_map in Hl. by rewrite <- list_fmap_compose in Hl.
  - rewrite replace_lock_absent, (lock_map_None _ _ Hin) by done. unfold push_left; simpl. subst id.
    split; [| by apply lock_map_app_one]. unfold distinct_locks in *. rewrite fmap_app. apply NoDup_app.
    split_and!; [done | | apply NoDup_singleton]. intros x Hx ->%list_elem_of_singleton. done.
Qed.

Lemma remove_lock_map id ls :
  distinct_locks ls ->
  distinct_locks (filter (fun l => lock_id l <> id) ls) /\
  lock_map (filter (fun l => lock_id l <> id) ls) = delete id (lock_map ls).
Proof.
  induction ls as [| l ls IH]; intros Hd.
  { split; [apply NoDup_nil_2 | symmetry; apply (delete_empty (M := gmap N))]. }
  apply NoDup_cons in Hd as [Hn Hd]. destruct (IH Hd) as [IHd IHm].
  rewrite filter_cons, lock_map_cons. destruct (decide (lock_id l <> id)) as [Hne | He].
  - rewrite lock_map_cons, IHm, delete_insert_ne by done. split; [| done]. apply NoDup_cons. split; [| done].
    intros (y & Hy & Hyl)%list_elem_of_fmap. apply list_elem_of_filter in Hyl as [_ Hyl]. apply Hn.
    rewrite Hy. by apply list_elem_of_fmap_2.
  - apply dec_stable in He. subst id. rewrite delete_insert_eq. split; [done |].
    rewrite IHm, delete_id; [done |]. by apply lock_map_None.
Qed.

(** ** The largest amount *)

Lemma fold_max_le {A} (f : A -> Z) (l : list A) b0 b :
  fold_left (fun b x => Z.max b (f x)) l b0 <= b <-> b0 <= b /\ Forall (fun x => f x <= b) l.
Proof.
  revert b0. induction l as [| x l IH]; intros b0; simpl.
  - split; [by split; [| constructor] | by intros []].
  - rewrite IH, Forall_cons, Z.max_lub_iff. tauto.
Qed.

(** [max_frozen] is the least bound of the locks and freezes. *)
Lemma max_frozen_le ls fs b :
  max_frozen ls fs <= b <->
  0 <= b /\ Forall (fun l => lock_amount l <= b) ls /\ Forall (fun x => ia_amount x <= b) fs.
Proof. unfold max_frozen. rewrite !fold_max_le. tauto. Qed.

Lemma max_frozen_lookup ls fs id l :
  lock_map ls !! id = Some l -> lock_amount l <= max_frozen ls fs.
Proof.
  intros Hl. pose proof (proj1 (max_frozen_le ls fs _) (Z.le_refl _)) as (_ & Hf & _).
  rewrite Forall_forall in Hf. apply Hf. apply elem_of_list_to_map_2 in Hl.
  by apply list_elem_of_fmap in Hl as (x & [= _ ->] & ?).
Qed.

Section locks.
Context `{Config}.

(** ** Changing the frozen balance *)

(** The account has balances that a freeze can refer to. *)
Definition funded (d : AccountData) : bool := (ed <=? free d) || negb (reserved d =? 0).

(** The account has, or can get, the consumer reference of a frozen balance [n]. *)
Definition can_carry (who : AccountId) (n : Z) (s : State) : bool :=
  let i := einfo (accts s !! who) in
  (n =? 0) || consumes (account who s) || ((0 <? ai_providers i) && (ai_consumers i <? MaxConsumers)).

Definition frozen_after (who : AccountId) (n : Z) (s : State) : Z :=
  if can_carry who n s then if funded (account who s) then n else 0 else frozen (account who s).

(** The frozen balance of [who] has become [n], and nothing else moved. *)
Record refrozen (who : AccountId) (n : Z) (s s' : State) : Prop := {
  rf_wf : wf s';
  rf_others : forall w, w <> who -> accts s' !! w = accts s !! w;
  rf_free : free (account who s') = free (account who s);
  rf_reserved : reserved (account who s') = reserved (account who s);
  rf_frozen : frozen (account who s') = n;
  rf_issuance : TotalIssuance s' = TotalIssuance s;
  rf_gap : gap s' = gap s;
}.

Lemma commit_error_frozen who s e1 n :
  wf s -> upgraded (accts s !! who) e1 ->
  commit_error (einfo e1) (with_frozen (edata e1) n) = None <-> can_carry who n s = true.
Proof.
  intros Hw Hup. unfold can_carry. rewrite account_edata. set (e := accts s !! who) in *.
  pose proof (Hw who) as [_ Hc Hp _ _ _ _ Hre _]. fold e in Hc, Hp, Hre.
  change (ai_data (einfo e)) with (edata e) in Hre.
  pose proof (up_balances _ _ Hup) as Hbal. pose proof Hbal as (_ & Hbr & _).
  unfold commit_error. change (ai_data (einfo e1)) with (edata e1).
  change (provides (with_frozen (edata e1) n)) with (provides (edata e1)).
  assert (Hneg : forall b : bool, b && negb b = false) by (by intros []). rewrite Hneg. simpl.
  rewrite (consumes_balances_eq _ _ Hbal), (up_providers _ _ Hup).
  destruct (consumes (edata e)) eqn:Hce; simpl; [by rewrite orb_true_r |].
  pose proof Hce as Hz. unfold consumes in Hz. apply orb_false_iff in Hz as [Hz _]. bool_to_prop.
  rewrite (up_consumers_eq _ _ Hup) by done. unfold consumes. simpl. rewrite Hbr, Hz. simpl.
  pose proof (up_wf _ _ Hup) as [_ _ _ _ _ Hpr _ _ _]. rewrite (up_providers _ _ Hup) in Hpr.
  change (ai_data (einfo e1)) with (edata e1) in Hpr. unfold provides.
  destruct (Z.eqb_spec n 0), (Z.eqb_spec (ai_providers (einfo e)) 0), (Z.leb_spec ed (free (edata e1))),
    (Z.leb_spec MaxConsumers (ai_consumers (einfo e))); simpl; try done; try lia;
    rewrite andb_true_iff, !Z.ltb_lt; split; intros; try done; lia.
Qed.

Lemma frozen_settled d n :
  data_bounded d -> free d = 0 \/ ed <= free d \/ reserved d <> 0 ->
  let a := settled (with_frozen d n) in
  dust_of (with_frozen d n) = None /\ free a = free d /\ reserved a = reserved d /\
  frozen a = if funded d then n else 0.
Proof.
  intros [[] [] _] Hnd. unfold settled, dust_of, funded. simpl.
  destruct (Z.ltb_spec (free d) ed), (Z.leb_spec ed (free d)), (Z.eqb_spec (reserved d) 0); simpl; try lia;
    destruct (Z.eqb_spec (free d) 0); simpl; try lia; split_and!; try done; lia.
Qed.

(** A mutation whose closure sets the frozen balance. *)
Lemma freeze_mutation who n (f : AccountData -> M State ((Z * Z) * AccountData)) s :
  wf s -> is_balance n ->
  (forall b s1, same_lists s s1 -> f b s1 = (Ok ((frozen b, n), with_frozen b n), s1)) ->
  wp (mutate_account who f) s (fun r s' =>
    same_lists s s' /\ refrozen who (frozen_after who n s) s s' /\
    match r with
    | Ok ((prev, after), dust) => prev = frozen (account who s) /\ after = n /\ can_carry who n s = true
    | Err er => can_carry who n s = false
    | Panic => False
    end).
Proof.
  intros Hw Hn Hf. apply wp_try_mutate_account; [done |]. intros e1 s1 Hup Hu. unfold wp.
  rewrite Hf by (apply same_storage_lists, Hu). simpl. split; [done |].
  pose proof (upgraded_bounded _ _ Hup) as Hb1. pose proof (up_wf _ _ Hup) as [_ _ _ _ _ _ _ _ Hnd].
  change (ai_data (einfo e1)) with (edata e1) in Hnd. pose proof (commit_error_frozen who s e1 n Hw Hup) as Hce.
  pose proof (up_balances _ _ Hup) as (Hbf & Hbr & Hbz). rewrite <- account_edata in Hbf, Hbr, Hbz.
  split; [by destruct Hb1 |]. unfold commits, frozen_after. destruct (commit_error _ _) as [er |].
  - assert (Hcc : can_carry who n s = false) by (apply not_true_iff_false; by intros ?%Hce). rewrite Hcc.
    intros e' s' _ Hu' Hw' Hb. change (drop_value _ s') with s'. split; [apply same_storage_lists, Hu' |]. split; [| done].
    destruct (harmless_upd who e' s s' Hu' Hw' Hb) as [Hst (? & ? & ?) ?].
    split; try done; [apply Hst |]. rewrite (as_gap _ _ _ _ Hst). lia.
  - rewrite (proj1 Hce eq_refl). intros s' Hu' Hw' Ha. split; [apply same_storage_lists, Hu' |].
    destruct (frozen_settled (edata e1) n Hb1 Hnd) as (_ & Sf & Sr & Sz). rewrite <- Ha in Sf, Sr, Sz.
    pose proof (acct_step_upd _ _ _ _ Hu' Hw') as Hst. split; [| done]. split; try done.
    + apply Hst.
    + by rewrite Sf.
    + by rewrite Sr.
    + rewrite Sz. unfold funded. by rewrite Hbf, Hbr.
    + apply Hu'.
    + rewrite (as_gap _ _ _ _ Hst). unfold holdings. lia.
Qed.

(** ** [update_locks] *)

Definition lock_vec_wf (ls : list BalanceLock) : Prop :=
  distinct_locks ls /\ Forall (fun l => is_balance (lock_amount l)) ls.

Definition freeze_vec_wf (fs : list IdAmount) : Prop :=
  distinct_ids fs /\ Forall (fun x => is_balance (ia_amount x)) fs.

(** The locks and freezes of [who] are well-formed vectors. *)
Definition freezer_wf (who : AccountId) (s : State) : Prop :=
  lock_vec_wf (locks who s) /\ freeze_vec_wf (freezes who s).

Lemma max_frozen_balance ls fs :
  Forall (fun l => is_balance (lock_amount l)) ls -> Forall (fun x => is_balance (ia_amount x)) fs ->
  is_balance (max_frozen ls fs).
Proof.
  intros Hl Hf. split.
  - by apply (max_frozen_le ls fs (max_frozen ls fs)).
  - apply max_frozen_le. pose proof max_value_pos. split; [lia |].
    split; (eapply Forall_impl; [done |]); intros ? []; lia.
Qed.

Definition set_locks (who : AccountId) (ls : list BalanceLock) (s : State) : State :=
  lset LocksL (if bool_decide (ls = []) then delete who (lget LocksL s) else <[who := ls]> (lget LocksL s)) s.

Lemma locks_set who w ls s : locks w (set_locks who ls s) = if decide (w = who) then ls else locks w s.
Proof.
  unfold locks, set_locks; simpl. destruct (bool_decide_reflect (ls = [])) as [-> | Hne], (decide (w = who)) as [-> |].
  - by rewrite lookup_delete_eq.
  - by rewrite lookup_delete_ne.
  - by rewrite lookup_insert_eq.
  - by rewrite lookup_insert_ne.
Qed.

(** The locks of [who] have become [ls]. *)
Record relocked (who : AccountId) (ls : list BalanceLock) (s s' : State) : Prop := {
  rl_locks : locks who s' = ls;
  rl_others : forall w, w <> who -> locks w s' = locks w s;
  rl_freezes : Freezes s' = Freezes s;
  rl_reserves : Reserves s' = Reserves s;
  rl_holds : Holds s' = Holds s;
}.

Lemma refrozen_frame who n s s1 s2 :
  refrozen who n s s1 -> accts s2 = accts s1 -> TotalIssuance s2 = TotalIssuance s1 -> refrozen who n s s2.
Proof.
  intros [] HA HT.
  assert (HD : account who s2 = account who s1) by (by rewrite !account_edata, HA).
  split; rewrite ?HD, ?HT, ?(gap_quiet s1 s2 HA HT); try done; [by eapply wf_accts |].
  intros w Hw. rewrite HA. auto.
Qed.

Lemma update_locks_spec who ls s :
  wf s -> Forall (fun l => is_balance (lock_amount l)) ls ->
  Forall (fun x => is_balance (ia_amount x)) (freezes who s) ->
  exists s', update_locks who ls s = (Ok tt, s') /\ relocked who ls s s' /\
    refrozen who (frozen_after who (max_frozen ls (freezes who s)) s) s s'.
Proof.
  intros Hw Hls Hfs. set (n := max_frozen ls (freezes who s)).
  assert (Hn : is_balance n) by by apply max_frozen_balance.
  pose proof (freeze_mutation who n (fun b => ret ((frozen b, n), with_frozen b n)) s Hw Hn ltac:(done)) as Hm.
  unfold wp in Hm. unfold update_locks, bind at 1, gets at 1. fold n. unfold bind at 1, try.
  destruct (mutate_account _ _ s) as [r s1]. simpl in Hm. destruct Hm as (Hl & Hr & Hres).
  assert (Hend : forall s2, quiet (set_locks who ls s1) s2 ->
    relocked who ls s s2 /\ refrozen who (frozen_after who n s) s s2).
  { intros s2 [Hq HA]. destruct Hl. split.
    - destruct Hq as [? ? Hlk ? ? ?]. split; try (by etrans).
      + unfold locks. rewrite Hlk. fold (locks who (set_locks who ls s1)). by rewrite locks_set, decide_True.
      + intros w Hne. unfold locks. rewrite Hlk. fold (locks w (set_locks who ls s1)).
        rewrite locks_set, decide_False by done. unfold locks. congruence.
    - eapply refrozen_frame; [done | by rewrite HA | apply Hq]. }
  assert (Hst : (if bool_decide (ls = []) then storage_remove LocksL who else storage_insert LocksL who ls) s1
    = (Ok tt, set_locks who ls s1)) by (unfold set_locks; by destruct (bool_decide _)).
  destruct r as [[[prev after] dust] | er |]; [| | done]; unfold bind, gets, ret; rewrite Hst;
    repeat match goal with |- context [if ?c then _ else _] => destruct c end;
    (eexists; split; [reflexivity |]); apply Hend; try done; apply quiet_deposit.
Qed.

(** ** The operations on locks *)

Lemma lock_forall (P : BalanceLock -> Prop) ls :
  distinct_locks ls -> Forall P ls <-> map_Forall (fun _ l => P l) (lock_map ls).
Proof.
  induction ls as [| l ls IH]; intros Hd; [split; intros; [apply map_Forall_empty | done] |].
  apply NoDup_cons in Hd as [Hn Hd]. rewrite Forall_cons, lock_map_cons, map_Forall_insert, IH; [done | done |].
  by apply lock_map_None.
Qed.

Definition lock_of (id : N) (amount reasons : Z) : BalanceLock :=
  {| lock_id := id; lock_amount := amount; lock_reasons := Reasons_from reasons |}.

(** A vector of locks has been written and the frozen balance follows it. *)
Definition locked_as (who : AccountId) (m : gmap N BalanceLock) (s s' : State) : Prop :=
  lock_map (locks who s') = m /\ freezer_wf who s' /\ relocked who (locks who s') s s' /\
  refrozen who (frozen_after who (max_frozen (locks who s') (freezes who s)) s) s s'.

Lemma update_locks_as who ls m s :
  wf s -> freezer_wf who s -> distinct_locks ls -> lock_map ls = m ->
  map_Forall (fun _ l => is_balance (lock_amount l)) m ->
  exists s', update_locks who ls s = (Ok tt, s') /\ locked_as who m s s'.
Proof.
  intros Hw [_ Hf] Hd <- Hall. apply lock_forall in Hall; [| done].
  destruct (update_locks_spec who ls s Hw Hall (proj2 Hf)) as (s' & Hrun & Hl & Hr). exists s'. split; [done |].
  pose proof (rl_locks _ _ _ _ Hl) as Hls. unfold locked_as, freezer_wf. rewrite Hls. split; [done |].
  split; [| done]. split; [done |]. unfold freezes. by rewrite (rl_freezes _ _ _ _ Hl).
Qed.

Lemma freezer_amounts who s :
  freezer_wf who s -> map_Forall (fun _ l => is_balance (lock_amount l)) (lock_map (locks who s)).
Proof. intros [[Hd Ha] _]. by apply lock_forall. Qed.

Lemma set_lock_spec id who amount reasons s :
  wf s -> freezer_wf who s -> is_balance amount -> amount <> 0 -> wr_is_empty reasons = false ->
  exists s', cur_set_lock id who amount reasons s = (Ok tt, s') /\
    locked_as who (<[id := lock_of id amount reasons]> (lock_map (locks who s))) s s'.
Proof.
  intros Hw Hf Ha Hne Hr. unfold cur_set_lock. rewrite Hr, (proj2 (Z.eqb_neq _ _)) by done. simpl.
  unfold bind, gets. destruct (put_lock id (fun _ nl => nl) (lock_of id amount reasons) (locks who s))
    as [Hd Hm]; [apply Hf | done | done |].
  apply update_locks_as; [done | done | done | |].
  - etrans; [exact Hm |]. by destruct (_ !! id).
  - apply map_Forall_insert_2; [done | by apply freezer_amounts].
Qed.

Lemma extend_lock_spec id who amount reasons s :
  wf s -> freezer_wf who s -> is_balance amount -> amount <> 0 -> wr_is_empty reasons = false ->
  let nl := lock_of id amount reasons in
  exists s', cur_extend_lock id who amount reasons s = (Ok tt, s') /\
    locked_as who (<[id := match lock_map (locks who s) !! id with Some l => extend_with l nl | None => nl end]>
                     (lock_map (locks who s))) s s'.
Proof.
  intros Hw Hf Ha Hne Hr nl. unfold cur_extend_lock. rewrite Hr, (proj2 (Z.eqb_neq _ _)) by done. simpl.
  unfold bind, gets. destruct (put_lock id extend_with nl (locks who s)) as [Hd Hm]; [apply Hf | done | done |].
  apply update_locks_as; [done | done | done | done |]. pose proof (freezer_amounts who s Hf) as Hall.
  apply map_Forall_insert_2; [| done]. destruct (lock_map (locks who s) !! id) as [l |] eqn:Hl; [| done].
  specialize (Hall _ _ Hl). unfold is_balance in *. simpl in *. lia.
Qed.

Lemma remove_lock_spec id who s :
  wf s -> freezer_wf who s ->
  exists s', cur_remove_lock id who s = (Ok tt, s') /\
    locked_as who (delete id (lock_map (locks who s))) s s'.
Proof.
  intros Hw Hf. unfold cur_remove_lock, bind, gets.
  destruct (remove_lock_map id (locks who s)) as [Hd Hm]; [apply Hf |].
  apply update_locks_as; [done | done | done | done |]. by apply map_Forall_delete, freezer_amounts.
Qed.

(** A funded account with room for a consumer carries any frozen balance. *)
Lemma funded_carries who n s :
  wf s -> funded (account who s) = true ->
  consumes (account who s) = true \/ ai_consumers (einfo (accts s !! who)) < MaxConsumers ->
  frozen_after who n s = n.
Proof.
  intros Hw Hfd Hc. unfold frozen_after. rewrite Hfd. unfold can_carry.
  pose proof (Hw who) as [_ _ _ _ _ Hp _ Hre _]. rewrite account_edata in *.
  change (ai_data (einfo (accts s !! who))) with (edata (accts s !! who)) in Hp, Hre.
  unfold funded in Hfd. apply orb_true_iff in Hfd.
  assert (Hpr : 0 < ai_providers (einfo (accts s !! who))).
  { destruct Hfd as [? | ?]; bool_to_prop; auto. }
  rewrite (proj2 (Z.ltb_lt _ _) Hpr). destruct Hc as [-> | Hc]; [by rewrite orb_true_r |].
  by rewrite (proj2 (Z.ltb_lt _ _) Hc), orb_true_r.
Qed.

(** The frozen balance of [who] is the largest of its locks and freezes. *)
Definition frozen_is_max (who : AccountId) (s : State) : Prop :=
  frozen (account who s) = max_frozen (locks who s) (freezes who s).

Lemma locked_as_max who m s s' :
  wf s -> funded (account who s) = true ->
  consumes (account who s) = true \/ ai_consumers (einfo (accts s !! who)) < MaxConsumers ->
  locked_as who m s s' -> frozen_is_max who s'.
Proof.
  intros Hw Hfd Hc (_ & _ & Hl & Hr). red. rewrite (rf_frozen _ _ _ _ Hr), funded_carries by done.
  unfold freezes. by rewrite (rl_freezes _ _ _ _ Hl).
Qed.

Definition moves_nothing (who : AccountId) (s s' : State) : Prop :=
  free (account who s') = free (account who s) /\ reserved (account who s') = reserved (account who s) /\
  (forall w, w <> who -> accts s' !! w = accts s !! w) /\ TotalIssuance s' = TotalIssuance s /\ ledger_ok s'.

Lemma refrozen_moves who n s s' : ledger_ok s -> refrozen who n s s' -> moves_nothing who s s'.
Proof.
  intros [_ Hg Hm] [Hw Ho Hf Hr _ Hi Hgap]. unfold moves_nothing. split_and!; try done. split; [done | lia | lia].
Qed.


(** While a lock of [amount] is set, a transfer that succeeds takes at most what the
    account has beyond it: free and reserved balance together stay at least [amount]. *)
Theorem lock_binds_transfer id who dest amount reasons v p s s1 s2 :
  ledger_ok s -> freezer_wf who s -> is_balance amount -> amount <> 0 -> wr_is_empty reasons = false ->
  funded (account who s) = true ->
  consumes (account who s) = true \/ ai_consumers (einfo (accts s !! who)) < MaxConsumers ->
  is_balance v -> v <> 0 ->
  cur_set_lock id who amount reasons s = (Ok tt, s1) ->
  transfer who dest v p s1 = (Ok v, s2) ->
  amount <= free (account who s) - v + reserved (account who s).
Proof.
  intros Hok Hf Ha Hne Hr Hfd Hc Hv Hv0 Hl Ht. pose proof (lo_wf _ Hok) as Hw.
  destruct (set_lock_spec id who amount reasons s Hw Hf Ha Hne Hr) as (s1' & Hl' & Hla).
  rewrite Hl in Hl'. injection Hl' as <-.
  pose proof (locked_as_max _ _ _ _ Hw Hfd Hc Hla) as Hmax. pose proof Hla as (Hm & _ & _ & Hrf).
  pose proof (refrozen_moves _ _ _ _ Hok Hrf) as (Hfr & Hrs & _ & _ & Hok1).
  assert (Hle : amount <= frozen (account who s1)).
  { rewrite Hmax. apply (max_frozen_lookup _ _ id (lock_of id amount reasons)).
    rewrite Hm. apply lookup_insert_eq. }
  pose proof (transfer_spec who dest v p s1 Hok1 Hv) as Hs. unfold wp in Hs. rewrite Ht in Hs.
  destruct Hs as (_ & _ & Hwd & _). destruct Hv as [Hvz _].
  apply can_withdraw_passes in Hwd as [Hred _]; [| apply Hok1 | done].
  rewrite reducible_untouchable in Hred. unfold untouchable in Hred. simpl in Hred. lia.
Qed.

(** ** [update_freezes] and the freezes *)

Definition set_freezes (who : AccountId) (fs : list IdAmount) (s : State) : State :=
  lset FreezesL (if bool_decide (fs = []) then delete who (lget FreezesL s) else <[who := fs]> (lget FreezesL s)) s.

Lemma freezes_set who w fs s : freezes w (set_freezes who fs s) = if decide (w = who) then fs else freezes w s.
Proof.
  unfold freezes, set_freezes; simpl. destruct (bool_decide_reflect (fs = [])) as [-> | Hne], (decide (w = who)) as [-> |].
  - by rewrite lookup_delete_eq.
  - by rewrite lookup_delete_ne.
  - by rewrite lookup_insert_eq.
  - by rewrite lookup_insert_ne.
Qed.

(** The freezes of [who] have become [fs]. *)
Record refroze (who : AccountId) (fs : list IdAmount) (s s' : State) : Prop := {
  rz_freezes : freezes who s' = fs;
  rz_others : forall w, w <> who -> freezes w s' = freezes w s;
  rz_locks : Locks s' = Locks s;
  rz_reserves : Reserves s' = Reserves s;
  rz_holds : Holds s' = Holds s;
}.

Lemma update_freezes_spec who fs s :
  wf s -> Forall (fun l => is_balance (lock_amount l)) (locks who s) ->
  Forall (fun x => is_balance (ia_amount x)) fs ->
  let n := max_frozen (locks who s) fs in
  wp (update_freezes who fs) s (fun r s' =>
    match r with
    | Ok _ => can_carry who n s = true /\ refroze who fs s s' /\ refrozen who (frozen_after who n s) s s'
    | Err _ => can_carry who n s = false /\ same_lists s s' /\ refrozen who (frozen (account who s)) s s'
    | Panic => False
    end).
Proof.
  intros Hw Hls Hfs n. assert (Hn : is_balance n) by by apply max_frozen_balance.
  unfold update_freezes. apply wp_bind. eapply wp_mono.
  { apply (freeze_mutation who n); [done | done |]. intros b s1 Hl. unfold bind, gets, ret, n, locks.
    by rewrite (sl_locks _ _ Hl). }
  intros r s1 (Hl & Hr & Hres). destruct r as [[[prev after] dust] | er |]; [| | done].
  2: { split_and!; try done. unfold frozen_after in Hr. by rewrite Hres in Hr. }
  destruct Hres as (-> & -> & Hcc).
  assert (Hend : forall s2, quiet (set_freezes who fs s1) s2 ->
    refroze who fs s s2 /\ refrozen who (frozen_after who n s) s s2).
  { intros s2 [Hq HA]. destruct Hl. split.
    - destruct Hq as [? ? ? ? ? Hfz]. split; try (by etrans).
      + unfold freezes. rewrite Hfz. fold (freezes who (set_freezes who fs s1)). by rewrite freezes_set, decide_True.
      + intros w Hne. unfold freezes. rewrite Hfz. fold (freezes w (set_freezes who fs s1)).
        rewrite freezes_set, decide_False by done. unfold freezes. congruence.
    - eapply refrozen_frame; [done | by rewrite HA | apply Hq]. }
  assert (Hst : (if bool_decide (fs = []) then storage_remove FreezesL who else storage_insert FreezesL who fs) s1
    = (Ok tt, set_freezes who fs s1)) by (unfold set_freezes; by destruct (bool_decide _)).
  apply wp_bind. unfold wp at 1. rewrite Hst. simpl.
  repeat match goal with |- context [if ?c then _ else _] => destruct c end;
    (split; [done |]); apply Hend; try done; apply quiet_deposit.
Qed.

Lemma remove_amount_map id l :
  distinct_ids l ->
  distinct_ids (filter (fun x => ia_id x <> id) l) /\
  amount_map (filter (fun x => ia_id x <> id) l) = delete id (amount_map l).
Proof.
  induction l as [| x l IH]; intros Hd.
  { split; [apply NoDup_nil_2 | symmetry; apply (delete_empty (M := gmap N))]. }
  apply NoDup_cons in Hd as [Hn Hd]. destruct (IH Hd) as [IHd IHm]. rewrite filter_cons.
  change (amount_map (x :: ?m)) with (<[ia_id x := ia_amount x]> (amount_map m)).
  destruct (decide (ia_id x <> id)) as [Hne | He].
  - change (amount_map (x :: ?m)) with (<[ia_id x := ia_amount x]> (amount_map m)).
    rewrite IHm, delete_insert_ne by done. split; [| done]. apply NoDup_cons. split; [| done].
    intros (y & Hy & Hyl)%list_elem_of_fmap. apply list_elem_of_filter in Hyl as [_ Hyl]. apply Hn.
    rewrite Hy. by apply list_elem_of_fmap_2.
  - apply dec_stable in He. subst id. rewrite delete_insert_eq. split; [done |].
    rewrite IHm, delete_id; [done |]. by apply amount_map_None.
Qed.

Lemma amount_forall (P : Z -> Prop) l :
  distinct_ids l -> Forall (fun x => P (ia_amount x)) l <-> map_Forall (fun _ => P) (amount_map l).
Proof.
  induction l as [| x l IH]; intros Hd; [split; intros; [apply map_Forall_empty | done] |].
  apply NoDup_cons in Hd as [Hn Hd].
  change (amount_map (x :: l)) with (<[ia_id x := ia_amount x]> (amount_map l)).
  rewrite Forall_cons, map_Forall_insert, IH; [done | done |]. by apply amount_map_None.
Qed.

(** The freezes of [who] as a map have become [m]. *)
Definition frozen_as (who : AccountId) (m : gmap N Z) (s : State) (r : Res unit) (s' : State) : Prop :=
  match r with
  | Ok _ => amount_map (freezes who s') = m /\ freezer_wf who s' /\ frozen_is_max who s' /\ moves_nothing who s s'
  | Err _ | Panic => False
  end.

Lemma update_freezes_as who fs m s :
  ledger_ok s -> freezer_wf who s -> funded (account who s) = true ->
  consumes (account who s) = true \/ ai_consumers (einfo (accts s !! who)) < MaxConsumers ->
  distinct_ids fs -> amount_map fs = m -> map_Forall (fun _ => is_balance) m ->
  wp (update_freezes who fs) s (frozen_as who m s).
Proof.
  intros Hok [Hl Hf] Hfd Hc Hd <- Hall. pose proof (lo_wf _ Hok) as Hw. apply amount_forall in Hall; [| done].
  eapply wp_mono; [apply update_freezes_spec; [done | apply Hl | done] |]. set (n := max_frozen (locks who s) fs).
  pose proof (funded_carries who n s Hw Hfd Hc) as Hn. intros [[] | er |] s' Hs; [| | done].
  - destruct Hs as (_ & Hz & Hr). rewrite Hn in Hr. red. unfold freezer_wf, frozen_is_max, locks.
    rewrite (rz_freezes _ _ _ _ Hz), (rz_locks _ _ _ _ Hz), (rf_frozen _ _ _ _ Hr). split_and!; try done.
    by eapply refrozen_moves.
  - destruct Hs as (Hcc & _). exfalso. destruct (decide (n = frozen (account who s))) as [He | Hne].
    + unfold can_carry in Hcc. rewrite !orb_false_iff in Hcc. destruct Hcc as [[Hz Hco] Hx].
      unfold consumes in Hco. apply orb_false_iff in Hco as [_ Hz']. bool_to_prop. lia.
    + unfold frozen_after in Hn. rewrite Hcc in Hn. done.
Qed.

(** On a funded account with room for a consumer reference, setting a freeze inserts it in
    the freezes and thawing deletes it; afterwards the frozen balance is the largest of all
    locks and freezes and no balance has moved. Only a new identifier on a full vector is
    refused, with [TooManyFreezes] and an unchanged storage. *)
Theorem freezes_exact id who amount s :
  ledger_ok s -> freezer_wf who s -> is_balance amount -> amount <> 0 ->
  funded (account who s) = true ->
  consumes (account who s) = true \/ ai_consumers (einfo (accts s !! who)) < MaxConsumers ->
  let m := amount_map (freezes who s) in
  wp (bal_thaw id who) s (frozen_as who (delete id m) s) /\
  if bool_decide (m !! id = None) && (MaxFreezes <=? length (freezes who s))%nat
  then bal_set_freeze id who amount s = (Err (Error_into TooManyFreezes), s)
  else wp (bal_set_freeze id who amount) s (frozen_as who (<[id := amount]> m) s).
Proof.
  intros Hok Hf Ha Hne Hfd Hc m. pose proof Hf as [_ [Hd Ham]]. apply amount_forall in Ham; [| done].
  fold m in Ham. split.
  { apply wp_bind, wp_gets. destruct (remove_amount_map id (freezes who s) Hd) as [Hd' Hm'].
    apply update_freezes_as; try done. by apply map_Forall_delete. }
  unfold bal_set_freeze. rewrite (proj2 (Z.eqb_neq _ _)) by done.
  assert (Hins : map_Forall (fun _ => is_balance) (<[id := amount]> m)) by by apply map_Forall_insert_2.
  destruct (find_amount id (freezes who s)) as [[i x] |] eqn:Hfi.
  - destruct (find_amount_Some _ _ _ _ Hd Hfi) as (Hi & <- & Hm). fold m in Hm. rewrite bool_decide_false by (by rewrite Hm).
    apply wp_bind, wp_gets, wp_bind. rewrite Hfi. apply wp_ret.
    destruct (set_amount_map _ _ _ amount Hd Hi) as [Hd' Hm']. by apply update_freezes_as.
  - destruct (find_amount_None _ _ Hfi) as [Hn Hm]. fold m in Hm. rewrite bool_decide_true by done. simpl.
    destruct (Nat.leb_spec MaxFreezes (length (freezes who s))).
    + unfold bind, gets. rewrite Hfi. unfold try_push. by rewrite (proj2 (Nat.ltb_ge _ _)).
    + apply wp_bind, wp_gets, wp_bind. rewrite Hfi. unfold try_push. rewrite (proj2 (Nat.ltb_lt _ _)) by done.
      apply wp_ret. destruct (amount_map_app_one _ {| ia_id := id; ia_amount := amount |} Hd Hn) as [Hd' Hm'].
      by apply update_freezes_as.
Qed.

(** ** Deciding the invariant *)

Definition freezer_check (who : AccountId) (s : State) : bool :=
  bool_decide (NoDup (lock_id <$> locks who s)) && bool_decide (NoDup (ia_id <$> freezes who s)) &&
  forallb (fun l => in_range 0 max_value (lock_amount l)) (locks who s) &&
  forallb (fun x => in_range 0 max_value (ia_amount x)) (freezes who s).

Lemma freezer_check_sound who s : freezer_check who s = true -> freezer_wf who s.
Proof.
  unfold freezer_check. rewrite !andb_true_iff, !forallb_forall, !bool_decide_eq_true.
  intros [[[? ?] Hl] Hf]. split; split; try done; apply Forall_forall; intros x Hx%list_elem_of_In;
    apply in_range_spec; auto.
Qed.
End locks.

Section witness.
#[local] Existing Instance sample_config.

Lemma sample_freezer : freezer_wf 2 sample_state.
Proof. apply freezer_check_sound. vm_compute. reflexivity. Qed.

Lemma sample_funded : funded (account 2 sample_state) = true.
Proof. vm_compute. reflexivity. Qed.

Lemma sample_room :
  consumes (account 2 sample_state) = true \/ ai_consumers (einfo (accts sample_state !! 2%N)) < MaxConsumers.
Proof. left. vm_compute. reflexivity. Qed.


Lemma lock_binds_transfer_witness :
  80 <= free (account 2 sample_state) - 100 + reserved (account 2 sample_state).
Proof.
  assert (Hok : ledger_ok sample_state) by sample_ledger. assert (Hb : is_balance 80) by sample_balance.
  assert (Hv : is_balance 100) by sample_balance.
  assert (Hl : cur_set_lock 9 2 80 WR_all sample_state = (Ok tt, snd (cur_set_lock 9 2 80 WR_all sample_state)))
    by (vm_compute; reflexivity).
  assert (Ht : transfer 2 1 100 Preserve (snd (cur_set_lock 9 2 80 WR_all sample_state)) =
    (Ok 100, snd (transfer 2 1 100 Preserve (snd (cur_set_lock 9 2 80 WR_all sample_state)))))
    by (vm_compute; reflexivity).
  exact (lock_binds_transfer 9 2 1 80 WR_all 100 Preserve sample_state _ _ Hok sample_freezer Hb
    ltac:(discriminate) ltac:(reflexivity) sample_funded sample_room Hv ltac:(discriminate) Hl Ht).
Defined.

Lemma freezes_exact_witness :
  wp (bal_thaw 7 2) sample_state (frozen_as 2 (delete 7%N (amount_map (freezes 2 sample_state))) sample_state).
Proof.
  assert (Hok : ledger_ok sample_state) by sample_ledger. assert (Hb : is_balance 80) by sample_balance.
  destruct (freezes_exact 7 2 80 sample_state Hok sample_freezer Hb ltac:(discriminate)
    sample_funded sample_room) as [Ht _].
  exact Ht.
Defined.
End witness.
