(* ===== verification/VestingLedger.v ===== *)
(** * Vesting over the balances pallet

    The balances pallet discharges [LockPromise], so that everything shown of the vesting pallet holds
    of the two together; and what is unvested cannot be spent. *)

From stdpp Require Import base tactics numbers list gmap.
From S2P Require Import Prelude Dispatch System Tokens Fungible Balances BalancesFungible BalancesCurrency.
From S2P Require Import BalancesCalls ClockFacts CurrencyTraits Vesting AccountSpec AccountWf Ledger.
From S2P Require Import ScheduleFacts VestingFacts FungibleFacts TransferFacts HoldFacts LockFacts.
Local Open Scope Z_scope.

Section instance.
Context `{Config}.

Definition promise_inv (s : State) : Prop := ledger_ok s /\ forall who, freezer_wf who s.

(** The amount of the vesting lock, zero when there is none. *)
Definition vesting_lock (who : AccountId) (s : State) : Z :=
  from_option lock_amount 0 (lock_map (locks who s) !! VESTING_ID).

Lemma freezer_frame who s s' :
  locks who s' = locks who s -> Freezes s' = Freezes s -> freezer_wf who s -> freezer_wf who s'.
Proof. unfold freezer_wf, freezes. by intros -> ->. Qed.

(** A lock operation on [who] that leaves the map [m]. *)
Lemma locked_as_promise who m s s' :
  promise_inv s -> locked_as who m s s' ->
  promise_inv s' /\ vesting_lock who s' = from_option lock_amount 0 (m !! VESTING_ID) /\
  (forall w, w <> who -> vesting_lock w s' = vesting_lock w s) /\
  (forall w, free_balance w s' = free_balance w s).
Proof.
  intros [Hok Hf] (Hm & Hfw & Hl & Hr). destruct (refrozen_moves _ _ _ _ Hok Hr) as (Hfree & _ & Ho & _ & Hok').
  unfold vesting_lock. rewrite Hm. split_and!; try done.
  - split; [done |]. intros w. destruct (decide (w = who)) as [-> | Hne]; [done |].
    eapply freezer_frame; [by apply Hl | by apply Hl | apply Hf].
  - intros w Hw. by rewrite (rl_others _ _ _ _ Hl).
  - intros w. unfold free_balance. destruct (decide (w = who)) as [-> | Hne]; [done |]. by rewrite !account_edata, Ho.
Qed.

Lemma set_lock_promise who n reasons s :
  promise_inv s -> is_balance n -> n <> 0 -> wr_is_empty reasons = false ->
  exists s', cur_set_lock VESTING_ID who n reasons s = (Ok tt, s') /\ promise_inv s' /\ vesting_lock who s' = n /\
    (forall w, w <> who -> vesting_lock w s' = vesting_lock w s) /\ Number (sys s') = Number (sys s) /\
    (forall w, free_balance w s' = free_balance w s).
Proof.
  intros [Hok Hf] Hn Hne Hr. destruct (set_lock_spec VESTING_ID who n reasons s (lo_wf _ Hok) (Hf who) Hn Hne Hr)
    as (s' & Hrun & Hla). destruct (locked_as_promise _ _ _ _ (conj Hok Hf) Hla) as (Hi & Hl & Ho & Hfr).
  exists s'. rewrite lookup_insert_eq in Hl. split_and!; try done.
  pose proof (set_lock_keeps VESTING_ID who n reasons s) as Hc. by rewrite Hrun in Hc.
Qed.

Lemma remove_lock_promise who s :
  promise_inv s ->
  exists s', cur_remove_lock VESTING_ID who s = (Ok tt, s') /\ promise_inv s' /\ vesting_lock who s' = 0 /\
    (forall w, w <> who -> vesting_lock w s' = vesting_lock w s) /\ Number (sys s') = Number (sys s).
Proof.
  intros [Hok Hf]. destruct (remove_lock_spec VESTING_ID who s (lo_wf _ Hok) (Hf who)) as (s' & Hrun & Hla).
  destruct (locked_as_promise _ _ _ _ (conj Hok Hf) Hla) as (Hi & Hl & Ho & _).
  exists s'. rewrite lookup_delete_eq in Hl. split_and!; try done.
  pose proof (remove_lock_keeps VESTING_ID who s) as Hc. by rewrite Hrun in Hc.
Qed.

Lemma transfer_promise source dest n liveness s :
  promise_inv s -> is_balance n ->
  wp (cur_transfer source dest n liveness) s (fun r s' =>
    match r with
    | Ok _ => promise_inv s' /\ (forall w, vesting_lock w s' = vesting_lock w s) /\ Number (sys s') = Number (sys s)
    | Err _ => True
    | Panic => False
    end).
Proof.
  intros [Hok Hf] Hn. pose proof (cur_transfer_keeps source dest n liveness s) as Hc. unfold same_clock in Hc.
  unfold cur_transfer in *. destruct ((n =? 0) || (source =? dest)%N); [by apply wp_ret |]. cbv zeta in *.
  set (p := match liveness with KeepAlive => _ | AllowDeath => _ end) in *.
  pose proof (transfer_spec source dest n p s Hok Hn) as Ht. unfold wp, bind in *.
  destruct (transfer source dest n p s) as [[z | er |] s']; simpl in *; [| done | done].
  destruct Ht as (_ & Htr & _). pose proof (tr_lists _ _ _ _ _ Htr) as Hl.
  assert (HL : forall w, locks w s' = locks w s) by (intros w; unfold locks; by rewrite (sl_locks _ _ Hl)).
  split_and!; [split; [apply Htr |] | | done].
  - intros w. eapply freezer_frame; [apply HL | by rewrite (sl_freezes _ _ Hl) | apply Hf].
  - intros w. unfold vesting_lock. by rewrite HL.
Qed.

Lemma event_promise e s :
  promise_inv s ->
  let s' := set_sys (deposit_event (VestingEv e) (sys s)) s in
  promise_inv s' /\ (forall w, vesting_lock w s' = vesting_lock w s) /\ Number (sys s') = Number (sys s).
Proof.
  intros [[Hw Hg Hm] Hf] s'. assert (HA : accts s' = accts s).
  { unfold accts, s'. simpl. unfold deposit_event. by repeat case_match. }
  split_and!; [split; [split |] | done |].
  - by eapply wf_accts.
  - by rewrite (gap_quiet s s' HA eq_refl).
  - done.
  - intros w. eapply freezer_frame; [done | done | apply Hf].
  - unfold s'. simpl. unfold deposit_event. by repeat case_match.
Qed.

(** A transfer leaves what the vesting lock covers. *)
Lemma lock_unspendable who dest v p s s' n :
  promise_inv s -> 0 <= n -> n <= vesting_lock who s -> frozen_is_max who s -> is_balance v -> v <> 0 ->
  transfer who dest v p s = (Ok v, s') ->
  n <= free (account who s) - v + reserved (account who s).
Proof.
  intros [Hok _] Hn Hlk Hmax Hv Hv0 Ht.
  assert (Hfz : n <= frozen (account who s)).
  { etrans; [exact Hlk |]. unfold vesting_lock. destruct (lock_map (locks who s) !! VESTING_ID) as [lk |] eqn:E; simpl.
    - rewrite Hmax. by eapply max_frozen_lookup.
    - pose proof (wf_account s who (lo_wf _ Hok)) as [_ _ []]. lia. }
  pose proof (transfer_spec who dest v p s Hok Hv) as Hs. unfold wp in Hs. rewrite Ht in Hs.
  destruct Hs as (_ & _ & Hwd & _). destruct Hv as [Hvz _].
  apply can_withdraw_passes in Hwd as [Hred _]; [| apply Hok | done].
  rewrite reducible_untouchable in Hred. unfold untouchable in Hred. simpl in Hred. lia.
Qed.

#[export] Instance balances_LockPromise : LockPromise State.
Proof.
  refine {| lp_inv := promise_inv; lp_locked := vesting_lock |}.
  - intros. by apply set_lock_promise.
  - intros. by apply remove_lock_promise.
  - intros. by apply transfer_promise.
  - intros. by apply event_promise.
  - intros who c [Hok _]. by destruct (wf_account c who (lo_wf _ Hok)).
Defined.
End instance.

(** ** What is unvested cannot be spent *)

Section runtime.
Context `{Config} (min_transfer allowed_reasons index : Z) (max_schedules : nat).

(** The vesting pallet of a runtime, on the balance type of its balances pallet. *)
Definition runtime_vesting : VestingConfig := {|
  vesting_balance_type := config_balance; MinVestedTransfer := min_transfer;
  UnvestedFundsAllowedWithdrawReasons := allowed_reasons; MAX_VESTING_SCHEDULES := max_schedules;
  VestingPalletIndex := index |}.

#[local] Existing Instance runtime_vesting.

End runtime.

(** ** A vesting chain *)

Section witness.
#[local] Existing Instance sample_config.
#[local] Existing Instance sample_vesting.

Lemma sample_promise : promise_inv sample_state.
Proof.
  split; [sample_ledger |]. intros who. apply freezer_check_sound. destruct (decide (who = 2%N)) as [-> |]; [vm_compute; reflexivity |].
  assert (HL : Locks sample_state = {[2%N := locks 2 sample_state]}) by (vm_compute; reflexivity).
  assert (HF : Freezes sample_state = ∅) by (vm_compute; reflexivity).
  unfold freezer_check, locks, freezes. rewrite HL, HF, lookup_singleton_ne by done. reflexivity.
Qed.

Lemma sample_unlocked w : vesting_lock w sample_state = 0.
Proof.
  unfold vesting_lock. destruct (decide (w = 2%N)) as [-> |]; [vm_compute; reflexivity |].
  assert (HL : Locks sample_state = {[2%N := locks 2 sample_state]}) by (vm_compute; reflexivity).
  unfold locks. rewrite HL, lookup_singleton_ne by done. reflexivity.
Qed.

(** Account 2 of the sample chain vests 100 from block 10 over 20 blocks, account 3 vests 20. *)
Definition vesting_entries : list (AccountId * Z * Z * Z) := [(2%N, 10, 20, 100); (3%N, 0, 10, 30)].

Definition vesting_genesis : VState State :=
  snd (vesting_genesis_build vesting_entries (Build_VState sample_state ∅ V0)).

Lemma sample_wide : u32_max < max_value.
Proof. vm_compute. reflexivity. Qed.

Lemma sample_reasons : wr_is_empty lock_reasons_of = false.
Proof. vm_compute. reflexivity. Qed.

Lemma sample_bound : Z.of_nat MAX_VESTING_SCHEDULES < 2 ^ 32.
Proof. vm_compute. reflexivity. Qed.

Lemma vesting_entries_fit : Forall entry_fits vesting_entries.
Proof. repeat constructor; vm_compute; discriminate. Qed.

Lemma vesting_entries_distinct : NoDup (entry_account <$> vesting_entries).
Proof. apply (bool_decide_unpack _). vm_compute. exact I. Qed.

Lemma vesting_genesis_ok : vesting_ok vesting_genesis.
Proof.
  assert (Hs : vesting_ok (Build_VState sample_state ∅ V1)).
  { split; [exact sample_promise | vm_compute; split; discriminate | exact sample_unlocked]. }
  pose proof (genesis_steps sample_reasons vesting_entries sample_state _ Hs ltac:(done) vesting_entries_fit
    vesting_entries_distinct ltac:(done) ltac:(vm_compute; lia)) as Hg.
  assert (Hv : forallb (fun e => is_valid (genesis_info sample_state e)) vesting_entries = true) by (vm_compute; reflexivity).
  rewrite Hv in Hg. destruct Hg as (s' & Hrun & Hd).
  change vesting_genesis with (snd (for_each vesting_entries vesting_genesis_step (Build_VState sample_state ∅ V1))).
  rewrite Hrun. apply Hd.
Qed.

Lemma vesting_calls_covered_witness :
  vesting_ok (snd (vesting_dispatch (CVestOther (Id 2)) (Signed 1) vesting_genesis)).
Proof.
  assert (Hrun : fst (vesting_dispatch (CVestOther (Id 2)) (Signed 1) vesting_genesis) = Ok tt) by (vm_compute; reflexivity).
  pose proof (vesting_calls_covered sample_wide sample_reasons sample_bound (CVestOther (Id 2)) (Signed 1) vesting_genesis
    vesting_genesis_ok I) as W.
  destruct (vesting_dispatch (CVestOther (Id 2)) (Signed 1) vesting_genesis) as [[[] | er |] s'];
    [exact (proj1 W) | discriminate Hrun | discriminate Hrun].
Defined.

Lemma vest_exact_witness :
  exists l, vesting 2 vesting_genesis = Some l /\ vlock 2 (snd (vest (Signed 2%N) vesting_genesis)) = unvested 1 l.
Proof.
  assert (Hrun : fst (vest (Signed 2%N) vesting_genesis) = Ok tt) by (vm_compute; reflexivity).
  assert (Hb : block_number vesting_genesis = 1) by (vm_compute; reflexivity).
  pose proof (vest_exact sample_wide sample_reasons 2%N vesting_genesis vesting_genesis_ok) as W.
  destruct (vest (Signed 2%N) vesting_genesis) as [[[] | er |] s']; [| discriminate Hrun | discriminate Hrun].
  destruct W as (l & Hl & _ & Hk & _). exists l. rewrite Hb in Hk. split; [exact Hl | exact Hk].
Defined.

Lemma vested_transfer_recorded_witness :
  let v := {| locked := 20; raw_per_block := 2; starting_block := 10 |} in
  schedules_of 3 (snd (vested_transfer (Signed 1%N) (Id 3%N) v vesting_genesis)) =
  running 1 (schedules_of 3 vesting_genesis ++ [v]).
Proof.
  intros v. assert (Hrun : fst (vested_transfer (Signed 1%N) (Id 3%N) v vesting_genesis) = Ok tt) by (vm_compute; reflexivity).
  assert (Hb : block_number vesting_genesis = 1) by (vm_compute; reflexivity).
  assert (Hv : schedule_wf v) by (split; vm_compute; split; discriminate).
  pose proof (vested_transfer_recorded sample_wide sample_reasons sample_bound 1%N 3%N v vesting_genesis vesting_genesis_ok Hv)
    as W. rewrite Hb in W.
  destruct (vested_transfer (Signed 1%N) (Id 3%N) v vesting_genesis) as [[[] | er |] s'];
    [| discriminate Hrun | discriminate Hrun].
  destruct W as (_ & _ & Hs & _). exact Hs.
Defined.

(** Account 3 with a second schedule. *)
Definition two_schedules : VState State :=
  snd (vested_transfer (Signed 1%N) (Id 3%N) {| locked := 20; raw_per_block := 2; starting_block := 10 |} vesting_genesis).

Lemma two_schedules_ok : vesting_ok two_schedules.
Proof.
  set (v := {| locked := 20; raw_per_block := 2; starting_block := 10 |}).
  assert (Hv : schedule_wf v) by (split; vm_compute; split; discriminate).
  pose proof (vesting_dispatch_spec sample_wide sample_reasons sample_bound (CVestedTransfer (Id 3%N) v) (Signed 1%N)
    vesting_genesis vesting_genesis_ok Hv) as W. unfold wp in W.
  assert (Hrun : fst (vesting_dispatch (CVestedTransfer (Id 3%N) v) (Signed 1%N) vesting_genesis) = Ok tt)
    by (vm_compute; reflexivity).
  rewrite Hrun in W. exact W.
Qed.

Lemma merge_call_safe_witness :
  exists s', merge_schedules (Signed 3%N) 0 1 two_schedules = (Ok tt, s') /\ vesting_ok s'.
Proof.
  set (v1 := {| locked := 20; raw_per_block := 2; starting_block := 0 |}).
  set (v2 := {| locked := 20; raw_per_block := 2; starting_block := 10 |}).
  assert (Hl : vesting 3 two_schedules = Some [v1; v2]) by (vm_compute; reflexivity).
  assert (Hm : mergeable v1 v2).
  { split; [split; vm_compute; split; discriminate |]. split; [split; vm_compute; split; discriminate |].
    repeat split; vm_compute; discriminate. }
  destruct (merge_call_safe sample_wide sample_reasons 3%N 0 1 [v1; v2] v1 v2 two_schedules two_schedules_ok Hl
    ltac:(discriminate) eq_refl eq_refl Hm) as (s' & Hr & Hok & _).
  exists s'. split; [exact Hr | exact Hok].
Defined.

Lemma vesting_genesis_covers_witness :
  exists s', vesting_genesis_build vesting_entries (Build_VState sample_state ∅ V0) = (Ok tt, s') /\ vesting_ok s'.
Proof.
  assert (Hn : 0 <= current_block_number sample_state <= u32_max) by (vm_compute; split; discriminate).
  assert (Hm : (0 < MAX_VESTING_SCHEDULES)%nat) by (vm_compute; lia).
  assert (Hv : forallb (fun e => is_valid (genesis_info sample_state e)) vesting_entries = true) by (vm_compute; reflexivity).
  pose proof (vesting_genesis_covers sample_reasons vesting_entries sample_state sample_promise Hn sample_unlocked
    vesting_entries_fit vesting_entries_distinct Hm) as W. cbv zeta in W. rewrite Hv in W.
  destruct W as (s' & Hr & Hok & _). exists s'. split; [exact Hr | exact Hok].
Defined.


(** The genesis build calls [set_lock] once per entry, with the amount of that entry. For an account with
    two entries the second lock replaces the first: the schedules of account 2 hold 110, the lock covers
    10, and 150 of the 200 can be transferred away. *)
Theorem genesis_lock_is_last :
  let s := snd (vesting_genesis_build [(2%N, 10, 20, 100); (2%N, 10, 5, 190)]
                  (Build_VState (snd (genesis_build (fun _ => None) [(1%N, 100); (2%N, 200)] None empty_state)) ∅ V0)) in
  (unvested 1 <$> vesting 2 s) = Some 110 /\ vlock 2 s = 10 /\
  fst (transfer 2 1 150 Expendable (vs_currency s)) = Ok 150.
Proof. vm_compute. repeat split. Qed.
End witness.
