(* ===== verification/CallFacts.v ===== *)
(** * The calls

    Every extrinsic of the pallet keeps the ledger, touches only the balances of the account
    that pays, and leaves no trace when it fails. *)

From stdpp Require Import base tactics numbers list gmap.
From S2P Require Import Prelude Dispatch System Tokens Fungible Balances BalancesFungible.
From S2P Require Import BalancesCurrency BalancesCalls AccountSpec AccountWf Ledger.
From S2P Require Import FungibleFacts TransferFacts ImbalanceFacts CurrencyFacts ReserveFacts RepatriateFacts.
Local Open Scope Z_scope.

Section calls.
Context `{Config}.

(** ** A step that keeps the books

    The ledger stays well-formed, the gap is the same, and no account but [payer] loses. *)

Record books_kept (payer : option AccountId) (s s' : State) : Prop := {
  bk_ledger : ledger_ok s';
  bk_gap : gap s' = gap s;
  bk_lists : same_lists s s';
  bk_payer : forall w, Some w <> payer -> holdings (account w s) <= holdings (account w s');
}.

Lemma books_kept_refl payer s : ledger_ok s -> books_kept payer s s.
Proof. intros Hok. by split. Qed.

Lemma books_kept_acct who s s' :
  acct_step who 0 s s' -> ledger_ok s' -> books_kept (Some who) s s'.
Proof.
  intros Hst Hok. split; [done | rewrite (as_gap _ _ _ _ Hst); lia | apply Hst |].
  intros w Hw. rewrite (acct_step_account _ _ _ _ _ Hst); [lia | congruence].
Qed.

Lemma books_kept_transfer source dest amount s s' :
  0 <= amount -> transferred source dest amount s s' -> books_kept (Some source) s s'.
Proof.
  intros Ha [Hok Hg Hl Ho Hself _ Hd _]. split; [done | done | done |]. intros w Hw.
  destruct (decide (source = dest)) as [He | Hne]; [by rewrite (Hself He) |].
  destruct (decide (w = dest)) as [-> | Hwd].
  - specialize (Hd Hne). apply balances_eq_holdings in Hd. rewrite Hd. unfold holdings; simpl. lia.
  - assert (Hwo : accts s' !! w = accts s !! w) by (apply Ho; congruence).
    rewrite !account_edata, Hwo. done.
Qed.

(** The outcome of a call in its storage layer. *)
Definition call_outcome (payer : option AccountId) (s : State) (r : Res unit) (s' : State) : Prop :=
  match r with
  | Ok _ => books_kept payer s s'
  | Err _ => s' = s
  | Panic => False
  end.

Lemma wp_call payer (m : M State unit) s :
  wp m s (fun r s' => match r with Ok _ => books_kept payer s s' | Err _ => True | Panic => False end) ->
  wp (with_storage_layer m) s (call_outcome payer s).
Proof. intros Hm. apply wp_storage_layer. eapply wp_mono; [done |]. by intros [[] | |] s'. Qed.

Lemma wp_transfer_call source dest amount p s :
  ledger_ok s -> is_balance amount ->
  wp (do transfer source dest amount p ;; ret tt) s (fun r s' =>
    match r with Ok _ => books_kept (Some source) s s' | Err _ => True | Panic => False end).
Proof.
  intros Hok Ha. apply wp_bind. eapply wp_mono; [by apply transfer_spec |].
  intros [n | er |] s' Hs; [| done | done]. destruct Hs as (_ & Ht & _). apply wp_ret.
  eapply books_kept_transfer; [apply Ha | done].
Qed.

(** ** [force_set_balance] *)

Lemma commit_error_wf_issuance s : ledger_ok s -> 0 <= TotalIssuance s <= max_value.
Proof. intros Hok. split; [by apply ledger_issuance_nonneg | apply Hok]. Qed.

(** Dropping an imbalance after a step that opened the gap by its backing. *)
Lemma drop_closes who b s s1 s2 :
  ledger_ok s -> acct_step who b s s1 -> issuance_moved b s1 s2 -> TotalIssuance s2 <= max_value ->
  books_kept (Some who) s s2.
Proof.
  intros Hok Hst [HA HT HL] Hm.
  assert (Hg : gap s2 = gap s).
  { unfold gap. rewrite HT, (supply_same _ _ HA). pose proof (as_gap _ _ _ _ Hst) as Hg.
    unfold gap in Hg. lia. }
  assert (Hw : wf s2) by (eapply wf_accts; [done | apply Hst]). pose proof (lo_gap _ Hok).
  split; [split; [done | lia | done] | done | by etrans; [apply Hst |] |]. intros w Hw'.
  rewrite !account_edata, HA, (as_others _ _ _ _ Hst) by congruence. done.
Qed.

Definition forced_free (new_free : Z) : Z := if new_free <? ed then 0 else new_free.

Lemma forced_free_bounds n : is_balance n ->
  is_balance (forced_free n) /\ forced_free n <= n /\ forall d, dust_left d (forced_free n) = 0.
Proof.
  intros [Hn0 Hn1]. pose proof ed_pos. pose proof max_value_pos. unfold forced_free, dust_left, is_balance.
  destruct (Z.ltb_spec n ed); (split; [lia | split; [lia |]]); intros d; [by destruct (_ && _) |].
  by rewrite (proj2 (Z.ltb_ge _ _)).
Qed.

(** Writing the balance opens the gap by what it takes away. *)
Lemma force_mutate_spec who n s :
  ledger_ok s -> is_balance n -> (forall d, dust_left d n = 0) ->
  wp (mutate_account_handling_dust who (fun account => ret (free account, with_free account n))) s (fun r s' =>
    match r with
    | Ok x => x = free (account who s) /\ acct_step who (free (account who s) - n) s s' /\
              set_free who n s s' /\ TotalIssuance s' = TotalIssuance s
    | Err _ => True
    | Panic => False
    end).
Proof.
  intros Hok Hn Hdust. pose proof (lo_wf _ Hok) as Hw. apply (wp_handling_dust who); [done |].
  intros e1 s1 Hup Hu. apply wp_ret. split; [done |].
  pose proof (up_balances _ _ Hup) as Hbal. rewrite <- account_edata in Hbal.
  split; [apply with_free_bounded; [by eapply upgraded_bounded | done] |].
  rewrite (dust_amount_with_free _ _ n Hbal), Hdust.
  split; [by apply ledger_issuance_nonneg |]. rewrite (proj1 Hbal).
  apply settles_free; [done |]. destruct (_ && _ && _ && _); [done |]. intros s' Hst Hsf Ht.
  rewrite Hdust in Ht. split_and!; [done | done | done | lia].
Qed.

Lemma force_set_balance_spec origin who n s :
  ledger_ok s -> is_balance n -> TotalIssuance s + n <= max_value ->
  wp (force_set_balance origin (Id who) n) s (fun r s' =>
    match r with
    | Ok _ => origin = Root /\ books_kept (Some who) s s' /\ free (account who s') = forced_free n /\
              TotalIssuance s' = TotalIssuance s - free (account who s) + forced_free n
    | Err _ => s' = s
    | Panic => False
    end).
Proof.
  intros Hok Hn Hmax. unfold force_set_balance. apply wp_storage_layer, wp_bind.
  destruct origin as [| t | |]; try done. apply wp_ret, wp_bind, wp_ret, wp_bind. cbv zeta.
  fold (forced_free n). pose proof (forced_free_bounds n Hn) as (Hfb & Hfn & Hdust).
  eapply wp_mono; [by apply force_mutate_spec |]. intros [x | er |] s1; [| done | done].
  intros (-> & Hst & Hsf & Ht). set (f := free (account who s)) in *. set (v := forced_free n) in *.
  pose proof (commit_error_wf_issuance s Hok) as Hti. pose proof (wf_account s who (lo_wf _ Hok)) as [[Hf0 Hf1] _ _].
  pose proof (free_le_issuance s who Hok) as Hfi. fold f in Hf0, Hf1, Hfi. destruct Hfb as [Hv0 Hv1].
  assert (Hend : forall s2, issuance_moved (f - v) s1 s2 ->
    wp (modify (Balances.deposit (BalanceSet who v))) s2 (fun r s' => match r with
      | Ok _ => Root = Root /\ books_kept (Some who) s s' /\ free (account who s') = v /\
                TotalIssuance s' = TotalIssuance s - f + v
      | Err _ => s = s | Panic => False end)).
  { intros s2 Hm. apply wp_modify. apply (moved_deposit _ (BalanceSet who v)) in Hm. pose proof Hm as [HA HT _].
    split; [done |]. split; [eapply drop_closes; [done | done | done | lia] |]. split; [| lia].
    rewrite account_edata, HA, <- account_edata, (sf_free _ _ _ _ Hsf), Hdust. lia. }
  apply wp_bind. destruct (Z.ltb_spec f v).
  - apply wp_bind. unfold rust_sub. rewrite (proj2 (Z.leb_le _ _)) by lia. apply wp_ret, wp_modify, Hend.
    replace (f - v) with (- (v - f)) by lia. apply (drop_law_Positive (PosImb (v - f)) s1); unfold backing; simpl; lia.
  - destruct (Z.ltb_spec v f).
    + apply wp_bind. unfold rust_sub. rewrite (proj2 (Z.leb_le _ _)) by lia. apply wp_ret, wp_modify, Hend.
      apply (drop_law_Negative (NegImb (f - v)) s1); unfold backing; simpl; lia.
    + apply wp_ret, Hend. replace (f - v) with 0 by lia. apply moved_zero.
Qed.

(** ** [upgrade_accounts] *)

(** Balances stay while accounts are upgraded; no account loses the new logic. *)
Record same_balances (s s' : State) : Prop := {
  sm_wf : wf s';
  sm_balances : forall w, balances_eq (account w s) (account w s');
  sm_logic : forall w, is_new_logic (flags (account w s)) = true -> accts s' !! w = accts s !! w;
  sm_gap : gap s' = gap s;
  sm_issuance : TotalIssuance s' = TotalIssuance s;
  sm_lists : same_lists s s';
}.

Lemma same_balances_refl s : wf s -> same_balances s s.
Proof. intros Hw. split; try done. Qed.

Lemma same_balances_trans s1 s2 s3 : same_balances s1 s2 -> same_balances s2 s3 -> same_balances s1 s3.
Proof.
  intros [_ Hb1 Hl1 Hg1 Hi1 Hs1] [Hw2 Hb2 Hl2 Hg2 Hi2 Hs2]. split; [done | | | lia | lia | by etrans].
  - intros w. destruct (Hb1 w) as (? & ? & ?), (Hb2 w) as (? & ? & ?). unfold balances_eq. lia.
  - intros w Hl. rewrite <- (Hl1 w Hl). apply Hl2. by rewrite account_edata, Hl1, <- account_edata.
Qed.

Lemma ensure_upgraded_spec who s :
  wf s -> exists b s', ensure_upgraded who s = (Ok b, s') /\ same_balances s s' /\
    is_new_logic (flags (account who s')) = true.
Proof.
  intros Hw. destruct (ensure_upgraded_upd who s Hw) as (b & e1 & s1 & Hrun & Hu & Hup).
  exists b, s1. split; [done |]. pose proof (wf_upd _ _ _ _ Hw (up_wf _ _ Hup) Hu) as Hw1.
  pose proof (up_balances _ _ Hup) as Hbal. rewrite <- account_edata in Hbal.
  split; [| rewrite (account_upd _ _ _ _ Hu); apply Hup].
  pose proof (acct_step_upd _ _ _ _ Hu Hw1) as Hst. split; [done | | | | apply Hu | apply Hst].
  - intros w. destruct (decide (w = who)) as [-> | Hne]; [by rewrite (account_upd _ _ _ _ Hu) |].
    by rewrite (account_upd_ne _ _ _ _ _ Hu Hne).
  - intros w Hl. destruct (decide (w = who)) as [-> | Hne]; [| by apply (upd_lookup_ne _ _ _ _ _ Hu)].
    rewrite (upd_lookup _ _ _ _ Hu). by apply (up_same _ _ Hup).
  - rewrite (as_gap _ _ _ _ Hst), (account_upd _ _ _ _ Hu), (balances_eq_holdings _ _ Hbal). lia.
Qed.

Lemma upgrade_loop_spec l n s :
  wf s -> exists n' s', upgrade_loop l n s = (Ok n', s') /\ same_balances s s' /\
    forall w, w ∈ l -> is_new_logic (flags (account w s')) = true.
Proof.
  revert n s. induction l as [| i l IH]; intros n s Hw.
  { exists n, s. split; [done |]. split; [by apply same_balances_refl |]. by intros w ?%elem_of_nil. }
  destruct (ensure_upgraded_spec i s Hw) as (b & s1 & Hrun & Hs1 & Hi).
  destruct (IH (if b then u32_saturating_add n 1 else n) s1 (sm_wf _ _ Hs1)) as (n' & s2 & Hrun2 & Hs2 & Hl).
  exists n', s2. simpl. unfold bind. rewrite Hrun. split; [done |].
  split; [by eapply same_balances_trans |]. intros w [-> | Hw']%elem_of_cons; [| by apply Hl].
  rewrite account_edata, (sm_logic _ _ Hs2 _ Hi), <- account_edata. done.
Qed.

Lemma books_kept_same payer s s' : ledger_ok s -> same_balances s s' -> books_kept payer s s'.
Proof.
  intros [_ Hg Hm] [Hw Hb _ Hgap Hi Hl]. split; [split; [done | lia | lia] | done | done |].
  intros w _. rewrite (balances_eq_holdings _ _ (Hb w)). done.
Qed.

Lemma upgrade_accounts_spec who l s :
  ledger_ok s ->
  exists p s', upgrade_accounts (Signed who) l s = (Ok p, s') /\ same_balances s s' /\
    forall w, w ∈ l -> is_new_logic (flags (account w s')) = true.
Proof.
  intros Hok. pose proof (lo_wf _ Hok) as Hw. destruct (upgrade_loop_spec l 0 s Hw) as (n & s' & Hrun & Hs & Hl).
  unfold upgrade_accounts, with_storage_layer, bind, ensure_signed, ret at 1.
  destruct (bool_decide_reflect (l = [])) as [-> |].
  - simpl in Hrun. injection Hrun as _ <-. eauto 10.
  - rewrite Hrun. eauto 10.
Qed.

(** [upgrade_accounts] upgrades: signed, it succeeds for any list, every account of the
    list has the new logic afterwards, no balance changes, and upgrading any of them
    again changes nothing. *)
Theorem upgrade_accounts_exact who l s :
  ledger_ok s ->
  exists p s', upgrade_accounts (Signed who) l s = (Ok p, s') /\ ledger_ok s' /\ gap s' = gap s /\
    (forall w, balances_eq (account w s) (account w s')) /\
    (forall w, w ∈ l -> is_new_logic (flags (account w s')) = true /\ ensure_upgraded w s' = (Ok false, s')).
Proof.
  intros Hok. destruct (upgrade_accounts_spec who l s Hok) as (p & s' & Hrun & Hs & Hl).
  destruct (books_kept_same None s s' Hok Hs) as [Hok' Hg _ _]. exists p, s'.
  split_and!; [done | done | done | apply Hs |].
  intros w Hwl. split; [by apply Hl |]. unfold ensure_upgraded, bind, gets. by rewrite (Hl w Hwl).
Qed.

(** ** All calls *)

(** The amounts of a call are balances; a forced balance leaves room in the issuance. *)
Definition call_fits (c : Call) (s : State) : Prop :=
  match c with
  | CTransferAllowDeath _ v | CForceTransfer _ _ v | CTransferKeepAlive _ v | CForceUnreserve _ v
  | CBurn v _ => is_balance v
  | CForceSetBalance _ v => is_balance v /\ TotalIssuance s + v <= max_value
  | CForceAdjustTotalIssuance _ v => is_balance v
  | CTransferAll _ _ | CUpgradeAccounts _ => True
  end.

Definition adjusts_issuance (c : Call) : bool :=
  match c with CForceAdjustTotalIssuance _ _ => true | _ => false end.

(** The account a call may debit: the one a root call names, or the signer of a call that
    takes signed origins. *)
Definition payer (c : Call) (o : RawOrigin) : option AccountId :=
  match o, c with
  | Root, (CForceTransfer (Id w) _ _ | CForceUnreserve (Id w) _ | CForceSetBalance (Id w) _) => Some w
  | Signed w, (CTransferAllowDeath _ _ | CTransferKeepAlive _ _ | CTransferAll _ _ | CBurn _ _) => Some w
  | _, _ => None
  end.

Lemma unreserve_call who v s :
  ledger_ok s -> is_balance v ->
  wp (do cur_unreserve who v ;; ret tt) s (fun r s' =>
    match r with Ok _ => books_kept (Some who) s s' | Err _ => True | Panic => False end).
Proof.
  intros Hok Hv. apply wp_bind. eapply wp_mono; [by apply unreserve_spec |].
  intros [x | er |] s'; simpl; [| done | done]. intros (_ & Hst & Hun). apply wp_ret.
  apply books_kept_acct; [done |]. eapply acct_step_ok; [done | done |].
  rewrite (un_issuance _ _ _ _ _ Hun). pose proof (wf_account s who (lo_wf _ Hok)) as [[] [] _]. destruct Hv.
  match goal with |- context [dust_left ?d ?n] => pose proof (dust_left_bounds d n ltac:(lia)) end. lia.
Qed.

Lemma burn_call who v p s :
  ledger_ok s -> is_balance v ->
  wp (do burn_from who v p Exact Polite ;; ret tt) s (fun r s' =>
    match r with Ok _ => books_kept (Some who) s s' | Err _ => True | Panic => False end).
Proof.
  intros Hok Hv. apply wp_bind. eapply wp_mono; [by apply burn_from_spec |].
  intros r s'. destruct (_ || _); [| by intros [-> _]].
  destruct r as [x | er |]; simpl; [| done | done]. intros (_ & Hst & Hok' & _). apply wp_ret.
  by apply books_kept_acct.
Qed.

Lemma dispatch_spec c o s :
  ledger_ok s -> call_fits c s -> adjusts_issuance c = false ->
  wp (dispatch c o) s (call_outcome (payer c o) s).
Proof.
  intros Hok Hfit Hadj. pose proof (lo_wf _ Hok) as Hw.
  destruct c as [d v | sr d v | d v | d ka | w v | l | w v | dir v | v ka]; simpl in *; try done.
  - apply wp_call, wp_bind. destruct o; try done. apply wp_ret, wp_bind. destruct d; try done.
    by apply wp_ret, wp_transfer_call.
  - apply wp_call, wp_bind. destruct o; try done. apply wp_ret, wp_bind. destruct sr; try done.
    apply wp_ret, wp_bind. destruct d; try done. by apply wp_ret, wp_transfer_call.
  - apply wp_call, wp_bind. destruct o; try done. apply wp_ret, wp_bind. destruct d; try done.
    by apply wp_ret, wp_transfer_call.
  - apply wp_call, wp_bind. destruct o as [| t | |]; try done. apply wp_ret. cbv zeta. apply wp_bind, wp_gets, wp_bind.
    destruct d; try done. apply wp_ret, wp_transfer_call; [done |]. simpl.
    pose proof (wf_account s t Hw) as [[] _ _].
    pose proof (reducible_le_free t (if ka then Preserve else Expendable) Polite s Hw). unfold is_balance. lia.
  - apply wp_call, wp_bind. destruct o; try done. apply wp_ret, wp_bind. destruct w; try done.
    by apply wp_ret, unreserve_call.
  - unfold wp, bind. destruct o as [| t | |]; try done.
    destruct (upgrade_accounts_spec t l s Hok) as (p & s' & -> & Hs & _). by apply books_kept_same.
  - destruct Hfit. destruct w as [w | | | |]; try by (destruct o; done).
    eapply wp_mono; [by apply force_set_balance_spec |]. intros [[] | |] s'; try done. by intros (-> & ? & _).
  - apply wp_call, wp_bind. destruct o; try done. by apply wp_ret, burn_call.
Qed.


(** Nobody else pays: a call that succeeds lowers the free and reserved balance of no
    account but the signer, or the account a root call names; in particular a signed call can
    only lower the signer's. *)
Theorem dispatch_debits_payer c o s s' w :
  ledger_ok s -> call_fits c s -> adjusts_issuance c = false ->
  dispatch c o s = (Ok tt, s') -> payer c o <> Some w ->
  free (account w s) + reserved (account w s) <= free (account w s') + reserved (account w s').
Proof.
  intros Hok Hfit Hadj Hrun Hp. pose proof (dispatch_spec c o s Hok Hfit Hadj) as Hs. unfold wp in Hs.
  rewrite Hrun in Hs. apply (bk_payer _ _ _ Hs). congruence.
Qed.

Lemma force_adjust_spec o n dir s :
  0 <= TotalIssuance s -> is_balance n -> TotalIssuance s + n <= max_value ->
  wp (force_adjust_total_issuance o dir n) s (fun r s' =>
    match r with
    | Ok _ => o = Root /\ 0 < n /\ InactiveIssuance s' <= TotalIssuance s' /\ accts s' = accts s /\
        TotalIssuance s' = match dir with Increase => TotalIssuance s + n
                                        | Decrease => Z.max 0 (TotalIssuance s - n) end
    | Err _ => s' = s /\
        (o <> Root \/ n = 0 \/ dir = Decrease /\ TotalIssuance s - n < InactiveIssuance s \/
         TotalIssuance s < InactiveIssuance s)
    | Panic => False
    end).
Proof.
  intros Ht0 [Hn0 Hn1] Hmax. apply wp_storage_layer, wp_bind. destruct o as [| t | |]; try (split; [done | by left]).
  apply wp_ret, wp_bind, wp_ensure; intros Hn; bool_to_prop; [| split; [done |]; right; left; lia].
  apply wp_bind, wp_gets. cbv zeta. set (new := match dir with Increase => _ | Decrease => _ end).
  assert (Hnew : new = match dir with Increase => TotalIssuance s + n
                                   | Decrease => Z.max 0 (TotalIssuance s - n) end).
  { unfold new, saturating_add, saturating_sub. destruct dir; lia. }
  apply wp_bind, wp_gets, wp_bind, wp_ensure; intros Hle; bool_to_prop.
  - apply wp_bind, wp_modify, wp_modify. split_and!; try done. by rewrite accts_deposit.
  - split; [done |]. right. right. rewrite Hnew in Hle. destruct dir; [right; lia | left; split; [done | lia]].
Qed.

(** The privileged calls: without the root origin they change nothing; with it
    [force_set_balance] puts the free balance at the requested amount (zero below the existential
    deposit) and moves the issuance by the difference, unless a consumer reference forbids
    it, and [force_adjust_total_issuance] saturates the issuance and refuses to go below the
    inactive part. *)
Theorem forced_calls_exact o who n dir s :
  ledger_ok s -> is_balance n -> TotalIssuance s + n <= max_value ->
  match force_set_balance o (Id who) n s with
  | (Ok _, s') => o = Root /\ ledger_ok s' /\ free (account who s') = forced_free n /\
      TotalIssuance s' = TotalIssuance s - free (account who s) + forced_free n
  | (Err _, s') => s' = s
  | (Panic, _) => False
  end /\
  match force_adjust_total_issuance o dir n s with
  | (Ok _, s') => o = Root /\ 0 < n /\ InactiveIssuance s' <= TotalIssuance s' /\ accts s' = accts s /\
      TotalIssuance s' = match dir with Increase => TotalIssuance s + n
                                      | Decrease => Z.max 0 (TotalIssuance s - n) end
  | (Err _, s') => s' = s /\
      (o <> Root \/ n = 0 \/ dir = Decrease /\ TotalIssuance s - n < InactiveIssuance s \/
       TotalIssuance s < InactiveIssuance s)
  | (Panic, _) => False
  end.
Proof.
  intros Hok Hn Hmax. pose proof Hn as [Hn0 Hn1]. pose proof (ledger_issuance_nonneg s Hok) as Ht0. split.
  - pose proof (force_set_balance_spec o who n s Hok Hn Hmax) as Hs. unfold wp in Hs.
    destruct (force_set_balance o (Id who) n s) as [[[] | er |] s']; simpl in Hs; [| done | done].
    destruct Hs as (? & [? _ _ _] & ? & ?). by split_and!.
  - pose proof (force_adjust_spec o n dir s Ht0 Hn Hmax) as Hs. unfold wp in Hs.
    by destruct (force_adjust_total_issuance o dir n s) as [[[] | er |] s'].
Qed.
End calls.

Section witness.
#[local] Existing Instance sample_config.

Lemma upgrade_accounts_exact_witness :
  exists p s', upgrade_accounts (Signed 1) [1%N; 3%N] sample_state = (Ok p, s') /\ ledger_ok s'.
Proof.
  assert (Hok : ledger_ok sample_state) by sample_ledger.
  destruct (upgrade_accounts_exact 1 [1%N; 3%N] sample_state Hok) as (p & s' & Hr & Hl & _).
  exists p, s'. split; [exact Hr | exact Hl].
Defined.


Lemma dispatch_debits_payer_witness :
  let s' := snd (dispatch (CTransferAllowDeath (Id 1) 60) (Signed 2) sample_state) in
  free (account 1 sample_state) + reserved (account 1 sample_state) <=
  free (account 1 s') + reserved (account 1 s').
Proof.
  assert (Hrun : dispatch (CTransferAllowDeath (Id 1) 60) (Signed 2) sample_state =
    (Ok tt, snd (dispatch (CTransferAllowDeath (Id 1) 60) (Signed 2) sample_state))) by (vm_compute; reflexivity).
  assert (Hok : ledger_ok sample_state) by sample_ledger. assert (Hb : is_balance 60) by sample_balance.
  exact (dispatch_debits_payer (CTransferAllowDeath (Id 1) 60) (Signed 2) sample_state _ 1 Hok Hb eq_refl
    Hrun ltac:(discriminate)).
Defined.

Lemma forced_calls_exact_witness :
  free (account 1 (snd (force_set_balance Root (Id 1) 500 sample_state))) = forced_free 500.
Proof.
  assert (Hrun : fst (force_set_balance Root (Id 1) 500 sample_state) = Ok tt) by (vm_compute; reflexivity).
  assert (Hok : ledger_ok sample_state) by sample_ledger. assert (Hb : is_balance 500) by sample_balance.
  assert (Hm : TotalIssuance sample_state + 500 <= max_value) by (clear; vm_compute; discriminate).
  destruct (forced_calls_exact Root 1 500 Increase sample_state Hok Hb Hm) as [W _].
  destruct (force_set_balance Root (Id 1) 500 sample_state) as [[[] | er |] s'];
    [exact (proj1 (proj2 (proj2 W))) | discriminate Hrun | discriminate Hrun].
Defined.
End witness.
