(* ===== verification/ReachFacts.v ===== *)
(** * Genesis and reachable ledgers

    The genesis build accepts exactly the valid lists of balances and produces a ledger in
    which the issuance is what the accounts hold; the second half follows it through all calls. *)

From stdpp Require Import base tactics numbers list gmap fin_sets strings.
From S2P Require Import Prelude Dispatch System Tokens Fungible Balances BalancesFungible BalancesCurrency BalancesCalls AccountSpec AccountWf Ledger.
From S2P Require Import FungibleFacts TransferFacts ImbalanceFacts CurrencyFacts ReserveFacts RepatriateFacts HoldFacts LockFacts CallFacts.
Local Open Scope Z_scope.

Section genesis.
Context `{Config}.

(** ** The sum *)

Definition sum_balances (l : list (AccountId * Z)) : Z := foldr (fun p acc => snd p + acc) 0 l.

Lemma sum_balances_nonneg l : Forall (fun p => is_balance (snd p)) l -> 0 <= sum_balances l.
Proof. induction 1 as [| p l [] _ IH]; simpl; lia. Qed.

Lemma genesis_total_run l acc s :
  Forall (fun p => is_balance (snd p)) l -> 0 <= acc ->
  genesis_total acc l s =
  (if acc + sum_balances l <=? max_value then Ok (acc + sum_balances l)
   else match l with [] => Ok acc | _ => Panic end, s).
Proof.
  intros Hl. revert acc. induction Hl as [| [w n] l [Hn0 Hn1] Hl IH]; intros acc Ha; simpl in *.
  { rewrite Z.add_0_r. by destruct (_ <=? _). }
  unfold bind, rust_add. pose proof (sum_balances_nonneg l Hl).
  destruct (Z.leb_spec (acc + n) max_value) as [Hle | Hgt]; simpl.
  - rewrite IH, Z.add_assoc by lia. destruct (Z.leb_spec (acc + n + sum_balances l) max_value); [done |].
    destruct l; [simpl in *; lia | done].
  - by rewrite (proj2 (Z.leb_gt _ _)) by lia.
Qed.

(** ** The checks *)

Lemma for_each_assert {A} (c : A -> bool) (l : list A) (s : State) :
  for_each l (fun x => rust_assert (c x)) s = (if forallb c l then Ok tt else Panic, s).
Proof.
  induction l as [| x l IH]; simpl; [done |]. unfold bind, rust_assert. by destruct (c x).
Qed.

Lemma size_list_to_set_le (l : list AccountId) : (size (list_to_set l : gset AccountId) <= length l)%nat.
Proof.
  induction l as [| x l IH]; [done |]. rewrite list_to_set_cons.
  pose proof (size_union_alt ({[x]} : gset AccountId) (list_to_set l)) as Hs. rewrite size_singleton in Hs.
  pose proof (subseteq_size (list_to_set l ∖ {[x]}) (list_to_set l : gset AccountId) ltac:(set_solver)).
  simpl. lia.
Qed.

(** The set of the keys is as large as the list exactly when no key is repeated. *)
Lemma distinct_size (l : list AccountId) :
  size (list_to_set l : gset AccountId) = length l <-> NoDup l.
Proof.
  split; [| by intros; apply size_list_to_set].
  induction l as [| x l IH]; [intros; apply NoDup_nil_2 |]. rewrite list_to_set_cons. simpl. intros Hs.
  pose proof (size_list_to_set_le l) as Hle.
  destruct (decide (x ∈ l)) as [Hin | Hin].
  { replace ({[x]} ∪ list_to_set l : gset AccountId) with (list_to_set l : gset AccountId) in Hs by set_solver. lia. }
  rewrite size_union, size_singleton in Hs by set_solver. apply NoDup_cons. split; [done |]. apply IH. lia.
Qed.

Definition genesis_valid (l : list (AccountId * Z)) : bool :=
  (sum_balances l <=? max_value) && forallb (fun p => ed <=? snd p) l && bool_decide (NoDup (fst <$> l)).

(** ** The accounts *)

Definition genesis_entry (f : Z) : Entry :=
  Some (Build_AccountInfo 0 0 1 0 (with_free AccountData_default f)).

Lemma genesis_entry_wf f : is_balance f -> ed <= f -> entry_wf (genesis_entry f).
Proof.
  intros Hf Hed. pose proof max_value_pos. pose proof ed_pos. split; simpl; unfold u32_max; try lia.
  - split; simpl; [done | |]; unfold is_balance; lia.
  - intros [? | [? _]]; simpl in *; lia.
Qed.

Definition genesis_insert (p : AccountId * Z) : M State unit :=
  let '(who, free) := p in
  do lift_sys (inc_providers who) ;;
  r <- try (stored_insert who (with_free AccountData_default free)) ;;
  match r with
  | inl _ => ret tt
  | inr _ => panic
  end.

Lemma genesis_insert_run who f s :
  accts s !! who = None -> exists s', genesis_insert (who, f) s = (Ok tt, s') /\ upd who (genesis_entry f) s s'.
Proof.
  intros Hn. unfold genesis_insert, bind.
  destruct (sim_inc_providers s who s (reflexivity s)) as [Hr Hu]. rewrite Hn in Hr, Hu.
  destruct (lift_sys (inc_providers who) s) as [r s1]. simpl in Hr, Hu. subst r.
  unfold stored_insert, stored_mutate, stored_mutate_exists, try. rewrite try_mutate_exists_run.
  unfold bind, ret.
  destruct (sim_write_back s1 who (Some (with_free AccountData_default f)) s1 (reflexivity s1)) as [Hr2 Hu2].
  rewrite (upd_lookup _ _ _ _ Hu) in Hr2, Hu2.
  destruct (write_back who (Some (with_free AccountData_default f)) s1) as [r s2]. simpl in Hr2, Hu2. subst r.
  exists s2. split; [done |]. by eapply upd_trans.
Qed.

#[local] Arguments genesis_insert : simpl never.

Lemma genesis_loop l s :
  wf s -> NoDup (fst <$> l) -> Forall (fun p => is_balance (snd p) /\ ed <= snd p /\ accts s !! fst p = None) l ->
  exists s', for_each l genesis_insert s = (Ok tt, s') /\ wf s' /\ supply s' = supply s + sum_balances l /\
    same_storage s s' /\ (forall w f, (w, f) ∈ l -> accts s' !! w = genesis_entry f) /\
    (forall w, w ∉ fst <$> l -> accts s' !! w = accts s !! w).
Proof.
  revert s. induction l as [| [w f] l IH]; intros s Hw Hd Hl; simpl in *.
  { exists s. split_and!; try done; [lia |]. by intros ? ? ?%elem_of_nil. }
  apply NoDup_cons in Hd as [Hn Hd]. apply Forall_cons in Hl as [(Hf & Hed & Hnone) Hl]. simpl in *.
  destruct (genesis_insert_run w f s Hnone) as (s1 & Hrun & Hu).
  assert (Hw1 : wf s1) by (eapply wf_upd; [done | by apply genesis_entry_wf | done]).
  destruct (IH s1 Hw1 Hd) as (s2 & Hrun2 & Hw2 & Hsup & Hst & Hin & Hout).
  { rewrite Forall_forall in Hl |- *. intros [w' f'] Hp. destruct (Hl _ Hp) as (? & ? & ?). simpl in *.
    split_and!; try done. rewrite (upd_lookup_ne _ _ _ _ _ Hu); [done |]. intros ->.
    apply Hn. apply list_elem_of_fmap. by exists (w, f'). }
  exists s2. unfold bind. rewrite Hrun. split_and!; try done.
  - rewrite Hsup, (supply_upd _ _ _ _ Hu), account_edata, Hnone. unfold holdings. simpl. lia.
  - etrans; [apply Hu | done].
  - intros w' f' [[= -> ->] | Hp]%elem_of_cons; [| by apply Hin]. rewrite Hout by done. apply (upd_lookup _ _ _ _ Hu).
  - intros w' [Hne Hp]%not_elem_of_cons. rewrite Hout by done. by apply (upd_lookup_ne _ _ _ _ _ Hu).
Qed.

Lemma genesis_run af l s :
  Forall (fun p => is_balance (snd p)) l ->
  genesis_build af l None s =
  if genesis_valid l then for_each l genesis_insert (set_TotalIssuance (sum_balances l) s)
  else (Panic, if sum_balances l <=? max_value then set_TotalIssuance (sum_balances l) s else s).
Proof.
  intros Hl. unfold genesis_build, bind at 1, genesis_valid. rewrite genesis_total_run, Z.add_0_l by done.
  destruct (Z.leb_spec (sum_balances l) max_value) as [Hle | Hgt].
  2: { destruct l; [| done]. pose proof max_value_pos. simpl in Hgt. lia. }
  unfold bind at 1, modify. simpl. unfold bind at 1. rewrite for_each_assert.
  change ExistentialDeposit with ed. destruct (forallb _ l); simpl; [| done]. unfold bind, rust_assert.
  rewrite <- (length_fmap fst l). destruct (bool_decide_reflect (NoDup (fst <$> l))) as [Hd | Hd].
  - rewrite (proj2 (Nat.eqb_eq _ _)) by (by apply distinct_size). done.
  - rewrite (proj2 (Nat.eqb_neq _ _)) by (by rewrite distinct_size). done.
Qed.

Lemma genesis_ledger af l s :
  accts s = ∅ -> Forall (fun p => is_balance (snd p)) l ->
  if genesis_valid l then
    exists s', genesis_build af l None s = (Ok tt, s') /\ ledger_ok s' /\ TotalIssuance s' = supply s' /\
      same_lists s s' /\
      (forall w f, (w, f) ∈ l -> account w s' = with_free AccountData_default f) /\
      (forall w, w ∉ fst <$> l -> accts s' !! w = None)
  else fst (genesis_build af l None s) = Panic.
Proof.
  intros He Hl. rewrite genesis_run by done. destruct (genesis_valid l) eqn:Hv; [| done].
  unfold genesis_valid in Hv. rewrite !andb_true_iff, forallb_forall, bool_decide_eq_true, Z.leb_le in Hv.
  destruct Hv as [[Hle Hed] Hd]. set (s0 := set_TotalIssuance (sum_balances l) s).
  assert (Hn : forall w, accts s0 !! w = None) by (intros w; change (accts s0) with (accts s); by rewrite He).
  destruct (genesis_loop l s0) as (s' & Hrun & Hw & Hsup & Hst & Hin & Hout); [| done | |].
  { intros w. rewrite Hn. apply entry_wf_None. }
  { rewrite Forall_forall in Hl |- *. intros p Hp. split_and!; [by apply Hl | | apply Hn].
    apply Z.leb_le, Hed. by apply list_elem_of_In. }
  assert (Hs0 : supply s0 = 0) by (unfold supply; change (accts s0) with (accts s); by rewrite He, map_sum_empty).
  assert (Ht : TotalIssuance s' = supply s') by (rewrite (same_issuance _ _ Hst), Hsup, Hs0; simpl; lia).
  exists s'. split_and!; try done.
  - split; [done | unfold gap; lia |]. rewrite Ht, Hsup, Hs0. lia.
  - apply same_storage_lists in Hst as []. by split.
  - intros w f Hp. by rewrite account_edata, (Hin _ _ Hp).
  - intros w Hp. by rewrite Hout.
Qed.

(** Genesis establishes the invariant: on a storage without accounts the build succeeds
    exactly when no account is repeated, every balance is at least the existential deposit
    and the sum fits the balance type (it panics otherwise); then every listed account has
    its balance, there are no others, and the issuance equals what the accounts hold. *)
Theorem genesis_establishes af l s :
  accts s = ∅ -> Forall (fun p => is_balance (snd p)) l ->
  if genesis_valid l then
    exists s', genesis_build af l None s = (Ok tt, s') /\ ledger_ok s' /\ TotalIssuance s' = supply s' /\
      (forall w f, (w, f) ∈ l -> account w s' = with_free AccountData_default f) /\
      (forall w, w ∉ fst <$> l -> accts s' !! w = None)
  else fst (genesis_build af l None s) = Panic.
Proof.
  intros He Hl. pose proof (genesis_ledger af l s He Hl) as Hg. destruct (genesis_valid l); [| done].
  destruct Hg as (s' & ? & ? & ? & _ & ? & ?). by exists s'.
Qed.
End genesis.

Section witness.
#[local] Existing Instance sample_config.

Lemma genesis_establishes_witness :
  exists s', genesis_build (fun _ => None) [(1%N, 100); (2%N, 200)] None empty_state = (Ok tt, s') /\
    TotalIssuance s' = supply s'.
Proof.
  assert (Hl : Forall (fun p => is_balance (snd p)) [(1%N, 100); (2%N, 200)]).
  { repeat constructor; discriminate. }
  destruct (genesis_establishes (fun _ => None) [(1%N, 100); (2%N, 200)] empty_state eq_refl Hl)
    as (s' & Hrun & _ & Ht & _).
  exists s'. split; [exact Hrun | exact Ht].
Defined.
End witness.

(** * Reachable ledgers

    The pallet as a transition system: from a genesis, by calls and by the operations other
    pallets perform through the token traits, each in a storage layer. In every reachable
    storage the issuance is exactly what the accounts hold. *)

Section reach.
Context `{Config}.

(** ** Operations

    A returned imbalance is dropped, which is what its holder does in the end. *)

Inductive Op :=
  | OpCall (c : Call) (o : RawOrigin)
  | OpMint (who : AccountId) (v : Z)
  | OpSlash (who : AccountId) (v : Z)
  | OpReserve (who : AccountId) (v : Z)
  | OpUnreserve (who : AccountId) (v : Z)
  | OpSlashReserved (who : AccountId) (v : Z)
  | OpRepatriate (slashed beneficiary : AccountId) (v : Z) (status : BalanceStatus)
  | OpSetLock (id : N) (who : AccountId) (v reasons : Z)
  | OpExtendLock (id : N) (who : AccountId) (v reasons : Z)
  | OpRemoveLock (id : N) (who : AccountId).

Definition op_body (op : Op) : M State unit :=
  match op with
  | OpCall c o => dispatch c o
  | OpMint who v => do mint_into who v ;; ret tt
  | OpSlash who v => r <- cur_slash who v ;; modify (drop_value r)
  | OpReserve who v => cur_reserve who v
  | OpUnreserve who v => do cur_unreserve who v ;; ret tt
  | OpSlashReserved who v => r <- cur_slash_reserved who v ;; modify (drop_value r)
  | OpRepatriate slashed beneficiary v status =>
      do cur_repatriate_reserved slashed beneficiary v status ;; ret tt
  | OpSetLock id who v reasons => cur_set_lock id who v reasons
  | OpExtendLock id who v reasons => cur_extend_lock id who v reasons
  | OpRemoveLock id who => cur_remove_lock id who
  end.

Definition run_op (op : Op) : M State unit := with_storage_layer (op_body op).

Definition op_fits (op : Op) (s : State) : Prop :=
  match op with
  | OpCall c _ => call_fits c s /\ adjusts_issuance c = false
  | OpMint _ v | OpSlash _ v | OpReserve _ v | OpUnreserve _ v | OpSlashReserved _ v
  | OpRepatriate _ _ v _ | OpSetLock _ _ v _ | OpExtendLock _ _ v _ => is_balance v
  | OpRemoveLock _ _ => True
  end.

(** A storage without accounts, locks and freezes. *)
Definition blank (s : State) : Prop := accts s = ∅ /\ Locks s = ∅ /\ Freezes s = ∅.

(** The states a history leads to, with the sum of what the forced adjustments of the issuance in it
    came to.  An adjustment never takes the issuance below what is on accounts. *)
Inductive reachable : Z -> State -> Prop :=
  | reach_genesis af balances s s' :
      blank s -> Forall (fun p => is_balance (snd p)) balances ->
      genesis_build af balances None s = (Ok tt, s') -> reachable 0 s'
  | reach_op op adj s s' :
      reachable adj s -> op_fits op s -> run_op op s = (Ok tt, s') -> reachable adj s'
  | reach_adjust o dir n adj s s' :
      reachable adj s -> is_balance n -> force_adjust_total_issuance o dir n s = (Ok tt, s') ->
      0 <= adj + (TotalIssuance s' - TotalIssuance s) ->
      reachable (adj + (TotalIssuance s' - TotalIssuance s)) s'.

(** ** The invariant *)

Record sound (adj : Z) (s : State) : Prop := {
  so_ledger : ledger_ok s;
  so_gap : gap s = adj;
  so_freezers : forall who, freezer_wf who s;
}.

Lemma freezers_lists s s' :
  same_lists s s' -> (forall who, freezer_wf who s) -> forall who, freezer_wf who s'.
Proof.
  intros Hl Hf who. specialize (Hf who). unfold freezer_wf, locks, freezes in *.
  by rewrite (sl_locks _ _ Hl), (sl_freezes _ _ Hl).
Qed.

Lemma sound_books p adj s s' : sound adj s -> books_kept p s s' -> sound adj s'.
Proof.
  intros [_ Hg Hf] [Hok Hgap Hl _]. split; [done | lia | by eapply freezers_lists].
Qed.

Definition keeps_sound {A} (adj : Z) (m : M State A) (s : State) : Prop :=
  wp m s (fun r s' => match r with Ok _ => sound adj s' | Err _ => True | Panic => False end).

Lemma keeps_sound_ret {A B} adj (m : M State A) (f : A -> B) s :
  keeps_sound adj m s -> keeps_sound adj (a <- m ;; ret (f a)) s.
Proof.
  unfold keeps_sound. intros Hm. apply wp_bind. eapply wp_mono; [exact Hm |]. by intros [a | |] s'.
Qed.

(** An imbalance taken from [who] and dropped. *)
Lemma sound_dropped who x (y : Z) adj s s1 :
  sound adj s -> acct_step who x s s1 -> 0 <= x <= TotalIssuance s1 -> TotalIssuance s1 <= TotalIssuance s ->
  sound adj (drop_value (NegImb x, y) s1).
Proof.
  intros Hs Hst Hx Ht. pose proof (so_ledger _ _ Hs) as Hok. pose proof (lo_max _ Hok) as Hm.
  assert (Hmv : issuance_moved x s1 (drop_value (NegImb x) s1)).
  { apply (drop_law_Negative (NegImb x) s1); unfold backing; simpl; lia. }
  apply (sound_books (Some who) adj s); [done |]. eapply drop_closes; [done | done | done |].
  change (TotalIssuance (drop_value (NegImb x, y) s1)) with (TotalIssuance (drop_value (NegImb x) s1)).
  rewrite (im_issuance _ _ _ Hmv). lia.
Qed.

Lemma sound_locked who m adj s s' : sound adj s -> locked_as who m s s' -> sound adj s'.
Proof.
  intros [Hok Hg Hf] (_ & Hfw & Hl & Hr). pose proof (refrozen_moves _ _ _ _ Hok Hr) as (_ & _ & _ & _ & Hok').
  split; [done | rewrite (rf_gap _ _ _ _ Hr); lia |]. intros w. destruct (decide (w = who)) as [-> | Hne]; [done |].
  specialize (Hf w). unfold freezer_wf in *. rewrite (rl_others _ _ _ _ Hl) by done.
  unfold freezes in *. by rewrite (rl_freezes _ _ _ _ Hl).
Qed.

Lemma slash_keeps who v adj s : sound adj s -> is_balance v ->
  keeps_sound adj (r <- cur_slash who v ;; modify (drop_value r)) s.
Proof.
  intros Hs Hv. pose proof (so_ledger _ _ Hs) as Hok. apply wp_bind. eapply wp_mono; [by apply slash_spec |].
  intros r s1 (x & -> & Hsl & [Hst _ _ Ht]). apply wp_modify. destruct Hsl as ((Hx0 & _) & Hxf & _).
  pose proof (free_le_issuance s who Hok).
  assert (Hn : 0 <= free (account who s) - x) by lia. pose proof (dust_left_bounds (account who s) _ Hn).
  eapply sound_dropped; [done | done | lia | lia].
Qed.

Lemma slash_reserved_keeps who v adj s : sound adj s -> is_balance v ->
  keeps_sound adj (r <- cur_slash_reserved who v ;; modify (drop_value r)) s.
Proof.
  intros Hs Hv. pose proof (so_ledger _ _ Hs) as Hok. apply wp_bind.
  eapply wp_mono; [by apply slash_reserved_spec |]. intros [x | er |] s1; simpl; [| done | done].
  intros (-> & Hst & Hun). apply wp_modify. pose proof (lo_wf _ Hok) as Hw.
  pose proof (wf_account s who Hw) as [[] [] _]. destruct Hv. pose proof (un_issuance _ _ _ _ _ Hun) as Ht.
  pose proof (holdings_le_supply s who Hw). pose proof (lo_gap _ Hok). unfold gap, holdings in *.
  match type of Ht with context [dust_left ?d ?n] => pose proof (dust_left_bounds d n ltac:(lia)) end.
  eapply sound_dropped; [done | done | lia | lia].
Qed.

Lemma mint_keeps who v adj s : sound adj s -> is_balance v -> keeps_sound adj (do mint_into who v ;; ret tt) s.
Proof.
  intros Hs Hv. apply (keeps_sound_ret adj _ (fun _ => tt)). eapply wp_mono; [apply mint_into_spec; [apply Hs | done] |].
  intros [x | er |] s'; simpl; [| done | done]. intros (_ & _ & _ & Hst & Hok & _).
  apply (sound_books (Some who) adj s); [done |]. by apply books_kept_acct.
Qed.

Lemma reserve_keeps who v adj s : sound adj s -> is_balance v -> keeps_sound adj (cur_reserve who v) s.
Proof.
  intros Hs Hv. eapply wp_mono; [apply reserve_spec; [apply Hs | done] |].
  intros [x | er |] s'; simpl; [| done | done]. intros (_ & _ & Hst & _ & Ht).
  apply (sound_books (Some who) adj s); [done |]. apply books_kept_acct; [done |].
  eapply acct_step_ok; [apply Hs | done | lia].
Qed.

Lemma repatriate_keeps slashed beneficiary v status adj s : sound adj s -> is_balance v ->
  keeps_sound adj (do cur_repatriate_reserved slashed beneficiary v status ;; ret tt) s.
Proof.
  intros Hs Hv. apply (keeps_sound_ret adj _ (fun _ => tt)), keeps_sound_ret.
  eapply wp_mono; [apply do_transfer_reserved_spec; [apply Hs | done] |].
  intros [x | er |] s'; [| done | done]. intros (_ & _ & [Hok Hg Hl _ _ _ _]). destruct Hs as [_ Hg0 Hf].
  split; [done | lia | by eapply freezers_lists].
Qed.

Lemma locked_keeps who m (op : M State unit) adj s :
  sound adj s -> (exists s', op s = (Ok tt, s') /\ locked_as who m s s') -> keeps_sound adj op s.
Proof. intros Hs (s' & Hr & Hl). unfold keeps_sound, wp. rewrite Hr. by eapply sound_locked. Qed.

Lemma run_op_sound op adj s : sound adj s -> op_fits op s -> keeps_sound adj (run_op op) s.
Proof.
  intros Hs Hfit. pose proof (so_ledger _ _ Hs) as Hok. pose proof (lo_wf _ Hok) as Hw.
  pose proof (so_freezers _ _ Hs) as Hf. apply wp_storage_layer.
  enough (Hk : keeps_sound adj (op_body op) s)
    by (unfold keeps_sound in Hk; eapply wp_mono; [exact Hk |]; by intros [a | |] s').
  destruct op as [c o | w v | w v | w v | w v | w v | sl b v st | id w v rs | id w v rs | id w]; simpl in Hfit;
    cbn [op_body].
  - destruct Hfit. eapply wp_mono; [by apply dispatch_spec |]. intros [[] | |] s'; simpl; try done. by apply sound_books.
  - by apply mint_keeps.
  - by apply slash_keeps.
  - by apply reserve_keeps.
  - eapply wp_mono; [by apply unreserve_call |]. intros [[] | |] s'; simpl; try done. by apply sound_books.
  - by apply slash_reserved_keeps.
  - by apply repatriate_keeps.
  - destruct (decide (v = 0)) as [-> | Hne].
    { unfold cur_set_lock. change (0 =? 0) with true. rewrite orb_true_r. by eapply locked_keeps, remove_lock_spec. }
    destruct (wr_is_empty rs) eqn:Hrs; [| by eapply locked_keeps, set_lock_spec].
    unfold cur_set_lock. rewrite Hrs. simpl. by eapply locked_keeps, remove_lock_spec.
  - destruct (decide (v = 0)) as [-> | Hne]; [done |].
    destruct (wr_is_empty rs) eqn:Hrs; [| by eapply locked_keeps, extend_lock_spec].
    unfold cur_extend_lock. rewrite Hrs, orb_true_r. done.
  - by eapply locked_keeps, remove_lock_spec.
Qed.

Lemma genesis_sound af l s s' :
  blank s -> Forall (fun p => is_balance (snd p)) l -> genesis_build af l None s = (Ok tt, s') -> sound 0 s'.
Proof.
  intros (Ha & Hl & Hf) Hb Hrun. pose proof (genesis_ledger af l s Ha Hb) as Hg. rewrite Hrun in Hg.
  destruct (genesis_valid l); [| done]. destruct Hg as (s2 & [= <-] & Hok & Ht & Hst & _).
  split; [done | unfold gap; lia |]. intros who. unfold freezer_wf, locks, freezes.
  rewrite (sl_locks _ _ Hst), (sl_freezes _ _ Hst), Hl, Hf, !lookup_empty. simpl.
  split; split; try apply NoDup_nil_2; apply Forall_nil_2.
Qed.

(** What a forced adjustment writes: the issuance only, never past the type. *)
Lemma force_adjust_run o dir n s :
  match force_adjust_total_issuance o dir n s with
  | (Ok _, s') => accts s' = accts s /\ same_lists s s' /\
      TotalIssuance s' = match dir with Increase => saturating_add (TotalIssuance s) n
                                      | Decrease => saturating_sub (TotalIssuance s) n end
  | (Err _, s') => s' = s
  | (Panic, _) => False
  end.
Proof.
  unfold force_adjust_total_issuance, with_storage_layer, bind, ensure_root, ensure, ret, fail, gets, modify.
  destruct o as [| w | |]; try done. destruct (0 <? n); [| done]. destruct (_ <=? _); [| done].
  split; [by rewrite accts_deposit | by split].
Qed.

Lemma adjust_sound o dir n adj s s' : sound adj s -> is_balance n ->
  force_adjust_total_issuance o dir n s = (Ok tt, s') -> 0 <= adj + (TotalIssuance s' - TotalIssuance s) ->
  sound (adj + (TotalIssuance s' - TotalIssuance s)) s'.
Proof.
  intros [[Hw Hg0 Hm] Hg Hf] [Hn0 Hn1] Hr Hadj. pose proof (force_adjust_run o dir n s) as Hfa. rewrite Hr in Hfa.
  destruct Hfa as (Ha & Hl & Ht). pose proof (supply_same _ _ Ha) as Hsup. pose proof (supply_nonneg _ Hw). unfold gap in *.
  split; [split | unfold gap; lia | by eapply freezers_lists].
  - intros who. rewrite Ha. apply Hw.
  - unfold gap. lia.
  - rewrite Ht. unfold saturating_add, saturating_sub. destruct dir; lia.
Qed.

Lemma reachable_sound adj s : reachable adj s -> sound adj s.
Proof.
  intros Hr. induction Hr as [af l s s' Hb Hl Hrun | op adj s s' _ IH Hfit Hrun | o dir n adj s s' _ IH Hn Hrun Hadj].
  - by eapply genesis_sound.
  - pose proof (run_op_sound op adj s IH Hfit) as Hk. unfold keeps_sound, wp in Hk. by rewrite Hrun in Hk.
  - by eapply adjust_sound.
Qed.

(** C2. Conservation along every history: after a genesis without development accounts and whatever
    sequence of calls, mints, slashes, reserves, repatriations, locks and forced adjustments of the
    issuance follows it, the total issuance is exactly the sum of all free and reserved balances plus
    what the forced adjustments in the history came to (nothing, when there was none), every account is
    well-formed, and neither an operation nor a forced adjustment panics.  Two kinds of root call are
    kept within bounds: a balance set by force must not be able to push the issuance past the type, and
    a forced adjustment must leave the issuance at least what is on accounts. *)
Theorem reachable_conserves adj s :
  reachable adj s ->
  ledger_ok s /\ TotalIssuance s = supply s + adj /\
  (forall op, op_fits op s -> fst (run_op op s) <> Panic) /\
  (forall o dir n, fst (force_adjust_total_issuance o dir n s) <> Panic).
Proof.
  intros Hs%reachable_sound. split_and!; [apply Hs | pose proof (so_gap _ _ Hs); unfold gap in *; lia | |].
  - intros op Hfit Hp. pose proof (run_op_sound op adj s Hs Hfit) as Hk. unfold keeps_sound, wp in Hk.
    by rewrite Hp in Hk.
  - intros o dir n Hp. pose proof (force_adjust_run o dir n s) as Hfa.
    destruct (force_adjust_total_issuance o dir n s) as [[] s']; [done | done |]. by destruct Hfa.
Qed.
End reach.

Section witness.
#[local] Existing Instance sample_config.

Lemma sample_genesis_reachable : reachable 0 sample_genesis.
Proof.
  apply (reach_genesis (fun _ => None) [(1%N, 100); (2%N, 200)] empty_state).
  - repeat split.
  - repeat constructor; discriminate.
  - vm_compute. reflexivity.
Qed.

(** A history of three operations and a forced adjustment. *)
Lemma reachable_conserves_witness :
  exists s, reachable 7 s /\ TotalIssuance s = supply s + 7 /\
    s = snd (force_adjust_total_issuance Root Increase 7 (snd (run_op (OpSlashReserved 1 25)
          (snd (run_op (OpCall (CTransferKeepAlive (Id 3) 70) (Signed 2))
            (snd (run_op (OpReserve 1 40) sample_genesis))))))).
Proof.
  set (s1 := snd (run_op (OpReserve 1 40) sample_genesis)).
  set (s2 := snd (run_op (OpCall (CTransferKeepAlive (Id 3) 70) (Signed 2)) s1)).
  set (s3 := snd (run_op (OpSlashReserved 1 25) s2)).
  set (s4 := snd (force_adjust_total_issuance Root Increase 7 s3)).
  assert (R1 : reachable 0 s1).
  { apply (reach_op (OpReserve 1 40) 0 sample_genesis); [exact sample_genesis_reachable | sample_balance |].
    vm_compute. reflexivity. }
  assert (R2 : reachable 0 s2).
  { apply (reach_op (OpCall (CTransferKeepAlive (Id 3) 70) (Signed 2)) 0 s1);
      [exact R1 | split; [sample_balance | reflexivity] |]. vm_compute. reflexivity. }
  assert (R3 : reachable 0 s3).
  { apply (reach_op (OpSlashReserved 1 25) 0 s2); [exact R2 | sample_balance |]. vm_compute. reflexivity. }
  assert (Hd : 0 + (TotalIssuance s4 - TotalIssuance s3) = 7) by (vm_compute; reflexivity).
  assert (R4 : reachable 7 s4).
  { rewrite <- Hd. apply (reach_adjust Root Increase 7 0 s3); [exact R3 | sample_balance | vm_compute; reflexivity |].
    rewrite Hd. lia. }
  exists s4. split; [exact R4 |]. split; [exact (proj1 (proj2 (reachable_conserves 7 s4 R4))) | reflexivity].
Defined.
End witness.
