(* ===== verification/Findings.v ===== *)
(** * Behaviours the comments do not expect

    Concrete runs, from the sample chain, of paths on which the code departs from its own
    comments: evaluated, not assumed. *)

From stdpp Require Import base tactics numbers list gmap strings.
From S2P Require Import Prelude Dispatch System Tokens Fungible Balances BalancesFungible.
From S2P Require Import BalancesCurrency BalancesCalls AccountSpec AccountWf Ledger.
Local Open Scope Z_scope.

Section findings.
#[local] Existing Instance sample_config.

(** Run a script for its final storage. *)
Definition after (m : M State unit) (s : State) : State := snd (m s).

(** ** Locks on accounts without funds *)

Definition lock_then_fund : M State unit :=
  do cur_set_lock 1 9 100 WR_all ;;
  do mint_into 9 500 ;;
  ret tt.

(** Another pallet provides for account 9, which holds nothing. *)
Definition provided_state : State := after (do lift_sys (inc_providers 9) ;; ret tt) sample_state.

(** [update_locks] says that its account mutation cannot fail. On an account that does not
    exist it fails, silently: the lock of 100 is recorded and announced, but the frozen balance
    stays zero, and after 500 arrive the locked funds can be transferred away. On an account
    that only another pallet provides for, setting and removing a lock leaves a consumer reference
    that nothing releases. *)
Theorem lock_without_funds :
  fst (cur_balance_locked 1 9 (after lock_then_fund sample_state)) = Ok 100 /\
  frozen (account 9 (after lock_then_fund sample_state)) = 0 /\
  fst (transfer 9 1 490 Expendable (after lock_then_fund sample_state)) = Ok 490 /\
  (let s := after (do cur_set_lock 1 9 100 WR_all ;; cur_remove_lock 1 9) provided_state in
   locks 9 s = [] /\ account 9 s = AccountData_default /\
   consumers 9 (sys provided_state) = 0 /\ consumers 9 (sys s) = 1 /\
   fst (dec_providers 9 (sys s)) = Err ConsumerRemaining).
Proof. vm_compute. repeat split. Qed.

(** ** Errors after the imbalance exists *)

(** Account 9 holds 15, the existential deposit being 10, and another pallet's consumer
    reference pins it. *)
Definition pinned_state : State :=
  after (do mint_into 9 15 ;; do lift_sys (inc_consumers 9) ;; ret tt) sample_state.

(** An imbalance created by a mutation that then fails is dropped: with a consumer
    reference on the account [withdraw] returns an error without touching the balance, yet the
    issuance has gone down by the amount; [make_free_balance_be] returns normally after
    the same failure. In both storages the accounts hold more than the total issuance. *)
Theorem failed_mutation_moves_issuance :
  fst (cur_withdraw 9 10 WR_all AllowDeath pinned_state) = Err ConsumerRemaining /\
  (let s := snd (cur_withdraw 9 10 WR_all AllowDeath pinned_state) in
   free (account 9 s) = 15 /\ TotalIssuance s = TotalIssuance pinned_state - 10 /\ supply s = TotalIssuance s + 10) /\
  fst (cur_make_free_balance_be 9 0 pinned_state) = Ok (SPositive (PosImb 0)) /\
  (let s := snd (cur_make_free_balance_be 9 0 pinned_state) in
   free (account 9 s) = 15 /\ supply s = TotalIssuance s + 15).
Proof. vm_compute. repeat split. Qed.

(** ** Dust that nobody counts *)

(** Account 9 has a second provider, 5 free and 40 on hold. *)
Definition thin_state : State :=
  after (do mint_into 9 100 ;;
         do lift_sys (inc_providers 9) ;;
         do hold 2 9 40 ;;
         do transfer 9 1 55 Expendable ;;
         ret tt) sample_state.

(** [set_balance_on_hold] ignores the dust of its mutation, on the ground that it does
    not alter the main balance. An account may have less than the existential deposit free while
    it has a hold; burning the hold removes those 5 units with the account, without an event that
    takes them out of the issuance. *)
Theorem hold_drops_dust :
  free (account 9 thin_state) = 5 /\ reserved (account 9 thin_state) = 40 /\
  supply thin_state = TotalIssuance thin_state /\
  fst (burn_all_held 2 9 Exact Force thin_state) = Ok 40 /\
  (let s := snd (burn_all_held 2 9 Exact Force thin_state) in
   free (account 9 s) = 0 /\ TotalIssuance s = supply s + 5).
Proof. vm_compute. repeat split. Qed.

(** ** Development accounts *)

Definition dev_account (derivation : string) : option AccountId :=
  if bool_decide (derivation = "//Sender//0"%string) then Some 20%N else
  if bool_decide (derivation = "//Sender//1"%string) then Some 21%N else None.

(** The total issuance of a genesis counts the listed balances only: with two
    development accounts of 1000 each, accounts hold 2000 more than the issuance says. *)
Theorem genesis_dev_accounts_unissued :
  let s := snd (genesis_build dev_account [(1%N, 100)] (Some (2%nat, 1000, None)) empty_state) in
  fst (genesis_build dev_account [(1%N, 100)] (Some (2%nat, 1000, None)) empty_state) = Ok tt /\
  free (account 20 s) = 1000 /\ free (account 21 s) = 1000 /\
  TotalIssuance s = 100 /\ supply s = 2100.
Proof. vm_compute. repeat split. Qed.
End findings.
