(* ===== verification/Words.v ===== *)
(** * Machine words and loops

    Unsigned integers of a fixed width as [Z] with the wrap-around written out, and the counted loops
    of the arithmetic library of [src/substrate/primitives/arithmetic].  A computation that panics is
    [None]. *)

From stdpp Require Import base tactics numbers list option.
From S2P Require Import Prelude.
Local Open Scope Z_scope.

(** ** Words *)

(** [x as uN]: the low [w] bits. *)
Definition wrap (w x : Z) : Z := x mod 2 ^ w.

Definition is_word (w x : Z) : Prop := 0 <= x < 2 ^ w.

(** [overflowing_add], [wrapping_add], [checked_add] and [checked_sub] at width [w]. *)
Definition overflowing_add (w a b : Z) : Z * bool := (wrap w (a + b), 2 ^ w <=? a + b).
Definition wrapping_add (w a b : Z) : Z := wrap w (a + b).
Definition word_checked_add (w a b : Z) : option Z := if a + b <? 2 ^ w then Some (a + b) else None.
Definition word_checked_sub (a b : Z) : option Z := if b <=? a then Some (a - b) else None.
Definition word_saturating_add (w a b : Z) : Z := Z.min (2 ^ w - 1) (a + b).

(** [!a] at width [w]. *)
Definition word_not (w a : Z) : Z := 2 ^ w - 1 - a.

Definition leading_zeros (w x : Z) : Z := if x =? 0 then w else w - 1 - Z.log2 x.

Lemma wrap_small w x : is_word w x -> wrap w x = x.
Proof. intros H. by apply Z.mod_small. Qed.

Lemma wrap_word w x : 0 <= w -> is_word w (wrap w x).
Proof. intros H. apply Z.mod_pos_bound. apply Z.pow_pos_nonneg; lia. Qed.

Lemma leading_zeros_spec w x :
  0 < x < 2 ^ w -> 0 <= leading_zeros w x < w /\ 2 ^ (w - 1) <= x * 2 ^ leading_zeros w x < 2 ^ w.
Proof.
  intros Hx. unfold leading_zeros. rewrite (proj2 (Z.eqb_neq x 0)) by lia.
  destruct (Z.log2_spec x ltac:(lia)) as [Hl Hu]. pose proof (Z.log2_nonneg x).
  assert (Hw : Z.log2 x < w) by (apply Z.log2_lt_pow2; lia). set (k := Z.log2 x) in *.
  split; [lia |]. rewrite Z.pow_succ_r in Hu by lia.
  assert (E1 : 2 ^ k * 2 ^ (w - 1 - k) = 2 ^ (w - 1)) by (rewrite <- Z.pow_add_r by lia; f_equal; lia).
  assert (E2 : 2 ^ w = 2 * 2 ^ (w - 1)) by (rewrite <- Z.pow_succ_r by lia; f_equal; lia).
  assert (0 < 2 ^ (w - 1 - k)) by (apply Z.pow_pos_nonneg; lia). nia.
Qed.

(** ** Counted loops *)

Section loops.
Context {S : Type}.

(** [for i in j..j + n] *)
Fixpoint for_from (j n : nat) (f : nat -> S -> option S) (s : S) : option S :=
  match n with
  | O => Some s
  | Datatypes.S n => s ← f j s; for_from (Datatypes.S j) n f s
  end.

(** [for i in (0..n).rev()] *)
Fixpoint for_down (n : nat) (f : nat -> S -> option S) (s : S) : option S :=
  match n with
  | O => Some s
  | Datatypes.S n => s ← f n s; for_down n f s
  end.

(** [while step]: [step] says whether the loop goes on; [None] when the fuel runs out. *)
Fixpoint while_loop (fuel : nat) (cond : S -> bool) (body : S -> option S) (s : S) : option S :=
  match fuel with
  | O => None
  | Datatypes.S fuel => if cond s then s ← body s; while_loop fuel cond body s else Some s
  end.

Lemma for_from_inv (I : nat -> S -> Prop) j n f s :
  I j s -> (forall i s, (j <= i < j + n)%nat -> I i s -> exists s', f i s = Some s' /\ I (Datatypes.S i) s') ->
  exists s', for_from j n f s = Some s' /\ I (j + n)%nat s'.
Proof.
  revert j s. induction n as [| n IH]; intros j s Hj Hf; simpl.
  { exists s. by rewrite Nat.add_0_r. }
  destruct (Hf j s ltac:(lia) Hj) as (s1 & -> & H1). simpl.
  destruct (IH (Datatypes.S j) s1 H1) as (s' & Hr & Hs). { intros i t Hi. apply Hf. lia. }
  exists s'. split; [done |]. by rewrite Nat.add_succ_r.
Qed.

Lemma for_down_inv (I : nat -> S -> Prop) n f s :
  I n s -> (forall i s, (i < n)%nat -> I (Datatypes.S i) s -> exists s', f i s = Some s' /\ I i s') ->
  exists s', for_down n f s = Some s' /\ I O s'.
Proof.
  revert s. induction n as [| n IH]; intros s Hn Hf; simpl; [eauto |].
  destruct (Hf n s ltac:(lia) Hn) as (s1 & -> & H1). simpl. apply IH; [done |]. intros i t Hi. apply Hf. lia.
Qed.

(** A loop with an invariant and a variant below the fuel comes to an end. *)
Lemma while_inv (I : S -> Prop) (V : S -> nat) fuel cond body s :
  (V s < fuel)%nat -> I s ->
  (forall s, I s -> cond s = true -> exists s', body s = Some s' /\ I s' /\ (V s' < V s)%nat) ->
  exists s', while_loop fuel cond body s = Some s' /\ I s' /\ cond s' = false.
Proof.
  revert s. induction fuel as [| fuel IH]; intros s HV HI Hb; [lia |]. simpl.
  destruct (cond s) eqn:Hc; [| by exists s]. destruct (Hb s HI Hc) as (s1 & -> & HI1 & HV1). simpl.
  apply IH; [lia | done | done].
Qed.
End loops.
