(* ===== verification/Helpers128.v ===== *)
(** * 128-bit helpers

    [src/substrate/primitives/arithmetic/src/helpers_128bit.rs]: the 256-bit product and its long
    division, multiplication by a rational with the four roundings, the binary gcd and the integer
    square root, on words of the width the code uses. *)

From stdpp Require Import base tactics numbers list option.
From S2P Require Import Prelude Words.
Local Open Scope Z_scope.

Inductive Rounding := Up | Down | NearestPrefUp | NearestPrefDown.

(** ** [gcd]

    The recursion halves the product of the arguments, so 260 calls are more than two [u128] need. *)

Fixpoint gcd_fuel (fuel : nat) (a b : Z) : option Z :=
  match fuel with
  | O => None
  | S fuel =>
      if a =? b then Some b
      else if a =? 0 then Some b
      else if b =? 0 then Some a
      else
        match Z.land a 1 =? 0, Z.land b 1 =? 0 with
        | true, false => gcd_fuel fuel (Z.shiftr a 1) b
        | false, true => gcd_fuel fuel (Z.shiftr b 1) a
        | true, true => (fun g => wrap 128 (Z.shiftl g 1)) <$> gcd_fuel fuel (Z.shiftr a 1) (Z.shiftr b 1)
        | false, false =>
            let x := Z.min a b in
            let y := Z.max a b in
            gcd_fuel fuel (Z.shiftr (y - x) 1) x
        end
  end.

Definition gcd (a b : Z) : option Z := gcd_fuel 260 a b.

(** ** [double128] *)

Definition low_64 (a : Z) : Z := Z.land a (Z.shiftl 1 64 - 1).
Definition high_64 (a : Z) : Z := Z.shiftr a 64.
Definition neg128 (a : Z) : Z := wrapping_add 128 (word_not 128 a) 1.
(** Division by zero panics. *)
Definition div128 (a : Z) : option Z :=
  if a =? 0 then None else Some (wrapping_add 128 (neg128 a / a) 1).
Definition mod128 (a : Z) : option Z := if a =? 0 then None else Some (neg128 a mod a).

Record Double128 := { high : Z; low : Z }.

Definition try_into_u128 (d : Double128) : option Z :=
  if high d =? 0 then Some (low d) else None.

Definition d_zero : Double128 := {| high := 0; low := 0 |}.

Definition left_shift_64 (scaled_value : Z) : Double128 :=
  {| high := Z.shiftr scaled_value 64; low := wrap 128 (Z.shiftl scaled_value 64) |}.

Definition from_low (l : Z) : Double128 := {| high := 0; low := l |}.

Definition low_part (d : Double128) : Double128 := {| high := 0; low := low d |}.

Definition d_add (a b : Double128) : Double128 :=
  let '(l, overflow) := overflowing_add 128 (low a) (low b) in
  let carry := if overflow : bool then 1 else 0 in
  let h := wrapping_add 128 (wrapping_add 128 (high a) (high b)) carry in
  {| high := h; low := l |}.

Definition product_of (a b : Z) : Double128 :=
  let '(a_low, a_high) := (low_64 a, high_64 a) in
  let '(b_low, b_high) := (low_64 b, high_64 b) in
  let f := wrap 128 (a_low * b_low) in
  let o := wrap 128 (a_low * b_high) in
  let i := wrap 128 (a_high * b_low) in
  let l := wrap 128 (a_high * b_high) in
  let fl := {| high := l; low := f |} in
  let i := left_shift_64 i in
  let o := left_shift_64 o in
  d_add (d_add fl i) o.

(** The loop brings the high half down by half each time: 140 rounds are enough. *)
Definition d_div (self : Double128) (rhs : Z) : option (Double128 * Z) :=
  if rhs =? 1 then Some (self, 0) else
  q ← div128 rhs;
  r ← mod128 rhs;
  '(x, self) ← while_loop 140 (fun '(_, self) => negb (high self =? 0))
    (fun '(x, self) =>
       let x := d_add x (product_of (high self) q) in
       let self := d_add (product_of (high self) r) (low_part self) in
       Some (x, self)) (d_zero, self);
  Some (d_add x (from_low (low self / rhs)), low self mod rhs).

(** ** [multiply_by_rational_with_rounding] *)

(** Whether the remainder [remainder] of a division by [c] rounds up. *)
Definition rounds_up (r : Rounding) (remainder c : Z) : bool :=
  match r with
  | Up => 0 <? remainder
  | NearestPrefUp => c / 2 + c mod 2 <=? remainder
  | NearestPrefDown => c / 2 <? remainder
  | Down => false
  end.

(** The outer option is a panic, the inner one the result. *)
Definition multiply_by_rational_with_rounding (a b c : Z) (r : Rounding) : option (option Z) :=
  if c =? 0 then Some None else
  '(result, remainder) ← d_div (product_of a b) c;
  Some (result ← try_into_u128 result;
        if rounds_up r remainder c then word_checked_add 128 result 1 else Some result).

(** ** [sqrt] *)

Definition sqrt_step (s : Z * Z * Z) : option (Z * Z * Z) :=
  let '(n, result, bit) := s in
  let '(n, result) :=
    if result + bit <=? n then (n - (result + bit), Z.shiftr result 1 + bit)
    else (n, Z.shiftr result 1) in
  Some (n, result, Z.shiftr bit 2).

Definition sqrt (n : Z) : option Z :=
  if n =? 0 then Some 0 else
  let max_shift := leading_zeros 128 0 - 1 in
  let shift := Z.land (max_shift - leading_zeros 128 n) (word_not 32 1) in
  let bit := wrap 128 (Z.shiftl 1 shift) in
  '(_, result, _) ← while_loop 65 (fun '(_, _, bit) => negb (bit =? 0)) sqrt_step (n, 0, bit);
  Some result.
