(* ===== verification/Helpers128Facts.v ===== *)
(** * The 128-bit helpers compute what they say

    Products, long division, rounding, gcd and square root against their definitions on [Z]; all loops
    end within their fuel. *)

From stdpp Require Import base tactics numbers list option.
From S2P Require Import Prelude Words Helpers128.
Local Open Scope Z_scope.

(** ** 256-bit values *)

Definition dval (d : Double128) : Z := high d * 2 ^ 128 + low d.

Definition d_wf (d : Double128) : Prop := is_word 128 (high d) /\ is_word 128 (low d).

Lemma dval_bounds d : d_wf d -> 0 <= dval d < 2 ^ 256.
Proof. intros [[] []]. unfold dval. change (2 ^ 256) with (2 ^ 128 * 2 ^ 128). nia. Qed.

(** Addition is exact when the sum fits. *)
Lemma d_add_exact a b :
  d_wf a -> d_wf b -> dval a + dval b < 2 ^ 256 -> d_wf (d_add a b) /\ dval (d_add a b) = dval a + dval b.
Proof.
  intros [[Ha0 Ha1] [Ha2 Ha3]] [[Hb0 Hb1] [Hb2 Hb3]] Hs. unfold dval in *. change (2 ^ 256) with (2 ^ 128 * 2 ^ 128) in Hs.
  unfold d_add, overflowing_add, wrapping_add. cbn [high low].
  pose proof (Z.div_mod (low a + low b) (2 ^ 128) ltac:(lia)) as Hd. unfold wrap.
  destruct (Z.leb_spec (2 ^ 128) (low a + low b)) as [Hc | Hc].
  - assert (Hq : (low a + low b) / 2 ^ 128 = 1) by (symmetry; apply Z.div_unique with (low a + low b - 2 ^ 128); lia).
    rewrite Hq in Hd. assert (Hh : high a + high b + 1 < 2 ^ 128) by nia.
    rewrite (Z.mod_small (high a + high b)), (Z.mod_small (high a + high b + _)) by lia.
    assert (is_word 128 ((low a + low b) mod 2 ^ 128)) by (apply Z.mod_pos_bound; lia).
    split; [split; cbn; unfold is_word in *; lia | cbn; lia].
  - rewrite (Z.mod_small (low a + low b)) by lia. assert (Hh : high a + high b < 2 ^ 128) by nia.
    rewrite (Z.mod_small (high a + high b)), (Z.mod_small (high a + high b + _)) by lia.
    split; [split; cbn; unfold is_word in *; lia | cbn; lia].
Qed.

Lemma low_64_mod a : 0 <= a -> low_64 a = a mod 2 ^ 64.
Proof. intros. apply (Z.land_ones a 64). lia. Qed.

Lemma high_64_div a : high_64 a = a / 2 ^ 64.
Proof. apply Z.shiftr_div_pow2. lia. Qed.

Lemma left_shift_exact x : is_word 128 x -> d_wf (left_shift_64 x) /\ dval (left_shift_64 x) = x * 2 ^ 64.
Proof.
  intros [H0 H1]. unfold left_shift_64, dval, d_wf. cbn [high low].
  rewrite Z.shiftr_div_pow2, Z.shiftl_mul_pow2 by lia. unfold wrap, is_word.
  change (2 ^ 128) with (2 ^ 64 * 2 ^ 64). rewrite Z.mul_mod_distr_r by lia.
  pose proof (Z.div_mod x (2 ^ 64) ltac:(lia)). pose proof (Z.mod_pos_bound x (2 ^ 64) ltac:(lia)).
  assert (0 <= x / 2 ^ 64 < 2 ^ 64).
  { split; [apply Z.div_pos; lia | apply Z.div_lt_upper_bound; lia]. }
  split; [split |]; nia.
Qed.

(** The 256-bit product. *)
Lemma product_exact a b :
  is_word 128 a -> is_word 128 b -> d_wf (product_of a b) /\ dval (product_of a b) = a * b.
Proof.
  intros [Ha0 Ha1] [Hb0 Hb1]. unfold product_of. rewrite !low_64_mod, !high_64_div by lia.
  pose proof (Z.div_mod a (2 ^ 64) ltac:(lia)) as Ea. pose proof (Z.div_mod b (2 ^ 64) ltac:(lia)) as Eb.
  pose proof (Z.mod_pos_bound a (2 ^ 64) ltac:(lia)) as Hal. pose proof (Z.mod_pos_bound b (2 ^ 64) ltac:(lia)) as Hbl.
  assert (Hah : 0 <= a / 2 ^ 64 < 2 ^ 64) by (split; [apply Z.div_pos; lia | apply Z.div_lt_upper_bound; lia]).
  assert (Hbh : 0 <= b / 2 ^ 64 < 2 ^ 64) by (split; [apply Z.div_pos; lia | apply Z.div_lt_upper_bound; lia]).
  set (al := a mod 2 ^ 64) in *. set (ah := a / 2 ^ 64) in *. set (bl := b mod 2 ^ 64) in *. set (bh := b / 2 ^ 64) in *.
  assert (Hw : forall x y, 0 <= x < 2 ^ 64 -> 0 <= y < 2 ^ 64 -> is_word 128 (x * y)).
  { intros x y Hx Hy. unfold is_word. change (2 ^ 128) with (2 ^ 64 * 2 ^ 64). nia. }
  rewrite !wrap_small by auto.
  destruct (left_shift_exact (ah * bl) ltac:(auto)) as [Wi Ei]. destruct (left_shift_exact (al * bh) ltac:(auto)) as [Wo Eo].
  set (fl := {| high := ah * bh; low := al * bl |}). assert (Wf : d_wf fl) by (split; cbn; auto).
  assert (Ef : dval fl = ah * bh * 2 ^ 128 + al * bl) by done.
  assert (Hab : a * b < 2 ^ 256) by (change (2 ^ 256) with (2 ^ 128 * 2 ^ 128); nia).
  assert (Htot : a * b = ah * bh * 2 ^ 128 + al * bl + ah * bl * 2 ^ 64 + al * bh * 2 ^ 64).
  { change (2 ^ 128) with (2 ^ 64 * 2 ^ 64). rewrite Ea, Eb at 1. ring. }
  assert (0 <= al * bh * 2 ^ 64) by nia.
  destruct (d_add_exact fl (left_shift_64 (ah * bl)) Wf Wi ltac:(lia)) as [W1 E1].
  destruct (d_add_exact _ (left_shift_64 (al * bh)) W1 Wo ltac:(lia)) as [W2 E2]. split; [done | lia].
Qed.

(** ** Long division *)

Lemma div_mod_128 c :
  2 <= c < 2 ^ 128 -> div128 c = Some (2 ^ 128 / c) /\ mod128 c = Some (2 ^ 128 mod c).
Proof.
  intros Hc. unfold div128, mod128, neg128, wrapping_add, word_not, wrap. rewrite (proj2 (Z.eqb_neq c 0)) by lia.
  rewrite (Z.mod_small (2 ^ 128 - 1 - c + 1)) by lia. replace (2 ^ 128 - 1 - c + 1) with (2 ^ 128 + (-1) * c) by lia.
  rewrite Z.div_add, Z_mod_plus_full by lia. split; [| done]. f_equal. rewrite Z.mod_small; [lia |].
  assert (2 ^ 128 / c < 2 ^ 128) by (apply Z.div_lt; lia). assert (0 < 2 ^ 128 / c) by (apply Z.div_str_pos; lia). lia.
Qed.

(** How many rounds are left: the high half without one halves, and then two more rounds can follow. *)
Definition rounds_left (d : Double128) : nat :=
  if high d =? 0 then 0
  else if high d =? 1 then (if low d <? 2 ^ 127 then 1 else 2)
  else Z.to_nat (3 + Z.log2 (high d - 1)).

Lemma rounds_left_small d : 0 <= high d <= 1 -> (rounds_left d <= 2)%nat.
Proof.
  intros Hd. unfold rounds_left. destruct (Z.eqb_spec (high d) 0), (Z.eqb_spec (high d) 1), (low d <? 2 ^ 127); lia.
Qed.

Lemma rounds_decrease d d' r :
  d_wf d -> d_wf d' -> high d <> 0 -> 0 <= r < 2 ^ 127 -> dval d' = high d * r + low d ->
  (rounds_left d' < rounds_left d)%nat.
Proof.
  intros [[H0 H1] [L0 L1]] [[H0' H1'] [L0' L1']] Hne Hr Hv. unfold dval in Hv.
  change (2 ^ 128) with (2 * 2 ^ 127) in *. set (K := 2 ^ 127) in *. assert (HK : 0 < K) by done.
  destruct (Z.eq_dec (high d) 1) as [E1 | E1].
  - rewrite E1 in Hv. assert (high d' <= 1) by nia.
    unfold rounds_left at 2. rewrite E1. fold K. destruct (Z.ltb_spec (low d) K); simpl.
    + assert (Hz : high d' = 0) by nia. unfold rounds_left. rewrite Hz. simpl. lia.
    + unfold rounds_left. destruct (Z.eqb_spec (high d') 0); [simpl; lia |]. rewrite (proj2 (Z.eqb_eq (high d') 1)) by lia.
      fold K. rewrite (proj2 (Z.ltb_lt (low d') K)); [lia |]. assert (high d' = 1) by lia. nia.
  - assert (Hg : 2 * (high d' - 1) <= high d - 1) by nia.
    assert (Hm : rounds_left d = Z.to_nat (3 + Z.log2 (high d - 1))).
    { unfold rounds_left. by rewrite (proj2 (Z.eqb_neq _ 0)), (proj2 (Z.eqb_neq _ 1)). }
    rewrite Hm. pose proof (Z.log2_nonneg (high d - 1)).
    destruct (Z.le_gt_cases (high d') 1) as [Hs | Hs]; [pose proof (rounds_left_small d' ltac:(lia)); lia |].
    unfold rounds_left. rewrite (proj2 (Z.eqb_neq (high d') 0)), (proj2 (Z.eqb_neq (high d') 1)) by lia.
    assert (Z.log2 (2 * (high d' - 1)) <= Z.log2 (high d - 1)) by (apply Z.log2_le_mono; lia).
    rewrite Z.log2_double in * by lia. pose proof (Z.log2_nonneg (high d' - 1)). lia.
Qed.

Lemma rounds_bound d : d_wf d -> (rounds_left d < 140)%nat.
Proof.
  intros [[H0 H1] _]. unfold rounds_left. destruct (high d =? 0); [lia |]. destruct (high d =? 1), (low d <? 2 ^ 127); try lia;
  (assert (Z.log2 (high d - 1) < 128) by
    (destruct (Z.le_gt_cases (high d - 1) 0); [rewrite Z.log2_nonpos by lia; lia | apply Z.log2_lt_pow2; lia]); lia).
Qed.

Lemma d_div_exact d c :
  d_wf d -> 1 <= c < 2 ^ 128 ->
  exists x r, d_div d c = Some (x, r) /\ d_wf x /\ dval x = dval d / c /\ r = dval d mod c.
Proof.
  intros Hd Hc. unfold d_div. destruct (Z.eqb_spec c 1) as [-> | Hne].
  { exists d, 0. rewrite Z.div_1_r, Z.mod_1_r. done. }
  destruct (div_mod_128 c ltac:(lia)) as [-> ->]. cbn [mbind option_bind].
  set (q := 2 ^ 128 / c). set (r := 2 ^ 128 mod c).
  assert (Hqr : 2 ^ 128 = c * q + r) by (apply Z.div_mod; lia).
  assert (Hr : 0 <= r < c) by (apply Z.mod_pos_bound; lia).
  assert (Hq1 : 1 <= q) by (apply Z.div_le_lower_bound; lia).
  assert (Hr7 : r < 2 ^ 127) by (change (2 ^ 128) with (2 * 2 ^ 127) in Hqr; nia).
  assert (Hqw : is_word 128 q) by (split; [lia |]; apply Z.div_lt; lia).
  assert (Hrw : is_word 128 r) by (unfold is_word; lia). pose proof (dval_bounds d Hd) as HD.
  set (Inv := fun s : Double128 * Double128 => d_wf s.1 /\ d_wf s.2 /\ dval s.1 * c + dval s.2 = dval d).
  destruct (while_inv Inv (fun s => rounds_left s.2) 140 (fun '(_, self) => negb (high self =? 0))
    (fun '(x, self) => Some (d_add x (product_of (high self) q), d_add (product_of (high self) r) (low_part self)))
    (d_zero, d)) as ([x y] & -> & (Wx & Wy & Hxy) & Hend).
  - by apply rounds_bound.
  - split; [by split |]. split; [done |]. cbn [fst snd]. unfold dval at 1. simpl. lia.
  - intros [x y] (Wx & Wy & Hxy) Hn. bool_to_prop. cbn [fst snd] in *.
    pose proof (dval_bounds x Wx). pose proof (dval_bounds y Wy).
    assert (Hy : dval y = high y * 2 ^ 128 + low y) by done. destruct Wy as [Why Wly].
    destruct (product_exact _ _ Why Hqw) as [W1 E1]. destruct (product_exact _ _ Why Hrw) as [W2 E2].
    assert (Wl : d_wf (low_part y)) by (split; [by split | done]). assert (El : dval (low_part y) = low y) by done.
    assert (Hsum : (dval x + high y * q) * c + (high y * r + low y) = dval d) by nia.
    destruct Why, Wly.
    destruct (d_add_exact x _ Wx W1 ltac:(nia)) as [W3 E3]. destruct (d_add_exact _ _ W2 Wl ltac:(nia)) as [W4 E4].
    eexists. split; [done |]. split; [split_and!; [done | done |]; cbn [fst snd]; nia |].
    cbn [snd]. apply (rounds_decrease _ _ r); [by split | done | done | lia | lia].
  - apply negb_false_iff, Z.eqb_eq in Hend. cbn [fst snd] in *. cbn [mbind option_bind].
    assert (Hy : dval y = low y) by (unfold dval; rewrite Hend; lia). rewrite Hy in Hxy. destruct Wy as [_ [Hl0 Hl1]].
    pose proof (Z.div_mod (low y) c ltac:(lia)) as Ed. pose proof (Z.mod_pos_bound (low y) c ltac:(lia)) as Hm.
    assert (0 <= low y / c) by (apply Z.div_pos; lia). pose proof (dval_bounds x Wx).
    assert (Wl : d_wf (from_low (low y / c))).
    { split; [by split |]. unfold is_word. simpl. split; [lia |]. apply Z.div_lt_upper_bound; nia. }
    assert (El : dval (from_low (low y / c)) = low y / c) by done.
    assert (Htot : dval d = c * (dval x + low y / c) + low y mod c) by nia.
    destruct (d_add_exact x _ Wx Wl ltac:(nia)) as [W E]. do 2 eexists. split; [done |]. rewrite E, El. split; [done |].
    split; [by apply Z.div_unique with (low y mod c); [left |] | by apply Z.mod_unique with (dval x + low y / c); [left |]].
Qed.

(** ** Rounding *)

(** The quotient of [x] by [c] under a rounding. *)
Definition round_div (r : Rounding) (x c : Z) : Z := x / c + (if rounds_up r (x mod c) c then 1 else 0).

(** What the four roundings promise of [v] for the quotient of [x] by [c]. *)
Definition rounded (r : Rounding) (x c v : Z) : Prop :=
  match r with
  | Down => v * c <= x < (v + 1) * c
  | Up => (v - 1) * c < x <= v * c
  | NearestPrefUp => 2 * x - c < 2 * (v * c) <= 2 * x + c
  | NearestPrefDown => 2 * x - c <= 2 * (v * c) < 2 * x + c
  end.

Lemma round_div_rounded r x c : 0 <= x -> 0 < c -> rounded r x c (round_div r x c).
Proof.
  intros Hx Hc. unfold round_div, rounds_up. pose proof (Z.div_mod x c ltac:(lia)) as E.
  pose proof (Z.mod_pos_bound x c Hc). pose proof (Z.div_mod c 2 ltac:(lia)). pose proof (Z.mod_pos_bound c 2 ltac:(lia)).
  set (q := x / c) in *. set (m := x mod c) in *. destruct r; simpl.
  - destruct (Z.ltb_spec 0 m); nia.
  - nia.
  - destruct (Z.leb_spec (c / 2 + c mod 2) m); nia.
  - destruct (Z.ltb_spec (c / 2) m); nia.
Qed.

(** The bound pins the value down. *)
Lemma rounded_unique r x c v w : 0 < c -> rounded r x c v -> rounded r x c w -> v = w.
Proof. intros Hc. destruct r; simpl; intros; nia. Qed.

Lemma mulrat_run a b c r :
  is_word 128 a -> is_word 128 b -> is_word 128 c ->
  multiply_by_rational_with_rounding a b c r =
  Some (if c =? 0 then None
        else if round_div r (a * b) c <? 2 ^ 128 then Some (round_div r (a * b) c) else None).
Proof.
  intros Ha Hb [Hc0 Hc1]. unfold multiply_by_rational_with_rounding. destruct (Z.eqb_spec c 0) as [| Hne]; [done |].
  destruct (product_exact a b Ha Hb) as [Wp Ep].
  destruct (d_div_exact _ c Wp ltac:(lia)) as (x & m & -> & Wx & Ex & ->). cbn [mbind option_bind]. rewrite Ep in *.
  f_equal. unfold round_div, try_into_u128. destruct Wx as [[Hh0 Hh1] [Hl0 Hl1]]. rewrite <- Ex. unfold dval.
  destruct (Z.eqb_spec (high x) 0) as [E | E]; cbn [mbind option_bind].
  - rewrite E. simpl Z.add at 1 3. destruct (rounds_up r _ c); unfold word_checked_add; [done |].
    rewrite !Z.add_0_r. by rewrite (proj2 (Z.ltb_lt _ _)).
  - symmetry. destruct (Z.ltb_spec (high x * 2 ^ 128 + low x + (if rounds_up r ((a * b) mod c) c then 1 else 0)) (2 ^ 128));
      [| done]. destruct (rounds_up _ _ _); nia.
Qed.

(** C30. [multiply_by_rational_with_rounding] computes [a * b / c] under the given rounding over the full
    256-bit product, and is [None] exactly for [c = 0] or when the rounded quotient does not fit 128 bits;
    the division loop always ends and nothing panics. *)
Theorem mulrat_exact a b c r :
  is_word 128 a -> is_word 128 b -> is_word 128 c ->
  exists o, multiply_by_rational_with_rounding a b c r = Some o /\
  match o with
  | Some v => 0 < c /\ is_word 128 v /\ rounded r (a * b) c v
  | None => c = 0 \/ forall v, rounded r (a * b) c v -> 2 ^ 128 <= v
  end.
Proof.
  intros Ha Hb Hc. rewrite mulrat_run by done. eexists. split; [done |]. destruct Ha as [Ha _], Hb as [Hb _], Hc as [Hc _].
  destruct (Z.eqb_spec c 0) as [-> | Hne]; [by left |].
  pose proof (round_div_rounded r (a * b) c ltac:(nia) ltac:(lia)) as Hr.
  assert (0 <= round_div r (a * b) c).
  { unfold round_div. assert (0 <= a * b / c) by (apply Z.div_pos; nia). destruct (rounds_up _ _ _); lia. }
  destruct (Z.ltb_spec (round_div r (a * b) c) (2 ^ 128)); [split_and!; try done; lia |].
  right. intros v Hv. rewrite (rounded_unique r (a * b) c v _ ltac:(lia) Hv Hr). lia.
Qed.

(** ** gcd *)

Lemma land_1 a : Z.land a 1 = a mod 2.
Proof. apply (Z.land_ones a 1). lia. Qed.

Lemma gcd_half_l a b : b mod 2 = 1 -> Z.gcd (2 * a) b = Z.gcd a b.
Proof.
  intros Hb. apply Z.divide_antisym_nonneg; try apply Z.gcd_nonneg.
  - apply Z.gcd_greatest; [| apply Z.gcd_divide_r]. apply (Z.gauss _ 2); [apply Z.gcd_divide_l |].
    set (h := Z.gcd _ 2). assert (H2 : (h | 2)) by apply Z.gcd_divide_r.
    assert (Hh : (h | b)) by (etrans; [apply Z.gcd_divide_l | apply Z.gcd_divide_r]).
    assert (0 <= h) by apply Z.gcd_nonneg. pose proof (Z.divide_pos_le h 2 ltac:(lia) H2).
    assert (h <> 0) by (intros E; rewrite E in H2; apply Z.divide_0_l in H2; lia).
    assert (h <> 2); [| lia]. intros E. rewrite E in Hh. destruct Hh as [c Hc]. rewrite Hc, Z.mod_mul in Hb; lia.
  - apply Z.gcd_greatest; [| apply Z.gcd_divide_r]. apply Z.divide_mul_r, Z.gcd_divide_l.
Qed.

Lemma gcd_run k fuel a b :
  0 <= a < 2 ^ 128 -> 0 <= b < 2 ^ 128 -> a * b < 2 ^ Z.of_nat k -> (k < fuel)%nat -> gcd_fuel fuel a b = Some (Z.gcd a b).
Proof.
  revert fuel a b. induction k as [| k IH]; intros fuel a b Ha Hb Hab Hk; destruct fuel as [| fuel]; try lia; simpl.
  { change (2 ^ Z.of_nat 0) with 1 in Hab. assert (a = 0 \/ b = 0) as [-> | ->] by nia.
    - destruct (Z.eqb_spec 0 b); [by subst | simpl; rewrite Z.abs_eq by lia; done].
    - rewrite Z.gcd_0_r, Z.abs_eq by lia. destruct (Z.eqb_spec a 0); [by subst |]. done. }
  rewrite Nat2Z.inj_succ, Z.pow_succ_r in Hab by lia.
  destruct (Z.eqb_spec a b) as [-> | Hne]; [by rewrite Z.gcd_diag, Z.abs_eq by lia |].
  destruct (Z.eqb_spec a 0) as [-> | Ha0]; [simpl; by rewrite Z.abs_eq by lia |].
  destruct (Z.eqb_spec b 0) as [-> | Hb0]; [by rewrite Z.gcd_0_r, Z.abs_eq by lia |].
  rewrite !land_1, !Z.shiftr_div_pow2 by lia. change (2 ^ 1) with 2.
  pose proof (Z.div_mod a 2 ltac:(lia)) as Ea. pose proof (Z.div_mod b 2 ltac:(lia)) as Eb.
  pose proof (Z.mod_pos_bound a 2 ltac:(lia)). pose proof (Z.mod_pos_bound b 2 ltac:(lia)).
  destruct (Z.eqb_spec (a mod 2) 0) as [Pa | Pa], (Z.eqb_spec (b mod 2) 0) as [Pb | Pb].
  - rewrite IH by (lia || nia). simpl. f_equal. rewrite Z.shiftl_mul_pow2 by lia.
    replace (Z.gcd a b) with (Z.gcd (2 * (a / 2)) (2 * (b / 2))) by (f_equal; lia).
    rewrite Z.gcd_mul_mono_l, Z.mul_comm. apply wrap_small.
    pose proof (Z.gcd_divide_l (a / 2) (b / 2)) as Hd. apply Z.divide_pos_le in Hd; [| lia].
    pose proof (Z.gcd_nonneg (a / 2) (b / 2)). simpl. unfold is_word. lia.
  - rewrite IH by (lia || nia). f_equal. replace (Z.gcd a b) with (Z.gcd (2 * (a / 2)) b) by (f_equal; lia).
    by rewrite gcd_half_l by lia.
  - rewrite IH by (lia || nia). f_equal. rewrite (Z.gcd_comm a b).
    replace (Z.gcd b a) with (Z.gcd (2 * (b / 2)) a) by (f_equal; lia). by rewrite gcd_half_l by lia.
  - set (x := Z.min a b). set (y := Z.max a b).
    assert (Hx : x mod 2 = 1) by (unfold x; destruct (Z.min_spec a b) as [[_ ->] | [_ ->]]; lia).
    assert (Hy : y mod 2 = 1) by (unfold y; destruct (Z.max_spec a b) as [[_ ->] | [_ ->]]; lia).
    assert (He : y - x = 2 * ((y - x) / 2)).
    { pose proof (Z.div_mod (y - x) 2 ltac:(lia)). assert ((y - x) mod 2 = 0) by (by rewrite Zminus_mod, Hx, Hy). lia. }
    assert (Hxy : x * y = a * b) by (unfold x, y; lia). assert (0 < x < y) by (unfold x, y; lia).
    assert (y < 2 ^ 128) by (unfold y; lia). rewrite IH by (lia || nia). f_equal.
    rewrite <- gcd_half_l by done. rewrite <- He. rewrite Z.gcd_comm, Z.gcd_sub_diag_r.
    unfold x, y. destruct (Z.min_spec a b) as [[Hl ->] | [Hl ->]]; [by rewrite Z.max_r by lia |].
    rewrite Z.max_l by lia. apply Z.gcd_comm.
Qed.

Lemma gcd_exact a b : is_word 128 a -> is_word 128 b -> gcd a b = Some (Z.gcd a b).
Proof.
  intros Ha Hb. apply (gcd_run 256); [done | done | | lia]. destruct Ha, Hb.
  change (2 ^ Z.of_nat 256) with (2 ^ 128 * 2 ^ 128). nia.
Qed.

(** ** Square root *)

(** With [p] found above bit [j]: the rest of [n0] and the scaled root. *)
Definition sqrt_inv (n0 : Z) (s : Z * Z * Z) : Prop :=
  let '(n, result, bit) := s in
  exists p j, 0 <= p /\ p * p <= n0 < (p + 2 ^ Z.of_nat j) * (p + 2 ^ Z.of_nat j) /\
    n = n0 - p * p /\ result = p * 2 ^ Z.of_nat j /\
    bit = match j with O => 0 | S j => 2 ^ Z.of_nat j * 2 ^ Z.of_nat j end.

Lemma sqrt_step_inv n0 n result bit :
  sqrt_inv n0 (n, result, bit) -> bit <> 0 ->
  exists s', sqrt_step (n, result, bit) = Some s' /\ sqrt_inv n0 s' /\ 0 <= snd s' /\ 4 * snd s' <= bit.
Proof.
  intros (p & [| j] & Hp & Hn & -> & -> & ->) Hb; [done |]. set (t := 2 ^ Z.of_nat j).
  assert (Ht : 0 < t) by (apply Z.pow_pos_nonneg; lia).
  assert (Hj : 2 ^ Z.of_nat (S j) = 2 * t) by (unfold t; rewrite Nat2Z.inj_succ, Z.pow_succ_r by lia; done). rewrite Hj in *.
  assert (Hs : Z.shiftr (p * (2 * t)) 1 = p * t).
  { rewrite Z.shiftr_div_pow2 by lia. replace (p * (2 * t)) with (p * t * 2 ^ 1) by ring. by apply Z.div_mul. }
  set (bit' := Z.shiftr (t * t) 2).
  assert (Hbit : bit' = match j with O => 0 | S j => 2 ^ Z.of_nat j * 2 ^ Z.of_nat j end).
  { unfold bit'. rewrite Z.shiftr_div_pow2 by lia. unfold t. destruct j as [| j]; [done |].
    rewrite Nat2Z.inj_succ, Z.pow_succ_r by lia.
    replace (2 * 2 ^ Z.of_nat j * (2 * 2 ^ Z.of_nat j)) with (2 ^ Z.of_nat j * 2 ^ Z.of_nat j * 2 ^ 2) by ring.
    by apply Z.div_mul. }
  assert (Hb' : 0 <= bit' /\ 4 * bit' <= t * t).
  { unfold bit'. rewrite Z.shiftr_div_pow2 by lia. split; [apply Z.div_pos; nia |]. apply (Z.mul_div_le _ (2 ^ 2)). lia. }
  unfold sqrt_step. rewrite Hs. destruct (Z.leb_spec (p * (2 * t) + t * t) (n0 - p * p)) as [Hle | Hgt];
    (eexists; split; [done |]; split; [| done]).
  - exists (p + t), j. fold t. split_and!; try done; nia.
  - exists p, j. fold t. split_and!; try done; nia.
Qed.

Lemma even_part x : 0 <= x < 128 -> Z.land x (word_not 32 1) = 2 * (x / 2).
Proof.
  intros Hx. assert (Hall : forallb (fun x => Z.land x (word_not 32 1) =? 2 * (x / 2)) (seqZ 0 128) = true)
    by (vm_compute; reflexivity).
  rewrite forallb_forall in Hall. apply Z.eqb_eq, Hall, list_elem_of_In, elem_of_seqZ. lia.
Qed.

Lemma sqrt_start n :
  0 < n < 2 ^ 128 ->
  let bit := wrap 128 (Z.shiftl 1 (Z.land (leading_zeros 128 0 - 1 - leading_zeros 128 n) (word_not 32 1))) in
  sqrt_inv n (n, 0, bit) /\ (Z.to_nat (Z.log2 bit) < 128)%nat.
Proof.
  intros Hn. unfold leading_zeros. rewrite (proj2 (Z.eqb_neq n 0)) by lia. simpl Z.eqb.
  destruct (Z.log2_spec n ltac:(lia)) as [Hl Hu]. pose proof (Z.log2_nonneg n).
  assert (Hk : Z.log2 n < 128) by (apply Z.log2_lt_pow2; lia). set (k := Z.log2 n) in *.
  replace (128 - 1 - (128 - 1 - k)) with k by lia. rewrite even_part by lia.
  pose proof (Z.div_mod k 2 ltac:(lia)). pose proof (Z.mod_pos_bound k 2 ltac:(lia)). set (h := k / 2) in *.
  assert (Hh : 0 <= h < 64) by lia. rewrite Z.shiftl_mul_pow2, Z.mul_1_l by lia.
  assert (Hw : 2 ^ (2 * h) < 2 ^ 128) by (apply Z.pow_lt_mono_r; lia).
  assert (0 < 2 ^ (2 * h)) by (apply Z.pow_pos_nonneg; lia).
  cbv zeta. rewrite wrap_small by (unfold is_word; lia). split; [| rewrite Z.log2_pow2 by lia; lia].
  exists 0, (S (Z.to_nat h)). split_and!; try lia.
  - rewrite !Z.add_0_l, <- Z.pow_add_r by lia. eapply Z.lt_le_trans; [exact Hu |]. apply Z.pow_le_mono_r; lia.
  - rewrite Z2Nat.id by lia. rewrite <- Z.pow_add_r by lia. f_equal. lia.
Qed.

Definition bits_left (s : Z * Z * Z) : nat :=
  let bit := snd s in if bit =? 0 then 0 else S (Z.to_nat (Z.log2 bit / 2)).

Lemma bits_decrease bit bit' :
  0 < bit -> 0 <= bit' -> 4 * bit' <= bit ->
  ((if (bit' =? 0)%Z then 0 else S (Z.to_nat (Z.log2 bit' / 2))) < S (Z.to_nat (Z.log2 bit / 2)))%nat.
Proof.
  intros Hb Hb' H4. destruct (Z.eqb_spec bit' 0); [lia |].
  assert (Hlog : Z.log2 (bit' * 2 ^ 2) = Z.log2 bit' + 2) by (rewrite Z.log2_mul_pow2; lia).
  pose proof (Z.log2_le_mono (bit' * 2 ^ 2) bit ltac:(lia)). pose proof (Z.log2_nonneg bit').
  assert (Z.log2 bit' / 2 + 1 <= Z.log2 bit / 2).
  { replace (Z.log2 bit' / 2 + 1) with ((Z.log2 bit' + 1 * 2) / 2) by (rewrite Z.div_add; lia).
    apply Z.div_le_mono; lia. }
  assert (0 <= Z.log2 bit' / 2) by (apply Z.div_pos; lia). lia.
Qed.

Lemma sqrt_exact n : is_word 128 n -> sqrt n = Some (Z.sqrt n).
Proof.
  intros [Hn0 Hn1]. unfold sqrt. destruct (Z.eqb_spec n 0) as [-> | Hne]; [done |].
  destruct (sqrt_start n ltac:(lia)) as [Hs Hlog]. cbv zeta in *. set (bit := wrap 128 _) in *.
  destruct (while_inv (fun s => sqrt_inv n s /\ 0 <= snd s) bits_left 65 (fun '(_, _, bit) => negb (bit =? 0)) sqrt_step
    (n, 0, bit)) as ([[m res] b] & -> & [(p & j & Hp & Hpn & -> & -> & Hb) _] & Hend).
  - unfold bits_left. cbn [snd]. destruct (bit =? 0); [lia |].
    assert (Z.log2 bit / 2 < 64) by (apply Z.div_lt_upper_bound; lia). pose proof (Z.log2_nonneg bit).
    assert (0 <= Z.log2 bit / 2) by (apply Z.div_pos; lia). lia.
  - split; [done |]. cbn [snd]. apply wrap_word. lia.
  - intros [[m res] b] [Hi Hb0] Hc. bool_to_prop. cbn [snd] in Hb0.
    destruct (sqrt_step_inv n m res b Hi Hc) as (s' & Hrun & Hi' & Hb1 & Hb4). exists s'. split; [done |]. split; [done |].
    unfold bits_left. cbn [snd]. rewrite (proj2 (Z.eqb_neq b 0)) by done. apply bits_decrease; lia.
  - apply negb_false_iff, Z.eqb_eq in Hend. destruct j as [| j].
    2: { assert (0 < 2 ^ Z.of_nat j) by (apply Z.pow_pos_nonneg; lia). nia. }
    cbn [mbind option_bind]. f_equal. rewrite Z.mul_1_r. symmetry. apply Z.sqrt_unique. change (2 ^ Z.of_nat 0) with 1 in Hpn. lia.
Qed.

(** The binary gcd and the bit-by-bit square root of [u128] compute the greatest common divisor and the
    integer square root of every argument, within a bounded number of steps. *)
Theorem gcd_sqrt_exact a b :
  is_word 128 a -> is_word 128 b -> gcd a b = Some (Z.gcd a b) /\ sqrt a = Some (Z.sqrt a).
Proof. intros Ha Hb. split; [by apply gcd_exact | by apply sqrt_exact]. Qed.

Lemma mulrat_exact_witness :
  exists o, multiply_by_rational_with_rounding (2 ^ 128 - 1) (2 ^ 127) (2 ^ 128 - 2) NearestPrefUp = Some o.
Proof.
  destruct (mulrat_exact (2 ^ 128 - 1) (2 ^ 127) (2 ^ 128 - 2) NearestPrefUp) as (o & Hr & _);
    [vm_compute; split; discriminate || reflexivity | vm_compute; split; discriminate || reflexivity
    | vm_compute; split; discriminate || reflexivity |].
  exists o. exact Hr.
Defined.

Lemma gcd_sqrt_exact_witness : gcd 48 180 = Some 12 /\ sqrt 48 = Some 6.
Proof.
  destruct (gcd_sqrt_exact 48 180) as [Hg Hs]; [vm_compute; split; discriminate || reflexivity
    | vm_compute; split; discriminate || reflexivity |].
  split; [exact Hg | exact Hs].
Defined.
