(* ===== verification/BigUint.v ===== *)
(** * Big unsigned integers

    [src/substrate/primitives/arithmetic/src/biguint.rs]: numbers as vectors of 32-bit limbs, most
    significant first.  Every index that the code takes out of range panics, which is [None] here; the
    arithmetic on [Double] wraps at 64 bits as in a release build. *)

From stdpp Require Import base tactics numbers list option.
From S2P Require Import Prelude Words Helpers128.
Local Open Scope Z_scope.

Definition SHIFT : Z := 32.
Definition B : Z := 2 ^ 32 - 1 + 1.

Definition single (x : Z) : Z := wrap 32 x.
Definition double (x : Z) : Z := wrap 64 x.

(** ** Limbs *)

Definition split_double (a : Z) : Z * Z :=
  let al := single a in
  let ah := single (Z.shiftr a SHIFT) in
  (ah, al).

Definition mul_single (a b : Z) : Z := double (a * b).

Definition add_single (a b : Z) : Z * Z :=
  let q := double (a + b) in
  let '(carry, r) := split_double q in
  (r, carry).

(** Division by zero panics. *)
Definition div_single (a b : Z) : option (Z * Z) :=
  if b =? 0 then None else Some (a / b, single (a mod b)).

Record BigUint := { digits : list Z }.

Definition with_capacity (size : nat) : BigUint := {| digits := replicate (Nat.max size 1) 0 |}.

Definition big_zero : BigUint := {| digits := [0] |}.
Definition big_one : BigUint := {| digits := [1] |}.

Definition from_limbs (limbs : list Z) : BigUint :=
  match limbs with
  | [] => big_zero
  | _ :: _ => {| digits := limbs |}
  end.

Definition len (b : BigUint) : nat := length (digits b).

Definition get (b : BigUint) (index : nat) : option Z :=
  if (index <? len b)%nat then digits b !! (len b - 1 - index)%nat else None.

Definition checked_get (b : BigUint) (index : nat) : option Z :=
  if (len b =? 0)%nat then None else
  if (index <=? len b - 1)%nat then digits b !! (len b - 1 - index)%nat else None.

Definition set (b : BigUint) (index : nat) (value : Z) : option BigUint :=
  if (index <? len b)%nat then Some {| digits := <[(len b - 1 - index)%nat := value]> (digits b) |} else None.

Definition lsb (b : BigUint) : option Z := if (len b =? 0)%nat then None else digits b !! (len b - 1)%nat.

Definition msb (b : BigUint) : option Z := digits b !! 0%nat.

(** [iter().position(|&elem| elem != 0)] *)
Fixpoint position_nonzero (l : list Z) : option nat :=
  match l with
  | [] => None
  | x :: l => if x =? 0 then S <$> position_nonzero l else Some O
  end.

Definition lstrip (b : BigUint) : BigUint :=
  if (len b =? 0)%nat then b else
  let index := default (len b - 1)%nat (position_nonzero (digits b)) in
  if (0 <? index)%nat then {| digits := drop index (digits b) |} else b.

Definition lpad (b : BigUint) (size : nat) : BigUint :=
  let n := len b in
  if (size <=? n)%nat then b else {| digits := replicate (size - n) 0 ++ digits b |}.

(** ** Addition and subtraction *)

Definition add (a b : BigUint) : option BigUint :=
  let n := Nat.max (len a) (len b) in
  '(k, w) ← for_from 0 n (fun j '(k, w) =>
    let u := default 0 (checked_get a j) in
    let v := default 0 (checked_get b j) in
    let s := double (double (u + v) + k) in
    w ← set w j (single (s mod B));
    Some (s / B, w)) (0, with_capacity (n + 1));
  set w n (single k).

(** [inr] is the code's [Err]. *)
Definition sub (a b : BigUint) : option (BigUint + BigUint) :=
  let n := Nat.max (len a) (len b) in
  '(k, w) ← for_from 0 n (fun j '(k, w) =>
    let u := default 0 (checked_get a j) in
    let v := default 0 (checked_get b j) in
    let '(s, k) :=
      match v1 ← word_checked_sub u v; word_checked_sub v1 k with
      | Some v2 => (v2, 0)
      | None => (double (double (double (u + B) - v) - k), 1)
      end in
    w ← set w j (single s);
    Some (k, w)) (0, with_capacity n);
  Some (if k =? 0 then inl w else inr w).

(** ** Multiplication *)

(** The inner loop's body: limb [i] of [b] times the limb [x] at [j]. *)
Definition mul_inner (b : BigUint) (x : Z) (j i : nat) (s : Z * BigUint) : option (Z * BigUint) :=
  let '(k, w) := s in
  y ← get b i;
  z ← get w (i + j);
  let t := double (double (mul_single x y + z) + k) in
  w ← set w (i + j) (single (t mod B));
  Some (single (t / B), w).

Definition mul (a b : BigUint) : option BigUint :=
  let n := len a in
  let m := len b in
  for_from 0 n (fun j w =>
    x ← get a j;
    if x =? 0 then Some w else
    '(k, w) ← for_from 0 m (mul_inner b x j) (0, w);
    set w (j + m) k) (with_capacity (m + n)).

(** ** Division *)

Definition div_unit (a : BigUint) (other : Z) : option BigUint :=
  let other := Z.max other 1 in
  let n := len a in
  '(r, out) ← for_down n (fun d '(r, out) =>
    x ← get a d;
    '(q, rr) ← div_single (double (double (r * B) + x)) other;
    out ← set out d (single q);
    Some (rr, out)) (0, with_capacity n);
  Some out.

Definition from_u32 (a : Z) : BigUint := {| digits := [a] |}.

Definition from_u64 (a : Z) : BigUint :=
  let '(ah, al) := split_double a in {| digits := [ah; al] |}.

(** One run of the closure [test]: the new [qhat] and [rhat], and whether they changed. *)
Definition test (v1 v2 u : Z) (s : Z * Z) : Z * Z * bool :=
  let '(qhat, rhat) := s in
  let predicate_1 := B <=? qhat in
  let predicate_2 := double (double (B * rhat) + u) <? double (qhat * v2) in
  if predicate_1 || predicate_2 then (double (qhat - 1), double (rhat + v1), true)
  else (qhat, rhat, false).

(** [test(); while rhat < B { if !test() { break } }]: each successful test adds at least half the base
    to [rhat], so that three rounds are enough. *)
Definition find_qhat (v1 v2 u : Z) (s : Z * Z) : option Z :=
  '(qhat, rhat, _) ← while_loop 4 (fun '(_, rhat, go) => (rhat <? B) && (go : bool))
    (fun '(qhat, rhat, _) => Some (test v1 v2 u (qhat, rhat)))
    (let '(qhat, rhat, _) := test v1 v2 u s in (qhat, rhat, true));
  Some qhat.

(** [(lo..=hi).rev().map(|d| b.get(d)).collect()] *)
Definition window (b : BigUint) (lo n : nat) : option BigUint :=
  (fun ds => {| digits := reverse ds |}) <$> mapM (get b) (seq lo (S n)).

(** [(lo..=lo + n).for_each(|d| self_norm.set(d, src.get(d - lo)))] *)
Definition put_window (b src : BigUint) (lo n : nat) : option BigUint :=
  for_from 0 (S n) (fun i b => x ← get src i; set b (lo + i) x) b.

(** The same with [(lo..=lo + n).rev()]. *)
Definition put_window_rev (b src : BigUint) (lo n : nat) : option BigUint :=
  for_down (S n) (fun i b => x ← get src i; set b (lo + i) x) b.

(** The second half of a round: [qhat * other_norm] is taken off at [j], and one [other_norm] is added
    back when that was too much. *)
Definition div_subtract (n : nat) (other_norm : BigUint) (j : nat) (qhat : Z) (self_norm q : BigUint) :
    option (BigUint * BigUint) :=
  lhs ← window self_norm j n;
  rhs ← mul other_norm (from_u64 qhat);
  maybe_sub ← sub lhs rhs;
  let '(negative, t) := match maybe_sub with inl t => (false, t) | inr t => (true, t) end in
  self_norm ← put_window self_norm t j n;
  q ← set q j (single qhat);
  if negative : bool then
    qj ← get q j;
    q ← set q j (single (qj - 1));
    u ← window self_norm j n;
    r ← add other_norm u;
    self_norm ← put_window_rev self_norm r j n;
    Some (self_norm, q)
  else Some (self_norm, q).

(** One round of the division: digit [j] of the quotient. *)
Definition div_step (n : nat) (other_norm : BigUint) (j : nat) (s : BigUint * BigUint) :
    option (BigUint * BigUint) :=
  let '(self_norm, q) := s in
  u0 ← get self_norm (j + n);
  u1 ← get self_norm (j + n - 1);
  u2 ← get self_norm (j + n - 2);
  v1 ← get other_norm (n - 1);
  v2 ← get other_norm (n - 2);
  '(qhat, rhat) ← div_single (double (double (u0 * B) + u1)) v1;
  qhat ← find_qhat v1 v2 u2 (qhat, rhat);
  div_subtract n other_norm j qhat self_norm q.

(** The remainder, shifted back by the [nb] bits of the normalisation. *)
Definition unnormalize (n : nat) (nb : Z) (self_norm r : BigUint) : option BigUint :=
  r ← for_from 0 (n - 1) (fun d r =>
    x ← get self_norm d;
    y ← get self_norm (d + 1);
    set r d (Z.lor (Z.shiftr x nb) (single (Z.shiftl y (SHIFT - nb))))) r;
  x ← get self_norm (n - 1);
  set r (n - 1) (Z.shiftr x nb).

(** The outer option is a panic, the inner one the result. *)
Definition div (a b : BigUint) (rem : bool) : option (option (BigUint * BigUint)) :=
  if (len b <=? 1)%nat then Some None else
  mb ← msb b;
  if mb =? 0 then Some None else
  ma ← msb a;
  if (ma =? 0) || (len a <=? len b)%nat then Some None else
  let n := len b in
  let m := (len a - n)%nat in
  let q := with_capacity (m + 1) in
  let r := with_capacity n in
  let normalizer_bits := leading_zeros 32 mb in
  let normalizer := single (2 ^ normalizer_bits) in
  self_norm ← mul a (from_u32 normalizer);
  other_norm ← mul b (from_u32 normalizer);
  let self_norm := lpad self_norm (n + m + 1) in
  let other_norm := lstrip other_norm in
  '(self_norm, q) ← for_down (m + 1) (div_step n other_norm) (self_norm, q);
  if rem then
    r ← (if 0 <? normalizer_bits then unnormalize n normalizer_bits self_norm r else Some self_norm);
    Some (Some (q, r))
  else Some (Some (q, r)).

(** ** Comparison and conversion *)

(** Slices compare lexicographically. *)
Fixpoint lex_cmp (l1 l2 : list Z) : comparison :=
  match l1, l2 with
  | [], [] => Eq
  | [], _ :: _ => Lt
  | _ :: _, [] => Gt
  | x :: l1, y :: l2 => match x ?= y with Eq => lex_cmp l1 l2 | c => c end
  end.

Definition cmp (a b : BigUint) : comparison :=
  match position_nonzero (digits a), position_nonzero (digits b) with
  | None, None => Eq
  | Some _, None => Gt
  | None, Some _ => Lt
  | Some lhs_idx, Some rhs_idx =>
      let lhs := drop lhs_idx (digits a) in
      let rhs := drop rhs_idx (digits b) in
      match Nat.compare (length lhs) (length rhs) with
      | Eq => lex_cmp lhs rhs
      | c => c
      end
  end.

Definition is_zero (b : BigUint) : bool := forallb (fun d => d =? 0) (digits b).

(** [impl Sub]: the wrapped difference when the second operand is larger. *)
Definition ops_sub (a b : BigUint) : option BigUint :=
  r ← sub a b; Some (match r with inl w | inr w => w end).

(** [TryFrom<BigUint>] for a type of [width] bits. *)
Definition try_from_big (width : Z) (value : BigUint) : option Z :=
  let value := lstrip value in
  if width <? Z.of_nat (len value) * SHIFT then None
  else
    Some (fold_left (fun acc '(i, d) => wrap width (acc + wrap width (Z.shiftl d (SHIFT * Z.of_nat i))))
      (imap (fun i d => (i, d)) (reverse (digits value))) 0).

Definition split_u128 (a : Z) : Z * Z := (wrap 64 (Z.shiftr a 64), wrap 64 a).

Definition to_big_uint (x : Z) : BigUint :=
  let '(xh, xl) := split_u128 x in
  let '(xhh, xhl) := split_double xh in
  let '(xlh, xll) := split_double xl in
  lstrip (from_limbs [xhh; xhl; xlh; xll]).
