(* ===== verification/BigUintFacts.v ===== *)
(** * Big unsigned integers are exact

    Limb vectors as numbers: addition, subtraction, multiplication and division by a limb against the
    operations on [Z]; none of them ever takes an index out of range. *)

From stdpp Require Import base tactics numbers list option.
From S2P Require Import Prelude Words Helpers128 BigUint.
Local Open Scope Z_scope.

Lemma B_pos : 0 < B.
Proof. done. Qed.

Lemma B_32 : B = 2 ^ 32.
Proof. done. Qed.

(** ** Values of limb vectors, least significant first *)

Definition limbs (b : BigUint) : list Z := reverse (digits b).

(** The limb at [i], zero beyond the end. *)
Definition limb (l : list Z) (i : nat) : Z := default 0 (l !! i).

(** The value of the first [n] limbs. *)
Fixpoint pval (l : list Z) (n : nat) : Z :=
  match n with
  | O => 0
  | S n => pval l n + limb l n * B ^ Z.of_nat n
  end.

Definition lval (l : list Z) : Z := pval l (length l).
Definition val (b : BigUint) : Z := lval (limbs b).

Definition limbs_wf (l : list Z) : Prop := Forall (is_word 32) l.
Definition big_wf (b : BigUint) : Prop := limbs_wf (limbs b).

Lemma limbs_length b : length (limbs b) = len b.
Proof. apply length_reverse. Qed.

Lemma limb_bounds l i : limbs_wf l -> 0 <= limb l i < B.
Proof.
  intros Hl. unfold limb. destruct (l !! i) as [x |] eqn:E; simpl; [| done].
  rewrite B_32. unfold limbs_wf in Hl. rewrite Forall_lookup in Hl. exact (Hl _ _ E).
Qed.

Lemma limb_ge l i : (length l <= i)%nat -> limb l i = 0.
Proof. intros H. unfold limb. by rewrite lookup_ge_None_2. Qed.

Lemma pow_B_pos n : 0 < B ^ Z.of_nat n.
Proof. apply Z.pow_pos_nonneg; [done | lia]. Qed.

Lemma pow_B_S n : B ^ Z.of_nat (S n) = B * B ^ Z.of_nat n.
Proof. rewrite Nat2Z.inj_succ, Z.pow_succ_r by lia. done. Qed.

Lemma pow_B_add n m : B ^ Z.of_nat (n + m) = B ^ Z.of_nat n * B ^ Z.of_nat m.
Proof. rewrite Nat2Z.inj_add, Z.pow_add_r by lia. done. Qed.

Lemma pval_bounds l n : limbs_wf l -> 0 <= pval l n < B ^ Z.of_nat n.
Proof.
  intros Hl. induction n as [| n IH]; simpl pval; [done |]. rewrite pow_B_S.
  pose proof (limb_bounds l n Hl). pose proof (pow_B_pos n). nia.
Qed.

Lemma pval_beyond l n : (length l <= n)%nat -> pval l n = lval l.
Proof.
  intros Hn. unfold lval. replace n with (length l + (n - length l))%nat by lia. generalize (n - length l)%nat as k.
  induction k as [| k IH]; [by rewrite Nat.add_0_r |].
  rewrite Nat.add_succ_r. simpl. rewrite limb_ge by lia. lia.
Qed.

Lemma pval_ext l l' n : (forall i, (i < n)%nat -> limb l i = limb l' i) -> pval l n = pval l' n.
Proof. induction n as [| n IH]; intros H; simpl; [done |]. rewrite IH, (H n) by auto with lia. done. Qed.

Lemma pval_split l n m : pval l (n + m) = pval l n + B ^ Z.of_nat n * pval (drop n l) m.
Proof.
  induction m as [| m IH]; [rewrite Nat.add_0_r; simpl; lia |]. rewrite Nat.add_succ_r. simpl. rewrite IH, pow_B_add.
  unfold limb at 1 2. rewrite lookup_drop. ring.
Qed.

Lemma lval_bounds l : limbs_wf l -> 0 <= lval l < B ^ Z.of_nat (length l).
Proof. apply pval_bounds. Qed.

Lemma limb_insert l i x j : (i < length l)%nat -> limb (<[i := x]> l) j = if (j =? i)%nat then x else limb l j.
Proof.
  intros Hi. unfold limb. destruct (Nat.eqb_spec j i) as [-> | Hne]; [by rewrite list_lookup_insert_eq |].
  by rewrite list_lookup_insert_ne.
Qed.

Lemma pval_insert l i x n :
  (i < length l)%nat ->
  pval (<[i := x]> l) n = pval l n + (if (i <? n)%nat then (x - limb l i) * B ^ Z.of_nat i else 0).
Proof.
  intros Hi. induction n as [| n IH]; [done |]. simpl. rewrite IH, limb_insert by done.
  destruct (Nat.eqb_spec n i), (Nat.ltb_spec i n), (Nat.ltb_spec i (S n)); subst; lia.
Qed.

Lemma lval_insert l i x : (i < length l)%nat -> lval (<[i := x]> l) = lval l + (x - limb l i) * B ^ Z.of_nat i.
Proof. intros Hi. unfold lval. rewrite length_insert, pval_insert, (proj2 (Nat.ltb_lt _ _)) by done. done. Qed.

Lemma pval_replicate n m : pval (replicate n 0) m = 0.
Proof.
  induction m as [| m IH]; simpl; [done |]. rewrite IH. unfold limb. destruct (replicate n 0 !! m) as [x |] eqn:E; [| done].
  apply lookup_replicate in E as [-> _]. done.
Qed.

Lemma limbs_wf_insert l i x : limbs_wf l -> is_word 32 x -> limbs_wf (<[i := x]> l).
Proof. intros Hl Hx. by apply Forall_insert. Qed.

Lemma limbs_wf_replicate n : limbs_wf (replicate n 0).
Proof. by apply Forall_replicate. Qed.

(** ** Accessors *)

Lemma get_limbs b i : get b i = limbs b !! i.
Proof.
  unfold get, limbs, len. destruct (Nat.ltb_spec i (length (digits b))).
  - rewrite reverse_lookup by done. f_equal. lia.
  - symmetry. apply lookup_ge_None. by rewrite length_reverse.
Qed.

Lemma get_limb b i : (i < len b)%nat -> get b i = Some (limb (limbs b) i).
Proof.
  intros Hi. rewrite get_limbs. unfold limb. destruct (limbs b !! i) eqn:E; [done |].
  apply lookup_ge_None in E. rewrite limbs_length in E. lia.
Qed.

Lemma checked_get_limb b i : default 0 (checked_get b i) = limb (limbs b) i.
Proof.
  unfold checked_get, limb. rewrite <- get_limbs. unfold get.
  destruct (Nat.eqb_spec (len b) 0) as [E | E]; [by rewrite E |].
  destruct (Nat.leb_spec i (len b - 1)), (Nat.ltb_spec i (len b)); (done || lia).
Qed.

Lemma set_limbs b i x :
  (i < len b)%nat -> exists b', set b i x = Some b' /\ limbs b' = <[i := x]> (limbs b).
Proof.
  intros Hi. unfold set. rewrite (proj2 (Nat.ltb_lt _ _)) by done. eexists. split; [done |]. unfold limbs; simpl.
  apply list_eq. intros k. unfold len in *. set (l := digits b) in *.
  destruct (decide (k < length l)%nat) as [Hk | Hk].
  2: { rewrite !lookup_ge_None_2; rewrite ?length_insert, ?length_reverse, ?length_insert; (done || lia). }
  rewrite reverse_lookup by (rewrite length_insert; done). rewrite length_insert.
  destruct (decide (k = i)) as [-> | Hne].
  - rewrite list_lookup_insert_eq by (rewrite length_reverse; done).
    replace (length l - S i)%nat with (length l - 1 - i)%nat by lia. apply list_lookup_insert_eq. lia.
  - rewrite (list_lookup_insert_ne (reverse l)) by done. rewrite reverse_lookup by done.
    apply list_lookup_insert_ne. lia.
Qed.

Lemma with_capacity_limbs n : limbs (with_capacity n) = replicate (Nat.max n 1) 0.
Proof. unfold limbs, with_capacity. simpl. apply reverse_replicate. Qed.

Lemma val_with_capacity n : val (with_capacity n) = 0.
Proof. unfold val. rewrite with_capacity_limbs. apply pval_replicate. Qed.

(** The value of a number with one more limb in range. *)
Lemma val_pval b n : (len b <= n)%nat -> pval (limbs b) n = val b.
Proof. intros Hn. apply pval_beyond. by rewrite limbs_length. Qed.

(** Setting a limb of a number. *)
Lemma set_spec b i x :
  (i < len b)%nat -> big_wf b -> is_word 32 x ->
  exists b', set b i x = Some b' /\ big_wf b' /\ len b' = len b /\ limbs b' = <[i := x]> (limbs b) /\
    val b' = val b + (x - limb (limbs b) i) * B ^ Z.of_nat i.
Proof.
  intros Hi Hb Hx. destruct (set_limbs b i x Hi) as (b' & Hs & Hl). exists b'. unfold big_wf, val. rewrite Hl. split; [done |].
  assert (Hi' : (i < length (limbs b))%nat) by (by rewrite limbs_length).
  split_and!; [by apply limbs_wf_insert | | done | by apply lval_insert].
  by rewrite <- limbs_length, Hl, length_insert, limbs_length.
Qed.

(** Setting limb [j] leaves the limbs below it. *)
Lemma pval_set l j x :
  (j < length l)%nat -> pval (<[j := x]> l) j = pval l j /\ limb (<[j := x]> l) j = x.
Proof.
  intros Hj. rewrite pval_insert, limb_insert, Nat.eqb_refl, Nat.ltb_irrefl by done. split; [lia | done].
Qed.

Lemma with_capacity_wf n : big_wf (with_capacity n) /\ len (with_capacity n) = Nat.max n 1.
Proof.
  split; [unfold big_wf; rewrite with_capacity_limbs; apply limbs_wf_replicate |].
  unfold len. simpl. apply length_replicate.
Qed.

Lemma single_mod_B x : 0 <= x -> single (x mod B) = x mod B.
Proof. intros. apply wrap_small. rewrite B_32. apply Z.mod_pos_bound. done. Qed.

Lemma mod_B_word x : is_word 32 (x mod B).
Proof. rewrite B_32. by apply Z.mod_pos_bound. Qed.

Lemma double_small x : 0 <= x < B * B -> double x = x.
Proof. intros. apply wrap_small. exact H. Qed.

Lemma single_small x : 0 <= x < B -> single x = x.
Proof. intros. apply wrap_small. exact H. Qed.

(** ** Addition *)

Lemma big_add_spec a b :
  big_wf a -> big_wf b ->
  exists w, add a b = Some w /\ big_wf w /\ len w = S (Nat.max (len a) (len b)) /\ val w = val a + val b.
Proof.
  intros Ha Hb. unfold add. set (n := Nat.max (len a) (len b)).
  destruct (with_capacity_wf (n + 1)) as [Hc0 Hl0].
  match goal with |- context [for_from 0 n ?g ?s0] =>
    destruct (for_from_inv (fun j '(k, w) => 0 <= k <= 1 /\ big_wf w /\ len w = S n /\
      pval (limbs w) j + k * B ^ Z.of_nat j = pval (limbs a) j + pval (limbs b) j) 0 n g s0) as ([k w] & -> & Hk & Hw & Hl & Hv)
  end.
  - split_and!; [lia | lia | done | lia | done].
  - intros j [k w] Hj (Hk & Hw & Hl & Hv). rewrite !checked_get_limb.
    pose proof (limb_bounds _ j Ha) as Hu. pose proof (limb_bounds _ j Hb) as Hv'. pose proof B_pos.
    set (u := limb (limbs a) j) in *. set (v := limb (limbs b) j) in *.
    assert (HB : 4 <= B) by done. rewrite (double_small (u + v)), double_small by nia. rewrite single_mod_B by lia.
    set (s := u + v + k) in *. destruct (set_spec w j (s mod B) ltac:(lia) Hw (mod_B_word s)) as (w' & -> & Hw' & Hl' & Hlim & _).
    cbn [mbind option_bind]. eexists. split; [done |]. split_and!; [| | done | lia |].
    + apply Z.div_pos; lia.
    + assert (s / B < 2); [| lia]. apply Z.div_lt_upper_bound; lia.
    + rewrite Hlim. simpl pval at 1. destruct (pval_set (limbs w) j (s mod B)) as [-> ->]; [rewrite limbs_length; lia |].
      rewrite pow_B_S. simpl. fold u v. pose proof (Z.div_mod s B ltac:(lia)). nia.
  - cbn [mbind option_bind]. rewrite single_small by (assert (4 <= B) by done; lia).
    assert (Hkw : is_word 32 k) by (unfold is_word; lia).
    destruct (set_spec w n k ltac:(lia) Hw Hkw) as (w' & -> & Hw' & Hl' & Hlim & _).
    exists w'. split_and!; try done; [lia |]. rewrite <- (val_pval w' (S n)) by lia. rewrite Hlim. simpl.
    destruct (pval_set (limbs w) n k) as [-> ->]; [rewrite limbs_length; lia |]. simpl in Hv. rewrite Hv.
    rewrite !val_pval by lia. done.
Qed.

(** ** Subtraction *)

Lemma sub_spec a b :
  big_wf a -> big_wf b ->
  let n := Nat.max (Nat.max (len a) (len b)) 1 in
  exists r w, sub a b = Some r /\ big_wf w /\ len w = n /\
    if val b <=? val a then r = inl w /\ val w = val a - val b
    else r = inr w /\ val w = val a - val b + B ^ Z.of_nat (Nat.max (len a) (len b)).
Proof.
  intros Ha Hb n. unfold sub. set (N := Nat.max (len a) (len b)) in *.
  destruct (with_capacity_wf N) as [Hc0 Hl0].
  match goal with |- context [for_from 0 N ?g ?s0] =>
    destruct (for_from_inv (fun j '(k, w) => (k = 0 \/ k = 1) /\ big_wf w /\ len w = n /\ (forall i, (j <= i)%nat -> limb (limbs w) i = 0) /\
      pval (limbs w) j = pval (limbs a) j - pval (limbs b) j + k * B ^ Z.of_nat j) 0 N g s0) as ([k w] & -> & Hk & Hw & Hl & Hz & Hv)
  end.
  - split_and!; [by left | done | done | | done]. intros i _. rewrite with_capacity_limbs. unfold limb.
    destruct (_ !! i) as [x |] eqn:E; [| done]. by apply lookup_replicate in E as [-> _].
  - intros j [k w] Hj (Hk & Hw & Hl & Hz & Hv). rewrite !checked_get_limb.
    pose proof (limb_bounds _ j Ha) as Hu. pose proof (limb_bounds _ j Hb) as Hv'. assert (HB : 4 <= B) by done.
    set (u := limb (limbs a) j) in *. set (v := limb (limbs b) j) in *.
    assert (Hs : exists s k', match v1 ← word_checked_sub u v; word_checked_sub v1 k with
      | Some v2 => (v2, 0) | None => (double (double (double (u + B) - v) - k), 1) end = (s, k') /\
      (k' = 0 \/ k' = 1) /\ 0 <= s < B /\ s = u - v - k + k' * B).
    { unfold word_checked_sub. destruct (Z.leb_spec v u); cbn [mbind option_bind]; [destruct (Z.leb_spec k (u - v)) |].
      - do 2 eexists. split; [done |]. lia.
      - do 2 eexists. split; [done |]. rewrite (double_small (u + B)), (double_small (u + B - v)), double_small by nia. lia.
      - do 2 eexists. split; [done |]. rewrite (double_small (u + B)), (double_small (u + B - v)), double_small by nia. lia. }
    destruct Hs as (s & k' & -> & Hk' & Hs & Es). rewrite single_small by done.
    assert (Hsw : is_word 32 s) by (unfold is_word; rewrite <- B_32; lia).
    destruct (set_spec w j s ltac:(lia) Hw Hsw) as (w' & -> & Hw' & Hl' & Hlim & _).
    cbn [mbind option_bind]. eexists. split; [done |]. cbn beta iota. rewrite Hlim. split_and!; [done | done | lia | |].
    + intros i Hi. rewrite limb_insert by (rewrite limbs_length; lia). destruct (Nat.eqb_spec i j); [lia |]. apply Hz. lia.
    + simpl pval at 1. destruct (pval_set (limbs w) j s) as [-> ->]; [rewrite limbs_length; lia |].
      rewrite pow_B_S. simpl. fold u v. rewrite Hv, Es. ring.
  - cbn [mbind option_bind]. simpl in Hv. rewrite (val_pval a N), (val_pval b N) in Hv by lia.
    assert (Hvw : val w = pval (limbs w) N).
    { rewrite <- (val_pval w n) by lia. unfold n. destruct (Nat.max_spec N 1) as [[Hlt ->] | [_ ->]]; [| done].
      replace N with O by lia. simpl. rewrite Hz by lia. done. }
    pose proof (pval_bounds (limbs w) N Hw) as Hb1. rewrite <- Hvw in Hb1. pose proof (pow_B_pos N).
    exists (if k =? 0 then inl w else inr w), w. split_and!; [done | done | done |].
    destruct Hk as [-> | ->]; simpl; destruct (Z.leb_spec (val b) (val a)); split; (done || lia).
Qed.

(** ** Multiplication *)

Lemma limb_set_high w w' i x t :
  (i < len w)%nat -> limbs w' = <[i := x]> (limbs w) -> t <> i -> limb (limbs w') t = limb (limbs w) t.
Proof.
  intros Hi -> Hne. rewrite limb_insert by (by rewrite limbs_length). by rewrite (proj2 (Nat.eqb_neq _ _)).
Qed.

(** One row: [x * b] is added at position [j]. *)
Lemma mul_row b x w j :
  big_wf b -> big_wf w -> 0 <= x < B -> (j + len b < len w)%nat -> (forall t, (j + len b <= t)%nat -> limb (limbs w) t = 0) ->
  exists k w', for_from 0 (len b) (mul_inner b x j) (0, w) = Some (k, w') /\
    0 <= k < B /\ big_wf w' /\ len w' = len w /\ (forall t, (j + len b <= t)%nat -> limb (limbs w') t = 0) /\
    val w' + k * B ^ Z.of_nat (j + len b) = val w + x * val b * B ^ Z.of_nat j.
Proof.
  intros Hb Hw Hx Hlen Hz. set (m := len b).
  match goal with |- context [for_from 0 m ?g ?s0] =>
    destruct (for_from_inv (fun i '(k, w') => 0 <= k < B /\ big_wf w' /\ len w' = len w /\
      (forall t, (j + m <= t)%nat -> limb (limbs w') t = 0) /\
      val w' + k * B ^ Z.of_nat (i + j) = val w + x * pval (limbs b) i * B ^ Z.of_nat j) 0 m g s0)
      as ([k w'] & -> & Hk & Hw' & Hl & Hz' & Hv)
  end.
  - split_and!; [done | done | done | done | done |]. simpl. lia.
  - intros i [k w'] Hi (Hk & Hw' & Hl & Hz' & Hv). unfold mul_inner. rewrite (get_limb b i), (get_limb w' (i + j)) by lia.
    cbn [mbind option_bind]. set (y := limb (limbs b) i). set (z := limb (limbs w') (i + j)).
    assert (Hy : 0 <= y < B) by by apply limb_bounds. assert (Hzb : 0 <= z < B) by by apply limb_bounds.
    assert (HB : 4 <= B) by done. unfold mul_single.
    rewrite (double_small (x * y)), (double_small (x * y + z)), double_small by nia.
    set (t := x * y + z + k). assert (Ht : 0 <= t < B * B) by (unfold t; nia). rewrite single_mod_B by lia.
    assert (Hq : 0 <= t / B < B) by (split; [apply Z.div_pos; lia | apply Z.div_lt_upper_bound; lia]).
    rewrite (single_small (t / B)) by done.
    destruct (set_spec w' (i + j) (t mod B) ltac:(lia) Hw' (mod_B_word t)) as (w2 & -> & Hw2 & Hl2 & Hlim & Hv2).
    cbn [mbind option_bind]. eexists. split; [done |]. cbn beta iota. split_and!; [lia | lia | done | lia | |].
    + intros s Hs. rewrite (limb_set_high w' w2 (i + j) (t mod B)); [by apply Hz' | lia | done | lia].
    + rewrite Hv2. fold z. change (S i + j)%nat with (S (i + j)). rewrite pow_B_S. simpl pval. fold y.
      rewrite pow_B_add in *. pose proof (Z.div_mod t B ltac:(lia)). unfold t in *. nia.
  - simpl in Hv. exists k, w'. split_and!; try done; try lia. rewrite (Nat.add_comm j m), Hv, val_pval by lia. done.
Qed.

Lemma mul_spec a b :
  big_wf a -> big_wf b ->
  exists w, mul a b = Some w /\ big_wf w /\ len w = Nat.max (len b + len a) 1 /\ val w = val a * val b.
Proof.
  intros Ha Hb. unfold mul. set (n := len a). set (m := len b). destruct (with_capacity_wf (m + n)) as [Hc0 Hl0].
  match goal with |- context [for_from 0 n ?g ?s0] =>
    destruct (for_from_inv (fun j w => big_wf w /\ len w = Nat.max (m + n) 1 /\
      (forall t, (j + m <= t)%nat -> limb (limbs w) t = 0) /\ val w = pval (limbs a) j * val b) 0 n g s0)
      as (w & -> & Hw & Hl & _ & Hv)
  end.
  - split_and!; [done | done | | by rewrite val_with_capacity]. intros t _. rewrite with_capacity_limbs. unfold limb.
    destruct (_ !! t) as [x |] eqn:E; [| done]. by apply lookup_replicate in E as [-> _].
  - intros j w Hj (Hw & Hl & Hz & Hv). rewrite (get_limb a j) by lia. cbn [mbind option_bind].
    pose proof (limb_bounds _ j Ha) as Hx. simpl pval. set (x := limb (limbs a) j) in *.
    destruct (Z.eqb_spec x 0) as [E | E].
    { exists w. split_and!; try done; [| rewrite E; lia]. intros t Ht. apply Hz. lia. }
    pose proof (mul_row b x w j Hb Hw Hx ltac:(lia) Hz) as Hrow. fold m in Hrow.
    destruct Hrow as (k & w1 & -> & Hk & Hw1 & Hl1 & Hz1 & Hv1). cbn [mbind option_bind].
    assert (Hkw : is_word 32 k) by (unfold is_word; rewrite <- B_32; lia).
    destruct (set_spec w1 (j + m) k ltac:(lia) Hw1 Hkw) as (w2 & -> & Hw2 & Hl2 & Hlim & Hv2).
    exists w2. split_and!; [done | done | lia | |].
    + intros t Ht. rewrite (limb_set_high w1 w2 (j + m) k); [| lia | done | lia]. apply Hz1. lia.
    + rewrite Hv2, Hz1, Z.sub_0_r, Hv1, Hv by lia. ring.
  - exists w. split_and!; try done. simpl in Hv. rewrite Hv, val_pval by lia. done.
Qed.

(** ** Division by a limb *)

Lemma div_unit_spec a d :
  big_wf a -> is_word 32 d ->
  exists w, div_unit a d = Some w /\ big_wf w /\ len w = Nat.max (len a) 1 /\ val w = val a / Z.max d 1.
Proof.
  intros Ha [Hd0 Hd1]. unfold div_unit. set (c := Z.max d 1). assert (Hc : 0 < c < B) by (unfold c; rewrite B_32; lia).
  set (n := len a). destruct (with_capacity_wf n) as [Hc0 Hl0].
  match goal with |- context [for_down n ?g ?s0] =>
    destruct (for_down_inv (fun j '(r, w) => 0 <= r < c /\ big_wf w /\ len w = Nat.max n 1 /\
      (forall i, (i < j)%nat -> limb (limbs w) i = 0) /\
      val a = c * val w + r * B ^ Z.of_nat j + pval (limbs a) j) n g s0) as ([r w] & -> & Hr & Hw & Hl & _ & Hv)
  end.
  - split_and!; [lia | lia | done | done | |].
    + intros t _. rewrite with_capacity_limbs. unfold limb.
      destruct (_ !! t) as [x |] eqn:E; [| done]. by apply lookup_replicate in E as [-> _].
    + rewrite val_with_capacity, val_pval by lia. lia.
  - intros j [r w] Hj (Hr & Hw & Hl & Hz & Hv). rewrite (get_limb a j) by lia. cbn [mbind option_bind].
    pose proof (limb_bounds _ j Ha) as Hx. set (x := limb (limbs a) j) in *.
    rewrite (double_small (r * B)), double_small by nia. unfold div_single. rewrite (proj2 (Z.eqb_neq c 0)) by lia.
    cbn [mbind option_bind]. set (t := r * B + x). pose proof (Z.mod_pos_bound t c ltac:(lia)) as Hm.
    pose proof (Z.div_mod t c ltac:(lia)) as Et.
    assert (Hq : 0 <= t / c < B) by (split; [apply Z.div_pos; unfold t; nia | apply Z.div_lt_upper_bound; unfold t; nia]).
    rewrite (single_small (t / c)), (single_small (t mod c)) by lia.
    assert (Hqw : is_word 32 (t / c)) by (unfold is_word; rewrite <- B_32; lia).
    destruct (set_spec w j (t / c) ltac:(lia) Hw Hqw) as (w2 & -> & Hw2 & Hl2 & Hlim & Hv2).
    cbn [mbind option_bind]. eexists. split; [done |]. cbn beta iota. split_and!; [lia | lia | done | lia | |].
    + intros i Hi. rewrite (limb_set_high w w2 j (t / c)); [apply Hz; lia | lia | done | lia].
    + rewrite Hv, Hv2, Hz by lia. simpl pval. fold x. rewrite pow_B_S. unfold t in *. nia.
  - cbn [mbind option_bind]. exists w. split_and!; try done. simpl in Hv. apply Z.div_unique with r; [lia |]. lia.
Qed.
