(* ===== verification/KnuthFacts.v ===== *)
(** * Knuth's division

    [BigUint::div]: the estimate of a quotient digit is right or one too large, the round corrects it, and
    the rounds together give quotient and remainder.  The second half has comparison, conversions and the
    arithmetic put together. *)

From stdpp Require Import base tactics numbers list option.
From S2P Require Import Prelude Words Helpers128 BigUint BigUintFacts.
Local Open Scope Z_scope.

(** ** The estimate *)

Section estimate.
Context (v1 v2 u0 u1 u2 : Z).
Context (Hv1 : B <= 2 * v1) (Hv1B : v1 < B) (Hv2 : 0 <= v2 < B).
Context (Hu0 : 0 <= u0 <= v1) (Hu1 : 0 <= u1 < B) (Hu2 : 0 <= u2 < B).

Let V2 := v1 * B + v2.
Let U3 := (u0 * B + u1) * B + u2.

(** [qhat] with its [rhat], not below any digit that fits. *)
Definition qhat_inv (s : Z * Z * bool) : Prop :=
  let '(qhat, rhat, go) := s in
  qhat * v1 + rhat = u0 * B + u1 /\ 0 <= qhat <= B + 1 /\ 0 <= rhat < 2 * B /\
  (forall q, 0 <= q < B -> q * V2 <= U3 -> q <= qhat) /\
  (go = false -> qhat < B /\ qhat * v2 <= B * rhat + u2).

Lemma test_inv qhat rhat go :
  qhat_inv (qhat, rhat, go) -> rhat < B ->
  let '(qhat', rhat', go') := test v1 v2 u2 (qhat, rhat) in
  qhat_inv (qhat', rhat', go') /\ (go' = true -> rhat' = rhat + v1).
Proof.
  intros (He & Hq & Hr & Hmax & _) Hlt. unfold test. assert (HB : 4 <= B) by done.
  rewrite (double_small (B * rhat)), (double_small (B * rhat + u2)), (double_small (qhat * v2)) by nia.
  destruct ((B <=? qhat) || (B * rhat + u2 <? qhat * v2)) eqn:E.
  - assert (Hlow : forall q, 0 <= q < B -> q * V2 <= U3 -> q < qhat).
    { intros q Hq1 Hq2. specialize (Hmax q Hq1 Hq2). apply orb_true_iff in E as [E | E]; bool_to_prop; [lia |].
      destruct (Z.eq_dec q qhat) as [-> |]; [| lia]. exfalso. unfold V2, U3 in Hq2. rewrite <- He in Hq2. nia. }
    assert (0 < qhat).
    { apply orb_true_iff in E as [E | E]; bool_to_prop; [lia |]. destruct (Z.eq_dec qhat 0) as [-> |]; nia. }
    rewrite (double_small (qhat - 1)), (double_small (rhat + v1)) by nia. split; [| done].
    split_and!; try lia. intros q Hq1 Hq2. specialize (Hlow q Hq1 Hq2). lia.
  - apply orb_false_iff in E as [E1 E2]. bool_to_prop. split; [| done]. split_and!; try lia; done.
Qed.

Definition tests_left (s : Z * Z * bool) : nat :=
  let '(_, rhat, go) := s in
  if go : bool then if 2 * rhat <? B then 2 else if rhat <? B then 1 else 0 else 0.

(** The digit found is the largest that the two leading limbs allow. *)
Lemma find_qhat_spec :
  exists qhat, find_qhat v1 v2 u2 ((u0 * B + u1) / v1, (u0 * B + u1) mod v1) = Some qhat /\
    0 <= qhat < B /\ qhat * V2 <= U3 /\ forall q, 0 <= q < B -> q * V2 <= U3 -> q <= qhat.
Proof.
  assert (HB : 4 <= B) by done. set (d := u0 * B + u1). pose proof (Z.div_mod d v1 ltac:(lia)) as Ed.
  pose proof (Z.mod_pos_bound d v1 ltac:(lia)) as Hm. set (q0 := d / v1) in *. set (r0 := d mod v1) in *.
  assert (Hq0 : 0 <= q0) by (apply Z.div_pos; unfold d; nia).
  assert (Hq1 : q0 <= B + 1) by (assert (q0 < B + 2); [| lia]; apply Z.div_lt_upper_bound; unfold d; nia).
  assert (Hi0 : qhat_inv (q0, r0, true)).
  { split_and!; try lia. intros q Hq Hle. unfold V2, U3 in Hle. fold d in Hle.
    assert (q * v1 <= d) by nia. apply Z.div_le_lower_bound; lia. }
  pose proof (test_inv q0 r0 true Hi0 ltac:(lia)) as Ht. unfold find_qhat.
  destruct (test v1 v2 u2 (q0, r0)) as [[q1 r1] go1]. destruct Ht as [Hi1 Hgo1].
  destruct (while_inv qhat_inv tests_left 4 (fun '(_, rhat, go) => (rhat <? B) && go)
    (fun '(qhat, rhat, _) => Some (test v1 v2 u2 (qhat, rhat))) (q1, r1, true))
    as ([[qhat rhat] go] & -> & Hi & Hend).
  - unfold tests_left. destruct (2 * r1 <? B), (r1 <? B); lia.
  - destruct Hi1 as (? & ? & ? & ? & _). split_and!; (done || lia).
  - intros [[q r] go] Hi Hc. bool_to_prop. pose proof (test_inv q r go Hi ltac:(done)) as Ht.
    destruct (test v1 v2 u2 (q, r)) as [[q' r'] go']. destruct Ht as [Hi' Hgo']. eexists. split; [done |]. split; [done |].
    unfold tests_left. subst go. destruct go'; [rewrite (Hgo' eq_refl) |];
      destruct Hi as (_ & _ & Hr & _); repeat match goal with |- context [?x <? ?y] => destruct (Z.ltb_spec x y) end; lia.
  - cbn [mbind option_bind]. exists qhat. destruct Hi as (He & Hq & Hr & Hmax & Hgo).
    assert (Hfin : qhat < B /\ qhat * v2 <= B * rhat + u2).
    { apply andb_false_iff in Hend as [Hend | Hend]; [| by apply Hgo]. bool_to_prop. split; nia. }
    split_and!; try done; unfold V2, U3; lia.
Qed.
End estimate.

(** With the rest of the limbs, the estimate is the digit or one more. *)
Lemma estimate_off_by_one K V2 U3 Vl Ul qhat :
  0 < K -> B * B <= 2 * V2 -> 0 <= Vl < K -> 0 <= Ul < K -> 0 <= U3 ->
  U3 * K + Ul < (V2 * K + Vl) * B ->
  0 <= qhat < B -> qhat * V2 <= U3 -> (forall q, 0 <= q < B -> q * V2 <= U3 -> q <= qhat) ->
  let q := (U3 * K + Ul) / (V2 * K + Vl) in q <= qhat <= q + 1.
Proof.
  intros HK HV HVl HUl HU Hlt Hq Hle Hmax q. assert (HB : 4 <= B) by done.
  set (V := V2 * K + Vl) in *. set (U := U3 * K + Ul) in *. assert (HVp : B * K <= V) by (unfold V; nia).
  pose proof (Z.div_mod U V ltac:(nia)) as Ed. pose proof (Z.mod_pos_bound U V ltac:(nia)) as Hm. fold q in Ed.
  assert (Hq0 : 0 <= q) by (apply Z.div_pos; unfold U; nia). assert (Hqb : q < B) by nia. split.
  - apply Hmax; [lia |]. assert (q * V2 * K < (U3 + 1) * K) by (unfold U, V in *; nia). nia.
  - assert (qhat * V < U + V).
    { replace (qhat * V) with (qhat * V2 * K + qhat * Vl) by (unfold V; ring). unfold U. nia. }
    nia.
Qed.

(** ** Windows *)

(** Limb by limb: [src] from [lo] to [lo + n], [b] elsewhere. *)
Definition overwritten (b src : BigUint) (lo n : nat) (b' : BigUint) : Prop :=
  big_wf b' /\ len b' = len b /\
  forall t, limb (limbs b') t = if ((lo <=? t) && (t <=? lo + n))%nat then limb (limbs src) (t - lo) else limb (limbs b) t.

Section overwrite.
Context (b src : BigUint) (lo n : nat).
Context (Hb : big_wf b) (Hs : big_wf src) (Hlo : (lo + n < len b)%nat) (Hn : (n < len src)%nat).

(** The limbs [from..to] of the window are written. *)
Let written (from to : nat) (b' : BigUint) : Prop :=
  big_wf b' /\ len b' = len b /\
  forall t, limb (limbs b') t =
    if ((lo + from <=? t) && (t <? lo + to))%nat then limb (limbs src) (t - lo) else limb (limbs b) t.

Lemma write_one i from to from' to' b' :
  (i <= n)%nat -> written from to b' ->
  (forall t, ((lo + from' <=? t) && (t <? lo + to'))%nat =
    ((t =? lo + i) || ((lo + from <=? t) && (t <? lo + to)))%nat) ->
  exists b2, (x ← get src i; set b' (lo + i) x) = Some b2 /\ written from' to' b2.
Proof.
  intros Hi (Hw & Hl & Ht) Hrange. rewrite get_limb by lia. cbn [mbind option_bind].
  pose proof (limb_bounds _ i Hs) as Hx. rewrite B_32 in Hx.
  destruct (set_spec b' (lo + i) (limb (limbs src) i) ltac:(lia) Hw Hx) as (b2 & -> & Hw2 & Hl2 & Hlim & _).
  exists b2. split; [done |]. split_and!; [done | lia |]. intros t. rewrite Hlim, limb_insert, Hrange by (rewrite limbs_length; lia).
  destruct (Nat.eqb_spec t (lo + i)) as [-> | Hne]; simpl; [f_equal; lia | apply Ht].
Qed.

Lemma written_overwritten b' : written 0 (S n) b' -> overwritten b src lo n b'.
Proof.
  intros (Hw & Hl & Ht). split_and!; [done | done |]. intros t. rewrite Ht. clear.
  destruct (Nat.leb_spec (lo + 0) t), (Nat.leb_spec lo t), (Nat.ltb_spec t (lo + S n)), (Nat.leb_spec t (lo + n)); (done || lia).
Qed.

Ltac ranges := intros t;
  repeat match goal with
  | |- context [(?x <=? ?y)%nat] => destruct (Nat.leb_spec x y)
  | |- context [(?x <? ?y)%nat] => destruct (Nat.ltb_spec x y)
  | |- context [(?x =? ?y)%nat] => destruct (Nat.eqb_spec x y)
  end; (done || lia).

Lemma put_window_spec : exists b', put_window b src lo n = Some b' /\ overwritten b src lo n b'.
Proof.
  unfold put_window. destruct (for_from_inv (written 0) 0 (S n) (fun i b => x ← get src i; set b (lo + i) x) b)
    as (b' & -> & Hb').
  - split_and!; [done | done |]. intros t. destruct (Nat.leb_spec (lo + 0) t), (Nat.ltb_spec t (lo + 0)); (done || lia).
  - intros i b' Hi Hw. apply (write_one i 0 i); [lia | done |]. ranges.
  - exists b'. split; [done |]. by apply written_overwritten.
Qed.

Lemma put_window_rev_spec : exists b', put_window_rev b src lo n = Some b' /\ overwritten b src lo n b'.
Proof.
  unfold put_window_rev. destruct (for_down_inv (fun i => written i (S n)) (S n) (fun i b => x ← get src i; set b (lo + i) x) b)
    as (b' & -> & Hb').
  - split_and!; [done | done |]. intros t. destruct (Nat.leb_spec (lo + S n) t), (Nat.ltb_spec t (lo + S n)); (done || lia).
  - intros i b' Hi Hw. apply (write_one i (S i) (S n)); [lia | done |]. ranges.
  - exists b'. split; [done |]. by apply written_overwritten.
Qed.
End overwrite.

Lemma pval_drop_limb l lo n l' :
  (forall i, (i < n)%nat -> limb l (lo + i) = limb l' i) -> pval (drop lo l) n = pval l' n.
Proof. intros H. apply pval_ext. intros i Hi. rewrite <- H by done. unfold limb. by rewrite lookup_drop. Qed.

(** What a write makes of the three parts of the number. *)
Lemma overwritten_parts b src lo n b' :
  overwritten b src lo n b' ->
  pval (limbs b') lo = pval (limbs b) lo /\ pval (drop lo (limbs b')) (S n) = pval (limbs src) (S n) /\
  forall t, (lo + n < t)%nat -> limb (limbs b') t = limb (limbs b) t.
Proof.
  intros (_ & _ & Ht). split_and!.
  - apply pval_ext. intros i Hi. rewrite Ht. destruct (Nat.leb_spec lo i); [lia | done].
  - apply pval_drop_limb. intros i Hi. rewrite Ht, (proj2 (Nat.leb_le _ _)), (proj2 (Nat.leb_le _ _)) by lia. simpl. f_equal. lia.
  - intros t Hlt. rewrite Ht. destruct (Nat.leb_spec lo t), (Nat.leb_spec t (lo + n)); (done || lia).
Qed.

Lemma mapM_get b lo k :
  (lo + k <= len b)%nat -> mapM (get b) (seq lo k) = Some (take k (drop lo (limbs b))).
Proof.
  revert lo. induction k as [| k IH]; intros lo Hk; [done |]. simpl. rewrite get_limb by lia. cbn [mbind option_bind].
  rewrite IH by lia. simpl. unfold limb. destruct (limbs b !! lo) as [x |] eqn:E.
  - by rewrite (drop_S _ x lo E).
  - apply lookup_ge_None in E. rewrite limbs_length in E. lia.
Qed.

Lemma window_spec b lo n :
  big_wf b -> (lo + n < len b)%nat ->
  exists w, window b lo n = Some w /\ big_wf w /\ len w = S n /\ val w = pval (drop lo (limbs b)) (S n).
Proof.
  intros Hb Hn. unfold window. rewrite mapM_get by lia. simpl fmap. eexists. split; [done |].
  assert (Hl : length (take (S n) (drop lo (limbs b))) = S n) by (rewrite length_take, length_drop, limbs_length; lia).
  set (l := take (S n) (drop lo (limbs b))) in *. unfold big_wf, val, limbs. cbn [digits]. rewrite reverse_involutive.
  split_and!.
  - apply Forall_take, Forall_drop, Hb.
  - unfold len. simpl. by rewrite length_reverse.
  - unfold lval. rewrite Hl. apply pval_ext. intros i Hi. unfold limb, l. by rewrite lookup_take_lt.
Qed.

Lemma pval_mod l k : limbs_wf l -> (k <= length l)%nat -> pval l k = lval l mod B ^ Z.of_nat k.
Proof.
  intros Hl Hk. unfold lval. replace (length l) with (k + (length l - k))%nat by lia. rewrite pval_split.
  apply Z.mod_unique with (pval (drop k l) (length l - k)); [left; by apply pval_bounds | lia].
Qed.

Lemma pval_high_zero l k : (forall t, (k <= t)%nat -> limb l t = 0) -> lval l = pval l k.
Proof.
  intros Hz. destruct (le_lt_dec (length l) k) as [Hk | Hk]; [symmetry; by apply pval_beyond |].
  unfold lval. replace (length l) with (k + (length l - k))%nat by lia. generalize (length l - k)%nat as m.
  induction m as [| m IH]; [by rewrite Nat.add_0_r |]. rewrite Nat.add_succ_r. simpl. rewrite Hz by lia. lia.
Qed.

(** A small value has no top limb. *)
Lemma pval_top_zero l n : limbs_wf l -> pval l (S n) < B ^ Z.of_nat n -> limb l n = 0.
Proof.
  intros Hl Hlt. simpl in Hlt. pose proof (limb_bounds l n Hl). pose proof (pval_bounds l n Hl). nia.
Qed.

Lemma from_u64_limbs x : 0 <= x < B -> limbs (from_u64 x) = [x; 0].
Proof.
  intros Hx. unfold from_u64, split_double. rewrite (single_small x) by done. rewrite Z.shiftr_div_pow2 by done.
  change (2 ^ SHIFT) with B. by rewrite Z.div_small.
Qed.

Lemma from_u64_spec x : 0 <= x < B -> big_wf (from_u64 x) /\ len (from_u64 x) = 2%nat /\ val (from_u64 x) = x.
Proof.
  intros Hx. unfold big_wf, val. rewrite <- limbs_length, from_u64_limbs by done. split_and!; [| done |].
  - apply Forall_cons_2; [exact Hx |]. by apply Forall_singleton.
  - unfold lval. simpl. unfold limb. simpl. lia.
Qed.

(** ** One round *)

Section round.
Context (n : nat) (v : BigUint).
Context (Hn : (2 <= n)%nat) (Hv : big_wf v) (Hlen : len v = n) (Htop : B <= 2 * limb (limbs v) (n - 1)).

Lemma divisor_large : B ^ Z.of_nat n <= 2 * val v < 2 * B ^ Z.of_nat n.
Proof.
  rewrite <- (val_pval v n) by lia. destruct n as [| n']; [lia |]. cbn [pval]. rewrite pow_B_S.
  replace (S n' - 1)%nat with n' in Htop by lia. pose proof (pval_bounds (limbs v) n' Hv). pose proof (pow_B_pos n').
  pose proof (limb_bounds (limbs v) n' Hv). nia.
Qed.

Lemma round_digit w j :
  big_wf w -> pval (drop j (limbs w)) (S n) < val v * B ->
  let U := pval (drop j (limbs w)) (S n) in
  let u0 := limb (limbs w) (j + n) in
  let u1 := limb (limbs w) (j + n - 1) in
  let u2 := limb (limbs w) (j + n - 2) in
  let v1 := limb (limbs v) (n - 1) in
  let v2 := limb (limbs v) (n - 2) in
  exists qhat, find_qhat v1 v2 u2 ((u0 * B + u1) / v1, (u0 * B + u1) mod v1) = Some qhat /\
    0 <= qhat < B /\ U / val v <= qhat <= U / val v + 1.
Proof.
  intros Hw HU U u0 u1 u2 v1 v2. pose proof (limb_bounds _ (j + n) Hw) as H0. pose proof (limb_bounds _ (j + n - 1) Hw) as H1.
  pose proof (limb_bounds _ (j + n - 2) Hw) as H2. pose proof (limb_bounds _ (n - 1) Hv) as G1.
  pose proof (limb_bounds _ (n - 2) Hv) as G2. fold u0 in H0. fold u1 in H1. fold u2 in H2. fold v1 in G1, Htop. fold v2 in G2.
  destruct n as [| [| k]]; [lia | lia |]. set (K := B ^ Z.of_nat k). assert (HK : 0 < K) by apply pow_B_pos.
  assert (EV : val v = (v1 * B + v2) * K + pval (limbs v) k).
  { rewrite <- (val_pval v (S (S k))) by lia. cbn [pval]. rewrite pow_B_S. unfold v1, v2, K.
    replace (S (S k) - 1)%nat with (S k) by lia. replace (S (S k) - 2)%nat with k by lia. ring. }
  assert (Hd : forall i, limb (drop j (limbs w)) i = limb (limbs w) (j + i)) by (intros i; unfold limb; by rewrite lookup_drop).
  assert (EU : U = ((u0 * B + u1) * B + u2) * K + pval (drop j (limbs w)) k).
  { unfold U. cbn [pval]. rewrite !pow_B_S, !Hd. unfold u0, u1, u2, K.
    replace (j + S (S k) - 1)%nat with (j + S k)%nat by lia. replace (j + S (S k) - 2)%nat with (j + k)%nat by lia. ring. }
  pose proof (pval_bounds (limbs v) k Hv) as HVl. pose proof (pval_bounds (drop j (limbs w)) k (Forall_drop _ _ _ Hw)) as HUl.
  fold K in HVl, HUl. fold U in HU. rewrite EU, EV in HU. rewrite EU, EV.
  set (Vl := pval (limbs v) k) in *. set (Ul := pval (drop j (limbs w)) k) in *. assert (HB : 4 <= B) by done.
  assert (Hu0 : u0 <= v1).
  { assert (u0 * (B * (B * K)) < (v1 + 1) * (B * (B * K))); [nia |].
    destruct (Z.le_gt_cases u0 v1); [done |]. assert ((v1 + 1) * (B * (B * K)) <= u0 * (B * (B * K))); [| lia].
    apply Z.mul_le_mono_nonneg_r; nia. }
  destruct (find_qhat_spec v1 v2 u0 u1 u2) as (qhat & Hf & Hq & Hle & Hmax); try lia.
  exists qhat. split_and!; try done; try lia; eapply estimate_off_by_one; (done || nia).
Qed.

(** Before digit [j]: the dividend is the rest [w] and the digits found so far. *)
Definition div_inv (m : nat) (total : Z) (j : nat) (s : BigUint * BigUint) : Prop :=
  let '(w, q) := s in
  big_wf w /\ len w = (n + m + 1)%nat /\ big_wf q /\ len q = (m + 1)%nat /\
  (forall t, (n + j <= t)%nat -> limb (limbs w) t = 0) /\
  (forall i, (i < j)%nat -> limb (limbs q) i = 0) /\
  val w < val v * B ^ Z.of_nat j /\ val w + val q * val v = total.

Lemma val_window w j :
  (forall t, (n + S j <= t)%nat -> limb (limbs w) t = 0) ->
  val w = pval (limbs w) j + B ^ Z.of_nat j * pval (drop j (limbs w)) (S n).
Proof. intros Hz. unfold val. rewrite (pval_high_zero _ (j + S n)); [apply pval_split |]. intros t Ht. apply Hz. lia. Qed.

(** Writing back a window below the divisor. *)
Lemma write_back w src j w' R :
  (forall t, (n + S j <= t)%nat -> limb (limbs w) t = 0) -> overwritten w src j n w' ->
  pval (limbs src) (S n) = R -> R < val v ->
  (forall t, (n + j <= t)%nat -> limb (limbs w') t = 0) /\ val w' = pval (limbs w) j + B ^ Z.of_nat j * R.
Proof.
  intros Hz Ho ER HR. destruct (overwritten_parts _ _ _ _ _ Ho) as (Elow & Ewin & Ehigh). destruct Ho as (Hw' & _ & _).
  assert (Hz' : forall t, (n + S j <= t)%nat -> limb (limbs w') t = 0).
  { intros t Ht. rewrite Ehigh by lia. apply Hz. lia. }
  split; [| by rewrite (val_window w' j Hz'), Elow, Ewin, ER].
  intros t Ht. destruct (decide (t = n + j)%nat) as [-> | Hne]; [| apply Hz'; lia].
  pose proof (pval_top_zero (drop j (limbs w')) n (Forall_drop _ _ _ Hw')) as Htz. rewrite Ewin, ER in Htz.
  pose proof divisor_large. specialize (Htz ltac:(lia)). unfold limb in Htz. rewrite lookup_drop in Htz.
  unfold limb. by rewrite Nat.add_comm.
Qed.

(** The low limbs of a number that is a small value up to a multiple of their range. *)
Lemma low_limbs src R c :
  big_wf src -> (S n <= len src)%nat -> 0 <= R < B ^ Z.of_nat (S n) -> val src = R + c * B ^ Z.of_nat (S n) ->
  pval (limbs src) (S n) = R.
Proof.
  intros Hs Hl HR Ev. rewrite pval_mod by (rewrite ?limbs_length; done). fold (val src). rewrite Ev.
  rewrite Z.mod_add by (pose proof (pow_B_pos (S n)); lia). by apply Z.mod_small.
Qed.

(** The invariant with digit [d] and the window's remainder in place. *)
Lemma round_done m total j w q w' q' :
  let U := pval (drop j (limbs w)) (S n) in
  (j < m + 1)%nat -> div_inv m total (S j) (w, q) ->
  big_wf w' -> len w' = len w -> (forall t, (n + j <= t)%nat -> limb (limbs w') t = 0) ->
  val w' = pval (limbs w) j + B ^ Z.of_nat j * (U mod val v) ->
  big_wf q' -> limbs q' = <[j := U / val v]> (limbs q) -> div_inv m total j (w', q').
Proof.
  intros U Hj (Hw & Hlw & Hq & Hlq & Hz & Hqz & Hlt & Htot) Hw' Hlw' Hz' Ew' Hq' Hlim.
  pose proof divisor_large as Hbig. pose proof (pow_B_pos n). pose proof (pow_B_pos j).
  pose proof (pval_bounds (limbs w) j Hw) as Hlow. pose proof (val_window w j Hz) as Ew. fold U in Ew.
  pose proof (Z.div_mod U (val v) ltac:(lia)). pose proof (Z.mod_pos_bound U (val v) ltac:(lia)).
  assert (Hin : (j < length (limbs q))%nat) by (rewrite limbs_length; lia).
  split_and!; [done | lia | done | | done | | nia |].
  - by rewrite <- limbs_length, Hlim, length_insert, limbs_length.
  - intros i Hi. rewrite Hlim, limb_insert, (proj2 (Nat.eqb_neq _ _)) by (done || lia). apply Hqz. lia.
  - unfold val at 2. rewrite Hlim, lval_insert, Hqz by (done || lia). fold (val q). nia.
Qed.

(** A wrong estimate is put right by adding the divisor back. *)
Lemma add_back w j q R :
  big_wf w -> (j + n < len w)%nat -> big_wf q -> (j < len q)%nat -> 0 < limb (limbs q) j -> 0 <= R < val v ->
  pval (drop j (limbs w)) (S n) = R - val v + B ^ Z.of_nat (S n) ->
  exists u r w' q',
    get q j = Some (limb (limbs q) j) /\ set q j (single (limb (limbs q) j - 1)) = Some q' /\
    window w j n = Some u /\ add v u = Some r /\ put_window_rev w r j n = Some w' /\
    overwritten w r j n w' /\ pval (limbs r) (S n) = R /\
    big_wf q' /\ limbs q' = <[j := limb (limbs q) j - 1]> (limbs q).
Proof.
  intros Hw Hj Hq Hjq Hpos HR Ewin. pose proof divisor_large as Hbig. pose proof (pow_B_pos n).
  pose proof (limb_bounds _ j Hq) as Hlb. assert (Hqw : is_word 32 (limb (limbs q) j - 1)) by (unfold is_word; rewrite <- B_32; lia).
  destruct (window_spec w j n Hw Hj) as (u & Eu & Hu & Hlu & Evu). destruct (big_add_spec v u Hv Hu) as (r & Er & Hr & Hlr & Evr).
  destruct (put_window_rev_spec w r j n Hw Hr Hj ltac:(lia)) as (w' & Ew' & Ho).
  destruct (set_spec q j _ Hjq Hq Hqw) as (q' & Eq & Hq' & _ & Hlim & _).
  exists u, r, w', q'. rewrite single_small by lia. split_and!; try done; [by apply get_limb |].
  apply (low_limbs r R 1); [done | lia | rewrite pow_B_S; assert (4 <= B) by done; nia | lia].
Qed.

Lemma div_subtract_spec m total j w q qhat :
  (j < m + 1)%nat -> div_inv m total (S j) (w, q) -> 0 <= qhat < B ->
  let U := pval (drop j (limbs w)) (S n) in
  U / val v <= qhat <= U / val v + 1 ->
  exists s, div_subtract n v j qhat w q = Some s /\ div_inv m total j s.
Proof.
  intros Hj Hinv Hqh U Hest. pose proof Hinv as (Hw & Hlw & Hq & Hlq & Hz & Hqz & _). unfold div_subtract.
  pose proof divisor_large as Hbig. pose proof (pow_B_pos n) as HBn. assert (HB : 4 <= B) by done.
  pose proof (pval_bounds (drop j (limbs w)) (S n) (Forall_drop _ _ _ Hw)) as HUb. fold U in HUb.
  pose proof (Z.div_mod U (val v) ltac:(lia)) as Ed. pose proof (Z.mod_pos_bound U (val v) ltac:(lia)) as Hm.
  destruct (window_spec w j n Hw ltac:(lia)) as (lhs & -> & Hlhs & Hllhs & Evl). fold U in Evl. cbn [mbind option_bind].
  destruct (from_u64_spec qhat Hqh) as (Hwq & Hlenq & Evq).
  destruct (mul_spec v (from_u64 qhat) Hv Hwq) as (rhs & -> & Hrhs & Hlrhs & Evr). cbn [mbind option_bind].
  destruct (sub_spec lhs rhs Hlhs Hrhs) as (r & t & -> & Ht & Hlt' & Hcase). cbn [mbind option_bind].
  rewrite Evl, Evr, Evq in Hcase. replace (Nat.max (len lhs) (len rhs)) with (S (S n)) in * by lia.
  rewrite pow_B_S in Hcase. pose proof (pow_B_S n) as EP. set (P := B ^ Z.of_nat (S n)) in *.
  destruct (put_window_spec w t j n Hw Ht ltac:(lia) ltac:(lia)) as (w1 & Eput & Ho). rewrite (single_small qhat) by done.
  destruct (set_spec q j qhat ltac:(lia) Hq Hqh) as (q1 & Eset & Hq1 & Hlq1 & Hlim1 & _).
  pose proof (round_done m total j w q) as Hdone. cbv zeta in Hdone. fold U in Hdone.
  set (d := U / val v) in *. set (R := U mod val v) in *.
  destruct (Z.leb_spec (val v * qhat) U) as [Hle | Hgt]; destruct Hcase as [-> Evt]; cbn beta iota;
    rewrite Eput; cbn [mbind option_bind]; rewrite Eset; cbn [mbind option_bind].
  - assert (qhat = d) as -> by nia. eexists. split; [done |].
    assert (ER : pval (limbs t) (S n) = R) by (apply (low_limbs t R 0); try done; fold P; lia).
    destruct (write_back w t j w1 R Hz Ho ER ltac:(lia)) as [Hz' Ew']. destruct Ho as (Hw' & Hlw' & _). by apply Hdone.
  - assert (qhat = d + 1) as -> by nia. pose proof Ho as (Hw1 & Hlw1 & _).
    destruct (overwritten_parts _ _ _ _ _ Ho) as (Elow & Ewin & Ehigh).
    assert (Ed1 : limb (limbs q1) j = d + 1) by (rewrite Hlim1, limb_insert, Nat.eqb_refl by (rewrite limbs_length; lia); done).
    rewrite (low_limbs t (R - val v + P) (B - 1)) in Ewin by (try done; fold P; (lia || nia)).
    destruct (add_back w1 j q1 R) as (u & r & w2 & q2 & Eg & Eq2 & Ewn & Er & Epr & Ho2 & ER & Hq2 & Hlim2); try done; try lia.
    { rewrite Ed1. assert (0 <= d) by (apply Z.div_pos; lia). lia. }
    rewrite Eg; cbn [mbind option_bind]. rewrite Eq2; cbn [mbind option_bind]. rewrite Ewn; cbn [mbind option_bind].
    rewrite Er; cbn [mbind option_bind]. rewrite Epr; cbn [mbind option_bind]. eexists. split; [done |].
    assert (Hz1 : forall t, (n + S j <= t)%nat -> limb (limbs w1) t = 0) by (intros k Hk; rewrite Ehigh by lia; apply Hz; lia).
    destruct (write_back w1 r j w2 R Hz1 Ho2 ER ltac:(lia)) as [Hz2 Ew2]. destruct Ho2 as (Hw2 & Hlw2 & _).
    apply Hdone; try done; [lia | by rewrite Ew2, Elow |]. rewrite Hlim2, Ed1, Hlim1, list_insert_insert_eq. f_equal. lia.
Qed.

Lemma div_step_spec m total j s :
  (j < m + 1)%nat -> div_inv m total (S j) s -> exists s', div_step n v j s = Some s' /\ div_inv m total j s'.
Proof.
  intros Hj Hinv. destruct s as [w q]. pose proof Hinv as (Hw & Hlw & Hq & Hlq & Hz & Hqz & Hlt & Htot). unfold div_step.
  rewrite !get_limb by lia. cbn [mbind option_bind]. assert (HB : 4 <= B) by done.
  pose proof (limb_bounds _ (j + n) Hw). pose proof (limb_bounds _ (j + n - 1) Hw). pose proof (limb_bounds _ (n - 1) Hv).
  pose proof (val_window w j Hz) as Ew. pose proof (pval_bounds (limbs w) j Hw) as Hlow. pose proof (pow_B_pos j).
  rewrite pow_B_S in Hlt. assert (HU : pval (drop j (limbs w)) (S n) < val v * B) by nia.
  destruct (round_digit w j Hw HU) as (qhat & Hf & Hqh & Hest). revert Hf.
  set (u0 := limb (limbs w) (j + n)) in *. set (u1 := limb (limbs w) (j + n - 1)) in *. set (v1 := limb (limbs v) (n - 1)) in *.
  intros Hf. rewrite (double_small (u0 * B)), double_small by nia. unfold div_single. rewrite (proj2 (Z.eqb_neq v1 0)) by lia.
  pose proof (Z.mod_pos_bound (u0 * B + u1) v1 ltac:(lia)). rewrite single_small by lia. cbn [mbind option_bind].
  rewrite Hf. cbn [mbind option_bind]. eapply div_subtract_spec; done.
Qed.
End round.

(** ** Leading zeros *)

Lemma limb_app_zero l k i : limb (l ++ replicate k 0) i = limb l i.
Proof.
  unfold limb. destruct (decide (i < length l)%nat); [by rewrite lookup_app_l |].
  rewrite lookup_app_r, (lookup_ge_None_2 l) by lia. destruct (replicate k 0 !! _) as [x |] eqn:E; [| done].
  by apply lookup_replicate in E as [-> _].
Qed.

Lemma lval_app_zero l k : lval (l ++ replicate k 0) = lval l.
Proof.
  rewrite (pval_high_zero _ (length l)).
  - apply pval_ext. intros i _. apply limb_app_zero.
  - intros t Ht. rewrite limb_app_zero. by apply limb_ge.
Qed.

Lemma leading_zeros_limbs b b' k :
  digits b = replicate k 0 ++ digits b' ->
  limbs b = limbs b' ++ replicate k 0 /\ val b = val b' /\ (big_wf b -> big_wf b') /\ len b = (k + len b')%nat.
Proof.
  intros E. assert (El : limbs b = limbs b' ++ replicate k 0) by (unfold limbs; rewrite E, reverse_app, reverse_replicate; done).
  unfold val, big_wf, limbs_wf. rewrite El. split_and!; [done | apply lval_app_zero | by rewrite Forall_app; intros [? _] |].
  unfold len. by rewrite E, length_app, length_replicate.
Qed.

Lemma position_nonzero_spec l :
  match position_nonzero l with
  | Some i => exists x l', l = replicate i 0 ++ x :: l' /\ x <> 0
  | None => l = replicate (length l) 0
  end.
Proof.
  induction l as [| x l IH]; simpl; [done |]. destruct (Z.eqb_spec x 0) as [-> | Hne]; [| by exists x, l].
  destruct (position_nonzero l) as [i |]; simpl; [| by f_equal].
  destruct IH as (y & l' & -> & Hy). by exists y, l'.
Qed.

Lemma lstrip_spec b :
  (0 < len b)%nat ->
  exists k, digits b = replicate k 0 ++ digits (lstrip b) /\ (0 < len (lstrip b))%nat /\
    (len (lstrip b) = 1%nat \/ exists x l, digits (lstrip b) = x :: l /\ x <> 0).
Proof.
  intros Hl. unfold lstrip. rewrite (proj2 (Nat.eqb_neq _ _)) by lia. unfold len in *.
  pose proof (position_nonzero_spec (digits b)) as Hp. destruct (position_nonzero (digits b)) as [i |]; simpl default.
  - destruct Hp as (x & l & E & Hx). exists i. destruct (Nat.ltb_spec 0 i) as [Hi | Hi]; cbn [digits].
    + rewrite E, drop_app_length' by (by rewrite length_replicate). simpl. split_and!; [done | lia |]. right. eauto.
    + replace i with O in * by lia. simpl in *. split_and!; [done | lia |]. right. eauto.
  - remember (length (digits b)) as n eqn:En. exists (n - 1)%nat. destruct (Nat.ltb_spec 0 (n - 1)) as [Hi | Hi]; cbn [digits].
    + rewrite Hp, drop_replicate, <- replicate_add, length_replicate. split_and!; [f_equal; lia | lia | lia].
    + replace (n - 1)%nat with O by lia. simpl. split_and!; [done | lia | lia].
Qed.

Lemma lpad_id b size : (size <= len b)%nat -> lpad b size = b.
Proof. intros H. unfold lpad. by rewrite (proj2 (Nat.leb_le _ _)). Qed.

Lemma msb_limb b : (0 < len b)%nat -> msb b = Some (limb (limbs b) (len b - 1)).
Proof.
  intros Hl. rewrite <- get_limb by lia. unfold get, msb. rewrite (proj2 (Nat.ltb_lt _ _)) by lia. f_equal. lia.
Qed.

(** One leading zero, and no more. *)
Lemma lstrip_one b n :
  big_wf b -> len b = S n -> (1 <= n)%nat -> limb (limbs b) n = 0 -> limb (limbs b) (n - 1) <> 0 ->
  big_wf (lstrip b) /\ len (lstrip b) = n /\ val (lstrip b) = val b /\ limb (limbs (lstrip b)) (n - 1) = limb (limbs b) (n - 1).
Proof.
  intros Hb Hl Hn Hz Hnz. destruct (lstrip_spec b ltac:(lia)) as (k & E & Hpos & Hhead).
  destruct (leading_zeros_limbs _ _ _ E) as (El & Ev & Hw & Elen). set (b' := lstrip b) in *.
  rewrite El, limb_app_zero in Hz, Hnz |- *. assert (Hb' : (n - 1 < len b')%nat).
  { destruct (decide (n - 1 < len b')%nat); [done |]. by rewrite limb_ge in Hnz by (rewrite limbs_length; lia). }
  assert (Hk : k <> O); [| split_and!; (done || auto || lia)]. intros ->. destruct Hhead as [Hh | (x & l & Ex & Hx)]; [lia |].
  assert (Hlen : len b' = S n) by lia. pose proof (msb_limb b' Hpos) as Hm. unfold msb in Hm. rewrite Ex, Hlen in Hm.
  simpl in Hm. rewrite Nat.sub_0_r in Hm. congruence.
Qed.

(** ** Shifting the remainder back *)

Lemma lor_disjoint x y k : 0 <= k -> 0 <= x < 2 ^ k -> Z.lor x (y * 2 ^ k) = x + y * 2 ^ k.
Proof.
  intros Hk Hx. symmetry. apply Z.add_nocarry_lor. apply Z.bits_inj'. intros i Hi. rewrite Z.land_spec, Z.bits_0.
  rewrite <- Z.shiftl_mul_pow2 by done. destruct (Z.lt_ge_cases i k).
  - by rewrite Z.shiftl_spec_low, andb_false_r.
  - destruct (Z.eq_dec x 0) as [-> |]; [by rewrite Z.bits_0 |].
    rewrite (Z.bits_above_log2 x i); [done | lia |]. assert (Z.log2 x < k) by (apply Z.log2_lt_pow2; lia). lia.
Qed.

(** One limb of the shifted number. *)
Lemma shifted_limb x y nb :
  0 < nb < 32 -> 0 <= x < B -> 0 <= y < B ->
  let z := Z.lor (Z.shiftr x nb) (single (Z.shiftl y (SHIFT - nb))) in
  is_word 32 z /\ z * 2 ^ nb = x - x mod 2 ^ nb + (y mod 2 ^ nb) * B.
Proof.
  intros Hnb Hx Hy z. set (c := 2 ^ nb). set (e := 2 ^ (32 - nb)). change SHIFT with 32 in z.
  assert (Ee : B = c * e) by (unfold c, e; rewrite <- Z.pow_add_r, B_32 by lia; f_equal; lia).
  assert (Hc : 0 < c) by (apply Z.pow_pos_nonneg; lia). assert (He : 0 < e) by (apply Z.pow_pos_nonneg; lia).
  pose proof (Z.mod_pos_bound y c Hc). pose proof (Z.mod_pos_bound x c Hc). pose proof (Z.div_mod x c ltac:(lia)).
  assert (Hq : 0 <= x / c < e) by (split; [apply Z.div_pos; lia | apply Z.div_lt_upper_bound; lia]).
  assert (Ez : z = x / c + (y mod c) * e).
  { unfold z. rewrite Z.shiftr_div_pow2, Z.shiftl_mul_pow2 by lia. unfold single, wrap. rewrite <- B_32, Ee.
    fold c. fold e. rewrite Z.mul_mod_distr_r by lia. by apply lor_disjoint; [lia |]. }
  unfold is_word. rewrite <- B_32, Ez, Ee. nia.
Qed.

Lemma unnormalize_spec n nb s r0 :
  (1 <= n)%nat -> 0 < nb < 32 -> big_wf s -> (n <= len s)%nat -> big_wf r0 -> len r0 = n ->
  exists r, unnormalize n nb s r0 = Some r /\ big_wf r /\ len r = n /\
    val r * 2 ^ nb + limb (limbs s) 0 mod 2 ^ nb = pval (limbs s) n.
Proof.
  intros Hn Hnb Hs Hls Hr0 Hl0. unfold unnormalize. set (c := 2 ^ nb). assert (Hc : 0 < c) by (apply Z.pow_pos_nonneg; lia).
  match goal with |- context [for_from 0 (n - 1) ?g ?s0] =>
    destruct (for_from_inv (fun d r => big_wf r /\ len r = n /\
      pval (limbs r) d * c + limb (limbs s) 0 mod c = pval (limbs s) d + (limb (limbs s) d mod c) * B ^ Z.of_nat d)
      0 (n - 1) g s0) as (r & -> & Hr & Hl & Hv)
  end.
  - split_and!; [done | done |]. simpl. lia.
  - intros d r Hd (Hr & Hl & Hv). rewrite !get_limb by lia. cbn [mbind option_bind].
    pose proof (limb_bounds _ d Hs) as Hx. pose proof (limb_bounds _ (d + 1) Hs) as Hy.
    destruct (shifted_limb _ _ nb Hnb Hx Hy) as [Hz Ez]. fold c in Ez. revert Hz Ez. generalize (Z.lor (Z.shiftr (limb (limbs s) d) nb)
      (single (Z.shiftl (limb (limbs s) (d + 1)) (SHIFT - nb)))) as z. intros z Hz Ez.
    destruct (set_spec r d z ltac:(lia) Hr Hz) as (r1 & -> & Hr1 & Hl1 & Hlim & _). exists r1.
    split_and!; [done | done | lia |]. rewrite Hlim. cbn [pval]. rewrite pow_B_S.
    destruct (pval_set (limbs r) d z) as [-> ->]; [rewrite limbs_length; lia |].
    replace (S d) with (d + 1)%nat by lia. nia.
  - cbn [mbind option_bind]. rewrite get_limb by lia. cbn [mbind option_bind]. simpl in Hv.
    pose proof (limb_bounds _ (n - 1) Hs) as Hx. rewrite Z.shiftr_div_pow2 by lia. fold c. set (x := limb (limbs s) (n - 1)) in *.
    pose proof (Z.div_mod x c ltac:(lia)) as Ed.
    assert (Hz : is_word 32 (x / c)).
    { unfold is_word. rewrite <- B_32. split; [apply Z.div_pos; lia | apply Z.div_lt_upper_bound; nia]. }
    destruct (set_spec r (n - 1) (x / c) ltac:(lia) Hr Hz) as (r1 & -> & Hr1 & Hl1 & Hlim & _).
    exists r1. split_and!; [done | done | lia |]. rewrite <- (val_pval r1 n) by lia. rewrite Hlim.
    assert (Ep : forall l, pval l n = pval l (n - 1) + limb l (n - 1) * B ^ Z.of_nat (n - 1)).
    { intros l. replace n with (S (n - 1)) at 1 by lia. done. }
    rewrite !Ep.
    destruct (pval_set (limbs r) (n - 1) (x / c)) as [-> ->]; [rewrite limbs_length; lia |]. fold x. nia.
Qed.

(** ** The whole division *)

Lemma from_u32_spec x : 0 <= x < B -> big_wf (from_u32 x) /\ len (from_u32 x) = 1%nat /\ val (from_u32 x) = x.
Proof.
  intros Hx. change (limbs (from_u32 x)) with [x]. unfold big_wf, val. change (limbs (from_u32 x)) with [x]. split_and!; [| done |].
  - apply Forall_singleton. exact Hx.
  - unfold lval. simpl. unfold limb. simpl. lia.
Qed.

(** The normalised divisor. *)
Lemma normalised b n k :
  big_wf b -> len b = n -> (2 <= n)%nat -> 0 <= k < 32 -> B <= 2 * (limb (limbs b) (n - 1) * 2 ^ k) < 2 * B ->
  exists w, mul b (from_u32 (2 ^ k)) = Some w /\ val (lstrip w) = val b * 2 ^ k /\ big_wf (lstrip w) /\
    len (lstrip w) = n /\ B <= 2 * limb (limbs (lstrip w)) (n - 1).
Proof.
  intros Hb Hl Hn Hk Hmb. assert (Hc : 0 < 2 ^ k) by (apply Z.pow_pos_nonneg; lia).
  assert (Ec : B = 2 ^ k * 2 ^ (32 - k)) by (rewrite <- Z.pow_add_r, B_32 by lia; f_equal; lia).
  assert (He : 2 <= 2 ^ (32 - k)) by (change 2 with (2 ^ 1) at 1; apply Z.pow_le_mono_r; lia).
  destruct (from_u32_spec (2 ^ k) ltac:(nia)) as (Hw & Hlw & Evw).
  destruct (mul_spec b _ Hb Hw) as (w & -> & Hww & Hlen & Ev). exists w. split; [done |]. rewrite Evw in Ev.
  assert (Hsw : len w = S n) by lia. set (c := 2 ^ k) in *. set (e := 2 ^ (32 - k)) in *. set (mb := limb (limbs b) (n - 1)) in *.
  assert (EV : val b = pval (limbs b) (n - 1) + mb * B ^ Z.of_nat (n - 1)).
  { rewrite <- (val_pval b n) by lia. replace n with (S (n - 1)) at 1 by lia. done. }
  pose proof (pval_bounds (limbs b) (n - 1) Hb) as Hlow. set (K := B ^ Z.of_nat (n - 1)) in *.
  assert (EK : B ^ Z.of_nat n = B * K) by (replace n with (S (n - 1)) at 1 by lia; apply pow_B_S).
  assert (Hmbe : mb + 1 <= e) by nia.
  assert (Hup : val w < B ^ Z.of_nat n).
  { rewrite EK, Ev, EV, Ec. assert ((mb + 1) * K * c <= e * K * c); [| nia]. apply Z.mul_le_mono_nonneg_r; nia. }
  assert (Htop : limb (limbs w) n = 0) by (apply pval_top_zero; [done |]; rewrite val_pval by lia; done).
  assert (Epv : val w = pval (limbs w) (n - 1) + limb (limbs w) (n - 1) * K).
  { rewrite <- (val_pval w (S n)) by lia. cbn [pval]. rewrite Htop. replace n with (S (n - 1)) at 1 by lia. cbn [pval]. unfold K. lia. }
  pose proof (pval_bounds (limbs w) (n - 1) Hww) as Hwl. fold K in Hwl. pose proof (limb_bounds (limbs w) (n - 1) Hww) as Hwt.
  set (wt := limb (limbs w) (n - 1)) in *. assert (EB : B = 2 * 2 ^ 31) by done.
  assert (Hwt' : 2 ^ 31 <= wt).
  { assert (2 ^ 31 * K < (wt + 1) * K); [| nia]. assert (2 ^ 31 * K <= mb * c * K) by (apply Z.mul_le_mono_nonneg_r; lia). nia. }
  destruct (lstrip_one w n Hww Hsw ltac:(lia) Htop) as (H1 & H2 & H3 & H4); [fold wt; lia |].
  fold wt in H4. split_and!; [lia | done | done | lia].
Qed.

(** The shape of operands that [div] accepts. *)
Definition div_rejects (a b : BigUint) : bool :=
  (len b <=? 1)%nat || (limb (limbs b) (len b - 1) =? 0) || (limb (limbs a) (len a - 1) =? 0) || (len a <=? len b)%nat.

(** [r] comes from the rest [w] of the last round. *)
Lemma div_remainder n m v w q nb (V A : Z) (rem : bool) :
  (2 <= n)%nat -> len v = n -> big_wf v -> B <= 2 * limb (limbs v) (n - 1) -> 0 <= nb < 32 -> 0 < V -> val v = V * 2 ^ nb ->
  div_inv n v m (A * 2 ^ nb) 0 (w, q) ->
  val q = A / V /\
  exists r, (if rem then
      r ← (if 0 <? nb then unnormalize n nb w (with_capacity n) else Some w); Some (Some (q, r))
    else Some (Some (q, with_capacity n))) = Some (Some (q, r)) /\
    big_wf r /\ val r = if rem then A mod V else 0.
Proof.
  intros Hn Hlv Hv Htop Hnb HV Ev (Hw & Hlw & Hq & Hlq & Hz & _ & Hlt & Htot). rewrite Nat.add_0_r in Hz.
  assert (Hc : 0 < 2 ^ nb) by (apply Z.pow_pos_nonneg; lia). set (c := 2 ^ nb) in *. rewrite Z.mul_1_r in Hlt.
  pose proof (lval_bounds (limbs w) Hw) as Hpos. fold (val w) in Hpos.
  assert (Hdiv : exists R, val w = R * c /\ 0 <= R < V /\ A = V * val q + R).
  { exists (A - V * val q). rewrite Ev in *. assert (val w = (A - V * val q) * c) by nia. split_and!; [done | nia | nia | lia]. }
  destruct Hdiv as (R & Ew & HR & EA).
  assert (Eq : val q = A / V) by (apply Z.div_unique with R; [lia | done]).
  assert (Er : R = A mod V) by (apply Z.mod_unique with (val q); [lia | done]). split; [done |].
  destruct rem; [| exists (with_capacity n); split_and!; [done | apply with_capacity_wf | apply val_with_capacity]].
  destruct (Z.ltb_spec 0 nb) as [Hpn | Hzn].
  - destruct (with_capacity_wf n) as [Hwc Hlc].
    destruct (unnormalize_spec n nb w (with_capacity n) ltac:(lia) ltac:(lia) Hw ltac:(lia) Hwc ltac:(lia)) as (r & -> & Hr & Hlr & Evr).
    exists r. split_and!; [done | done |]. fold c in Evr. rewrite <- (pval_high_zero _ n Hz) in Evr. fold (val w) in Evr.
    pose proof (Z.mod_pos_bound (limb (limbs w) 0) c Hc). rewrite <- Er, Ew in *. nia.
  - exists w. split_and!; [done | done |]. assert (c = 1) by (unfold c; replace nb with 0 by lia; done). nia.
Qed.

(** C24. Long division: [BigUint::div] never takes an index out of range, refuses exactly the operands
    outside its preconditions, and otherwise returns the quotient of the two values, one limb longer than
    the difference in length, with the remainder when asked for. *)
Theorem biguint_div_exact a b rem :
  big_wf a -> big_wf b -> (0 < len a)%nat ->
  if div_rejects a b then div a b rem = Some None
  else exists q r, div a b rem = Some (Some (q, r)) /\
    big_wf q /\ len q = (len a - len b + 1)%nat /\ val q = val a / val b /\
    big_wf r /\ val r = if rem then val a mod val b else 0.
Proof.
  intros Ha Hb Hla. unfold div_rejects, div. destruct (Nat.leb_spec (len b) 1) as [| Hn]; [done |].
  rewrite (msb_limb b), (msb_limb a) by lia. cbn [mbind option_bind orb]. pose proof (limb_bounds _ (len b - 1) Hb) as Hmb.
  set (mb := limb (limbs b) (len b - 1)) in *. destruct (Z.eqb_spec mb 0) as [| Hmb0]; [done |]. cbn [orb].
  destruct (Z.eqb_spec (limb (limbs a) (len a - 1)) 0) as [| Hma]; [done |]. cbn [orb].
  destruct (Nat.leb_spec (len a) (len b)) as [| Hab]; [done |].
  set (n := len b) in *. set (m := (len a - n)%nat). destruct (leading_zeros_spec 32 mb) as [Hk Hkb]; [rewrite <- B_32; lia |].
  set (k := leading_zeros 32 mb) in *. assert (EB : B = 2 * 2 ^ 31) by done. change (32 - 1) with 31 in Hkb. rewrite <- B_32 in Hkb.
  assert (Hpk : 0 < 2 ^ k) by (apply Z.pow_pos_nonneg; lia).
  rewrite (single_small (2 ^ k)) by nia. destruct (from_u32_spec (2 ^ k) ltac:(nia)) as (Hwc & Hlc & Evc).
  destruct (mul_spec a _ Ha Hwc) as (w & -> & Hw & Hlw & Evw). cbn [mbind option_bind]. rewrite Evc in Evw.
  destruct (normalised b n k Hb eq_refl ltac:(lia) Hk ltac:(fold mb; lia)) as (v0 & -> & Ev & Hv & Hlv & Htop). cbn [mbind option_bind].
  set (v := lstrip v0) in *. rewrite lpad_id by lia. destruct (with_capacity_wf (m + 1)) as [Hq0 Hlq0].
  pose proof (divisor_large n v ltac:(lia) Hv Hlv Htop) as Hbig. pose proof (pow_B_pos n).
  destruct (for_down_inv (div_inv n v m (val a * 2 ^ k)) (m + 1) (div_step n v) (w, with_capacity (m + 1))) as ([w' q] & -> & Hinv).
  - split_and!; [done | lia | done | lia | | | | by rewrite val_with_capacity, Evw, Z.add_0_r].
    + intros t Ht. apply limb_ge. rewrite limbs_length. lia.
    + intros i _. rewrite with_capacity_limbs. unfold limb. destruct (_ !! i) as [x |] eqn:E; [| done]. by apply lookup_replicate in E as [-> _].
    + pose proof (lval_bounds (limbs a) Ha) as Hab'. fold (val a) in Hab'. rewrite limbs_length in Hab'.
      replace (len a) with (n + m)%nat in Hab' by lia. rewrite pow_B_add in Hab'. replace (m + 1)%nat with (S m) by lia.
      rewrite pow_B_S, Evw. pose proof (pow_B_pos m). set (P := B ^ Z.of_nat m) in *. set (N := B ^ Z.of_nat n) in *.
      assert (2 ^ k <= 2 ^ 31) by (apply Z.pow_le_mono_r; lia). assert (val a * 2 ^ k < N * P * 2 ^ 31) by nia.
      assert (N * (B * P) <= 2 * val v * (B * P)) by (apply Z.mul_le_mono_nonneg_r; nia). nia.
  - intros j s Hj Hs. apply (div_step_spec n v ltac:(lia) Hv Hlv Htop m); [lia | done].
  - cbn [mbind option_bind]. assert (HV : 0 < val b) by nia.
    destruct (div_remainder n m v w' q k (val b) (val a) rem ltac:(lia) Hlv Hv Htop Hk HV Ev Hinv) as (Eq & r & -> & Hr & Evr).
    destruct Hinv as (_ & _ & Hq & Hlq & _). exists q, r. by split_and!.
Qed.

(** A dividend with a digit that is estimated one too large. *)
Definition add_back_dividend : BigUint := from_limbs [2147483647; 2147483648; 0; 0].
Definition add_back_divisor : BigUint := from_limbs [2147483648; 0; 1].

Lemma biguint_div_exact_witness :
  exists q r, div add_back_dividend add_back_divisor true = Some (Some (q, r)) /\
    val q = val add_back_dividend / val add_back_divisor /\ val r = val add_back_dividend mod val add_back_divisor.
Proof.
  assert (Ha : big_wf add_back_dividend) by (apply Forall_reverse; by repeat apply Forall_cons_2).
  assert (Hb : big_wf add_back_divisor) by (apply Forall_reverse; by repeat apply Forall_cons_2).
  pose proof (biguint_div_exact add_back_dividend add_back_divisor true Ha Hb ltac:(by apply Nat.ltb_lt)) as H.
  change (div_rejects add_back_dividend add_back_divisor) with false in H. cbn beta iota in H.
  destruct H as (q & r & H1 & _ & _ & H2 & _ & H3). exists q, r. by split_and!.
Defined.

(** * Big unsigned integers as numbers

    Comparison, the conversions from and to machine integers, and the arithmetic of [BigUint] put
    together. *)

(** ** Comparison *)

Lemma lval_snoc l x : lval (l ++ [x]) = lval l + x * B ^ Z.of_nat (length l).
Proof.
  unfold lval. rewrite length_app. replace (length l + length [x])%nat with (S (length l)) by (simpl; lia). cbn [pval].
  f_equal; [apply pval_ext; intros i Hi; unfold limb; by rewrite lookup_app_l |].
  unfold limb. by rewrite list_lookup_middle.
Qed.

Lemma lval_reverse_cons x l : lval (reverse (x :: l)) = lval (reverse l) + x * B ^ Z.of_nat (length l).
Proof. by rewrite reverse_cons, lval_snoc, length_reverse. Qed.

Lemma limbs_wf_reverse l : limbs_wf l -> 0 <= lval (reverse l) < B ^ Z.of_nat (length l).
Proof. intros Hl. rewrite <- (length_reverse l). apply lval_bounds. by apply Forall_reverse. Qed.

Lemma lex_cmp_spec l1 l2 :
  length l1 = length l2 -> limbs_wf l1 -> limbs_wf l2 -> lex_cmp l1 l2 = (lval (reverse l1) ?= lval (reverse l2)).
Proof.
  revert l2. induction l1 as [| x l1 IH]; intros [| y l2] Hl H1 H2; try done. simpl. injection Hl as Hl.
  apply Forall_cons_1 in H1 as [Hx H1], H2 as [Hy H2]. rewrite !lval_reverse_cons, IH, Hl by done.
  pose proof (limbs_wf_reverse l1 H1) as B1. pose proof (limbs_wf_reverse l2 H2) as B2. rewrite Hl in B1.
  set (P := B ^ Z.of_nat (length l2)) in *. symmetry. destruct (Z.compare_spec x y) as [-> | Hlt | Hgt].
  - destruct (Z.compare_spec (lval (reverse l1)) (lval (reverse l2))); [apply Z.compare_eq_iff | apply Z.compare_lt_iff | apply Z.compare_gt_iff]; lia.
  - apply Z.compare_lt_iff. nia.
  - apply Z.compare_gt_iff. nia.
Qed.

(** A number by its first limb that is not zero. *)
Lemma significant b :
  big_wf b ->
  match position_nonzero (digits b) with
  | None => val b = 0
  | Some i => let l := drop i (digits b) in
      limbs_wf l /\ val b = lval (reverse l) /\ (0 < length l)%nat /\ B ^ Z.of_nat (length l - 1) <= val b < B ^ Z.of_nat (length l)
  end.
Proof.
  intros Hb. assert (Hd : limbs_wf (digits b)) by (unfold big_wf, limbs in Hb; unfold limbs_wf in *; by rewrite Forall_reverse in Hb).
  pose proof (position_nonzero_spec (digits b)) as Hp. destruct (position_nonzero (digits b)) as [i |].
  - destruct Hp as (x & l & E & Hx). rewrite E in *. rewrite drop_app_length' by (by rewrite length_replicate).
    apply Forall_app in Hd as [_ Hd]. cbv zeta. assert (Ev : val b = lval (reverse (x :: l))).
    { unfold val, limbs. rewrite E, reverse_app, reverse_replicate. apply lval_app_zero. }
    pose proof (limbs_wf_reverse _ Hd) as Hbnd. split_and!; [done | done | simpl; lia | | lia].
    rewrite Ev, lval_reverse_cons. apply Forall_cons_1 in Hd as [[Hx0 _] Hd]. pose proof (limbs_wf_reverse _ Hd).
    simpl length. rewrite Nat.sub_succ, Nat.sub_0_r. pose proof (pow_B_pos (length l)). nia.
  - unfold val, limbs. rewrite Hp, reverse_replicate. apply pval_replicate.
Qed.

Lemma pow_B_mono i j : (i <= j)%nat -> B ^ Z.of_nat i <= B ^ Z.of_nat j.
Proof. intros H. apply Z.pow_le_mono_r; [done | lia]. Qed.

Lemma cmp_spec a b : big_wf a -> big_wf b -> cmp a b = (val a ?= val b).
Proof.
  intros Ha Hb. unfold cmp. pose proof (significant a Ha) as Sa. pose proof (significant b Hb) as Sb. symmetry.
  destruct (position_nonzero (digits a)) as [i |], (position_nonzero (digits b)) as [j |]; cbv zeta in *.
  - destruct Sa as (Wa & Ea & La & Ba), Sb as (Wb & Eb & Lb & Bb).
    set (la := drop i (digits a)) in *. set (lb := drop j (digits b)) in *.
    destruct (Nat.compare_spec (length la) (length lb)) as [E | E | E].
    + by rewrite lex_cmp_spec, <- Ea, <- Eb.
    + apply Z.compare_lt_iff. pose proof (pow_B_mono (length la) (length lb - 1) ltac:(lia)). lia.
    + apply Z.compare_gt_iff. pose proof (pow_B_mono (length lb) (length la - 1) ltac:(lia)). lia.
  - destruct Sa as (Wa & Ea & La & Ba). rewrite Sb. apply Z.compare_gt_iff. pose proof (pow_B_pos (length (drop i (digits a)) - 1)). lia.
  - destruct Sb as (Wb & Eb & Lb & Bb). rewrite Sa. apply Z.compare_lt_iff. pose proof (pow_B_pos (length (drop j (digits b)) - 1)). lia.
  - rewrite Sa, Sb. done.
Qed.

Lemma is_zero_spec b : big_wf b -> is_zero b = (val b =? 0).
Proof.
  intros Hb. unfold is_zero. pose proof (significant b Hb) as Sb. pose proof (position_nonzero_spec (digits b)) as Hp.
  destruct (position_nonzero (digits b)) as [i |]; cbv zeta in Sb.
  - destruct Sb as (_ & _ & _ & Bb). pose proof (pow_B_pos (length (drop i (digits b)) - 1)). rewrite (proj2 (Z.eqb_neq (val b) 0)) by lia.
    destruct Hp as (x & l & -> & Hx). rewrite forallb_app. simpl. rewrite (proj2 (Z.eqb_neq x 0)) by done. apply andb_false_r.
  - rewrite Sb, Hp. generalize (length (digits b)) as n. induction n; [done |]. by simpl.
Qed.

(** ** Conversions *)

Lemma lval_cons x l : lval (x :: l) = x + B * lval l.
Proof.
  unfold lval. simpl length. change (S (length l)) with (1 + length l)%nat. rewrite pval_split. cbn [pval].
  change (drop 1 (x :: l)) with (drop 0 l). rewrite drop_0. unfold limb. simpl. lia.
Qed.

Lemma sum_digits w l k acc :
  0 <= w -> limbs_wf l -> 0 <= acc -> acc + lval l * B ^ Z.of_nat k < 2 ^ w ->
  fold_left (fun acc '(i, d) => wrap w (acc + wrap w (Z.shiftl d (SHIFT * Z.of_nat i))))
    (imap (fun i d => ((k + i)%nat, d)) l) acc = acc + lval l * B ^ Z.of_nat k.
Proof.
  intros Hw. revert k acc. induction l as [| d l IH]; intros k acc Hl Ha Hb; [simpl; unfold lval; simpl; lia |].
  apply Forall_cons_1 in Hl as [[Hd0 Hd1] Hl]. rewrite lval_cons in *. rewrite imap_cons. simpl fold_left.
  pose proof (lval_bounds l Hl) as Hv. pose proof (pow_B_pos k). rewrite Nat.add_0_r, Z.shiftl_mul_pow2 by (unfold SHIFT; lia).
  assert (EP : 2 ^ (SHIFT * Z.of_nat k) = B ^ Z.of_nat k) by (rewrite Z.pow_mul_r by (unfold SHIFT; lia); done). rewrite EP.
  assert (0 <= B * lval l * B ^ Z.of_nat k) by (apply Z.mul_nonneg_nonneg; [apply Z.mul_nonneg_nonneg; [done | lia] | lia]).
  rewrite (wrap_small w (d * _)), wrap_small by (split; nia).
  assert (EI : imap ((fun i (d : Z) => ((k + i)%nat, d)) ∘ S) l = imap (fun i d => ((S k + i)%nat, d)) l).
  { apply imap_ext. intros i x _. simpl. f_equal. lia. }
  rewrite EI, IH; [rewrite pow_B_S; ring | done | nia | rewrite pow_B_S; nia].
Qed.

Lemma pow_B_width k : B ^ Z.of_nat k = 2 ^ (SHIFT * Z.of_nat k).
Proof. rewrite Z.pow_mul_r by (unfold SHIFT; lia). done. Qed.

Lemma try_from_big_spec k b :
  (0 < k)%nat -> big_wf b -> (0 < len b)%nat ->
  let w := SHIFT * Z.of_nat k in
  try_from_big w b = if val b <? 2 ^ w then Some (val b) else None.
Proof.
  intros Hk Hb Hl w. unfold try_from_big. destruct (lstrip_spec b Hl) as (z & E & Hpos & Hhead).
  destruct (leading_zeros_limbs _ _ _ E) as (_ & Ev & Hw & _). specialize (Hw Hb). set (b' := lstrip b) in *. rewrite Ev.
  pose proof (lval_bounds _ Hw) as Hbnd. fold (val b') in Hbnd. rewrite limbs_length in Hbnd. unfold w. rewrite <- pow_B_width.
  destruct (Z.ltb_spec (SHIFT * Z.of_nat k) (Z.of_nat (len b') * SHIFT)) as [Hlt | Hge]; unfold SHIFT in *.
  - destruct Hhead as [H1 | (x & l & Ex & Hx)]; [lia |]. pose proof (significant b' Hw) as Hs. rewrite Ex in Hs. simpl in Hs.
    rewrite (proj2 (Z.eqb_neq x 0)) in Hs by done. cbn [drop] in Hs. destruct Hs as (_ & _ & _ & Hs & _). unfold len in Hlt.
    rewrite Ex in Hlt. pose proof (pow_B_mono k (length (x :: l) - 1) ltac:(lia)).
    rewrite (proj2 (Z.ltb_ge _ _)); [done | lia].
  - pose proof (pow_B_mono (len b') k ltac:(lia)). rewrite (proj2 (Z.ltb_lt _ _)) by lia. f_equal.
    pose proof (sum_digits (32 * Z.of_nat k) (limbs b') 0 0) as Hs. change (32 * Z.of_nat k) with (SHIFT * Z.of_nat k) in *.
    rewrite <- pow_B_width in Hs. fold (val b') in Hs. rewrite Z.add_0_l, Z.mul_1_r in Hs. apply Hs; (done || lia || (unfold SHIFT; lia)).
Qed.

Lemma split_double_value x : 0 <= x < 2 ^ 64 ->
  let '(h, l) := split_double x in is_word 32 h /\ is_word 32 l /\ x = h * B + l.
Proof.
  intros Hx. unfold split_double, single. split_and!; try (by apply wrap_word). rewrite Z.shiftr_div_pow2 by done.
  change (2 ^ SHIFT) with B. rewrite (wrap_small 32 (x / B)).
  - unfold wrap. rewrite <- B_32. rewrite Z.mul_comm. apply Z.div_mod. done.
  - unfold is_word. rewrite <- B_32. split; [apply Z.div_pos; [lia | done] | apply Z.div_lt_upper_bound; [done |]]. exact (proj2 Hx).
Qed.

Lemma to_big_uint_spec x :
  is_word 128 x -> big_wf (to_big_uint x) /\ (0 < len (to_big_uint x))%nat /\ val (to_big_uint x) = x.
Proof.
  intros [Hx0 Hx1]. unfold to_big_uint, split_u128. rewrite Z.shiftr_div_pow2 by done.
  assert (Hh : 0 <= x / 2 ^ 64 < 2 ^ 64) by (split; [by apply Z.div_pos | by apply Z.div_lt_upper_bound]).
  rewrite (wrap_small 64 (x / 2 ^ 64)) by done. pose proof (wrap_word 64 x ltac:(done)) as Hl.
  pose proof (split_double_value (x / 2 ^ 64) Hh) as S1. pose proof (split_double_value (wrap 64 x) Hl) as S2.
  destruct (split_double (x / 2 ^ 64)) as [hh hl], (split_double (wrap 64 x)) as [lh ll].
  destruct S1 as (W1 & W2 & E1), S2 as (W3 & W4 & E2). set (b := from_limbs [hh; hl; lh; ll]).
  destruct (lstrip_spec b) as (z & E & Hpos & _); [by apply Nat.ltb_lt |].
  destruct (leading_zeros_limbs _ _ _ E) as (_ & Ev & Hw & _).
  assert (Hb : big_wf b) by (unfold big_wf; change (limbs b) with [ll; lh; hl; hh]; by repeat apply Forall_cons_2).
  split_and!; [by apply Hw | done |]. rewrite <- Ev. unfold val. change (limbs b) with [ll; lh; hl; hh]. rewrite !lval_cons.
  change (lval []) with 0. unfold wrap in E2. pose proof (Z.div_mod x (2 ^ 64) ltac:(done)). change (2 ^ 64) with (B * B) in *. nia.
Qed.

(** Limb arithmetic is arithmetic: on numbers of any length [add], [sub], [mul] and [div_unit] take no
    index out of range and give the sum, the difference (or, marked as an error, the difference wrapped at
    the longer operand), the product and the quotient by a limb; [cmp] and [is_zero] read the values. *)
Theorem biguint_ops_exact a b d :
  big_wf a -> big_wf b -> is_word 32 d ->
  (exists w, add a b = Some w /\ big_wf w /\ val w = val a + val b) /\
  (exists w, sub a b = Some (if val b <=? val a then inl w else inr w) /\ big_wf w /\
    val w = if val b <=? val a then val a - val b else val a - val b + B ^ Z.of_nat (Nat.max (len a) (len b))) /\
  (exists w, mul a b = Some w /\ big_wf w /\ val w = val a * val b) /\
  (exists w, div_unit a d = Some w /\ big_wf w /\ val w = val a / Z.max d 1) /\
  cmp a b = (val a ?= val b) /\ is_zero a = (val a =? 0).
Proof.
  intros Ha Hb Hd. split_and!; [| | | | by apply cmp_spec | by apply is_zero_spec].
  - destruct (big_add_spec a b Ha Hb) as (w & ? & ? & _ & ?). eauto.
  - destruct (sub_spec a b Ha Hb) as (r & w & -> & Hw & _ & Hc). exists w. destruct (val b <=? val a), Hc as [-> ?]; done.
  - destruct (mul_spec a b Ha Hb) as (w & ? & ? & _ & ?). eauto.
  - destruct (div_unit_spec a d Ha Hd) as (w & ? & ? & _ & ?). eauto.
Qed.

Lemma biguint_ops_exact_witness :
  exists w, mul (to_big_uint (2 ^ 100)) (to_big_uint (2 ^ 90 + 7)) = Some w /\ val w = 2 ^ 100 * (2 ^ 90 + 7).
Proof.
  destruct (to_big_uint_spec (2 ^ 100)) as (H1 & _ & E1); [done |]. destruct (to_big_uint_spec (2 ^ 90 + 7)) as (H2 & _ & E2); [done |].
  destruct (biguint_ops_exact _ _ 0 H1 H2 ltac:(done)) as (_ & _ & (w & Hw & _ & Ev) & _). exists w. rewrite Ev, E1, E2. by split.
Defined.

(** Integers survive the trip through limbs: [to_big_uint] represents every [u128] without leading
    zeros lost, and converting back gives the integer for [u128], and for [u64] exactly when it fits. *)
Theorem biguint_roundtrip x :
  is_word 128 x ->
  val (to_big_uint x) = x /\ try_from_big 128 (to_big_uint x) = Some x /\
  try_from_big 64 (to_big_uint x) = (if x <? 2 ^ 64 then Some x else None).
Proof.
  intros Hx. destruct (to_big_uint_spec x Hx) as (Hw & Hl & Ev). split_and!; [done | |].
  - change 128 with (SHIFT * Z.of_nat 4). rewrite try_from_big_spec, Ev by (done || lia).
    change (SHIFT * Z.of_nat 4) with 128. by rewrite (proj2 (Z.ltb_lt _ _)) by apply Hx.
  - change 64 with (SHIFT * Z.of_nat 2) at 1. rewrite try_from_big_spec, Ev by (done || lia). done.
Qed.

Lemma biguint_roundtrip_witness : try_from_big 64 (to_big_uint (2 ^ 70)) = None.
Proof. destruct (biguint_roundtrip (2 ^ 70) ltac:(done)) as (_ & _ & ->). done. Defined.
