(* ===== verification/Rational.v ===== *)
(** * Rational numbers

    [src/substrate/primitives/arithmetic/src/rational.rs]: fractions of two [u128] ([Rational128]), fractions of
    two big integers ([RationalInfinite]) and [MultiplyRational] at every width.  [None] at the outside is a
    panic. *)

From stdpp Require Import base tactics numbers list option strings.
From S2P Require Import Prelude Words Helpers128 BigUint.
Local Open Scope Z_scope.

(** ** [RationalInfinite] *)

Record RationalInfinite := RI { inf_n : BigUint; inf_d : BigUint }.

Definition big_eq (a b : BigUint) : bool := match cmp a b with Eq => true | _ => false end.

(** [Ord::max] *)
Definition big_max (a b : BigUint) : BigUint := match cmp b a with Lt => a | _ => b end.

Definition inf_from (n d : BigUint) : RationalInfinite := RI n (big_max d big_one).

Definition inf_zero : RationalInfinite := RI big_zero big_one.
Definition inf_one : RationalInfinite := RI big_one big_one.

Definition inf_cmp (self other : RationalInfinite) : option comparison :=
  if big_eq (inf_d self) (inf_d other) then Some (cmp (inf_n self) (inf_n other))
  else if is_zero (inf_d self) then Some Gt
  else if is_zero (inf_d other) then Some Lt
  else
    l ← mul (inf_n self) (inf_d other);
    r ← mul (inf_n other) (inf_d self);
    Some (cmp l r).

Definition inf_eq (self other : RationalInfinite) : option bool :=
  c ← inf_cmp self other; Some (match c with Eq => true | _ => false end).

(** ** [Rational128] *)

Record Rational128 := R128 { rat_n : Z; rat_d : Z }.

Definition rat_zero : Rational128 := R128 0 1.
Definition rat_one : Rational128 := R128 1 1.
Definition rat_is_zero (self : Rational128) : bool := rat_n self =? 0.

Definition rat_from (n d : Z) : Rational128 := R128 n (Z.max d 1).
Definition from_unchecked (n d : Z) : Rational128 := R128 n d.

(** [From<Rational128> for RationalInfinite]: the limbs of a [u128] by [into]. *)
Definition inf_from_rat (t : Rational128) : RationalInfinite := RI (to_big_uint (rat_n t)) (to_big_uint (rat_d t)).

Definition to_den (self : Rational128) (den : Z) : option (option Rational128) :=
  if den =? rat_d self then Some (Some self)
  else
    o ← multiply_by_rational_with_rounding (rat_n self) den (rat_d self) NearestPrefDown;
    Some (match o with Some n => Some (R128 n den) | None => None end).

Definition lcm (self other : Rational128) : option (option Z) :=
  if rat_d self =? rat_d other then Some (Some (rat_d self))
  else
    g ← gcd (rat_d self) (rat_d other);
    multiply_by_rational_with_rounding (rat_d self) (rat_d other) g NearestPrefDown.

Definition lazy_saturating_add (self other : Rational128) : Rational128 :=
  if rat_is_zero other then self else R128 (word_saturating_add 128 (rat_n self) (rat_n other)) (rat_d self).

Definition lazy_saturating_sub (self other : Rational128) : Rational128 :=
  if rat_is_zero other then self else R128 (saturating_sub (rat_n self) (rat_n other)) (rat_d self).

Definition failed_to_scale : string := "failed to scale to denominator".

(** The common part of [checked_add] and [checked_sub]: [op] on the scaled numerators. *)
Definition combine (op : Z -> Z -> option Z) (overflow : string) (self other : Rational128) :
    option (Rational128 + string) :=
  l ← lcm self other;
  match l with
  | None => Some (inr failed_to_scale)
  | Some l =>
    self_scaled ← to_den self l;
    match self_scaled with
    | None => Some (inr failed_to_scale)
    | Some self_scaled =>
      other_scaled ← to_den other l;
      match other_scaled with
      | None => Some (inr failed_to_scale)
      | Some other_scaled =>
        match op (rat_n self_scaled) (rat_n other_scaled) with
        | None => Some (inr overflow)
        | Some n => Some (inl (R128 n (rat_d self_scaled)))
        end
      end
    end
  end.

Definition rat_checked_add : Rational128 -> Rational128 -> option (Rational128 + string) :=
  combine (word_checked_add 128) "overflow while adding numerators".

Definition rat_checked_sub : Rational128 -> Rational128 -> option (Rational128 + string) :=
  combine word_checked_sub "overflow while subtracting numerators".

Definition rat_cmp (self other : Rational128) : option comparison :=
  if rat_d self =? rat_d other then Some (rat_n self ?= rat_n other)
  else if rat_d self =? 0 then Some Gt
  else if rat_d other =? 0 then Some Lt
  else
    self_n ← mul (to_big_uint (rat_n self)) (to_big_uint (rat_d other));
    other_n ← mul (to_big_uint (rat_n other)) (to_big_uint (rat_d self));
    Some (cmp self_n other_n).

Definition rat_eq (self other : Rational128) : option bool :=
  if rat_d self =? rat_d other then Some (rat_n self =? rat_n other)
  else
    self_n ← mul (to_big_uint (rat_n self)) (to_big_uint (rat_d other));
    other_n ← mul (to_big_uint (rat_n other)) (to_big_uint (rat_d self));
    Some (big_eq self_n other_n).

(** ** [MultiplyRational] *)

(** [impl_rrm!] for a type of [w] bits, computing in [2 * w] bits. *)
Definition impl_rrm (w self n d : Z) (r : Rounding) : option Z :=
  if d =? 0 then None else
  let sn := wrap (2 * w) (self * n) in
  let result := sn / d in
  let remainder := wrap w (sn mod d) in
  result ← (if rounds_up r remainder d then word_checked_add (2 * w) result 1 else Some result);
  if 2 ^ w - 1 <? result then None else Some (wrap w result).

(** The instances: [u8] to [u64] by the macro, [u128] by the helper. *)
Definition multiply_rational (w self n d : Z) (r : Rounding) : option (option Z) :=
  if w =? 128 then multiply_by_rational_with_rounding self n d r else Some (impl_rrm w self n d r).
