(* ===== verification/RationalFacts.v ===== *)
(** * Rational numbers are exact

    Comparison by cross products, addition over the least common denominator, and multiplication by a
    fraction at every width. *)

From stdpp Require Import base tactics numbers list option strings.
From S2P Require Import Prelude Words Helpers128 Helpers128Facts BigUint BigUintFacts KnuthFacts Rational.
Local Open Scope Z_scope.

Definition rat_wf (a : Rational128) : Prop := is_word 128 (rat_n a) /\ is_word 128 (rat_d a).

(** ** Comparison *)

Lemma big_eq_spec a b : big_wf a -> big_wf b -> big_eq a b = (val a =? val b).
Proof.
  intros Ha Hb. unfold big_eq. rewrite cmp_spec by done.
  destruct (Z.compare_spec (val a) (val b)), (Z.eqb_spec (val a) (val b)); (done || lia).
Qed.

(** Products of four integers, compared. *)
Lemma cross_cmp a b c d :
  is_word 128 a -> is_word 128 b -> is_word 128 c -> is_word 128 d ->
  exists x y, mul (to_big_uint a) (to_big_uint b) = Some x /\ mul (to_big_uint c) (to_big_uint d) = Some y /\
    cmp x y = (a * b ?= c * d) /\ big_eq x y = (a * b =? c * d).
Proof.
  intros Ha Hb Hc Hd. destruct (to_big_uint_spec a Ha) as (Wa & _ & Ea), (to_big_uint_spec b Hb) as (Wb & _ & Eb).
  destruct (to_big_uint_spec c Hc) as (Wc & _ & Ec), (to_big_uint_spec d Hd) as (Wd & _ & Ed).
  destruct (mul_spec _ _ Wa Wb) as (x & Ex & Wx & _ & Vx). destruct (mul_spec _ _ Wc Wd) as (y & Ey & Wy & _ & Vy).
  exists x, y. rewrite cmp_spec, big_eq_spec, Vx, Vy, Ea, Eb, Ec, Ed by done. done.
Qed.

Lemma compare_scale a b d : 0 < d -> (a * d ?= b * d) = (a ?= b).
Proof. intros Hd. symmetry. apply Zmult_compare_compat_r. lia. Qed.

(** Fractions compare as numbers: [Rational128]'s order never panics and, for denominators that are not
    zero, is the order of the cross products, with equality as its [Equal]; a zero denominator alone is the
    largest.  [RationalInfinite] orders the same fraction in the same way. *)
Theorem rational_order_exact a b :
  rat_wf a -> rat_wf b ->
  rat_cmp a b = Some (if rat_d a =? rat_d b then rat_n a ?= rat_n b
                      else if rat_d a =? 0 then Gt else if rat_d b =? 0 then Lt
                      else rat_n a * rat_d b ?= rat_n b * rat_d a) /\
  inf_cmp (inf_from_rat a) (inf_from_rat b) = rat_cmp a b /\
  (rat_d a <> 0 -> rat_d b <> 0 ->
    rat_cmp a b = Some (rat_n a * rat_d b ?= rat_n b * rat_d a) /\
    rat_eq a b = Some (match rat_n a * rat_d b ?= rat_n b * rat_d a with Eq => true | _ => false end)).
Proof.
  intros [Han Had] [Hbn Hbd].
  destruct (cross_cmp (rat_n a) (rat_d b) (rat_n b) (rat_d a) Han Hbd Hbn Had) as (x & y & Ex & Ey & Ec & Ee).
  destruct (to_big_uint_spec _ Han) as (Wan & _ & Ean), (to_big_uint_spec _ Had) as (Wad & _ & Ead).
  destruct (to_big_uint_spec _ Hbn) as (Wbn & _ & Ebn), (to_big_uint_spec _ Hbd) as (Wbd & _ & Ebd).
  assert (E1 : rat_cmp a b = Some (if rat_d a =? rat_d b then rat_n a ?= rat_n b
    else if rat_d a =? 0 then Gt else if rat_d b =? 0 then Lt else rat_n a * rat_d b ?= rat_n b * rat_d a)).
  { unfold rat_cmp. rewrite Ex. cbn [mbind option_bind]. rewrite Ey. cbn [mbind option_bind]. rewrite Ec.
    by destruct (rat_d a =? rat_d b), (rat_d a =? 0), (rat_d b =? 0). }
  split_and!; [done | |].
  - rewrite E1. unfold inf_cmp, inf_from_rat. cbn [inf_n inf_d]. rewrite Ex. cbn [mbind option_bind]. rewrite Ey. cbn [mbind option_bind].
    rewrite big_eq_spec, cmp_spec, !is_zero_spec, Ean, Ead, Ebn, Ebd, Ec by done.
    by destruct (rat_d a =? rat_d b), (rat_d a =? 0), (rat_d b =? 0).
  - intros Ha Hb. rewrite E1. unfold rat_eq. rewrite Ex. cbn [mbind option_bind]. rewrite Ey. cbn [mbind option_bind]. rewrite Ee.
    rewrite (proj2 (Z.eqb_neq _ _) Ha), (proj2 (Z.eqb_neq _ _) Hb). destruct (Z.eqb_spec (rat_d a) (rat_d b)) as [E | E].
    + rewrite E, compare_scale by (destruct Hbd; lia). split; [done |]. f_equal.
      destruct (Z.compare_spec (rat_n a) (rat_n b)), (Z.eqb_spec (rat_n a) (rat_n b)); (done || lia).
    + split; [done |]. f_equal. destruct (Z.compare_spec (rat_n a * rat_d b) (rat_n b * rat_d a)),
        (Z.eqb_spec (rat_n a * rat_d b) (rat_n b * rat_d a)); (done || lia).
Qed.

Lemma rational_order_exact_witness :
  rat_cmp (rat_from (2 ^ 128 - 1) (2 ^ 128 - 2)) (rat_from (2 ^ 128 - 2) (2 ^ 128 - 3)) = Some Lt.
Proof. destruct (rational_order_exact (rat_from (2 ^ 128 - 1) (2 ^ 128 - 2)) (rat_from (2 ^ 128 - 2) (2 ^ 128 - 3))) as [-> _]; done. Defined.

(** ** Addition and subtraction *)

(** No rounding where the division is exact. *)
Lemma round_div_divides r x c : 0 < c -> (c | x) -> round_div r x c = x / c.
Proof.
  intros Hc Hd. unfold round_div. apply Z.mod_divide in Hd as ->; [| lia]. unfold rounds_up.
  pose proof (Z.div_mod c 2 ltac:(lia)). pose proof (Z.mod_pos_bound c 2 ltac:(lia)).
  destruct r; cbv beta iota;
  repeat match goal with |- context [?x <=? ?y] => destruct (Z.leb_spec x y) | |- context [?x <? ?y] => destruct (Z.ltb_spec x y) end; lia.
Qed.

Section common.
Context (a b : Rational128) (Ha : rat_wf a) (Hb : rat_wf b) (Hda : rat_d a <> 0) (Hdb : rat_d b <> 0).

Lemma lcm_spec :
  lcm a b = Some (if Z.lcm (rat_d a) (rat_d b) <? 2 ^ 128 then Some (Z.lcm (rat_d a) (rat_d b)) else None).
Proof.
  destruct Ha as [_ [Hda0 Hda1]], Hb as [_ [Hdb0 Hdb1]]. unfold lcm. destruct (Z.eqb_spec (rat_d a) (rat_d b)) as [E | E].
  - rewrite <- E, Z.lcm_diag_nonneg, (proj2 (Z.ltb_lt _ _)) by done. done.
  - rewrite gcd_exact by done. cbn [mbind option_bind]. set (g := Z.gcd (rat_d a) (rat_d b)).
    assert (Hg : 0 < g) by (pose proof (Z.gcd_nonneg (rat_d a) (rat_d b)); assert (g <> 0) by (unfold g; rewrite Z.gcd_eq_0; lia); lia).
    assert (g <= rat_d a) by (apply Z.divide_pos_le; [lia | apply Z.gcd_divide_l]).
    rewrite mulrat_run by (done || (split; lia)). rewrite (proj2 (Z.eqb_neq g 0)) by lia.
    assert (Hdv : (g | rat_d a * rat_d b)) by (apply Z.divide_mul_l, Z.gcd_divide_l).
    rewrite round_div_divides by done. replace (rat_d a * rat_d b / g) with (Z.lcm (rat_d a) (rat_d b)); [done |].
    unfold Z.lcm. fold g. rewrite Z.divide_div_mul_exact by (try lia; apply Z.gcd_divide_r).
    apply Z.abs_eq, Z.mul_nonneg_nonneg; [lia | apply Z.div_pos; lia].
Qed.

Lemma to_den_spec c L :
  rat_wf c -> rat_d c <> 0 -> is_word 128 L -> (rat_d c | L) ->
  to_den c L = Some (let n := rat_n c * (L / rat_d c) in if n <? 2 ^ 128 then Some (R128 n L) else None).
Proof.
  intros [[Hn0 Hn1] [Hd0 Hd1]] Hd HL Hdiv. unfold to_den. destruct (Z.eqb_spec L (rat_d c)) as [-> | Hne].
  - rewrite Z.div_same, Z.mul_1_r by done. cbv zeta. rewrite (proj2 (Z.ltb_lt _ _)) by done. by destruct c.
  - rewrite mulrat_run by done. cbn [mbind option_bind]. rewrite (proj2 (Z.eqb_neq _ _)) by done.
    rewrite round_div_divides by (try lia; by apply Z.divide_mul_r). rewrite Z.divide_div_mul_exact by (done || lia). cbv zeta.
    by destruct (_ <? _).
Qed.

(** Both fractions over the least common denominator. *)
Lemma combine_spec op s :
  let L := Z.lcm (rat_d a) (rat_d b) in
  let na := rat_n a * (L / rat_d a) in
  let nb := rat_n b * (L / rat_d b) in
  combine op s a b = Some (if (L <? 2 ^ 128) && (na <? 2 ^ 128) && (nb <? 2 ^ 128) then
    match op na nb with Some n => inl (R128 n L) | None => inr s end else inr failed_to_scale).
Proof.
  intros L na nb. unfold combine. rewrite lcm_spec. fold L. cbn [mbind option_bind].
  destruct (Z.ltb_spec L (2 ^ 128)) as [HL | HL]; [| done]. assert (HLw : is_word 128 L) by (split; [apply Z.lcm_nonneg | done]).
  rewrite (to_den_spec a L), (to_den_spec b L); try done; try apply Z.divide_lcm_l; try apply Z.divide_lcm_r. cbv zeta. fold na nb.
  cbn [mbind option_bind]. destruct (na <? 2 ^ 128); [| done]. destruct (nb <? 2 ^ 128); [| done]. cbn. by destruct (op na nb).
Qed.

(** The scaled numerators give the sum over the product of the denominators. *)
Lemma scaled_value (s : Z) :
  let L := Z.lcm (rat_d a) (rat_d b) in
  (rat_n a * (L / rat_d a) + s * (rat_n b * (L / rat_d b))) * (rat_d a * rat_d b) =
  (rat_n a * rat_d b + s * (rat_n b * rat_d a)) * L.
Proof.
  intros L. destruct (Z.divide_lcm_l (rat_d a) (rat_d b)) as [x Hx]. destruct (Z.divide_lcm_r (rat_d a) (rat_d b)) as [y Hy].
  fold L in Hx, Hy. assert (Ex : L / rat_d a = x) by (rewrite Hx, Z.div_mul; done).
  assert (Ey : L / rat_d b = y) by (rewrite Hy, Z.div_mul; done). rewrite Ex, Ey.
  transitivity (rat_n a * rat_d b * (x * rat_d a) + s * rat_n b * rat_d a * (y * rat_d b)); [ring |]. rewrite <- Hx, <- Hy. ring.
Qed.
End common.

(** Fractions add and subtract exactly: with denominators that are not zero [checked_add] and
    [checked_sub] never panic; a result is the exact sum or difference over the least common denominator, and
    the operation is refused exactly when that denominator, a scaled numerator or the new numerator does not
    fit in 128 bits (or would be negative). *)
Theorem rational_add_sub_exact a b :
  rat_wf a -> rat_wf b -> rat_d a <> 0 -> rat_d b <> 0 ->
  let L := Z.lcm (rat_d a) (rat_d b) in
  let na := rat_n a * (L / rat_d a) in
  let nb := rat_n b * (L / rat_d b) in
  let fits := (L <? 2 ^ 128) && (na <? 2 ^ 128) && (nb <? 2 ^ 128) in
  (exists r, rat_checked_add a b = Some r /\
    match r with
    | inl c => fits = true /\ rat_d c = L /\ rat_n c = na + nb /\ na + nb < 2 ^ 128 /\
        rat_n c * (rat_d a * rat_d b) = (rat_n a * rat_d b + rat_n b * rat_d a) * rat_d c
    | inr _ => fits = false \/ 2 ^ 128 <= na + nb
    end) /\
  (exists r, rat_checked_sub a b = Some r /\
    match r with
    | inl c => fits = true /\ rat_d c = L /\ rat_n c = na - nb /\ nb <= na /\
        rat_n c * (rat_d a * rat_d b) = (rat_n a * rat_d b - rat_n b * rat_d a) * rat_d c
    | inr _ => fits = false \/ na < nb
    end).
Proof.
  intros Ha Hb Hda Hdb L na nb fits. unfold rat_checked_add, rat_checked_sub. rewrite !(combine_spec a b Ha Hb Hda Hdb).
  pose proof (scaled_value a b Hda Hdb 1) as E1. pose proof (scaled_value a b Hda Hdb (-1)) as E2. cbv zeta in *.
  fold L na nb fits in E1, E2 |- *. unfold word_checked_add, word_checked_sub.
  split; (eexists; split; [done |]); destruct fits; [| by left | | by left].
  - destruct (Z.ltb_spec (na + nb) (2 ^ 128)); [cbn [rat_n rat_d]; split_and!; (done || lia) | by right].
  - destruct (Z.leb_spec nb na); [cbn [rat_n rat_d]; split_and!; (done || lia) | by right].
Qed.

Lemma rational_add_sub_exact_witness :
  exists c, rat_checked_add (rat_from 1 6) (rat_from 3 4) = Some (inl c) /\ rat_n c * (6 * 4) = (1 * 4 + 3 * 6) * rat_d c.
Proof.
  destruct (rational_add_sub_exact (rat_from 1 6) (rat_from 3 4)) as [([c | e] & Hr & Hc) _]; try done.
  exists c. split; [done |]. apply Hc.
Defined.

(** ** [MultiplyRational] *)

Lemma impl_rrm_spec w x n d r :
  0 < w -> is_word w x -> is_word w n -> is_word w d ->
  impl_rrm w x n d r = if d =? 0 then None
    else if round_div r (x * n) d <? 2 ^ w then Some (round_div r (x * n) d) else None.
Proof.
  intros Hw [Hx0 Hx1] [Hn0 Hn1] [Hd0 Hd1]. unfold impl_rrm. destruct (Z.eqb_spec d 0) as [| Hd]; [done |].
  assert (Ew : 2 ^ (2 * w) = 2 ^ w * 2 ^ w) by (rewrite <- Z.pow_add_r by lia; f_equal; lia).
  rewrite (wrap_small (2 * w) (x * n)) by (unfold is_word; rewrite Ew; nia).
  pose proof (Z.mod_pos_bound (x * n) d ltac:(lia)). rewrite (wrap_small w (_ mod d)) by (split; lia).
  unfold round_div. set (u := rounds_up r ((x * n) mod d) d). set (q := x * n / d).
  assert (Hq0 : 0 <= q) by (apply Z.div_pos; nia). assert (Hq : q <= x * n) by (apply Z.div_le_upper_bound; nia).
  assert (E : (if u then word_checked_add (2 * w) q 1 else Some q) = Some (q + (if u then 1 else 0))).
  { unfold word_checked_add. destruct u; [rewrite (proj2 (Z.ltb_lt _ _)) by (rewrite Ew; nia); done | by rewrite Z.add_0_r]. }
  rewrite E. cbn [mbind option_bind]. set (v := q + (if u then 1 else 0)). assert (0 <= v) by (unfold v; destruct u; lia).
  destruct (Z.ltb_spec (2 ^ w - 1) v), (Z.ltb_spec v (2 ^ w)); try lia; [done |]. rewrite wrap_small by (split; lia). done.
Qed.

Lemma multiply_rational_spec w x n d r :
  0 < w -> is_word w x -> is_word w n -> is_word w d ->
  multiply_rational w x n d r = Some (if d =? 0 then None
    else if round_div r (x * n) d <? 2 ^ w then Some (round_div r (x * n) d) else None).
Proof.
  intros Hw Hx Hn Hd. unfold multiply_rational. destruct (Z.eqb_spec w 128) as [-> | _]; [by apply mulrat_run |].
  by rewrite impl_rrm_spec.
Qed.
