(* ===== verification/PerThings.v ===== *)
(** * Per-things

    [src/substrate/primitives/arithmetic/src/per_things.rs]: fractions of one as a number of parts, by the macro
    [implement_per_thing!].  A per-thing is its inner integer; [PerThing] holds what the macro is
    instantiated with.  [None] at the outside is a panic, plain arithmetic wraps at the width of its type. *)

From stdpp Require Import base tactics numbers list option.
From S2P Require Import Prelude Words Helpers128 Rational.
Local Open Scope Z_scope.

(** [$max], the width of [$type] and the width of [$upper_type]. *)
Record PerThing := { ACCURACY : Z; inner : Z; upper : Z }.

Definition Percent : PerThing := {| ACCURACY := 100; inner := 8; upper := 16 |}.
Definition PerU16 : PerThing := {| ACCURACY := 65535; inner := 16; upper := 32 |}.
Definition Permill : PerThing := {| ACCURACY := 1000000; inner := 32; upper := 64 |}.
Definition Perbill : PerThing := {| ACCURACY := 1000000000; inner := 32; upper := 64 |}.
Definition Perquintill : PerThing := {| ACCURACY := 1000000000000000000; inner := 64; upper := 128 |}.

(** [saturated_into] a width, [saturating_mul], and [try_into]. *)
Definition saturated_into (w x : Z) : Z := Z.min (2 ^ w - 1) x.
Definition word_saturating_mul (w a b : Z) : Z := Z.min (2 ^ w - 1) (a * b).
Definition try_into (w x : Z) : option Z := if x <? 2 ^ w then Some x else None.

(** Division on unsigned integers panics for zero. *)
Definition word_div (a b : Z) : option Z := if b =? 0 then None else Some (a / b).

Section per_thing.
Context (P : PerThing).

Definition from_parts (parts : Z) : Z := Z.min parts (ACCURACY P).
Definition per_one : Z := from_parts (ACCURACY P).
Definition per_zero : Z := from_parts 0.
Definition per_is_zero (self : Z) : bool := self =? 0.
Definition is_one (self : Z) : bool := self =? ACCURACY P.

Definition less_epsilon (self : Z) : Z := if per_is_zero self then self else from_parts (self - 1).
Definition try_less_epsilon (self : Z) : Z + Z := if per_is_zero self then inr self else inl (from_parts (self - 1)).
Definition plus_epsilon (self : Z) : Z := if is_one self then self else from_parts (self + 1).
Definition try_plus_epsilon (self : Z) : Z + Z := if is_one self then inr self else inl (from_parts (self + 1)).

(** ** From fractions

    In a type [N] of [w] bits; the inner [None] is [Err]. *)

Definition from_rational_with_rounding (w p q : Z) (r : Rounding) : option (option Z) :=
  if q =? 0 then Some None
  else if q <? p then Some None
  else
    o ← multiply_rational w (ACCURACY P) p q r;
    Some (match o with Some x => try_into (inner P) x | None => None end).

Definition from_rational (w p q : Z) : option Z :=
  o ← from_rational_with_rounding w p q Down;
  Some (match o with Some x => x | None => per_one end).

(** The trait's [from_percent], and the one of the type. *)
Definition trait_from_percent (x : Z) : option Z := from_rational (inner P) (Z.min x 100) 100.

Definition from_percent (x : Z) : Z :=
  wrap (inner P) (wrap (upper P) ((if 100 <? x then 100 else x) * ACCURACY P) / 100).

Definition from_perthousand (x : Z) : Z :=
  wrap (inner P) (wrap (upper P) ((if 1000 <? x then 1000 else x) * ACCURACY P) / 1000).

Definition square (self : Z) : option Z :=
  from_rational (upper P) (wrap (upper P) (self * self)) (wrap (upper P) (ACCURACY P * ACCURACY P)).

(** ** Multiplying an integer of [w] bits *)

Definition rational_mul_correction (x numer denom : Z) (rounding : Rounding) : option Z :=
  if denom =? 0 then None else
  let rem_inner := saturated_into (inner P) (x mod denom) in
  let rem_mul_upper := wrap (upper P) (rem_inner * numer) in
  let rem_mul_div_inner := saturated_into (inner P) (rem_mul_upper / denom) in
  Some (if rounds_up rounding (rem_mul_upper mod denom) denom then wrap (inner P) (rem_mul_div_inner + 1)
        else rem_mul_div_inner).

Definition overflow_prune_mul (w x part : Z) (rounding : Rounding) : option Z :=
  c ← rational_mul_correction x part (ACCURACY P) rounding;
  q ← word_div x (ACCURACY P);
  Some (wrap w (wrap w (q * part) + c)).

Definition saturating_reciprocal_mul (w x part : Z) (rounding : Rounding) : option Z :=
  c ← rational_mul_correction x (ACCURACY P) part rounding;
  q ← word_div x part;
  Some (word_saturating_add w (word_saturating_mul w q (ACCURACY P)) c).

Definition mul_floor (w self b : Z) : option Z := overflow_prune_mul w b self Down.
Definition mul_ceil (w self b : Z) : option Z := overflow_prune_mul w b self Up.
(** [impl ops::Mul<N>] *)
Definition mul_n (w self b : Z) : option Z := overflow_prune_mul w b self NearestPrefDown.

Definition reciprocal_mul (w self b : Z) : option Z := saturating_reciprocal_mul w b self NearestPrefUp.
Definition saturating_reciprocal_mul_floor (w self b : Z) : option Z := saturating_reciprocal_mul w b self Down.
Definition saturating_reciprocal_mul_ceil (w self b : Z) : option Z := saturating_reciprocal_mul w b self Up.

(** ** Arithmetic on per-things *)

Definition int_mul (self b : Z) : Z := from_parts (word_saturating_mul (inner P) self b).
Definition int_div (self b : Z) : option Z := word_div self b.

Definition saturating_div (self rhs : Z) (r : Rounding) : option Z :=
  o ← from_rational_with_rounding (inner P) self rhs r;
  Some (match o with Some x => x | None => per_one end).

Definition per_saturating_add (self rhs : Z) : Z := from_parts (word_saturating_add (inner P) self rhs).
Definition per_saturating_sub (self rhs : Z) : Z := from_parts (saturating_sub self rhs).

Definition left_from_one (self : Z) : Z := per_saturating_sub per_one self.

(** [impl ops::Mul] *)
Definition per_mul (self rhs : Z) : Z :=
  from_parts (wrap (inner P) (wrap (upper P) (self * rhs) / ACCURACY P)).

(** The body of the loop of [pow]. *)
Definition pow_step (s : Z * Z * Z) : option (Z * Z * Z) :=
  let '(result, self, exp) := s in
  let '(result, exp) := if exp mod 2 =? 0 then (result, exp) else (per_mul result self, exp - 1) in
  self ← square self;
  Some (result, self, exp / 2).

(** [impl Pow<usize>]: the exponent halves each round, so that 65 rounds are enough for 64 bits. *)
Definition per_pow (self exp : Z) : option Z :=
  if (exp =? 0) || is_one self then Some per_one else
  '(result, _, _) ← while_loop 65 (fun '(result, _, exp) => (0 <? exp) && negb (per_is_zero result)) pow_step
    (self, self, exp - 1);
  Some result.

(** [impl ops::Div] *)
Definition per_div (self rhs : Z) : option Z := from_rational (inner P) self rhs.

(** [impl ops::Div<N>]: zero for a divisor that does not fit. *)
Definition div_n (self b : Z) : option Z :=
  match try_into (inner P) b with
  | None => Some per_zero
  | Some d => q ← word_div self d; Some (from_parts q)
  end.

Definition per_add (self rhs : Z) : Z := from_parts (wrap (inner P) (self + rhs)).

Definition per_checked_add (self rhs : Z) : option Z :=
  i ← word_checked_add (inner P) self rhs;
  if ACCURACY P <? i then None else Some (from_parts i).

Definition per_sub (self rhs : Z) : Z := from_parts (wrap (inner P) (self - rhs)).

Definition per_checked_sub (self rhs : Z) : option Z := from_parts <$> word_checked_sub self rhs.

Definition per_checked_mul (self rhs : Z) : option Z := Some (per_mul self rhs).

(** [CompactAs::decode_from] saturates, [Decode::decode] refuses. *)
Definition decode_from (x : Z) : Z := from_parts x.
Definition decode (i : Z) : option Z := if i <=? ACCURACY P then Some i else None.
End per_thing.
