(* ===== verification/PerThingsFacts.v ===== *)
(** * Per-things are exact

    Multiplication of a balance by a fraction is the exact rounding of the product, fractions are the exact
    rounding of the quotient, powers stay within one part for each factor, and no operation leaves the
    interval from zero to one. *)

From stdpp Require Import base tactics numbers list option.
From S2P Require Import BalancesCalls.
From S2P Require Import Prelude Words Helpers128 Helpers128Facts Rational RationalFacts PerThings.
Local Open Scope Z_scope.

Definition per_things : list PerThing := [Percent; PerU16; Permill; Perbill; Perquintill].

(** What the instances of the macro have in common. *)
Record per_wf (P : PerThing) : Prop := {
  pw_inner : 0 < inner P;
  pw_upper : 2 ^ upper P = 2 ^ inner P * 2 ^ inner P;
  pw_acc : 0 < ACCURACY P < 2 ^ inner P;
  pw_hundred : 100 < 2 ^ inner P;
  pw_upper_pos : 0 < upper P;
}.

Lemma per_things_wf P : In P per_things -> per_wf P.
Proof. intros HP. repeat (destruct HP as [<- | HP]; [by split |]). done. Qed.

Lemma acc_bounds P : In P per_things -> 100 <= ACCURACY P < 2 ^ inner P.
Proof. intros HP. repeat (destruct HP as [<- | HP]; [by split |]). done. Qed.

(** ** Rounded quotients *)

Lemma rounds_up_pos r m c : 0 < c -> rounds_up r m c = true -> 0 < m.
Proof.
  intros Hc. unfold rounds_up. pose proof (Z.div_mod c 2 ltac:(lia)). pose proof (Z.mod_pos_bound c 2 ltac:(lia)).
  destruct r; intros Hr; bool_to_prop; (done || lia).
Qed.

Lemma round_div_nonneg r x c : 0 <= x -> 0 < c -> 0 <= round_div r x c.
Proof. intros Hx Hc. unfold round_div. assert (0 <= x / c) by (apply Z.div_pos; lia). destruct (rounds_up _ _ _); lia. Qed.

Lemma round_div_le r x c k : 0 < c -> x <= k * c -> round_div r x c <= k.
Proof.
  intros Hc Hx. unfold round_div. pose proof (Z.div_mod x c ltac:(lia)) as E. pose proof (Z.mod_pos_bound x c Hc).
  destruct (rounds_up r (x mod c) c) eqn:Hu; [apply rounds_up_pos in Hu; [| done] |]; nia.
Qed.

Lemma round_div_split r x n c : 0 < c -> round_div r (x * n) c = x / c * n + round_div r (x mod c * n) c.
Proof.
  intros Hc. unfold round_div. pose proof (Z.div_mod x c ltac:(lia)) as E.
  assert (Ex : x * n = x mod c * n + (x / c * n) * c) by (rewrite E at 1; ring). rewrite Ex, Z.div_add, Z.mod_add by lia. ring.
Qed.

Section facts.
Context (P : PerThing) (HP : per_wf P).

Lemma correction_spec x numer denom r :
  0 <= x -> 0 <= numer < 2 ^ inner P -> 0 < denom < 2 ^ inner P ->
  rational_mul_correction P x numer denom r = Some (round_div r (x mod denom * numer) denom).
Proof.
  intros Hx Hn Hd. unfold rational_mul_correction. rewrite (proj2 (Z.eqb_neq denom 0)) by lia. f_equal.
  pose proof (Z.mod_pos_bound x denom ltac:(lia)) as Hm. set (m := x mod denom) in *. unfold saturated_into.
  rewrite (Z.min_r (2 ^ inner P - 1) m) by lia. pose proof (pw_upper P HP) as Hu.
  rewrite (wrap_small (upper P)) by (split; [nia | rewrite Hu; nia]).
  pose proof (Z.div_mod (m * numer) denom ltac:(lia)) as E. pose proof (Z.mod_pos_bound (m * numer) denom ltac:(lia)).
  assert (Hq0 : 0 <= m * numer / denom) by (apply Z.div_pos; nia). unfold round_div. set (q := m * numer / denom) in *.
  assert (Hq : q <= numer) by nia. rewrite (Z.min_r (2 ^ inner P - 1) q) by lia.
  destruct (rounds_up r (m * numer mod denom) denom) eqn:Hr; [| lia]. apply rounds_up_pos in Hr; [| lia].
  rewrite wrap_small; [done |]. split; [lia |]. nia.
Qed.

Lemma overflow_prune_mul_spec w x part r :
  inner P <= w -> is_word w x -> 0 <= part <= ACCURACY P ->
  overflow_prune_mul P w x part r = Some (round_div r (x * part) (ACCURACY P)) /\ round_div r (x * part) (ACCURACY P) <= x.
Proof.
  intros Hw [Hx0 Hx1] Hp. pose proof (pw_acc P HP) as Ha. unfold overflow_prune_mul, word_div.
  rewrite correction_spec by lia. cbn [mbind option_bind]. rewrite (proj2 (Z.eqb_neq _ _)) by lia. cbn [mbind option_bind].
  rewrite (round_div_split r x part) by lia. pose proof (Z.mod_pos_bound x (ACCURACY P) ltac:(lia)) as Hm.
  pose proof (round_div_nonneg r (x mod ACCURACY P * part) (ACCURACY P) ltac:(nia) ltac:(lia)) as H0.
  assert (Hle : x / ACCURACY P * part + round_div r (x mod ACCURACY P * part) (ACCURACY P) <= x).
  { rewrite <- round_div_split by lia. apply round_div_le; nia. }
  split; [| done]. assert (0 <= x / ACCURACY P * part) by (apply Z.mul_nonneg_nonneg; [apply Z.div_pos; lia | lia]).
  rewrite (wrap_small w (_ * _)), wrap_small; [done | split; lia | split; lia].
Qed.

Lemma reciprocal_spec w x part r :
  inner P <= w -> is_word w x -> 0 < part <= ACCURACY P ->
  saturating_reciprocal_mul P w x part r = Some (Z.min (2 ^ w - 1) (round_div r (x * ACCURACY P) part)).
Proof.
  intros Hw [Hx0 Hx1] Hp. pose proof (pw_acc P HP) as Ha. unfold saturating_reciprocal_mul, word_div.
  rewrite correction_spec by lia. cbn [mbind option_bind]. rewrite (proj2 (Z.eqb_neq _ _)) by lia. cbn [mbind option_bind].
  rewrite (round_div_split r x (ACCURACY P)) by lia. pose proof (Z.mod_pos_bound x part ltac:(lia)) as Hm.
  pose proof (round_div_nonneg r (x mod part * ACCURACY P) part ltac:(nia) ltac:(lia)) as H0.
  unfold word_saturating_add, word_saturating_mul. f_equal. assert (0 <= x / part) by (apply Z.div_pos; lia). lia.
Qed.

Lemma acc_word w : inner P <= w -> is_word w (ACCURACY P).
Proof.
  intros Hw. pose proof (pw_acc P HP). pose proof (pw_inner P HP). split; [lia |].
  assert (2 ^ inner P <= 2 ^ w) by (apply Z.pow_le_mono_r; lia). lia.
Qed.

Lemma from_rational_rounding_spec w p q r :
  inner P <= w -> is_word w p -> is_word w q ->
  from_rational_with_rounding P w p q r =
    Some (if (q =? 0) || (q <? p) then None else Some (round_div r (ACCURACY P * p) q)) /\
  (0 < q -> p <= q -> 0 <= round_div r (ACCURACY P * p) q <= ACCURACY P).
Proof.
  intros Hw [Hp0 Hp1] [Hq0 Hq1]. pose proof (pw_acc P HP) as Ha. pose proof (pw_inner P HP). unfold from_rational_with_rounding.
  assert (Hb : 0 < q -> p <= q -> 0 <= round_div r (ACCURACY P * p) q <= ACCURACY P).
  { intros Hq Hpq. split; [apply round_div_nonneg; nia | apply round_div_le; nia]. }
  split; [| done]. destruct (Z.eqb_spec q 0) as [| Hq]; [done |]. destruct (Z.ltb_spec q p) as [| Hpq]; [done |]. cbn [orb].
  pose proof (acc_word w Hw) as Hacc. rewrite multiply_rational_spec by (done || lia). cbn [mbind option_bind].
  rewrite (proj2 (Z.eqb_neq q 0)) by done. specialize (Hb ltac:(lia) Hpq). destruct Hacc as [_ Hacc].
  rewrite (proj2 (Z.ltb_lt _ _)) by lia. unfold try_into. rewrite (proj2 (Z.ltb_lt _ _)) by lia. done.
Qed.

Lemma from_rational_spec w p q :
  inner P <= w -> is_word w p -> is_word w q ->
  from_rational P w p q = Some (if (q =? 0) || (q <? p) then ACCURACY P else ACCURACY P * p / q).
Proof.
  intros Hw Hp Hq. unfold from_rational. destruct (from_rational_rounding_spec w p q Down Hw Hp Hq) as [-> _]. cbn [mbind option_bind].
  unfold per_one, from_parts. destruct (_ || _); [f_equal; lia |]. unfold round_div, rounds_up. by rewrite Z.add_0_r.
Qed.

(** ** Products and powers *)

Definition is_per (a : Z) : Prop := 0 <= a <= ACCURACY P.

Lemma per_mul_spec a b : is_per a -> is_per b -> per_mul P a b = a * b / ACCURACY P /\ is_per (a * b / ACCURACY P).
Proof.
  intros [Ha0 Ha1] [Hb0 Hb1]. pose proof (pw_acc P HP) as Hacc. pose proof (pw_upper P HP) as Hu. unfold per_mul, from_parts.
  assert (Hq : 0 <= a * b / ACCURACY P <= ACCURACY P) by (split; [apply Z.div_pos; nia | apply Z.div_le_upper_bound; nia]).
  rewrite (wrap_small (upper P)) by (split; [nia | rewrite Hu; nia]). rewrite wrap_small by (split; lia). rewrite Z.min_l by lia. done.
Qed.

Lemma square_spec a : is_per a -> square P a = Some (a * a / ACCURACY P).
Proof.
  intros [Ha0 Ha1]. pose proof (pw_acc P HP) as Hacc. pose proof (pw_upper P HP) as Hu. pose proof (pw_inner P HP).
  pose proof (pw_upper_pos P HP). unfold square.
  assert (Hw : inner P <= upper P).
  { apply (Z.pow_le_mono_r_iff 2); [lia | lia |]. rewrite Hu. nia. }
  rewrite !(wrap_small (upper P)) by (split; [nia | rewrite Hu; nia]).
  rewrite from_rational_spec by (done || (split; [nia | rewrite Hu; nia])).
  rewrite (proj2 (Z.eqb_neq _ _)), (proj2 (Z.ltb_ge _ _)) by nia. cbn [orb]. f_equal. apply Z.div_mul_cancel_l; lia.
Qed.

(** [v] is [a] to the [m], short of at most [m - 1] parts. *)
Definition approx (a v : Z) (m : nat) : Prop :=
  is_per v /\ (0 < m)%nat /\
  v * ACCURACY P ^ Z.of_nat (m - 1) <= a ^ Z.of_nat m <= (v + Z.of_nat (m - 1)) * ACCURACY P ^ Z.of_nat (m - 1).

Lemma approx_1 a : is_per a -> approx a a 1.
Proof. intros Ha. split_and!; [done | lia | |]; simpl Z.of_nat; rewrite Z.pow_0_r, Z.pow_1_r; lia. Qed.

Lemma approx_mul a v u m k :
  is_per a -> approx a v m -> approx a u k -> approx a (v * u / ACCURACY P) (m + k).
Proof.
  intros [Ha0 Ha1] (Hv & Hm & Hvl & Hvu) (Hu & Hk & Hul & Huu). destruct (per_mul_spec v u Hv Hu) as [_ Hp].
  destruct Hv as [Hv0 Hv1], Hu as [Hu0 Hu1]. pose proof (pw_acc P HP) as Hacc. unfold approx. set (A := ACCURACY P) in *.
  destruct m as [| m]; [lia |]. destruct k as [| k]; [lia |]. replace (S m - 1)%nat with m in * by lia. replace (S k - 1)%nat with k in * by lia.
  split; [done |]. split; [lia |]. replace (S m + S k - 1)%nat with (S (m + k)) by lia.
  rewrite (Nat2Z.inj_add (S m) (S k)), Z.pow_add_r by lia. rewrite (Nat2Z.inj_succ (m + k)), Z.pow_succ_r, Nat2Z.inj_add, Z.pow_add_r by lia.
  assert (HAk : a ^ Z.of_nat (S k) <= A * A ^ Z.of_nat k).
  { rewrite <- Z.pow_succ_r, <- Nat2Z.inj_succ by lia. apply Z.pow_le_mono_l. lia. }
  assert (HM : 0 < A ^ Z.of_nat m) by (apply Z.pow_pos_nonneg; lia). assert (HK : 0 < A ^ Z.of_nat k) by (apply Z.pow_pos_nonneg; lia).
  assert (Hx : 0 <= a ^ Z.of_nat (S m)) by (apply Z.pow_nonneg; lia). assert (Hy : 0 <= a ^ Z.of_nat (S k)) by (apply Z.pow_nonneg; lia).
  set (X := a ^ Z.of_nat (S m)) in *. set (Y := a ^ Z.of_nat (S k)) in *. set (M := A ^ Z.of_nat m) in *. set (K := A ^ Z.of_nat k) in *.
  pose proof (Z.div_mod (v * u) A ltac:(lia)) as E. pose proof (Z.mod_pos_bound (v * u) A ltac:(lia)). set (q := v * u / A) in *. split.
  - assert (q * A <= v * u) by lia. assert (v * M * (u * K) <= X * Y) by (apply Z.mul_le_mono_nonneg; (lia || apply Z.mul_nonneg_nonneg; lia)).
    assert (q * A * (M * K) <= v * u * (M * K)) by (apply Z.mul_le_mono_nonneg_r; [apply Z.mul_nonneg_nonneg |]; lia). lia.
  - assert (X * Y <= (v + Z.of_nat m) * M * Y) by (apply Z.mul_le_mono_nonneg_r; lia).
    assert (H1 : v * M * Y <= v * M * ((u + Z.of_nat k) * K)) by (apply Z.mul_le_mono_nonneg_l; [apply Z.mul_nonneg_nonneg |]; lia).
    assert (H2 : Z.of_nat m * M * Y <= Z.of_nat m * M * (A * K)) by (apply Z.mul_le_mono_nonneg_l; [apply Z.mul_nonneg_nonneg |]; lia).
    assert (H3 : (v * u + v * Z.of_nat k + Z.of_nat m * A) * (M * K) <= (q * A + A + A * Z.of_nat k + Z.of_nat m * A) * (M * K)).
    { apply Z.mul_le_mono_nonneg_r; [apply Z.mul_nonneg_nonneg; lia |]. assert (v * Z.of_nat k <= A * Z.of_nat k) by (apply Z.mul_le_mono_nonneg_r; lia). lia. }
    lia.
Qed.

(** Once at zero the power stays there. *)
Lemma approx_zero a m n : is_per a -> (m <= n)%nat -> approx a 0 m -> approx a 0 n.
Proof.
  intros Ha Hmn (Hv & Hm & _ & Hu). split_and!; [done | lia | simpl; apply Z.pow_nonneg, Ha |].
  pose proof (pw_acc P HP) as Hacc. destruct Ha as [Ha0 Ha1]. set (A := ACCURACY P) in *.
  replace n with (m + (n - m))%nat at 1 by lia. rewrite Nat2Z.inj_add, Z.pow_add_r by lia.
  replace (n - 1)%nat with ((m - 1) + (n - m))%nat at 2 by lia. rewrite (Nat2Z.inj_add (m - 1)), Z.pow_add_r by lia.
  assert (Hle : a ^ Z.of_nat (n - m) <= A ^ Z.of_nat (n - m)) by (apply Z.pow_le_mono_l; lia).
  assert (0 <= a ^ Z.of_nat (n - m)) by (apply Z.pow_nonneg; lia). assert (0 < A ^ Z.of_nat (m - 1)) by (apply Z.pow_pos_nonneg; lia).
  assert (0 <= a ^ Z.of_nat m) by (apply Z.pow_nonneg; lia).
  assert (a ^ Z.of_nat m * a ^ Z.of_nat (n - m) <= (0 + Z.of_nat (m - 1)) * A ^ Z.of_nat (m - 1) * A ^ Z.of_nat (n - m)) by (apply Z.mul_le_mono_nonneg; lia).
  assert (Z.of_nat (m - 1) * (A ^ Z.of_nat (m - 1) * A ^ Z.of_nat (n - m)) <= Z.of_nat (n - 1) * (A ^ Z.of_nat (m - 1) * A ^ Z.of_nat (n - m))).
  { apply Z.mul_le_mono_nonneg_r; [| lia]. apply Z.mul_nonneg_nonneg; lia. }
  lia.
Qed.

Definition pow_inv (a : Z) (n : nat) (s : Z * Z * Z) : Prop :=
  let '(result, self, e) := s in
  0 <= e /\ exists m k : nat, approx a result m /\ approx a self k /\ Z.of_nat m + Z.of_nat k * e = Z.of_nat n.

Definition pow_rounds (s : Z * Z * Z) : nat :=
  let '(_, _, e) := s in if e =? 0 then 0 else Z.to_nat (Z.log2 e + 1).

Lemma half_rounds e : 0 < e -> ((if (e / 2 =? 0)%Z then 0 else Z.to_nat (Z.log2 (e / 2) + 1)) < Z.to_nat (Z.log2 e + 1))%nat.
Proof.
  intros He. pose proof (Z.log2_nonneg e). destruct (Z.eqb_spec (e / 2) 0) as [| Hne]; [lia |].
  assert (0 < e / 2) by (assert (0 <= e / 2) by (apply Z.div_pos; lia); lia).
  assert (Hl : Z.log2 (e / 2) = Z.log2 e - 1).
  { change 2 with (2 ^ 1). rewrite <- Z.shiftr_div_pow2, Z.log2_shiftr by lia.
    assert (1 <= Z.log2 e); [| lia]. apply Z.log2_le_pow2; [lia |]. pose proof (Z.div_mod e 2 ltac:(lia)). pose proof (Z.mod_pos_bound e 2 ltac:(lia)). lia. }
  pose proof (Z.log2_nonneg (e / 2)). lia.
Qed.

Lemma pow_step_spec a n s :
  is_per a -> pow_inv a n s -> 0 < snd s ->
  exists s', pow_step P s = Some s' /\ pow_inv a n s' /\ (pow_rounds s' < pow_rounds s)%nat.
Proof.
  intros Ha. destruct s as [[result self] e]. intros (He & m & k & Hr & Hs & Hn) Hpos. cbn [snd] in Hpos. unfold pow_step, pow_rounds.
  rewrite (proj2 (Z.eqb_neq e 0)) by lia. pose proof (half_rounds e Hpos) as Hh. pose proof (approx_mul a self self k k Ha Hs Hs) as Hss.
  pose proof (Z.div_mod e 2 ltac:(lia)) as Ee. pose proof (Z.mod_pos_bound e 2 ltac:(lia)) as Hm.
  destruct (Z.eqb_spec (e mod 2) 0) as [E | E]; rewrite square_spec by apply Hs; cbn [mbind option_bind]; (eexists; split; [done |]).
  - split; [| done]. split; [apply Z.div_pos; lia |]. exists m, (k + k)%nat. split_and!; try done. nia.
  - destruct (per_mul_spec result self) as [-> _]; [apply Hr | apply Hs |].
    assert (E1 : (e - 1) / 2 = e / 2) by (symmetry; apply Z.div_unique with 0; lia). rewrite E1. split; [| done].
    split; [apply Z.div_pos; lia |]. exists (m + k)%nat, (k + k)%nat. split_and!; [by apply approx_mul | done | nia].
Qed.

Lemma per_pow_spec a n :
  is_per a -> (0 < n)%nat -> Z.of_nat n < 2 ^ 64 -> exists v, per_pow P a (Z.of_nat n) = Some v /\ approx a v n.
Proof.
  intros Ha Hn Hb. unfold per_pow. rewrite (proj2 (Z.eqb_neq _ _)) by lia. cbn [orb]. unfold is_one. pose proof (pw_acc P HP) as Hacc.
  destruct (Z.eqb_spec a (ACCURACY P)) as [-> | Hne].
  { eexists. split; [done |]. unfold per_one, from_parts. rewrite Z.min_id. split; [done |]. split; [done |].
    assert (Ep : ACCURACY P ^ Z.of_nat n = ACCURACY P * ACCURACY P ^ Z.of_nat (n - 1)).
    { rewrite <- Z.pow_succ_r by lia. f_equal. lia. }
    rewrite Ep. split; [lia |]. apply Z.mul_le_mono_nonneg_r; [apply Z.pow_nonneg; lia | lia]. }
  destruct (while_inv (pow_inv a n) pow_rounds 65 (fun '(result, _, exp) => (0 <? exp) && negb (per_is_zero result)) (pow_step P)
    (a, a, Z.of_nat n - 1)) as ([[result self] e] & -> & (He & m & k & Hr & Hs & Hsum) & Hend).
  - unfold pow_rounds. destruct (Z.eqb_spec (Z.of_nat n - 1) 0); [lia |].
    assert (Z.log2 (Z.of_nat n - 1) < 64) by (apply Z.log2_lt_pow2; lia). lia.
  - split; [lia |]. exists 1%nat, 1%nat. split_and!; try by apply approx_1. lia.
  - intros s Hi Hc. apply pow_step_spec; [done | done |]. destruct s as [[? ?] e]. bool_to_prop. done.
  - cbn [mbind option_bind]. exists result. split; [done |]. apply andb_false_iff in Hend as [Hend | Hend].
    + bool_to_prop. assert (e = 0) as -> by lia. replace n with m by lia. done.
    + apply negb_false_iff in Hend. apply Z.eqb_eq in Hend as ->. apply (approx_zero a m n Ha); [nia | done].
Qed.
End facts.

(** A share of a balance is exact: for every per-thing and every integer type that holds it, multiplying
    [x] by a fraction ([mul_floor], [mul_ceil] and [*] are [overflow_prune_mul] with their rounding) gives the
    product rounded as asked, never more than [x] and without overflow on the way; multiplying by the
    reciprocal gives the rounded quotient cut at the largest value, and panics exactly for a zero fraction. *)
Theorem perthing_mul_exact P w x part r :
  In P per_things -> inner P <= w -> is_word w x -> is_per P part ->
  (exists v, overflow_prune_mul P w x part r = Some v /\ rounded r (x * part) (ACCURACY P) v /\ v <= x) /\
  (if part =? 0 then saturating_reciprocal_mul P w x part r = None
   else exists v, rounded r (x * ACCURACY P) part v /\
     saturating_reciprocal_mul P w x part r = Some (Z.min (2 ^ w - 1) v)).
Proof.
  intros HP Hw Hx Hp. apply per_things_wf in HP. pose proof (pw_acc P HP). destruct Hp as [Hp0 Hp1], Hx as [Hx0 Hx1]. split.
  - destruct (overflow_prune_mul_spec P HP w x part r Hw) as [-> Hle]; [done | done |]. eexists. split_and!; [done | | done].
    apply round_div_rounded; nia.
  - destruct (Z.eqb_spec part 0) as [-> | Hne]; [done |]. exists (round_div r (x * ACCURACY P) part).
    split; [apply round_div_rounded; nia |]. apply reciprocal_spec; (done || lia).
Qed.

Lemma perthing_mul_exact_witness :
  exists v, overflow_prune_mul Perbill 128 (2 ^ 128 - 1) 333333333 NearestPrefDown = Some v /\ v <= 2 ^ 128 - 1.
Proof.
  destruct (perthing_mul_exact Perbill 128 (2 ^ 128 - 1) 333333333 NearestPrefDown) as [(v & Hv & _ & Hle) _];
    [do 3 right; by left | done | done | done |].
  exists v. split; [exact Hv | exact Hle].
Defined.

(** A fraction is exact: [from_rational_with_rounding] refuses exactly a zero denominator and a fraction
    above one, and otherwise returns the parts rounded as asked, between zero and one; [from_rational]
    rounds down and turns the refusal into one. *)
Theorem perthing_fraction_exact P w p q r :
  In P per_things -> inner P <= w -> is_word w p -> is_word w q ->
  exists o, from_rational_with_rounding P w p q r = Some o /\
    from_rational P w p q = Some (if (q =? 0) || (q <? p) then ACCURACY P else ACCURACY P * p / q) /\
    match o with
    | None => q = 0 \/ q < p
    | Some v => is_per P v /\ rounded r (ACCURACY P * p) q v /\ 0 < q /\ p <= q
    end.
Proof.
  intros HP Hw Hp Hq. apply per_things_wf in HP. destruct (from_rational_rounding_spec P HP w p q r Hw Hp Hq) as [-> Hb].
  eexists. split; [done |]. split; [by apply from_rational_spec |]. pose proof (pw_acc P HP). destruct Hp as [Hp0 Hp1], Hq as [Hq0 Hq1].
  destruct (Z.eqb_spec q 0); [by left |]. destruct (Z.ltb_spec q p); [by right |]. cbn [orb].
  split; [apply Hb; lia |]. split_and!; [apply round_div_rounded; nia | lia | lia].
Qed.

Lemma perthing_fraction_exact_witness :
  exists o, from_rational_with_rounding Perquintill 128 36893488147419103230 36893488147419103630 Up = Some o.
Proof.
  destruct (perthing_fraction_exact Perquintill 128 36893488147419103230 36893488147419103630 Up) as (o & Ho & _);
    [do 4 right; by left | done | done | done |].
  exists o. exact Ho.
Defined.

(** The fractions that the balances pallet computes with are those of [Perbill]. *)
Lemma perbill_of_the_ledger p q x :
  is_word 32 p -> is_word 32 q -> is_word 32 x ->
  from_rational Perbill 32 p q = Some (perbill_from_rational p q) /\ from_percent Perbill x = perbill_from_percent x.
Proof.
  intros Hp Hq [Hx0 Hx1]. split.
  - rewrite from_rational_spec; [done | by split | done | done | done].
  - unfold from_percent, perbill_from_percent. cbn [inner upper ACCURACY Perbill].
    replace (if 100 <? x then 100 else x) with (Z.min x 100) by (destruct (Z.ltb_spec 100 x); lia).
    rewrite (wrap_small 64) by (split; lia). apply wrap_small. split; [apply Z.div_pos; lia | apply Z.div_lt_upper_bound; lia].
Qed.

(** C36. Powers: [pow] by repeated squaring ends for every 64-bit exponent, stays between zero and one, never
    exceeds the exact power and falls short of it by fewer parts than the exponent; the power zero is one. *)
Theorem perthing_pow_bounds P a e :
  In P per_things -> is_per P a -> 0 <= e < 2 ^ 64 ->
  exists v, per_pow P a e = Some v /\ is_per P v /\
    if e =? 0 then v = ACCURACY P
    else v * ACCURACY P ^ (e - 1) <= a ^ e <= (v + (e - 1)) * ACCURACY P ^ (e - 1).
Proof.
  intros HP Ha He. apply per_things_wf in HP. pose proof (pw_acc P HP). destruct (Z.eqb_spec e 0) as [-> | Hne].
  { unfold per_pow, per_one, from_parts. simpl. rewrite Z.min_id. eexists. split_and!; [done | unfold is_per; lia | done]. }
  destruct (per_pow_spec P HP a (Z.to_nat e) Ha) as (v & Hv & Hper & _ & Hb); [lia | lia |].
  rewrite Nat2Z.inj_sub, Z2Nat.id in Hb by lia. rewrite Z2Nat.id in Hv by lia. by exists v.
Qed.

Lemma perthing_pow_bounds_witness :
  exists v, per_pow Permill 900000 12 = Some v /\ v * 1000000 ^ 11 <= 900000 ^ 12 <= (v + 11) * 1000000 ^ 11.
Proof.
  destruct (perthing_pow_bounds Permill 900000 12) as (v & Hv & _ & Hb); [do 2 right; by left | done | done |].
  exists v. split; [exact Hv | exact Hb].
Defined.

(** Between zero and one: on per-things the arithmetic is that of parts cut to the interval.  [square] is
    the product with itself, the two [from_percent] agree, the checked operations refuse exactly what leaves
    the interval, and every result is again at most one. *)
Theorem perthing_ops_exact P a b x :
  In P per_things -> is_per P a -> is_per P b -> is_word (inner P) x ->
  per_mul P a b = a * b / ACCURACY P /\ square P a = Some (per_mul P a a) /\
  per_saturating_add P a b = Z.min (ACCURACY P) (a + b) /\ per_saturating_sub P a b = Z.max 0 (a - b) /\
  left_from_one P a = ACCURACY P - a /\
  plus_epsilon P a = Z.min (ACCURACY P) (a + 1) /\ less_epsilon P a = Z.max 0 (a - 1) /\
  per_checked_add P a b = (if a + b <=? ACCURACY P then Some (a + b) else None) /\
  per_checked_sub P a b = (if b <=? a then Some (a - b) else None) /\
  trait_from_percent P x = Some (from_percent P x) /\ from_percent P x = Z.min x 100 * ACCURACY P / 100 /\
  is_per P (per_mul P a b) /\ is_per P (from_percent P x) /\ is_per P (from_parts P x).
Proof.
  intros HP [Ha0 Ha1] [Hb0 Hb1] [Hx0 Hx1]. apply per_things_wf in HP. pose proof (pw_acc P HP) as Hacc. pose proof (pw_inner P HP) as Hi.
  pose proof (pw_hundred P HP) as Hh. pose proof (pw_upper P HP) as Hu.
  destruct (per_mul_spec P HP a b) as [Em Hm]; [done | done |]. destruct (per_mul_spec P HP a a) as [Es _]; [done | done |].
  assert (Hpc : 0 <= Z.min x 100 * ACCURACY P / 100 <= ACCURACY P) by (split; [apply Z.div_pos; nia | apply Z.div_le_upper_bound; nia]).
  assert (Ep : from_percent P x = Z.min x 100 * ACCURACY P / 100).
  { unfold from_percent. replace (if 100 <? x then 100 else x) with (Z.min x 100) by (destruct (Z.ltb_spec 100 x); lia).
    rewrite (wrap_small (upper P)) by (split; [nia | rewrite Hu; nia]). apply wrap_small. split; lia. }
  rewrite Em, Es, Ep. split_and!; try done; try (by apply square_spec); unfold is_per, from_parts; try lia.
  - unfold per_saturating_add, from_parts, word_saturating_add. lia.
  - unfold per_saturating_sub, from_parts, saturating_sub. lia.
  - unfold left_from_one, per_saturating_sub, per_one, from_parts, saturating_sub. lia.
  - unfold plus_epsilon, is_one, from_parts. destruct (Z.eqb_spec a (ACCURACY P)); lia.
  - unfold less_epsilon, per_is_zero, from_parts. destruct (Z.eqb_spec a 0); lia.
  - unfold per_checked_add, word_checked_add, from_parts. destruct (Z.ltb_spec (a + b) (2 ^ inner P)); cbn [mbind option_bind].
    + destruct (Z.ltb_spec (ACCURACY P) (a + b)), (Z.leb_spec (a + b) (ACCURACY P)); try lia; [done |]. by rewrite Z.min_l.
    + destruct (Z.leb_spec (a + b) (ACCURACY P)); [lia | done].
  - unfold per_checked_sub, word_checked_sub, from_parts. destruct (Z.leb_spec b a); [| done]. simpl. f_equal. lia.
  - unfold trait_from_percent. rewrite from_rational_spec by (done || (split; lia)). cbn [Z.eqb orb].
    rewrite (proj2 (Z.ltb_ge _ _)) by lia. by rewrite Z.mul_comm.
Qed.

Lemma perthing_ops_exact_witness : per_saturating_add Percent 70 60 = 100.
Proof. destruct (perthing_ops_exact Percent 70 60 0) as (_ & _ & -> & _); try done. by left. Defined.
