(* ===== verification/Normalize.v ===== *)
(** * Normalisation

    [normalize] of [src/substrate/primitives/arithmetic/src/lib.rs]: the values of a vector are moved up or down
    until they sum to the target.  The integer type [T] has [w] bits.  The result is an error value or the
    new vector; [None] is a panic (an [expect] that does not hold, or an index out of range).
    The second half proves that it ends and reaches its target. *)

From Stdlib Require Import Sorted.
From stdpp Require Import base tactics numbers list option strings.
From S2P Require Import Prelude Words Helpers128 Rational PerThings PerThingsFacts.
Local Open Scope Z_scope.

(** [sort_by_key]: a stable sort, here by insertion. *)
Section sort.
Context {A : Type} (key : A -> Z).

Fixpoint insert_by_key (x : A) (l : list A) : list A :=
  match l with
  | [] => [x]
  | y :: l => if key x <=? key y then x :: y :: l else y :: insert_by_key x l
  end.

Definition sort_by_key (l : list A) : list A := foldr insert_by_key [] l.
End sort.

(** [output_with_idx]: the values with their places in the input. *)
Abbreviation Indexed := (list (Z * Z)).

Definition value_at (l : Indexed) (i : nat) : option Z := snd <$> l !! i.

(** [output_with_idx[i].1 = v] *)
Definition store_value (l : Indexed) (i : nat) (v : Z) : option Indexed :=
  p ← l !! i; Some (<[i := (p.1, v)]> l).

Fixpoint checked_sum (w : Z) (sum : Z) (l : list Z) : option Z :=
  match l with
  | [] => Some sum
  | t :: l => s ← word_checked_add w sum t; checked_sum w s l
  end.

(** [min_index += 1; min_index %= count] and [max_index.checked_sub(1).unwrap_or(count - 1)] *)
Definition next_index (count i : nat) : nat := ((i + 1) mod count)%nat.
Definition prev_index (count i : nat) : nat := match i with O => (count - 1)%nat | S i => i end.

(** ** Raising *)

(** [by] is added at the current index, which moves on at the threshold. *)
Definition bump (w : Z) (count : nat) (threshold by_ : Z) (s : Indexed * nat) : option (Indexed * nat) :=
  let '(l, i) := s in
  v ← value_at l i;
  v ← word_checked_add w v by_;
  l ← store_value l i v;
  Some (l, if threshold <=? v then next_index count i else i).

Definition raise (w : Z) (count : nat) (threshold per_round leftover : Z) (l : Indexed) : option Indexed :=
  s ← (if per_round =? 0 then Some (l, O) else for_from 0 count (fun _ => bump w count threshold per_round) (l, O));
  '(s, _) ← while_loop (S (Z.to_nat leftover)) (fun '(_, leftover) => negb (leftover =? 0))
    (fun '(s, leftover) => s ← bump w count threshold 1 s; Some (s, leftover - 1)) (s, leftover);
  Some s.1.

(** ** Lowering *)

(** One round of the first loop: what cannot be taken is added to [leftover]. *)
Definition lower_round (w : Z) (count : nat) (threshold per_round : Z) (s : Indexed * nat * Z) :
    option (Indexed * nat * Z) :=
  let '(l, i, leftover) := s in
  v ← value_at l i;
  let '(v, leftover) :=
    match word_checked_sub v per_round with
    | Some v' => (v', leftover)
    | None => (saturating_sub v per_round, wrap w (leftover + (per_round - v)))
    end in
  l ← store_value l i v;
  Some (l, if v <=? threshold then prev_index count i else i, leftover).

(** One round of the second loop: one less, or the next index when the value is zero. *)
Definition lower_one (count : nat) (threshold : Z) (s : Indexed * nat * Z) : option (Indexed * nat * Z) :=
  let '(l, i, leftover) := s in
  v ← value_at l i;
  match word_checked_sub v 1 with
  | Some next =>
      l ← store_value l i next;
      Some (l, if next <=? threshold then prev_index count i else i, leftover - 1)
  | None => Some (l, prev_index count i, leftover)
  end.

(** Between two values that can be lowered there are at most [count] rounds. *)
Definition lower_fuel (count : nat) (leftover : Z) : nat := (S (Z.to_nat leftover) * S count)%nat.

Definition lower (w : Z) (count : nat) (per_round leftover : Z) (l : Indexed) : option Indexed :=
  threshold ← value_at l 0;
  let max_index := (count - 1)%nat in
  s ← (if per_round =? 0 then Some (l, max_index, leftover)
       else for_from 0 count (fun _ => lower_round w count threshold per_round) (l, max_index, leftover));
  '(l, _, _) ← while_loop (lower_fuel count s.2) (fun '(_, _, leftover) => negb (leftover =? 0))
    (lower_one count threshold) s;
  Some l.

(** ** The whole function *)

Definition enumerate (l : list Z) : Indexed := imap (fun i x => (Z.of_nat i, x)) l.

Definition normalize (w : Z) (input : list Z) (targeted_sum : Z) : option (list Z + string) :=
  match checked_sum w 0 input with
  | None => Some (inr "sum of input cannot fit in `T`")
  | Some sum =>
    let count := length input in
    let count_t := Z.of_nat count in
    if 2 ^ w <=? count_t then Some (inr "length of `inputs` cannot fit in `T`") else
    if (count =? 0)%nat then Some (inl []) else
    let diff := Z.max targeted_sum sum - Z.min targeted_sum sum in
    if diff =? 0 then Some (inl input) else
    let needs_bump := sum <? targeted_sum in
    let per_round := diff / count_t in
    let leftover := diff mod count_t in
    let output_with_idx := sort_by_key snd (enumerate input) in
    l ← (if needs_bump then raise w count (targeted_sum / count_t) per_round leftover output_with_idx
         else lower w count per_round leftover output_with_idx);
    Some (inl (snd <$> sort_by_key fst l))
  end.

(** [Normalizable] for a vector of per-things, in the upper type. *)
Definition normalize_per (P : PerThing) (input : list Z) (targeted_sum : Z) : option (list Z + string) :=
  match normalize (upper P) input targeted_sum with
  | Some (inl l) => Some (inl ((fun i => from_parts P (saturated_into (inner P) i)) <$> l))
  | Some (inr e) => Some (inr e)
  | None => None
  end.

(** [ThresholdOrd::tcmp] at [w] bits. *)
Definition tcmp (w self other threshold : Z) : comparison :=
  if threshold =? 0 then self ?= other else
  let upper_bound := word_saturating_add w other threshold in
  let lower_bound := saturating_sub other threshold in
  if upper_bound <=? lower_bound then self ?= other
  else
    match self ?= lower_bound, self ?= upper_bound with
    | Gt, Gt => Gt
    | Lt, Lt => Lt
    | _, _ => Eq
    end.

(** * Normalisation reaches its target

    Every loop of [normalize] ends, no [expect] fails, and the new vector sums to the target with every
    value moved in one direction only. *)

(** ** Sums *)

Fixpoint zsum (l : list Z) : Z := match l with [] => 0 | x :: l => x + zsum l end.
Fixpoint values_total (l : Indexed) : Z := match l with [] => 0 | p :: l => p.2 + values_total l end.
Definition nonneg (l : Indexed) : Prop := Forall (fun p => 0 <= p.2) l.

Lemma total_perm l l' : l ≡ₚ l' -> values_total l = values_total l'.
Proof. induction 1; simpl; lia. Qed.

Lemma total_zsum l : values_total l = zsum (l.*2).
Proof. induction l as [| p l IH]; [done |]. rewrite fmap_cons. simpl. lia. Qed.

Lemma total_nonneg l : nonneg l -> 0 <= values_total l.
Proof. induction 1 as [| p l Hp Hl IH]; simpl; lia. Qed.

Lemma total_insert l i p q : l !! i = Some p -> values_total (<[i := q]> l) = values_total l + q.2 - p.2.
Proof.
  revert i. induction l as [| x l IH]; intros [| i] Hi; [done | done | injection Hi as ->; simpl; lia |].
  change (values_total (<[S i := q]> (x :: l))) with (x.2 + values_total (<[i := q]> l)). rewrite (IH i Hi). simpl. lia.
Qed.

Lemma value_le_total l i p : nonneg l -> l !! i = Some p -> 0 <= p.2 <= values_total l.
Proof.
  intros Hl. revert i. induction Hl as [| x l Hx Hl IH]; intros [| i] Hi; simpl in *; try done.
  - injection Hi as ->. pose proof (total_nonneg l Hl). lia.
  - specialize (IH i Hi). lia.
Qed.

Lemma total_pos l : nonneg l -> 0 < values_total l -> Exists (fun p => 0 < p.2) l.
Proof.
  induction 1 as [| p l Hp Hl IH]; simpl; [lia |]. intros Ht.
  destruct (Z.lt_ge_cases 0 p.2); [by constructor |]. right. apply IH. lia.
Qed.

Lemma checked_sum_spec w s l :
  0 <= s -> Forall (fun x => 0 <= x) l -> s < 2 ^ w ->
  checked_sum w s l = if s + zsum l <? 2 ^ w then Some (s + zsum l) else None.
Proof.
  intros Hs Hl. revert s Hs. induction Hl as [| x l Hx Hl IH]; intros s Hs Hb; simpl.
  - rewrite Z.add_0_r, (proj2 (Z.ltb_lt _ _)) by done. done.
  - assert (0 <= zsum l) by (clear -Hl; induction Hl; simpl; lia).
    unfold word_checked_add. destruct (Z.ltb_spec (s + x) (2 ^ w)); cbn [mbind option_bind].
    + rewrite IH by lia. rewrite Z.add_assoc. done.
    + rewrite (proj2 (Z.ltb_ge _ _)) by lia. done.
Qed.

(** ** Values that moved in one direction *)

Section moved.
Context (R : Z -> Z -> Prop) (l0 : Indexed).

Definition moved (l : Indexed) : Prop := Forall2 (fun p0 p => p0.1 = p.1 /\ R p0.2 p.2) l0 l.

(** The state of the loops: places kept, values moved, sum known. *)
Definition shifted (l : Indexed) (sum : Z) : Prop := moved l /\ nonneg l /\ values_total l = sum.

Lemma shifted_length l s : shifted l s -> length l = length l0.
Proof. intros [Hm _]. symmetry. by eapply Forall2_length. Qed.

Lemma value_at_spec l s i :
  shifted l s -> (i < length l0)%nat -> exists p, l !! i = Some p /\ value_at l i = Some p.2 /\ 0 <= p.2 <= s.
Proof.
  intros Hl Hi. pose proof (shifted_length l s Hl) as Hlen. destruct Hl as (_ & Hn & Ht).
  destruct (lookup_lt_is_Some_2 l i) as [p Hp]; [lia |].
  exists p. unfold value_at. rewrite Hp. subst s. split_and!; [done | done | | ]; by eapply value_le_total.
Qed.

Lemma store_spec l s i p v :
  shifted l s -> l !! i = Some p -> 0 <= v -> (forall x, R x p.2 -> R x v) ->
  exists l', store_value l i v = Some l' /\ shifted l' (s + v - p.2).
Proof.
  intros (Hm & Hn & Ht) Hi Hv HR. unfold store_value. rewrite Hi. cbn [mbind option_bind]. eexists. split; [done |].
  split_and!.
  - destruct (Forall2_lookup_r _ _ _ _ _ Hm Hi) as ([k x] & Hk & E & Hx). simpl in *.
    unfold moved. rewrite <- (list_insert_id l0 i (k, x) Hk). apply Forall2_insert; [done |]. simpl. auto.
  - by apply Forall_insert.
  - rewrite (total_insert l i p) by done. simpl. lia.
Qed.
End moved.

(** ** Raising *)

Section raising.
Context (w : Z) (count : nat) (threshold : Z) (l0 : Indexed) (target : Z).
Context (Hcount : (0 < count)%nat) (Hlen : length l0 = count) (Htarget : target < 2 ^ w).

Definition raising (rest : Z) (s : Indexed * nat) : Prop := shifted Z.le l0 s.1 (target - rest) /\ (s.2 < count)%nat.

Lemma bump_spec b rest s :
  0 <= b <= rest -> raising rest s -> exists s', bump w count threshold b s = Some s' /\ raising (rest - b) s'.
Proof.
  intros Hb. destruct s as [l i]. intros [Hl Hi]. cbn [fst snd] in *. unfold bump.
  destruct (value_at_spec _ _ _ _ i Hl ltac:(lia)) as (p & Hp & -> & Hv). cbn [mbind option_bind]. unfold word_checked_add.
  rewrite (proj2 (Z.ltb_lt _ _)) by lia. cbn [mbind option_bind].
  destruct (store_spec _ _ l _ i p (p.2 + b) Hl Hp) as (l' & -> & Hl'); [lia | lia |]. cbn [mbind option_bind].
  eexists. split; [done |]. split; cbn [fst snd].
  - by replace (target - (rest - b)) with (target - rest + (p.2 + b) - p.2) by lia.
  - destruct (threshold <=? p.2 + b); [| done]. unfold next_index. apply Nat.mod_upper_bound. lia.
Qed.

Lemma raise_spec per_round leftover l :
  0 <= per_round -> 0 <= leftover -> shifted Z.le l0 l (target - (per_round * Z.of_nat count + leftover)) ->
  exists l', raise w count threshold per_round leftover l = Some l' /\ shifted Z.le l0 l' target.
Proof.
  intros Hp Hl Hs. unfold raise.
  assert (H1 : exists s, (if per_round =? 0 then Some (l, O) else for_from 0 count (fun _ => bump w count threshold per_round) (l, O)) = Some s /\ raising leftover s).
  { destruct (Z.eqb_spec per_round 0) as [-> | _]; [eexists; split; [done |]; split; [exact Hs | done] |].
    destruct (for_from_inv (fun j => raising (per_round * (Z.of_nat count - Z.of_nat j) + leftover)) 0 count
      (fun _ => bump w count threshold per_round) (l, O)) as (s & -> & Hr).
    - split; [| done]. by replace (Z.of_nat count - Z.of_nat 0) with (Z.of_nat count) by lia.
    - intros j s Hj Hr. assert (1 <= Z.of_nat count - Z.of_nat j) by lia.
      destruct (bump_spec per_round (per_round * (Z.of_nat count - Z.of_nat j) + leftover) s ltac:(nia) Hr) as (s' & -> & Hr'). eexists. split; [done |].
      revert Hr'. match goal with |- raising ?x _ -> raising ?y _ => replace x with y by lia end. done.
    - eexists. split; [done |]. revert Hr. match goal with |- raising ?x _ -> _ => replace x with leftover by lia end. done. }
  destruct H1 as (s & -> & Hr). cbn [mbind option_bind].
  destruct (while_inv (fun '(s, rest) => 0 <= rest /\ raising rest s) (fun '(_, rest) => Z.to_nat rest) (S (Z.to_nat leftover))
    (fun '(_, leftover) => negb (leftover =? 0)) (fun '(s, leftover) => s ← bump w count threshold 1 s; Some (s, leftover - 1)) (s, leftover))
    as ([s' rest] & -> & [Hrest Hr'] & Hend).
  - lia.
  - done.
  - intros [t rest] [Hrest Ht] Hc. bool_to_prop. destruct (bump_spec 1 rest t ltac:(lia) Ht) as (t' & -> & Ht'). cbn [mbind option_bind].
    eexists. split; [done |]. split; [split; [lia | done] | lia].
  - cbn [mbind option_bind]. bool_to_prop. subst rest. destruct Hr' as [Hr' _]. rewrite Z.sub_0_r in Hr'. by exists s'.1.
Qed.
End raising.

(** ** Lowering *)

Section lowering.
Context (w : Z) (count : nat) (threshold : Z) (l0 : Indexed) (target : Z).
Context (Hcount : (0 < count)%nat) (Hlen : length l0 = count) (Htarget : 0 <= target) (Hsum : values_total l0 < 2 ^ w).

(** [extra] is what the rounds ahead will take besides [leftover]. *)
Definition lowering (extra : Z) (s : Indexed * nat * Z) : Prop :=
  let '(l, i, leftover) := s in
  shifted Z.ge l0 l (target + extra + leftover) /\ (i < count)%nat /\ 0 <= leftover /\ target + extra + leftover < 2 ^ w.

Lemma prev_index_lt i : (i < count)%nat -> (prev_index count i < count)%nat.
Proof. destruct i; simpl; lia. Qed.

Lemma lower_round_spec per_round extra s :
  0 <= per_round <= extra -> lowering extra s ->
  exists s', lower_round w count threshold per_round s = Some s' /\ lowering (extra - per_round) s'.
Proof.
  intros Hp. destruct s as [[l i] leftover]. intros (Hl & Hi & H0 & Hb). unfold lower_round.
  destruct (value_at_spec _ _ _ _ i Hl ltac:(lia)) as (p & Hlp & -> & Hv). cbn [mbind option_bind]. unfold word_checked_sub.
  destruct (Z.leb_spec per_round p.2) as [Hle | Hlt].
  - destruct (store_spec _ _ l _ i p (p.2 - per_round) Hl Hlp) as (l' & -> & Hl'); [lia | lia |]. cbn [mbind option_bind].
    eexists. split; [done |]. split_and!; [| by destruct (_ <=? _); [apply prev_index_lt |] | done | lia].
    revert Hl'. match goal with |- shifted _ _ _ ?x -> shifted _ _ _ ?y => replace x with y by lia end. done.
  - assert (E0 : saturating_sub p.2 per_round = 0) by (unfold saturating_sub; lia). rewrite E0.
    destruct (store_spec _ _ l _ i p 0 Hl Hlp) as (l' & -> & Hl'); [lia | lia |]. cbn [mbind option_bind].
    rewrite (wrap_small w) by (split; lia). eexists. split; [done |].
    split_and!; [| by destruct (_ <=? _); [apply prev_index_lt |] | lia | lia].
    revert Hl'. match goal with |- shifted _ _ _ ?x -> shifted _ _ _ ?y => replace x with y by lia end. done.
Qed.

(** The distance of the index from a value that can be lowered. *)
Definition first_pos (l : Indexed) : nat := default O (fst <$> list_find (fun p => 0 < p.2) l).

Definition distance (i k : nat) : nat := if (k <=? i)%nat then (i - k)%nat else (i + count - k)%nat.

Definition rounds_to_go (s : Indexed * nat * Z) : nat :=
  let '(l, i, leftover) := s in (Z.to_nat leftover * S count + distance i (first_pos l))%nat.

Lemma first_pos_spec l s :
  shifted Z.ge l0 l s -> 0 < s -> (first_pos l < count)%nat /\ exists p, l !! first_pos l = Some p /\ 0 < p.2.
Proof.
  intros Hs Hpos. pose proof (shifted_length _ _ _ _ Hs) as Hl. destruct Hs as (_ & Hn & Ht). subst s.
  pose proof (total_pos l Hn Hpos) as He. apply Exists_exists in He as (p & Hin & Hp).
  destruct (list_find_elem_of (fun p => 0 < p.2) l p Hin Hp) as [[k q] Hk]. unfold first_pos. rewrite Hk. simpl.
  apply list_find_Some in Hk as (Hk & Hq & _). split; [| by exists q]. apply lookup_lt_Some in Hk. lia.
Qed.

Lemma distance_lt i k : (i < count)%nat -> (k < count)%nat -> (distance i k < count)%nat.
Proof. unfold distance. destruct (Nat.leb_spec k i); lia. Qed.

Lemma distance_prev i k : (i < count)%nat -> (k < count)%nat -> i <> k -> (distance (prev_index count i) k < distance i k)%nat.
Proof.
  intros Hi Hk Hne. unfold distance. destruct i as [| i]; simpl;
    repeat match goal with |- context [(?x <=? ?y)%nat] => destruct (Nat.leb_spec x y) end; lia.
Qed.

Lemma first_pos_lt l : (length l = count -> first_pos l < count)%nat.
Proof.
  intros Hl. unfold first_pos. destruct (list_find _ l) as [[k q] |] eqn:E; simpl; [| lia].
  apply list_find_Some in E as (Hk & _). apply lookup_lt_Some in Hk. lia.
Qed.

Lemma lower_one_spec s :
  lowering 0 s -> s.2 <> 0 ->
  exists s', lower_one count threshold s = Some s' /\ lowering 0 s' /\ (rounds_to_go s' < rounds_to_go s)%nat.
Proof.
  destruct s as [[l i] leftover]. intros (Hl & Hi & H0 & Hb) Hne. cbn [snd] in Hne. unfold lower_one.
  destruct (value_at_spec _ _ _ _ i Hl ltac:(lia)) as (p & Hp & -> & Hv). cbn [mbind option_bind]. unfold word_checked_sub.
  destruct (first_pos_spec l _ Hl ltac:(lia)) as (Hk & q & Hq & Hqp).
  destruct (Z.leb_spec 1 p.2) as [H1 | H1].
  - destruct (store_spec _ _ l _ i p (p.2 - 1) Hl Hp) as (l' & -> & Hl'); [lia | lia |]. cbn [mbind option_bind].
    assert (Hi' : ((if (p.2 - 1 <=? threshold)%Z then prev_index count i else i) < count)%nat) by (destruct (_ <=? _); [by apply prev_index_lt | done]).
    pose proof (first_pos_lt l') as Hk'. rewrite (shifted_length _ _ _ _ Hl') in Hk'. specialize (Hk' Hlen).
    eexists. split; [done |]. split.
    + split_and!; [| done | lia | lia]. revert Hl'. match goal with |- shifted _ _ _ ?x -> shifted _ _ _ ?y => replace x with y by lia end. done.
    + unfold rounds_to_go. pose proof (distance_lt _ _ Hi' Hk'). replace (Z.to_nat leftover) with (S (Z.to_nat (leftover - 1))) by lia. lia.
  - assert (Hik : i <> first_pos l) by (intros ->; rewrite Hp in Hq; injection Hq as ->; lia).
    eexists. split; [done |]. split; [split_and!; (done || by apply prev_index_lt) |].
    unfold rounds_to_go. pose proof (distance_prev i (first_pos l) Hi Hk Hik). lia.
Qed.

Lemma lower_while s :
  lowering 0 s ->
  exists l i, while_loop (lower_fuel count s.2) (fun '(_, _, leftover) => negb (leftover =? 0)) (lower_one count threshold) s = Some (l, i, 0) /\
    shifted Z.ge l0 l target.
Proof.
  intros Hs. destruct (while_inv (lowering 0) rounds_to_go (lower_fuel count s.2) (fun '(_, _, leftover) => negb (leftover =? 0))
    (lower_one count threshold) s) as ([[l i] leftover] & -> & (Hl & _) & Hend).
  - destruct s as [[l i] leftover]. destruct Hs as (Hl & Hi & H0 & _). unfold rounds_to_go, lower_fuel. cbn [snd].
    pose proof (distance_lt i (first_pos l) Hi (first_pos_lt l ltac:(rewrite (shifted_length _ _ _ _ Hl); done))). nia.
  - done.
  - intros [[l i] leftover] Hi Hc. apply lower_one_spec; [done |]. simpl. bool_to_prop. done.
  - bool_to_prop. subst leftover. exists l, i. split; [done |]. rewrite !Z.add_0_r in Hl. done.
Qed.
End lowering.

Lemma lower_spec w count l0 target per_round leftover :
  (0 < count)%nat -> length l0 = count -> 0 <= target -> nonneg l0 -> values_total l0 < 2 ^ w -> 0 <= per_round -> 0 <= leftover ->
  values_total l0 = target + per_round * Z.of_nat count + leftover ->
  exists l', lower w count per_round leftover l0 = Some l' /\ shifted Z.ge l0 l' target.
Proof.
  intros Hc Hlen Ht Hn Hb Hp Hl Hsum. unfold lower.
  assert (Hs0 : shifted Z.ge l0 l0 (values_total l0)) by (split_and!; [apply Forall_Forall2_diag, Forall_true; intros; split; [done | lia] | done | done]).
  destruct (value_at_spec _ _ _ _ O Hs0 ltac:(lia)) as (p & _ & -> & _). cbn [mbind option_bind].
  assert (H1 : exists s, (if per_round =? 0 then Some (l0, (count - 1)%nat, leftover)
      else for_from 0 count (fun _ => lower_round w count p.2 per_round) (l0, (count - 1)%nat, leftover)) = Some s /\ lowering w count l0 target 0 s).
  { destruct (Z.eqb_spec per_round 0) as [-> | _].
    { eexists. split; [done |]. split_and!; [| lia | done | lia]. by replace (target + 0 + leftover) with (values_total l0) by lia. }
    destruct (for_from_inv (fun j => lowering w count l0 target (per_round * (Z.of_nat count - Z.of_nat j))) 0 count
      (fun _ => lower_round w count p.2 per_round) (l0, (count - 1)%nat, leftover)) as (s & -> & Hr).
    - replace (Z.of_nat count - Z.of_nat 0) with (Z.of_nat count) by lia. split_and!; [| lia | done | lia].
      by replace (target + per_round * Z.of_nat count + leftover) with (values_total l0) by lia.
    - intros j s Hj Hr. assert (1 <= Z.of_nat count - Z.of_nat j) by lia.
      destruct (lower_round_spec w count p.2 l0 target Hc Hlen Ht per_round (per_round * (Z.of_nat count - Z.of_nat j)) s ltac:(nia) Hr) as (s' & -> & Hr').
      eexists. split; [done |]. revert Hr'. match goal with |- lowering _ _ _ _ ?x _ -> lowering _ _ _ _ ?y _ => replace x with y by lia end. done.
    - eexists. split; [done |]. revert Hr. match goal with |- lowering _ _ _ _ ?x _ -> _ => replace x with 0 by lia end. done. }
  destruct H1 as (s & -> & Hs). cbn [mbind option_bind].
  destruct (lower_while w count p.2 l0 target Hc Hlen Ht s Hs) as (l & i & -> & Hl'). cbn [mbind option_bind]. by exists l.
Qed.

(** ** Sorting *)

Section sorting.
Context {A : Type} (key : A -> Z).

Lemma insert_perm x l : insert_by_key key x l ≡ₚ x :: l.
Proof.
  induction l as [| y l IH]; simpl; [done |]. destruct (key x <=? key y); [done |]. rewrite IH. by rewrite Permutation_swap.
Qed.

Lemma sort_perm l : sort_by_key key l ≡ₚ l.
Proof. induction l as [| x l IH]; simpl; [done |]. rewrite insert_perm. by rewrite IH. Qed.

Lemma insert_swap x y l :
  key x <> key y -> insert_by_key key x (insert_by_key key y l) = insert_by_key key y (insert_by_key key x l).
Proof.
  intros Hne. induction l as [| z l IH]; simpl.
  - destruct (Z.leb_spec (key x) (key y)), (Z.leb_spec (key y) (key x)); (done || lia).
  - destruct (Z.leb_spec (key y) (key z)), (Z.leb_spec (key x) (key z)); simpl;
      repeat match goal with |- context [?a <=? ?b] => destruct (Z.leb_spec a b) end; (done || lia || by rewrite IH).
Qed.

(** Sorting a rearrangement of a list with increasing keys gives that list. *)
Lemma sort_unique l l' : l ≡ₚ l' -> StronglySorted Z.lt (key <$> l') -> sort_by_key key l = l'.
Proof.
  intros Hp Hs. transitivity (sort_by_key key l').
  - unfold sort_by_key. symmetry in Hp. symmetry. apply (foldr_permutation eq); [intros x y z ->; done | | done].
    intros j1 a1 j2 a2 b Hne H1 H2. apply insert_swap. intros E. apply Hne.
    assert (Hnd : NoDup (key <$> l')).
    { clear -Hs. remember (key <$> l') as ks. clear Heqks. induction Hs as [| k ks Hs IH Hk]; constructor; [| done].
      intros Hin. rewrite Forall_forall in Hk. specialize (Hk k Hin). lia. }
    eapply NoDup_lookup; [exact Hnd | |]; rewrite list_lookup_fmap; [by rewrite H1 |]. rewrite H2. simpl. by rewrite E.
  - clear Hp l. induction l' as [| x l IH]; [done |]. rewrite fmap_cons in Hs. apply StronglySorted_inv in Hs as [Hs Hx].
    change (sort_by_key key (x :: l)) with (insert_by_key key x (sort_by_key key l)). rewrite IH by done.
    destruct l as [| y l]; [done |]. simpl. rewrite fmap_cons in Hx. apply Forall_cons_1 in Hx as [Hx _].
    rewrite (proj2 (Z.leb_le _ _)) by lia. done.
Qed.
End sorting.

Lemma enumerate_from_sorted k l : StronglySorted Z.lt (fst <$> imap (fun i (x : Z) => (Z.of_nat (k + i), x)) l).
Proof.
  revert k. induction l as [| x l IH]; intros k; [constructor |]. rewrite imap_cons, fmap_cons.
  assert (E : imap ((fun i (x : Z) => (Z.of_nat (k + i), x)) ∘ S) l = imap (fun i x => (Z.of_nat (S k + i), x)) l).
  { apply imap_ext. intros i y _. simpl. do 2 f_equal. lia. }
  rewrite E. constructor; [apply IH |]. apply Forall_forall. intros z Hz. apply list_elem_of_fmap in Hz as ([a b] & -> & Hz).
  apply elem_of_lookup_imap in Hz as (i & y & Hy & _). injection Hy as -> ->. simpl. lia.
Qed.

Lemma enumerate_sorted l : StronglySorted Z.lt (fst <$> enumerate l).
Proof. apply (enumerate_from_sorted 0). Qed.

Lemma enumerate_values l : snd <$> enumerate l = l.
Proof. unfold enumerate. rewrite fmap_imap. apply list_eq. intros i. rewrite list_lookup_imap. by destruct (l !! i). Qed.

(** The values put back in their places. *)
Lemma restore R input l s :
  shifted R (sort_by_key snd (enumerate input)) l s ->
  let out := snd <$> sort_by_key fst l in Forall2 R input out /\ zsum out = s /\ Forall (fun x => 0 <= x) out.
Proof.
  intros (Hm & Hn & Ht) out. destruct (Permutation_Forall2 (sort_perm snd (enumerate input)) Hm) as (l' & Hp & Hf).
  assert (Ekeys : fst <$> l' = fst <$> enumerate input).
  { clear -Hf. induction Hf as [| p p' l l' [Hk _] _ IH]; [done |]. rewrite !fmap_cons. by f_equal. }
  assert (Eout : out = snd <$> l').
  { unfold out. rewrite (sort_unique fst l l' Hp); [done |]. rewrite Ekeys. apply enumerate_sorted. }
  rewrite Eout. split_and!.
  - rewrite <- (enumerate_values input). apply Forall2_fmap. eapply Forall2_impl; [exact Hf |]. by intros ? ? [_ ?].
  - rewrite <- total_zsum, <- (total_perm l l' Hp). done.
  - apply Forall_fmap. unfold nonneg in Hn. by rewrite Hp in Hn.
Qed.

(** ** The whole function *)

Lemma normalize_run w input target :
  0 < w -> Forall (is_word w) input -> is_word w target ->
  exists r, normalize w input target = Some r /\
  match r with
  | inr _ => 2 ^ w <= zsum input \/ 2 ^ w <= Z.of_nat (length input)
  | inl out =>
      zsum input < 2 ^ w /\ Z.of_nat (length input) < 2 ^ w /\
      Forall2 (if zsum input <? target then Z.le else Z.ge) input out /\
      Forall (fun x => 0 <= x) out /\ (input <> [] -> zsum out = target)
  end.
Proof.
  intros Hw Hin [Ht0 Ht1]. assert (Hnn : Forall (fun x => 0 <= x) input) by (eapply Forall_impl; [exact Hin |]; by intros x [? _]).
  unfold normalize. rewrite checked_sum_spec by (done || apply Z.pow_pos_nonneg; lia || lia). rewrite Z.add_0_l.
  destruct (Z.ltb_spec (zsum input) (2 ^ w)) as [Hs | Hs]; [| eexists; split; [done |]; by left].
  destruct (Z.leb_spec (2 ^ w) (Z.of_nat (length input))) as [Hc | Hc]; [eexists; split; [done |]; by right |].
  destruct (Nat.eqb_spec (length input) 0) as [He | He].
  { apply nil_length_inv in He as ->. eexists. split; [done |]. by split_and!. }
  destruct (Z.eqb_spec (Z.max target (zsum input) - Z.min target (zsum input)) 0) as [Hd | Hd].
  { eexists. split; [done |]. rewrite (proj2 (Z.ltb_ge _ _)) by lia. split_and!; try done; [| intros _; lia].
    apply Forall_Forall2_diag, Forall_true. lia. }
  set (l0 := sort_by_key snd (enumerate input)). set (count := length input) in *. set (diff := _ - _) in *.
  assert (Hl0 : length l0 = count) by (unfold l0; rewrite (sort_perm snd); unfold enumerate; apply length_imap).
  assert (Ht : values_total l0 = zsum input) by (rewrite <- (enumerate_values input), <- total_zsum; apply total_perm, sort_perm).
  assert (Hn : nonneg l0).
  { unfold nonneg, l0. rewrite (sort_perm snd). pose proof Hnn as H. rewrite <- (enumerate_values input) in H. by rewrite Forall_fmap in H. }
  pose proof (Z.div_mod diff (Z.of_nat count) ltac:(lia)) as Ed. pose proof (Z.mod_pos_bound diff (Z.of_nat count) ltac:(lia)) as Hm.
  assert (Hq : 0 <= diff / Z.of_nat count) by (apply Z.div_pos; lia).
  assert (Hrun : exists l', (if zsum input <? target then raise w count (target / Z.of_nat count) (diff / Z.of_nat count) (diff mod Z.of_nat count) l0
    else lower w count (diff / Z.of_nat count) (diff mod Z.of_nat count) l0) = Some l' /\
    shifted (if zsum input <? target then Z.le else Z.ge) l0 l' target).
  { destruct (Z.ltb_spec (zsum input) target) as [Hlt | Hge].
    - apply (raise_spec w count _ l0 target); try done; [lia | lia |].
      split_and!; [apply Forall_Forall2_diag, Forall_true; intros; split; [done | lia] | done | lia].
    - apply lower_spec; (done || lia). }
  destruct Hrun as (l' & -> & Hsh). cbn [mbind option_bind]. eexists. split; [done |].
  destruct (restore _ _ _ _ Hsh) as (H1 & H2 & H3). by split_and!.
Qed.

Lemma zsum_bound l x : Forall (fun x => 0 <= x) l -> x ∈ l -> x <= zsum l.
Proof.
  induction 1 as [| y l Hy Hl IH]; intros Hx; [by apply not_elem_of_nil in Hx |]. simpl.
  assert (0 <= zsum l) by (clear -Hl; induction Hl; simpl; lia).
  apply elem_of_cons in Hx as [-> | Hx]; [lia |]. specialize (IH Hx). lia.
Qed.

(** Values up to one are what [from_parts] keeps. *)
Lemma from_parts_id P l :
  per_wf P -> Forall (is_per P) l -> (fun i => from_parts P (saturated_into (inner P) i)) <$> l = l.
Proof.
  intros HP Hl. rewrite <- (list_fmap_id l) at 2. apply list_fmap_ext. intros i x Hx. rewrite Forall_lookup in Hl.
  destruct (Hl i x Hx) as [H0 H1]. pose proof (pw_acc P HP). unfold from_parts, saturated_into. simpl. lia.
Qed.

(** C29. [normalize] reaches the target: on any vector it ends without a panic.  It is an error exactly when
    the sum or the length does not fit in the type; otherwise the new vector has the same length, every value
    moved towards the target only (up when the sum was short, down when it was over), and, unless the vector
    is empty, sums to the target.  For per-things the sum is taken in the upper type and nothing is cut off
    on the way back. *)
Theorem normalize_exact w input target :
  0 < w -> Forall (is_word w) input -> is_word w target ->
  (exists r, normalize w input target = Some r /\
   match r with
   | inr _ => 2 ^ w <= zsum input \/ 2 ^ w <= Z.of_nat (length input)
   | inl out =>
       zsum input < 2 ^ w /\ Z.of_nat (length input) < 2 ^ w /\
       Forall2 (if zsum input <? target then Z.le else Z.ge) input out /\
       Forall (fun x => 0 <= x) out /\ (input <> [] -> zsum out = target)
   end) /\
  (forall P, In P per_things -> w = upper P -> is_per P target -> Forall (is_per P) input ->
    normalize_per P input target = normalize w input target).
Proof.
  intros Hw Hin Ht. split; [by apply normalize_run |]. intros P HP -> Htp Hip. apply per_things_wf in HP.
  destruct (normalize_run (upper P) input target Hw Hin Ht) as (r & Hr & Hm). unfold normalize_per. rewrite Hr.
  destruct r as [out | e]; [| done]. do 2 f_equal. apply from_parts_id; [done |].
  destruct Hm as (_ & _ & Hmove & Hnn & Hsum). apply Forall_forall. intros x Hx. rewrite Forall_forall in Hnn. split; [by apply Hnn |].
  destruct (decide (input = [])) as [-> | Hne]; [inversion Hmove; subst; by apply not_elem_of_nil in Hx |].
  rewrite <- Forall_forall in Hnn. pose proof (zsum_bound out x Hnn Hx). rewrite (Hsum Hne) in *. destruct Htp. lia.
Qed.

Lemma normalize_exact_witness : exists out, normalize 8 [1; 100; 100] 10 = Some (inl out) /\ zsum out = 10.
Proof.
  destruct (normalize_exact 8 [1; 100; 100] 10) as [([out | e] & Hr & Hm) _]; [done | by repeat constructor | done | |].
  - exists out. split; [exact Hr |]. by apply Hm.
  - vm_compute in Hr. discriminate Hr.
Defined.

(** Comparison with a threshold: saturation at the bounds of the type does not change what [tcmp] says,
    which is more or less by more than the threshold. *)
Theorem tcmp_exact w self other threshold :
  is_word w self -> is_word w other -> is_word w threshold ->
  tcmp w self other threshold =
    if other + threshold <? self then Gt else if self <? other - threshold then Lt else Eq.
Proof.
  intros [Hs0 Hs1] [Ho0 Ho1] [Ht0 Ht1]. unfold tcmp, word_saturating_add, saturating_sub.
  destruct (Z.eqb_spec threshold 0) as [-> | Hne].
  { destruct (Z.compare_spec self other), (Z.ltb_spec (other + 0) self), (Z.ltb_spec self (other - 0)); (done || lia). }
  destruct (Z.leb_spec (Z.min (2 ^ w - 1) (other + threshold)) (Z.max 0 (other - threshold))) as [Hc | Hc]; [lia |].
  destruct (Z.compare_spec self (Z.max 0 (other - threshold))), (Z.compare_spec self (Z.min (2 ^ w - 1) (other + threshold))),
    (Z.ltb_spec (other + threshold) self), (Z.ltb_spec self (other - threshold)); (done || lia).
Qed.

Lemma tcmp_exact_witness : tcmp 8 250 200 49 = Gt.
Proof. rewrite (tcmp_exact 8 250 200 49); done. Defined.
