(* ===== verification/FixedPoint.v ===== *)
(** * Fixed point numbers

    [src/substrate/primitives/arithmetic/src/fixed_point.rs]: decimal fixed point numbers on signed and unsigned
    machine integers, by the macro [implement_fixed!].  A number is its inner integer; [Fixed] holds what
    the macro is instantiated with.  [None] at the outside is a panic; plain arithmetic wraps as in a
    release build. *)

From stdpp Require Import base tactics numbers list option.
From S2P Require Import Prelude Words Helpers128 Rational PerThings.
Local Open Scope Z_scope.

(** ** Machine integers *)

Record IntTy := { bits : Z; is_signed : bool }.

Definition imin (T : IntTy) : Z := if is_signed T then - 2 ^ (bits T - 1) else 0.
Definition imax (T : IntTy) : Z := if is_signed T then 2 ^ (bits T - 1) - 1 else 2 ^ bits T - 1.

Definition fits (T : IntTy) (x : Z) : bool := (imin T <=? x) && (x <=? imax T).
Definition checked (T : IntTy) (x : Z) : option Z := if fits T x then Some x else None.
Definition clamp (T : IntTy) (x : Z) : Z := Z.max (imin T) (Z.min (imax T) x).

(** [x as T] *)
Definition as_int (T : IntTy) (x : Z) : Z :=
  let y := x mod 2 ^ bits T in
  if is_signed T && (2 ^ (bits T - 1) <=? y) then y - 2 ^ bits T else y.

Definition int_checked_neg (T : IntTy) (x : Z) : option Z := checked T (- x).
Definition int_checked_mul (T : IntTy) (x y : Z) : option Z := checked T (x * y).
Definition int_checked_div (T : IntTy) (x y : Z) : option Z := if y =? 0 then None else checked T (Z.quot x y).

(** [unique_saturated_into::<u128>], [x as u128] and [try_from::<u128>] *)
Definition to_u128 (x : Z) : Z := Z.max 0 (Z.min (2 ^ 128 - 1) x).
Definition as_u128 (x : Z) : Z := x mod 2 ^ 128.
Definition from_u128 (T : IntTy) (v : Z) : option Z := if v <=? imax T then Some v else None.

(** ** Signs *)

Inductive SignedRounding :=
| High | Low | NearestPrefHigh | NearestPrefLow | Major | Minor | NearestPrefMajor | NearestPrefMinor.

Definition from_signed (rounding : SignedRounding) (negative : bool) : Rounding :=
  match rounding, negative with
  | Low, true | Major, _ | High, false => Up
  | High, true | Minor, _ | Low, false => Down
  | NearestPrefMajor, _ | NearestPrefHigh, false | NearestPrefLow, true => NearestPrefUp
  | NearestPrefMinor, _ | NearestPrefLow, false | NearestPrefHigh, true => NearestPrefDown
  end.

Record I129 := { value : Z; negative : bool }.

(** [impl From<N> for I129] *)
Definition into_I129 (T : IntTy) (n : Z) : I129 :=
  if n <? 0 then
    let v := match int_checked_neg T n with
             | Some n => to_u128 n
             | None => word_saturating_add 128 (to_u128 (imax T)) 1
             end in
    {| value := v; negative := true |}
  else {| value := to_u128 n; negative := false |}.

Definition from_i129 (T : IntTy) (n : I129) : option Z :=
  let max_plus_one := word_saturating_add 128 (to_u128 (imax T)) 1 in
  if negative n && (imin T <? 0) && (value n =? max_plus_one) then Some (imin T)
  else
    unsigned_inner ← from_u128 T (value n);
    if negative n then int_checked_neg T unsigned_inner else Some unsigned_inner.

(** [R::min] or [R::max] by the sign of [n * m]. *)
Definition to_bound (R : IntTy) (n m : Z) : Z :=
  if xorb (n <? 0) (m <? 0) then imin R else imax R.

(** ** The types *)

Record Fixed := { inner_ty : IntTy; DIV : Z }.

Definition i64 : IntTy := {| bits := 64; is_signed := true |}.
Definition u64 : IntTy := {| bits := 64; is_signed := false |}.
Definition i128 : IntTy := {| bits := 128; is_signed := true |}.
Definition u128 : IntTy := {| bits := 128; is_signed := false |}.

Definition FixedI64 : Fixed := {| inner_ty := i64; DIV := 1000000000 |}.
Definition FixedU64 : Fixed := {| inner_ty := u64; DIV := 1000000000 |}.
Definition FixedI128 : Fixed := {| inner_ty := i128; DIV := 1000000000000000000 |}.
Definition FixedU128 : Fixed := {| inner_ty := u128; DIV := 1000000000000000000 |}.

Section fixed.
Context (F : Fixed).
Let T : IntTy := inner_ty F.
Let D : Z := DIV F.

(** Two magnitudes and a sign through [multiply_by_rational_with_rounding], back into a type. *)
Definition signed_mulrat (R : IntTy) (a b c : Z) (r : SignedRounding) (negative : bool) : option (option Z) :=
  o ← multiply_by_rational_with_rounding a b c (from_signed r negative);
  Some (match o with Some v => from_i129 R {| value := v; negative := negative |} | None => None end).

(** ** Integers and fractions *)

Definition saturating_from_integer (N : IntTy) (int : Z) : Z :=
  let n := into_I129 N int in
  let n := {| value := word_saturating_mul 128 (value n) (to_u128 D); negative := negative n |} in
  match from_i129 T n with Some x => x | None => to_bound T int 0 end.

Definition checked_from_integer (int : Z) : option Z := int_checked_mul T int D.

Definition checked_from_rational (N M : IntTy) (n d : Z) : option (option Z) :=
  if d =? 0 then Some None else
  let n := into_I129 N n in
  let d := into_I129 M d in
  signed_mulrat T (value n) (to_u128 D) (value d) Minor (xorb (negative n) (negative d)).

Definition saturating_from_rational (N M : IntTy) (n d : Z) : option Z :=
  if d =? 0 then None else
  o ← checked_from_rational N M n d;
  Some (match o with Some x => x | None => to_bound T n d end).

Definition checked_mul_int (N : IntTy) (self n : Z) : option (option Z) :=
  let lhs := into_I129 T self in
  let rhs := into_I129 N n in
  signed_mulrat N (value lhs) (value rhs) (to_u128 D) Minor (xorb (negative lhs) (negative rhs)).

Definition saturating_mul_int (N : IntTy) (self n : Z) : option Z :=
  o ← checked_mul_int N self n;
  Some (match o with Some x => x | None => to_bound N self n end).

Definition checked_div_int (N : IntTy) (self d : Z) : option Z :=
  let lhs := into_I129 T self in
  let rhs := into_I129 N d in
  n ← word_div (value lhs) (value rhs);
  v ← word_div n (to_u128 D);
  from_i129 N {| value := v; negative := xorb (negative lhs) (negative rhs) |}.

Definition saturating_div_int (N : IntTy) (self d : Z) : option Z :=
  if d =? 0 then None
  else Some (match checked_div_int N self d with Some x => x | None => to_bound N self d end).

Definition fixed_one : Z := D.
Definition fixed_zero : Z := 0.

Definition fixed_saturating_add (self rhs : Z) : Z := clamp T (self + rhs).
Definition fixed_saturating_sub (self rhs : Z) : Z := clamp T (self - rhs).

Definition fixed_is_one (self : Z) : bool := self =? 1.
Definition is_positive (self : Z) : bool := 0 <? self.
Definition is_negative (self : Z) : bool := self <? 0.

Definition saturating_mul_acc_int (N : IntTy) (self n : Z) : option Z :=
  if is_negative self && (0 <? n) then
    m ← saturating_mul_int N (fixed_saturating_sub fixed_zero self) n;
    Some (clamp N (n - m))
  else
    m ← saturating_mul_int N self n;
    Some (clamp N (m + n)).

Definition saturating_abs (self : Z) : Z :=
  if 0 <=? self then self
  else match int_checked_neg T self with Some x => x | None => imax T end.

(** ** Multiplication and division *)

Definition fixed_checked_mul (self other : Z) : option (option Z) :=
  let lhs := into_I129 T self in
  let rhs := into_I129 T other in
  signed_mulrat T (value lhs) (value rhs) (as_u128 D) Minor (xorb (negative lhs) (negative rhs)).

Definition fixed_checked_div (self other : Z) : option (option Z) :=
  if other =? 0 then Some None else
  let lhs := into_I129 T self in
  let rhs := into_I129 T other in
  signed_mulrat T (value lhs) (as_u128 D) (value rhs) Minor (xorb (negative lhs) (negative rhs)).

Definition fixed_saturating_mul (self rhs : Z) : option Z :=
  o ← fixed_checked_mul self rhs;
  Some (match o with Some x => x | None => to_bound T self rhs end).

Definition reciprocal (self : Z) : option (option Z) := fixed_checked_div fixed_one self.

(** The [const] versions of the conversions. *)
Definition const_into_i129 (self : Z) : I129 :=
  if self <? 0 then
    {| value := match int_checked_neg T self with
                | Some n => as_u128 n
                | None => word_saturating_add 128 (as_u128 (imax T)) 1
                end; negative := true |}
  else {| value := as_u128 self; negative := false |}.

Definition const_from_i129 (n : I129) : option Z :=
  let max_plus_one := word_saturating_add 128 (as_u128 (imax T)) 1 in
  if negative n && (imin T <? 0) && (value n =? max_plus_one) then Some (imin T)
  else
    let unsigned_inner := as_int T (value n) in
    if negb (as_u128 unsigned_inner =? value n) || xorb (0 <? unsigned_inner) (0 <? value n) then None
    else if negative n then int_checked_neg T unsigned_inner
    else Some unsigned_inner.

Definition const_mulrat (a b c : Z) (r : SignedRounding) (negative : bool) : option (option Z) :=
  o ← multiply_by_rational_with_rounding a b c (from_signed r negative);
  Some (match o with Some v => const_from_i129 {| value := v; negative := negative |} | None => None end).

Definition const_checked_mul_with_rounding (self other : Z) (rounding : SignedRounding) : option (option Z) :=
  let lhs := const_into_i129 self in
  let rhs := const_into_i129 other in
  const_mulrat (value lhs) (value rhs) (as_u128 D) rounding (xorb (negative lhs) (negative rhs)).

Definition const_checked_mul (self other : Z) : option (option Z) :=
  const_checked_mul_with_rounding self other NearestPrefLow.

Definition checked_rounding_div (self other : Z) (rounding : SignedRounding) : option (option Z) :=
  if other =? 0 then Some None else
  let lhs := const_into_i129 self in
  let rhs := const_into_i129 other in
  const_mulrat (value lhs) (as_u128 D) (value rhs) rounding (xorb (negative lhs) (negative rhs)).

Definition const_checked_div (self other : Z) : option (option Z) := checked_rounding_div self other NearestPrefLow.

(** A [None] becomes a panic. *)
Definition or_panic {A} (m : option (option A)) : option A :=
  match m with Some (Some x) => Some x | _ => None end.

Definition fixed_mul (self rhs : Z) : option Z := or_panic (const_checked_mul self rhs).
Definition fixed_div (self rhs : Z) : option Z := or_panic (const_checked_div self rhs).

(** [impl ops::Mul] and [impl ops::Div] *)
Definition ops_mul (self rhs : Z) : option Z := or_panic (fixed_checked_mul self rhs).
Definition ops_div (self rhs : Z) : option Z := if rhs =? 0 then None else or_panic (fixed_checked_div self rhs).

Definition fixed_from_rational_with_rounding (a b : Z) (rounding : Rounding) : option Z :=
  if b =? 0 then None else
  o ← multiply_by_rational_with_rounding (as_u128 D) a b rounding;
  match o with
  | Some v => const_from_i129 {| value := v; negative := false |}
  | None => None
  end.

Definition fixed_from_rational (a b : Z) : option Z := fixed_from_rational_with_rounding a b NearestPrefDown.

Definition fixed_checked_add (self rhs : Z) : option Z := checked T (self + rhs).
Definition fixed_checked_sub (self rhs : Z) : option Z := checked T (self - rhs).
Definition fixed_add (self rhs : Z) : Z := as_int T (self + rhs).
Definition fixed_sub (self rhs : Z) : Z := as_int T (self - rhs).
Definition fixed_neg (self : Z) : Z := as_int T (0 - self).

(** ** Powers and roots *)

Definition pow_round (exp : Z) (i : nat) (s : Z * Z) : option (Z * Z) :=
  let '(result, pow_val) := s in
  result ← (if 0 <? Z.land (Z.shiftl 1 (Z.of_nat i)) exp then fixed_saturating_mul result pow_val else Some result);
  pow_val ← fixed_saturating_mul pow_val pow_val;
  Some (result, pow_val).

(** [i32] is the type of the literal in [saturating_from_integer(1)]. *)
Definition i32 : IntTy := {| bits := 32; is_signed := true |}.

Definition fixed_saturating_pow (self exp : Z) : option Z :=
  if exp =? 0 then Some (saturating_from_integer i32 1) else
  let exp := wrap 32 exp in
  let msb_pos := 32 - leading_zeros 32 exp in
  '(result, _) ← for_from 0 (Z.to_nat msb_pos) (pow_round exp) (saturating_from_integer i32 1, self);
  Some result.

Definition checked_sqrt (self : Z) : option (option Z) :=
  if self =? 0 then Some (Some 0)
  else if self <? 1 then Some None
  else
    let v := as_u128 self in
    r ← (if v * D <? 2 ^ 128 then sqrt (v * D)
         else s ← sqrt v; d ← sqrt D; Some (wrap 128 (s * d)));
    Some (Some (as_int T r)).

(** ** Integer and fractional part *)

Definition trunc (self : Z) : option Z :=
  q ← int_checked_div T self D;
  int_checked_mul T q D.

Definition frac (self : Z) : option Z :=
  integer ← trunc self;
  let fractional := fixed_saturating_sub self integer in
  Some (if integer =? fixed_zero then fractional else saturating_abs fractional).

Definition ceil (self : Z) : option Z :=
  if is_negative self then trunc self
  else
    f ← frac self;
    if f =? fixed_zero then Some self else trunc (fixed_saturating_add self fixed_one).

Definition floor (self : Z) : option Z :=
  if is_negative self then trunc (fixed_saturating_sub self fixed_one) else trunc self.

Definition round (self : Z) : option Z :=
  f ← frac self;
  n ← fixed_saturating_mul f (saturating_from_integer i32 10);
  if n <? saturating_from_integer i32 5 then trunc self
  else if is_positive self then trunc (fixed_saturating_add self fixed_one)
  else trunc (fixed_saturating_sub self fixed_one).

(** ** Per-things *)

Definition from_perbill (n : Z) : option Z := fixed_from_rational n 1000000000.

Definition into_perbill (self : Z) : option Z :=
  if self <=? 0 then Some (per_zero Perbill)
  else if D <=? self then Some (per_one Perbill)
  else
    o ← multiply_by_rational_with_rounding (as_u128 self) 1000000000 (as_u128 D) NearestPrefDown;
    match o with
    | Some v => if 2 ^ 32 - 1 <? v then None else Some (from_parts Perbill (wrap 32 v))
    | None => Some (per_zero Perbill)
    end.

(** [Ok] on the left, [Err] on the right. *)
Definition try_into_perthing (P : PerThing) (self : Z) : option (Z + Z) :=
  if self <? fixed_zero then Some (inr (per_zero P))
  else if fixed_one <? self then Some (inr (per_one P))
  else p ← from_rational P 128 (as_u128 self) D; Some (inl p).

Definition into_clamped_perthing (P : PerThing) (self : Z) : option Z :=
  if self <? fixed_zero then Some (per_zero P)
  else if fixed_one <? self then Some (per_one P)
  else from_rational P 128 (as_u128 self) D.
End fixed.
