(* ===== verification/FixedPointFacts.v ===== *)
(** * Fixed point numbers are exact

    Products and quotients are the exact results rounded as asked, or refused when they do not fit; integer
    and fractional parts; conversions to integers and per-things. *)

From stdpp Require Import base tactics numbers list option.
From S2P Require Import Prelude Words Helpers128 Helpers128Facts Rational RationalFacts PerThings PerThingsFacts FixedPoint.
Local Open Scope Z_scope.

(** ** Integers *)

Definition in_int (T : IntTy) (x : Z) : Prop := imin T <= x <= imax T.

Definition int_wf (T : IntTy) : Prop := 1 < bits T <= 128.

Lemma int_bounds T :
  int_wf T -> imin T <= 0 < imax T /\ imax T < 2 ^ 128 /\ - 2 ^ 127 <= imin T /\
    (imin T = 0 \/ imin T = - imax T - 1) /\ (is_signed T = true <-> imin T < 0).
Proof.
  intros HT. unfold imin, imax. assert (E : 2 ^ bits T = 2 * 2 ^ (bits T - 1)).
  { rewrite <- Z.pow_succ_r by (unfold int_wf in HT; lia). f_equal. lia. }
  destruct HT as [H1 H2]. assert (2 ^ 1 <= 2 ^ (bits T - 1)) by (apply Z.pow_le_mono_r; lia).
  assert (2 ^ (bits T - 1) <= 2 ^ 127) by (apply Z.pow_le_mono_r; lia). change (2 ^ 1) with 2 in *.
  change (2 ^ 128) with (2 * 2 ^ 127). destruct (is_signed T); split_and!; try lia; ((split; [done | lia]) || (split; [lia | done])).
Qed.

Lemma fits_spec T x : fits T x = true <-> in_int T x.
Proof. unfold fits, in_int. rewrite andb_true_iff, Z.leb_le, Z.leb_le. done. Qed.

Lemma checked_in T x : in_int T x -> checked T x = Some x.
Proof. intros H. unfold checked. by rewrite (proj2 (fits_spec T x) H). Qed.

Lemma checked_out T x : ~ in_int T x -> checked T x = None.
Proof. intros H. unfold checked. destruct (fits T x) eqn:E; [| done]. by apply fits_spec in E. Qed.

Lemma clamp_in T x : in_int T x -> clamp T x = x.
Proof. unfold in_int, clamp. lia. Qed.

Lemma in_int_dec T x : {in_int T x} + {~ in_int T x}.
Proof. destruct (fits T x) eqn:E; [left | right]; rewrite <- fits_spec; congruence. Defined.

Lemma to_u128_small x : 0 <= x < 2 ^ 128 -> to_u128 x = x.
Proof. unfold to_u128. lia. Qed.

Lemma as_u128_small x : 0 <= x < 2 ^ 128 -> as_u128 x = x.
Proof. intros H. by apply Z.mod_small. Qed.

Lemma max_plus_one T : int_wf T -> imin T < 0 -> word_saturating_add 128 (imax T) 1 = - imin T.
Proof.
  intros HT Hn. destruct (int_bounds T HT) as (H1 & H2 & H3 & [H4 | H4] & _); [lia |].
  unfold word_saturating_add. change (2 ^ 128) with (2 * 2 ^ 127). lia.
Qed.

Lemma into_I129_spec T n : int_wf T -> in_int T n -> into_I129 T n = {| value := Z.abs n; negative := n <? 0 |}.
Proof.
  intros HT Hn. destruct (int_bounds T HT) as (H1 & H2 & H3 & H4 & _). unfold into_I129, int_checked_neg. unfold in_int in Hn.
  change (2 ^ 128) with (2 * 2 ^ 127) in *.
  destruct (Z.ltb_spec n 0) as [Hlt | Hge]; [| f_equal; rewrite to_u128_small by (change (2 ^ 128) with (2 * 2 ^ 127); lia); lia].
  f_equal. destruct (in_int_dec T (- n)) as [Hi | Hi].
  - rewrite checked_in by done. unfold in_int in Hi. rewrite to_u128_small by (change (2 ^ 128) with (2 * 2 ^ 127); lia). lia.
  - rewrite checked_out by done. unfold in_int in Hi. rewrite to_u128_small, max_plus_one by (done || lia || (change (2 ^ 128) with (2 * 2 ^ 127); lia)). lia.
Qed.

Definition with_sign (negative : bool) (v : Z) : Z := if negative then - v else v.

Lemma from_i129_spec T v s :
  int_wf T -> 0 <= v -> from_i129 T {| value := v; negative := s |} = checked T (with_sign s v).
Proof.
  intros HT Hv. destruct (int_bounds T HT) as (H1 & H2 & H3 & H4 & _). unfold from_i129. cbn [value negative].
  rewrite (to_u128_small (imax T)) by lia. unfold from_u128, int_checked_neg, with_sign.
  destruct (s && (imin T <? 0) && (v =? word_saturating_add 128 (imax T) 1)) eqn:E.
  - bool_to_prop. subst s. rewrite max_plus_one in * by done. rewrite checked_in by (unfold in_int; lia). f_equal. lia.
  - destruct (Z.leb_spec v (imax T)) as [Hle | Hgt]; cbn [mbind option_bind].
    + destruct s; [done |]. rewrite checked_in by (unfold in_int; lia). done.
    + symmetry. apply checked_out. unfold in_int. destruct s; [| lia]. destruct (Z.ltb_spec (imin T) 0); [| lia].
      rewrite max_plus_one in E by done. cbn [andb] in E. bool_to_prop. lia.
Qed.

(** ** The instances *)

Definition fixed_types : list Fixed := [FixedI64; FixedU64; FixedI128; FixedU128].

Record fixed_wf (F : Fixed) : Prop := {
  fw_int : int_wf (inner_ty F);
  fw_div : 0 < DIV F /\ 10 * DIV F <= imax (inner_ty F);
  fw_perbill : exists k, 0 < k /\ DIV F = k * 1000000000;
  fw_bits : bits (inner_ty F) = 64 \/ bits (inner_ty F) = 128;
}.

Lemma fixed_types_wf F : In F fixed_types -> fixed_wf F.
Proof.
  intros HF. repeat (destruct HF as [<- | HF]; [split; [by split | by split | | by (left + right)] |]); [.. | done].
  all: eexists; split; [| (instantiate (1 := 1); reflexivity) || (instantiate (1 := 1000000000); reflexivity)]; done.
Qed.

(** The [const] conversions are the others. *)

Lemma const_into_spec F n : int_wf (inner_ty F) -> in_int (inner_ty F) n -> const_into_i129 F n = into_I129 (inner_ty F) n.
Proof.
  intros HT Hn. destruct (int_bounds _ HT) as (H1 & H2 & H3 & H4 & _). rewrite into_I129_spec by done. unfold const_into_i129, int_checked_neg.
  unfold in_int in Hn. change (2 ^ 128) with (2 * 2 ^ 127) in *.
  assert (Ha : forall x, 0 <= x < 2 * 2 ^ 127 -> as_u128 x = x) by (intros x Hx; by apply as_u128_small).
  destruct (Z.ltb_spec n 0) as [Hlt | Hge]; [| f_equal; rewrite Ha by lia; lia]. f_equal.
  destruct (in_int_dec (inner_ty F) (- n)) as [Hi | Hi].
  - rewrite checked_in by done. unfold in_int in Hi. rewrite Ha by lia. lia.
  - rewrite checked_out by done. unfold in_int in Hi. rewrite Ha, max_plus_one by (done || lia). lia.
Qed.

(** [v as T] keeps the value exactly when it fits. *)
Lemma as_int_spec T v :
  int_wf T -> 0 <= v < 2 ^ 128 ->
  (v <= imax T -> as_int T v = v) /\
  (imax T < v -> negb (as_u128 (as_int T v) =? v) || xorb (0 <? as_int T v) (0 <? v) = true).
Proof.
  intros HT Hv. destruct (int_bounds T HT) as (H1 & H2 & H3 & H4 & _).
  assert (E : 2 ^ bits T = 2 * 2 ^ (bits T - 1)) by (rewrite <- Z.pow_succ_r by (unfold int_wf in HT; lia); f_equal; lia).
  assert (Hp : 2 ^ 1 <= 2 ^ (bits T - 1)) by (apply Z.pow_le_mono_r; unfold int_wf in HT; lia). change (2 ^ 1) with 2 in Hp.
  unfold as_int. unfold imax in *. set (K := 2 ^ (bits T - 1)) in *. rewrite E in *.
  pose proof (Z.mod_pos_bound v (2 * K) ltac:(lia)) as Hm. split.
  - intros Hle. rewrite (Z.mod_small v) by (destruct (is_signed T); lia).
    destruct (is_signed T); cbn [andb]; [| done]. rewrite (proj2 (Z.leb_gt _ _)) by lia. done.
  - intros Hgt. destruct (is_signed T) eqn:Es; cbn [andb].
    + destruct (Z.leb_spec K (v mod (2 * K))) as [Hc | Hc].
      * rewrite (proj2 (Z.ltb_ge 0 (v mod (2 * K) - 2 * K))), (proj2 (Z.ltb_lt 0 v)) by lia. apply orb_true_r.
      * rewrite as_u128_small by (change (2 ^ 128) with (2 * 2 ^ 127) in *; assert (K <= 2 ^ 127) by (apply Z.pow_le_mono_r; unfold int_wf in HT; lia); lia).
        rewrite (proj2 (Z.eqb_neq (v mod (2 * K)) v)) by lia. done.
    + assert (2 * K <= 2 ^ 128) by (rewrite <- E; apply Z.pow_le_mono_r; unfold int_wf in HT; lia).
      rewrite as_u128_small by lia. rewrite (proj2 (Z.eqb_neq (v mod (2 * K)) v)) by lia. done.
Qed.

Lemma const_from_spec F v s :
  int_wf (inner_ty F) -> 0 <= v < 2 ^ 128 ->
  const_from_i129 F {| value := v; negative := s |} = checked (inner_ty F) (with_sign s v).
Proof.
  intros HT Hv. rewrite <- from_i129_spec by (done || lia). destruct (int_bounds _ HT) as (H1 & H2 & _). unfold const_from_i129, from_i129.
  cbn [value negative]. rewrite to_u128_small, as_u128_small by lia. destruct (_ && _ && _); [done |].
  destruct (as_int_spec (inner_ty F) v HT Hv) as [Ein Eout]. unfold from_u128. destruct (Z.leb_spec v (imax (inner_ty F))) as [Hle | Hgt].
  - rewrite Ein, as_u128_small, Z.eqb_refl, xorb_nilpotent by (done || lia). cbn [negb orb mbind option_bind]. by destruct s.
  - rewrite Eout by lia. done.
Qed.

(** ** Rounding with signs *)

(** What the signed roundings promise of [v] for the quotient of [x] by [c]. *)
Definition signed_rounded (r : SignedRounding) (x c v : Z) : Prop :=
  let low := v * c <= x < (v + 1) * c in
  let high := (v - 1) * c < x <= v * c in
  let near_low := 2 * x - c <= 2 * (v * c) < 2 * x + c in
  let near_high := 2 * x - c < 2 * (v * c) <= 2 * x + c in
  match r with
  | Low => low
  | High => high
  | NearestPrefLow => near_low
  | NearestPrefHigh => near_high
  | Minor => if x <? 0 then high else low
  | Major => if x <? 0 then low else high
  | NearestPrefMinor => if x <? 0 then near_high else near_low
  | NearestPrefMajor => if x <? 0 then near_low else near_high
  end.

Definition sround (r : SignedRounding) (x c : Z) : Z :=
  with_sign (x <? 0) (round_div (from_signed r (x <? 0)) (Z.abs x) c).

Lemma sround_rounded r x c : 0 < c -> signed_rounded r x c (sround r x c).
Proof.
  intros Hc. unfold sround, with_sign, signed_rounded. destruct (Z.ltb_spec x 0) as [Hx | Hx].
  - pose proof (round_div_rounded (from_signed r true) (Z.abs x) c ltac:(lia) Hc) as Hr. rewrite Z.abs_neq in * by lia.
    destruct r; cbn [from_signed rounded] in *; lia.
  - pose proof (round_div_rounded (from_signed r false) (Z.abs x) c ltac:(lia) Hc) as Hr. rewrite Z.abs_eq in * by lia.
    destruct r; cbn [from_signed rounded] in *; lia.
Qed.

Lemma signed_rounded_unique r x c v w : 0 < c -> signed_rounded r x c v -> signed_rounded r x c w -> v = w.
Proof. intros Hc. unfold signed_rounded. destruct r; destruct (x <? 0); nia. Qed.

(** Zero is never rounded away, whatever sign it is given. *)
Lemma round_div_0 r c : 0 < c -> round_div r 0 c = 0.
Proof. intros Hc. rewrite round_div_divides by (done || apply Z.divide_0_r). done. Qed.

(** The magnitude and sign of a product through the helper. *)
Lemma mulrat_signed a b c r s x :
  is_word 128 a -> is_word 128 b -> is_word 128 c -> 0 < c ->
  a * b = Z.abs x -> (x <> 0 -> s = (x <? 0)) ->
  exists o, multiply_by_rational_with_rounding a b c (from_signed r s) = Some o /\
    match o with
    | Some v => 0 <= v < 2 ^ 128 /\ with_sign s v = sround r x c
    | None => 2 ^ 128 <= Z.abs (sround r x c)
    end.
Proof.
  intros Ha Hb Hc Hc0 Hab Hs. rewrite mulrat_run by done. rewrite (proj2 (Z.eqb_neq c 0)) by lia. rewrite Hab. eexists. split; [done |].
  pose proof (round_div_nonneg (from_signed r s) (Z.abs x) c ltac:(lia) Hc0) as Hn.
  assert (E : with_sign s (round_div (from_signed r s) (Z.abs x) c) = sround r x c).
  { destruct (Z.eq_dec x 0) as [-> | Hx].
    - unfold sround. simpl Z.abs. rewrite !round_div_0 by done. by destruct s.
    - rewrite (Hs Hx). done. }
  destruct (Z.ltb_spec (round_div (from_signed r s) (Z.abs x) c) (2 ^ 128)); [done |]. rewrite <- E. unfold with_sign. destruct s; lia.
Qed.

Lemma too_large T x : int_wf T -> 2 ^ 128 <= Z.abs x -> checked T x = None.
Proof.
  intros HT Hx. apply checked_out. destruct (int_bounds T HT) as (H1 & H2 & H3 & _). unfold in_int.
  change (2 ^ 128) with (2 * 2 ^ 127) in *. lia.
Qed.

Lemma signed_mulrat_spec R a b c r s x :
  int_wf R -> is_word 128 a -> is_word 128 b -> is_word 128 c -> 0 < c -> a * b = Z.abs x -> (x <> 0 -> s = (x <? 0)) ->
  signed_mulrat R a b c r s = Some (checked R (sround r x c)).
Proof.
  intros HR Ha Hb Hc Hc0 Hab Hs. unfold signed_mulrat. destruct (mulrat_signed a b c r s x Ha Hb Hc Hc0 Hab Hs) as (o & -> & Ho).
  cbn [mbind option_bind]. destruct o as [v |].
  - destruct Ho as [Hv <-]. by rewrite from_i129_spec by (done || lia).
  - by rewrite too_large.
Qed.

Lemma const_mulrat_spec F a b c r s x :
  int_wf (inner_ty F) -> is_word 128 a -> is_word 128 b -> is_word 128 c -> 0 < c -> a * b = Z.abs x -> (x <> 0 -> s = (x <? 0)) ->
  const_mulrat F a b c r s = Some (checked (inner_ty F) (sround r x c)).
Proof.
  intros HR Ha Hb Hc Hc0 Hab Hs. unfold const_mulrat. destruct (mulrat_signed a b c r s x Ha Hb Hc Hc0 Hab Hs) as (o & -> & Ho).
  cbn [mbind option_bind]. destruct o as [v |].
  - destruct Ho as [Hv <-]. by rewrite const_from_spec.
  - by rewrite too_large.
Qed.

Lemma sign_of_product a b : a * b <> 0 -> xorb (a <? 0) (b <? 0) = (a * b <? 0).
Proof. intros H. destruct (Z.ltb_spec a 0), (Z.ltb_spec b 0), (Z.ltb_spec (a * b) 0); simpl; (done || nia). Qed.

Lemma int_word T x : int_wf T -> in_int T x -> is_word 128 (Z.abs x).
Proof.
  intros HT Hx. destruct (int_bounds T HT) as (H1 & H2 & H3 & H4 & _). unfold in_int in Hx. unfold is_word.
  change (2 ^ 128) with (2 * 2 ^ 127) in *. lia.
Qed.

(** The bound by the sign of the operands is where the result saturates. *)
Lemma saturated R n m v :
  int_wf R -> (v < 0 -> xorb (n <? 0) (m <? 0) = true) -> (0 < v -> xorb (n <? 0) (m <? 0) = false) ->
  match checked R v with Some x => x | None => to_bound R n m end = clamp R v.
Proof.
  intros HR Hn Hp. destruct (int_bounds R HR) as (H1 & _). destruct (in_int_dec R v) as [Hi | Hi].
  - by rewrite checked_in, clamp_in.
  - rewrite checked_out by done. unfold in_int in Hi. unfold to_bound, clamp.
    destruct (Z.lt_ge_cases v 0); [rewrite Hn by lia | rewrite Hp by lia]; lia.
Qed.

Lemma sround_sign r x c : 0 < c -> (sround r x c < 0 -> x < 0) /\ (0 < sround r x c -> 0 < x).
Proof.
  intros Hc. unfold sround, with_sign. pose proof (round_div_nonneg (from_signed r (x <? 0)) (Z.abs x) c ltac:(lia) Hc) as Hn.
  destruct (Z.ltb_spec x 0); [lia |]. split; [lia |]. destruct (Z.eq_dec x 0) as [-> |]; [| lia]. simpl Z.abs. rewrite round_div_0 by done. lia.
Qed.

Lemma sround_exact r x c : 0 < c -> sround r (x * c) c = x.
Proof.
  intros Hc. eapply (signed_rounded_unique r (x * c) c); [done | by apply sround_rounded |]. unfold signed_rounded. cbv zeta.
  destruct r; destruct (x * c <? 0); lia.
Qed.

Lemma sround_minor x c : 0 < c -> sround Minor x c = Z.quot x c.
Proof.
  intros Hc. eapply (signed_rounded_unique Minor x c); [done | by apply sround_rounded |]. unfold signed_rounded. cbv zeta.
  pose proof (Z.quot_rem x c ltac:(lia)) as E. destruct (Z.ltb_spec x 0).
  - pose proof (Z.rem_bound_pos_neg x c Hc ltac:(lia)). nia.
  - pose proof (Z.rem_bound_pos x c ltac:(lia) Hc). nia.
Qed.

Section ops.
Context (F : Fixed) (HF : fixed_wf F).
Abbreviation T := (inner_ty F).
Abbreviation D := (DIV F).

Lemma div_word : is_word 128 D /\ 0 < D /\ in_int T D.
Proof.
  destruct (fw_div F HF) as [H0 H1]. destruct (int_bounds T (fw_int F HF)) as (H2 & H3 & _). unfold is_word, in_int.
  change (2 ^ 128) with (2 * 2 ^ 127) in *. lia.
Qed.

Lemma div_as_u128 : as_u128 D = D /\ to_u128 D = D.
Proof. destruct div_word as ([H1 H2] & _ & _). by rewrite as_u128_small, to_u128_small. Qed.

Section two.
Context (N : IntTy) (HN : int_wf N) (a b : Z) (Ha : in_int T a) (Hb : in_int N b).

(** ** Products *)

Lemma product_spec R r :
  int_wf R ->
  signed_mulrat R (Z.abs a) (Z.abs b) D r (xorb (a <? 0) (b <? 0)) = Some (checked R (sround r (a * b) D)).
Proof.
  intros HR. destruct div_word as (Hd & Hd0 & _). apply signed_mulrat_spec; try done.
  - by apply (int_word T), Ha; apply HF.
  - by apply (int_word N).
  - symmetry. apply Z.abs_mul.
  - apply sign_of_product.
Qed.

Lemma checked_mul_int_spec : checked_mul_int F N a b = Some (checked N (sround Minor (a * b) D)).
Proof.
  unfold checked_mul_int. rewrite (into_I129_spec T), (into_I129_spec N) by (done || apply HF). cbn [value negative].
  destruct div_as_u128 as [_ ->]. by apply product_spec.
Qed.
End two.

Lemma quotient_sign a b : b <> 0 -> a * D * Z.sgn b <> 0 -> xorb (a <? 0) (b <? 0) = (a * D * Z.sgn b <? 0).
Proof.
  intros Hb Hx. destruct div_word as (_ & Hd & _).
  destruct (Z.ltb_spec a 0), (Z.ltb_spec b 0), (Z.ltb_spec (a * D * Z.sgn b) 0); simpl; try done;
    (destruct (Z.sgn_spec b) as [[? Es] | [[? Es] | [? Es]]]; rewrite Es in *; nia).
Qed.

Lemma quotient_abs a b : b <> 0 -> Z.abs a * D = Z.abs (a * D * Z.sgn b).
Proof.
  intros Hb. destruct div_word as (_ & Hd & _). rewrite !Z.abs_mul, (Z.abs_eq D) by lia.
  assert (Z.abs (Z.sgn b) = 1) by (destruct (Z.sgn_spec b) as [[? ->] | [[? ->] | [? ->]]]; lia). nia.
Qed.

Lemma checked_mul_spec a b : in_int T a -> in_int T b -> fixed_checked_mul F a b = Some (checked T (sround Minor (a * b) D)).
Proof.
  intros Ha Hb. unfold fixed_checked_mul. rewrite !into_I129_spec by (done || apply HF). cbn [value negative].
  destruct div_as_u128 as [-> _]. apply (product_spec T); (done || apply HF).
Qed.

Lemma const_mul_spec a b r :
  in_int T a -> in_int T b -> const_checked_mul_with_rounding F a b r = Some (checked T (sround r (a * b) D)).
Proof.
  intros Ha Hb. unfold const_checked_mul_with_rounding. rewrite !const_into_spec, !into_I129_spec by (done || apply HF). cbn [value negative].
  destruct div_as_u128 as [-> _]. destruct div_word as (Hd & Hd0 & _).
  apply const_mulrat_spec; (done || apply HF || (by apply (int_word T); [apply HF |]) || (symmetry; apply Z.abs_mul) || apply sign_of_product).
Qed.

(** ** Quotients *)

Lemma from_rational_fraction N M n d :
  int_wf N -> int_wf M -> in_int N n -> in_int M d -> d <> 0 ->
  checked_from_rational F N M n d = Some (checked T (sround Minor (n * D * Z.sgn d) (Z.abs d))).
Proof.
  intros HN HM Hn Hd Hd0. unfold checked_from_rational. rewrite (proj2 (Z.eqb_neq d 0)) by done.
  rewrite (into_I129_spec N), (into_I129_spec M) by done. cbn [value negative]. destruct div_as_u128 as [_ ->]. destruct div_word as (Hw & _ & _).
  apply signed_mulrat_spec; try done; [apply HF | by apply (int_word N) | by apply (int_word M) | lia | by apply quotient_abs | by apply quotient_sign].
Qed.

Lemma checked_div_spec a b :
  in_int T a -> in_int T b ->
  fixed_checked_div F a b = Some (if b =? 0 then None else checked T (sround Minor (a * D * Z.sgn b) (Z.abs b))).
Proof.
  intros Ha Hb. unfold fixed_checked_div. destruct (Z.eqb_spec b 0) as [| Hb0]; [done |].
  rewrite !into_I129_spec by (done || apply HF). cbn [value negative]. destruct div_as_u128 as [-> _]. destruct div_word as (Hw & _ & _).
  apply signed_mulrat_spec; try done; [apply HF | | | lia | by apply quotient_abs | by apply quotient_sign]; (by apply (int_word T); [apply HF |]).
Qed.

Lemma rounding_div_spec a b r :
  in_int T a -> in_int T b ->
  checked_rounding_div F a b r = Some (if b =? 0 then None else checked T (sround r (a * D * Z.sgn b) (Z.abs b))).
Proof.
  intros Ha Hb. unfold checked_rounding_div. destruct (Z.eqb_spec b 0) as [| Hb0]; [done |].
  rewrite !const_into_spec, !into_I129_spec by (done || apply HF). cbn [value negative]. destruct div_as_u128 as [-> _]. destruct div_word as (Hw & _ & _).
  apply const_mulrat_spec; try done; [apply HF | | | lia | by apply quotient_abs | by apply quotient_sign]; (by apply (int_word T); [apply HF |]).
Qed.

Lemma saturating_mul_int_spec N a n :
  int_wf N -> in_int T a -> in_int N n -> saturating_mul_int F N a n = Some (clamp N (Z.quot (a * n) D)).
Proof.
  intros HN Ha Hn. destruct div_word as (_ & Hd & _). unfold saturating_mul_int. rewrite checked_mul_int_spec by done. cbn [mbind option_bind].
  rewrite <- sround_minor by done. f_equal. destruct (sround_sign Minor (a * n) D Hd). apply saturated; [done | |]; intros Hv; rewrite sign_of_product by lia; lia.
Qed.

Lemma saturating_mul_spec a b : in_int T a -> in_int T b -> fixed_saturating_mul F a b = Some (clamp T (Z.quot (a * b) D)).
Proof.
  intros Ha Hb. destruct div_word as (_ & Hd & _). unfold fixed_saturating_mul. rewrite checked_mul_spec by done. cbn [mbind option_bind].
  rewrite <- sround_minor by done. f_equal. destruct (sround_sign Minor (a * b) D Hd). apply saturated; [apply HF | |]; intros Hv; rewrite sign_of_product by lia; lia.
Qed.

Lemma saturating_from_integer_spec N n : int_wf N -> in_int N n -> saturating_from_integer F N n = clamp T (n * D).
Proof.
  intros HN Hn. destruct div_word as ([_ Hdw] & Hd & _). unfold saturating_from_integer. rewrite into_I129_spec by done. cbn [value negative].
  destruct div_as_u128 as [_ ->]. unfold word_saturating_mul. rewrite from_i129_spec by (apply HF || lia).
  pose proof (fw_int F HF) as HT. destruct (int_bounds T HT) as (H1 & H2 & H3 & _). set (M := Z.min (2 ^ 128 - 1) (Z.abs n * D)).
  assert (Hc : clamp T (n * D) = clamp T (with_sign (n <? 0) M)).
  { unfold clamp, with_sign, M. change (2 ^ 128) with (2 * 2 ^ 127) in *. destruct (Z.ltb_spec n 0).
    - replace (Z.abs n * D) with (- (n * D)) by (rewrite Z.abs_neq by lia; ring). lia.
    - rewrite Z.abs_eq by lia. lia. }
  rewrite Hc. assert (0 <= M) by (unfold M; lia). apply saturated; [done | |]; unfold with_sign; destruct (Z.ltb_spec n 0); (done || lia).
Qed.

Lemma saturating_from_rational_spec N M n d :
  int_wf N -> int_wf M -> in_int N n -> in_int M d -> d <> 0 ->
  saturating_from_rational F N M n d = Some (clamp T (Z.quot (n * D * Z.sgn d) (Z.abs d))).
Proof.
  intros HN HM Hn Hd Hd0. unfold saturating_from_rational. rewrite (proj2 (Z.eqb_neq d 0)), (from_rational_fraction N M) by done. cbn [mbind option_bind].
  rewrite <- sround_minor by lia. f_equal. destruct (sround_sign Minor (n * D * Z.sgn d) (Z.abs d) ltac:(lia)).
  apply saturated; [apply HF | |]; intros Hv; rewrite quotient_sign by (done || lia); lia.
Qed.

(** ** Parts *)

Lemma quot_bounds a : Z.abs (Z.quot a D * D) <= Z.abs a /\ Z.abs (Z.quot a D) <= Z.abs a /\ Z.abs (Z.rem a D) < D /\
  a = D * Z.quot a D + Z.rem a D /\ (0 <= a -> 0 <= Z.quot a D /\ 0 <= Z.rem a D) /\ (a <= 0 -> Z.quot a D <= 0 /\ Z.rem a D <= 0).
Proof.
  destruct div_word as (_ & Hd & _). pose proof (Z.quot_rem a D ltac:(lia)) as E. set (q := Z.quot a D) in *. set (m := Z.rem a D) in *.
  destruct (Z.le_gt_cases 0 a).
  - pose proof (Z.rem_bound_pos a D ltac:(lia) Hd) as Hm. assert (0 <= q) by (apply Z.quot_pos; lia). fold m in Hm. split_and!; nia.
  - pose proof (Z.rem_bound_pos_neg a D Hd ltac:(lia)) as Hm. fold m in Hm. assert (q <= 0) by nia. split_and!; nia.
Qed.

Lemma trunc_spec a : in_int T a -> trunc F a = Some (Z.quot a D * D) /\ in_int T (Z.quot a D * D).
Proof.
  intros Ha. destruct div_word as (_ & Hd & _). destruct (quot_bounds a) as (H1 & H2 & H3 & E & Hp & Hn). unfold trunc, int_checked_div, int_checked_mul.
  rewrite (proj2 (Z.eqb_neq D 0)) by lia. destruct (int_bounds T (fw_int F HF)) as (B1 & _). unfold in_int in *.
  assert (in_int T (Z.quot a D * D)) by (unfold in_int; destruct (Z.le_gt_cases 0 a); [destruct (Hp ltac:(lia)) | destruct (Hn ltac:(lia))]; nia).
  rewrite checked_in by (unfold in_int; destruct (Z.le_gt_cases 0 a); [destruct (Hp ltac:(lia)) | destruct (Hn ltac:(lia))]; lia).
  cbn [mbind option_bind]. by rewrite checked_in.
Qed.

Lemma frac_spec a :
  in_int T a -> frac F a = Some (if Z.quot a D =? 0 then a else Z.abs (Z.rem a D)).
Proof.
  intros Ha. destruct div_word as (_ & Hd & _). destruct (quot_bounds a) as (H1 & H2 & H3 & E & Hp & Hn). unfold frac.
  destruct (trunc_spec a Ha) as [-> _]. cbn [mbind option_bind]. f_equal. unfold fixed_saturating_sub, fixed_zero.
  destruct (int_bounds T (fw_int F HF)) as (B1 & _ & _ & B4 & _). destruct (fw_div F HF) as [_ B5]. unfold in_int in Ha.
  assert (Hr : a - Z.quot a D * D = Z.rem a D) by lia. rewrite Hr.
  assert (Hin : in_int T (Z.rem a D)) by (unfold in_int; destruct (Z.le_gt_cases 0 a); [destruct (Hp ltac:(lia)) | destruct (Hn ltac:(lia))]; lia).
  rewrite clamp_in by done. assert (Hz : (Z.quot a D * D =? 0) = (Z.quot a D =? 0)).
  { destruct (Z.eqb_spec (Z.quot a D) 0) as [-> |]; [done |]. apply Z.eqb_neq. nia. }
  rewrite Hz. destruct (Z.eqb_spec (Z.quot a D) 0) as [Hq | Hq]; [lia |]. unfold saturating_abs, int_checked_neg.
  destruct (Z.leb_spec 0 (Z.rem a D)); [lia |]. rewrite checked_in by (unfold in_int in *; lia). lia.
Qed.

(** One more or one less, in the integer part. *)
Lemma quot_shift a : (0 <= a -> Z.quot (a + D) D = Z.quot a D + 1) /\ (a <= 0 -> Z.quot (a - D) D = Z.quot a D - 1).
Proof.
  destruct div_word as (_ & Hd & _). split; intros Ha.
  - rewrite !Z.quot_div_nonneg by lia. replace (a + D) with (a + 1 * D) by lia. rewrite Z.div_add by lia. lia.
  - rewrite <- (Z.opp_involutive (a - D)), <- (Z.opp_involutive a) at 1. rewrite Z.quot_opp_l, (Z.opp_involutive a) by lia.
    replace (- (a - D)) with (- a + 1 * D) by lia. rewrite Z.quot_div_nonneg, Z.div_add by lia.
    rewrite <- (Z.opp_involutive a) at 2. rewrite Z.quot_opp_l, Z.quot_div_nonneg by lia. lia.
Qed.

Lemma trunc_up a : in_int T a -> 0 <= a -> a + D <= imax T -> trunc F (fixed_saturating_add F a (fixed_one F)) = Some ((Z.quot a D + 1) * D).
Proof.
  intros Ha H0 Hs. destruct div_word as (_ & Hd & _). unfold fixed_saturating_add, fixed_one. unfold in_int in Ha.
  rewrite clamp_in by (unfold in_int; lia). destruct (trunc_spec (a + D)) as [-> _]; [unfold in_int; lia |].
  by rewrite (proj1 (quot_shift a) H0).
Qed.

Lemma trunc_down a : in_int T a -> a <= 0 -> imin T <= a - D -> trunc F (fixed_saturating_sub F a (fixed_one F)) = Some ((Z.quot a D - 1) * D).
Proof.
  intros Ha H0 Hs. destruct div_word as (_ & Hd & _). unfold fixed_saturating_sub, fixed_one. unfold in_int in Ha.
  rewrite clamp_in by (unfold in_int; lia). destruct (trunc_spec (a - D)) as [-> _]; [unfold in_int; lia |].
  by rewrite (proj2 (quot_shift a) H0).
Qed.

Lemma ceil_spec a :
  in_int T a -> (0 <= a -> a + D <= imax T) -> exists v, signed_rounded High a D v /\ ceil F a = Some (v * D).
Proof.
  intros Ha Hs. destruct div_word as (_ & Hd & _). destruct (quot_bounds a) as (_ & _ & H3 & E & Hp & Hn).
  unfold ceil, is_negative, signed_rounded. destruct (Z.ltb_spec a 0) as [Hlt | Hge].
  - destruct (Hn ltac:(lia)). destruct (trunc_spec a Ha) as [-> _]. exists (Z.quot a D). split; [nia | done].
  - destruct (Hp Hge). rewrite frac_spec by done. cbn [mbind option_bind].
    assert (Ef : (if Z.quot a D =? 0 then a else Z.abs (Z.rem a D)) = Z.rem a D) by (destruct (Z.eqb_spec (Z.quot a D) 0) as [Hq |]; [rewrite Hq in E; lia | lia]).
    rewrite Ef. unfold fixed_zero. destruct (Z.eqb_spec (Z.rem a D) 0) as [Hr | Hr].
    + exists (Z.quot a D). split; [nia |]. f_equal. lia.
    + exists (Z.quot a D + 1). split; [nia |]. apply trunc_up; auto.
Qed.

(** The floor of a negative integer is one too low. *)
Lemma floor_spec a :
  in_int T a -> (a < 0 -> imin T <= a - D) ->
  exists v, signed_rounded Low a D v /\ floor F a = Some ((if (a <? 0) && (Z.rem a D =? 0) then v - 1 else v) * D).
Proof.
  intros Ha Hs. destruct div_word as (_ & Hd & _). destruct (quot_bounds a) as (_ & _ & H3 & E & Hp & Hn).
  unfold floor, is_negative, signed_rounded. destruct (Z.ltb_spec a 0) as [Hlt | Hge]; cbn [andb].
  - destruct (Hn ltac:(lia)). rewrite trunc_down by (done || lia). destruct (Z.eqb_spec (Z.rem a D) 0).
    + exists (Z.quot a D). split; [nia | done].
    + exists (Z.quot a D - 1). split; [nia | done].
  - destruct (Hp Hge). destruct (trunc_spec a Ha) as [-> _]. exists (Z.quot a D). split; [nia | done].
Qed.

(** Ten times the fraction, against five. *)
Lemma round_test a :
  in_int T a ->
  exists f n, frac F a = Some f /\ fixed_saturating_mul F f (saturating_from_integer F i32 10) = Some n /\
    f = (if Z.quot a D =? 0 then a else Z.abs (Z.rem a D)) /\ (n <? saturating_from_integer F i32 5) = (2 * f <? D).
Proof.
  intros Ha. destruct div_word as (_ & Hd & _). destruct (quot_bounds a) as (_ & _ & H3 & E & Hp & Hn). rewrite frac_spec by done.
  set (f := if Z.quot a D =? 0 then a else Z.abs (Z.rem a D)). assert (Hf : - D < f < D /\ (imin T = 0 -> 0 <= f)).
  { unfold f. unfold in_int in Ha. destruct (Z.eqb_spec (Z.quot a D) 0) as [Hq |]; [rewrite Hq in E |]; lia. }
  destruct (int_bounds T (fw_int F HF)) as (B1 & _ & _ & B4 & _). destruct (fw_div F HF) as [_ B5].
  assert (HN : int_wf i32) by done. rewrite !saturating_from_integer_spec by done. rewrite !clamp_in by (unfold in_int; lia).
  exists f. eexists. split; [done |]. rewrite saturating_mul_spec by (unfold in_int; lia).
  split; [done |]. split; [done |]. replace (f * (10 * D)) with ((10 * f) * D) by ring. rewrite Z.quot_mul by lia.
  rewrite clamp_in by (unfold in_int; lia). destruct (Z.ltb_spec (10 * f) (5 * D)), (Z.ltb_spec (2 * f) D); (done || lia).
Qed.

(** Between minus one and zero nothing is rounded away from zero. *)
Lemma round_spec a :
  in_int T a -> (0 <= a -> a + D <= imax T) -> (a < 0 -> imin T <= a - D) ->
  exists v, signed_rounded NearestPrefMajor a D v /\ round F a = Some ((if (- D <? a) && (a <? 0) then 0 else v) * D).
Proof.
  intros Ha Hs1 Hs2. destruct div_word as (_ & Hd & _). destruct (quot_bounds a) as (_ & _ & H3 & E & Hp & Hn).
  exists (sround NearestPrefMajor a D). split; [by apply sround_rounded |].
  assert (Hu : forall v, signed_rounded NearestPrefMajor a D v -> sround NearestPrefMajor a D = v).
  { intros v Hv. eapply signed_rounded_unique; [exact Hd | by apply sround_rounded | done]. }
  unfold round. destruct (round_test a Ha) as (f & n & -> & Hn' & Ef & Et). cbn [mbind option_bind]. rewrite Hn'. cbn [mbind option_bind]. rewrite Et.
  destruct (trunc_spec a Ha) as [-> _]. unfold is_positive. unfold signed_rounded in Hu. cbv zeta in Hu.
  destruct (Z.ltb_spec a 0) as [Hlt | Hge].
  - destruct (Hn ltac:(lia)). rewrite (proj2 (Z.ltb_ge 0 a)) by lia. rewrite andb_true_r. destruct (Z.eqb_spec (Z.quot a D) 0) as [Hq | Hq].
    + rewrite Hq in *. rewrite (proj2 (Z.ltb_lt (- D) a)), (proj2 (Z.ltb_lt (2 * f) D)) by lia. done.
    + rewrite (proj2 (Z.ltb_ge (- D) a)) by nia. destruct (Z.ltb_spec (2 * f) D).
      * rewrite (Hu (Z.quot a D)); [done |]. nia.
      * rewrite (Hu (Z.quot a D - 1)); [apply trunc_down; (done || lia) |]. nia.
  - destruct (Hp Hge). rewrite andb_false_r. assert (f = Z.rem a D) as -> by (destruct (Z.eqb_spec (Z.quot a D) 0) as [Hq |]; [rewrite Hq in E |]; lia).
    destruct (Z.ltb_spec (2 * Z.rem a D) D).
    + rewrite (Hu (Z.quot a D)); [done |]. nia.
    + rewrite (Hu (Z.quot a D + 1)); [| nia]. rewrite (proj2 (Z.ltb_lt 0 a)) by nia. apply trunc_up; auto.
Qed.

(** ** Per-things and roots *)

Lemma perbill_roundtrip p :
  0 <= p <= 1000000000 -> exists x, from_perbill F p = Some x /\ into_perbill F x = Some p.
Proof.
  intros Hp. destruct (fw_perbill F HF) as (k & Hk & Ek). destruct div_word as (Hdw & Hd & Hdi). destruct div_as_u128 as [Ed _].
  assert (Hpw : is_word 128 p) by (split; lia). assert (Hbw : is_word 128 1000000000) by done.
  assert (Hkp : 0 <= k * p <= D) by (rewrite Ek; nia). assert (Hkw : is_word 128 (k * p)) by (destruct Hdw; split; lia).
  assert (E1 : D * p = (k * p) * 1000000000) by (rewrite Ek; ring). assert (E2 : k * p * 1000000000 = p * D) by (rewrite Ek; ring).
  exists (k * p). unfold from_perbill, fixed_from_rational, fixed_from_rational_with_rounding. rewrite Ed. split.
  - cbn [Z.eqb]. rewrite mulrat_run, E1 by done. cbn [mbind option_bind Z.eqb]. rewrite round_div_divides by (done || apply Z.divide_factor_r).
    rewrite Z.div_mul by lia. destruct Hkw as [Hkw0 Hkw1]. rewrite (proj2 (Z.ltb_lt _ _)) by lia. rewrite const_from_spec by (apply HF || lia).
    apply checked_in. destruct (int_bounds T (fw_int F HF)) as (B1 & _). unfold in_int, with_sign in *. lia.
  - unfold into_perbill, per_zero, per_one, from_parts. cbn [ACCURACY Perbill].
    destruct (Z.leb_spec (k * p) 0); [f_equal; nia |]. destruct (Z.leb_spec D (k * p)); [f_equal; nia |].
    rewrite as_u128_small, Ed by (destruct Hkw; lia). rewrite mulrat_run, E2 by done. cbn [mbind option_bind].
    rewrite (proj2 (Z.eqb_neq D 0)), round_div_divides by (lia || apply Z.divide_factor_r). rewrite Z.div_mul by lia.
    rewrite (proj2 (Z.ltb_lt p (2 ^ 128))), (proj2 (Z.ltb_ge _ _)) by lia. rewrite wrap_small by (split; lia). f_equal. lia.
Qed.

Lemma checked_sqrt_spec a :
  in_int T a ->
  if a <? 0 then checked_sqrt F a = Some None
  else exists r, checked_sqrt F a = Some (Some r) /\ 0 <= r /\ r * r <= a * D /\ (a * D < 2 ^ 128 -> a * D < (r + 1) * (r + 1)).
Proof.
  intros Ha. destruct div_word as ([Hd0 Hd1] & Hd & Hdi). destruct (int_bounds T (fw_int F HF)) as (B1 & B2 & _). unfold checked_sqrt. unfold in_int in *.
  destruct (Z.ltb_spec a 0) as [Hlt | Hge]; [rewrite (proj2 (Z.eqb_neq a 0)), (proj2 (Z.ltb_lt a 1)) by lia; done |].
  destruct (Z.eqb_spec a 0) as [-> | Hne]; [exists 0; split_and!; (done || lia) |]. rewrite (proj2 (Z.ltb_ge a 1)) by lia.
  rewrite as_u128_small by lia.
  assert (Hbig : Z.sqrt (a * D) <= imax T).
  { assert (Z.sqrt (a * D) <= Z.sqrt (imax T * imax T)) by (apply Z.sqrt_le_mono; nia). rewrite Z.sqrt_square in * by lia. done. }
  assert (Has : forall r, 0 <= r <= Z.sqrt (a * D) -> as_int T r = r).
  { intros r Hr. apply as_int_spec; [apply HF | lia | lia]. }
  pose proof (Z.sqrt_nonneg (a * D)) as Hs. destruct (Z.ltb_spec (a * D) (2 ^ 128)) as [Hf | Hf].
  - rewrite sqrt_exact by (split; [nia | done]). cbn [mbind option_bind]. rewrite Has by lia. eexists. split; [done |].
    destruct (Z.sqrt_spec (a * D) ltac:(nia)) as [S1 S2]. split_and!; (lia || nia).
  - rewrite !sqrt_exact by (split; lia). cbn [mbind option_bind]. pose proof (Z.sqrt_mul_below a D) as Hm.
    pose proof (Z.sqrt_nonneg a). pose proof (Z.sqrt_nonneg D). rewrite wrap_small by (split; nia). rewrite Has by nia.
    eexists. split; [done |]. destruct (Z.sqrt_spec a ltac:(lia)) as [S1 _]. destruct (Z.sqrt_spec D ltac:(lia)) as [S2 _].
    split_and!; [nia | | lia]. assert (Z.sqrt a * Z.sqrt a * (Z.sqrt D * Z.sqrt D) <= a * D) by (apply Z.mul_le_mono_nonneg; nia). lia.
Qed.
End ops.

(** C35. Products and quotients are exact: for each of the four types and each of the eight roundings the
    checked product and quotient never panic; the result is the exact one rounded as asked, refused exactly
    when it does not fit (or the divisor is zero).  [CheckedMul] and [CheckedDiv] are the same operations
    rounding towards zero, and [saturating_mul] cuts that product to the type. *)
Theorem fixed_mul_div_exact F a b r :
  In F fixed_types -> in_int (inner_ty F) a -> in_int (inner_ty F) b ->
  (exists v, signed_rounded r (a * b) (DIV F) v /\
    const_checked_mul_with_rounding F a b r = Some (checked (inner_ty F) v)) /\
  (if b =? 0 then checked_rounding_div F a b r = Some None
   else exists v, signed_rounded r (a * DIV F * Z.sgn b) (Z.abs b) v /\
     checked_rounding_div F a b r = Some (checked (inner_ty F) v)) /\
  fixed_checked_mul F a b = const_checked_mul_with_rounding F a b Minor /\
  fixed_checked_div F a b = checked_rounding_div F a b Minor /\
  fixed_saturating_mul F a b = Some (clamp (inner_ty F) (Z.quot (a * b) (DIV F))).
Proof.
  intros HF Ha Hb. apply fixed_types_wf in HF. destruct (div_word F HF) as (_ & Hd & _).
  rewrite !const_mul_spec, !rounding_div_spec, checked_mul_spec, checked_div_spec by done.
  split_and!; [| | done | done | by apply saturating_mul_spec].
  - eexists. split; [| done]. by apply sround_rounded.
  - destruct (Z.eqb_spec b 0); [done |]. eexists. split; [| done]. apply sround_rounded. lia.
Qed.

Lemma fixed_mul_div_exact_witness :
  exists v, signed_rounded NearestPrefLow (-7 * 1000000000) 3 v /\
    checked_rounding_div FixedI64 (-7) 3 NearestPrefLow = Some (checked i64 v).
Proof.
  destruct (fixed_mul_div_exact FixedI64 (-7) 3 NearestPrefLow) as (_ & Hd & _); [by left | done | done |].
  cbn [Z.eqb] in Hd. destruct Hd as (v & Hv & Hr). exists v. split; [exact Hv | exact Hr].
Defined.

(** Integer parts: away from the bounds of the type [trunc] and [ceil] are the integers towards zero and
    above.  [floor] is the integer below except on negative integers, where it is one too low; [round] is the
    nearest integer, halves away from zero, except strictly between minus one and zero, where it is zero. *)
Theorem fixed_parts_exact F a :
  In F fixed_types -> in_int (inner_ty F) a ->
  (0 <= a -> a + DIV F <= imax (inner_ty F)) -> (a < 0 -> imin (inner_ty F) <= a - DIV F) ->
  (exists v, signed_rounded Minor a (DIV F) v /\ trunc F a = Some (v * DIV F)) /\
  (exists v, signed_rounded High a (DIV F) v /\ ceil F a = Some (v * DIV F)) /\
  (exists v, signed_rounded Low a (DIV F) v /\
    floor F a = Some ((if (a <? 0) && (Z.rem a (DIV F) =? 0) then v - 1 else v) * DIV F)) /\
  (exists v, signed_rounded NearestPrefMajor a (DIV F) v /\
    round F a = Some ((if (- DIV F <? a) && (a <? 0) then 0 else v) * DIV F)).
Proof.
  intros HF Ha H1 H2. apply fixed_types_wf in HF. destruct (div_word F HF) as (_ & Hd & _).
  split_and!; [| by apply ceil_spec | by apply floor_spec | by apply round_spec].
  exists (Z.quot a (DIV F)). split; [rewrite <- sround_minor by done; by apply sround_rounded | by apply trunc_spec].
Qed.

Lemma fixed_parts_exact_witness :
  exists v, signed_rounded NearestPrefMajor (-2500000000) 1000000000 v /\ round FixedI64 (-2500000000) = Some (v * 1000000000).
Proof.
  destruct (fixed_parts_exact FixedI64 (-2500000000)) as (_ & _ & _ & (v & Hv & Hr)); [by left | done | done | done |].
  exists v. split; [exact Hv | exact Hr].
Defined.

(** With integers and fractions: building a number from an integer or a fraction and multiplying an
    integer by a number give the exact result, rounded towards zero and cut to the type, never a panic but
    for a zero denominator; a [Perbill] survives the trip through every fixed point type. *)
Theorem fixed_conversions_exact F N M a n d p :
  In F fixed_types -> int_wf N -> int_wf M -> in_int (inner_ty F) a -> in_int N n -> in_int M d -> 0 <= p <= 1000000000 ->
  saturating_from_integer F N n = clamp (inner_ty F) (n * DIV F) /\
  saturating_mul_int F N a n = Some (clamp N (Z.quot (a * n) (DIV F))) /\
  checked_mul_int F N a n = Some (checked N (Z.quot (a * n) (DIV F))) /\
  saturating_from_rational F N M n d =
    (if d =? 0 then None else Some (clamp (inner_ty F) (Z.quot (n * DIV F * Z.sgn d) (Z.abs d)))) /\
  (exists x, from_perbill F p = Some x /\ into_perbill F x = Some p).
Proof.
  intros HF HN HM Ha Hn Hd Hp. apply fixed_types_wf in HF. destruct (div_word F HF) as (_ & HD & _).
  split_and!; [by apply saturating_from_integer_spec | by apply saturating_mul_int_spec | | | by apply perbill_roundtrip].
  - rewrite checked_mul_int_spec, sround_minor by done. done.
  - destruct (Z.eqb_spec d 0) as [-> |]; [done |]. by apply saturating_from_rational_spec.
Qed.

Lemma fixed_conversions_exact_witness :
  saturating_mul_int FixedU64 u128 1500000000 (2 ^ 128 - 1) = Some (2 ^ 128 - 1).
Proof.
  destruct (fixed_conversions_exact FixedU64 u128 u128 1500000000 (2 ^ 128 - 1) 1 0) as (_ & -> & _);
    [right; by left | done | done | done | done | done | by split | done].
Defined.

(** Square roots: a negative number has none; otherwise [checked_sqrt] returns a root that is never too
    large, and the largest such root whenever the number times the precision fits in 128 bits. *)
Theorem fixed_sqrt_exact F a :
  In F fixed_types -> in_int (inner_ty F) a ->
  if a <? 0 then checked_sqrt F a = Some None
  else exists r, checked_sqrt F a = Some (Some r) /\ 0 <= r /\ r * r <= a * DIV F /\
    (a * DIV F < 2 ^ 128 -> a * DIV F < (r + 1) * (r + 1)).
Proof. intros HF Ha. apply fixed_types_wf in HF. by apply checked_sqrt_spec. Qed.

Lemma fixed_sqrt_exact_witness : exists r, checked_sqrt FixedU128 (2 * 10 ^ 18) = Some (Some r) /\ r * r <= 2 * 10 ^ 18 * 10 ^ 18.
Proof.
  pose proof (fixed_sqrt_exact FixedU128 (2 * 10 ^ 18)) as H. assert (E : (2 * 10 ^ 18 <? 0) = false) by done. rewrite E in H. destruct H as (r & Hr & _ & Hl & _); [do 3 right; by left | split; by vm_compute |].
  exists r. split; [exact Hr | exact Hl].
Defined.

(** Behaviours that the documentation excludes: the floor of minus two is minus three; minus seven tenths
    rounds to zero; one is not recognised as one; two to the power [2 ^ 32] is one, because the exponent is
    cut to 32 bits; and two thirds divided with [checked_div] and with [const_checked_div] differ. *)
Theorem fixed_departures :
  floor FixedI64 (-2 * DIV FixedI64) = Some (-3 * DIV FixedI64) /\
  round FixedI64 (-700000000) = Some 0 /\
  fixed_is_one (fixed_one FixedI64) = false /\
  fixed_saturating_pow FixedU64 (2 * DIV FixedU64) (2 ^ 32) = Some (DIV FixedU64) /\
  fixed_checked_div FixedU64 (2 * DIV FixedU64) (3 * DIV FixedU64) = Some (Some 666666666) /\
  const_checked_div FixedU64 (2 * DIV FixedU64) (3 * DIV FixedU64) = Some (Some 666666667).
Proof. vm_compute. done. Qed.
