(* ===== verification/BridgeLanes.v ===== *)
(** * Bridge message lanes

    [src/bridges/primitives/messages/src/lib.rs] (the data both chains of a bridge exchange) and the
    two ends of a lane in [src/bridges/modules/messages/src]: [outbound_lane.rs], [inbound_lane.rs] and
    the storage behind them in [lanes_manager.rs].

    A lane object is a handle: it holds a copy of the lane's data, read when the handle was made, and
    every write goes both to the copy and to the pallet's storage.  The handle is threaded through the
    operations as the code threads [&mut self].

    What the pallet is configured with is a type class per trait: [MessageDispatch] for the code that
    executes received messages, [BridgedChain] for the limits.  They act on [W], the storage of the
    rest of the runtime.  Nonces are [u64]; sums that the code writes with [+] panic on overflow. *)

From stdpp Require Import base tactics numbers list gmap.
From S2P Require Import Prelude Dispatch System Words.
Local Open Scope Z_scope.

(** ** Nonces and ranges *)

Abbreviation LaneId := N (only parsing).
Abbreviation MessageNonce := Z (only parsing).
Abbreviation MessagePayload := (list Z) (only parsing).

Definition nonce_max : Z := 2 ^ 64 - 1.

(** [a + b] on [u64] with overflow checks on. *)
Definition nonce_add {S} (a b : Z) : M S Z :=
  if a + b <? 2 ^ 64 then ret (a + b) else panic.

(** [(start..=finish).checked_len()] and [.saturating_len()] *)
Definition checked_len (start finish : Z) : option Z :=
  len ← word_checked_sub finish start; word_checked_add 64 len 1.

Definition saturating_len (start finish : Z) : Z :=
  match word_checked_sub finish start with
  | Some len => word_saturating_add 64 len 1
  | None => 0
  end.

(** The nonces [for nonce in start..=finish] runs through. *)
Definition range_inclusive (start finish : Z) : list Z := seqZ start (finish - start + 1).

(** ** Lane data *)

Inductive LaneState := Opened | Closed.

#[export] Instance LaneState_eq_dec : EqDecision LaneState.
Proof. solve_decision. Defined.

Definition lane_is_active (s : LaneState) : bool := bool_decide (s = Opened).

Record DeliveredMessages := { dm_begin : MessageNonce; dm_end : MessageNonce }.

#[export] Instance DeliveredMessages_eq_dec : EqDecision DeliveredMessages.
Proof. solve_decision. Defined.

Definition DeliveredMessages_new (nonce : Z) : DeliveredMessages :=
  {| dm_begin := nonce; dm_end := nonce |}.

Definition total_messages (m : DeliveredMessages) : Z := saturating_len (dm_begin m) (dm_end m).

Definition note_dispatched_message {S} (m : DeliveredMessages) : M S DeliveredMessages :=
  e <- nonce_add (dm_end m) 1 ;; ret {| dm_begin := dm_begin m; dm_end := e |}.

Record UnrewardedRelayer := { ur_relayer : AccountId; ur_messages : DeliveredMessages }.

#[export] Instance UnrewardedRelayer_eq_dec : EqDecision UnrewardedRelayer.
Proof. solve_decision. Defined.

Record InboundLaneData := {
  relayers : list UnrewardedRelayer;
  last_confirmed_nonce : MessageNonce;
  in_state : LaneState;
}.

#[export] Instance InboundLaneData_eq_dec : EqDecision InboundLaneData.
Proof. solve_decision. Defined.

Definition InboundLaneData_default : InboundLaneData :=
  {| relayers := []; last_confirmed_nonce := 0; in_state := Closed |}.

Definition InboundLaneData_opened : InboundLaneData :=
  {| relayers := relayers InboundLaneData_default;
     last_confirmed_nonce := last_confirmed_nonce InboundLaneData_default; in_state := Opened |}.

Definition last_delivered_nonce (d : InboundLaneData) : Z :=
  match last (relayers d) with
  | Some entry => dm_end (ur_messages entry)
  | None => last_confirmed_nonce d
  end.

Definition total_unrewarded_messages (d : InboundLaneData) : Z :=
  match head (relayers d), last (relayers d) with
  | Some front, Some back => saturating_len (dm_begin (ur_messages front)) (dm_end (ur_messages back))
  | _, _ => 0
  end.

Record UnrewardedRelayersState := {
  unrewarded_relayer_entries : Z;
  messages_in_oldest_entry : Z;
  rs_total_messages : Z;
  rs_last_delivered_nonce : Z;
}.

#[export] Instance UnrewardedRelayersState_eq_dec : EqDecision UnrewardedRelayersState.
Proof. solve_decision. Defined.

Definition UnrewardedRelayersState_from (lane : InboundLaneData) : UnrewardedRelayersState :=
  {| unrewarded_relayer_entries := Z.of_nat (length (relayers lane));
     messages_in_oldest_entry :=
       match head (relayers lane) with
       | Some entry => total_messages (ur_messages entry)
       | None => 0
       end;
     rs_total_messages := total_unrewarded_messages lane;
     rs_last_delivered_nonce := last_delivered_nonce lane |}.

Definition relayers_state_is_valid (self : UnrewardedRelayersState) (lane_data : InboundLaneData) : bool :=
  bool_decide (self = UnrewardedRelayersState_from lane_data).

Record OutboundLaneData := {
  oldest_unpruned_nonce : MessageNonce;
  latest_received_nonce : MessageNonce;
  latest_generated_nonce : MessageNonce;
  out_state : LaneState;
}.

#[export] Instance OutboundLaneData_eq_dec : EqDecision OutboundLaneData.
Proof. solve_decision. Defined.

Definition OutboundLaneData_default : OutboundLaneData :=
  {| oldest_unpruned_nonce := 1; latest_received_nonce := 0; latest_generated_nonce := 0;
     out_state := Closed |}.

Definition OutboundLaneData_opened : OutboundLaneData :=
  {| oldest_unpruned_nonce := oldest_unpruned_nonce OutboundLaneData_default;
     latest_received_nonce := latest_received_nonce OutboundLaneData_default;
     latest_generated_nonce := latest_generated_nonce OutboundLaneData_default; out_state := Opened |}.

(** [OutboundLaneData::queued_messages], as the ends of the range. *)
Definition queued_messages {S} (d : OutboundLaneData) : M S (Z * Z) :=
  start <- nonce_add (latest_received_nonce d) 1 ;; ret (start, latest_generated_nonce d).

(** [BTreeMap::entry(relayer).or_default() += n] for every entry that meets the range. *)
Fixpoint calc_relayers_rewards_from {S} (rewards : gmap AccountId Z) (entries : list UnrewardedRelayer)
    (start finish : Z) : M S (gmap AccountId Z) :=
  match entries with
  | [] => ret rewards
  | entry :: entries =>
      let nonce_begin := Z.max (dm_begin (ur_messages entry)) start in
      let nonce_end := Z.min (dm_end (ur_messages entry)) finish in
      if nonce_begin <=? nonce_end then
        n <- nonce_add (nonce_end - nonce_begin) 1 ;;
        total <- nonce_add (default 0 (rewards !! ur_relayer entry)) n ;;
        calc_relayers_rewards_from (<[ur_relayer entry := total]> rewards) entries start finish
      else calc_relayers_rewards_from rewards entries start finish
  end.

Definition calc_relayers_rewards {S} (messages_relayers : list UnrewardedRelayer) (start finish : Z) :
    M S (gmap AccountId Z) :=
  calc_relayers_rewards_from ∅ messages_relayers start finish.

(** ** Weights *)

Record Weight := { ref_time : Z; proof_size : Z }.

#[export] Instance Weight_eq_dec : EqDecision Weight.
Proof. solve_decision. Defined.

Definition set_proof_size (w : Weight) (c : Z) : Weight := {| ref_time := ref_time w; proof_size := c |}.

Definition weight_min (a b : Weight) : Weight :=
  {| ref_time := Z.min (ref_time a) (ref_time b); proof_size := Z.min (proof_size a) (proof_size b) |}.

Definition weight_saturating_sub (a b : Weight) : Weight :=
  {| ref_time := saturating_sub (ref_time a) (ref_time b);
     proof_size := saturating_sub (proof_size a) (proof_size b) |}.

Definition any_gt (a b : Weight) : bool :=
  (ref_time b <? ref_time a) || (proof_size b <? proof_size a).

Definition weight_sub {S} (a b : Weight) : M S Weight :=
  t <- rust_sub (ref_time a) (ref_time b) ;;
  p <- rust_sub (proof_size a) (proof_size b) ;;
  ret {| ref_time := t; proof_size := p |}.

(** ** Messages and their dispatch *)

Record MessageKey := { lane_id : LaneId; nonce : MessageNonce }.

Record Message := { msg_key : MessageKey; msg_payload : MessagePayload }.

(** [payload] is the result of decoding the dispatch payload. *)
Record DispatchMessage (P : Type) := { dmsg_key : MessageKey; dmsg_payload : option P }.
Arguments dmsg_key {P} _.
Arguments dmsg_payload {P} _.
Arguments Build_DispatchMessage {P} _ _.

Record MessageDispatchResult (R : Type) := { unspent_weight : Weight; dispatch_level_result : R }.
Arguments unspent_weight {R} _.
Arguments dispatch_level_result {R} _.
Arguments Build_MessageDispatchResult {R} _ _.

Inductive ReceptionResult (R : Type) :=
  | Dispatched (r : MessageDispatchResult R)
  | InvalidNonce
  | TooManyUnrewardedRelayers
  | TooManyUnconfirmedMessages.
Arguments Dispatched {R} r.
Arguments InvalidNonce {R}.
Arguments TooManyUnrewardedRelayers {R}.
Arguments TooManyUnconfirmedMessages {R}.

(** The trait [MessageDispatch]; [dispatch_weight] takes the message by mutable reference. *)
Class MessageDispatch (W : Type) := {
  DispatchPayload : Type;
  DispatchLevelResult : Type;
  decode_payload : MessagePayload -> option DispatchPayload;
  dispatcher_is_active : LaneId -> W -> bool;
  dispatch_weight : DispatchMessage DispatchPayload -> W -> Weight * DispatchMessage DispatchPayload;
  dispatch : DispatchMessage DispatchPayload -> W -> MessageDispatchResult DispatchLevelResult * W;
}.

(** [ChainWithMessages] of the bridged chain: its constants. *)
Class BridgedChain := {
  MAX_UNREWARDED_RELAYERS_IN_CONFIRMATION_TX : Z;
  MAX_UNCONFIRMED_MESSAGES_IN_CONFIRMATION_TX : Z;
  max_extrinsic_size : Z;
  relayer_max_encoded_len : Z;
}.

Definition HARD_MESSAGE_SIZE_LIMIT : Z := 64 * 1024.

Definition maximal_incoming_message_size (max_extrinsic_size : Z) : Z :=
  Z.min (max_extrinsic_size / 3 * 2) HARD_MESSAGE_SIZE_LIMIT.

(** ** The pallet's storage *)

Inductive BasicOperatingMode := Normal | Halted.

Inductive MessagesOperatingMode := Basic (mode : BasicOperatingMode) | RejectingOutboundMessages.

#[export] Instance BasicOperatingMode_eq_dec : EqDecision BasicOperatingMode.
Proof. solve_decision. Defined.
#[export] Instance MessagesOperatingMode_eq_dec : EqDecision MessagesOperatingMode.
Proof. solve_decision. Defined.

(** The lanes: what a storage proof can show to the other chain. *)
Record LaneStore := {
  InboundLanes : gmap LaneId InboundLaneData;
  OutboundLanes : gmap LaneId OutboundLaneData;
  OutboundMessages : gmap (LaneId * MessageNonce) MessagePayload;
}.

Inductive MessagesEvent (R : Type) :=
  | MessageAccepted (lane : LaneId) (nonce : MessageNonce)
  | MessagesReceived (lane : LaneId) (receive_results : list (MessageNonce * ReceptionResult R))
  | MessagesDelivered (lane : LaneId) (messages : DeliveredMessages).
Arguments MessageAccepted {R} lane nonce.
Arguments MessagesReceived {R} lane receive_results.
Arguments MessagesDelivered {R} lane messages.

Inductive LanesManagerError :=
  | InboundLaneAlreadyExists
  | OutboundLaneAlreadyExists
  | UnknownInboundLane
  | UnknownOutboundLane
  | ClosedInboundLane
  | ClosedOutboundLane
  | LaneDispatcherInactive.

Inductive ReceptionConfirmationError :=
  | FailedToConfirmFutureMessages
  | EmptyUnrewardedRelayerEntry
  | NonConsecutiveUnrewardedRelayerEntries
  | TryingToConfirmMoreMessagesThanExpected.

Section lanes.
Context {W : Type} `{MD : MessageDispatch W} `{BC : BridgedChain}.

Record BridgeState := {
  PalletOwner : option AccountId;
  PalletOperatingMode : MessagesOperatingMode;
  lanes : LaneStore;
  messages_events : list (MessagesEvent DispatchLevelResult);
  runtime : W;
}.

Definition with_lanes (f : LaneStore -> LaneStore) (s : BridgeState) : BridgeState :=
  Build_BridgeState (PalletOwner s) (PalletOperatingMode s) (f (lanes s)) (messages_events s) (runtime s).

Definition with_runtime (w : W) (s : BridgeState) : BridgeState :=
  Build_BridgeState (PalletOwner s) (PalletOperatingMode s) (lanes s) (messages_events s) w.

Definition messages_deposit_event (e : MessagesEvent DispatchLevelResult) (s : BridgeState) : BridgeState :=
  Build_BridgeState (PalletOwner s) (PalletOperatingMode s) (lanes s) (messages_events s ++ [e]) (runtime s).

Definition InboundLanesL : Lens BridgeState (gmap LaneId InboundLaneData) := {|
  lget s := InboundLanes (lanes s);
  lset m := with_lanes (fun l => Build_LaneStore m (OutboundLanes l) (OutboundMessages l));
|}.

Definition OutboundLanesL : Lens BridgeState (gmap LaneId OutboundLaneData) := {|
  lget s := OutboundLanes (lanes s);
  lset m := with_lanes (fun l => Build_LaneStore (InboundLanes l) m (OutboundMessages l));
|}.

Definition OutboundMessagesL : Lens BridgeState (gmap (LaneId * MessageNonce) MessagePayload) := {|
  lget s := OutboundMessages (lanes s);
  lset m := with_lanes (fun l => Build_LaneStore (InboundLanes l) (OutboundLanes l) m);
|}.

(** ** Lane storages *)

Record RuntimeInboundLaneStorage := { ri_lane_id : LaneId; ri_cached_data : InboundLaneData }.
Record RuntimeOutboundLaneStorage := { ro_lane_id : LaneId; ro_cached_data : OutboundLaneData }.

Definition inbound_from_lane_id (lane : LaneId) (check_active : bool) (s : BridgeState) :
    LanesManagerError + RuntimeInboundLaneStorage :=
  match InboundLanes (lanes s) !! lane with
  | None => inl UnknownInboundLane
  | Some cached_data =>
      if check_active && negb (lane_is_active (in_state cached_data)) then inl ClosedInboundLane
      else if check_active && negb (dispatcher_is_active lane (runtime s)) then inl LaneDispatcherInactive
      else inr {| ri_lane_id := lane; ri_cached_data := cached_data |}
  end.

Definition inbound_set_data (self : RuntimeInboundLaneStorage) (data : InboundLaneData) :
    M BridgeState RuntimeInboundLaneStorage :=
  do storage_insert InboundLanesL (ri_lane_id self) data ;;
  ret {| ri_lane_id := ri_lane_id self; ri_cached_data := data |}.

Definition inbound_purge (self : RuntimeInboundLaneStorage) : M BridgeState unit :=
  storage_remove InboundLanesL (ri_lane_id self).

(** [InboundLaneData::encoded_size_hint]: an entry is a relayer id and two nonces.  The runtime is
    compiled for a 32-bit machine, so [usize] is [u32]. *)
Definition encoded_size_hint (relayers_entries : Z) : option Z :=
  let n := relayers_entries * (relayer_max_encoded_len + 16) in
  if n <? 2 ^ 32 then word_checked_add 32 n 8 else None.

Definition extra_proof_size_bytes (self : RuntimeInboundLaneStorage) : Z :=
  let max_encoded_len :=
    default (2 ^ 32 - 1) (encoded_size_hint (wrap 32 MAX_UNREWARDED_RELAYERS_IN_CONFIRMATION_TX)) in
  let relayers_count := Z.of_nat (length (relayers (ri_cached_data self))) in
  let actual_encoded_len := default (2 ^ 32 - 1) (encoded_size_hint relayers_count) in
  saturating_sub max_encoded_len actual_encoded_len.

Definition outbound_from_lane_id (lane : LaneId) (check_active : bool) (s : BridgeState) :
    LanesManagerError + RuntimeOutboundLaneStorage :=
  match OutboundLanes (lanes s) !! lane with
  | None => inl UnknownOutboundLane
  | Some cached_data =>
      if negb check_active || lane_is_active (out_state cached_data)
      then inr {| ro_lane_id := lane; ro_cached_data := cached_data |}
      else inl ClosedOutboundLane
  end.

Definition outbound_set_data (self : RuntimeOutboundLaneStorage) (data : OutboundLaneData) :
    M BridgeState RuntimeOutboundLaneStorage :=
  do storage_insert OutboundLanesL (ro_lane_id self) data ;;
  ret {| ro_lane_id := ro_lane_id self; ro_cached_data := data |}.

Definition save_message (self : RuntimeOutboundLaneStorage) (nonce : Z) (message_payload : MessagePayload) :
    M BridgeState unit :=
  storage_insert OutboundMessagesL (ro_lane_id self, nonce) message_payload.

Definition remove_message (self : RuntimeOutboundLaneStorage) (nonce : Z) : M BridgeState unit :=
  storage_remove OutboundMessagesL (ro_lane_id self, nonce).

Definition outbound_purge (self : RuntimeOutboundLaneStorage) : M BridgeState unit :=
  storage_remove OutboundLanesL (ro_lane_id self).

(** ** The outbound lane *)

Definition outbound_set_state (self : RuntimeOutboundLaneStorage) (state : LaneState) :
    M BridgeState RuntimeOutboundLaneStorage :=
  let data := ro_cached_data self in
  outbound_set_data self (Build_OutboundLaneData (oldest_unpruned_nonce data)
    (latest_received_nonce data) (latest_generated_nonce data) state).

Definition lane_send_message (self : RuntimeOutboundLaneStorage) (message_payload : MessagePayload) :
    M BridgeState (Z * RuntimeOutboundLaneStorage) :=
  let data := ro_cached_data self in
  nonce <- nonce_add (latest_generated_nonce data) 1 ;;
  do save_message self nonce message_payload ;;
  self <- outbound_set_data self (Build_OutboundLaneData (oldest_unpruned_nonce data)
            (latest_received_nonce data) nonce (out_state data)) ;;
  ret (nonce, self).

(** The body of the loop of [ensure_unrewarded_relayers_are_correct], with [expected_entry_begin]. *)
Fixpoint check_unrewarded_relayers (expected_entry_begin : option Z) (latest_received_nonce : Z)
    (l : list UnrewardedRelayer) : ReceptionConfirmationError + unit :=
  match l with
  | [] => inr tt
  | entry :: l =>
      let m := ur_messages entry in
      if dm_end m <? dm_begin m then inl EmptyUnrewardedRelayerEntry
      else if negb (bool_decide (expected_entry_begin = Some (dm_begin m)))
      then inl NonConsecutiveUnrewardedRelayerEntries
      else if latest_received_nonce <? dm_end m then inl FailedToConfirmFutureMessages
      else check_unrewarded_relayers (word_checked_add 64 (dm_end m) 1) latest_received_nonce l
  end.

Definition ensure_unrewarded_relayers_are_correct (latest_received_nonce : Z)
    (l : list UnrewardedRelayer) : ReceptionConfirmationError + unit :=
  check_unrewarded_relayers ((fun e => dm_begin (ur_messages e)) <$> head l) latest_received_nonce l.

Definition confirm_delivery (self : RuntimeOutboundLaneStorage) (max_allowed_messages : Z)
    (latest_delivered_nonce : Z) (relayers : list UnrewardedRelayer) :
    M BridgeState ((ReceptionConfirmationError + option DeliveredMessages) * RuntimeOutboundLaneStorage) :=
  let data := ro_cached_data self in
  let confirmed_messages :=
    {| dm_begin := word_saturating_add 64 (latest_received_nonce data) 1; dm_end := latest_delivered_nonce |} in
  if total_messages confirmed_messages =? 0 then ret (inr None, self)
  else if latest_generated_nonce data <? dm_end confirmed_messages
  then ret (inl FailedToConfirmFutureMessages, self)
  else if max_allowed_messages <? total_messages confirmed_messages
  then ret (inl TryingToConfirmMoreMessagesThanExpected, self)
  else
    match ensure_unrewarded_relayers_are_correct (dm_end confirmed_messages) relayers with
    | inl e => ret (inl e, self)
    | inr _ =>
        do for_each (range_inclusive (dm_begin confirmed_messages) (dm_end confirmed_messages))
             (remove_message self) ;;
        self <- outbound_set_data self (Build_OutboundLaneData
                  (word_saturating_add 64 (dm_end confirmed_messages) 1) (dm_end confirmed_messages)
                  (latest_generated_nonce data) (out_state data)) ;;
        ret (inr (Some confirmed_messages), self)
    end.

Definition remove_oldest_unpruned_message (self : RuntimeOutboundLaneStorage) :
    M BridgeState RuntimeOutboundLaneStorage :=
  let data := ro_cached_data self in
  do remove_message self (oldest_unpruned_nonce data) ;;
  oldest <- nonce_add (oldest_unpruned_nonce data) 1 ;;
  outbound_set_data self (Build_OutboundLaneData oldest (latest_received_nonce data)
    (latest_generated_nonce data) (out_state data)).

(** ** The inbound lane *)

Definition inbound_set_state (self : RuntimeInboundLaneStorage) (state : LaneState) :
    M BridgeState RuntimeInboundLaneStorage :=
  let data := ri_cached_data self in
  inbound_set_data self (Build_InboundLaneData (relayers data) (last_confirmed_nonce data) state).

(** [while relayers.front().map(|e| e.messages.end <= n) { relayers.pop_front() }] *)
Fixpoint pop_confirmed (new_confirmed_nonce : Z) (l : list UnrewardedRelayer) : list UnrewardedRelayer :=
  match l with
  | entry :: l' => if dm_end (ur_messages entry) <=? new_confirmed_nonce
                   then pop_confirmed new_confirmed_nonce l' else l
  | [] => []
  end.

Definition receive_state_update (self : RuntimeInboundLaneStorage) (outbound_lane_data : OutboundLaneData) :
    M BridgeState (option Z * RuntimeInboundLaneStorage) :=
  let data := ri_cached_data self in
  let new_confirmed_nonce := latest_received_nonce outbound_lane_data in
  if last_delivered_nonce data <? new_confirmed_nonce then ret (None, self)
  else if new_confirmed_nonce <=? last_confirmed_nonce data then ret (None, self)
  else
    let left := pop_confirmed new_confirmed_nonce (relayers data) in
    left <- match left with
            | entry :: rest =>
                if dm_begin (ur_messages entry) <=? new_confirmed_nonce then
                  b <- nonce_add new_confirmed_nonce 1 ;;
                  ret ({| ur_relayer := ur_relayer entry;
                          ur_messages := {| dm_begin := b; dm_end := dm_end (ur_messages entry) |} |} :: rest)
                else ret left
            | [] => ret left
            end ;;
    self <- inbound_set_data self (Build_InboundLaneData left new_confirmed_nonce (in_state data)) ;;
    ret (Some new_confirmed_nonce, self).

(** [match relayers.back_mut() { Some(entry) if entry.relayer == relayer => .., _ => push_back }] *)
Fixpoint note_delivery (relayer : AccountId) (nonce : Z) (l : list UnrewardedRelayer) :
    M BridgeState (list UnrewardedRelayer) :=
  match l with
  | [] => ret [{| ur_relayer := relayer; ur_messages := DeliveredMessages_new nonce |}]
  | [entry] =>
      if bool_decide (ur_relayer entry = relayer) then
        m <- note_dispatched_message (ur_messages entry) ;;
        ret [{| ur_relayer := ur_relayer entry; ur_messages := m |}]
      else ret [entry; {| ur_relayer := relayer; ur_messages := DeliveredMessages_new nonce |}]
  | entry :: l => l <- note_delivery relayer nonce l ;; ret (entry :: l)
  end.

Definition receive_message (self : RuntimeInboundLaneStorage) (relayer_at_bridged_chain : AccountId)
    (nonce : Z) (message_data : option DispatchPayload) :
    M BridgeState (ReceptionResult DispatchLevelResult * RuntimeInboundLaneStorage) :=
  let data := ri_cached_data self in
  if negb (bool_decide (Some nonce = word_checked_add 64 (last_delivered_nonce data) 1))
  then ret (InvalidNonce, self)
  else if MAX_UNREWARDED_RELAYERS_IN_CONFIRMATION_TX <=? Z.of_nat (length (relayers data))
  then ret (TooManyUnrewardedRelayers, self)
  else if MAX_UNCONFIRMED_MESSAGES_IN_CONFIRMATION_TX <? saturating_sub nonce (last_confirmed_nonce data)
  then ret (TooManyUnconfirmedMessages, self)
  else
    dispatch_result <- (fun s =>
      let '(r, w) := dispatch (Build_DispatchMessage {| lane_id := ri_lane_id self; nonce := nonce |} message_data)
                       (runtime s) in (Ok r, with_runtime w s)) ;;
    left <- note_delivery relayer_at_bridged_chain nonce (relayers data) ;;
    self <- inbound_set_data self (Build_InboundLaneData left (last_confirmed_nonce data) (in_state data)) ;;
    ret (Dispatched dispatch_result, self).

(** ** The lanes manager *)

Definition create_inbound_lane (lane : LaneId) :
    M BridgeState (LanesManagerError + RuntimeInboundLaneStorage) := fun s =>
  match InboundLanes (lanes s) !! lane with
  | Some _ => (Ok (inl InboundLaneAlreadyExists), s)
  | None =>
      let s := snd (storage_insert InboundLanesL lane
                 (Build_InboundLaneData (relayers InboundLaneData_default)
                    (last_confirmed_nonce InboundLaneData_default) Opened) s) in
      (Ok (inbound_from_lane_id lane true s), s)
  end.

Definition create_outbound_lane (lane : LaneId) :
    M BridgeState (LanesManagerError + RuntimeOutboundLaneStorage) := fun s =>
  match OutboundLanes (lanes s) !! lane with
  | Some _ => (Ok (inl OutboundLaneAlreadyExists), s)
  | None =>
      let s := snd (storage_insert OutboundLanesL lane
                 (Build_OutboundLaneData (oldest_unpruned_nonce OutboundLaneData_default)
                    (latest_received_nonce OutboundLaneData_default)
                    (latest_generated_nonce OutboundLaneData_default) Opened) s) in
      (Ok (outbound_from_lane_id lane true s), s)
  end.
End lanes.

Arguments BridgeState W {MD}.
