(* ===== verification/BridgeMessages.v ===== *)
(** * The bridge messages pallet

    [src/bridges/modules/messages/src/lib.rs] (the dispatchables and [MessagesBridge]), [proofs.rs]
    (what a storage proof must show) and [call_ext.rs] (the checks a transaction pool makes before it
    accepts a relayer's transaction).

    The bridged chain is seen through the trait [HeaderChain]: a proof that is verified against an
    imported header gives a checker, from which lane data and messages are read.  Tries and their
    decoding are that checker's; it is a type class here.  Relayer payments are the class [Payments]. *)

From stdpp Require Import base tactics numbers list gmap.
From S2P Require Import Prelude Dispatch System BalancesCalls Words BridgeLanes.
Local Open Scope Z_scope.

(** ** Errors *)

Inductive StorageProofError :=
  | UnableToGenerateTrieProof
  | InvalidProof
  | UnsortedEntries
  | UnavailableKey
  | EmptyVal
  | DecodeError
  | UnusedKey
  | StorageRootMismatch
  | StorageValueUnavailable
  | DuplicateNodes.

Inductive HeaderChainError := UnknownHeader | HeaderStorageProof (e : StorageProofError).

Inductive VerificationError :=
  | EmptyMessageProof
  | HeaderChainErr (e : HeaderChainError)
  | InboundLaneStorageErr (e : StorageProofError)
  | InvalidMessageWeight
  | MessagesCountMismatch
  | MessageStorageErr (e : StorageProofError)
  | MessageTooLarge
  | OutboundLaneStorageErr (e : StorageProofError)
  | StorageProofErr (e : StorageProofError)
  | OtherErr.

Inductive OwnedBridgeModuleError := ModuleHalted.

Inductive MessagesError :=
  | NotOperatingNormally
  | LanesManagerErr (e : LanesManagerError)
  | MessageRejectedByPallet (e : VerificationError)
  | TooManyMessagesInTheProof
  | InvalidMessagesProof
  | InvalidMessagesDeliveryProof
  | InvalidUnrewardedRelayersState
  | InsufficientDispatchWeight
  | ReceptionConfirmation (e : ReceptionConfirmationError)
  | BridgeModule (e : OwnedBridgeModuleError).

(** The bytes of an error, little endian: the index of the variant, then those of its argument. *)
Definition StorageProofError_code (e : StorageProofError) : Z :=
  match e with
  | UnableToGenerateTrieProof => 0
  | InvalidProof => 1
  | UnsortedEntries => 2
  | UnavailableKey => 3
  | EmptyVal => 4
  | DecodeError => 5
  | UnusedKey => 6
  | StorageRootMismatch => 7
  | StorageValueUnavailable => 8
  | DuplicateNodes => 9
  end.

Definition VerificationError_code (e : VerificationError) : Z :=
  match e with
  | EmptyMessageProof => 0
  | HeaderChainErr UnknownHeader => 1
  | HeaderChainErr (HeaderStorageProof e) => 1 + 256 * (1 + 256 * StorageProofError_code e)
  | InboundLaneStorageErr e => 2 + 256 * StorageProofError_code e
  | InvalidMessageWeight => 3
  | MessagesCountMismatch => 4
  | MessageStorageErr e => 5 + 256 * StorageProofError_code e
  | MessageTooLarge => 6
  | OutboundLaneStorageErr e => 7 + 256 * StorageProofError_code e
  | StorageProofErr e => 8 + 256 * StorageProofError_code e
  | OtherErr => 9
  end.

Definition LanesManagerError_code (e : LanesManagerError) : Z :=
  match e with
  | InboundLaneAlreadyExists => 0
  | OutboundLaneAlreadyExists => 1
  | UnknownInboundLane => 2
  | UnknownOutboundLane => 3
  | ClosedInboundLane => 4
  | ClosedOutboundLane => 5
  | LaneDispatcherInactive => 6
  end.

Definition ReceptionConfirmationError_code (e : ReceptionConfirmationError) : Z :=
  match e with
  | FailedToConfirmFutureMessages => 0
  | EmptyUnrewardedRelayerEntry => 1
  | NonConsecutiveUnrewardedRelayerEntries => 2
  | TryingToConfirmMoreMessagesThanExpected => 3
  end.

Definition MessagesError_code (e : MessagesError) : Z :=
  match e with
  | NotOperatingNormally => 0
  | LanesManagerErr e => 1 + 256 * LanesManagerError_code e
  | MessageRejectedByPallet e => 2 + 256 * VerificationError_code e
  | TooManyMessagesInTheProof => 3
  | InvalidMessagesProof => 4
  | InvalidMessagesDeliveryProof => 5
  | InvalidUnrewardedRelayersState => 6
  | InsufficientDispatchWeight => 7
  | ReceptionConfirmation e => 8 + 256 * ReceptionConfirmationError_code e
  | BridgeModule ModuleHalted => 9
  end.

(** ** What the pallet is configured with *)

Abbreviation RawStorageProof := (list (list Z)) (only parsing).

(** [HeaderChain::verify_storage_proof] and the reads of [StorageProofAdapter]; a read also records
    which nodes of the proof it used. *)
Class HeaderChain (W : Type) := {
  BridgedHeaderHash : Type;
  StorageProofChecker : Type;
  verify_storage_proof : BridgedHeaderHash -> RawStorageProof -> W -> HeaderChainError + StorageProofChecker;
  read_message_payload : MessageKey -> StorageProofChecker ->
    (StorageProofError + MessagePayload) * StorageProofChecker;
  read_outbound_lane_data : LaneId -> StorageProofChecker ->
    (StorageProofError + option OutboundLaneData) * StorageProofChecker;
  read_inbound_lane_data : LaneId -> StorageProofChecker ->
    (StorageProofError + InboundLaneData) * StorageProofChecker;
  ensure_no_unused_keys : StorageProofChecker -> StorageProofError + unit;
}.

Class Payments (W : Type) := {
  delivery_pay_reward : AccountId -> Z -> Z -> Weight -> W -> W;
  confirmation_pay_reward : LaneId -> list UnrewardedRelayer -> AccountId -> Z -> Z -> M W Z;
  on_messages_delivered : LaneId -> Z -> W -> W;
}.

Class MessagesConfig := {
  MessagesPalletIndex : Z;
  receive_messages_proof_weight : Z -> Z -> Weight -> Weight;
  receive_messages_delivery_proof_weight : Z -> UnrewardedRelayersState -> Weight;
}.

(** ** Proofs *)

(** The saturating sum of the node lengths, as a [u32]; [usize] is 32 bits wide. *)
Definition raw_storage_proof_size (p : RawStorageProof) : Z :=
  foldl (fun sum node => word_saturating_add 32 sum (Z.of_nat (length node))) 0 p.

Record FromBridgedChainMessagesProof (H : Type) := {
  mp_bridged_header_hash : H;
  mp_storage_proof : RawStorageProof;
  mp_lane : LaneId;
  nonces_start : MessageNonce;
  nonces_end : MessageNonce;
}.
Arguments mp_bridged_header_hash {H} _.
Arguments mp_storage_proof {H} _.
Arguments mp_lane {H} _.
Arguments nonces_start {H} _.
Arguments nonces_end {H} _.
Arguments Build_FromBridgedChainMessagesProof {H} _ _ _ _ _.

Record FromBridgedChainMessagesDeliveryProof (H : Type) := {
  dp_bridged_header_hash : H;
  dp_storage_proof : RawStorageProof;
  dp_lane : LaneId;
}.
Arguments dp_bridged_header_hash {H} _.
Arguments dp_storage_proof {H} _.
Arguments dp_lane {H} _.
Arguments Build_FromBridgedChainMessagesDeliveryProof {H} _ _ _.

Record ProvedLaneMessages (Msg : Type) := {
  lane_state : option OutboundLaneData;
  proved_messages : list Msg;
}.
Arguments lane_state {Msg} _.
Arguments proved_messages {Msg} _.
Arguments Build_ProvedLaneMessages {Msg} _ _.

Section messages.
Context {W : Type} `{MD : MessageDispatch W} `{BC : BridgedChain} `{HC : HeaderChain W}.
Context `{PY : Payments W} `{MC : MessagesConfig}.

Abbreviation State := (BridgeState W).

Definition messages_fail {S A} (e : MessagesError) : M S A :=
  fail (ModuleError MessagesPalletIndex (MessagesError_code e)).

Definition messages_ensure {S} (c : bool) (e : MessagesError) : M S unit :=
  if c then ret tt else messages_fail e.

Definition lanes_result {S A} (r : LanesManagerError + A) : M S A :=
  match r with
  | inl e => messages_fail (LanesManagerErr e)
  | inr a => ret a
  end.

(** The loop over the nonces of the proof. *)
Fixpoint read_messages (lane : LaneId) (nonces : list Z) (parser : StorageProofChecker) :
    VerificationError + list Message * StorageProofChecker :=
  match nonces with
  | [] => inr ([], parser)
  | n :: nonces =>
      let key := {| lane_id := lane; nonce := n |} in
      match read_message_payload key parser with
      | (inl e, _) => inl (MessageStorageErr e)
      | (inr payload, parser) =>
          match read_messages lane nonces parser with
          | inl e => inl e
          | inr (messages, parser) => inr ({| msg_key := key; msg_payload := payload |} :: messages, parser)
          end
      end
  end.

Definition verify_messages_proof (proof : FromBridgedChainMessagesProof BridgedHeaderHash)
    (messages_count : Z) (w : W) : VerificationError + LaneId * ProvedLaneMessages Message :=
  match verify_storage_proof (mp_bridged_header_hash proof) (mp_storage_proof proof) w with
  | inl e => inl (HeaderChainErr e)
  | inr parser =>
      if negb (saturating_len (nonces_start proof) (nonces_end proof) =? messages_count)
      then inl MessagesCountMismatch
      else
        match read_messages (mp_lane proof) (range_inclusive (nonces_start proof) (nonces_end proof)) parser with
        | inl e => inl e
        | inr (messages, parser) =>
            match read_outbound_lane_data (mp_lane proof) parser with
            | (inl e, _) => inl (OutboundLaneStorageErr e)
            | (inr lane_state, parser) =>
                if bool_decide (lane_state = None) && bool_decide (length messages = 0%nat)
                then inl EmptyMessageProof
                else
                  match ensure_no_unused_keys parser with
                  | inl e => inl (StorageProofErr e)
                  | inr _ => inr (mp_lane proof, Build_ProvedLaneMessages lane_state messages)
                  end
            end
        end
  end.

Definition verify_messages_delivery_proof (proof : FromBridgedChainMessagesDeliveryProof BridgedHeaderHash)
    (w : W) : VerificationError + LaneId * InboundLaneData :=
  match verify_storage_proof (dp_bridged_header_hash proof) (dp_storage_proof proof) w with
  | inl e => inl (HeaderChainErr e)
  | inr parser =>
      match read_inbound_lane_data (dp_lane proof) parser with
      | (inl e, _) => inl (InboundLaneStorageErr e)
      | (inr inbound_lane_data, parser) =>
          match ensure_no_unused_keys parser with
          | inl e => inl (StorageProofErr e)
          | inr _ => inr (dp_lane proof, inbound_lane_data)
          end
      end
  end.

(** [From<Message> for DispatchMessage] *)
Definition DispatchMessage_from (m : Message) : DispatchMessage DispatchPayload :=
  Build_DispatchMessage (msg_key m) (decode_payload (msg_payload m)).

Definition verify_and_decode_messages_proof (proof : FromBridgedChainMessagesProof BridgedHeaderHash)
    (messages_count : Z) (w : W) :
    VerificationError + LaneId * ProvedLaneMessages (DispatchMessage DispatchPayload) :=
  match verify_messages_proof proof messages_count w with
  | inl e => inl e
  | inr (lane, lane_data) =>
      inr (lane, Build_ProvedLaneMessages (lane_state lane_data)
                   (DispatchMessage_from <$> proved_messages lane_data))
  end.

(** ** Operating mode and owner *)

Definition messages_is_halted (m : MessagesOperatingMode) : bool :=
  match m with
  | Basic operating_mode => bool_decide (operating_mode = Halted)
  | _ => false
  end.

Definition ensure_not_halted : M State unit := fun s =>
  messages_ensure (negb (messages_is_halted (PalletOperatingMode s))) (BridgeModule ModuleHalted) s.

Definition ensure_owner_or_root (origin : RawOrigin) : M State unit := fun s =>
  match origin with
  | Root => (Ok tt, s)
  | Signed signer => if bool_decide (PalletOwner s = Some signer) then (Ok tt, s) else (Err BadOrigin, s)
  | _ => (Err BadOrigin, s)
  end.

Definition set_owner (origin : RawOrigin) (new_owner : option AccountId) : M State unit :=
  with_storage_layer (
    do ensure_owner_or_root origin ;;
    modify (fun s => Build_BridgeState new_owner (PalletOperatingMode s) (lanes s) (messages_events s)
                       (runtime s))).

Definition set_operating_mode (origin : RawOrigin) (operating_mode : MessagesOperatingMode) : M State unit :=
  with_storage_layer (
    do ensure_owner_or_root origin ;;
    modify (fun s => Build_BridgeState (PalletOwner s) operating_mode (lanes s) (messages_events s)
                       (runtime s))).

(** ** Sending *)

Definition ensure_normal_operating_mode : M State unit := fun s =>
  messages_ensure (bool_decide (PalletOperatingMode s = Basic Normal)) NotOperatingNormally s.

Record SendMessageArgs := {
  sa_lane_id : LaneId;
  sa_lane : RuntimeOutboundLaneStorage;
  sa_payload : MessagePayload;
}.

(** [encoded] is [message.encode()]; the payload is a [BoundedVec]. *)
Definition validate_message (lane : LaneId) (encoded : MessagePayload) : M State SendMessageArgs :=
  do ensure_normal_operating_mode ;;
  handle <- (fun s => lanes_result (outbound_from_lane_id lane true s) s) ;;
  do messages_ensure (Z.of_nat (length encoded) <=? maximal_incoming_message_size max_extrinsic_size)
       (MessageRejectedByPallet MessageTooLarge) ;;
  ret {| sa_lane_id := lane; sa_lane := handle; sa_payload := encoded |}.

Record SendMessageArtifacts := { art_nonce : MessageNonce; enqueued_messages : MessageNonce }.

Definition send_message (args : SendMessageArgs) : M State SendMessageArtifacts :=
  '(nonce, lane) <- lane_send_message (sa_lane args) (sa_payload args) ;;
  '(first, final) <- queued_messages (ro_cached_data lane) ;;
  do modify (messages_deposit_event (MessageAccepted (sa_lane_id args) nonce)) ;;
  ret {| art_nonce := nonce; enqueued_messages := saturating_len first final |}.

(** ** Receiving messages *)

Record Delivery := {
  dv_lane : RuntimeInboundLaneStorage;
  dv_total_messages : Z;
  dv_valid_messages : Z;
  dv_dispatch_weight_left : Weight;
  dv_actual_weight : Weight;
  dv_results : list (Z * ReceptionResult DispatchLevelResult);
}.

(** One turn of the loop over the messages of the proof. *)
Definition receive_one_message (relayer_id_at_bridged_chain : AccountId)
    (message : DispatchMessage DispatchPayload) (d : Delivery) : M State Delivery :=
  total_messages <- nonce_add (dv_total_messages d) 1 ;;
  '(message_dispatch_weight, message) <- gets (fun s => dispatch_weight message (runtime s)) ;;
  do messages_ensure (negb (any_gt message_dispatch_weight (dv_dispatch_weight_left d)))
       InsufficientDispatchWeight ;;
  '(receival_result, lane) <- receive_message (dv_lane d) relayer_id_at_bridged_chain
                                (nonce (dmsg_key message)) (dmsg_payload message) ;;
  '(valid_messages, unspent) <-
    match receival_result with
    | Dispatched dispatch_result =>
        v <- nonce_add (dv_valid_messages d) 1 ;; ret (v, unspent_weight dispatch_result)
    | _ => ret (dv_valid_messages d, message_dispatch_weight)
    end ;;
  let unspent := weight_min unspent message_dispatch_weight in
  spent <- weight_sub message_dispatch_weight unspent ;;
  weight_left <- weight_sub (dv_dispatch_weight_left d) spent ;;
  ret {| dv_lane := lane; dv_total_messages := total_messages; dv_valid_messages := valid_messages;
         dv_dispatch_weight_left := weight_left;
         dv_actual_weight := weight_saturating_sub (dv_actual_weight d) unspent;
         dv_results := dv_results d ++ [(nonce (dmsg_key message), receival_result)] |}.

Fixpoint receive_each_message (relayer_id_at_bridged_chain : AccountId)
    (messages : list (DispatchMessage DispatchPayload)) (d : Delivery) : M State Delivery :=
  match messages with
  | [] => ret d
  | message :: messages =>
      d <- receive_one_message relayer_id_at_bridged_chain message d ;;
      receive_each_message relayer_id_at_bridged_chain messages d
  end.

(** The call's result is the actual weight of its post-dispatch information. *)
Definition receive_messages_proof (origin : RawOrigin) (relayer_id_at_bridged_chain : AccountId)
    (proof : FromBridgedChainMessagesProof BridgedHeaderHash) (messages_count : Z)
    (dispatch_weight : Weight) : M State Weight :=
  with_storage_layer (
    do ensure_not_halted ;;
    relayer_id_at_this_chain <- ensure_signed origin ;;
    do messages_ensure (messages_count <=? MAX_UNCONFIRMED_MESSAGES_IN_CONFIRMATION_TX)
         TooManyMessagesInTheProof ;;
    let declared_weight := receive_messages_proof_weight (raw_storage_proof_size (mp_storage_proof proof))
                             messages_count dispatch_weight in
    '(lane, lane_data) <- (fun s =>
       match verify_and_decode_messages_proof proof messages_count (runtime s) with
       | inl _ => messages_fail InvalidMessagesProof s
       | inr r => (Ok r, s)
       end) ;;
    handle <- (fun s => lanes_result (inbound_from_lane_id lane true s) s) ;;
    let actual_weight := set_proof_size declared_weight
      (saturating_sub (proof_size declared_weight) (extra_proof_size_bytes handle)) in
    handle <- match lane_state lane_data with
              | Some state => '(_, handle) <- receive_state_update handle state ;; ret handle
              | None => ret handle
              end ;;
    d <- receive_each_message relayer_id_at_bridged_chain (proved_messages lane_data)
           {| dv_lane := handle; dv_total_messages := 0; dv_valid_messages := 0;
              dv_dispatch_weight_left := dispatch_weight; dv_actual_weight := actual_weight;
              dv_results := [] |} ;;
    do modify (fun s => with_runtime (delivery_pay_reward relayer_id_at_this_chain (dv_total_messages d)
                                        (dv_valid_messages d) (dv_actual_weight d) (runtime s)) s) ;;
    do modify (messages_deposit_event (MessagesReceived lane (dv_results d))) ;;
    ret (dv_actual_weight d)).

(** ** Receiving confirmations *)

(** Code of another part of the runtime, run on its storage. *)
Definition lift_runtime {A} (m : M W A) : M State A := fun s =>
  let '(r, w) := m (runtime s) in (r, with_runtime w s).

Definition receive_messages_delivery_proof (origin : RawOrigin)
    (proof : FromBridgedChainMessagesDeliveryProof BridgedHeaderHash)
    (relayers_state : UnrewardedRelayersState) : M State Weight :=
  with_storage_layer (
    do ensure_not_halted ;;
    let proof_size := raw_storage_proof_size (dp_storage_proof proof) in
    confirmation_relayer <- ensure_signed origin ;;
    '(lane, lane_data) <- (fun s =>
       match verify_messages_delivery_proof proof (runtime s) with
       | inl _ => messages_fail InvalidMessagesDeliveryProof s
       | inr r => (Ok r, s)
       end) ;;
    do messages_ensure (relayers_state_is_valid relayers_state lane_data) InvalidUnrewardedRelayersState ;;
    handle <- (fun s => lanes_result (outbound_from_lane_id lane false s) s) ;;
    let last_delivered_nonce := last_delivered_nonce lane_data in
    '(confirmed, handle) <- confirm_delivery handle (rs_total_messages relayers_state) last_delivered_nonce
                              (relayers lane_data) ;;
    confirmed_messages <- match confirmed with
                          | inl e => messages_fail (ReceptionConfirmation e)
                          | inr c => ret c
                          end ;;
    relayers_state <-
      match confirmed_messages with
      | Some confirmed_messages =>
          let first := dm_begin confirmed_messages in
          let final := dm_end confirmed_messages in
          do modify (messages_deposit_event (MessagesDelivered lane confirmed_messages)) ;;
          actually_rewarded_relayers <-
            lift_runtime (confirmation_pay_reward lane (relayers lane_data) confirmation_relayer first final) ;;
          ret {| unrewarded_relayer_entries :=
                   Z.min (unrewarded_relayer_entries relayers_state) actually_rewarded_relayers;
                 messages_in_oldest_entry := messages_in_oldest_entry relayers_state;
                 rs_total_messages := Z.min (rs_total_messages relayers_state)
                                        (default nonce_max (checked_len first final));
                 rs_last_delivered_nonce := rs_last_delivered_nonce relayers_state |}
      | None => ret relayers_state
      end ;;
    '(first, final) <- queued_messages (ro_cached_data handle) ;;
    do modify (fun s => with_runtime (on_messages_delivered lane (saturating_len first final) (runtime s)) s) ;;
    ret (receive_messages_delivery_proof_weight proof_size relayers_state)).

(** ** Genesis *)

Definition messages_genesis_build (operating_mode : MessagesOperatingMode) (owner : option AccountId)
    (opened_lanes : list LaneId) : M State unit :=
  do modify (fun s => Build_BridgeState (PalletOwner s) operating_mode (lanes s) (messages_events s) (runtime s)) ;;
  do (match owner with
      | Some owner => modify (fun s => Build_BridgeState (Some owner) (PalletOperatingMode s) (lanes s)
                                         (messages_events s) (runtime s))
      | None => ret tt
      end) ;;
  for_each opened_lanes (fun lane =>
    do storage_insert InboundLanesL lane InboundLaneData_opened ;;
    storage_insert OutboundLanesL lane OutboundLaneData_opened).

(** ** Closing the lanes of a bridge *)

(** The loop over [outbound_lane.queued_messages()], with [pruned_messages]. *)
Fixpoint prune_queued_messages (queued : list Z) (pruned_messages may_prune_messages : Z)
    (outbound_lane : RuntimeOutboundLaneStorage) : M State (Z * RuntimeOutboundLaneStorage) :=
  match queued with
  | [] => ret (pruned_messages, outbound_lane)
  | _ :: queued =>
      if pruned_messages =? may_prune_messages then ret (pruned_messages, outbound_lane)
      else
        outbound_lane <- remove_oldest_unpruned_message outbound_lane ;;
        pruned_messages <- nonce_add pruned_messages 1 ;;
        prune_queued_messages queued pruned_messages may_prune_messages outbound_lane
  end.

(** What [close_bridge] of the bridge hub does to the lanes of the bridge; the record of the bridge and
    its deposit are the hub's own.  The result is the number of pruned messages, and of the messages
    that are still queued when the lanes are not purged yet. *)
Definition close_bridge_lanes (lane : LaneId) (may_prune_messages : Z) : M State (Z * option Z) :=
  inbound_lane <- (fun s => lanes_result (inbound_from_lane_id lane false s) s) ;;
  outbound_lane <- (fun s => lanes_result (outbound_from_lane_id lane false s) s) ;;
  let data := ro_cached_data outbound_lane in
  '(pruned_messages, outbound_lane) <-
     prune_queued_messages (range_inclusive (oldest_unpruned_nonce data) (latest_generated_nonce data))
       0 may_prune_messages outbound_lane ;;
  let data := ro_cached_data outbound_lane in
  if oldest_unpruned_nonce data <=? latest_generated_nonce data then
    inbound_lane <- inbound_set_state inbound_lane Closed ;;
    outbound_lane <- outbound_set_state outbound_lane Closed ;;
    let data := ro_cached_data outbound_lane in
    ret (pruned_messages, Some (saturating_len (oldest_unpruned_nonce data) (latest_generated_nonce data)))
  else
    do inbound_purge inbound_lane ;;
    do outbound_purge outbound_lane ;;
    ret (pruned_messages, None).

(** ** The pallet's own check of its state *)

(** The messages of the last nonces before [oldest_unpruned_nonce] that are still stored. *)
Definition unpruned_message_nonces (lane : LaneId) (lane_data : OutboundLaneData) (s : State) : list Z :=
  match word_checked_sub (oldest_unpruned_nonce lane_data) 1 with
  | None => []
  | Some expected_last_prunned_nonce =>
      let start_nonce := default 0 (word_checked_sub expected_last_prunned_nonce 16) in
      filter (fun nonce => is_Some (OutboundMessages (lanes s) !! (lane, nonce)))
        (range_inclusive start_nonce expected_last_prunned_nonce)
  end.

Definition do_try_state_for_outbound_lanes (s : State) : bool :=
  forallb (fun '(lane, lane_data) => bool_decide (unpruned_message_nonces lane lane_data s = []))
    (map_to_list (OutboundLanes (lanes s))).

(** ** Obsolete transactions *)

Record BaseMessagesProofInfo := {
  bi_lane_id : LaneId;
  bundled_begin : MessageNonce;
  bundled_end : MessageNonce;
  best_stored_nonce : MessageNonce;
}.

Definition appends_to_stored_nonce (i : BaseMessagesProofInfo) : bool :=
  bool_decide (Some (bundled_begin i) = word_checked_add 64 (best_stored_nonce i) 1).

Record UnrewardedRelayerOccupation := { free_relayer_slots : Z; free_message_slots : Z }.

Definition unrewarded_relayers_occupation (d : InboundLaneData) : UnrewardedRelayerOccupation :=
  {| free_relayer_slots :=
       saturating_sub MAX_UNREWARDED_RELAYERS_IN_CONFIRMATION_TX (Z.of_nat (length (relayers d)));
     free_message_slots :=
       saturating_sub MAX_UNCONFIRMED_MESSAGES_IN_CONFIRMATION_TX
         (saturating_sub (last_delivered_nonce d) (last_confirmed_nonce d)) |}.

Inductive MessagesCallInfo :=
  | ReceiveMessagesProofInfo (base : BaseMessagesProofInfo) (unrewarded_relayers : UnrewardedRelayerOccupation)
  | ReceiveMessagesDeliveryProofInfo (base : BaseMessagesProofInfo).

Definition delivery_is_obsolete (base : BaseMessagesProofInfo) (u : UnrewardedRelayerOccupation)
    (is_dispatcher_active : bool) : bool :=
  if negb is_dispatcher_active then true
  else if bundled_end base <? bundled_begin base then
    negb ((free_relayer_slots u =? 0) || (free_message_slots u =? 0))
  else negb (appends_to_stored_nonce base).

Definition confirmation_is_obsolete (base : BaseMessagesProofInfo) : bool :=
  (bundled_end base <? bundled_begin base) || negb (appends_to_stored_nonce base).

(** The calls of the pallet that relayers submit. *)
Inductive MessagesCall :=
  | ReceiveMessagesProofCall (proof : FromBridgedChainMessagesProof BridgedHeaderHash)
  | ReceiveMessagesDeliveryProofCall (proof : FromBridgedChainMessagesDeliveryProof BridgedHeaderHash)
      (relayers_state : UnrewardedRelayersState)
  | OtherCall.

Definition call_info (call : MessagesCall) : M State (option MessagesCallInfo) := fun s =>
  match call with
  | ReceiveMessagesProofCall proof =>
      match InboundLanes (lanes s) !! mp_lane proof with
      | None => (Ok None, s)
      | Some d => (Ok (Some (ReceiveMessagesProofInfo
          {| bi_lane_id := mp_lane proof; bundled_begin := nonces_start proof; bundled_end := nonces_end proof;
             best_stored_nonce := last_delivered_nonce d |} (unrewarded_relayers_occupation d))), s)
      end
  | ReceiveMessagesDeliveryProofCall proof relayers_state =>
      match OutboundLanes (lanes s) !! dp_lane proof with
      | None => (Ok None, s)
      | Some d =>
          (first <- nonce_add (latest_received_nonce d) 1 ;;
           ret (Some (ReceiveMessagesDeliveryProofInfo
             {| bi_lane_id := dp_lane proof; bundled_begin := first;
                bundled_end := rs_last_delivered_nonce relayers_state;
                best_stored_nonce := latest_received_nonce d |}))) s
      end
  | OtherCall => (Ok None, s)
  end.

Inductive TransactionValidity := Valid | InvalidCall | InvalidStale.

Definition check_obsolete_call (call : MessagesCall) : M State TransactionValidity := fun s =>
  (info <- call_info call ;;
   ret match info with
       | None => Valid
       | Some info =>
           if messages_is_halted (PalletOperatingMode s) then InvalidCall
           else
             match info with
             | ReceiveMessagesProofInfo base u =>
                 if delivery_is_obsolete base u (dispatcher_is_active (bi_lane_id base) (runtime s))
                 then InvalidStale else Valid
             | ReceiveMessagesDeliveryProofInfo base =>
                 if confirmation_is_obsolete base then InvalidStale else Valid
             end
       end) s.

Definition was_successful (info : MessagesCallInfo) (s : State) : bool :=
  match info with
  | ReceiveMessagesProofInfo base u =>
      match InboundLanes (lanes s) !! bi_lane_id base with
      | None => false
      | Some d =>
          if bundled_end base <? bundled_begin base
          then free_message_slots u <? free_message_slots (unrewarded_relayers_occupation d)
          else last_delivered_nonce d =? bundled_end base
      end
  | ReceiveMessagesDeliveryProofInfo base =>
      match OutboundLanes (lanes s) !! bi_lane_id base with
      | None => false
      | Some d => latest_received_nonce d =? bundled_end base
      end
  end.
End messages.
