(* ===== verification/BridgeLaneFacts.v ===== *)
(** * The two ends of a lane

    The inbound lane keeps the couriers of the messages it has delivered and not yet seen confirmed as
    a list of ranges.  [couriers_of] unfolds the ranges into one courier per message, [chain] says the
    ranges are consecutive, non-empty and maximal: together they make the lane's data the run-length
    encoding of that list, and the two operations of the lane are [++ [courier]] and [drop].

    The outbound lane stores exactly the messages between the last confirmed and the last generated
    nonce. *)

From stdpp Require Import base tactics numbers list gmap.
From S2P Require Import Prelude Dispatch System Words BridgeLanes.
Local Open Scope Z_scope.

(** ** Ranges *)

Lemma saturating_len_exact a b : 0 <= a -> b <= nonce_max -> a <= b + 1 -> b - a < nonce_max ->
  saturating_len a b = b - a + 1.
Proof.
  unfold nonce_max, saturating_len, word_checked_sub, word_saturating_add. intros.
  destruct (Z.leb_spec a b); lia.
Qed.

Lemma saturating_len_zero a b : saturating_len a b = 0 <-> b < a.
Proof. unfold saturating_len, word_checked_sub, word_saturating_add. destruct (Z.leb_spec a b); lia. Qed.

Lemma saturating_len_le a b : saturating_len a b <= Z.max 0 (b - a + 1).
Proof. unfold saturating_len, word_checked_sub, word_saturating_add. destruct (Z.leb_spec a b); lia. Qed.

Lemma elem_of_range_inclusive n a b : n ∈ range_inclusive a b <-> a <= n <= b.
Proof. unfold range_inclusive. rewrite elem_of_seqZ. lia. Qed.

Lemma range_inclusive_cons a b : a <= b -> range_inclusive a b = a :: range_inclusive (a + 1) b.
Proof.
  intros. unfold range_inclusive. rewrite seqZ_cons by lia. f_equal. f_equal; lia.
Qed.

Lemma range_inclusive_nil a b : b < a -> range_inclusive a b = [].
Proof. intros. unfold range_inclusive. apply seqZ_nil. lia. Qed.

Lemma nonce_add_ok {S} a b (s : S) : a + b <= nonce_max -> nonce_add a b s = (Ok (a + b), s).
Proof. unfold nonce_add, nonce_max. intros. by rewrite (proj2 (Z.ltb_lt _ _)) by lia. Qed.

(** ** Couriers *)

Fixpoint couriers_of (l : list UnrewardedRelayer) : list AccountId :=
  match l with
  | [] => []
  | e :: l => replicate (Z.to_nat (dm_end (ur_messages e) - dm_begin (ur_messages e) + 1)) (ur_relayer e)
              ++ couriers_of l
  end.

(** Consecutive non-empty ranges after nonce [c], neighbours of different couriers. *)
Fixpoint chain (c : Z) (l : list UnrewardedRelayer) : Prop :=
  match l with
  | [] => True
  | e :: l => dm_begin (ur_messages e) = c + 1 /\ c < dm_end (ur_messages e) /\
              (forall e', head l = Some e' -> ur_relayer e' <> ur_relayer e) /\
              chain (dm_end (ur_messages e)) l
  end.

Definition chain_end (c : Z) (l : list UnrewardedRelayer) : Z :=
  match last l with
  | Some e => dm_end (ur_messages e)
  | None => c
  end.

Lemma last_delivered_chain d : last_delivered_nonce d = chain_end (last_confirmed_nonce d) (relayers d).
Proof. done. Qed.

Lemma chain_end_cons c e l : chain_end c (e :: l) = chain_end (dm_end (ur_messages e)) l.
Proof.
  unfold chain_end. destruct l as [| e' l]; [done |].
  change (last (e :: e' :: l)) with (last (e' :: l)). destruct (last (e' :: l)) eqn:E; [done |].
  by apply last_None in E.
Qed.

Lemma chain_grows c l : chain c l -> c + Z.of_nat (length l) <= chain_end c l.
Proof.
  revert c. induction l as [| e l IH]; intros c Hl; [unfold chain_end; simpl; lia |].
  destruct Hl as (_ & He & _ & Hl). rewrite chain_end_cons. specialize (IH _ Hl). simpl length. lia.
Qed.

Lemma couriers_length c l : chain c l -> Z.of_nat (length (couriers_of l)) = chain_end c l - c.
Proof.
  revert c. induction l as [| e l IH]; intros c Hl; [unfold chain_end; simpl; lia |].
  destruct Hl as (Hb & He & _ & Hl). rewrite chain_end_cons. simpl.
  rewrite length_app, length_replicate. specialize (IH _ Hl). lia.
Qed.

Lemma couriers_cons c e l : chain c (e :: l) -> exists rest, couriers_of (e :: l) = ur_relayer e :: rest.
Proof.
  intros (Hb & He & _). simpl.
  destruct (Z.to_nat (dm_end (ur_messages e) - dm_begin (ur_messages e) + 1)) as [| n] eqn:E; [lia |].
  simpl. eauto.
Qed.

Lemma couriers_head c l : chain c l -> head (couriers_of l) = ur_relayer <$> head l.
Proof. destruct l as [| e l]; [done |]. intros [rest ->]%couriers_cons. done. Qed.

Lemma replicate_split (x : AccountId) n m l l' :
  head l <> Some x -> head l' <> Some x -> replicate n x ++ l = replicate m x ++ l' -> n = m /\ l = l'.
Proof.
  revert m. induction n as [| n IH]; intros [| m] Hl Hl' E; simpl in E.
  - done.
  - by rewrite E in Hl.
  - by rewrite <- E in Hl'.
  - injection E as E. destruct (IH m Hl Hl' E) as [-> ->]. done.
Qed.

(** The ranges are determined by the couriers. *)
Lemma chain_canonical c l l' : chain c l -> chain c l' -> couriers_of l = couriers_of l' -> l = l'.
Proof.
  revert c l'. induction l as [| e l IH]; intros c [| e' l'] Hl Hl' E; [done | | |].
  - destruct (couriers_cons _ _ _ Hl') as [rest Er]. by rewrite Er in E.
  - destruct (couriers_cons _ _ _ Hl) as [rest Er]. by rewrite Er in E.
  - destruct (couriers_cons _ _ _ Hl) as [r1 E1], (couriers_cons _ _ _ Hl') as [r2 E2].
    assert (Er : ur_relayer e = ur_relayer e') by (rewrite E1, E2 in E; by injection E). clear r1 r2 E1 E2.
    destruct e as [x [b f]], e' as [x' [b' f']]. simpl in Er. subst x'.
    destruct Hl as (Hb & Hf & Hn & Hl), Hl' as (Hb' & Hf' & Hn' & Hl'). simpl in *.
    apply replicate_split in E as [En E].
    + assert (f = f') by lia. subst. by rewrite (IH f' l' Hl Hl' E).
    + rewrite (couriers_head _ _ Hl). destruct l as [| e2 l]; simpl; [done |].
      intros [= H]. by apply (Hn e2).
    + rewrite (couriers_head _ _ Hl'). destruct l' as [| e2 l']; simpl; [done |].
      intros [= H]. by apply (Hn' e2).
Qed.

(** ** Confirmed entries *)

(** What [receive_state_update] makes of the relayers. *)
Definition trim (n : Z) (l : list UnrewardedRelayer) : list UnrewardedRelayer :=
  match pop_confirmed n l with
  | e :: rest =>
      if dm_begin (ur_messages e) <=? n
      then {| ur_relayer := ur_relayer e;
              ur_messages := {| dm_begin := n + 1; dm_end := dm_end (ur_messages e) |} |} :: rest
      else e :: rest
  | [] => []
  end.

Lemma trim_spec c n l : chain c l -> c <= n <= chain_end c l ->
  chain n (trim n l) /\ chain_end n (trim n l) = chain_end c l /\
  couriers_of (trim n l) = drop (Z.to_nat (n - c)) (couriers_of l) /\
  (length (trim n l) <= length l)%nat.
Proof.
  unfold trim. revert c. induction l as [| e l IH]; intros c Hl Hn.
  { unfold chain_end in *. simpl in *. assert (n = c) by lia. subst. rewrite Z.sub_diag. done. }
  pose proof Hl as (Hb & He & Hd & Hl'). rewrite chain_end_cons in Hn |- *. cbn [pop_confirmed].
  destruct (Z.leb_spec (dm_end (ur_messages e)) n) as [Hle | Hgt].
  - destruct (IH _ Hl' ltac:(lia)) as (H1 & H2 & H3 & H4). split; [done |]. split; [done |].
    split; [| simpl; lia]. rewrite H3. cbn [couriers_of]. symmetry.
    rewrite drop_app_ge by (rewrite length_replicate; lia). rewrite length_replicate. f_equal. lia.
  - destruct (Z.leb_spec (dm_begin (ur_messages e)) n) as [Hle | Hgt'].
    + split; [simpl; auto with lia |]. rewrite chain_end_cons. split; [done |].
      split; [| simpl; lia]. cbn [couriers_of ur_messages ur_relayer dm_begin dm_end].
      rewrite drop_app_le by (rewrite length_replicate; lia). rewrite drop_replicate. f_equal. f_equal. lia.
    + assert (n = c) by lia. subst n. rewrite Z.sub_diag, chain_end_cons. done.
Qed.

(** ** Lane data *)

Section lane_facts.
Context {W : Type} `{MD : MessageDispatch W} `{BC : BridgedChain}.
Abbreviation State := (BridgeState W).

Record inbound_wf (d : InboundLaneData) : Prop := {
  iw_nonneg : 0 <= last_confirmed_nonce d;
  iw_chain : chain (last_confirmed_nonce d) (relayers d);
  iw_max : last_delivered_nonce d <= nonce_max;
  iw_entries : Z.of_nat (length (relayers d)) <= Z.max 0 MAX_UNREWARDED_RELAYERS_IN_CONFIRMATION_TX;
  iw_unconfirmed : last_delivered_nonce d - last_confirmed_nonce d
                   <= Z.max 0 MAX_UNCONFIRMED_MESSAGES_IN_CONFIRMATION_TX;
}.

Lemma inbound_order d : inbound_wf d -> 0 <= last_confirmed_nonce d <= last_delivered_nonce d.
Proof.
  intros []. pose proof (chain_grows _ _ iw_chain0). rewrite last_delivered_chain. lia.
Qed.

(** The lane's data is determined by the couriers of its unconfirmed messages. *)
Lemma inbound_ext d d' : inbound_wf d -> inbound_wf d' ->
  last_confirmed_nonce d = last_confirmed_nonce d' -> in_state d = in_state d' ->
  couriers_of (relayers d) = couriers_of (relayers d') -> d = d'.
Proof.
  intros [_ H _ _ _] [_ H' _ _ _] Hc Hst Hco. destruct d as [l c st], d' as [l' c' st']. simpl in *. subst.
  by rewrite (chain_canonical _ _ _ H H' Hco).
Qed.

Lemma inbound_wf_opened : inbound_wf InboundLaneData_opened.
Proof. split; unfold last_delivered_nonce, nonce_max; simpl; lia. Qed.

(** A lane with other data, written through its handle. *)
Definition put_inbound (lane : LaneId) (d : InboundLaneData) : State -> State :=
  with_lanes (fun l => Build_LaneStore (<[lane := d]> (InboundLanes l)) (OutboundLanes l) (OutboundMessages l)).

Lemma inbound_set_data_run self d (s : State) :
  inbound_set_data self d s = (Ok {| ri_lane_id := ri_lane_id self; ri_cached_data := d |},
                               put_inbound (ri_lane_id self) d s).
Proof. done. Qed.

Definition confirmed_data (n : Z) (d : InboundLaneData) : InboundLaneData :=
  {| relayers := trim n (relayers d); last_confirmed_nonce := n; in_state := in_state d |}.

Lemma confirmed_data_wf d n : inbound_wf d -> last_confirmed_nonce d <= n <= last_delivered_nonce d ->
  inbound_wf (confirmed_data n d) /\ last_delivered_nonce (confirmed_data n d) = last_delivered_nonce d /\
  couriers_of (relayers (confirmed_data n d)) =
    drop (Z.to_nat (n - last_confirmed_nonce d)) (couriers_of (relayers d)).
Proof.
  intros Hd Hn. pose proof Hd as [Hc Hch Hmax Hent Hun]. rewrite last_delivered_chain in Hn.
  destruct (trim_spec _ _ _ Hch Hn) as (H1 & H2 & H3 & H4).
  assert (Hl : last_delivered_nonce (confirmed_data n d) = last_delivered_nonce d) by (rewrite !last_delivered_chain; done).
  split; [split; rewrite ?Hl; simpl; [lia | done | lia | lia | lia] |]. done.
Qed.

Lemma receive_state_update_run self o (s : State) :
  inbound_wf (ri_cached_data self) ->
  let d := ri_cached_data self in
  let n := latest_received_nonce o in
  receive_state_update self o s =
    if bool_decide (last_confirmed_nonce d < n <= last_delivered_nonce d)
    then (Ok (Some n, {| ri_lane_id := ri_lane_id self; ri_cached_data := confirmed_data n d |}),
          put_inbound (ri_lane_id self) (confirmed_data n d) s)
    else (Ok (None, self), s).
Proof.
  intros [Hc Hch Hmax _ _] d n. unfold receive_state_update. fold d n.
  destruct (Z.ltb_spec (last_delivered_nonce d) n); [by rewrite bool_decide_eq_false_2 by lia |].
  destruct (Z.leb_spec n (last_confirmed_nonce d)); [by rewrite bool_decide_eq_false_2 by lia |].
  rewrite bool_decide_eq_true_2 by lia. unfold confirmed_data, trim.
  assert (Hp : forall l e rest c, chain c l -> pop_confirmed n l = e :: rest -> n < dm_end (ur_messages e) <= chain_end c l).
  { clear. induction l as [| x l IH]; intros e rest c Hl; simpl; [done |]. destruct Hl as (_ & Hx & _ & Hl).
    rewrite chain_end_cons. destruct (Z.leb_spec (dm_end (ur_messages x)) n) as [Hle | Hgt].
    - by apply IH.
    - intros [= <- <-]. pose proof (chain_grows _ _ Hl). lia. }
  destruct (pop_confirmed n (relayers d)) as [| e rest] eqn:E; [done |].
  apply (Hp _ _ _ _ Hch) in E. rewrite last_delivered_chain in Hmax.
  destruct (_ <=? n) eqn:?; [| done]. unfold bind. rewrite nonce_add_ok by lia. done.
Qed.

Lemma note_delivery_run r n c l (s : State) :
  chain c l -> n = chain_end c l + 1 -> n <= nonce_max ->
  exists l', note_delivery r n l s = (Ok l', s) /\ chain c l' /\ chain_end c l' = n /\
             couriers_of l' = couriers_of l ++ [r] /\ (length l' <= S (length l))%nat /\
             (ur_relayer <$> head l' = ur_relayer <$> head l \/ l = []).
Proof.
  revert c. induction l as [| e l IH]; intros c Hl Hn Hm.
  { eexists. split; [done |]. unfold chain_end in *. simpl in *. split; [auto with lia |].
    split; [lia |]. rewrite Z.sub_diag. split; [done |]. split; [lia | by right]. }
  pose proof Hl as (Hb & He & Hd & Hl'). rewrite chain_end_cons in Hn. destruct l as [| e' l].
  - unfold chain_end in *. cbn [note_delivery]. simpl in Hn. destruct (decide (ur_relayer e = r)) as [<- | Hne].
    + rewrite bool_decide_eq_true_2 by done. unfold note_dispatched_message, bind. rewrite nonce_add_ok by lia.
      eexists. split; [reflexivity |]. simpl. split; [auto with lia |]. split; [lia |].
      split; [| split; [lia | by left]]. rewrite !app_nil_r, <- replicate_cons_app, <- replicate_S.
      f_equal. lia.
    + rewrite bool_decide_eq_false_2 by done. eexists. split; [reflexivity |]. simpl. split.
      * split; [done |]. split; [done |]. split; [intros e' [= <-]; simpl; congruence |]. auto with lia.
      * split; [done |]. rewrite !app_nil_r, Z.sub_diag. split; [done |]. split; [lia | by left].
  - destruct (IH _ Hl' Hn Hm) as (l2 & Hr & H1 & H2 & H3 & H4 & H5).
    change (note_delivery r n (e :: e' :: l) s) with
      (bind (note_delivery r n (e' :: l)) (fun l => ret (e :: l)) s).
    rewrite (bind_Ok _ _ _ _ _ Hr). exists (e :: l2). split; [done |].
    rewrite chain_end_cons. split; [| split; [done |]].
    + simpl. split; [done |]. split; [done |]. split; [| done]. intros e2 He2.
      destruct H5 as [H5 | H5]; [| done]. rewrite He2 in H5. simpl in H5. injection H5 as H5. rewrite H5. by apply Hd.
    + split; [cbn [couriers_of]; rewrite H3; by rewrite app_assoc |]. split; [simpl in *; lia | by left].
Qed.

(** ** Receiving a message *)

Definition put_runtime (w : W) : State -> State := with_runtime w.

(** The lane takes the message exactly when it is the next one and there is room. *)
Definition accepts (d : InboundLaneData) (n : Z) : Prop :=
  n = last_delivered_nonce d + 1 /\ n <= nonce_max /\
  Z.of_nat (length (relayers d)) < MAX_UNREWARDED_RELAYERS_IN_CONFIRMATION_TX /\
  n - last_confirmed_nonce d <= MAX_UNCONFIRMED_MESSAGES_IN_CONFIRMATION_TX.

#[export] Instance accepts_dec d n : Decision (accepts d n).
Proof. unfold accepts. apply _. Defined.

Lemma next_nonce_bool d n : 0 <= last_delivered_nonce d ->
  bool_decide (Some n = word_checked_add 64 (last_delivered_nonce d) 1) =
  bool_decide (n = last_delivered_nonce d + 1 /\ n <= nonce_max).
Proof.
  intros H. apply bool_decide_ext. unfold word_checked_add, nonce_max.
  destruct (Z.ltb_spec (last_delivered_nonce d + 1) (2 ^ 64)); split; intros; simplify_eq; try lia; f_equal; lia.
Qed.

Lemma receive_message_run self r n (p : option DispatchPayload) (s : State) :
  inbound_wf (ri_cached_data self) ->
  let d := ri_cached_data self in
  if decide (accepts d n) then
    exists d', inbound_wf d' /\ last_delivered_nonce d' = n /\
      last_confirmed_nonce d' = last_confirmed_nonce d /\ in_state d' = in_state d /\
      couriers_of (relayers d') = couriers_of (relayers d) ++ [r] /\
      receive_message self r n p s =
        let '(res, w) := dispatch (Build_DispatchMessage {| lane_id := ri_lane_id self; nonce := n |} p) (runtime s) in
        (Ok (Dispatched res, {| ri_lane_id := ri_lane_id self; ri_cached_data := d' |}),
         put_inbound (ri_lane_id self) d' (put_runtime w s))
  else exists res, receive_message self r n p s = (Ok (res, self), s) /\
         match res with Dispatched _ => False | _ => True end.
Proof.
  intros Hd d. change (inbound_wf d) in Hd. pose proof Hd as [Hc Hch Hmax Hent Hun].
  pose proof (inbound_order _ Hd) as Ho.
  unfold receive_message. fold d. rewrite next_nonce_bool by lia.
  destruct (decide (accepts d n)) as [(Hn & Hm & He & Hu) | Hna].
  - rewrite bool_decide_eq_true_2 by done. cbn [negb]. rewrite (proj2 (Z.leb_gt _ _)) by done.
    rewrite saturating_sub_exact by lia. rewrite (proj2 (Z.ltb_ge _ _)) by done.
    destruct (dispatch _ (runtime s)) as [res w] eqn:Ed.
    destruct (note_delivery_run r n _ _ (put_runtime w s) Hch ltac:(by rewrite <- last_delivered_chain) Hm)
      as (l' & Hr & H1 & H2 & H3 & H4 & _).
    exists {| relayers := l'; last_confirmed_nonce := last_confirmed_nonce d; in_state := in_state d |}.
    assert (Hl : last_delivered_nonce {| relayers := l'; last_confirmed_nonce := last_confirmed_nonce d; in_state := in_state d |} = n) by done.
    split; [split; rewrite ?Hl; simpl; [lia | done | lia | lia | lia] |].
    split; [done |]. split; [done |]. split; [done |]. split; [done |].
    unfold bind at 1. rewrite Ed. unfold put_runtime in Hr. rewrite (bind_Ok _ _ _ _ _ Hr). done.
  - destruct (bool_decide_reflect (n = last_delivered_nonce d + 1 /\ n <= nonce_max)) as [[Hn Hm] |];
      [cbn [negb] | by eexists].
    destruct (Z.leb_spec MAX_UNREWARDED_RELAYERS_IN_CONFIRMATION_TX (Z.of_nat (length (relayers d)))); [by eexists |].
    rewrite saturating_sub_exact by lia.
    destruct (Z.ltb_spec MAX_UNCONFIRMED_MESSAGES_IN_CONFIRMATION_TX (n - last_confirmed_nonce d)); [by eexists |].
    exfalso. apply Hna. repeat split; lia.
Qed.

(** ** The outbound lane *)

Record outbound_nonces (o : OutboundLaneData) : Prop := {
  on_nonneg : 0 <= latest_received_nonce o < nonce_max;
  on_order : latest_received_nonce o <= latest_generated_nonce o;
  on_max : latest_generated_nonce o <= nonce_max;
}.

Record outbound_wf (lane : LaneId) (o : OutboundLaneData) (m : gmap (LaneId * Z) (list Z)) : Prop := {
  ow_nonneg : 0 <= latest_received_nonce o < nonce_max;
  ow_order : latest_received_nonce o <= latest_generated_nonce o;
  ow_max : latest_generated_nonce o <= nonce_max;
  ow_oldest : oldest_unpruned_nonce o = word_saturating_add 64 (latest_received_nonce o) 1;
  ow_stored n : is_Some (m !! (lane, n)) <-> latest_received_nonce o < n <= latest_generated_nonce o;
}.

Lemma ow_nonces lane o m : outbound_wf lane o m -> outbound_nonces o.
Proof. intros []. by split. Qed.

Definition put_outbound (lane : LaneId) (o : OutboundLaneData) (m : gmap (LaneId * Z) (list Z)) : State -> State :=
  with_lanes (fun l => Build_LaneStore (InboundLanes l) (<[lane := o]> (OutboundLanes l)) m).

Definition sent_data (o : OutboundLaneData) : OutboundLaneData :=
  {| oldest_unpruned_nonce := oldest_unpruned_nonce o; latest_received_nonce := latest_received_nonce o;
     latest_generated_nonce := latest_generated_nonce o + 1; out_state := out_state o |}.

Lemma lane_send_message_run self p (s : State) :
  let o := ro_cached_data self in
  lane_send_message self p s =
    if latest_generated_nonce o <? nonce_max
    then (Ok (latest_generated_nonce o + 1, {| ro_lane_id := ro_lane_id self; ro_cached_data := sent_data o |}),
          put_outbound (ro_lane_id self) (sent_data o)
            (<[(ro_lane_id self, latest_generated_nonce o + 1) := p]> (OutboundMessages (lanes s))) s)
    else (Panic, s).
Proof.
  intros o. unfold lane_send_message, nonce_add, nonce_max. fold o.
  destruct (Z.ltb_spec (latest_generated_nonce o) (2 ^ 64 - 1)) as [Hlt | Hge].
  - unfold bind at 1. rewrite (proj2 (Z.ltb_lt _ _)) by lia. done.
  - unfold bind at 1. by rewrite (proj2 (Z.ltb_ge _ _)) by lia.
Qed.

Lemma sent_data_wf lane o m p : outbound_wf lane o m -> latest_generated_nonce o < nonce_max ->
  outbound_wf lane (sent_data o) (<[(lane, latest_generated_nonce o + 1) := p]> m).
Proof.
  intros [H1 H2 H3 H4 H5] Hg. split; simpl; [lia | lia | lia | done |]. intros n.
  destruct (decide (n = latest_generated_nonce o + 1)) as [-> | Hne].
  - rewrite lookup_insert_eq. split; [lia | by eexists].
  - rewrite lookup_insert_ne by congruence. rewrite H5. lia.
Qed.

(** ** Confirming deliveries *)

Definition pruned (lane : LaneId) (ns : list Z) (m : gmap (LaneId * Z) (list Z)) : gmap (LaneId * Z) (list Z) :=
  foldl (fun m n => delete (lane, n) m) m ns.

Lemma pruned_lookup lane ns m k :
  pruned lane ns m !! k = if decide (k.1 = lane /\ k.2 ∈ ns) then None else m !! k.
Proof.
  revert m. induction ns as [| n ns IH]; intros m; simpl.
  { rewrite decide_False; [done |]. intros [_ H]. by apply not_elem_of_nil in H. }
  rewrite IH. destruct k as [l x]. simpl. destruct (decide (l = lane /\ x ∈ ns)) as [[-> Hx] |].
  - rewrite decide_True; [done |]. split; [done | by right].
  - destruct (decide (l = lane /\ x = n)) as [[-> ->] | Hne].
    + rewrite lookup_delete_eq, decide_True; [done |]. split; [done | by left].
    + rewrite lookup_delete_ne by naive_solver. rewrite decide_False; [done |].
      intros [-> Hx]. apply elem_of_cons in Hx as [-> |]; naive_solver.
Qed.

Lemma remove_messages_run self ns (s : State) :
  for_each ns (remove_message self) s =
    (Ok tt, with_lanes (fun l => Build_LaneStore (InboundLanes l) (OutboundLanes l)
                                   (pruned (ro_lane_id self) ns (OutboundMessages l))) s).
Proof.
  revert s. induction ns as [| n ns IH]; intros s; simpl.
  - unfold pruned. simpl. by destruct s as [? ? [] ? ?].
  - unfold bind, remove_message at 1, storage_remove, modify. by rewrite IH.
Qed.

(** The relayers of a confirmation: consecutive non-empty ranges, none past the confirmed nonce. *)
Fixpoint consecutive (b : Z) (latest : Z) (l : list UnrewardedRelayer) : Prop :=
  match l with
  | [] => True
  | e :: l => dm_begin (ur_messages e) = b /\ b <= dm_end (ur_messages e) <= latest /\
              consecutive (dm_end (ur_messages e) + 1) latest l
  end.

Lemma check_unrewarded_relayers_ok b latest l : latest <= nonce_max ->
  check_unrewarded_relayers (word_checked_add 64 b 0) latest l = inr tt <-> consecutive b latest l.
Proof.
  intros Hm. revert b. induction l as [| e l IH]; intros b; simpl; [done |].
  set (m := ur_messages e). destruct (Z.ltb_spec (dm_end m) (dm_begin m)) as [Hlt | Hge]; [split; [done | lia] |].
  unfold nonce_max, word_checked_add in *. rewrite Z.add_0_r. destruct (Z.ltb_spec b (2 ^ 64)) as [Hb | Hb].
  - destruct (decide (b = dm_begin m)) as [-> | Hne].
    + rewrite bool_decide_eq_true_2 by done. simpl. destruct (Z.ltb_spec latest (dm_end m)); [split; [done | lia] |].
      rewrite <- IH, Z.add_0_r. tauto.
    + rewrite bool_decide_eq_false_2 by congruence. simpl. split; [done | lia].
  - rewrite bool_decide_eq_false_2 by done. simpl. split; [done | lia].
Qed.

Lemma ensure_unrewarded_relayers_ok latest l : latest <= nonce_max ->
  ensure_unrewarded_relayers_are_correct latest l = inr tt <->
  forall e, head l = Some e -> consecutive (dm_begin (ur_messages e)) latest l.
Proof.
  intros Hm. unfold ensure_unrewarded_relayers_are_correct. destruct l as [| e l]; [done |].
  pose proof (check_unrewarded_relayers_ok (dm_begin (ur_messages e)) latest (e :: l) Hm) as Hok.
  change (head (e :: l)) with (Some e). rewrite fmap_Some_2 with (x := e) by done.
  unfold word_checked_add in Hok. rewrite Z.add_0_r in Hok.
  destruct (Z.ltb_spec (dm_begin (ur_messages e)) (2 ^ 64)) as [Hb | Hb]; [naive_solver |].
  split; [| intros H; specialize (H e eq_refl); simpl in H; unfold nonce_max in Hm; lia].
  cbn [check_unrewarded_relayers].
  destruct (Z.ltb_spec (dm_end (ur_messages e)) (dm_begin (ur_messages e))); [done |].
  rewrite bool_decide_eq_true_2 by done. simpl. unfold nonce_max in Hm.
  by rewrite (proj2 (Z.ltb_lt latest _)) by lia.
Qed.

Lemma chain_consecutive c l latest : chain c l -> chain_end c l <= latest -> consecutive (c + 1) latest l.
Proof.
  revert c. induction l as [| e l IH]; intros c Hl He; simpl; [done |].
  destruct Hl as (Hb & Hlt & _ & Hl). rewrite chain_end_cons in He. pose proof (chain_grows _ _ Hl).
  split; [done |]. split; [lia |]. by apply IH.
Qed.

Definition confirmed_out (n : Z) (o : OutboundLaneData) : OutboundLaneData :=
  {| oldest_unpruned_nonce := word_saturating_add 64 n 1; latest_received_nonce := n;
     latest_generated_nonce := latest_generated_nonce o; out_state := out_state o |}.

(** Every outcome of [confirm_delivery] on a lane whose nonces are in order. *)
Lemma confirm_delivery_run self max_allowed n l (s : State) :
  let o := ro_cached_data self in
  outbound_nonces o ->
  confirm_delivery self max_allowed n l s =
    if n <=? latest_received_nonce o then (Ok (inr None, self), s)
    else if latest_generated_nonce o <? n then (Ok (inl FailedToConfirmFutureMessages, self), s)
    else if max_allowed <? n - latest_received_nonce o
    then (Ok (inl TryingToConfirmMoreMessagesThanExpected, self), s)
    else
      match ensure_unrewarded_relayers_are_correct n l with
      | inl e => (Ok (inl e, self), s)
      | inr _ =>
          (Ok (inr (Some {| dm_begin := latest_received_nonce o + 1; dm_end := n |}),
               {| ro_lane_id := ro_lane_id self; ro_cached_data := confirmed_out n o |}),
           put_outbound (ro_lane_id self) (confirmed_out n o)
             (pruned (ro_lane_id self) (range_inclusive (latest_received_nonce o + 1) n)
                (OutboundMessages (lanes s))) s)
      end.
Proof.
  intros o [H1 H2 H3]. unfold confirm_delivery, total_messages. fold o. cbn [dm_begin dm_end].
  replace (word_saturating_add 64 (latest_received_nonce o) 1) with (latest_received_nonce o + 1)
    by (unfold word_saturating_add, nonce_max in *; lia).
  destruct (Z.leb_spec n (latest_received_nonce o)) as [Hle | Hgt].
  { by rewrite (proj2 (saturating_len_zero _ _)) by lia. }
  rewrite (proj2 (Z.eqb_neq _ 0)) by (rewrite saturating_len_zero; lia).
  destruct (Z.ltb_spec (latest_generated_nonce o) n) as [Hg | Hg]; [done |].
  rewrite saturating_len_exact by lia. replace (n - (latest_received_nonce o + 1) + 1)
    with (n - latest_received_nonce o) by lia.
  destruct (max_allowed <? n - latest_received_nonce o); [done |].
  destruct (ensure_unrewarded_relayers_are_correct n l) as [e | []]; [done |].
  by rewrite (bind_Ok _ _ _ _ _ (remove_messages_run self _ s)).
Qed.

Lemma confirmed_out_wf lane o m n : outbound_wf lane o m ->
  latest_received_nonce o <= n <= latest_generated_nonce o -> n < nonce_max ->
  outbound_wf lane (confirmed_out n o) (pruned lane (range_inclusive (latest_received_nonce o + 1) n) m).
Proof.
  intros [H1 H2 H3 H4 H5] Hn Hm. split; simpl; [lia | lia | lia | done |]. intros k.
  rewrite pruned_lookup. destruct (decide _) as [[_ Hk] | Hk]; simpl in Hk; rewrite elem_of_range_inclusive in Hk.
  - split; [by intros [x Hx] | lia].
  - rewrite H5. assert (~ (latest_received_nonce o + 1 <= k <= n)) by naive_solver. lia.
Qed.
End lane_facts.

(** * What couriers are owed

    [calc_relayers_rewards] walks the ranges of an inbound lane; on a lane in order it counts, for each
    courier, the messages of the confirmed range that the courier delivered, and never overflows. *)

(** How often [r] occurs. *)
Definition occ (r : AccountId) (l : list AccountId) : Z := list_sum (fun x => if decide (x = r) then 1 else 0) l.

Lemma occ_app r l1 l2 : occ r (l1 ++ l2) = occ r l1 + occ r l2.
Proof. apply list_sum_app. Qed.

Lemma occ_replicate r x n : occ r (replicate n x) = if decide (x = r) then Z.of_nat n else 0.
Proof.
  unfold occ. induction n as [| n IH]; [by destruct (decide (x = r)) |]. rewrite replicate_S. cbn [list_sum].
  rewrite IH. destruct (decide (x = r)); lia.
Qed.

Lemma occ_nonneg r l : 0 <= occ r l.
Proof. apply list_sum_nonneg. intros x _. destruct (decide (x = r)); lia. Qed.

(** The messages of [a..=b] that entry [e] holds. *)
Definition overlap (e : UnrewardedRelayer) (a b : Z) : Z :=
  Z.max 0 (Z.min (dm_end (ur_messages e)) b - Z.max (dm_begin (ur_messages e)) a + 1).

Definition due (r : AccountId) (l : list UnrewardedRelayer) (a b : Z) : Z :=
  list_sum (fun e => if decide (ur_relayer e = r) then overlap e a b else 0) l.

Lemma due_nonneg r l a b : 0 <= due r l a b.
Proof. apply list_sum_nonneg. intros e _. unfold overlap. destruct (decide _); lia. Qed.

(** On the ranges after [c], [due] counts couriers, message by message. *)
Lemma due_couriers r c l a b : chain c l -> chain_end c l <= b ->
  due r l a b = occ r (drop (Z.to_nat (a - 1 - c)) (couriers_of l)).
Proof.
  unfold due. revert c. induction l as [| e l IH]; intros c Hl Hb; [by destruct (Z.to_nat _) |].
  pose proof Hl as (Hbe & He & _ & Hl'). rewrite chain_end_cons in Hb. pose proof (chain_grows _ _ Hl').
  cbn [list_sum couriers_of]. rewrite (IH _ Hl' Hb). unfold overlap.
  destruct (decide (dm_end (ur_messages e) <= a - 1)) as [Hle | Hgt].
  - rewrite drop_app_ge by (rewrite length_replicate; lia). rewrite length_replicate.
    replace (Z.to_nat (a - 1 - c) - Z.to_nat (dm_end (ur_messages e) - dm_begin (ur_messages e) + 1))%nat
      with (Z.to_nat (a - 1 - dm_end (ur_messages e))) by lia. destruct (decide _); lia.
  - rewrite drop_app_le by (rewrite length_replicate; lia). rewrite drop_replicate, occ_app, occ_replicate.
    replace (Z.to_nat (a - 1 - dm_end (ur_messages e))) with 0%nat by lia. rewrite drop_0.
    destruct (decide _); lia.
Qed.

(** The rewards map: exactly the couriers with something due, each with what is due. *)
Definition pays (m : gmap AccountId Z) (owed : AccountId -> Z) : Prop :=
  forall r, m !! r = if decide (owed r = 0) then None else Some (owed r).

Lemma calc_relayers_rewards_from_run {S} m0 owed c l a b (s : S) :
  chain c l -> 0 <= c -> chain_end c l <= nonce_max -> pays m0 owed -> (forall r, 0 <= owed r <= c) ->
  exists m, calc_relayers_rewards_from m0 l a b s = (Ok m, s) /\ pays m (fun r => owed r + due r l a b).
Proof.
  revert c m0 owed. induction l as [| e l IH]; intros c m0 owed Hl Hc Hm Hp Ho; simpl.
  { exists m0. split; [done |]. intros r. rewrite Hp. unfold due. simpl. by rewrite Z.add_0_r. }
  pose proof Hl as (Hbe & He & _ & Hl'). rewrite chain_end_cons in Hm. pose proof (chain_grows _ _ Hl').
  assert (Hd : default 0 (m0 !! ur_relayer e) = owed (ur_relayer e)) by (rewrite Hp; destruct (decide _); simpl; lia).
  set (f := fun r => owed r + if decide (ur_relayer e = r) then overlap e a b else 0).
  assert (Hf : forall r, 0 <= f r <= dm_end (ur_messages e)).
  { intros r. unfold f, overlap. pose proof (Ho r). destruct (decide _); lia. }
  assert (Hfin : forall m, pays m (fun r => f r + due r l a b) -> pays m (fun r => owed r + due r (e :: l) a b)).
  { intros m H1 r. specialize (H1 r). cbv beta in *. unfold due in *. cbn [list_sum]. unfold f in H1.
    by rewrite Z.add_assoc. }
  destruct (Z.leb_spec (Z.max (dm_begin (ur_messages e)) a) (Z.min (dm_end (ur_messages e)) b)) as [Hle | Hgt].
  - unfold bind. rewrite nonce_add_ok by lia. pose proof (Ho (ur_relayer e)). rewrite Hd, nonce_add_ok by lia.
    match goal with |- context [calc_relayers_rewards_from ?m1 l a b s] =>
      destruct (IH (dm_end (ur_messages e)) m1 f Hl' ltac:(lia) Hm) as (m & Hr & Hpm) end;
      [| apply Hf | exists m; split; [exact Hr | by apply Hfin]].
    intros r. unfold f, overlap. destruct (decide (ur_relayer e = r)) as [<- | Hne].
    + rewrite lookup_insert_eq, decide_False by lia. f_equal. lia.
    + rewrite lookup_insert_ne by done. rewrite Z.add_0_r. apply Hp.
  - destruct (IH (dm_end (ur_messages e)) m0 f Hl' ltac:(lia) Hm) as (m & Hr & Hpm); [| apply Hf | exists m; split; [exact Hr | by apply Hfin]].
    intros r. unfold f, overlap. rewrite Hp. destruct (decide (ur_relayer e = r)); [| by rewrite Z.add_0_r].
    by replace (Z.max 0 (Z.min (dm_end (ur_messages e)) b - Z.max (dm_begin (ur_messages e)) a + 1)) with 0 by lia;
      rewrite Z.add_0_r.
Qed.

Lemma calc_relayers_rewards_run {S} c l a b (s : S) :
  chain c l -> 0 <= c -> chain_end c l <= nonce_max ->
  exists m, calc_relayers_rewards l a b s = (Ok m, s) /\ pays m (fun r => due r l a b).
Proof.
  intros Hl Hc Hm. apply (calc_relayers_rewards_from_run ∅ (fun _ => 0) c); [done | done | done | done | lia].
Qed.

(** On any list of relayers: unless a count overflows, the map has what is due. *)
Lemma calc_relayers_rewards_from_total {S} m0 owed l a b (s : S) : pays m0 owed -> (forall r, 0 <= owed r) ->
  match calc_relayers_rewards_from m0 l a b s with
  | (Ok m, s') => s' = s /\ pays m (fun r => owed r + due r l a b)
  | (Err _, _) => False
  | (Panic, s') => s' = s
  end.
Proof.
  revert m0 owed. induction l as [| e l IH]; intros m0 owed Hp Ho; simpl.
  { split; [done |]. intros r. rewrite Hp. unfold due. simpl. by rewrite Z.add_0_r. }
  set (f := fun r => owed r + if decide (ur_relayer e = r) then overlap e a b else 0).
  assert (Hf : forall r, 0 <= f r) by (intros r; unfold f, overlap; pose proof (Ho r); destruct (decide _); lia).
  assert (Hfin : forall m, pays m (fun r => f r + due r l a b) -> pays m (fun r => owed r + due r (e :: l) a b)).
  { intros m H1 r. specialize (H1 r). cbv beta in *. unfold due in *. cbn [list_sum]. unfold f in H1.
    by rewrite Z.add_assoc. }
  assert (Hrec : forall m1, pays m1 f -> match calc_relayers_rewards_from m1 l a b s with
    | (Ok m, s') => s' = s /\ pays m (fun r => owed r + due r (e :: l) a b) | (Err _, _) => False | (Panic, s') => s' = s end).
  { intros m1 Hm1. specialize (IH m1 f Hm1 Hf). destruct (calc_relayers_rewards_from m1 l a b s) as [[m | |] s']; [| done | done].
    destruct IH as [-> IH]. auto. }
  destruct (Z.leb_spec (Z.max (dm_begin (ur_messages e)) a) (Z.min (dm_end (ur_messages e)) b)) as [Hle | Hgt].
  - unfold bind, nonce_add. destruct (_ <? 2 ^ 64); [| done]. cbn [ret]. destruct (_ <? 2 ^ 64); [| done]. cbn [ret].
    apply Hrec. intros r. unfold f, overlap. pose proof (Ho (ur_relayer e)). destruct (decide (ur_relayer e = r)) as [<- | Hne].
    + rewrite lookup_insert_eq, decide_False by lia. f_equal. rewrite Hp. destruct (decide _); simpl; lia.
    + rewrite lookup_insert_ne by done. rewrite Z.add_0_r. apply Hp.
  - apply Hrec. intros r. unfold f, overlap. rewrite Hp. destruct (decide (ur_relayer e = r)); [| by rewrite Z.add_0_r].
    by replace (Z.max 0 (Z.min (dm_end (ur_messages e)) b - Z.max (dm_begin (ur_messages e)) a + 1)) with 0 by lia;
      rewrite Z.add_0_r.
Qed.
