(* ===== verification/BridgeMessagesFacts.v ===== *)
(** * What the calls of the messages pallet do

    [receive_messages_proof] brings a lane forward by the messages it accepts, each dispatched once and
    in the order of their nonces, whatever messages the proof holds; it never panics on the weights it
    is given.  [receive_messages_delivery_proof] moves the confirmed nonce.  Every call keeps all lanes
    of the pallet in order. *)

From stdpp Require Import base tactics numbers list gmap.
From S2P Require Import Prelude Dispatch System BalancesCalls Words BridgeLanes BridgeMessages BridgeLaneFacts.
Local Open Scope Z_scope.

Definition weight_wf (w : Weight) : Prop := 0 <= ref_time w <= nonce_max /\ 0 <= proof_size w <= nonce_max.

(** What the pallet relies on from a dispatcher: weights are [u64] pairs, and estimating the weight of
    a message does not change the message. *)
Class DispatchLaws (W : Type) `{MessageDispatch W} : Prop := {
  dispatch_weight_u64 m w : weight_wf (fst (dispatch_weight m w));
  dispatch_weight_keeps m w : snd (dispatch_weight m w) = m;
  unspent_u64 m w : weight_wf (unspent_weight (fst (dispatch m w)));
}.

Section messages_facts.
Context {W : Type} `{MD : MessageDispatch W} `{BC : BridgedChain} `{HC : HeaderChain W}.
Context `{PY : Payments W} `{MC : MessagesConfig} `{DL : !DispatchLaws W}.
Abbreviation State := (BridgeState W).
Abbreviation Msg := (DispatchMessage DispatchPayload).

(** ** One delivery transaction *)

(** The storage after the messages have been executed one after the other. *)
Definition dispatch_all (acc : list Msg) (w : W) : W := foldl (fun w m => snd (dispatch m w)) w acc.

(** The handle's copy is what is stored. *)
Definition stored (h : RuntimeInboundLaneStorage) (s : State) : Prop :=
  InboundLanes (lanes s) !! ri_lane_id h = Some (ri_cached_data h).

(** [h] has moved to [h'], and [s] to [s'], by delivering the messages [acc] in the name of [r]. *)
Record delivers (r : AccountId) (acc : list Msg) (h h' : RuntimeInboundLaneStorage) (s s' : State) : Prop := {
  dl_lane : ri_lane_id h' = ri_lane_id h;
  dl_wf : inbound_wf (ri_cached_data h');
  dl_confirmed : last_confirmed_nonce (ri_cached_data h') = last_confirmed_nonce (ri_cached_data h);
  dl_state : in_state (ri_cached_data h') = in_state (ri_cached_data h);
  dl_couriers : couriers_of (relayers (ri_cached_data h')) =
                couriers_of (relayers (ri_cached_data h)) ++ replicate (length acc) r;
  dl_delivered : last_delivered_nonce (ri_cached_data h') =
                 last_delivered_nonce (ri_cached_data h) + Z.of_nat (length acc);
  dl_nonces i m : acc !! i = Some m ->
    dmsg_key m = {| lane_id := ri_lane_id h; nonce := last_delivered_nonce (ri_cached_data h) + 1 + Z.of_nat i |};
  dl_storage : s' = put_inbound (ri_lane_id h) (ri_cached_data h') (with_runtime (dispatch_all acc (runtime s)) s);
}.

Lemma delivers_stored r acc h h' s s' : delivers r acc h h' s s' -> stored h' s'.
Proof. intros []. unfold stored. subst s'. simpl. rewrite dl_lane0. apply lookup_insert_eq. Qed.

Lemma put_same h (s : State) : stored h s -> put_inbound (ri_lane_id h) (ri_cached_data h) s = s.
Proof. intros H. destruct s as [? ? [] ? ?]. unfold put_inbound, with_lanes. simpl in *. by rewrite insert_id. Qed.

Lemma with_runtime_same (s : State) : with_runtime (runtime s) s = s.
Proof. by destruct s. Qed.

Lemma delivers_refl r h s : inbound_wf (ri_cached_data h) -> stored h s -> delivers r [] h h s s.
Proof.
  intros Hw Hs. split; simpl; [done | done | done | done | by rewrite app_nil_r | lia | done |].
  by rewrite with_runtime_same, put_same.
Qed.

Lemma delivers_trans r acc1 acc2 h1 h2 h3 s1 s2 s3 :
  delivers r acc1 h1 h2 s1 s2 -> delivers r acc2 h2 h3 s2 s3 -> delivers r (acc1 ++ acc2) h1 h3 s1 s3.
Proof.
  intros [A1 A2 A3 A4 A5 A6 A7 A8] [B1 B2 B3 B4 B5 B6 B7 B8]. split.
  - congruence.
  - done.
  - congruence.
  - congruence.
  - rewrite B5, A5, length_app, replicate_add. by rewrite app_assoc.
  - rewrite B6, A6, length_app. lia.
  - intros i m Hi. apply lookup_app_Some in Hi as [Hi | [Hle Hi]]; [by apply A7 |].
    rewrite (B7 _ _ Hi), A1, A6. f_equal. lia.
  - rewrite B8, A8, A1. unfold put_inbound, with_runtime, with_lanes. simpl.
    rewrite insert_insert_eq. unfold dispatch_all. by rewrite foldl_app.
Qed.

Lemma rust_sub_ok {S} a b (s : S) : b <= a -> rust_sub a b s = (Ok (a - b), s).
Proof. intros. unfold rust_sub. by rewrite (proj2 (Z.leb_le _ _)). Qed.

Lemma weight_sub_ok {S} a b (s : S) : ref_time b <= ref_time a -> proof_size b <= proof_size a ->
  weight_sub a b s = (Ok {| ref_time := ref_time a - ref_time b; proof_size := proof_size a - proof_size b |}, s).
Proof. intros. unfold weight_sub, bind. by rewrite !rust_sub_ok. Qed.

(** What one turn of the loop keeps: the counters and the weights of a delivery. *)
Record delivery_wf (d : Delivery) : Prop := {
  dw_lane : inbound_wf (ri_cached_data (dv_lane d));
  dw_valid : 0 <= dv_valid_messages d <= dv_total_messages d;
  dw_left : weight_wf (dv_dispatch_weight_left d);
}.

(** [b] is what is left of [a] after an expense of at most [w]. *)
Definition spends (w a b : Weight) : Prop :=
  ref_time a - ref_time w <= ref_time b <= ref_time a /\ proof_size a - proof_size w <= proof_size b <= proof_size a.

Lemma receive_one_message_run r m d (s : State) :
  delivery_wf d -> stored (dv_lane d) s -> dv_total_messages d < nonce_max ->
  match receive_one_message r m d s with
  | (Ok d', s') =>
      delivery_wf d' /\ dv_total_messages d' = dv_total_messages d + 1 /\
      spends (fst (dispatch_weight m (runtime s))) (dv_dispatch_weight_left d) (dv_dispatch_weight_left d') /\
      (exists acc, delivers r acc (dv_lane d) (dv_lane d') s s' /\
         acc = if decide (accepts (ri_cached_data (dv_lane d)) (nonce (dmsg_key m)))
               then [Build_DispatchMessage {| lane_id := ri_lane_id (dv_lane d); nonce := nonce (dmsg_key m) |}
                       (dmsg_payload m)] else [])
  | (Err e, s') => any_gt (fst (dispatch_weight m (runtime s))) (dv_dispatch_weight_left d) = true /\
      e = ModuleError MessagesPalletIndex (MessagesError_code InsufficientDispatchWeight)
  | (Panic, _) => False
  end.
Proof.
  intros [Hw [Hv1 Hv2] [Hl1 Hl2]] Hs Ht. unfold receive_one_message.
  rewrite (bind_Ok _ _ _ _ _ (nonce_add_ok _ _ s (ltac:(lia) : dv_total_messages d + 1 <= nonce_max))).
  unfold bind at 1, gets. pose proof (dispatch_weight_u64 m (runtime s)) as [Hd1 Hd2].
  pose proof (dispatch_weight_keeps m (runtime s)) as Hk.
  destruct (dispatch_weight m (runtime s)) as [dw m'] eqn:Edw. cbn [fst snd] in *. subst m'.
  unfold messages_ensure. destruct (any_gt dw (dv_dispatch_weight_left d)) eqn:Eg; [done |]. cbn [negb].
  rewrite bind_ret_l. unfold any_gt in Eg. bool_to_prop.
  pose proof (receive_message_run (dv_lane d) r (nonce (dmsg_key m)) (dmsg_payload m) s Hw) as Hr.
  cbv zeta in Hr. destruct (decide (accepts _ _)) as [Ha | Ha].
  - destruct Hr as (d' & Hw' & H1 & H2 & H3 & H4 & Hr).
    pose proof (unspent_u64 (Build_DispatchMessage {| lane_id := ri_lane_id (dv_lane d); nonce := nonce (dmsg_key m) |}
                       (dmsg_payload m)) (runtime s)) as [Hu1 Hu2].
    destruct (dispatch _ (runtime s)) as [res w] eqn:Ed. cbn [fst] in *. rewrite (bind_Ok _ _ _ _ _ Hr).
    cbn beta iota. unfold bind at 1. unfold bind at 1.
    rewrite nonce_add_ok by lia. unfold ret at 1. unfold bind at 1. rewrite weight_sub_ok by (simpl; lia).
    unfold bind at 1. rewrite weight_sub_ok by (simpl; lia). unfold ret.
    split; [| split; [done | split; [unfold spends; simpl; lia |]]].
    + split; simpl; [done | lia | split; simpl; lia].
    + eexists. split; [| reflexivity]. split; simpl; [done | done | done | done | done | | |].
      * destruct Ha as [Ha _]. lia.
      * intros [| i] x; [intros [= <-] | done]. simpl. destruct Ha as [Ha _]. f_equal. lia.
      * unfold dispatch_all. simpl. by rewrite Ed.
  - destruct Hr as (res & Hr & Hnd). rewrite (bind_Ok _ _ _ _ _ Hr). cbn beta iota.
    replace (match res with
       | Dispatched dispatch_result => v <- nonce_add (dv_valid_messages d) 1 ;; ret (v, unspent_weight dispatch_result)
       | _ => ret (dv_valid_messages d, dw)
       end : M State (Z * Weight)) with (ret (dv_valid_messages d, dw) : M State (Z * Weight)) by by destruct res.
    rewrite bind_ret_l. unfold bind at 1. rewrite weight_sub_ok by (simpl; lia).
    unfold bind at 1. rewrite weight_sub_ok by (simpl; lia). unfold ret.
    split; [| split; [done | split; [unfold spends; simpl; lia |]]].
    + split; simpl; [done | lia | split; simpl; lia].
    + exists []. split; [by apply delivers_refl | done].
Qed.

(** Each accepted message is one of the proof's, under the lane's key. *)
Definition taken_from (ms acc : list Msg) : Prop :=
  forall m, m ∈ acc -> exists m0, m0 ∈ ms /\ nonce (dmsg_key m) = nonce (dmsg_key m0) /\
                                 dmsg_payload m = dmsg_payload m0.

(** [B] bounds what estimating any of the messages may return, in any storage. *)
Definition weights_below (B : Weight) (ms : list Msg) : Prop :=
  forall m w, m ∈ ms -> ref_time (fst (dispatch_weight m w)) <= ref_time B /\
                        proof_size (fst (dispatch_weight m w)) <= proof_size B.

Definition covers (B left : Weight) (n : nat) : Prop :=
  Z.of_nat n * ref_time B <= ref_time left /\ Z.of_nat n * proof_size B <= proof_size left.

Lemma receive_each_message_run r ms d (s : State) :
  delivery_wf d -> stored (dv_lane d) s -> dv_total_messages d + Z.of_nat (length ms) <= nonce_max ->
  match receive_each_message r ms d s with
  | (Ok d', s') =>
      delivery_wf d' /\ dv_total_messages d' = dv_total_messages d + Z.of_nat (length ms) /\
      exists acc, delivers r acc (dv_lane d) (dv_lane d') s s' /\ taken_from ms acc /\
        (forall m, m ∈ ms -> accepts (ri_cached_data (dv_lane d)) (nonce (dmsg_key m)) -> acc <> [])
  | (Err e, _) => e = ModuleError MessagesPalletIndex (MessagesError_code InsufficientDispatchWeight)
  | (Panic, _) => False
  end.
Proof.
  revert d s. induction ms as [| m ms IH]; intros d s Hd Hs Ht.
  { simpl. split; [done |]. split; [lia |]. exists []. split; [by apply delivers_refl; [destruct Hd |] |].
    split; [by intros m ?%not_elem_of_nil | by intros m ?%not_elem_of_nil]. }
  simpl length in Ht. pose proof (receive_one_message_run r m d s Hd Hs ltac:(lia)) as H1.
  cbn [receive_each_message]. unfold bind.
  destruct (receive_one_message r m d s) as [[d1 | e |] s1]; [| by destruct H1 | done].
  destruct H1 as (Hd1 & Ht1 & Hsp & acc1 & Hacc1 & Eacc1).
  specialize (IH d1 s1 Hd1 (delivers_stored _ _ _ _ _ _ Hacc1) ltac:(lia)).
  destruct (receive_each_message r ms d1 s1) as [[d2 | e |] s2]; [| done | done].
  destruct IH as (Hd2 & Ht2 & acc2 & Hacc2 & Hf2 & Hp2). split; [done |]. split; [simpl; lia |].
  exists (acc1 ++ acc2). split; [by eapply delivers_trans |]. split.
  - intros x Hx. apply elem_of_app in Hx as [Hx | Hx].
    + subst acc1. destruct (decide _); [| by apply not_elem_of_nil in Hx].
      apply list_elem_of_singleton in Hx as ->. exists m. split; [left | done].
    + destruct (Hf2 x Hx) as (m0 & Hm0 & H). exists m0. split; [by right | done].
  - intros x Hx Ha. subst acc1. destruct (decide (accepts _ (nonce (dmsg_key m)))) as [| Hna]; [done |]. simpl.
    apply elem_of_cons in Hx as [-> | Hx]; [done |]. apply (Hp2 x Hx).
    destruct Hacc1 as [_ Hwf Hc Hst Hco Hdel _ _]. simpl in Hco, Hdel. rewrite app_nil_r in Hco.
    by rewrite (inbound_ext _ _ Hwf (dw_lane _ Hd) Hc) by done.
Qed.

Lemma receive_each_message_covered r ms d (s : State) B :
  delivery_wf d -> stored (dv_lane d) s -> dv_total_messages d + Z.of_nat (length ms) <= nonce_max ->
  weights_below B ms -> covers B (dv_dispatch_weight_left d) (length ms) ->
  exists d' s', receive_each_message r ms d s = (Ok d', s').
Proof.
  revert d s. induction ms as [| m ms IH]; intros d s Hd Hs Ht HB [Hc1 Hc2]; [by eexists _, _ |].
  simpl length in *. pose proof (receive_one_message_run r m d s Hd Hs ltac:(lia)) as H1.
  destruct (HB m (runtime s)) as [Hb1 Hb2]; [left |].
  pose proof (dispatch_weight_u64 m (runtime s)) as [Hd1 Hd2].
  cbn [receive_each_message]. unfold bind.
  destruct (receive_one_message r m d s) as [[d1 | e |] s1]; [| | done].
  - destruct H1 as (Hd1' & Ht1 & [H2a H2b] & acc1 & Hacc1 & _).
    apply IH; [done | by eapply delivers_stored | lia | intros x w Hx; apply HB; by right |].
    split; [nia | nia].
  - destruct H1 as [H1 _]. unfold any_gt in H1. bool_to_prop. destruct H1; bool_to_prop; nia.
Qed.

(** ** The whole delivery call *)

Lemma read_messages_keys lane ns c ms c' :
  read_messages lane ns c = inr (ms, c') -> msg_key <$> ms = (fun n => {| lane_id := lane; nonce := n |}) <$> ns.
Proof.
  revert c ms. induction ns as [| n ns IH]; intros c ms; simpl; [by intros [= <- _] |].
  destruct (read_message_payload _ c) as [[e | p] c1]; [done |].
  destruct (read_messages lane ns c1) as [e | [ms1 c2]] eqn:E; [done |].
  intros [= <- <-]. rewrite !fmap_cons. by rewrite (IH _ _ E).
Qed.

(** A verified proof holds the messages of the declared range. *)
Lemma verify_messages_range proof count w lane data : count <= u32_max ->
  verify_and_decode_messages_proof proof count w = inr (lane, data) ->
  lane = mp_lane proof /\ Z.of_nat (length (proved_messages data)) = Z.max 0 count /\
  dmsg_key <$> proved_messages data =
    (fun n => {| lane_id := lane; nonce := n |}) <$> range_inclusive (nonces_start proof) (nonces_end proof).
Proof.
  intros Hc. unfold verify_and_decode_messages_proof, verify_messages_proof.
  destruct (verify_storage_proof _ _ w) as [e | c]; [done |].
  destruct (Z.eqb_spec (saturating_len (nonces_start proof) (nonces_end proof)) count) as [El |]; [| done].
  simpl. destruct (read_messages _ _ c) as [e | [ms c1]] eqn:Er; [done |].
  destruct (read_outbound_lane_data _ c1) as [[e | st] c2]; [done |].
  destruct (bool_decide (st = None) && _); [done |]. destruct (ensure_no_unused_keys c2); [done |].
  intros [= <- <-]. pose proof (read_messages_keys _ _ _ _ _ Er) as Hk. simpl. split; [done |]. split.
  - rewrite length_fmap, <- (length_fmap msg_key), Hk, length_fmap. unfold range_inclusive. rewrite length_seqZ.
    revert El. unfold saturating_len, word_checked_sub, word_saturating_add, u32_max in *.
    destruct (Z.leb_spec (nonces_start proof) (nonces_end proof)); lia.
  - by rewrite <- list_fmap_compose.
Qed.

(** What the lane state that comes with the messages does to the lane. *)
Definition state_update (o : option OutboundLaneData) (d : InboundLaneData) : InboundLaneData :=
  match o with
  | Some o => if bool_decide (last_confirmed_nonce d < latest_received_nonce o <= last_delivered_nonce d)
              then confirmed_data (latest_received_nonce o) d else d
  | None => d
  end.

Lemma state_update_wf o d : inbound_wf d ->
  inbound_wf (state_update o d) /\ last_delivered_nonce (state_update o d) = last_delivered_nonce d /\
  last_confirmed_nonce d <= last_confirmed_nonce (state_update o d) /\
  in_state (state_update o d) = in_state d /\
  couriers_of (relayers (state_update o d)) =
    drop (Z.to_nat (last_confirmed_nonce (state_update o d) - last_confirmed_nonce d)) (couriers_of (relayers d)).
Proof.
  intros Hd. assert (Hid : couriers_of (relayers d) =
    drop (Z.to_nat (last_confirmed_nonce d - last_confirmed_nonce d)) (couriers_of (relayers d)))
    by by rewrite Z.sub_diag.
  unfold state_update. destruct o as [o |]; [| done].
  destruct (bool_decide_reflect (last_confirmed_nonce d < latest_received_nonce o <= last_delivered_nonce d)); [| done].
  destruct (confirmed_data_wf d (latest_received_nonce o) Hd ltac:(lia)) as (H1 & H2 & H3).
  split; [done |]. split; [done |]. simpl. split; [lia |]. done.
Qed.

Lemma with_storage_layer_cases {S A} (m : M S A) s r s' : with_storage_layer m s = (r, s') ->
  match r with
  | Ok a => m s = (Ok a, s')
  | Err e => s' = s /\ fst (m s) = Err e
  | Panic => fst (m s) = Panic
  end.
Proof. unfold with_storage_layer. destruct (m s) as [[a | e |] s1]; intros [= <- <-]; done. Qed.

(** Inversion of one step of a computation that returned. *)
Lemma bind_Ok_inv {S A B} (m : M S A) (f : A -> M S B) s b s' :
  bind m f s = (Ok b, s') -> exists a s1, m s = (Ok a, s1) /\ f a s1 = (Ok b, s').
Proof. unfold bind. destruct (m s) as [[a | e |] s1]; [eauto | done | done]. Qed.

(** The effect of a delivery call that returns. *)
Record received (r : AccountId) (proof : FromBridgedChainMessagesProof BridgedHeaderHash) (count : Z)
    (data : ProvedLaneMessages Msg) (acc : list Msg) (d d' : InboundLaneData) (s s' : State) : Prop := {
  rc_proof : verify_and_decode_messages_proof proof count (runtime s) = inr (mp_lane proof, data);
  rc_lane : InboundLanes (lanes s) !! mp_lane proof = Some d;
  rc_open : in_state d = Opened;
  rc_delivers : exists s1, delivers r acc {| ri_lane_id := mp_lane proof; ri_cached_data := state_update (lane_state data) d |}
                  {| ri_lane_id := mp_lane proof; ri_cached_data := d' |}
                  (put_inbound (mp_lane proof) (state_update (lane_state data) d) s) s1;
  rc_taken : taken_from (proved_messages data) acc;
  rc_progress m : m ∈ proved_messages data ->
    accepts (state_update (lane_state data) d) (nonce (dmsg_key m)) -> acc <> [];
  rc_lanes : lanes s' = Build_LaneStore (<[mp_lane proof := d']> (InboundLanes (lanes s)))
                          (OutboundLanes (lanes s)) (OutboundMessages (lanes s));
  rc_runtime : exists who total valid w, runtime s' =
    delivery_pay_reward who total valid w (dispatch_all acc (runtime s));
}.

Lemma receive_state_run h o (s : State) : inbound_wf (ri_cached_data h) -> stored h s ->
  let h' := {| ri_lane_id := ri_lane_id h; ri_cached_data := state_update o (ri_cached_data h) |} in
  (match o with
   | Some state => '(_, h) <- receive_state_update h state ;; ret h
   | None => ret h
   end) s = (Ok h', put_inbound (ri_lane_id h) (state_update o (ri_cached_data h)) s).
Proof.
  intros Hw Hs h'. unfold h', state_update. destruct o as [o |].
  - unfold bind. rewrite (receive_state_update_run h o s Hw). destruct (bool_decide _); [done |].
    rewrite put_same by done. by destruct h.
  - rewrite put_same by done. by destruct h.
Qed.

(** The call past its guards. *)
Lemma receive_messages_proof_eq who r proof count dw (s : State) data d :
  messages_is_halted (PalletOperatingMode s) = false ->
  count <= MAX_UNCONFIRMED_MESSAGES_IN_CONFIRMATION_TX ->
  verify_and_decode_messages_proof proof count (runtime s) = inr (mp_lane proof, data) ->
  InboundLanes (lanes s) !! mp_lane proof = Some d -> in_state d = Opened ->
  dispatcher_is_active (mp_lane proof) (runtime s) = true -> inbound_wf d ->
  exists dv0,
  dv_lane dv0 = {| ri_lane_id := mp_lane proof; ri_cached_data := state_update (lane_state data) d |} /\
  dv_total_messages dv0 = 0 /\ dv_valid_messages dv0 = 0 /\ dv_dispatch_weight_left dv0 = dw /\
  receive_messages_proof (Signed who) r proof count dw s =
    match receive_each_message r (proved_messages data) dv0
            (put_inbound (mp_lane proof) (state_update (lane_state data) d) s) with
    | (Ok dv, s1) =>
        (Ok (dv_actual_weight dv),
         messages_deposit_event (MessagesReceived (mp_lane proof) (dv_results dv))
           (with_runtime (delivery_pay_reward who (dv_total_messages dv) (dv_valid_messages dv)
                            (dv_actual_weight dv) (runtime s1)) s1))
    | (Err e, _) => (Err e, s)
    | (Panic, s1) => (Panic, s1)
    end.
Proof.
  intros Hh Hcount Ev El Est Hact Hd. unfold receive_messages_proof, with_storage_layer.
  unfold bind at 1, ensure_not_halted, messages_ensure at 1. rewrite Hh. cbn [negb ret].
  unfold bind at 1. cbn [ensure_signed ret].
  unfold bind at 1, messages_ensure at 1. rewrite (proj2 (Z.leb_le _ _) Hcount). cbn [ret].
  unfold bind at 1. rewrite Ev. unfold bind at 1, inbound_from_lane_id. rewrite El, Est, Hact.
  change (lane_is_active Opened) with true. cbn [andb negb lanes_result ret].
  set (h := {| ri_lane_id := mp_lane proof; ri_cached_data := d |}).
  rewrite (bind_Ok _ _ _ _ _ (receive_state_run h (lane_state data) s Hd El)).
  match goal with |- context [receive_each_message r (proved_messages data) ?dv] => exists dv end.
  split; [done |]. split; [done |]. split; [done |]. split; [done |]. unfold bind at 1.
  by destruct (receive_each_message _ _ _ _) as [[dv | e |] s1].
Qed.

(** The guards, when the call returns. *)
Lemma receive_messages_proof_guards origin r proof count dw (s : State) : count <= u32_max ->
  (exists e, receive_messages_proof origin r proof count dw s = (Err e, s)) \/
  (exists who data d, origin = Signed who /\ messages_is_halted (PalletOperatingMode s) = false /\
     count <= MAX_UNCONFIRMED_MESSAGES_IN_CONFIRMATION_TX /\
     verify_and_decode_messages_proof proof count (runtime s) = inr (mp_lane proof, data) /\
     InboundLanes (lanes s) !! mp_lane proof = Some d /\ in_state d = Opened /\
     dispatcher_is_active (mp_lane proof) (runtime s) = true).
Proof.
  intros Hc. unfold receive_messages_proof, with_storage_layer.
  unfold bind at 1, ensure_not_halted, messages_ensure at 1.
  destruct (messages_is_halted _); [left; by eexists |]. cbn [negb ret].
  unfold bind at 1. destruct origin as [| who | |]; try (left; by eexists). cbn [ensure_signed ret].
  unfold bind at 1, messages_ensure at 1. destruct (count <=? _) eqn:Ec; [| left; by eexists]. cbn [ret].
  unfold bind at 1. destruct (verify_and_decode_messages_proof proof count (runtime s)) as [e | [lane data]] eqn:Ev;
    [left; by eexists |].
  destruct (verify_messages_range _ _ _ _ _ Hc Ev) as (-> & _ & _).
  unfold bind at 1, inbound_from_lane_id. destruct (InboundLanes (lanes s) !! mp_lane proof) as [d |] eqn:El; [| left; by eexists].
  destruct (in_state d) eqn:Est; [| left; by eexists].
  destruct (dispatcher_is_active (mp_lane proof) (runtime s)) eqn:Ea; [| left; by eexists].
  right. bool_to_prop. by eexists _, _, _.
Qed.

Lemma receive_messages_proof_run origin r proof count dw (s : State) :
  (forall lane d, InboundLanes (lanes s) !! lane = Some d -> inbound_wf d) ->
  weight_wf dw -> count <= u32_max ->
  match receive_messages_proof origin r proof count dw s with
  | (Ok _, s') => exists data acc d d', received r proof count data acc d d' s s'
  | (Err _, s') => s' = s
  | (Panic, _) => False
  end.
Proof.
  intros Hwf Hdw Hc.
  destruct (receive_messages_proof_guards origin r proof count dw s Hc)
    as [[e ->] | (who & data & d & -> & Hh & Hm & Ev & El & Est & Ha)]; [done |].
  specialize (Hwf _ _ El). destruct (state_update_wf (lane_state data) d Hwf) as [Hwf1 _].
  destruct (receive_messages_proof_eq who r proof count dw s data d Hh Hm Ev El Est Ha Hwf)
    as (dv0 & Hlane & Htot & Hval & Hleft & ->).
  assert (Hdv0 : delivery_wf dv0) by (split; [by rewrite Hlane | lia | by rewrite Hleft]).
  assert (Hst : stored (dv_lane dv0) (put_inbound (mp_lane proof) (state_update (lane_state data) d) s))
    by (rewrite Hlane; apply lookup_insert_eq).
  destruct (verify_messages_range _ _ _ _ _ Hc Ev) as (_ & Hlen & _).
  pose proof (receive_each_message_run r (proved_messages data) dv0 _ Hdv0 Hst) as Hr.
  rewrite Htot, Hlen in Hr. specialize (Hr ltac:(unfold u32_max, nonce_max in *; lia)).
  destruct (receive_each_message _ _ _ _) as [[dv | e |] s1]; [| done | done].
  destruct Hr as (_ & _ & acc & Hdel & Htk & Hpr). rewrite Hlane in Hdel, Hpr.
  pose proof (dl_lane _ _ _ _ _ _ Hdel) as Hl1. pose proof (dl_storage _ _ _ _ _ _ Hdel) as Hs1. simpl in Hl1, Hs1.
  exists data, acc, d, (ri_cached_data (dv_lane dv)). split; try done.
  - exists s1. destruct (dv_lane dv) as [l0 d0]. simpl in Hl1 |- *. by subst l0.
  - rewrite Hs1. unfold messages_deposit_event, put_inbound, with_runtime, with_lanes. simpl. by rewrite insert_insert_eq.
  - eexists _, _, _, _. rewrite Hs1. reflexivity.
Qed.

(** ** The confirmation call *)

(** Nothing new is confirmed. *)
Definition confirms_nothing (lane : LaneId) (s s' : State) : Prop :=
  lanes s' = lanes s /\ exists q, runtime s' = on_messages_delivered lane q (runtime s).

(** The lane [o] is confirmed up to [n] and the relayers [l] are rewarded for the new messages. *)
Definition confirms (lane : LaneId) (o : OutboundLaneData) (n : Z) (l : list UnrewardedRelayer) (s s' : State) : Prop :=
  lanes s' = Build_LaneStore (InboundLanes (lanes s)) (<[lane := confirmed_out n o]> (OutboundLanes (lanes s)))
               (pruned lane (range_inclusive (latest_received_nonce o + 1) n) (OutboundMessages (lanes s))) /\
  exists who k w q, confirmation_pay_reward lane l who (latest_received_nonce o + 1) n (runtime s) = (Ok k, w) /\
    runtime s' = on_messages_delivered lane q w.

Lemma receive_messages_delivery_proof_guards origin proof rs (s : State) :
  (exists e, receive_messages_delivery_proof origin proof rs s = (Err e, s)) \/
  (exists who ld o, origin = Signed who /\ messages_is_halted (PalletOperatingMode s) = false /\
     verify_messages_delivery_proof proof (runtime s) = inr (dp_lane proof, ld) /\
     relayers_state_is_valid rs ld = true /\ OutboundLanes (lanes s) !! dp_lane proof = Some o).
Proof.
  unfold receive_messages_delivery_proof, with_storage_layer.
  unfold bind at 1, ensure_not_halted, messages_ensure at 1.
  destruct (messages_is_halted _); [left; by eexists |]. cbn [negb ret].
  unfold bind at 1. destruct origin as [| who | |]; try (left; by eexists). cbn [ensure_signed ret].
  unfold bind at 1. destruct (verify_messages_delivery_proof proof (runtime s)) as [e | [lane ld]] eqn:Ev;
    [left; by eexists |].
  unfold bind at 1, messages_ensure at 1. destruct (relayers_state_is_valid rs ld) eqn:Ers; [| left; by eexists].
  cbn [ret]. unfold bind at 1, outbound_from_lane_id.
  assert (lane = dp_lane proof) as ->.
  { revert Ev. unfold verify_messages_delivery_proof. destruct (verify_storage_proof _ _ _); [done |].
    destruct (read_inbound_lane_data _ _) as [[|] ?]; [done |]. destruct (ensure_no_unused_keys _); [done |]. by intros [= <-]. }
  destruct (OutboundLanes (lanes s) !! dp_lane proof) as [o |] eqn:Eo; [| left; by eexists].
  right. by eexists _, _, _.
Qed.

Lemma receive_messages_delivery_proof_eq who proof rs (s : State) ld o :
  messages_is_halted (PalletOperatingMode s) = false ->
  verify_messages_delivery_proof proof (runtime s) = inr (dp_lane proof, ld) ->
  relayers_state_is_valid rs ld = true -> OutboundLanes (lanes s) !! dp_lane proof = Some o ->
  outbound_nonces o ->
  let n := last_delivered_nonce ld in
  match receive_messages_delivery_proof (Signed who) proof rs s with
  | (Ok _, s') =>
      (n <= latest_received_nonce o /\ confirms_nothing (dp_lane proof) s s') \/
      (latest_received_nonce o < n <= latest_generated_nonce o /\ n < nonce_max /\
       n - latest_received_nonce o <= rs_total_messages rs /\
       ensure_unrewarded_relayers_are_correct n (relayers ld) = inr tt /\
       confirms (dp_lane proof) o n (relayers ld) s s')
  | (Err e, s') => s' = s /\ latest_received_nonce o < n /\
      (latest_generated_nonce o < n \/ rs_total_messages rs < n - latest_received_nonce o \/
       ensure_unrewarded_relayers_are_correct n (relayers ld) <> inr tt \/
       (exists w, confirmation_pay_reward (dp_lane proof) (relayers ld) who (latest_received_nonce o + 1) n (runtime s) = (Err e, w)))
  | (Panic, _) => latest_received_nonce o < n /\
      (n = nonce_max \/ (exists w,
         confirmation_pay_reward (dp_lane proof) (relayers ld) who (latest_received_nonce o + 1) n (runtime s) = (Panic, w)))
  end.
Proof.
  intros Hh Ev Hrs Eo Hwf n. unfold receive_messages_delivery_proof, with_storage_layer.
  unfold bind at 1, ensure_not_halted, messages_ensure at 1. rewrite Hh. cbn [negb ret].
  unfold bind at 1. cbn [ensure_signed ret]. unfold bind at 1. rewrite Ev. unfold bind at 1, messages_ensure at 1.
  rewrite Hrs. cbn [ret]. unfold bind at 1, outbound_from_lane_id. rewrite Eo. cbn [negb orb lanes_result ret].
  set (h := {| ro_lane_id := dp_lane proof; ro_cached_data := o |}). unfold bind at 1. fold n.
  rewrite (confirm_delivery_run h (rs_total_messages rs) n (relayers ld) s Hwf). cbn [ro_cached_data ro_lane_id h].
  destruct Hwf as [[Hr0 Hr1] Hr2 Hr3].
  destruct (Z.leb_spec n (latest_received_nonce o)) as [Hle | Hgt].
  { rewrite !bind_ret_l. cbn [ro_cached_data]. unfold bind at 1, queued_messages. unfold bind at 1.
    rewrite nonce_add_ok by (unfold h; simpl; lia). cbn. left. split; [done |]. split; [done | by eexists]. }
  destruct (Z.ltb_spec (latest_generated_nonce o) n) as [Hg | Hg]; [split; [done |]; split; [done |]; by left |].
  destruct (Z.ltb_spec (rs_total_messages rs) (n - latest_received_nonce o)) as [Ht | Ht];
    [split; [done |]; split; [done |]; right; by left |].
  destruct (ensure_unrewarded_relayers_are_correct n (relayers ld)) as [e | []];
    [split; [done |]; split; [done |]; right; right; by left |].
  rewrite bind_ret_l. cbn beta iota. cbn [dm_begin dm_end]. unfold bind at 1. unfold bind at 1, modify at 1.
  unfold bind at 1, lift_runtime. cbn [runtime put_outbound with_lanes messages_deposit_event].
  destruct (confirmation_pay_reward _ _ who _ n (runtime s)) as [[k | e |] w] eqn:Ep; cbn.
  - unfold bind at 1, queued_messages. unfold bind at 1. cbn [latest_received_nonce confirmed_out].
    unfold nonce_add. destruct (Z.ltb_spec (n + 1) (2 ^ 64)) as [Hn | Hn]; cbn.
    + right. split; [done |]. split; [unfold nonce_max; lia |]. split; [done |]. split; [done |]. split; [done |].
      eexists _, _, _, _. split; [done |]. done.
    + split; [done |]. left. unfold nonce_max in *. lia.
  - split; [done |]. split; [done |]. right. right. right. by eexists.
  - split; [done |]. right. by eexists.
Qed.
End messages_facts.
