(* ===== verification/BridgeInvariant.v ===== *)
(** * The invariant of the messages pallet

    The steps of a chain's messages pallet, its lanes' invariant, and the theorems on single calls:
    what a delivery call may do whatever its arguments are, which transactions the pool refuses, and
    what two sends do that were validated together. *)

From stdpp Require Import base tactics numbers list gmap relations.
From S2P Require Import Prelude Dispatch System BalancesCalls Words BridgeLanes BridgeMessages BridgeLaneFacts.
From S2P Require Import BridgeMessagesFacts.
Local Open Scope Z_scope.

Section invariant.
Context {W : Type} `{MD : MessageDispatch W} `{BC : BridgedChain} `{HC : HeaderChain W}.
Context `{PY : Payments W} `{MC : MessagesConfig} `{DL : !DispatchLaws W}.
Abbreviation State := (BridgeState W).
Abbreviation Msg := (DispatchMessage DispatchPayload).

(** ** Sending *)

Lemma validate_message_run lane p (s : State) args s1 :
  validate_message lane p s = (Ok args, s1) ->
  s1 = s /\ exists o, OutboundLanes (lanes s) !! lane = Some o /\ out_state o = Opened /\
    PalletOperatingMode s = Basic Normal /\
    args = {| sa_lane_id := lane; sa_lane := {| ro_lane_id := lane; ro_cached_data := o |}; sa_payload := p |}.
Proof.
  unfold validate_message. intros H. apply bind_Ok_inv in H as (u & s2 & H1 & H).
  unfold ensure_normal_operating_mode, messages_ensure in H1.
  destruct (bool_decide_reflect (PalletOperatingMode s = Basic Normal)); [| done]. injection H1 as _ <-.
  apply bind_Ok_inv in H as (h & s2 & H1 & H). unfold outbound_from_lane_id in H1.
  destruct (OutboundLanes (lanes s) !! lane) as [o |] eqn:Eo; [| done].
  destruct (out_state o) eqn:Est; [| done]. injection H1 as <- <-.
  apply bind_Ok_inv in H as (u' & s3 & H1 & H). unfold messages_ensure in H1. destruct (_ <=? _); [| done].
  injection H1 as _ <-. injection H as <- <-. split; [done |]. by exists o.
Qed.

Lemma send_message_run lane o p (s : State) :
  0 <= latest_received_nonce o < nonce_max ->
  match send_message {| sa_lane_id := lane; sa_lane := {| ro_lane_id := lane; ro_cached_data := o |}; sa_payload := p |} s with
  | (Ok a, s') => latest_generated_nonce o < nonce_max /\ art_nonce a = latest_generated_nonce o + 1 /\
      enqueued_messages a = saturating_len (latest_received_nonce o + 1) (latest_generated_nonce o + 1) /\
      runtime s' = runtime s /\
      lanes s' = Build_LaneStore (InboundLanes (lanes s)) (<[lane := sent_data o]> (OutboundLanes (lanes s)))
        (<[(lane, latest_generated_nonce o + 1) := p]> (OutboundMessages (lanes s)))
  | (Err _, _) => False
  | (Panic, _) => nonce_max <= latest_generated_nonce o
  end.
Proof.
  intros Hr. unfold send_message. unfold bind at 1. cbn [sa_lane sa_payload sa_lane_id].
  rewrite lane_send_message_run. cbn [ro_cached_data ro_lane_id].
  destruct (Z.ltb_spec (latest_generated_nonce o) nonce_max); [| done].
  unfold bind at 1, queued_messages. unfold bind at 1. cbn [ro_cached_data]. rewrite nonce_add_ok by (simpl; lia).
  cbn. done.
Qed.

(** ** Lanes that no closing prunes *)

Record store_wf (l : LaneStore) : Prop := {
  sw_inbound lane d : InboundLanes l !! lane = Some d -> inbound_wf d;
  sw_outbound lane o : OutboundLanes l !! lane = Some o -> outbound_wf lane o (OutboundMessages l);
}.

Lemma store_wf_inbound l lane d : store_wf l -> inbound_wf d ->
  store_wf (Build_LaneStore (<[lane := d]> (InboundLanes l)) (OutboundLanes l) (OutboundMessages l)).
Proof.
  intros [H1 H2] Hd. split; simpl; [| done]. intros lane' d'. destruct (decide (lane = lane')) as [<- | Hne].
  - rewrite lookup_insert_eq. by intros [= <-].
  - rewrite lookup_insert_ne by done. apply H1.
Qed.

(** Writing one outbound lane, and messages of that lane only. *)
Lemma store_wf_outbound l lane o m : store_wf l -> outbound_wf lane o m ->
  (forall k, k.1 <> lane -> m !! k = OutboundMessages l !! k) ->
  store_wf (Build_LaneStore (InboundLanes l) (<[lane := o]> (OutboundLanes l)) m).
Proof.
  intros [H1 H2] Ho Hm. split; simpl; [done |]. intros lane' o'. destruct (decide (lane = lane')) as [<- | Hne].
  - rewrite lookup_insert_eq. by intros [= <-].
  - rewrite lookup_insert_ne by done. intros Hl. destruct (H2 _ _ Hl) as [A1 A2 A3 A4 A5].
    split; [done | done | done | done |]. intros n. rewrite Hm by (simpl; congruence). apply A5.
Qed.

Lemma outbound_wf_new lane m st : (forall n, m !! (lane, n) = None) ->
  outbound_wf lane (Build_OutboundLaneData 1 0 0 st) m.
Proof.
  intros Hm. split; simpl; [by vm_compute | lia | by vm_compute | done |]. intros n. rewrite Hm.
  split; [by intros [] | lia].
Qed.

(** What the three calls of the traffic do to the lanes. *)
Lemma send_lanes lane p args a sv sv' (s s' : State) o :
  validate_message lane p sv = (Ok args, sv') -> OutboundLanes (lanes sv) !! lane = Some o ->
  outbound_nonces o -> send_message args s = (Ok a, s') ->
  latest_generated_nonce o < nonce_max /\
  lanes s' = Build_LaneStore (InboundLanes (lanes s)) (<[lane := sent_data o]> (OutboundLanes (lanes s)))
    (<[(lane, latest_generated_nonce o + 1) := p]> (OutboundMessages (lanes s))).
Proof.
  intros Hv Ho Hn Hs. apply validate_message_run in Hv as (_ & o' & Ho' & _ & _ & ->).
  rewrite Ho in Ho'. injection Ho' as <-. pose proof (send_message_run lane o p s (on_nonneg _ Hn)) as H.
  rewrite Hs in H. destruct H as (Hg & _ & _ & _ & Hl). done.
Qed.

Lemma receive_lanes origin r proof count dw res (s s' : State) :
  (forall lane d, InboundLanes (lanes s) !! lane = Some d -> inbound_wf d) -> weight_wf dw -> count <= u32_max ->
  receive_messages_proof origin r proof count dw s = (res, s') ->
  s' = s \/ exists lane d, inbound_wf d /\
    lanes s' = Build_LaneStore (<[lane := d]> (InboundLanes (lanes s))) (OutboundLanes (lanes s)) (OutboundMessages (lanes s)).
Proof.
  intros Hw Hdw Hc Hr. pose proof (receive_messages_proof_run origin r proof count dw s Hw Hdw Hc) as H.
  rewrite Hr in H. destruct res as [aw | e |]; [| by left | done]. right. destruct H as (data & acc & d & d' & H).
  exists (mp_lane proof), d'. split; [| by rewrite (rc_lanes _ _ _ _ _ _ _ _ _ H)].
  by destruct (rc_delivers _ _ _ _ _ _ _ _ _ H) as [s1 []].
Qed.

Lemma confirm_lanes origin proof rs res (s s' : State) :
  (forall lane o, OutboundLanes (lanes s) !! lane = Some o -> outbound_nonces o) ->
  receive_messages_delivery_proof origin proof rs s = (res, s') -> res <> Panic ->
  lanes s' = lanes s \/ exists lane o n, OutboundLanes (lanes s) !! lane = Some o /\
    latest_received_nonce o < n <= latest_generated_nonce o /\ n < nonce_max /\
    lanes s' = Build_LaneStore (InboundLanes (lanes s)) (<[lane := confirmed_out n o]> (OutboundLanes (lanes s)))
      (pruned lane (range_inclusive (latest_received_nonce o + 1) n) (OutboundMessages (lanes s))).
Proof.
  intros Hw Hr Hnp. destruct (receive_messages_delivery_proof_guards origin proof rs s)
    as [[e He] | (who & ld & o & -> & Hh & Hv & Hrs & Ho)]; [left; rewrite Hr in He; by simplify_eq |].
  pose proof (receive_messages_delivery_proof_eq who proof rs s ld o Hh Hv Hrs Ho (Hw _ _ Ho)) as H.
  cbv zeta in H. rewrite Hr in H. destruct res as [aw | e |]; [| left; by destruct H as [-> _] | done].
  destruct H as [(_ & Hl & _) | (Hn & Hm & _ & _ & Hl & _)]; [by left | right]. by exists (dp_lane proof), o, (last_delivered_nonce ld).
Qed.

Lemma send_wf lane p args s1 a (s s' : State) : store_wf (lanes s) ->
  validate_message lane p s = (Ok args, s1) -> send_message args s1 = (Ok a, s') -> store_wf (lanes s').
Proof.
  intros Hw Hv Hs. pose proof Hv as Hv'. apply validate_message_run in Hv' as (-> & o & Ho & _ & _ & _).
  pose proof (sw_outbound _ Hw _ _ Ho) as How.
  destruct (send_lanes _ _ _ _ _ _ _ _ _ Hv Ho (ow_nonces _ _ _ How) Hs) as [Hg ->].
  apply store_wf_outbound; [done | by apply sent_data_wf |]. intros k Hk. rewrite lookup_insert_ne; [done |]. by intros <-.
Qed.

Lemma receive_wf origin r proof count dw res (s s' : State) : store_wf (lanes s) -> weight_wf dw -> count <= u32_max ->
  receive_messages_proof origin r proof count dw s = (res, s') -> store_wf (lanes s').
Proof.
  intros Hw Hdw Hc Hr. destruct (receive_lanes _ _ _ _ _ _ _ _ (sw_inbound _ Hw) Hdw Hc Hr) as [-> | (lane & d & Hd & ->)]; [done |].
  by apply store_wf_inbound.
Qed.

Lemma confirm_wf origin proof rs res (s s' : State) : store_wf (lanes s) ->
  receive_messages_delivery_proof origin proof rs s = (res, s') -> res <> Panic -> store_wf (lanes s').
Proof.
  intros Hw Hr Hnp. destruct (confirm_lanes _ _ _ _ _ _ (fun l o H => ow_nonces _ _ _ (sw_outbound _ Hw l o H)) Hr Hnp)
    as [-> | (lane & o & n & Ho & Hn & Hm & ->)]; [done |]. pose proof (sw_outbound _ Hw _ _ Ho) as How.
  apply store_wf_outbound; [done | apply confirmed_out_wf; [done | lia | done] |].
  intros k Hk. rewrite pruned_lookup, decide_False; [done |]. by intros [E _].
Qed.

(** ** Genesis *)

Lemma genesis_lanes_wf lanes_ (s : State) :
  store_wf (lanes s) -> (forall lane n, OutboundMessages (lanes s) !! (lane, n) = None) ->
  exists s', for_each lanes_ (fun lane =>
    do storage_insert InboundLanesL lane InboundLaneData_opened ;;
    storage_insert OutboundLanesL lane OutboundLaneData_opened) s = (Ok tt, s') /\ store_wf (lanes s') /\
    forall lane n, OutboundMessages (lanes s') !! (lane, n) = None.
Proof.
  revert s. induction lanes_ as [| lane lanes_ IH]; intros s Hw Hm; simpl; [by exists s |].
  unfold bind, storage_insert, modify. apply IH; [| done].
  apply (store_wf_outbound (Build_LaneStore (<[lane := InboundLaneData_opened]> (InboundLanes (lanes s)))
      (OutboundLanes (lanes s)) (OutboundMessages (lanes s)))); [| | done].
  - apply store_wf_inbound; [done | apply inbound_wf_opened].
  - apply outbound_wf_new. intros n. apply Hm.
Qed.

Definition blank (w : W) : State := Build_BridgeState None (Basic Normal) (Build_LaneStore ∅ ∅ ∅) [] w.

Lemma lanes_genesis_run mode owner opened w s0 :
  messages_genesis_build mode owner opened (blank w) = (Ok tt, s0) ->
  store_wf (lanes s0) /\ forall lane n, OutboundMessages (lanes s0) !! (lane, n) = None.
Proof.
  unfold messages_genesis_build. intros Hg. unfold bind at 1, modify at 1 in Hg.
  apply bind_Ok_inv in Hg as (u & s2 & H1 & Hg).
  assert (Hl : lanes s2 = Build_LaneStore ∅ ∅ ∅) by (destruct owner; by injection H1 as _ <-).
  destruct (genesis_lanes_wf opened s2) as (s3 & Hs3 & Hw3).
  - rewrite Hl. split; by intros.
  - rewrite Hl. done.
  - rewrite Hs3 in Hg. by injection Hg as <-.
Qed.

Lemma genesis_wf mode owner opened w s0 :
  messages_genesis_build mode owner opened (blank w) = (Ok tt, s0) -> store_wf (lanes s0).
Proof. intros H%lanes_genesis_run. apply H. Qed.

(** ** The steps of the pallet *)

(** The calls of the pallet and what the bridge hub does with its lanes.  A message may be sent any
    time after it was validated, as long as its lane has not changed since. *)
Inductive pallet_step (s s' : State) : Prop :=
  | ps_send lane p args sv sv' a :
      validate_message lane p sv = (Ok args, sv') ->
      OutboundLanes (lanes s) !! lane = OutboundLanes (lanes sv) !! lane ->
      send_message args s = (Ok a, s') -> pallet_step s s'
  | ps_receive origin r proof count dw res :
      weight_wf dw -> count <= u32_max ->
      receive_messages_proof origin r proof count dw s = (res, s') -> pallet_step s s'
  | ps_confirm origin proof rs res :
      receive_messages_delivery_proof origin proof rs s = (res, s') -> res <> Panic -> pallet_step s s'
  | ps_owner origin owner res : set_owner origin owner s = (res, s') -> pallet_step s s'
  | ps_mode origin mode res : set_operating_mode origin mode s = (res, s') -> pallet_step s s'
  | ps_inbound_state lane h h' st :
      inbound_from_lane_id lane false s = inr h -> inbound_set_state h st s = (Ok h', s') -> pallet_step s s'
  | ps_outbound_state lane h h' st :
      outbound_from_lane_id lane false s = inr h -> outbound_set_state h st s = (Ok h', s') -> pallet_step s s'
  | ps_create_inbound lane res : create_inbound_lane lane s = (res, s') -> pallet_step s s'
  | ps_create_outbound lane res : create_outbound_lane lane s = (res, s') -> pallet_step s s'
  | ps_runtime w : s' = with_runtime w s -> pallet_step s s'.

(** The lanes whose closing is under way after one more call of [close_bridge]: the lane is one of them
    until it is purged. *)
Definition closing_after (lane : LaneId) (closing : gset LaneId) (s' : State) : gset LaneId :=
  match OutboundLanes (lanes s') !! lane with
  | Some _ => {[lane]} ∪ closing
  | None => closing ∖ {[lane]}
  end.

(** The states that steps and closings lead to, each with the lanes whose closing is under way. *)
Inductive lane_history (s0 : State) : gset LaneId -> State -> Prop :=
  | lh_genesis : lane_history s0 ∅ s0
  | lh_step closing s s' : lane_history s0 closing s -> pallet_step s s' -> lane_history s0 closing s'
  | lh_close closing s lane may_prune res s' : lane_history s0 closing s ->
      close_bridge_lanes lane may_prune s = (res, s') -> res <> Panic ->
      lane_history s0 (closing_after lane closing s') s'.

(** ** The lanes, closings included *)

(** The messages of the lane from [first] on are stored. *)
Record queue_wf (lane : LaneId) (o : OutboundLaneData) (m : gmap (LaneId * Z) (list Z)) (first : Z) : Prop := {
  qw_nonces : outbound_nonces o;
  qw_first : latest_received_nonce o < first <= latest_generated_nonce o + 1;
  qw_oldest : 1 <= oldest_unpruned_nonce o <= first;
  qw_stored n : is_Some (m !! (lane, n)) <-> first <= n <= latest_generated_nonce o;
}.

Record lanes_wf (closing : gset LaneId) (l : LaneStore) : Prop := {
  lw_inbound lane d : InboundLanes l !! lane = Some d -> inbound_wf d;
  lw_outbound lane o : OutboundLanes l !! lane = Some o ->
    exists first, queue_wf lane o (OutboundMessages l) first /\
      (lane ∉ closing -> first = latest_received_nonce o + 1);
  lw_unopened lane n : OutboundLanes l !! lane = None -> OutboundMessages l !! (lane, n) = None;
}.

Lemma queue_wf_frame lane o m m' first : queue_wf lane o m first -> (forall n, m' !! (lane, n) = m !! (lane, n)) ->
  queue_wf lane o m' first.
Proof. intros [A1 A2 A3 A4] Hm. split; [done | done | done |]. intros n. by rewrite Hm. Qed.

Lemma lanes_wf_inbound c l lane d : lanes_wf c l -> inbound_wf d ->
  lanes_wf c (Build_LaneStore (<[lane := d]> (InboundLanes l)) (OutboundLanes l) (OutboundMessages l)).
Proof.
  intros [H1 H2 H3] Hd. split; simpl; [| done | done]. intros lane' d'. destruct (decide (lane = lane')) as [<- | Hne].
  - rewrite lookup_insert_eq. by intros [= <-].
  - rewrite lookup_insert_ne by done. apply H1.
Qed.

Lemma lanes_wf_outbound c c' l lane o m first : lanes_wf c l -> queue_wf lane o m first ->
  (lane ∉ c' -> first = latest_received_nonce o + 1) -> c ⊆ c' ->
  (forall k, k.1 <> lane -> m !! k = OutboundMessages l !! k) ->
  lanes_wf c' (Build_LaneStore (InboundLanes l) (<[lane := o]> (OutboundLanes l)) m).
Proof.
  intros [H1 H2 H3] Ho Hf Hc Hm. split; simpl; [done | |].
  - intros lane' o'. destruct (decide (lane = lane')) as [<- | Hne]; [rewrite lookup_insert_eq; intros [= <-]; by exists first |].
    rewrite lookup_insert_ne by done. intros Hl. destruct (H2 _ _ Hl) as (f & Hq & Hx). exists f.
    split; [| set_solver]. apply (queue_wf_frame _ _ _ _ _ Hq). intros n. apply Hm. simpl. congruence.
  - intros lane' n. destruct (decide (lane = lane')) as [<- | Hne]; [by rewrite lookup_insert_eq |].
    rewrite lookup_insert_ne by done. intros Hl. rewrite Hm by (simpl; congruence). by apply H3.
Qed.

Lemma lanes_wf_nonces c l lane o : lanes_wf c l -> OutboundLanes l !! lane = Some o -> outbound_nonces o.
Proof. intros Hw Ho. destruct (lw_outbound _ _ Hw _ _ Ho) as (f & Hq & _). apply Hq. Qed.

Lemma sent_queue lane o m p first : queue_wf lane o m first -> latest_generated_nonce o < nonce_max ->
  queue_wf lane (sent_data o) (<[(lane, latest_generated_nonce o + 1) := p]> m) first.
Proof.
  intros [[H1 H2 H3] Hf Ho Hst] Hg. split; simpl; [split; simpl; lia | lia | done |]. intros n.
  destruct (decide (n = latest_generated_nonce o + 1)) as [-> | Hne].
  - rewrite lookup_insert_eq. split; [lia | by eexists].
  - rewrite lookup_insert_ne by congruence. rewrite Hst. lia.
Qed.

Lemma confirmed_queue lane o m n first : queue_wf lane o m first ->
  latest_received_nonce o < n <= latest_generated_nonce o -> n < nonce_max ->
  queue_wf lane (confirmed_out n o) (pruned lane (range_inclusive (latest_received_nonce o + 1) n) m) (Z.max first (n + 1)).
Proof.
  intros [[H1 H2 H3] Hf Ho Hst] Hn Hm. split; simpl; [split; simpl; lia | lia | |].
  - unfold word_saturating_add, nonce_max in *. lia.
  - intros k. rewrite pruned_lookup. destruct (decide _) as [[_ Hk] | Hk]; simpl in Hk; rewrite elem_of_range_inclusive in Hk.
    + split; [by intros [x Hx] | lia].
    + rewrite Hst. assert (~ (latest_received_nonce o + 1 <= k <= n)) by naive_solver. lia.
Qed.

Lemma queue_wf_state lane o m first st : queue_wf lane o m first ->
  queue_wf lane (Build_OutboundLaneData (oldest_unpruned_nonce o) (latest_received_nonce o)
                   (latest_generated_nonce o) st) m first.
Proof. intros [[H1 H2 H3] Hf Ho Hst]. by split. Qed.

Lemma queue_wf_new lane m st : (forall n, m !! (lane, n) = None) ->
  queue_wf lane (Build_OutboundLaneData 1 0 0 st) m 1.
Proof.
  intros Hm. split; simpl; [split; [by vm_compute | simpl; lia | by vm_compute] | lia | lia |]. intros n. rewrite Hm.
  split; [by intros [] | lia].
Qed.

Lemma owner_call_run origin (f : State -> State) s res s' :
  with_storage_layer (do ensure_owner_or_root origin ;; modify f) s = (res, s') -> s' = s \/ s' = f s.
Proof.
  unfold with_storage_layer, bind, ensure_owner_or_root.
  destruct origin as [| who | |]; simpl; [| case_bool_decide; simpl | |]; intros [= _ <-]; auto.
Qed.

Lemma pallet_step_wf c s s' : pallet_step s s' -> lanes_wf c (lanes s) -> lanes_wf c (lanes s').
Proof.
  intros Hst Hw. destruct Hst as [lane p args sv sv' a Hv He Hs | origin r proof count dw res Hdw Hc Hr
    | origin proof rs res Hr Hnp | origin owner res Hr | origin mode res Hr | lane h h' st Hh Hr | lane h h' st Hh Hr
    | lane res Hr | lane res Hr | w ->]; [| | | | | | | | | done].
  - pose proof Hv as Hv'. apply validate_message_run in Hv' as (_ & o & Ho & _). pose proof Ho as Ho1. rewrite <- He in Ho1.
    destruct (lw_outbound _ _ Hw _ _ Ho1) as (f & Hq & Hx).
    destruct (send_lanes _ _ _ _ _ _ _ _ _ Hv Ho (qw_nonces _ _ _ _ Hq) Hs) as [Hg ->].
    apply (lanes_wf_outbound c c _ _ _ _ f); [done | by apply sent_queue | done | done |].
    intros k Hk. rewrite lookup_insert_ne; [done |]. by intros <-.
  - destruct (receive_lanes _ _ _ _ _ _ _ _ (lw_inbound _ _ Hw) Hdw Hc Hr) as [-> | (lane & d & Hd & ->)]; [done |].
    by apply lanes_wf_inbound.
  - destruct (confirm_lanes _ _ _ _ _ _ (fun l o => lanes_wf_nonces c _ l o Hw) Hr Hnp)
      as [-> | (lane & o & n & Ho & Hn & Hm & ->)]; [done |]. destruct (lw_outbound _ _ Hw _ _ Ho) as (f & Hq & Hx).
    apply (lanes_wf_outbound c c _ _ _ _ (Z.max f (n + 1))); [done | by apply confirmed_queue | | done |].
    + simpl. intros Hc. specialize (Hx Hc). lia.
    + intros k Hk. rewrite pruned_lookup, decide_False; [done |]. by intros [E _].
  - destruct (owner_call_run origin _ s _ _ Hr) as [-> | ->]; done.
  - destruct (owner_call_run origin _ s _ _ Hr) as [-> | ->]; done.
  - unfold inbound_from_lane_id in Hh. destruct (InboundLanes (lanes s) !! lane) as [d |] eqn:Ed; [| done].
    injection Hh as <-. injection Hr as _ <-. pose proof (lw_inbound _ _ Hw _ _ Ed) as [A1 A2 A3 A4 A5].
    by apply (lanes_wf_inbound c (lanes s)).
  - unfold outbound_from_lane_id in Hh. destruct (OutboundLanes (lanes s) !! lane) as [o |] eqn:Eo; [| done].
    injection Hh as <-. injection Hr as _ <-. destruct (lw_outbound _ _ Hw _ _ Eo) as (f & Hq & Hx).
    by apply (lanes_wf_outbound c c (lanes s) _ _ _ f); [| apply queue_wf_state | | |].
  - unfold create_inbound_lane in Hr. destruct (InboundLanes (lanes s) !! lane) eqn:Ed; injection Hr as _ <-; [done |].
    apply (lanes_wf_inbound c (lanes s)); [done | apply inbound_wf_opened].
  - unfold create_outbound_lane in Hr. destruct (OutboundLanes (lanes s) !! lane) eqn:Eo; injection Hr as _ <-; [done |].
    apply (lanes_wf_outbound c c (lanes s) _ _ _ 1); [done | | done | done | done].
    apply queue_wf_new. intros n. by apply (lw_unopened _ _ Hw).
Qed.

(** ** Closing a bridge *)

Lemma pruned_queue lane o m first : queue_wf lane o m first -> oldest_unpruned_nonce o <= latest_generated_nonce o ->
  queue_wf lane (Build_OutboundLaneData (oldest_unpruned_nonce o + 1) (latest_received_nonce o)
                   (latest_generated_nonce o) (out_state o))
    (delete (lane, oldest_unpruned_nonce o) m) (Z.max first (oldest_unpruned_nonce o + 1)).
Proof.
  intros [[H1 H2 H3] Hf Ho Hst] Hg. split; simpl; [split; simpl; lia | lia | lia |]. intros n.
  destruct (decide (n = oldest_unpruned_nonce o)) as [-> | Hne].
  - rewrite lookup_delete_eq. split; [by intros [] | lia].
  - rewrite lookup_delete_ne by congruence. rewrite Hst. lia.
Qed.

(** The loop prunes one queued message per turn; it only panics on the last nonce there is. *)
Lemma prune_queued_messages_run queued k may_prune o first lane (s : State) :
  queue_wf lane o (OutboundMessages (lanes s)) first -> OutboundLanes (lanes s) !! lane = Some o ->
  (length queued = 0%nat \/ Z.of_nat (length queued) = latest_generated_nonce o - oldest_unpruned_nonce o + 1) ->
  match prune_queued_messages queued k may_prune {| ro_lane_id := lane; ro_cached_data := o |} s with
  | (Ok (_, h), s') => exists o' m' first', h = {| ro_lane_id := lane; ro_cached_data := o' |} /\
      lanes s' = Build_LaneStore (InboundLanes (lanes s)) (<[lane := o']> (OutboundLanes (lanes s))) m' /\
      queue_wf lane o' m' first' /\ (forall x, x.1 <> lane -> m' !! x = OutboundMessages (lanes s) !! x)
  | (Err _, _) => False
  | (Panic, _) => True
  end.
Proof.
  revert k o first s. induction queued as [| q queued IH]; intros k o first s Hq Ho Hlen; simpl.
  { exists o, (OutboundMessages (lanes s)), first. rewrite insert_id by done. by destruct (lanes s). }
  destruct (k =? may_prune).
  { exists o, (OutboundMessages (lanes s)), first. rewrite insert_id by done. by destruct (lanes s). }
  destruct Hlen as [Hlen | Hlen]; [done |]. simpl in Hlen. unfold bind at 1.
  unfold remove_oldest_unpruned_message, remove_message, storage_remove, modify, outbound_set_data, storage_insert. cbn [ro_lane_id ro_cached_data].
  unfold bind at 1. unfold bind at 1, nonce_add. destruct (_ <? _); [| done]. unfold bind at 1. cbn.
  unfold bind at 1. destruct (k + 1 <? _); [| done]. cbn.
  set (s2 := with_lanes _ _).
  pose proof (IH (k + 1) (Build_OutboundLaneData (oldest_unpruned_nonce o + 1) (latest_received_nonce o)
                   (latest_generated_nonce o) (out_state o)) (Z.max first (oldest_unpruned_nonce o + 1)) s2) as H.
  destruct (prune_queued_messages queued _ _ _ s2) as [[[k' h] | |] s'].
  - destruct H as (o' & m' & f' & -> & -> & Hq' & Hm').
    + apply pruned_queue; [done | lia].
    + apply lookup_insert_eq.
    + right. cbn. lia.
    + exists o', m', f'. split; [done |]. split; [| split; [done |]].
      * cbn. by rewrite insert_insert_eq.
      * intros x Hx. rewrite Hm' by done. cbn. rewrite lookup_delete_ne; [done |]. by intros <-.
  - apply H; [apply pruned_queue; [done | lia] | apply lookup_insert_eq | right; cbn; lia].
  - done.
Qed.

Lemma lanes_wf_mono c c' l : lanes_wf c l -> (forall lane o, OutboundLanes l !! lane = Some o -> lane ∈ c -> lane ∈ c') ->
  lanes_wf c' l.
Proof.
  intros [H1 H2 H3] Hc. split; [done | | done]. intros lane o Ho. destruct (H2 _ _ Ho) as (f & Hq & Hx).
  exists f. split; [done |]. intros Hn. apply Hx. intros Hin. by apply Hn, (Hc _ _ Ho).
Qed.

Lemma lanes_wf_closing c lane (s : State) : lanes_wf c (lanes s) -> lanes_wf (closing_after lane c s) (lanes s).
Proof.
  intros Hw. apply (lanes_wf_mono c); [done |]. intros lane' o Ho Hc. unfold closing_after.
  destruct (OutboundLanes (lanes s) !! lane) eqn:E; [set_solver |].
  apply elem_of_difference. split; [done |]. intros ->%elem_of_singleton. congruence.
Qed.

(** Purging a lane whose queue is empty. *)
Lemma lanes_wf_purge c l lane o m first : lanes_wf c l -> queue_wf lane o m first ->
  latest_generated_nonce o < oldest_unpruned_nonce o ->
  (forall k, k.1 <> lane -> m !! k = OutboundMessages l !! k) ->
  lanes_wf (c ∖ {[lane]}) (Build_LaneStore (delete lane (InboundLanes l)) (delete lane (OutboundLanes l)) m).
Proof.
  intros [H1 H2 H3] Hq He Hm. split; simpl.
  - intros lane' d [_ Hd]%lookup_delete_Some. by apply (H1 lane').
  - intros lane' o' [Hne Ho]%lookup_delete_Some. destruct (H2 _ _ Ho) as (f & Hf & Hx). exists f. split; [| set_solver].
    apply (queue_wf_frame _ _ _ _ _ Hf). intros n. apply Hm. simpl. congruence.
  - intros lane' n. destruct (decide (lane = lane')) as [<- | Hne].
    + intros _. apply eq_None_not_Some. intros Hs%(qw_stored _ _ _ _ Hq). pose proof (qw_oldest _ _ _ _ Hq). lia.
    + rewrite lookup_delete_ne by done. intros Ho. rewrite Hm by (simpl; congruence). by apply H3.
Qed.

Lemma close_bridge_lanes_wf c lane may_prune res (s s' : State) : lanes_wf c (lanes s) ->
  close_bridge_lanes lane may_prune s = (res, s') -> res <> Panic ->
  lanes_wf (closing_after lane c s') (lanes s').
Proof.
  intros Hw. unfold close_bridge_lanes, bind at 1, inbound_from_lane_id at 1.
  destruct (InboundLanes (lanes s) !! lane) as [d |] eqn:Ed; cbn [lanes_result negb andb ret];
    [| intros [= <- <-] _; by apply lanes_wf_closing].
  unfold bind at 1, outbound_from_lane_id at 1.
  destruct (OutboundLanes (lanes s) !! lane) as [o |] eqn:Eo; cbn [lanes_result negb orb ret];
    [| intros [= <- <-] _; by apply lanes_wf_closing].
  destruct (lw_outbound _ _ Hw _ _ Eo) as (f & Hq & _). cbn [ro_cached_data]. unfold bind at 1.
  pose proof (prune_queued_messages_run (range_inclusive (oldest_unpruned_nonce o) (latest_generated_nonce o)) 0 may_prune
                o f lane s Hq Eo) as H.
  destruct (prune_queued_messages _ _ _ _ s) as [[[k h] | |] s1]; [| | by intros [= <- _]];
    [| exfalso; apply H; unfold range_inclusive; rewrite length_seqZ; lia].
  destruct H as (o' & m' & f' & -> & Hl & Hq' & Hm'); [unfold range_inclusive; rewrite length_seqZ; lia |].
  cbn [ro_cached_data]. destruct (Z.leb_spec (oldest_unpruned_nonce o') (latest_generated_nonce o')) as [Hle | Hgt].
  - intros [= _ <-] _. unfold closing_after. cbn. rewrite Hl. cbn. rewrite lookup_insert_eq, insert_insert_eq.
    set (d' := Build_InboundLaneData (relayers d) (last_confirmed_nonce d) Closed).
    assert (Hd : lanes_wf c (Build_LaneStore (<[lane := d']> (InboundLanes (lanes s))) (OutboundLanes (lanes s))
                   (OutboundMessages (lanes s)))) by (apply lanes_wf_inbound; [done | by destruct (lw_inbound _ _ Hw _ _ Ed)]).
    refine (lanes_wf_outbound c _ _ lane _ m' f' Hd (queue_wf_state _ _ _ _ Closed Hq') _ _ Hm'); set_solver.
  - intros [= _ <-] _. unfold closing_after. cbn. rewrite Hl. cbn. rewrite lookup_delete_eq, delete_insert_eq.
    by apply (lanes_wf_purge c (lanes s) lane o' m' f').
Qed.

(** Nothing before the oldest unpruned message is stored. *)
Lemma try_state_wf c (s : State) : lanes_wf c (lanes s) -> do_try_state_for_outbound_lanes s = true.
Proof.
  intros Hw. apply forallb_forall. intros [lane o] Ho%list_elem_of_In%elem_of_map_to_list. apply bool_decide_eq_true.
  destruct (lw_outbound _ _ Hw _ _ Ho) as (f & Hq & _). unfold unpruned_message_nonces.
  destruct (word_checked_sub _ 1) as [e |] eqn:He; [| done].
  assert (e = oldest_unpruned_nonce o - 1) as ->.
  { revert He. unfold word_checked_sub. destruct (_ <=? _); [| done]. by intros [= <-]. }
  apply elem_of_nil_inv. intros n [Hs Hn]%list_elem_of_filter. apply (qw_stored _ _ _ _ Hq) in Hs.
  unfold range_inclusive in Hn. apply elem_of_seqZ in Hn. pose proof (qw_oldest _ _ _ _ Hq). lia.
Qed.

Lemma lane_history_wf mode owner opened w s0 closing s :
  messages_genesis_build mode owner opened (blank w) = (Ok tt, s0) -> lane_history s0 closing s ->
  lanes_wf closing (lanes s).
Proof.
  intros [Hg Hm]%lanes_genesis_run Hh. induction Hh; eauto using pallet_step_wf, close_bridge_lanes_wf.
  split; [apply (sw_inbound _ Hg) | | by intros]. intros lane o Ho. destruct (sw_outbound _ Hg _ _ Ho) as [H1 H2 H3 H4 H5].
  exists (latest_received_nonce o + 1). split; [| done]. split; [by split | lia | |].
  - rewrite H4. unfold word_saturating_add, nonce_max in *. lia.
  - intros n. rewrite H5. lia.
Qed.

(** C12. The lanes of a chain's messages pallet stay in order: starting from genesis, whatever sequence of
    sends, relayer transactions with whatever proofs, owner calls, lane openings, changes of a lane's
    state and (partial or complete) closings of bridges the chain executes, every inbound lane keeps
    its unrewarded relayers as consecutive non-empty ranges between the last confirmed and the last
    delivered nonce, within both limits; every outbound lane stores exactly the messages from some
    nonce on, after the last confirmed and at or after the oldest unpruned one, up to the last sent,
    which are exactly the sent and not yet confirmed messages unless a closing of the lane is under
    way (it prunes unconfirmed messages); a lane that does not exist, or no longer, has no message in
    storage; and so the pallet's own check [do_try_state_for_outbound_lanes] passes.  Two things are
    excluded: a call that panics, which no block contains, and sending a message whose lane has changed
    since the message was validated (such a send writes back old lane data). *)
Theorem lanes_stay_in_order mode owner opened w s0 closing s :
  messages_genesis_build mode owner opened (blank w) = (Ok tt, s0) -> lane_history s0 closing s ->
  (forall lane d, InboundLanes (lanes s) !! lane = Some d ->
     chain (last_confirmed_nonce d) (relayers d) /\
     last_confirmed_nonce d <= last_delivered_nonce d <= nonce_max /\
     Z.of_nat (length (relayers d)) <= Z.max 0 MAX_UNREWARDED_RELAYERS_IN_CONFIRMATION_TX /\
     last_delivered_nonce d - last_confirmed_nonce d <= Z.max 0 MAX_UNCONFIRMED_MESSAGES_IN_CONFIRMATION_TX) /\
  (forall lane o, OutboundLanes (lanes s) !! lane = Some o ->
     0 <= latest_received_nonce o <= latest_generated_nonce o /\
     exists first, latest_received_nonce o < first <= latest_generated_nonce o + 1 /\
       oldest_unpruned_nonce o <= first /\
       (lane ∉ closing -> first = latest_received_nonce o + 1) /\
       forall n, is_Some (OutboundMessages (lanes s) !! (lane, n)) <-> first <= n <= latest_generated_nonce o) /\
  (forall lane n, OutboundLanes (lanes s) !! lane = None -> OutboundMessages (lanes s) !! (lane, n) = None) /\
  do_try_state_for_outbound_lanes s = true.
Proof.
  intros Hg Hr. pose proof (lane_history_wf _ _ _ _ _ _ _ Hg Hr) as Hw.
  split; [| split; [| split; [apply (lw_unopened _ _ Hw) | by apply (try_state_wf closing)]]].
  - intros lane d Hd. pose proof (lw_inbound _ _ Hw _ _ Hd) as Hwf. pose proof (inbound_order _ Hwf). destruct Hwf. split; [done | lia].
  - intros lane o Ho. destruct (lw_outbound _ _ Hw _ _ Ho) as (f & [[] Hf Hold Hst] & Hx). split; [lia |].
    exists f. split; [done |]. split; [lia |]. done.
Qed.

(** ** The inbound lane as a queue of couriers *)

(** What the lane promises: a confirmed nonce, and the couriers of the messages after it. *)
Record CourierQueue := { cq_confirmed : Z; cq_pending : list AccountId }.

Definition lane_queue (d : InboundLaneData) : CourierQueue :=
  {| cq_confirmed := last_confirmed_nonce d; cq_pending := couriers_of (relayers d) |}.

Definition queue_end (q : CourierQueue) : Z := cq_confirmed q + Z.of_nat (length (cq_pending q)).

Definition queue_deliver (r : AccountId) (q : CourierQueue) : CourierQueue :=
  {| cq_confirmed := cq_confirmed q; cq_pending := cq_pending q ++ [r] |}.

Definition queue_confirm (n : Z) (q : CourierQueue) : CourierQueue :=
  {| cq_confirmed := n; cq_pending := drop (Z.to_nat (n - cq_confirmed q)) (cq_pending q) |}.

Lemma queue_end_lane d : inbound_wf d -> queue_end (lane_queue d) = last_delivered_nonce d.
Proof.
  intros [_ Hc _ _ _]. unfold queue_end, lane_queue. simpl. pose proof (couriers_length _ _ Hc).
  rewrite last_delivered_chain. lia.
Qed.

(** C23. The inbound lane, which stores ranges of nonces per relayer, implements a queue of couriers:
    its data is determined by the confirmed nonce and the couriers of the unconfirmed messages; the
    nonce it reports as delivered is the end of the queue; receiving a message either appends its
    courier, when the nonce is the next one and both limits leave room, and writes exactly that lane,
    or leaves everything alone; receiving the source's lane state drops the confirmed couriers, when it
    confirms something that was delivered, and otherwise does nothing.  Neither operation panics. *)
Theorem inbound_lane_is_queue (h : RuntimeInboundLaneStorage) (s : State) :
  inbound_wf (ri_cached_data h) ->
  let d := ri_cached_data h in
  let q := lane_queue d in
  (forall d', inbound_wf d' -> lane_queue d' = q -> in_state d' = in_state d -> d' = d) /\
  last_delivered_nonce d = queue_end q /\
  (forall r n p, exists res h' s', receive_message h r n p s = (Ok (res, h'), s') /\
     inbound_wf (ri_cached_data h') /\ ri_lane_id h' = ri_lane_id h /\
     if decide (accepts d n)
     then n = queue_end q + 1 /\ lane_queue (ri_cached_data h') = queue_deliver r q /\
          lanes s' = lanes (put_inbound (ri_lane_id h) (ri_cached_data h') s)
     else h' = h /\ s' = s) /\
  (forall o, exists res h' s', receive_state_update h o s = (Ok (res, h'), s') /\
     inbound_wf (ri_cached_data h') /\ ri_lane_id h' = ri_lane_id h /\
     if decide (cq_confirmed q < latest_received_nonce o <= queue_end q)
     then res = Some (latest_received_nonce o) /\
          lane_queue (ri_cached_data h') = queue_confirm (latest_received_nonce o) q /\
          s' = put_inbound (ri_lane_id h) (ri_cached_data h') s
     else res = None /\ h' = h /\ s' = s).
Proof.
  intros Hw d q. pose proof (queue_end_lane d Hw) as Hq. fold q in Hq. split; [| split; [done | split]].
  - intros d' Hw' E Hst. injection E as E1 E2. by apply inbound_ext.
  - intros r n p. pose proof (receive_message_run h r n p s Hw) as Hr. cbv zeta in Hr. fold d in Hr.
    destruct (decide (accepts d n)) as [Ha | Ha].
    + destruct Hr as (d' & Hw' & H1 & H2 & H3 & H4 & Hr). destruct (dispatch _ (runtime s)) as [res w].
      eexists _, _, _. split; [exact Hr |]. split; [done |]. split; [done |]. split; [destruct Ha; lia |].
      split; [| done]. unfold lane_queue, queue_deliver. simpl. by rewrite H2, H4.
    + destruct Hr as (res & Hr & _). by eexists _, _, _.
  - intros o. pose proof (receive_state_update_run h o s Hw) as Hr. cbv zeta in Hr. fold d in Hr.
    rewrite Hq. change (cq_confirmed q) with (last_confirmed_nonce d).
    destruct (decide (last_confirmed_nonce d < latest_received_nonce o <= last_delivered_nonce d)) as [Hn | Hn].
    + rewrite bool_decide_eq_true_2 in Hr by done.
      destruct (confirmed_data_wf d (latest_received_nonce o) Hw ltac:(lia)) as (H1 & H2 & H3).
      eexists _, _, _. split; [exact Hr |]. split; [done |]. split; [done |]. split; [done |]. split; [| done].
      unfold lane_queue, queue_confirm. simpl in *. by rewrite H3.
    + rewrite bool_decide_eq_false_2 in Hr by done. by eexists _, _, _.
Qed.

(** ** A delivery call *)

(** C37. A delivery call is safe whatever a relayer passes: on lanes in order it never panics, an error
    leaves all storage as it was, and a call that returns has moved only the lane of the proof, by a
    run of consecutive messages of the proof starting right after the last delivered one, each
    dispatched exactly once and in order, all noted under the relayer's name, and has dispatched
    nothing else. *)
Theorem delivery_call_safe origin r proof count dw (s : State) :
  store_wf (lanes s) -> weight_wf dw -> count <= u32_max ->
  match receive_messages_proof origin r proof count dw s with
  | (Ok _, s') => exists data acc d d',
      verify_and_decode_messages_proof proof count (runtime s) = inr (mp_lane proof, data) /\
      InboundLanes (lanes s) !! mp_lane proof = Some d /\ in_state d = Opened /\
      lanes s' = Build_LaneStore (<[mp_lane proof := d']> (InboundLanes (lanes s))) (OutboundLanes (lanes s))
                   (OutboundMessages (lanes s)) /\
      last_delivered_nonce d' = last_delivered_nonce d + Z.of_nat (length acc) /\
      couriers_of (relayers d') =
        drop (Z.to_nat (last_confirmed_nonce d' - last_confirmed_nonce d)) (couriers_of (relayers d)) ++
        replicate (length acc) r /\
      (forall i m, acc !! i = Some m ->
         dmsg_key m = {| lane_id := mp_lane proof; nonce := last_delivered_nonce d + 1 + Z.of_nat i |}) /\
      taken_from (proved_messages data) acc /\
      (exists who total valid w, runtime s' = delivery_pay_reward who total valid w (dispatch_all acc (runtime s)))
  | (Err _, s') => s' = s
  | (Panic, _) => False
  end.
Proof.
  intros Hw Hdw Hc. pose proof (receive_messages_proof_run origin r proof count dw s (sw_inbound _ Hw) Hdw Hc) as E.
  destruct (receive_messages_proof origin r proof count dw s) as [[aw | e |] s']; [| done | done].
  destruct E as (data & acc & d & d' & HR). exists data, acc, d, d'.
  destruct (rc_delivers _ _ _ _ _ _ _ _ _ HR) as [s1 [_ _ Hcf _ Hco Hdel Hn _]]. simpl in Hcf, Hco, Hdel, Hn.
  destruct (state_update_wf (lane_state data) d (sw_inbound _ Hw _ _ (rc_lane _ _ _ _ _ _ _ _ _ HR))) as (_ & Hlu & _ & _ & Hcu).
  rewrite Hlu in Hdel, Hn. rewrite Hcu, <- Hcf in Hco.
  split; [apply HR |]. split; [apply HR |]. split; [apply HR |]. split; [apply HR |]. split; [done |].
  split; [done |]. split; [done |]. split; apply HR.
Qed.

(** ** The transaction pool's checks *)

Lemma valid_delivery proof (s : State) d :
  check_obsolete_call (ReceiveMessagesProofCall proof) s = (Ok Valid, s) ->
  InboundLanes (lanes s) !! mp_lane proof = Some d -> nonces_start proof <= nonces_end proof ->
  nonces_start proof = last_delivered_nonce d + 1.
Proof.
  intros Hc Hd Hr. unfold check_obsolete_call, bind, call_info in Hc. rewrite Hd in Hc. cbn in Hc.
  destruct (messages_is_halted _); [done |]. unfold delivery_is_obsolete in Hc. cbn in Hc.
  destruct (dispatcher_is_active _ _); [| done]. cbn in Hc. rewrite (proj2 (Z.ltb_ge _ _) Hr) in Hc.
  unfold appends_to_stored_nonce, word_checked_add in Hc. cbn in Hc.
  case_bool_decide as E; [| done]. destruct (_ <? _); [| done]. by injection E.
Qed.

Lemma delivered_range r proof count data acc d d' (s s' : State) : count <= u32_max -> inbound_wf d ->
  received r proof count data acc d d' s s' -> nonces_start proof <= nonces_end proof ->
  nonces_end proof = nonces_start proof + count - 1 /\
  last_delivered_nonce d' = last_delivered_nonce d + Z.of_nat (length acc).
Proof.
  intros Hc Hd HR Hr. destruct (verify_messages_range _ _ _ _ _ Hc (rc_proof _ _ _ _ _ _ _ _ _ HR)) as (_ & Hlen & Hk).
  apply (f_equal length) in Hk. rewrite !length_fmap in Hk. unfold range_inclusive in Hk. rewrite length_seqZ in Hk.
  split; [lia |]. destruct (rc_delivers _ _ _ _ _ _ _ _ _ HR) as [s1 [_ _ _ _ _ Hdel _ _]]. simpl in Hdel.
  by destruct (state_update_wf (lane_state data) d Hd) as (_ & <- & _).
Qed.

(** The pool's checks agree with the calls: a delivery transaction with messages that the check
    lets through, and whose call returns, is judged successful afterwards exactly when the lane has
    moved by all of the declared messages; and a confirmation transaction that the check lets through
    is judged successful exactly when the lane is then confirmed up to the nonce it declares, which is
    more than what was confirmed before. *)
Theorem pool_checks_exact (s : State) : store_wf (lanes s) ->
  (forall origin r proof count dw aw s' info d, weight_wf dw -> count <= u32_max ->
     check_obsolete_call (ReceiveMessagesProofCall proof) s = (Ok Valid, s) ->
     call_info (ReceiveMessagesProofCall proof) s = (Ok (Some info), s) ->
     nonces_start proof <= nonces_end proof ->
     InboundLanes (lanes s) !! mp_lane proof = Some d ->
     receive_messages_proof origin r proof count dw s = (Ok aw, s') ->
     nonces_start proof = last_delivered_nonce d + 1 /\
     exists d', InboundLanes (lanes s') !! mp_lane proof = Some d' /\
       (was_successful info s' = true <-> last_delivered_nonce d' = last_delivered_nonce d + count)) /\
  (forall origin proof rs aw s' info o,
     check_obsolete_call (ReceiveMessagesDeliveryProofCall proof rs) s = (Ok Valid, s) ->
     call_info (ReceiveMessagesDeliveryProofCall proof rs) s = (Ok (Some info), s) ->
     OutboundLanes (lanes s) !! dp_lane proof = Some o ->
     receive_messages_delivery_proof origin proof rs s = (Ok aw, s') ->
     latest_received_nonce o < rs_last_delivered_nonce rs /\ was_successful info s' = true).
Proof.
  intros Hw. split.
  - intros origin r proof count dw aw s' info d Hdw Hc Hchk Hinfo Hr Hd Hcall.
    pose proof (valid_delivery _ _ _ Hchk Hd Hr) as Hst. split; [done |].
    pose proof (receive_messages_proof_run origin r proof count dw s (sw_inbound _ Hw) Hdw Hc) as E. rewrite Hcall in E.
    destruct E as (data & acc & d0 & d' & HR). rewrite (rc_lane _ _ _ _ _ _ _ _ _ HR) in Hd. injection Hd as ->.
    destruct (delivered_range _ _ _ _ _ _ _ _ _ Hc (sw_inbound _ Hw _ _ (rc_lane _ _ _ _ _ _ _ _ _ HR)) HR Hr) as [He Hdel].
    assert (Hd' : InboundLanes (lanes s') !! mp_lane proof = Some d') by (rewrite (rc_lanes _ _ _ _ _ _ _ _ _ HR); apply lookup_insert_eq).
    exists d'. split; [done |]. unfold call_info in Hinfo. rewrite (rc_lane _ _ _ _ _ _ _ _ _ HR) in Hinfo. injection Hinfo as <-.
    unfold was_successful. cbn [bi_lane_id bundled_begin bundled_end]. rewrite Hd', (proj2 (Z.ltb_ge _ _) Hr), Z.eqb_eq. lia.
  - intros origin proof rs aw s' info o Hchk Hinfo Ho Hcall.
    pose proof (ow_nonneg _ _ _ (sw_outbound _ Hw _ _ Ho)) as Hr. unfold call_info in Hinfo. rewrite Ho in Hinfo.
    unfold bind in Hinfo. rewrite nonce_add_ok in Hinfo by lia. injection Hinfo as <-.
    assert (Hlt : latest_received_nonce o < rs_last_delivered_nonce rs).
    { unfold check_obsolete_call, call_info in Hchk. unfold bind at 1 in Hchk. rewrite Ho in Hchk.
      unfold bind at 1 in Hchk. rewrite nonce_add_ok in Hchk by lia. cbn in Hchk.
      destruct (messages_is_halted _); [done |]. unfold confirmation_is_obsolete in Hchk. cbn in Hchk.
      destruct (Z.ltb_spec (rs_last_delivered_nonce rs) (latest_received_nonce o + 1)); [done | lia]. }
    split; [done |].
    destruct (receive_messages_delivery_proof_guards origin proof rs s)
      as [[e He] | (who & ld & o1 & -> & Hh & Hv & Hrs & Ho1)]; [congruence |].
    rewrite Ho in Ho1. injection Ho1 as <-.
    pose proof (receive_messages_delivery_proof_eq who proof rs s ld o Hh Hv Hrs Ho
      (ow_nonces _ _ _ (sw_outbound _ Hw _ _ Ho))) as E.
    cbv zeta in E. rewrite Hcall in E. unfold relayers_state_is_valid in Hrs. apply bool_decide_eq_true in Hrs. subst rs.
    cbn [rs_last_delivered_nonce UnrewardedRelayersState_from] in *.
    destruct E as [(Hle & _) | (_ & _ & _ & _ & Hl & _)]; [lia |].
    unfold was_successful. cbn [bi_lane_id bundled_end]. rewrite Hl. cbn [OutboundLanes]. rewrite lookup_insert_eq.
    apply Z.eqb_refl.
Qed.

(** ** Sends validated together *)

(** A validated message carries a copy of the lane's data, so two messages that are validated one
    after the other and then both sent get the same nonce, although [send_message] is documented to
    return a unique one: the first payload is overwritten in storage and the lane counts one message. *)
Theorem stale_send_overwrites lane p1 p2 (s : State) args1 args2 s1 s2 :
  store_wf (lanes s) ->
  validate_message lane p1 s = (Ok args1, s1) -> validate_message lane p2 s1 = (Ok args2, s2) ->
  exists o, OutboundLanes (lanes s) !! lane = Some o /\
  (latest_generated_nonce o < nonce_max ->
   exists a1 a2 s3 s4, send_message args1 s2 = (Ok a1, s3) /\ send_message args2 s3 = (Ok a2, s4) /\
     art_nonce a1 = art_nonce a2 /\
     OutboundLanes (lanes s4) !! lane = Some (sent_data o) /\
     OutboundMessages (lanes s4) = <[(lane, art_nonce a2) := p2]> (OutboundMessages (lanes s))).
Proof.
  intros Hw Hv1 Hv2. apply validate_message_run in Hv1 as (-> & o & Ho & _ & _ & ->).
  apply validate_message_run in Hv2 as (-> & o' & Ho' & _ & _ & ->). rewrite Ho in Ho'. injection Ho' as <-.
  exists o. split; [done |]. intros Hg. pose proof (ow_nonneg _ _ _ (sw_outbound _ Hw _ _ Ho)) as Hr.
  pose proof (send_message_run lane o p1 s Hr) as E1. destruct (send_message _ s) as [[a1 | e |] s3]; [| done | lia].
  pose proof (send_message_run lane o p2 s3 Hr) as E2. destruct (send_message _ s3) as [[a2 | e |] s4] eqn:Hs2; [| done | lia].
  destruct E1 as (_ & Hn1 & _ & _ & Hl1), E2 as (_ & Hn2 & _ & _ & Hl2).
  exists a1, a2, s3, s4. split; [done |]. split; [done |]. split; [congruence |].
  rewrite Hl2, Hl1. simpl. split; [apply lookup_insert_eq |]. by rewrite insert_insert_eq, Hn2.
Qed.
End invariant.
