(* ===== verification/BridgeProtocol.v ===== *)
(** * Two chains and a lane between them

    One direction of a bridge: a source chain with the outbound end of a lane, a target chain with the
    inbound end, each running the messages pallet, and relayers that carry storage proofs between them.
    Nothing is assumed of the relayers: a step may run a relayer call with any arguments.  The only
    thing the chains can rely on is that a proof their header chain accepts shows the lanes of the other
    chain as they were at some earlier time ([headers_sound]); it may be arbitrarily old.

    [sent] and [couriers] record, for the lane, the payloads accepted for sending and who was named as
    the courier of each delivered message.  Everything else a chain does is a frame step: it leaves the
    nonces and messages of its end of the lane alone.  The lemmas [reverse_send_frame], [reverse_delivery_frame],
    [reverse_confirmation_frame] and [other_lane_send_frame] show that the pallet's other traffic, in the
    opposite direction or on other lanes, consists of such steps. *)

From stdpp Require Import base tactics numbers list gmap relations.
From S2P Require Import Prelude Dispatch System BalancesCalls Words BridgeLanes BridgeMessages BridgeLaneFacts.
From S2P Require Import BridgeMessagesFacts BridgeInvariant.
Local Open Scope Z_scope.

(** ** What the protocol sees of a runtime *)

(** A call of [DeliveryConfirmationPayments::pay_reward]. *)
Record Reward := { rw_lane : LaneId; rw_relayers : list UnrewardedRelayer; rw_begin : Z; rw_end : Z }.

(** A runtime that remembers the messages it was given and the rewards it was asked to pay. *)
Class ObservedRuntime (W : Type) `{MD : MessageDispatch W} `{PY : Payments W} := {
  dispatched : W -> list (DispatchMessage DispatchPayload);
  rewarded : W -> list Reward;
  dispatch_observed m w : dispatched (snd (dispatch m w)) = dispatched w ++ [m] /\
                          rewarded (snd (dispatch m w)) = rewarded w;
  delivery_pay_observed who total valid wt w :
    dispatched (delivery_pay_reward who total valid wt w) = dispatched w /\
    rewarded (delivery_pay_reward who total valid wt w) = rewarded w;
  confirmation_pay_observed lane l who a b w k w' :
    confirmation_pay_reward lane l who a b w = (Ok k, w') ->
    dispatched w' = dispatched w /\
    rewarded w' = rewarded w ++ [{| rw_lane := lane; rw_relayers := l; rw_begin := a; rw_end := b |}];
  on_delivered_observed lane q w :
    dispatched (on_messages_delivered lane q w) = dispatched w /\
    rewarded (on_messages_delivered lane q w) = rewarded w;
}.

(** What a checker may return: values of one storage, or nothing for an optional one. *)
Class StorageProofs (W : Type) `{HC : HeaderChain W} := {
  shows : StorageProofChecker -> LaneStore -> Prop;
  shows_message c l k p c' : shows c l -> read_message_payload k c = (inr p, c') ->
    OutboundMessages l !! (lane_id k, nonce k) = Some p /\ shows c' l;
  shows_outbound c l lane o c' : shows c l -> read_outbound_lane_data lane c = (inr o, c') ->
    (forall x, o = Some x -> OutboundLanes l !! lane = Some x) /\ shows c' l;
  shows_inbound c l lane d c' : shows c l -> read_inbound_lane_data lane c = (inr d, c') ->
    InboundLanes l !! lane = Some d /\ shows c' l;
}.

(** Every proof the header chain accepts is of one of the storages [past]. *)
Definition headers_sound {W} `{HC : HeaderChain W} `{SP : !StorageProofs W} (past : list LaneStore) (w : W) : Prop :=
  forall h p c, verify_storage_proof h p w = inr c -> exists l, l ∈ past /\ shows c l.

Section proofs.
Context {W : Type} `{MD : MessageDispatch W} `{HC : HeaderChain W} `{SP : !StorageProofs W}.

Lemma read_messages_shown lane ns c ms c' l : shows c l -> read_messages lane ns c = inr (ms, c') ->
  shows c' l /\ forall m, m ∈ ms -> lane_id (msg_key m) = lane /\
    OutboundMessages l !! (lane, nonce (msg_key m)) = Some (msg_payload m).
Proof.
  revert c ms. induction ns as [| n ns IH]; intros c ms Hc; simpl.
  { intros [= <- <-]. split; [done |]. by intros m ?%not_elem_of_nil. }
  destruct (read_message_payload _ c) as [[e | p] c1] eqn:Ep; [done |].
  destruct (shows_message _ _ _ _ _ Hc Ep) as [Hp Hc1].
  destruct (read_messages lane ns c1) as [e | [ms1 c2]] eqn:E; [done |]. intros [= <- <-].
  destruct (IH _ _ Hc1 E) as [Hc2 Hms]. split; [done |]. intros m [-> | Hm]%elem_of_cons; [done | by apply Hms].
Qed.

(** A verified messages proof tells the truth about an earlier storage of the other chain. *)
Lemma verified_messages past proof count (w : W) lane data :
  headers_sound past w -> verify_and_decode_messages_proof proof count w = inr (lane, data) ->
  exists l, l ∈ past /\
    (forall o, lane_state data = Some o -> OutboundLanes l !! lane = Some o) /\
    (forall m, m ∈ proved_messages data -> lane_id (dmsg_key m) = lane /\
       exists p, OutboundMessages l !! (lane, nonce (dmsg_key m)) = Some p /\ dmsg_payload m = decode_payload p).
Proof.
  intros Hh. unfold verify_and_decode_messages_proof, verify_messages_proof.
  destruct (verify_storage_proof _ _ w) as [e | c] eqn:Ev; [done |]. destruct (Hh _ _ _ Ev) as (l & Hl & Hc).
  destruct (negb _); [done |]. destruct (read_messages _ _ c) as [e | [ms c1]] eqn:Er; [done |].
  destruct (read_messages_shown _ _ _ _ _ _ Hc Er) as [Hc1 Hms].
  destruct (read_outbound_lane_data _ c1) as [[e | st] c2] eqn:Eo; [done |].
  destruct (shows_outbound _ _ _ _ _ Hc1 Eo) as [Ho _].
  destruct (_ && _); [done |]. destruct (ensure_no_unused_keys c2); [done |]. intros [= <- <-].
  exists l. split; [done |]. split; [done |]. simpl. intros m Hm.
  apply list_elem_of_fmap in Hm as (m0 & -> & Hm0). destruct (Hms _ Hm0) as [H1 H2].
  split; [done |]. by eexists.
Qed.

Lemma verified_delivery past proof (w : W) lane ld :
  headers_sound past w -> verify_messages_delivery_proof proof w = inr (lane, ld) ->
  exists l, l ∈ past /\ InboundLanes l !! lane = Some ld.
Proof.
  intros Hh. unfold verify_messages_delivery_proof.
  destruct (verify_storage_proof _ _ w) as [e | c] eqn:Ev; [done |]. destruct (Hh _ _ _ Ev) as (l & Hl & Hc).
  destruct (read_inbound_lane_data _ c) as [[e | d] c1] eqn:Ed; [done |].
  destruct (shows_inbound _ _ _ _ _ Hc Ed) as [Hd _]. destruct (ensure_no_unused_keys c1); [done |].
  intros [= <- <-]. by exists l.
Qed.
End proofs.

(** ** The protocol *)

Section protocol.
Context {WA : Type} {MDA : MessageDispatch WA} {BCA : BridgedChain} {HCA : HeaderChain WA} {PYA : Payments WA}.
Context {MCA : MessagesConfig} {DLA : DispatchLaws WA} {OBA : ObservedRuntime WA} {SPA : StorageProofs WA}.
Context {WB : Type} {MDB : MessageDispatch WB} {BCB : BridgedChain} {HCB : HeaderChain WB} {PYB : Payments WB}.
Context {MCB : MessagesConfig} {DLB : DispatchLaws WB} {OBB : ObservedRuntime WB} {SPB : StorageProofs WB}.
Variable lane : LaneId.

Abbreviation Source := (BridgeState WA).
Abbreviation Target := (BridgeState WB).
Abbreviation Payload := (@DispatchPayload WB MDB).

Record World := {
  source : Source;
  target : Target;
  sent : list (list Z);
  couriers : list AccountId;
  source_past : list LaneStore;
  target_past : list LaneStore;
}.

(** ** Frames *)

Definition same_nonces (o o' : OutboundLaneData) : Prop :=
  latest_received_nonce o' = latest_received_nonce o /\ latest_generated_nonce o' = latest_generated_nonce o.

Definition same_deliveries (d d' : InboundLaneData) : Prop :=
  relayers d' = relayers d /\ last_confirmed_nonce d' = last_confirmed_nonce d.

Definition lane_messages (ms : list (DispatchMessage Payload)) : list (DispatchMessage Payload) :=
  filter (fun m => lane_id (dmsg_key m) = lane) ms.

Definition lane_rewards (rs : list Reward) : list Reward := filter (fun r => rw_lane r = lane) rs.

(** The source chain does something else. *)
Record source_frame (s s' : Source) : Prop := {
  sf_wf : store_wf (BC := BCA) (lanes s) -> store_wf (BC := BCA) (lanes s');
  sf_lane o : OutboundLanes (lanes s) !! lane = Some o ->
    exists o', OutboundLanes (lanes s') !! lane = Some o' /\ same_nonces o o';
  sf_messages n : OutboundMessages (lanes s') !! (lane, n) = OutboundMessages (lanes s) !! (lane, n);
  sf_rewards : lane_rewards (rewarded (runtime s')) = lane_rewards (rewarded (runtime s));
}.

(** The target chain does something else. *)
Record target_frame (s s' : Target) : Prop := {
  tf_wf : store_wf (BC := BCB) (lanes s) -> store_wf (BC := BCB) (lanes s');
  tf_lane d : InboundLanes (lanes s) !! lane = Some d ->
    exists d', InboundLanes (lanes s') !! lane = Some d' /\ same_deliveries d d';
  tf_dispatched : lane_messages (dispatched (runtime s')) = lane_messages (dispatched (runtime s));
}.

(** ** Steps *)

Definition delivered_at (s : Target) : Z := from_option last_delivered_nonce 0 (InboundLanes (lanes s) !! lane).

Definition move_source (w : World) (s : Source) (new : list (list Z)) : World :=
  Build_World s (target w) (sent w ++ new) (couriers w) (lanes s :: source_past w) (target_past w).

Definition move_target (w : World) (s : Target) (r : AccountId) : World :=
  Build_World (source w) s (sent w)
    (couriers w ++ replicate (Z.to_nat (delivered_at s - delivered_at (target w))) r)
    (source_past w) (lanes s :: target_past w).

Inductive step (w : World) : World -> Prop :=
  | step_idle : step w w
  | step_send p args s1 a s2 :
      validate_message (BC := BCA) (MC := MCA) lane p (source w) = (Ok args, s1) ->
      send_message args s1 = (Ok a, s2) -> step w (move_source w s2 [p])
  | step_deliver origin r proof count dw res s2 :
      weight_wf dw -> count <= u32_max -> headers_sound (source_past w) (runtime (target w)) ->
      receive_messages_proof (BC := BCB) (MC := MCB) origin r proof count dw (target w) = (res, s2) ->
      step w (move_target w s2 r)
  | step_confirm origin proof rs res s2 :
      headers_sound (target_past w) (runtime (source w)) ->
      receive_messages_delivery_proof (MC := MCA) origin proof rs (source w) = (res, s2) -> res <> Panic ->
      step w (move_source w s2 [])
  | step_source s2 : source_frame (source w) s2 -> step w (move_source w s2 [])
  | step_target s2 r : target_frame (target w) s2 -> step w (move_target w s2 r).

(** The lane is newly opened at both ends. *)
Record initial (w : World) : Prop := {
  in_source_wf : store_wf (BC := BCA) (lanes (source w));
  in_target_wf : store_wf (BC := BCB) (lanes (target w));
  in_out : OutboundLanes (lanes (source w)) !! lane = Some OutboundLaneData_opened;
  in_in : InboundLanes (lanes (target w)) !! lane = Some InboundLaneData_opened;
  in_sent : sent w = [];
  in_couriers : couriers w = [];
  in_source_past : source_past w = [lanes (source w)];
  in_target_past : target_past w = [lanes (target w)];
  in_dispatched : lane_messages (dispatched (runtime (target w))) = [];
  in_rewarded : lane_rewards (rewarded (runtime (source w))) = [];
}.

Definition reachable (w : World) : Prop := exists w0, initial w0 /\ rtc step w0 w.

(** ** The invariant *)

(** The [i]-th message sent, as the target's dispatcher gets it. *)
Definition as_dispatched (i : nat) (p : list Z) : DispatchMessage Payload :=
  Build_DispatchMessage {| lane_id := lane; nonce := Z.of_nat i + 1 |} (decode_payload p).

(** The messages of a storage of the source are messages sent, at their places. *)
Definition messages_sent (w : World) (l : LaneStore) : Prop :=
  forall n p, OutboundMessages l !! (lane, n) = Some p -> 1 <= n /\ sent w !! Z.to_nat (n - 1) = Some p.

Definition knows_couriers (w : World) (d : InboundLaneData) : Prop :=
  couriers_of (relayers d) =
  take (Z.to_nat (last_delivered_nonce d - last_confirmed_nonce d)) (drop (Z.to_nat (last_confirmed_nonce d)) (couriers w)).

(** The relayers of a reward are the ranges of a lane in order. *)
Definition payable (x : Reward) : Prop :=
  exists c, 0 <= c /\ chain c (rw_relayers x) /\ chain_end c (rw_relayers x) <= nonce_max.

Record inv (w : World) (o : OutboundLaneData) (d : InboundLaneData) : Prop := {
  i_source_wf : store_wf (BC := BCA) (lanes (source w));
  i_target_wf : store_wf (BC := BCB) (lanes (target w));
  i_out : OutboundLanes (lanes (source w)) !! lane = Some o;
  i_in : InboundLanes (lanes (target w)) !! lane = Some d;
  i_generated : latest_generated_nonce o = Z.of_nat (length (sent w));
  i_delivered : last_delivered_nonce d = Z.of_nat (length (couriers w));
  i_order : last_confirmed_nonce d <= latest_received_nonce o <= last_delivered_nonce d /\
            last_delivered_nonce d <= latest_generated_nonce o;
  i_source_past l : l ∈ source_past w -> messages_sent w l /\
    exists o', OutboundLanes l !! lane = Some o' /\ latest_received_nonce o' <= latest_received_nonce o;
  i_source_now : lanes (source w) ∈ source_past w;
  i_target_past l : l ∈ target_past w ->
    exists d', InboundLanes l !! lane = Some d' /\ inbound_wf (BC := BCB) d' /\ knows_couriers w d' /\
      last_delivered_nonce d' <= last_delivered_nonce d /\ last_confirmed_nonce d' <= latest_received_nonce o;
  i_target_now : lanes (target w) ∈ target_past w;
  i_dispatched : lane_messages (dispatched (runtime (target w))) =
                 imap as_dispatched (take (Z.to_nat (last_delivered_nonce d)) (sent w));
  i_rewarded r : list_sum (fun x => due r (rw_relayers x) (rw_begin x) (rw_end x))
                   (lane_rewards (rewarded (runtime (source w)))) =
                 occ r (take (Z.to_nat (latest_received_nonce o)) (couriers w));
  i_payable : Forall payable (lane_rewards (rewarded (runtime (source w))));
}.

Lemma inv_orders w o d : inv w o d ->
  0 <= last_confirmed_nonce d /\ 0 <= latest_received_nonce o < nonce_max /\ latest_generated_nonce o <= nonce_max.
Proof.
  intros H. destruct (sw_outbound _ (i_source_wf _ _ _ H) _ _ (i_out _ _ _ H)) as [H1 _ H3 _ _].
  destruct (sw_inbound _ (i_target_wf _ _ _ H) _ _ (i_in _ _ _ H)) as [H4 _ _ _ _]. lia.
Qed.

Lemma inv_initial w : initial w -> inv w OutboundLaneData_opened InboundLaneData_opened.
Proof.
  intros []. split; try done.
  - by rewrite in_sent0.
  - by rewrite in_couriers0.
  - rewrite in_source_past0. intros l ->%list_elem_of_singleton. split; [| by eexists].
    intros n p Hp. destruct (sw_outbound _ in_source_wf0 _ _ in_out0) as [_ _ _ _ Hst].
    assert (H : is_Some (OutboundMessages (lanes (source w)) !! (lane, n))) by by eexists.
    apply Hst in H. simpl in H. lia.
  - rewrite in_source_past0. left.
  - rewrite in_target_past0. intros l ->%list_elem_of_singleton. eexists. split; [done |].
    split; [apply inbound_wf_opened |]. split; [| done]. unfold knows_couriers. by rewrite in_couriers0.
  - rewrite in_target_past0. left.
  - intros r. by rewrite in_rewarded0, in_couriers0.
  - by rewrite in_rewarded0.
Qed.

(** ** Moves of one end *)

Lemma messages_sent_app w s new l : messages_sent w l -> messages_sent (move_source w s new) l.
Proof.
  intros H n p Hp. destruct (H n p Hp) as [H1 H2]. split; [done |]. simpl. by apply lookup_app_l_Some.
Qed.

Lemma inv_move_source w o d s new o' : inv w o d ->
  store_wf (BC := BCA) (lanes s) -> OutboundLanes (lanes s) !! lane = Some o' ->
  latest_received_nonce o <= latest_received_nonce o' <= last_delivered_nonce d ->
  latest_generated_nonce o' = latest_generated_nonce o + Z.of_nat (length new) ->
  messages_sent (move_source w s new) (lanes s) ->
  (forall r, list_sum (fun x => due r (rw_relayers x) (rw_begin x) (rw_end x)) (lane_rewards (rewarded (runtime s))) =
             occ r (take (Z.to_nat (latest_received_nonce o')) (couriers w))) ->
  Forall payable (lane_rewards (rewarded (runtime s))) ->
  inv (move_source w s new) o' d.
Proof.
  intros H Hwf Ho Hr Hg Hm Hrw Hpay. pose proof (i_generated _ _ _ H) as Hgen. pose proof (i_order _ _ _ H) as Hord.
  split; simpl; try apply H; try done.
  - rewrite length_app. lia.
  - lia.
  - intros l [-> | Hl]%elem_of_cons; [split; [done | eexists; split; [done | lia]] |].
    destruct (i_source_past _ _ _ H l Hl) as [H1 (o1 & H2 & H3)]. split; [by apply messages_sent_app |].
    eexists. split; [done | lia].
  - left.
  - intros l Hl. destruct (i_target_past _ _ _ H l Hl) as (d' & H1 & H2 & H3 & H4 & H5).
    exists d'. split; [done |]. split; [done |]. split; [done |]. lia.
  - rewrite (i_dispatched _ _ _ H). f_equal. rewrite take_app_le; [done | lia].
Qed.

Lemma knows_couriers_app w s r d : 0 <= last_confirmed_nonce d <= last_delivered_nonce d ->
  last_delivered_nonce d <= Z.of_nat (length (couriers w)) ->
  knows_couriers w d -> knows_couriers (move_target w s r) d.
Proof.
  unfold knows_couriers. simpl. intros H1 H2 ->. rewrite drop_app_le by lia.
  rewrite take_app_le; [done |]. rewrite length_drop. lia.
Qed.

Lemma inv_move_target w o d s r d' : inv w o d ->
  store_wf (BC := BCB) (lanes s) -> InboundLanes (lanes s) !! lane = Some d' ->
  last_delivered_nonce d <= last_delivered_nonce d' <= latest_generated_nonce o ->
  last_confirmed_nonce d' <= latest_received_nonce o ->
  knows_couriers (move_target w s r) d' ->
  lane_messages (dispatched (runtime s)) =
    imap as_dispatched (take (Z.to_nat (last_delivered_nonce d')) (sent w)) ->
  inv (move_target w s r) o d'.
Proof.
  intros H Hwf Hd Hdel Hc Hk Hlog. pose proof (i_order _ _ _ H) as Hord. pose proof (i_delivered _ _ _ H) as Hlen.
  split; simpl; try apply H; try done.
  - unfold delivered_at. rewrite Hd, (i_in _ _ _ H). simpl. rewrite length_app, length_replicate. lia.
  - lia.
  - intros l [-> | Hl]%elem_of_cons.
    { exists d'. split; [done |]. split; [by eapply sw_inbound |]. split; [done |]. lia. }
    destruct (i_target_past _ _ _ H l Hl) as (d1 & H1 & H2 & H3 & H4 & H5). exists d1.
    split; [done |]. split; [done |]. split; [| lia].
    apply knows_couriers_app; [by apply inbound_order | lia | done].
  - left.
  - intros r'. rewrite (i_rewarded _ _ _ H). f_equal. rewrite take_app_le; [done | lia].
Qed.

Lemma messages_now w o d : inv w o d -> messages_sent w (lanes (source w)).
Proof. intros H. by apply (i_source_past _ _ _ H), (i_source_now _ _ _ H). Qed.

Lemma inv_source_frame w o d s : inv w o d -> source_frame (source w) s ->
  exists o', inv (move_source w s []) o' d /\ same_nonces o o'.
Proof.
  intros H [F1 F2 F3 F4]. destruct (F2 _ (i_out _ _ _ H)) as (o' & Ho & Hr & Hg). exists o'. split; [| done].
  pose proof (i_order _ _ _ H). apply (inv_move_source w o); [done | apply F1, (i_source_wf _ _ _ H) | done | lia | simpl; lia | | |].
  - apply messages_sent_app. intros n p. rewrite F3. apply (messages_now _ _ _ H).
  - intros r. rewrite F4, Hr. apply (i_rewarded _ _ _ H).
  - rewrite F4. apply (i_payable _ _ _ H).
Qed.

Lemma same_deliveries_last d d' : same_deliveries d d' -> last_delivered_nonce d' = last_delivered_nonce d.
Proof. intros [H1 H2]. unfold last_delivered_nonce. by rewrite H1, H2. Qed.

Lemma knows_now w o d : inv w o d -> knows_couriers w d.
Proof.
  intros H. destruct (i_target_past _ _ _ H _ (i_target_now _ _ _ H)) as (d' & H1 & _ & H2 & _).
  rewrite (i_in _ _ _ H) in H1. by injection H1 as <-.
Qed.

Lemma inv_target_frame w o d s r : inv w o d -> target_frame (target w) s ->
  exists d', inv (move_target w s r) o d' /\ same_deliveries d d'.
Proof.
  intros H [F1 F2 F3]. destruct (F2 _ (i_in _ _ _ H)) as (d' & Hd & Hs). exists d'. split; [| done].
  pose proof (same_deliveries_last _ _ Hs) as Hl. pose proof Hs as [Hs1 Hs2]. pose proof (i_order _ _ _ H).
  apply (inv_move_target w o d); [done | apply F1, (i_target_wf _ _ _ H) | done | lia | lia | |].
  - pose proof (inbound_order _ (sw_inbound _ (i_target_wf _ _ _ H) _ _ (i_in _ _ _ H))).
    pose proof (i_delivered _ _ _ H). pose proof (knows_now _ _ _ H) as Hk.
    apply (knows_couriers_app w s r) in Hk; [| lia | lia]. unfold knows_couriers in *. by rewrite Hs1, Hs2, Hl.
  - rewrite F3, Hl. apply (i_dispatched _ _ _ H).
Qed.

(** ** Sending *)

Lemma inv_send w o d p args s1 a s2 : inv w o d ->
  validate_message (BC := BCA) (MC := MCA) lane p (source w) = (Ok args, s1) ->
  send_message args s1 = (Ok a, s2) -> inv (move_source w s2 [p]) (sent_data o) d.
Proof.
  intros H Hv Hs. apply validate_message_run in Hv as (-> & o1 & Ho & _ & _ & ->).
  rewrite (i_out _ _ _ H) in Ho. injection Ho as <-. pose proof (inv_orders _ _ _ H) as (_ & Hr & _).
  pose proof (send_message_run lane o p (source w) Hr) as Hrun. rewrite Hs in Hrun.
  destruct Hrun as (Hg & _ & _ & Hrt & Hl). pose proof (i_order _ _ _ H). pose proof (i_generated _ _ _ H) as Hgen.
  pose proof (sw_outbound _ (i_source_wf _ _ _ H) _ _ (i_out _ _ _ H)) as How.
  apply (inv_move_source w o); [done | | | simpl; lia | simpl; lia | | |].
  - rewrite Hl. apply store_wf_outbound; [apply (i_source_wf _ _ _ H) | by apply sent_data_wf |].
    intros k Hk. rewrite lookup_insert_ne; [done |]. by intros <-.
  - rewrite Hl. apply lookup_insert_eq.
  - rewrite Hl. intros n q. simpl. destruct (decide (n = latest_generated_nonce o + 1)) as [-> | Hne].
    + rewrite lookup_insert_eq. intros [= <-]. split; [lia |].
      rewrite lookup_app_r by lia. by replace (Z.to_nat _ - _)%nat with 0%nat by lia.
    + rewrite lookup_insert_ne by congruence. intros Hq.
      destruct (messages_now _ _ _ H _ _ Hq). split; [done |]. by apply lookup_app_l_Some.
  - intros r. rewrite Hrt. apply (i_rewarded _ _ _ H).
  - rewrite Hrt. apply (i_payable _ _ _ H).
Qed.

(** ** Confirming *)

Lemma occ_confirmed r (l : list AccountId) a b c : 0 <= c <= a -> a <= b ->
  occ r (take (Z.to_nat b) l) = occ r (take (Z.to_nat a) l) +
    occ r (drop (Z.to_nat (a + 1 - 1 - c)) (take (Z.to_nat (b - c)) (drop (Z.to_nat c) l))).
Proof.
  intros H1 H2. rewrite take_drop_commute, drop_drop. rewrite <- occ_app. f_equal.
  replace (Z.to_nat c + Z.to_nat (a + 1 - 1 - c))%nat with (Z.to_nat a) by lia.
  replace (Z.to_nat c + Z.to_nat (b - c))%nat with (Z.to_nat b) by lia.
  rewrite <- (take_drop (Z.to_nat a) (take (Z.to_nat b) l)) at 1. rewrite take_take. f_equal. f_equal. lia.
Qed.

(** What a confirmation on another lane leaves alone. *)
Lemma lane_rewards_other rs x : rw_lane x <> lane -> lane_rewards (rs ++ [x]) = lane_rewards rs.
Proof. intros. unfold lane_rewards. rewrite filter_app, filter_cons_False by done. by rewrite app_nil_r. Qed.

Lemma lane_rewards_app rs x : rw_lane x = lane -> lane_rewards (rs ++ [x]) = lane_rewards rs ++ [x].
Proof. intros. unfold lane_rewards. rewrite filter_app, filter_cons_True by done. done. Qed.

Lemma inv_same_lanes w o d s : inv w o d -> lanes s = lanes (source w) ->
  lane_rewards (rewarded (runtime s)) = lane_rewards (rewarded (runtime (source w))) ->
  inv (move_source w s []) o d.
Proof.
  intros H Hl Hrw. destruct (inv_source_frame w o d s H) as (o' & Ho' & _).
  - split; [by rewrite Hl | intros o1 Ho1; exists o1; by rewrite Hl | by rewrite Hl | done].
  - pose proof (i_out _ _ _ Ho') as E. simpl in E. rewrite Hl, (i_out _ _ _ H) in E. by injection E as <-.
Qed.

(** A confirmation moves the lane it is for to the nonce it proves. *)
Lemma inv_confirms w o d proof ld o1 s2 : inv w o d ->
  verify_messages_delivery_proof proof (runtime (source w)) = inr (dp_lane proof, ld) ->
  headers_sound (target_past w) (runtime (source w)) ->
  OutboundLanes (lanes (source w)) !! dp_lane proof = Some o1 ->
  latest_received_nonce o1 < last_delivered_nonce ld <= latest_generated_nonce o1 -> last_delivered_nonce ld < nonce_max ->
  confirms (dp_lane proof) o1 (last_delivered_nonce ld) (relayers ld) (source w) s2 ->
  inv (move_source w s2 []) (if decide (dp_lane proof = lane) then confirmed_out (last_delivered_nonce ld) o else o) d.
Proof.
  intros H Hv Hh Ho1 Hn Hm (Hl & who' & k & wr & q & Hpay & Hq). pose proof (i_order _ _ _ H) as Hord.
  pose proof (i_source_wf _ _ _ H) as Hwf. pose proof (sw_outbound _ Hwf _ _ Ho1) as How1.
  destruct (confirmation_pay_observed _ _ _ _ _ _ _ _ Hpay) as [_ Hrw].
  pose proof (proj2 (on_delivered_observed (dp_lane proof) q wr)) as Hod. rewrite Hrw, <- Hq in Hod.
  assert (Hwf2 : store_wf (BC := BCA) (lanes s2)).
  { rewrite Hl. apply store_wf_outbound; [done | apply confirmed_out_wf; [done | lia | done] |].
    intros x Hx. rewrite pruned_lookup, decide_False; [done |]. by intros [Ex _]. }
  assert (Hms : messages_sent (move_source w s2 []) (lanes s2)).
  { apply messages_sent_app. rewrite Hl. intros n p. simpl. rewrite pruned_lookup.
    destruct (decide _); [done |]. apply (messages_now _ _ _ H). }
  destruct (decide (dp_lane proof = lane)) as [Elane | Hne].
  - rewrite Elane in *. rewrite (i_out _ _ _ H) in Ho1. injection Ho1 as <-.
    destruct (verified_delivery _ _ _ _ _ Hh Hv) as (l & Hpast & Hld).
    destruct (i_target_past _ _ _ H l Hpast) as (d' & Hd' & Hwd & Hk & Hdel & Hc). rewrite Hd' in Hld. injection Hld as ->.
    pose proof (inbound_order _ Hwd). destruct Hwd as [_ Hch Hmax _ _].
    apply (inv_move_source w o); [done | done | rewrite Hl; apply lookup_insert_eq | simpl; lia | simpl; lia | done | |].
    + intros r. rewrite Hod, lane_rewards_app by done. rewrite list_sum_app, (i_rewarded _ _ _ H).
      cbn [list_sum rw_relayers rw_begin rw_end]. rewrite (due_couriers r (last_confirmed_nonce ld)) by done.
      rewrite Hk, Z.add_0_r. simpl latest_received_nonce. symmetry. apply occ_confirmed; lia.
    + rewrite Hod, lane_rewards_app by done. apply Forall_app_2; [apply (i_payable _ _ _ H) |].
      apply Forall_singleton. exists (last_confirmed_nonce ld). simpl. split; [lia | done].
  - apply (inv_move_source w o); [done | done | | lia | simpl; lia | done | |].
    + rewrite Hl. simpl. rewrite lookup_insert_ne by done. apply (i_out _ _ _ H).
    + intros r. rewrite Hod, lane_rewards_other by done. apply (i_rewarded _ _ _ H).
    + rewrite Hod, lane_rewards_other by done. apply (i_payable _ _ _ H).
Qed.

Lemma inv_confirm w o d origin proof rs res s2 : inv w o d ->
  headers_sound (target_past w) (runtime (source w)) ->
  receive_messages_delivery_proof (MC := MCA) origin proof rs (source w) = (res, s2) -> res <> Panic ->
  exists o', inv (move_source w s2 []) o' d /\ latest_received_nonce o <= latest_received_nonce o' /\
             latest_generated_nonce o' = latest_generated_nonce o.
Proof.
  intros H Hh Hr Hnp. pose proof (i_source_wf _ _ _ H) as Hwf.
  destruct (receive_messages_delivery_proof_guards (MC := MCA) origin proof rs (source w))
    as [[e He] | (who & ld & o1 & -> & Hhalt & Hv & Hrs & Ho1)].
  { rewrite Hr in He. injection He as -> ->. exists o. split; [by apply inv_same_lanes | done]. }
  pose proof (receive_messages_delivery_proof_eq (MC := MCA) who proof rs (source w) ld o1 Hhalt Hv Hrs Ho1
                (ow_nonces _ _ _ (sw_outbound _ Hwf _ _ Ho1))) as E.
  cbv zeta in E. rewrite Hr in E.
  destruct res as [aw | e |]; [| destruct E as [-> _]; exists o; split; [by apply inv_same_lanes | done] | done].
  destruct E as [(_ & Hl & q & Hq) | (Hn & Hm & _ & _ & Hcf)].
  { exists o. split; [| done]. apply inv_same_lanes; [done | done |]. by rewrite Hq, (proj2 (on_delivered_observed _ _ _)). }
  pose proof (inv_confirms w o d proof ld o1 s2 H Hv Hh Ho1 Hn Hm Hcf) as Hi. eexists. split; [exact Hi |].
  destruct (decide (dp_lane proof = lane)) as [Elane | Hne]; [| done]. simpl.
  rewrite Elane, (i_out _ _ _ H) in Ho1. injection Ho1 as <-. lia.
Qed.

(** ** Delivering *)

Lemma dispatch_all_observed acc (x : WB) : dispatched (dispatch_all acc x) = dispatched x ++ acc.
Proof.
  unfold dispatch_all. revert x. induction acc as [| m acc IH]; intros x; simpl; [by rewrite app_nil_r |].
  rewrite IH, (proj1 (dispatch_observed m x)). by rewrite <- app_assoc.
Qed.

Lemma received_log r proof count data acc d d' (s s' : Target) :
  received (BC := BCB) r proof count data acc d d' s s' -> dispatched (runtime s') = dispatched (runtime s) ++ acc.
Proof.
  intros H. destruct (rc_runtime _ _ _ _ _ _ _ _ _ H) as (who & total & valid & wt & ->).
  by rewrite (proj1 (delivery_pay_observed _ _ _ _ _)), dispatch_all_observed.
Qed.

Lemma received_keys r proof count data acc d d' (s s' : Target) i m :
  received (BC := BCB) r proof count data acc d d' s s' -> inbound_wf (BC := BCB) d -> acc !! i = Some m ->
  dmsg_key m = {| lane_id := mp_lane proof; nonce := last_delivered_nonce d + 1 + Z.of_nat i |}.
Proof.
  intros H Hd Hi. destruct (rc_delivers _ _ _ _ _ _ _ _ _ H) as [s1 Hdl]. rewrite (dl_nonces _ _ _ _ _ _ Hdl _ _ Hi). simpl.
  by destruct (state_update_wf (lane_state data) d Hd) as (_ & -> & _).
Qed.

(** Each message taken is the one sent at its place. *)
Lemma taken_lookup w o d r proof count data acc d' s' i m :
  inv w o d -> headers_sound (source_past w) (runtime (target w)) ->
  received (BC := BCB) r proof count data acc d d' (target w) s' -> mp_lane proof = lane -> acc !! i = Some m ->
  exists p, sent w !! (Z.to_nat (last_delivered_nonce d) + i)%nat = Some p /\
            m = as_dispatched (Z.to_nat (last_delivered_nonce d) + i) p.
Proof.
  intros H Hh HR Hlane Hi. pose proof (sw_inbound _ (i_target_wf _ _ _ H) _ _ (i_in _ _ _ H)) as Hwd.
  pose proof (inbound_order _ Hwd) as Ho. pose proof (received_keys _ _ _ _ _ _ _ _ _ _ _ HR Hwd Hi) as Hk.
  destruct (rc_taken _ _ _ _ _ _ _ _ _ HR m) as (m0 & Hm0 & Hn & Hp); [by eapply list_elem_of_lookup_2 |].
  destruct (verified_messages _ _ _ _ _ _ Hh (rc_proof _ _ _ _ _ _ _ _ _ HR)) as (l & Hl & _ & Hms).
  destruct (Hms _ Hm0) as (_ & p & Hp0 & Hdec). rewrite Hlane in *. exists p.
  destruct (i_source_past _ _ _ H l Hl) as [Hsent _]. destruct (Hsent _ _ Hp0) as [_ Hs].
  rewrite <- Hn, Hk in Hs. cbn [nonce] in Hs. split; [rewrite <- Hs; f_equal; lia |].
  destruct m as [k q]. simpl in *. subst k q. unfold as_dispatched. f_equal; [| done]. f_equal. lia.
Qed.

Lemma taken_sent w o d r proof count data acc d' s' :
  inv w o d -> headers_sound (source_past w) (runtime (target w)) ->
  received (BC := BCB) r proof count data acc d d' (target w) s' -> mp_lane proof = lane ->
  let n := Z.to_nat (last_delivered_nonce d) in
  imap as_dispatched (take n (sent w)) ++ acc = imap as_dispatched (take (n + length acc) (sent w)) /\
  last_delivered_nonce d + Z.of_nat (length acc) <= latest_generated_nonce o.
Proof.
  intros H Hh HR Hlane n. pose proof (i_order _ _ _ H) as Hord. pose proof (i_generated _ _ _ H) as Hgen.
  pose proof (inv_orders _ _ _ H) as Hpos.
  assert (Hlen : (n + length acc <= length (sent w))%nat).
  { destruct (length acc) as [| k] eqn:Ek; [lia |].
    destruct (lookup_lt_is_Some_2 acc k ltac:(lia)) as [m Hm].
    destruct (taken_lookup _ _ _ _ _ _ _ _ _ _ _ _ H Hh HR Hlane Hm) as (p & Hp & _).
    apply lookup_lt_Some in Hp. fold n in Hp. lia. }
  split; [| lia]. apply list_eq. intros i. rewrite list_lookup_imap.
  destruct (decide (i < n)%nat) as [Hi | Hi].
  - rewrite lookup_app_l by (rewrite length_imap, length_take; lia).
    rewrite list_lookup_imap, !lookup_take_lt by lia. done.
  - rewrite lookup_app_r by (rewrite length_imap, length_take; lia). rewrite length_imap, length_take.
    replace (n `min` length (sent w))%nat with n by lia.
    destruct (acc !! (i - n)%nat) as [m |] eqn:Em.
    + destruct (taken_lookup _ _ _ _ _ _ _ _ _ _ _ _ H Hh HR Hlane Em) as (p & Hp & ->). fold n in Hp |- *.
      apply lookup_lt_Some in Em. replace (n + (i - n))%nat with i in * by lia.
      rewrite lookup_take_lt by lia. by rewrite Hp.
    + apply lookup_ge_None in Em. by rewrite lookup_take_ge by lia.
Qed.

(** The lane state that came with a proof is no newer than the source's. *)
Lemma confirmed_bound w o d r proof count data acc d' s' :
  inv w o d -> headers_sound (source_past w) (runtime (target w)) ->
  received (BC := BCB) r proof count data acc d d' (target w) s' -> mp_lane proof = lane ->
  last_confirmed_nonce (state_update (lane_state data) d) <= latest_received_nonce o.
Proof.
  intros H Hh HR Hlane. pose proof (i_order _ _ _ H) as Hord.
  destruct (verified_messages _ _ _ _ _ _ Hh (rc_proof _ _ _ _ _ _ _ _ _ HR)) as (l & Hl & Hst & _).
  destruct (i_source_past _ _ _ H l Hl) as [_ (o1 & Ho1 & Hle)]. unfold state_update.
  destruct (lane_state data) as [o2 |]; [| lia]. rewrite Hlane in Hst.
  specialize (Hst _ eq_refl). rewrite Ho1 in Hst. injection Hst as <-. destruct (bool_decide _); simpl; lia.
Qed.

Lemma knows_received w o d r proof count data acc d' s' :
  inv w o d -> received (BC := BCB) r proof count data acc d d' (target w) s' -> mp_lane proof = lane ->
  last_confirmed_nonce d' = last_confirmed_nonce (state_update (lane_state data) d) /\
  last_delivered_nonce d' = last_delivered_nonce d + Z.of_nat (length acc) /\
  inbound_wf (BC := BCB) d' /\ knows_couriers (move_target w s' r) d'.
Proof.
  intros H HR Hlane. pose proof (sw_inbound _ (i_target_wf _ _ _ H) _ _ (i_in _ _ _ H)) as Hwd.
  destruct (rc_delivers _ _ _ _ _ _ _ _ _ HR) as [s1 [_ Hwf' Hc _ Hco Hdel _ _]]. simpl in Hwf', Hc, Hco, Hdel.
  pose proof (inbound_order _ Hwf') as Ho'. pose proof (inbound_order _ Hwd) as Ho.
  destruct (state_update_wf (lane_state data) d Hwd) as (Hwu & Hlu & Hcu & _ & Hcou). rewrite Hlu in Hdel.
  split; [done |]. split; [done |]. split; [done |].
  unfold knows_couriers, move_target, delivered_at. cbn [couriers]. rewrite (rc_lanes _ _ _ _ _ _ _ _ _ HR), Hlane.
  cbn [InboundLanes]. rewrite lookup_insert_eq, (i_in _ _ _ H). cbn [from_option].
  pose proof (i_delivered _ _ _ H) as Hlen. pose proof (knows_now _ _ _ H) as Hk. unfold knows_couriers in Hk.
  rewrite take_ge in Hk by (rewrite length_drop; lia).
  rewrite Hco, Hcou, Hk, drop_drop, Hc.
  replace (Z.to_nat (last_confirmed_nonce d) +
           Z.to_nat (last_confirmed_nonce (state_update (lane_state data) d) - last_confirmed_nonce d))%nat
    with (Z.to_nat (last_confirmed_nonce (state_update (lane_state data) d))) by lia.
  pose proof (inbound_order _ Hwu). rewrite drop_app_le by lia.
  replace (Z.to_nat (last_delivered_nonce d' - last_delivered_nonce d)) with (length acc) by lia.
  rewrite take_ge; [done |]. rewrite length_app, length_drop, length_replicate. lia.
Qed.

Lemma lane_messages_app l acc : lane_messages (l ++ acc) = lane_messages l ++ lane_messages acc.
Proof. apply filter_app. Qed.

Lemma lane_messages_all acc : (forall i m, acc !! i = Some m -> lane_id (dmsg_key m) = lane) -> lane_messages acc = acc.
Proof.
  unfold lane_messages. induction acc as [| m acc IH]; intros H; [done |].
  rewrite filter_cons_True by apply (H 0%nat m eq_refl). f_equal. apply IH. intros i. apply (H (S i)).
Qed.

Lemma lane_messages_none acc : (forall i m, acc !! i = Some m -> lane_id (dmsg_key m) <> lane) -> lane_messages acc = [].
Proof.
  unfold lane_messages. induction acc as [| m acc IH]; intros H; [done |].
  rewrite filter_cons_False by apply (H 0%nat m eq_refl). apply IH. intros i. apply (H (S i)).
Qed.

Lemma inv_deliver w o d origin r proof count dw res s2 : inv w o d ->
  weight_wf dw -> count <= u32_max -> headers_sound (source_past w) (runtime (target w)) ->
  receive_messages_proof (BC := BCB) (MC := MCB) origin r proof count dw (target w) = (res, s2) ->
  exists d', inv (move_target w s2 r) o d' /\ last_delivered_nonce d <= last_delivered_nonce d'.
Proof.
  intros H Hdw Hc Hh Hr. pose proof (i_target_wf _ _ _ H) as Hwf.
  assert (Hsame : target_frame (target w) s2 -> exists d', inv (move_target w s2 r) o d' /\ last_delivered_nonce d <= last_delivered_nonce d').
  { intros F. destruct (inv_target_frame w o d s2 r H F) as (d' & Hd' & Hs). exists d'. split; [done |].
    by rewrite (same_deliveries_last _ _ Hs). }
  pose proof (receive_messages_proof_run origin r proof count dw (target w) (sw_inbound _ Hwf) Hdw Hc) as E. rewrite Hr in E.
  destruct res as [aw | e |]; [| apply Hsame; subst s2; split; [done | by eexists | done] | done].
  destruct E as (data & acc & d0 & d1 & HR). pose proof (rc_lanes _ _ _ _ _ _ _ _ _ HR) as Hl.
  pose proof (sw_inbound _ Hwf _ _ (rc_lane _ _ _ _ _ _ _ _ _ HR)) as Hwd0.
  assert (Hwf2 : store_wf (BC := BCB) (lanes s2)).
  { rewrite Hl. apply store_wf_inbound; [done |]. by destruct (rc_delivers _ _ _ _ _ _ _ _ _ HR) as [s1 []]. }
  destruct (decide (mp_lane proof = lane)) as [Elane | Hne].
  - assert (d0 = d) as ->.
    { pose proof (rc_lane _ _ _ _ _ _ _ _ _ HR) as E. rewrite Elane, (i_in _ _ _ H) in E. by injection E. }
    destruct (taken_sent _ _ _ _ _ _ _ _ _ _ H Hh HR Elane) as [Hlog Hgen].
    pose proof (confirmed_bound _ _ _ _ _ _ _ _ _ _ H Hh HR Elane) as Hcb.
    destruct (knows_received _ _ _ _ _ _ _ _ _ _ H HR Elane) as (Hc1 & Hd1 & _ & Hk1).
    exists d1. split; [| lia]. apply (inv_move_target w o d); [done | done | | lia | lia | done |].
    + rewrite Hl, Elane. apply lookup_insert_eq.
    + rewrite (received_log _ _ _ _ _ _ _ _ _ HR), lane_messages_app, (i_dispatched _ _ _ H), lane_messages_all.
      * rewrite Hlog, Hd1. f_equal. f_equal. pose proof (inbound_order _ Hwd0). lia.
      * intros i m Hi. by rewrite (received_keys _ _ _ _ _ _ _ _ _ _ _ HR Hwd0 Hi).
  - apply Hsame. split; [done | |].
    + intros d2 Hd2. exists d2. rewrite Hl. simpl. rewrite lookup_insert_ne by done. by split.
    + rewrite (received_log _ _ _ _ _ _ _ _ _ HR), lane_messages_app, (lane_messages_none acc), app_nil_r; [done |].
      intros i m Hi. by rewrite (received_keys _ _ _ _ _ _ _ _ _ _ _ HR Hwd0 Hi).
Qed.
End protocol.
