(* ===== verification/BridgeSample.v ===== *)
(** * A sample bridge

    Two copies of one small runtime: it keeps the storages of the other chain it has imported headers
    of, remembers what it dispatched and whom it was asked to reward.  [sample_run] sends one message
    over lane 7, delivers it, confirms it and then idles. *)

From stdpp Require Import base tactics numbers list gmap.
From S2P Require Import Prelude Dispatch System BalancesCalls Words BridgeLanes BridgeMessages BridgeLaneFacts.
From S2P Require Import BridgeMessagesFacts BridgeInvariant BridgeProtocol.
Local Open Scope Z_scope.

Record Node := {
  imported : list LaneStore;
  seen : list (DispatchMessage (list Z));
  asked : list Reward;
}.

#[export] Instance node_dispatch : MessageDispatch Node := {|
  DispatchPayload := list Z;
  DispatchLevelResult := unit;
  decode_payload p := Some p;
  dispatcher_is_active _ _ := true;
  dispatch_weight m _ := ({| ref_time := 10; proof_size := 1 |}, m);
  dispatch m w := (Build_MessageDispatchResult {| ref_time := 4; proof_size := 0 |} tt,
                   Build_Node (imported w) (seen w ++ [m]) (asked w));
|}.

#[export] Instance node_headers : HeaderChain Node := {|
  BridgedHeaderHash := nat;
  StorageProofChecker := LaneStore;
  verify_storage_proof h _ w := match imported w !! h with Some l => inr l | None => inl UnknownHeader end;
  read_message_payload k l :=
    (match OutboundMessages l !! (lane_id k, nonce k) with Some p => inr p | None => inl EmptyVal end, l);
  read_outbound_lane_data lane l := (inr (OutboundLanes l !! lane), l);
  read_inbound_lane_data lane l :=
    (match InboundLanes l !! lane with Some d => inr d | None => inl EmptyVal end, l);
  ensure_no_unused_keys _ := inr tt;
|}.

#[export] Instance node_payments : Payments Node := {|
  delivery_pay_reward _ _ _ _ w := w;
  confirmation_pay_reward lane l _ a b := fun w =>
    (Ok (Z.of_nat (length l)),
     Build_Node (imported w) (seen w)
       (asked w ++ [{| rw_lane := lane; rw_relayers := l; rw_begin := a; rw_end := b |}]));
  on_messages_delivered _ _ w := w;
|}.

#[export] Instance node_chain : BridgedChain := {|
  MAX_UNREWARDED_RELAYERS_IN_CONFIRMATION_TX := 2;
  MAX_UNCONFIRMED_MESSAGES_IN_CONFIRMATION_TX := 3;
  max_extrinsic_size := 1000;
  relayer_max_encoded_len := 32;
|}.

#[export] Instance node_config : MessagesConfig := {|
  MessagesPalletIndex := 40;
  receive_messages_proof_weight size count dw :=
    {| ref_time := 100 + 5 * count + ref_time dw; proof_size := size + proof_size dw |};
  receive_messages_delivery_proof_weight size _ := {| ref_time := 100; proof_size := size |};
|}.

#[export] Instance node_laws : DispatchLaws Node.
Proof. split; intros; unfold weight_wf, nonce_max; simpl; lia || done. Qed.

#[export] Instance node_observed : ObservedRuntime Node.
Proof.
  refine {| dispatched := seen; rewarded := asked |}; [done | done | | done].
  intros lane l who a b w k w'. simpl. by intros [= _ <-].
Defined.

#[export] Instance node_proofs : StorageProofs Node.
Proof.
  refine {| shows := fun c l => c = l |}.
  - intros c l k p c' ->. simpl. destruct (OutboundMessages l !! _); intros [= <- <-]. done.
  - intros c l lane o c' ->. simpl. intros [= <- <-]. done.
  - intros c l lane d c' ->. simpl. destruct (InboundLanes l !! lane); intros [= <- <-]. done.
Defined.

(** ** A run *)

Abbreviation SampleWorld := (World (WA := Node) (WB := Node)).

Definition node_state (opened : list LaneId) : BridgeState Node :=
  snd (messages_genesis_build (Basic Normal) None opened (blank (Build_Node [] [] []))).

Definition import_header (l : LaneStore) (s : BridgeState Node) : BridgeState Node :=
  with_runtime (Build_Node (imported (runtime s) ++ [l]) (seen (runtime s)) (asked (runtime s))) s.

Definition sample_world0 : SampleWorld :=
  Build_World (node_state [7%N]) (node_state [7%N]) [] [] [lanes (node_state [7%N])] [lanes (node_state [7%N])].

Definition sample_sent (s : BridgeState Node) : BridgeState Node :=
  match validate_message 7 [1; 2; 3] s with
  | (Ok args, s) => snd (send_message args s)
  | (_, s) => s
  end.

Definition sample_proof : FromBridgedChainMessagesProof nat := Build_FromBridgedChainMessagesProof 0%nat [] 7%N 1 1.

Definition sample_delivered (s : BridgeState Node) : BridgeState Node :=
  snd (receive_messages_proof (Signed 1%N) 5%N sample_proof 1 {| ref_time := 20; proof_size := 2 |} s).

Definition sample_lane_data : InboundLaneData :=
  {| relayers := [{| ur_relayer := 5%N; ur_messages := {| dm_begin := 1; dm_end := 1 |} |}];
     last_confirmed_nonce := 0; in_state := Opened |}.

Definition sample_delivery_proof : FromBridgedChainMessagesDeliveryProof nat :=
  Build_FromBridgedChainMessagesDeliveryProof 0%nat [] 7%N.

Definition sample_confirmed (s : BridgeState Node) : BridgeState Node :=
  snd (receive_messages_delivery_proof (Signed 2%N) sample_delivery_proof
         (UnrewardedRelayersState_from sample_lane_data) s).

Definition sample_world1 := move_source sample_world0 (sample_sent (source sample_world0)) [[1; 2; 3]].
Definition sample_world2 :=
  move_target 7 sample_world1 (import_header (lanes (source sample_world1)) (target sample_world1)) 0.
Definition sample_world3 := move_target 7 sample_world2 (sample_delivered (target sample_world2)) 5.
Definition sample_world4 :=
  move_source sample_world3 (import_header (lanes (target sample_world3)) (source sample_world3)) [].
Definition sample_world5 := move_source sample_world4 (sample_confirmed (source sample_world4)) [].

Definition sample_run (i : nat) : SampleWorld :=
  match i with
  | 0 => sample_world0
  | 1 => sample_world1
  | 2 => sample_world2
  | 3 => sample_world3
  | 4 => sample_world4
  | _ => sample_world5
  end%nat.

Lemma sample_initial : initial 7 sample_world0.
Proof.
  assert (Hw : store_wf (lanes (node_state [7%N]))).
  { apply (genesis_wf (Basic Normal) None [7%N] (Build_Node [] [] [])). vm_compute. reflexivity. }
  by split; [exact Hw | exact Hw | vm_compute; reflexivity ..].
Qed.

Lemma import_source_frame l s : source_frame 7 s (import_header l s).
Proof. split; [done | intros o Ho; by exists o | done | done]. Qed.

Lemma import_target_frame l s : target_frame 7 s (import_header l s).
Proof. split; [done | intros d Hd; by exists d | done]. Qed.

Lemma imported_sound (w : Node) past : (forall l, l ∈ imported w -> l ∈ past) -> headers_sound past w.
Proof.
  intros H h p c. change (verify_storage_proof h p w) with
    (match imported w !! (h : nat) with Some l => inr l | None => inl UnknownHeader end : HeaderChainError + LaneStore).
  destruct (imported w !! (h : nat)) as [l |] eqn:E; [| discriminate]. intros [= <-].
  exists l. split; [| done]. apply H. by eapply list_elem_of_lookup_2.
Qed.

Definition sample_args : SendMessageArgs :=
  {| sa_lane_id := 7; sa_lane := {| ro_lane_id := 7; ro_cached_data := OutboundLaneData_opened |};
     sa_payload := [1; 2; 3] |}.

Definition sample_args2 : SendMessageArgs :=
  {| sa_lane_id := 7; sa_lane := {| ro_lane_id := 7; ro_cached_data := OutboundLaneData_opened |};
     sa_payload := [4] |}.

Lemma sample_send : validate_message 7 [1; 2; 3] (source sample_world0) = (Ok sample_args, source sample_world0) /\
  send_message sample_args (source sample_world0) = (Ok {| art_nonce := 1; enqueued_messages := 1 |}, source sample_world1).
Proof. split; vm_compute; reflexivity. Qed.

Definition sample_weight : Weight := {| ref_time := 20; proof_size := 2 |}.

Lemma sample_deliver :
  receive_messages_proof (Signed 1%N) 5%N sample_proof 1 sample_weight (target sample_world2) =
    (Ok {| ref_time := 121; proof_size := 0 |}, target sample_world3).
Proof. vm_compute. reflexivity. Qed.

Lemma sample_confirm :
  receive_messages_delivery_proof (Signed 2%N) sample_delivery_proof
    (UnrewardedRelayersState_from sample_lane_data) (source sample_world4) =
    (Ok {| ref_time := 100; proof_size := 0 |}, source sample_world5).
Proof. vm_compute. reflexivity. Qed.

Lemma sample_steps i : step 7 (sample_run i) (sample_run (S i)).
Proof.
  destruct i as [| [| [| [| [| i]]]]]; cbn [sample_run].
  - exact (step_send 7 sample_world0 _ _ _ _ _ (proj1 sample_send) (proj2 sample_send)).
  - apply step_target, import_target_frame.
  - refine (step_deliver 7 sample_world2 _ _ _ _ _ _ _ _ _ _ sample_deliver); [by vm_compute | by vm_compute |].
    apply imported_sound. intros l Hl. apply list_elem_of_singleton in Hl as ->. left.
  - apply step_source, import_source_frame.
  - refine (step_confirm 7 sample_world4 _ _ _ _ _ _ sample_confirm _); [| done].
    apply imported_sound. intros l Hl. apply list_elem_of_singleton in Hl as ->. left.
  - apply step_idle.
Qed.
