(* ===== verification/BridgeProtocolFacts.v ===== *)
(** * What the lane guarantees

    Exactly-once, in-order delivery; every courier rewarded once for every message it delivered; no
    genuine confirmation refused.  All of them hold in every reachable world: for any relayers, any
    proofs the header chains accept however old, and any other activity of the two chains. *)

From stdpp Require Import base tactics numbers list gmap relations.
From S2P Require Import Prelude Dispatch System BalancesCalls Words BridgeLanes BridgeMessages BridgeLaneFacts.
From S2P Require Import BridgeMessagesFacts BridgeInvariant BridgeProtocol BridgeSample.
Local Open Scope Z_scope.

Section facts.
Context {WA : Type} {MDA : MessageDispatch WA} {BCA : BridgedChain} {HCA : HeaderChain WA} {PYA : Payments WA}.
Context {MCA : MessagesConfig} {DLA : DispatchLaws WA} {OBA : ObservedRuntime WA} {SPA : StorageProofs WA}.
Context {WB : Type} {MDB : MessageDispatch WB} {BCB : BridgedChain} {HCB : HeaderChain WB} {PYB : Payments WB}.
Context {MCB : MessagesConfig} {DLB : DispatchLaws WB} {OBB : ObservedRuntime WB} {SPB : StorageProofs WB}.
Variable lane : LaneId.

Abbreviation World := (World (WA := WA) (WB := WB)).
Abbreviation step := (step (BCA := BCA) (MCA := MCA) (BCB := BCB) (MCB := MCB) lane).
Abbreviation inv := (inv (BCA := BCA) (BCB := BCB) lane).
Abbreviation reachable := (reachable (BCA := BCA) (MCA := MCA) (BCB := BCB) (MCB := MCB) lane).

(** Every step keeps the invariant, and nonces only grow. *)
Lemma inv_step (w w' : World) o d : inv w o d -> step w w' ->
  exists o' d', inv w' o' d' /\ latest_received_nonce o <= latest_received_nonce o' /\
    latest_generated_nonce o <= latest_generated_nonce o' /\ last_delivered_nonce d <= last_delivered_nonce d' /\
    sent w `prefix_of` sent w'.
Proof.
  intros H Hs. assert (Happ : forall (l : list (list Z)), l `prefix_of` l ++ []) by (intros; by exists []).
  destruct Hs as [| p args s1 a s2 Hv Hs | origin r proof count dw res s2 Hdw Hc Hh Hr
    | origin proof rs res s2 Hh Hr Hnp | s2 F | s2 r F].
  - by exists o, d.
  - exists (sent_data o), d. split; [exact (inv_send lane w o d p args s1 a s2 H Hv Hs) |]. simpl. split; [lia |]. split; [lia |]. split; [lia |]. by eexists.
  - destruct (inv_deliver lane w o d _ _ _ _ _ _ _ H Hdw Hc Hh Hr) as (d' & H' & Hd). by exists o, d'.
  - destruct (inv_confirm lane w o d _ _ _ _ _ H Hh Hr Hnp) as (o' & H' & Ho & Hg). exists o', d.
    split; [done |]. split; [done |]. split; [lia |]. split; [lia | apply Happ].
  - destruct (inv_source_frame lane w o d s2 H F) as (o' & H' & Ho & Hg). exists o', d.
    split; [done |]. split; [lia |]. split; [lia |]. split; [lia | apply Happ].
  - destruct (inv_target_frame lane w o d s2 r H F) as (d' & H' & Hd). exists o, d'.
    apply same_deliveries_last in Hd. split; [done |]. split; [lia |]. split; [lia |]. split; [lia | done].
Qed.

Lemma reachable_inv (w : World) : reachable w -> exists o d, inv w o d.
Proof.
  intros (w0 & H0 & Hr). apply inv_initial in H0.
  assert (Hi : exists o d, inv w0 o d) by by eexists _, _. clear H0. induction Hr as [w | w w1 w2 Hs _ IH]; [done |].
  destruct Hi as (o & d & Hi). destruct (inv_step _ _ _ _ Hi Hs) as (o' & d' & H' & _). apply IH. by exists o', d'.
Qed.

(** ** Delivery *)

(** C5. Exactly once and in order: in every reachable world the messages the target chain's dispatcher
    has been given on the lane are, one for one, the first [last_delivered_nonce] messages that the
    source chain accepted for sending, in the order they were sent and with consecutive nonces; no
    relayer, honest or not, and no stale or repeated proof can make it skip, repeat, reorder or alter
    one.  What the source believes delivered is delivered, what the target believes confirmed is
    confirmed, and every message that is not confirmed is still stored at the source under its nonce. *)
Theorem exactly_once_in_order (w : World) : reachable w ->
  exists o d,
    OutboundLanes (lanes (source w)) !! lane = Some o /\ InboundLanes (lanes (target w)) !! lane = Some d /\
    last_confirmed_nonce d <= latest_received_nonce o <= last_delivered_nonce d /\
    last_delivered_nonce d <= latest_generated_nonce o /\ latest_generated_nonce o = Z.of_nat (length (sent w)) /\
    lane_messages lane (dispatched (runtime (target w))) =
      imap (as_dispatched lane) (take (Z.to_nat (last_delivered_nonce d)) (sent w)) /\
    (forall n, latest_received_nonce o < n <= latest_generated_nonce o ->
       OutboundMessages (lanes (source w)) !! (lane, n) = sent w !! Z.to_nat (n - 1)).
Proof.
  intros (o & d & H)%reachable_inv. exists o, d. split; [apply H |]. split; [apply H |]. pose proof (i_order _ _ _ _ H).
  split; [lia |]. split; [lia |]. split; [apply H |]. split; [apply H |]. intros n Hn.
  destruct (sw_outbound _ (i_source_wf _ _ _ _ H) _ _ (i_out _ _ _ _ H)) as [_ _ _ _ Hst].
  apply Hst in Hn as [p Hp]. rewrite Hp. symmetry. by apply (messages_now _ _ _ _ H).
Qed.

(** ** Rewards *)

(** The messages [r] is rewarded for by the reward calls [rs]. *)
Definition rewarded_messages (r : AccountId) (rs : list Reward) : Z :=
  list_sum (fun x => match fst (calc_relayers_rewards (rw_relayers x) (rw_begin x) (rw_end x) tt) with
                     | Ok m => default 0 (m !! r)
                     | _ => 0
                     end) rs.

Lemma rewarded_messages_due r rs : Forall payable rs ->
  rewarded_messages r rs = list_sum (fun x => due r (rw_relayers x) (rw_begin x) (rw_end x)) rs.
Proof.
  unfold rewarded_messages. induction 1 as [| x rs (c & Hc & Hch & Hmax) _ IH]; [done |]. cbn [list_sum]. rewrite IH.
  destruct (calc_relayers_rewards_run c (rw_relayers x) (rw_begin x) (rw_end x) tt Hch Hc Hmax) as (m & -> & Hp).
  simpl. rewrite Hp. destruct (decide _) as [-> |]; done.
Qed.

(** C6. Every courier is rewarded exactly once per message: in every reachable world, the messages the
    source chain has computed rewards for, over all the confirmations it has accepted, are for each
    account exactly those among the confirmed messages that were delivered in its name; the
    computation never overflows.  Overlapping, repeated and stale confirmations change nothing, and no
    other account is rewarded. *)
Theorem couriers_rewarded_once (w : World) : reachable w ->
  exists o, OutboundLanes (lanes (source w)) !! lane = Some o /\
    latest_received_nonce o <= Z.of_nat (length (couriers w)) /\
    forall r, rewarded_messages r (lane_rewards lane (rewarded (runtime (source w)))) =
              occ r (take (Z.to_nat (latest_received_nonce o)) (couriers w)).
Proof.
  intros (o & d & H)%reachable_inv. exists o. split; [apply H |]. pose proof (i_order _ _ _ _ H).
  pose proof (i_delivered _ _ _ _ H). split; [lia |]. intros r.
  rewrite rewarded_messages_due by apply (i_payable _ _ _ _ H). apply (i_rewarded _ _ _ _ H).
Qed.

(** ** Confirmations *)

Lemma total_unrewarded_chain d : inbound_wf (BC := BCB) d -> last_delivered_nonce d < nonce_max ->
  total_unrewarded_messages d = last_delivered_nonce d - last_confirmed_nonce d.
Proof.
  intros Hd Hm. pose proof (inbound_order _ Hd) as Ho. destruct Hd as [H0 Hch _ _ _].
  unfold total_unrewarded_messages, last_delivered_nonce in *. destruct d as [[| e l] c st];
    cbn [relayers last_confirmed_nonce head] in *; [simpl; lia |]. destruct Hch as (Hb & He & _).
  destruct (last (e :: l)) as [b |] eqn:Eb; [| by apply last_None in Eb]. rewrite saturating_len_exact; lia.
Qed.

Lemma confirmation_accepted (w : World) o d who (proof : FromBridgedChainMessagesDeliveryProof (@BridgedHeaderHash WA HCA)) ld l :
  inv w o d -> l ∈ target_past w -> InboundLanes l !! lane = Some ld ->
  messages_is_halted (PalletOperatingMode (source w)) = false -> dp_lane proof = lane ->
  verify_messages_delivery_proof proof (runtime (source w)) = inr (lane, ld) -> last_delivered_nonce ld < nonce_max ->
  (forall a b (x : WA), exists k x', confirmation_pay_reward lane (relayers ld) who a b x = (Ok k, x')) ->
  exists weight s o', receive_messages_delivery_proof (MC := MCA) (Signed who) proof (UnrewardedRelayersState_from ld) (source w) =
      (Ok weight, s) /\
    OutboundLanes (lanes s) !! lane = Some o' /\
    latest_received_nonce o' = Z.max (latest_received_nonce o) (last_delivered_nonce ld).
Proof.
  intros H Hl Hld Hhalt Hlane Hv Hm Hpay.
  destruct (i_target_past _ _ _ _ H l Hl) as (d' & Hd' & Hwd & _ & Hdel & Hc). rewrite Hld in Hd'. injection Hd' as <-.
  pose proof (i_order _ _ _ _ H) as Hord. pose proof (i_out _ _ _ _ H) as Ho.
  pose proof (sw_outbound _ (i_source_wf _ _ _ _ H) _ _ Ho) as How. rewrite <- Hlane in Hv, Ho, How, Hpay.
  pose proof (receive_messages_delivery_proof_eq (MC := MCA) who proof (UnrewardedRelayersState_from ld) (source w) ld o
    Hhalt Hv ltac:(by apply bool_decide_eq_true_2) Ho (ow_nonces _ _ _ How)) as E. cbv zeta in E.
  assert (Htot : rs_total_messages (UnrewardedRelayersState_from ld) = last_delivered_nonce ld - last_confirmed_nonce ld)
    by (by apply total_unrewarded_chain). rewrite Htot in E.
  assert (Hens : ensure_unrewarded_relayers_are_correct (last_delivered_nonce ld) (relayers ld) = inr tt).
  { apply ensure_unrewarded_relayers_ok; [lia |]. intros e He. destruct Hwd as [_ Hch _ _ _].
    destruct (relayers ld) as [| e0 l0] eqn:Er; [done |]. injection He as ->. pose proof Hch as (-> & _).
    apply chain_consecutive; [done |]. rewrite <- Er. by rewrite <- last_delivered_chain. }
  destruct (Hpay (latest_received_nonce o + 1) (last_delivered_nonce ld) (runtime (source w))) as (k & x' & Hk).
  destruct (receive_messages_delivery_proof _ _ _ _) as [[aw | e |] s].
  - exists aw, s. destruct E as [(Hle & -> & _) | (Hn & _ & _ & _ & -> & _)]; rewrite <- Hlane.
    + exists o. split; [done |]. split; [done | lia].
    + eexists. split; [done |]. split; [apply lookup_insert_eq |]. simpl. lia.
  - exfalso. destruct E as (_ & Hlt & [Hf | [Hf | [Hf | [x Hf]]]]); [lia | lia | done | congruence].
  - exfalso. destruct E as (_ & [Hf | [x Hf]]); [lia | congruence].
Qed.

(** A genuine confirmation is never refused: when the source chain's header chain accepts a proof
    of the lane from any earlier storage of the target chain, the confirmation call with the matching
    relayers state succeeds (given that the pallet is not halted and the payment code does not fail),
    and the lane is then confirmed at least up to what the proof shows.  In particular the guards
    against corrupted lanes never fire. *)
Theorem confirmation_succeeds (w : World) who (proof : FromBridgedChainMessagesDeliveryProof (@BridgedHeaderHash WA HCA)) ld o :
  reachable w -> headers_sound (target_past w) (runtime (source w)) ->
  messages_is_halted (PalletOperatingMode (source w)) = false -> dp_lane proof = lane ->
  verify_messages_delivery_proof proof (runtime (source w)) = inr (lane, ld) ->
  OutboundLanes (lanes (source w)) !! lane = Some o -> last_delivered_nonce ld < nonce_max ->
  (forall a b (x : WA), exists k x', confirmation_pay_reward lane (relayers ld) who a b x = (Ok k, x')) ->
  exists weight s o', receive_messages_delivery_proof (MC := MCA) (Signed who) proof (UnrewardedRelayersState_from ld) (source w) =
      (Ok weight, s) /\
    OutboundLanes (lanes s) !! lane = Some o' /\
    latest_received_nonce o' = Z.max (latest_received_nonce o) (last_delivered_nonce ld).
Proof.
  intros (o0 & d & H)%reachable_inv Hh Hhalt Hlane Hv Ho Hm Hpay. rewrite (i_out _ _ _ _ H) in Ho. injection Ho as ->.
  destruct (verified_delivery _ _ _ _ _ Hh Hv) as (l & Hl & Hld). by apply (confirmation_accepted w o d who proof ld l).
Qed.

(** ** Traffic in the opposite direction, and other lanes

    The remaining calls of the two pallets are frame steps of the protocol. *)

Lemma reverse_delivery_frame origin r proof count dw res (s s2 : BridgeState WA) :
  store_wf (BC := BCA) (lanes s) -> weight_wf dw -> count <= u32_max ->
  receive_messages_proof (BC := BCA) (MC := MCA) origin r proof count dw s = (res, s2) -> source_frame (BCA := BCA) lane s s2.
Proof.
  intros Hw Hdw Hc Hr. pose proof (receive_messages_proof_run (BC := BCA) (MC := MCA) origin r proof count dw s (sw_inbound _ Hw) Hdw Hc) as E.
  rewrite Hr in E. assert (Hwf : store_wf (BC := BCA) (lanes s2))
    by exact (receive_wf (MC := MCA) _ _ _ _ _ _ _ _ Hw Hdw Hc Hr).
  destruct res as [aw | e |]; [| subst; split; [done | by eexists | done | done] | done].
  destruct E as (data & acc & d & d' & HR). pose proof (rc_lanes _ _ _ _ _ _ _ _ _ HR) as Hl.
  split; [done | intros o Ho; exists o; by rewrite Hl | by rewrite Hl |].
  destruct (rc_runtime _ _ _ _ _ _ _ _ _ HR) as (who & total & valid & wt & ->).
  rewrite (proj2 (delivery_pay_observed _ _ _ _ _)). f_equal. unfold dispatch_all. generalize (runtime s).
  clear. induction acc as [| m acc IH]; intros x; [done |]. simpl. by rewrite IH, (proj2 (dispatch_observed m x)).
Qed.

Lemma reverse_confirmation_frame origin proof rs res (s s2 : BridgeState WB) :
  store_wf (BC := BCB) (lanes s) -> res <> Panic ->
  receive_messages_delivery_proof (MC := MCB) origin proof rs s = (res, s2) -> target_frame (BCB := BCB) lane s s2.
Proof.
  intros Hw Hnp Hr. assert (Hwf : store_wf (BC := BCB) (lanes s2))
    by exact (confirm_wf (MC := MCB) _ _ _ _ _ _ Hw Hr Hnp).
  destruct (receive_messages_delivery_proof_guards (MC := MCB) origin proof rs s)
    as [[e He] | (who & ld & o & -> & Hh & Hv & Hrs & Ho)].
  { rewrite Hr in He. injection He as -> ->. split; [done | by eexists | done]. }
  pose proof (receive_messages_delivery_proof_eq (MC := MCB) who proof rs s ld o Hh Hv Hrs Ho
    (ow_nonces _ _ _ (sw_outbound _ Hw _ _ Ho))) as E.
  cbv zeta in E. rewrite Hr in E.
  destruct res as [aw | e |]; [| destruct E as [-> _]; split; [done | by eexists | done] | done].
  destruct E as [(_ & Hl & q & Hq) | (_ & _ & _ & _ & Hl & who' & k & x & q & Hpay & Hq)].
  - split; [done | intros d Hd; exists d; by rewrite Hl |]. by rewrite Hq, (proj1 (on_delivered_observed _ _ _)).
  - split; [done | intros d Hd; exists d; by rewrite Hl |].
    by rewrite Hq, (proj1 (on_delivered_observed _ _ _)), (proj1 (confirmation_pay_observed _ _ _ _ _ _ _ _ Hpay)).
Qed.

Lemma reverse_send_frame lane' p args s1 a (s s2 : BridgeState WB) :
  store_wf (BC := BCB) (lanes s) -> validate_message (BC := BCB) (MC := MCB) lane' p s = (Ok args, s1) ->
  send_message args s1 = (Ok a, s2) -> target_frame (BCB := BCB) lane s s2.
Proof.
  intros Hw Hv Hs. assert (Hwf : store_wf (BC := BCB) (lanes s2))
    by exact (send_wf (MC := MCB) _ _ _ _ _ _ _ Hw Hv Hs).
  apply validate_message_run in Hv as (-> & o & Ho & _ & _ & ->).
  pose proof (send_message_run lane' o p s (ow_nonneg _ _ _ (sw_outbound _ Hw _ _ Ho))) as E. rewrite Hs in E.
  destruct E as (_ & _ & _ & Hrt & Hl). split; [done | intros d Hd; exists d; by rewrite Hl | by rewrite Hrt].
Qed.

Lemma other_lane_send_frame lane' p args s1 a (s s2 : BridgeState WA) : lane' <> lane ->
  store_wf (BC := BCA) (lanes s) -> validate_message (BC := BCA) (MC := MCA) lane' p s = (Ok args, s1) ->
  send_message args s1 = (Ok a, s2) -> source_frame (BCA := BCA) lane s s2.
Proof.
  intros Hne Hw Hv Hs. assert (Hwf : store_wf (BC := BCA) (lanes s2))
    by exact (send_wf (MC := MCA) _ _ _ _ _ _ _ Hw Hv Hs).
  apply validate_message_run in Hv as (-> & o & Ho & _ & _ & ->).
  pose proof (send_message_run lane' o p s (ow_nonneg _ _ _ (sw_outbound _ Hw _ _ Ho))) as E. rewrite Hs in E.
  destruct E as (_ & _ & _ & Hrt & Hl). split; [done | | | by rewrite Hrt].
  - intros o1 Ho1. exists o1. rewrite Hl. simpl. by rewrite lookup_insert_ne.
  - intros n. rewrite Hl. simpl. rewrite lookup_insert_ne; [done | congruence].
Qed.
End facts.

(** ** Witnesses *)

Lemma sample_reachable i : reachable 7 (sample_run i).
Proof.
  exists sample_world0. split; [apply sample_initial |]. induction i as [| i IH]; [apply rtc_refl |].
  eapply rtc_r; [exact IH | apply sample_steps].
Qed.

Lemma exactly_once_in_order_witness :
  reachable 7 sample_world5 /\
  exists o d,
    OutboundLanes (lanes (source sample_world5)) !! 7%N = Some o /\
    InboundLanes (lanes (target sample_world5)) !! 7%N = Some d /\
    last_confirmed_nonce d <= latest_received_nonce o <= last_delivered_nonce d /\
    last_delivered_nonce d <= latest_generated_nonce o /\
    latest_generated_nonce o = Z.of_nat (length (sent sample_world5)) /\
    lane_messages 7 (dispatched (runtime (target sample_world5))) =
      imap (as_dispatched 7) (take (Z.to_nat (last_delivered_nonce d)) (sent sample_world5)) /\
    (forall n, latest_received_nonce o < n <= latest_generated_nonce o ->
       OutboundMessages (lanes (source sample_world5)) !! (7%N, n) = sent sample_world5 !! Z.to_nat (n - 1)).
Proof.
  split; [exact (sample_reachable 5) |]. apply exactly_once_in_order. exact (sample_reachable 5).
Defined.

Lemma couriers_rewarded_once_witness :
  reachable 7 sample_world5 /\
  exists o, OutboundLanes (lanes (source sample_world5)) !! 7%N = Some o /\
    latest_received_nonce o <= Z.of_nat (length (couriers sample_world5)) /\
    forall r, rewarded_messages r (lane_rewards 7 (rewarded (runtime (source sample_world5)))) =
              occ r (take (Z.to_nat (latest_received_nonce o)) (couriers sample_world5)).
Proof.
  split; [exact (sample_reachable 5) |]. apply couriers_rewarded_once. exact (sample_reachable 5).
Defined.

Lemma confirmation_succeeds_witness :
  exists weight s o', receive_messages_delivery_proof (Signed 2%N) sample_delivery_proof
      (UnrewardedRelayersState_from sample_lane_data) (source sample_world4) = (Ok weight, s) /\
    OutboundLanes (lanes s) !! 7%N = Some o' /\ latest_received_nonce o' = Z.max 0 1.
Proof.
  apply (confirmation_succeeds (HCA := node_headers) (WB := Node) 7 sample_world4 2%N sample_delivery_proof sample_lane_data
           {| oldest_unpruned_nonce := 1; latest_received_nonce := 0; latest_generated_nonce := 1; out_state := Opened |}).
  - exact (sample_reachable 4).
  - apply imported_sound. intros l Hl. apply list_elem_of_singleton in Hl as ->. left.
  - reflexivity.
  - reflexivity.
  - vm_compute. reflexivity.
  - vm_compute. reflexivity.
  - vm_compute. reflexivity.
  - intros a b x. eexists _, _. reflexivity.
Defined.

(** ** The theorems on single chains, on the sample *)

Lemma sample_wf i : store_wf (lanes (target (sample_run i))) /\ store_wf (lanes (source (sample_run i))).
Proof.
  destruct (reachable_inv 7 _ (sample_reachable i)) as (o & d & H).
  split; [apply (i_target_wf _ _ _ _ H) | apply (i_source_wf _ _ _ _ H)].
Qed.

(** One message is sent, a closing prunes it and purges the lane, and the lane is opened again. *)
Definition sample_closed : BridgeState Node := snd (close_bridge_lanes 7%N 5 (source sample_world1)).
Definition sample_reopened : BridgeState Node := snd (create_outbound_lane 7%N sample_closed).

Lemma lanes_stay_in_order_witness :
  (forall n, is_Some (OutboundMessages (lanes (source sample_world1)) !! (7%N, n)) <-> 1 <= n <= 1) /\
  OutboundLanes (lanes sample_closed) !! 7%N = None /\ OutboundMessages (lanes sample_closed) !! (7%N, 1) = None /\
  do_try_state_for_outbound_lanes sample_reopened = true.
Proof.
  assert (H1 : lane_history (source sample_world0) ∅ (source sample_world1)).
  { eapply lh_step; [apply lh_genesis |].
    exact (ps_send _ _ _ _ _ _ _ _ (proj1 sample_send) eq_refl (proj2 sample_send)). }
  assert (Hc : close_bridge_lanes 7%N 5 (source sample_world1) = (Ok (1, None), sample_closed)) by (vm_compute; reflexivity).
  pose proof (lh_close _ _ _ _ _ _ _ H1 Hc ltac:(discriminate)) as H2.
  assert (Ho : create_outbound_lane 7%N sample_closed = (fst (create_outbound_lane 7%N sample_closed), sample_reopened))
    by (vm_compute; reflexivity).
  pose proof (lh_step _ _ _ _ H2 (ps_create_outbound _ _ _ _ Ho)) as H3. split.
  - destruct (lanes_stay_in_order (Basic Normal) None [7%N] (Build_Node [] [] []) _ _ _ eq_refl H1) as (_ & Hs & _).
    destruct (Hs 7%N {| oldest_unpruned_nonce := 1; latest_received_nonce := 0; latest_generated_nonce := 1; out_state := Opened |})
      as (_ & f & _ & _ & Hf & Hst); [vm_compute; reflexivity |].
    specialize (Hf ltac:(apply not_elem_of_empty)). subst f. exact Hst.
  - destruct (lanes_stay_in_order (Basic Normal) None [7%N] (Build_Node [] [] []) _ _ _ eq_refl H2) as (_ & _ & Hu & _).
    destruct (lanes_stay_in_order (Basic Normal) None [7%N] (Build_Node [] [] []) _ _ _ eq_refl H3) as (_ & _ & _ & Ht).
    assert (Hn : OutboundLanes (lanes sample_closed) !! 7%N = None) by (vm_compute; reflexivity).
    split; [exact Hn |]. split; [exact (Hu _ _ Hn) | exact Ht].
Defined.

Lemma inbound_lane_is_queue_witness :
  let h := {| ri_lane_id := 7; ri_cached_data := sample_lane_data |} in
  last_delivered_nonce sample_lane_data = queue_end (lane_queue sample_lane_data) /\
  exists res h' s', receive_message h 6%N 2 None (target sample_world3) = (Ok (res, h'), s') /\
    couriers_of (relayers (ri_cached_data h')) = [5%N; 6%N].
Proof.
  intros h.
  destruct (inbound_lane_is_queue h (target sample_world3)
    (sw_inbound _ (proj1 (sample_wf 3)) 7%N sample_lane_data eq_refl)) as (_ & He & Hd & _).
  split; [exact He |]. destruct (Hd 6%N 2 None) as (res & h' & s' & Hr & _ & _ & Hacc).
  exists res, h', s'. split; [exact Hr |].
  destruct (decide (accepts _ _)) as [_ | Hn].
  - destruct Hacc as (_ & Hq & _). exact (f_equal cq_pending Hq).
  - exfalso. apply Hn. vm_compute. repeat split; congruence.
Defined.

Lemma delivery_call_safe_witness :
  match receive_messages_proof (Signed 1%N) 5%N sample_proof 1 sample_weight (target sample_world2) with
  | (Ok _, s') => exists d d', InboundLanes (lanes (target sample_world2)) !! 7%N = Some d /\
      InboundLanes (lanes s') !! 7%N = Some d' /\ last_delivered_nonce d <= last_delivered_nonce d'
  | _ => False
  end.
Proof.
  pose proof (delivery_call_safe (Signed 1%N) 5%N sample_proof 1 sample_weight (target sample_world2)
    (proj1 (sample_wf 2)) ltac:(vm_compute; repeat split; congruence) ltac:(vm_compute; congruence)) as H.
  rewrite sample_deliver in H |- *. destruct H as (data & acc & d & d' & _ & Hd & _ & Hl & Hn & _).
  exists d, d'. split; [exact Hd |]. split; [rewrite Hl; apply lookup_insert_eq |]. rewrite Hn. lia.
Defined.

Lemma pool_checks_exact_witness :
  exists info, call_info (ReceiveMessagesProofCall sample_proof) (target sample_world2) =
      (Ok (Some info), target sample_world2) /\
    1 = last_delivered_nonce InboundLaneData_opened + 1 /\
    exists d', InboundLanes (lanes (target sample_world3)) !! 7%N = Some d' /\
      (was_successful info (target sample_world3) = true <->
       last_delivered_nonce d' = last_delivered_nonce InboundLaneData_opened + 1).
Proof.
  eexists. split; [vm_compute; reflexivity |].
  refine (proj1 (pool_checks_exact (target sample_world2) (proj1 (sample_wf 2))) (Signed 1%N) 5%N sample_proof 1
    sample_weight _ (target sample_world3) _ InboundLaneData_opened _ _ _ _ _ _ sample_deliver).
  - vm_compute. repeat split; congruence.
  - vm_compute. congruence.
  - vm_compute. reflexivity.
  - vm_compute. reflexivity.
  - vm_compute. congruence.
  - vm_compute. reflexivity.
Defined.

Lemma stale_send_overwrites_witness :
  exists a1 a2 s3 s4, send_message sample_args (source sample_world0) = (Ok a1, s3) /\
    send_message sample_args2 s3 = (Ok a2, s4) /\ art_nonce a1 = art_nonce a2.
Proof.
  destruct (stale_send_overwrites 7 [1; 2; 3] [4] (source sample_world0) sample_args sample_args2
    (source sample_world0) (source sample_world0) (proj2 (sample_wf 0)) (proj1 sample_send) eq_refl) as (o & Ho & H).
  injection Ho as <-. destruct H as (a1 & a2 & s3 & s4 & H1 & H2 & H3 & _); [vm_compute; reflexivity |].
  exists a1, a2, s3, s4. exact (conj H1 (conj H2 H3)).
Defined.
