(* ===== verification/BridgeLiveness.v ===== *)
(** * Every message arrives

    Runs of the protocol are infinite sequences of worlds.  The only assumption on relayers is that the
    lane is served: while a message is undelivered, some later delivery transaction carries the next
    message of a state no older than that moment, together with the lane state of the source; while a
    delivery is unconfirmed, some later confirmation transaction carries the target's lane.  The
    transactions may be late and any others may come before, between and after them. *)

From stdpp Require Import base tactics numbers list gmap relations.
From S2P Require Import Prelude Dispatch System BalancesCalls Words BridgeLanes BridgeMessages BridgeLaneFacts.
From S2P Require Import BridgeMessagesFacts BridgeInvariant BridgeProtocol BridgeSample.
From S2P Require Import BridgeProtocolFacts.
Local Open Scope Z_scope.

Section liveness.
Context {WA : Type} {MDA : MessageDispatch WA} {BCA : BridgedChain} {HCA : HeaderChain WA} {PYA : Payments WA}.
Context {MCA : MessagesConfig} {DLA : DispatchLaws WA} {OBA : ObservedRuntime WA} {SPA : StorageProofs WA}.
Context {WB : Type} {MDB : MessageDispatch WB} {BCB : BridgedChain} {HCB : HeaderChain WB} {PYB : Payments WB}.
Context {MCB : MessagesConfig} {DLB : DispatchLaws WB} {OBB : ObservedRuntime WB} {SPB : StorageProofs WB}.
Variable lane : LaneId.

Abbreviation World := (World (WA := WA) (WB := WB)).
Abbreviation step := (step (BCA := BCA) (MCA := MCA) (BCB := BCB) (MCB := MCB) lane).
Abbreviation inv := (inv (BCA := BCA) (BCB := BCB) lane).

Definition received_at (w : World) : Z := from_option latest_received_nonce 0 (OutboundLanes (lanes (source w)) !! lane).
Definition generated_at (w : World) : Z := from_option latest_generated_nonce 0 (OutboundLanes (lanes (source w)) !! lane).
Definition delivered_by_now (w : World) : Z := delivered_at lane (target w).

(** ** Honest transactions *)

(** A delivery transaction at [w], leading to [w'], made from the state of the bridge at [w0]: the proof
    verifies, brings the lane state and the next message, the target is operational and the declared
    weight covers the messages. *)
Record fresh_delivery (w0 w w' : World) : Prop := {
  fd_call : exists who r (proof : FromBridgedChainMessagesProof (@BridgedHeaderHash WB HCB)) count dw data,
    w' = move_target lane w (snd (receive_messages_proof (BC := BCB) (MC := MCB) (Signed who) r proof count dw (target w))) r /\
    mp_lane proof = lane /\ weight_wf dw /\ count <= u32_max /\
    count <= @MAX_UNCONFIRMED_MESSAGES_IN_CONFIRMATION_TX BCB /\
    verify_and_decode_messages_proof proof count (runtime (target w)) = inr (lane, data) /\
    lane_state data = OutboundLanes (lanes (source w0)) !! lane /\
    (exists m, m ∈ proved_messages data /\ nonce (dmsg_key m) = delivered_by_now w0 + 1) /\
    (exists B, weights_below B (proved_messages data) /\ covers B dw (length (proved_messages data)));
  fd_running : messages_is_halted (PalletOperatingMode (target w)) = false;
  fd_open : exists d, InboundLanes (lanes (target w)) !! lane = Some d /\ in_state d = Opened;
  fd_active : dispatcher_is_active lane (runtime (target w)) = true;
}.

(** A confirmation transaction at [w] made from the state of the target at [w0]. *)
Record fresh_confirmation (w0 w w' : World) : Prop := {
  fc_call : exists who (proof : FromBridgedChainMessagesDeliveryProof (@BridgedHeaderHash WA HCA)) ld,
    w' = move_source w (snd (receive_messages_delivery_proof (MC := MCA) (Signed who) proof
                               (UnrewardedRelayersState_from ld) (source w))) [] /\
    dp_lane proof = lane /\ verify_messages_delivery_proof proof (runtime (source w)) = inr (lane, ld) /\
    InboundLanes (lanes (target w0)) !! lane = Some ld /\
    (forall a b (x : WA), exists k x', confirmation_pay_reward lane (relayers ld) who a b x = (Ok k, x'));
  fc_running : messages_is_halted (PalletOperatingMode (source w)) = false;
}.

(** ** Runs *)

Section runs.
Variable run : nat -> World.
Hypothesis run_initial : initial (BCA := BCA) (BCB := BCB) lane (run 0).
Hypothesis run_steps : forall i, step (run i) (run (S i)).

Lemma run_inv i : exists o d, inv (run i) o d.
Proof.
  induction i as [| i (o & d & IH)]; [eexists _, _; by apply inv_initial |].
  destruct (inv_step lane _ _ _ _ IH (run_steps i)) as (o' & d' & H & _). by exists o', d'.
Qed.

Lemma run_nonces i o d : inv (run i) o d ->
  received_at (run i) = latest_received_nonce o /\ generated_at (run i) = latest_generated_nonce o /\
  delivered_by_now (run i) = last_delivered_nonce d.
Proof.
  intros H. unfold received_at, generated_at, delivered_by_now, delivered_at.
  by rewrite (i_out _ _ _ _ H), (i_in _ _ _ _ H).
Qed.

Lemma past_grows (w w' : World) : step w w' -> forall l, l ∈ target_past w -> l ∈ target_past w'.
Proof. intros [] l Hl; simpl; try done; by right. Qed.

Lemma run_monotone i j : (i <= j)%nat ->
  received_at (run i) <= received_at (run j) /\ generated_at (run i) <= generated_at (run j) /\
  delivered_by_now (run i) <= delivered_by_now (run j) /\ sent (run i) `prefix_of` sent (run j) /\
  lanes (target (run i)) ∈ target_past (run j).
Proof.
  induction 1 as [| j Hij (IH1 & IH2 & IH3 & IH4 & IH5)].
  { destruct (run_inv i) as (o & d & H). split; [done |]. split; [done |]. split; [done |]. split; [done | apply H]. }
  destruct (run_inv j) as (o & d & H). destruct (inv_step lane _ _ _ _ H (run_steps j)) as (o' & d' & H' & M1 & M2 & M3 & M4).
  destruct (run_nonces _ _ _ H) as (E1 & E2 & E3). destruct (run_nonces _ _ _ H') as (E1' & E2' & E3').
  split; [lia |]. split; [lia |]. split; [lia |]. split; [by etrans |]. by eapply past_grows.
Qed.

Hypothesis one_relayer : 1 <= @MAX_UNREWARDED_RELAYERS_IN_CONFIRMATION_TX BCB.
Hypothesis one_message : 1 <= @MAX_UNCONFIRMED_MESSAGES_IN_CONFIRMATION_TX BCB.
Hypothesis nonces_left : forall i, generated_at (run i) < nonce_max.

(** A lane all of whose deliveries are confirmed has room. *)
Lemma confirmed_lane_accepts o (d : InboundLaneData) : inbound_wf (BC := BCB) d ->
  latest_received_nonce o = last_delivered_nonce d -> last_delivered_nonce d < nonce_max ->
  accepts (BC := BCB) (state_update (Some o) d) (last_delivered_nonce d + 1).
Proof.
  intros Hd Ho Hm. destruct (state_update_wf (Some o) d Hd) as (Hw & Hl & _ & _ & _).
  assert (Hc : last_confirmed_nonce (state_update (Some o) d) = last_delivered_nonce d).
  { unfold state_update. pose proof (inbound_order _ Hd). case_bool_decide; simpl; lia. }
  pose proof (chain_grows _ _ (iw_chain _ Hw)) as Hg. rewrite <- last_delivered_chain, Hl, Hc in Hg.
  unfold accepts. rewrite Hl, Hc. split; [done |]. lia.
Qed.

(** A delivery call past its guards whose weight covers the messages returns. *)
Lemma covered_delivery_returns who r (proof : FromBridgedChainMessagesProof (@BridgedHeaderHash WB HCB)) count dw data B d (s : BridgeState WB) :
  messages_is_halted (PalletOperatingMode s) = false -> weight_wf dw -> count <= u32_max ->
  count <= @MAX_UNCONFIRMED_MESSAGES_IN_CONFIRMATION_TX BCB ->
  verify_and_decode_messages_proof proof count (runtime s) = inr (mp_lane proof, data) ->
  InboundLanes (lanes s) !! mp_lane proof = Some d -> in_state d = Opened ->
  dispatcher_is_active (mp_lane proof) (runtime s) = true -> inbound_wf (BC := BCB) d ->
  weights_below B (proved_messages data) -> covers B dw (length (proved_messages data)) ->
  exists aw s', receive_messages_proof (BC := BCB) (MC := MCB) (Signed who) r proof count dw s = (Ok aw, s').
Proof.
  intros Hh Hdw Hc Hm Hv Hd Hst Hact Hwd HB Hcov.
  destruct (receive_messages_proof_eq (BC := BCB) (MC := MCB) who r proof count dw s data d Hh Hm Hv Hd Hst Hact Hwd)
    as (dv0 & Hlane & Htot & Hval & Hleft & ->).
  destruct (verify_messages_range _ _ _ _ _ Hc Hv) as (_ & Hlen & _).
  destruct (receive_each_message_covered (BC := BCB) (MC := MCB) r (proved_messages data) dv0
    (put_inbound (mp_lane proof) (state_update (lane_state data) d) s) B) as (dv & s1 & ->).
  - split; [rewrite Hlane; by apply state_update_wf | lia | by rewrite Hleft].
  - unfold stored. rewrite Hlane. apply lookup_insert_eq.
  - rewrite Htot, Hlen. unfold u32_max, nonce_max in *. lia.
  - done.
  - by rewrite Hleft.
  - by eexists _, _.
Qed.

Lemma delivery_progress k j : (k <= j)%nat -> fresh_delivery (run k) (run j) (run (S j)) ->
  delivered_by_now (run k) <= received_at (run k) -> delivered_by_now (run k) < delivered_by_now (run (S j)).
Proof.
  intros Hkj [(who & r & proof & count & dw & data & Ew & Hlane & Hdw & Hc & Hcm & Hv & Hst & (m & Hm & Hn) & B & HB & Hcov)
    Hrun (d1 & Hd1 & Hop) Hact] Hall.
  destruct (run_monotone k j Hkj) as (M1 & M2 & M3 & _). destruct (run_monotone j (S j) ltac:(lia)) as (_ & _ & M3' & _).
  destruct (decide (delivered_by_now (run k) < delivered_by_now (run j))) as [| Hno]; [lia |].
  destruct (run_inv j) as (o & d & H). destruct (run_nonces _ _ _ H) as (E1 & E2 & E3).
  destruct (run_inv k) as (ok & dk & Hk). destruct (run_nonces _ _ _ Hk) as (K1 & K2 & K3).
  rewrite (i_in _ _ _ _ H) in Hd1. injection Hd1 as <-. rewrite (i_out _ _ _ _ Hk) in Hst.
  pose proof (i_order _ _ _ _ H). pose proof (i_order _ _ _ _ Hk). pose proof (nonces_left j).
  pose proof (sw_inbound _ (i_target_wf _ _ _ _ H)) as Hwf. pose proof (Hwf _ _ (i_in _ _ _ _ H)) as Hwd.
  pose proof (confirmed_lane_accepts ok d Hwd ltac:(lia) ltac:(lia)) as Hacc.
  pose proof (i_in _ _ _ _ H) as Hin. rewrite <- Hlane in Hv, Hin, Hact.
  destruct (covered_delivery_returns who r proof count dw data B d (target (run j)) Hrun Hdw Hc Hcm Hv Hin Hop Hact Hwd HB Hcov)
    as (aw & s' & Hr).
  pose proof (receive_messages_proof_run (BC := BCB) (MC := MCB) (Signed who) r proof count dw (target (run j)) Hwf Hdw Hc) as E.
  rewrite Hr in E, Ew. destruct E as (data' & acc & d0 & d' & HR).
  assert (data' = data) as -> by (pose proof (rc_proof _ _ _ _ _ _ _ _ _ HR) as E; rewrite Hv in E; by injection E).
  assert (d0 = d) as -> by (pose proof (rc_lane _ _ _ _ _ _ _ _ _ HR) as E; rewrite Hin in E; by injection E).
  assert (Hne : acc <> []).
  { apply (rc_progress _ _ _ _ _ _ _ _ _ HR m Hm). rewrite Hst, Hn. by replace (delivered_by_now (run k)) with (last_delivered_nonce d) by lia. }
  destruct (knows_received lane _ _ _ _ _ _ _ _ _ _ H HR Hlane) as (_ & Hd' & _).
  rewrite Ew. unfold delivered_by_now at 2, delivered_at. cbn [target move_target snd].
  rewrite (rc_lanes _ _ _ _ _ _ _ _ _ HR), Hlane. cbn [InboundLanes]. rewrite lookup_insert_eq. cbn [from_option].
  destruct acc; [done |]. simpl in Hd'. lia.
Qed.

Lemma confirmation_progress k j : (k <= j)%nat -> fresh_confirmation (run k) (run j) (run (S j)) ->
  delivered_by_now (run k) <= received_at (run (S j)).
Proof.
  intros Hkj [(who & proof & ld & Ew & Hlane & Hv & Hld & Hpay) Hrun].
  destruct (run_monotone k j Hkj) as (_ & _ & M3 & _ & Hpast). destruct (run_inv j) as (o & d & H).
  destruct (run_nonces _ _ _ H) as (_ & E2 & E3). pose proof (i_order _ _ _ _ H). pose proof (nonces_left j).
  assert (Hk : delivered_by_now (run k) = last_delivered_nonce ld).
  { unfold delivered_by_now, delivered_at. by rewrite Hld. }
  destruct (confirmation_accepted (MCA := MCA) lane (run j) o d who proof ld _ H Hpast Hld Hrun Hlane Hv ltac:(lia) Hpay)
    as (aw & s & o' & Hr & Ho' & Hmax).
  rewrite Hk, Ew, Hr. unfold received_at. cbn [source move_source snd]. rewrite Ho'. simpl. lia.
Qed.

Hypothesis served : forall i, delivered_by_now (run i) < generated_at (run i) ->
  exists k j, (i <= k <= j)%nat /\ fresh_delivery (run k) (run j) (run (S j)).
Hypothesis confirmed : forall i, received_at (run i) < delivered_by_now (run i) ->
  exists k j, (i <= k <= j)%nat /\ fresh_confirmation (run k) (run j) (run (S j)).

(** Whatever is delivered gets confirmed. *)
Lemma eventually_confirmed i n : n <= delivered_by_now (run i) ->
  exists j, (i <= j)%nat /\ n <= received_at (run j) /\ n <= delivered_by_now (run j).
Proof.
  intros Hn. destruct (decide (n <= received_at (run i))) as [| Hno]; [by exists i |].
  destruct (confirmed i ltac:(lia)) as (k & j & Hkj & Hc).
  pose proof (confirmation_progress k j ltac:(lia) Hc). exists (S j). split; [lia |].
  destruct (run_monotone i k ltac:(lia)) as (_ & _ & M & _). destruct (run_monotone i (S j) ltac:(lia)) as (_ & _ & M' & _). lia.
Qed.

(** The next message gets delivered. *)
Lemma eventually_next i : delivered_by_now (run i) < generated_at (run i) ->
  exists j, (i <= j)%nat /\ delivered_by_now (run i) < delivered_by_now (run j).
Proof.
  intros Hlt. destruct (eventually_confirmed i (delivered_by_now (run i)) ltac:(lia)) as (i1 & Hi1 & Hrec & Hdel).
  destruct (run_monotone i i1 Hi1) as (_ & Mg & _).
  destruct (decide (delivered_by_now (run i) < delivered_by_now (run i1))) as [| Heq]; [by exists i1 |].
  destruct (served i1 ltac:(lia)) as (k & j & Hkj & Hd). destruct (run_monotone i1 k ltac:(lia)) as (Mr & _ & Md & _).
  destruct (decide (delivered_by_now (run i) < delivered_by_now (run k))) as [| Hk]; [exists k; split; [lia | done] |].
  exists (S j). split; [lia |]. pose proof (delivery_progress k j ltac:(lia) Hd ltac:(lia)). lia.
Qed.

Lemma eventually_delivered i n : n <= generated_at (run i) ->
  exists j, (i <= j)%nat /\ n <= delivered_by_now (run j).
Proof.
  remember (Z.to_nat (n - delivered_by_now (run i))) as fuel eqn:Ef. revert i Ef.
  induction fuel as [fuel IH] using lt_wf_ind. intros i -> Hn.
  destruct (decide (n <= delivered_by_now (run i))) as [| Hlt]; [by exists i |].
  destruct (eventually_next i ltac:(lia)) as (j & Hij & Hj). destruct (run_monotone i j Hij) as (_ & Mg & _).
  destruct (IH (Z.to_nat (n - delivered_by_now (run j))) ltac:(lia) j eq_refl ltac:(lia)) as (j' & Hj' & Hd).
  exists j'. split; [lia | done].
Qed.

(** C9. Every message arrives: on a lane that is served, each message accepted for sending is, after
    finitely many steps, dispatched by the target chain and confirmed at the source chain, whatever
    else happens in between; neither the limit on unrewarded relayers nor the limit on unconfirmed
    messages can block the lane for good. *)
Theorem every_message_arrives i n p : sent (run i) !! n = Some p ->
  exists j, (i <= j)%nat /\ as_dispatched lane n p ∈ dispatched (runtime (target (run j))) /\
            Z.of_nat n < received_at (run j).
Proof.
  intros Hp. destruct (run_inv i) as (o & d & H). destruct (run_nonces _ _ _ H) as (_ & Eg & _).
  pose proof (i_generated _ _ _ _ H) as Hgen. pose proof (lookup_lt_Some _ _ _ Hp) as Hlt.
  destruct (eventually_delivered i (Z.of_nat n + 1) ltac:(lia)) as (j1 & Hj1 & Hd1).
  destruct (eventually_confirmed j1 (Z.of_nat n + 1) Hd1) as (j & Hj & Hr & Hd).
  exists j. split; [lia |]. split; [| lia]. destruct (run_inv j) as (oj & dj & HJ).
  destruct (run_nonces _ _ _ HJ) as (_ & _ & Ed). destruct (run_monotone i j ltac:(lia)) as (_ & _ & _ & [l El] & _).
  assert (Hin : as_dispatched lane n p ∈ lane_messages lane (dispatched (runtime (target (run j))))).
  { rewrite (i_dispatched _ _ _ _ HJ). apply (list_elem_of_lookup_2 _ n). rewrite list_lookup_imap, lookup_take_lt by lia.
    rewrite El, (lookup_app_l_Some _ _ _ _ Hp). done. }
  unfold lane_messages in Hin. by apply list_elem_of_filter in Hin as [_ Hin].
Qed.
End runs.
End liveness.

(** ** The sample run *)

Lemma sample_fresh_delivery k : (k = 1 \/ k = 2)%nat -> fresh_delivery 7 (sample_run k) sample_world2 sample_world3.
Proof.
  intros Hk. split; [| reflexivity | | reflexivity].
  - exists 1%N, 5%N, sample_proof, 1, sample_weight.
    exists (Build_ProvedLaneMessages (OutboundLanes (lanes (source sample_world1)) !! 7%N) [as_dispatched 7 0 [1; 2; 3]]).
    split; [reflexivity |]. split; [reflexivity |]. split; [by vm_compute |]. split; [by vm_compute |].
    split; [by vm_compute |]. split; [vm_compute; reflexivity |].
    split; [by destruct Hk as [-> | ->] |]. split.
    + eexists. split; [left |]. by destruct Hk as [-> | ->].
    + exists {| ref_time := 10; proof_size := 1 |}. split; [by intros m x _ | by vm_compute].
  - eexists. split; vm_compute; reflexivity.
Qed.

Lemma sample_fresh_confirmation k : (k = 3 \/ k = 4)%nat -> fresh_confirmation 7 (sample_run k) sample_world4 sample_world5.
Proof.
  intros Hk. split; [| reflexivity]. exists 2%N, sample_delivery_proof, sample_lane_data.
  split; [reflexivity |]. split; [reflexivity |]. split; [vm_compute; reflexivity |].
  split; [destruct Hk as [-> | ->]; vm_compute; reflexivity |]. intros a b x. eexists _, _. reflexivity.
Qed.

Lemma sample_served i : delivered_by_now 7 (sample_run i) < generated_at 7 (sample_run i) ->
  exists k j, (i <= k <= j)%nat /\ fresh_delivery 7 (sample_run k) (sample_run j) (sample_run (S j)).
Proof.
  intros Hlt. destruct i as [| [| [| [| [| i]]]]]; try (vm_compute in Hlt; discriminate).
  - exists 1%nat, 2%nat. split; [lia |]. apply sample_fresh_delivery. by left.
  - exists 2%nat, 2%nat. split; [lia |]. apply sample_fresh_delivery. by right.
Qed.

Lemma sample_confirms i : received_at 7 (sample_run i) < delivered_by_now 7 (sample_run i) ->
  exists k j, (i <= k <= j)%nat /\ fresh_confirmation 7 (sample_run k) (sample_run j) (sample_run (S j)).
Proof.
  intros Hlt. destruct i as [| [| [| [| [| i]]]]]; try (vm_compute in Hlt; discriminate).
  - exists 3%nat, 4%nat. split; [lia |]. apply sample_fresh_confirmation. by left.
  - exists 4%nat, 4%nat. split; [lia |]. apply sample_fresh_confirmation. by right.
Qed.

Lemma sample_nonces_left i : generated_at 7 (sample_run i) < nonce_max.
Proof. destruct i as [| [| [| [| [| i]]]]]; vm_compute; reflexivity. Qed.

Lemma every_message_arrives_witness :
  exists j, (1 <= j)%nat /\ as_dispatched 7 0 [1; 2; 3] ∈ dispatched (runtime (target (sample_run j))) /\
            Z.of_nat 0 < received_at 7 (sample_run j).
Proof.
  apply (every_message_arrives (WA := Node) (WB := Node) 7 sample_run).
  - exact sample_initial.
  - exact sample_steps.
  - by vm_compute.
  - by vm_compute.
  - exact sample_nonces_left.
  - exact sample_served.
  - exact sample_confirms.
  - vm_compute. reflexivity.
Defined.
