(* ===== verification/BridgeRelayers.v ===== *)
(** * The bridge relayers pallet

    [src/bridges/modules/relayers/src/lib.rs], [payment_adapter.rs] and [stake_adapter.rs] with the types of
    [src/bridges/primitives/relayers/src]: rewards that the messages pallet registers for relayers and
    that they claim later, and the registrations by which relayers stake on their transactions.  The
    traits [StakeAndSlash] and [PaymentProcedure] are type classes over the storage [C] of the currency;
    the adapters implement them with named reserves and with transfers. *)

From stdpp Require Import base tactics numbers list gmap sorting.
From S2P Require Import Prelude Dispatch System Tokens Fungible Balances BalancesFungible BalancesCurrency.
From S2P Require Import BalancesCalls CurrencyTraits Words BridgeLanes BridgeMessages.
Local Open Scope Z_scope.

(** ** Rewards and registrations *)

Inductive RewardsAccountOwner := OwnerThisChain | OwnerBridgedChain.

#[export] Instance RewardsAccountOwner_eq_dec : EqDecision RewardsAccountOwner.
Proof. solve_decision. Defined.

(** [ChainId] is four bytes. *)
Record RewardsAccountParams := {
  params_owner : RewardsAccountOwner;
  params_bridged_chain_id : N;
  params_lane_id : LaneId;
}.

#[export] Instance RewardsAccountParams_eq_dec : EqDecision RewardsAccountParams.
Proof. solve_decision. Defined.

#[export] Instance RewardsAccountParams_countable : Countable RewardsAccountParams.
Proof.
  refine (inj_countable'
    (fun p => (match params_owner p with OwnerThisChain => true | OwnerBridgedChain => false end,
               params_bridged_chain_id p, params_lane_id p))
    (fun '(o, c, l) => Build_RewardsAccountParams (if o : bool then OwnerThisChain else OwnerBridgedChain) c l) _).
  by intros [[] c l].
Defined.

Definition RewardsAccountParams_new (lane_id : LaneId) (bridged_chain_id : N) (owner : RewardsAccountOwner) :
    RewardsAccountParams :=
  {| params_owner := owner; params_bridged_chain_id := bridged_chain_id; params_lane_id := lane_id |}.

Record Registration := { valid_till : Z; stake : Z }.

Inductive RelayersError :=
  | NoRewardForRelayer
  | FailedToPayReward
  | InvalidRegistrationLease
  | CannotReduceRegistrationLease
  | FailedToReserve
  | FailedToUnreserve
  | NotRegistered
  | RegistrationIsStillActive.

Definition RelayersError_index (e : RelayersError) : Z :=
  match e with
  | NoRewardForRelayer => 0
  | FailedToPayReward => 1
  | InvalidRegistrationLease => 2
  | CannotReduceRegistrationLease => 3
  | FailedToReserve => 4
  | FailedToUnreserve => 5
  | NotRegistered => 6
  | RegistrationIsStillActive => 7
  end.

(** ** Configuration *)

(** [RewardBalance] is an unsigned type of at least 32 bits. *)
Class RelayersConfig := {
  RelayersPalletIndex : Z;
  reward_max : Z;
  reward_max_32 : u32_max <= reward_max;
  DeliveryReward : Z;
  DeliveryReward_range : 0 <= DeliveryReward <= reward_max;
  BridgedChainId : N;
  rewards_account : RewardsAccountParams -> AccountId;
}.

Class StakeAndSlash (C : Type) := {
  RequiredStake : Z;
  RequiredRegistrationLease : Z;
  stake_reserve : AccountId -> Z -> M C unit;
  stake_unreserve : AccountId -> Z -> M C Z;
  stake_repatriate_reserved : AccountId -> AccountId -> Z -> M C Z;
}.

Class PaymentProcedure (C : Type) := {
  Beneficiary : Type;
  Beneficiary_from : AccountId -> Beneficiary;
  pay_reward : AccountId -> RewardsAccountParams -> Z -> Beneficiary -> M C unit;
}.

(** [frame_system::Pallet::block_number] *)
Class BlockNumber (C : Type) := rl_block_number : C -> Z.

(** The entries of a [BTreeMap], in the order of its keys. *)
Definition key_le (x y : AccountId * Z) : Prop := (fst x <= fst y)%N.

#[export] Instance key_le_dec x y : Decision (key_le x y).
Proof. unfold key_le. apply _. Defined.

Definition btree_entries (m : gmap AccountId Z) : list (AccountId * Z) := merge_sort key_le (map_to_list m).

(** [Result::map_err] *)
Definition map_err {S A} (e : DispatchError) (m : M S A) : M S A := fun s =>
  match m s with
  | (Err _, s') => (Err e, s')
  | r => r
  end.

Section relayers.
Context `{RelayersConfig} {C : Type} `{StakeAndSlash C} `{PaymentProcedure C} `{BlockNumber C}.

Inductive RelayersEvent :=
  | RewardRegistered (relayer : AccountId) (reward_kind : RewardsAccountParams) (reward_balance : Z)
  | RewardPaid (relayer : AccountId) (reward_kind : RewardsAccountParams) (reward_balance : Z)
      (beneficiary : Beneficiary)
  | RegistrationUpdated (relayer : AccountId) (registration : Registration)
  | Deregistered (relayer : AccountId)
  | SlashedAndDeregistered (relayer : AccountId) (registration : Registration).

Record RelayersState := {
  rl_currency : C;
  RelayerRewards : gmap (AccountId * RewardsAccountParams) Z;
  RegisteredRelayers : gmap AccountId Registration;
  relayers_events : list RelayersEvent;
}.

Definition RError (e : RelayersError) : DispatchError := ModuleError RelayersPalletIndex (RelayersError_index e).

Definition RelayerRewardsL : Lens RelayersState (gmap (AccountId * RewardsAccountParams) Z) := {|
  lget := RelayerRewards;
  lset m s := Build_RelayersState (rl_currency s) m (RegisteredRelayers s) (relayers_events s);
|}.

Definition RegisteredRelayersL : Lens RelayersState (gmap AccountId Registration) := {|
  lget := RegisteredRelayers;
  lset m s := Build_RelayersState (rl_currency s) (RelayerRewards s) m (relayers_events s);
|}.

Definition with_currency {A} (m : M C A) : M RelayersState A := fun s =>
  let '(r, c) := m (rl_currency s) in
  (r, Build_RelayersState c (RelayerRewards s) (RegisteredRelayers s) (relayers_events s)).

Definition relayers_deposit_event (e : RelayersEvent) : M RelayersState unit :=
  modify (fun s => Build_RelayersState (rl_currency s) (RelayerRewards s) (RegisteredRelayers s)
                     (relayers_events s ++ [e])).

Definition now (s : RelayersState) : Z := rl_block_number (rl_currency s).

(** ** Rewards *)

Definition relayer_reward (relayer : AccountId) (reward_kind : RewardsAccountParams) (s : RelayersState) :
    option Z := RelayerRewards s !! (relayer, reward_kind).

Definition reward_saturating_add (a b : Z) : Z := Z.min reward_max (a + b).
Definition reward_saturating_mul (a b : Z) : Z := Z.min reward_max (a * b).

Definition register_relayer_reward (reward_kind : RewardsAccountParams) (relayer : AccountId)
    (reward_balance : Z) : M RelayersState unit :=
  if reward_balance =? 0 then ret tt else
  map_mutate_exists RelayerRewardsL (relayer, reward_kind) (fun old_reward =>
    let new_reward := reward_saturating_add (default 0 old_reward) reward_balance in
    do relayers_deposit_event (RewardRegistered relayer reward_kind reward_balance) ;;
    ret (tt, Some new_reward)).

Definition do_claim_rewards (relayer : AccountId) (reward_kind : RewardsAccountParams)
    (beneficiary : Beneficiary) : M RelayersState unit :=
  map_try_mutate_exists RelayerRewardsL (relayer, reward_kind) (fun maybe_reward =>
    reward_balance <- ok_or maybe_reward (RError NoRewardForRelayer) ;;
    do map_err (RError FailedToPayReward)
         (with_currency (pay_reward relayer reward_kind reward_balance beneficiary)) ;;
    do relayers_deposit_event (RewardPaid relayer reward_kind reward_balance beneficiary) ;;
    ret (tt, None)).

Definition claim_rewards (origin : RawOrigin) (reward_kind : RewardsAccountParams) : M RelayersState unit :=
  with_storage_layer (
    relayer <- ensure_signed origin ;;
    do_claim_rewards relayer reward_kind (Beneficiary_from relayer)).

Definition claim_rewards_to (origin : RawOrigin) (reward_kind : RewardsAccountParams)
    (beneficiary : Beneficiary) : M RelayersState unit :=
  with_storage_layer (
    relayer <- ensure_signed origin ;;
    do_claim_rewards relayer reward_kind beneficiary).

(** ** Registrations *)

Definition registered_relayer (relayer : AccountId) (s : RelayersState) : option Registration :=
  RegisteredRelayers s !! relayer.

Definition do_unreserve (relayer : AccountId) (amount : Z) : M RelayersState unit :=
  failed_to_unreserve <- with_currency (stake_unreserve relayer amount) ;;
  if negb (failed_to_unreserve =? 0) then fail (RError FailedToUnreserve) else ret tt.

Definition register (origin : RawOrigin) (new_valid_till : Z) : M RelayersState unit :=
  with_storage_layer (
    relayer <- ensure_signed origin ;;
    now <- gets now ;;
    let lease := saturating_sub new_valid_till now in
    do ensure (RequiredRegistrationLease <? lease) (RError InvalidRegistrationLease) ;;
    map_try_mutate_exists RegisteredRelayersL relayer (fun maybe_registration =>
      let registration := default {| valid_till := new_valid_till; stake := 0 |} maybe_registration in
      do ensure (valid_till registration <=? new_valid_till) (RError CannotReduceRegistrationLease) ;;
      do match checked_sub (stake registration) RequiredStake with
         | Some to_unreserve => do_unreserve relayer to_unreserve
         | None =>
             match checked_sub RequiredStake (stake registration) with
             | Some to_reserve =>
                 map_err (RError FailedToReserve) (with_currency (stake_reserve relayer to_reserve))
             | None => ret tt
             end
         end ;;
      let registration := {| valid_till := new_valid_till; stake := RequiredStake |} in
      do relayers_deposit_event (RegistrationUpdated relayer registration) ;;
      ret (tt, Some registration))).

Definition deregister (origin : RawOrigin) : M RelayersState unit :=
  with_storage_layer (
    relayer <- ensure_signed origin ;;
    map_try_mutate_exists RegisteredRelayersL relayer (fun maybe_registration =>
      match maybe_registration with
      | None => fail (RError NotRegistered)
      | Some registration =>
          now <- gets now ;;
          do ensure (valid_till registration <? now) (RError RegistrationIsStillActive) ;;
          do (if negb (stake registration =? 0) then do_unreserve relayer (stake registration) else ret tt) ;;
          do relayers_deposit_event (Deregistered relayer) ;;
          ret (tt, None)
      end)).

Definition is_registration_active (relayer : AccountId) (s : RelayersState) : bool :=
  match registered_relayer relayer s with
  | None => false
  | Some registration =>
      if stake registration <? RequiredStake then false
      else
        let remaining_lease := saturating_sub (valid_till registration) (now s) in
        if remaining_lease <=? RequiredRegistrationLease then false else true
  end.

Inductive ExplicitOrAccountParams :=
  | Explicit (account_id : AccountId)
  | Params (params : RewardsAccountParams).

Definition into_account (a : ExplicitOrAccountParams) : AccountId :=
  match a with
  | Explicit account_id => account_id
  | Params params => rewards_account params
  end.

(** The result of the slash is only logged. *)
Definition slash_and_deregister (relayer : AccountId) (slash_destination : ExplicitOrAccountParams) :
    M RelayersState unit :=
  maybe_registration <- gets (registered_relayer relayer) ;;
  do storage_remove RegisteredRelayersL relayer ;;
  match maybe_registration with
  | None => ret tt
  | Some registration =>
      let slash_destination := into_account slash_destination in
      do try (with_currency (stake_repatriate_reserved relayer slash_destination (stake registration))) ;;
      relayers_deposit_event (SlashedAndDeregistered relayer registration)
  end.

(** ** Rewards for delivered messages *)

(** The loop of [register_relayers_rewards]: what the confirmation relayer has earned is put aside. *)
Fixpoint register_each_reward (confirmation_relayer : AccountId) (confirmation_relayer_reward : Z)
    (relayers_rewards : list (AccountId * Z)) (kind : RewardsAccountParams) (delivery_fee : Z) :
    M RelayersState Z :=
  match relayers_rewards with
  | [] => ret confirmation_relayer_reward
  | (relayer, messages) :: relayers_rewards =>
      let relayer_reward := reward_saturating_mul (Z.min messages reward_max) delivery_fee in
      if negb (relayer =? confirmation_relayer)%N then
        do register_relayer_reward kind relayer relayer_reward ;;
        register_each_reward confirmation_relayer confirmation_relayer_reward relayers_rewards kind delivery_fee
      else
        register_each_reward confirmation_relayer
          (reward_saturating_add confirmation_relayer_reward relayer_reward) relayers_rewards kind delivery_fee
  end.

Definition register_relayers_rewards (confirmation_relayer : AccountId) (relayers_rewards : gmap AccountId Z)
    (kind : RewardsAccountParams) (delivery_fee : Z) : M RelayersState unit :=
  confirmation_relayer_reward <-
    register_each_reward confirmation_relayer 0 (btree_entries relayers_rewards) kind delivery_fee ;;
  register_relayer_reward kind confirmation_relayer confirmation_relayer_reward.

(** [DeliveryConfirmationPaymentsAdapter::pay_reward] *)
Definition adapter_pay_reward (lane_id : LaneId) (messages_relayers : list UnrewardedRelayer)
    (confirmation_relayer : AccountId) (range_begin range_end : Z) : M RelayersState Z :=
  relayers_rewards <- calc_relayers_rewards messages_relayers range_begin range_end ;;
  do register_relayers_rewards confirmation_relayer relayers_rewards
       (RewardsAccountParams_new lane_id BridgedChainId OwnerBridgedChain) DeliveryReward ;;
  ret (Z.of_nat (size relayers_rewards)).

(** The adapter pays for confirmations; [DeliveryPayments] and [OnMessagesDelivered] are the
    implementations for [()]. *)
#[global] Instance DeliveryConfirmationPaymentsAdapter : Payments RelayersState := {|
  delivery_pay_reward _ _ _ _ s := s;
  confirmation_pay_reward := adapter_pay_reward;
  on_messages_delivered _ _ s := s;
|}.
End relayers.

(** ** The adapters to the currency *)

Class StakeConfig `{BalanceType} := {
  Stake : Z;
  Stake_range : is_balance Stake;
  Lease : Z;
  Lease_range : 0 <= Lease;
  ReserveId : N;
}.

#[export] Instance StakeAndSlashNamed {C} `{NamedReservableCurrency C} `{StakeConfig} : StakeAndSlash C := {|
  RequiredStake := Stake;
  RequiredRegistrationLease := Lease;
  stake_reserve relayer amount := nr_reserve_named ReserveId relayer amount;
  stake_unreserve relayer amount := nr_unreserve_named ReserveId relayer amount;
  stake_repatriate_reserved relayer beneficiary amount :=
    nr_repatriate_reserved_named ReserveId relayer beneficiary amount StatusFree;
|}.

(** [T::Balance: From<RewardBalance>] keeps the value. *)
#[export] Instance PayRewardFromAccount `{Config} `{RelayersConfig} : PaymentProcedure State := {|
  Beneficiary := AccountId;
  Beneficiary_from who := who;
  pay_reward _ reward_kind reward beneficiary :=
    do transfer (rewards_account reward_kind) beneficiary reward Expendable ;; ret tt;
|}.

#[export] Instance balances_BlockNumber `{Config} : BlockNumber State := fun s => Number (sys s).
