(* ===== verification/BridgeRelayersFacts.v ===== *)
(** * What the relayers pallet guarantees

    [StakeLaws] and [PaymentLaws] are what the pallet needs of its currency; against them: every stake on
    record stays covered.  The ledger satisfies them.  On the ledger, the calls are exact: what a
    registration reserves, what is given back, slashed, registered as reward and paid. *)

From stdpp Require Import base tactics numbers list gmap relations sorting.
From S2P Require Import Prelude Dispatch System Tokens Fungible Balances BalancesFungible BalancesCurrency.
From S2P Require Import BalancesCalls ClockFacts CurrencyTraits AccountSpec AccountWf Ledger FungibleFacts.
From S2P Require Import TransferFacts CurrencyFacts ReserveFacts RepatriateFacts NamedReserveFacts TraitFacts.
From S2P Require Import Words BridgeLanes BridgeMessages BridgeLaneFacts BridgeMessagesFacts.
From S2P Require Import BridgeRelayers.
Local Open Scope Z_scope.

(** ** What the pallet needs of the currency *)

Class CurrencyView (C : Type) := {
  currency_ok : C -> Prop;
  staked : AccountId -> C -> Z;
}.

(** The stake of [who] has changed by [n], and nothing else of interest. *)
Record restaked `{CurrencyView C} `{BlockNumber C} (who : AccountId) (n : Z) (c c' : C) : Prop := {
  rk_ok : currency_ok c';
  rk_staked : staked who c' = staked who c + n;
  rk_others : forall w, w <> who -> staked w c' = staked w c;
  rk_clock : rl_block_number c' = rl_block_number c;
}.

Class StakeLaws (C : Type) `{CurrencyView C} `{BlockNumber C} `{StakeAndSlash C} : Prop := {
  required_stake_nonneg : 0 <= RequiredStake;
  staked_nonneg who c : currency_ok c -> 0 <= staked who c;
  reserve_law who v c : currency_ok c -> 0 <= v <= RequiredStake ->
    match stake_reserve who v c with
    | (Ok _, c') => restaked who v c c'
    | (Err _, _) => True
    | (Panic, _) => False
    end;
  unreserve_law who v c : currency_ok c -> 0 <= v <= staked who c ->
    match stake_unreserve who v c with
    | (Ok rest, c') => 0 <= rest <= v /\ restaked who (rest - v) c c'
    | _ => False
    end;
  repatriate_law who dest v c : currency_ok c -> 0 <= v <= staked who c ->
    match stake_repatriate_reserved who dest v c with
    | (Ok rest, c') => 0 <= rest <= v /\ restaked who (rest - v) c c'
    | (Err _, c') => restaked who 0 c c'
    | (Panic, _) => False
    end;
}.

Class PaymentLaws (C : Type) `{CurrencyView C} `{BlockNumber C} `{RelayersConfig} `{PaymentProcedure C} : Prop :=
  payment_law who kind v b c : currency_ok c -> 0 <= v <= reward_max ->
    match pay_reward who kind v b c with
    | (Ok _, c') => restaked who 0 c c'
    | (Err _, _) => True
    | (Panic, _) => False
    end.

Section relayers.
Context `{RC : RelayersConfig} {C : Type} `{CV : CurrencyView C} `{BN : BlockNumber C} `{SS : StakeAndSlash C}.
Context `{PP : PaymentProcedure C}.
Context `{SL : !StakeLaws C} `{PL : !PaymentLaws C}.
Abbreviation RState := (RelayersState (C := C)).

Lemma reward_max_pos : 0 < reward_max.
Proof. pose proof reward_max_32. unfold u32_max in *. lia. Qed.

(** The registrations are covered by what the scheme holds; rewards are positive and in range. *)
Record relayers_ok (s : RState) : Prop := {
  ro_currency : currency_ok (rl_currency s);
  ro_covered who reg : RegisteredRelayers s !! who = Some reg -> 0 <= stake reg <= staked who (rl_currency s);
  ro_rewards k v : RelayerRewards s !! k = Some v -> 0 < v <= reward_max;
}.

(** ** The calls, run on the storage *)

Lemma do_unreserve_run who v (s : RState) : relayers_ok s -> 0 <= v <= staked who (rl_currency s) ->
  match do_unreserve who v s with
  | (Ok _, s') => exists c, stake_unreserve who v (rl_currency s) = (Ok 0, c) /\
      restaked who (- v) (rl_currency s) c /\
      s' = Build_RelayersState c (RelayerRewards s) (RegisteredRelayers s) (relayers_events s)
  | (Err e, _) => e = RError FailedToUnreserve /\
      exists rest c, stake_unreserve who v (rl_currency s) = (Ok rest, c) /\ rest <> 0
  | (Panic, _) => False
  end.
Proof.
  intros Hs Hv. pose proof (unreserve_law who v _ (ro_currency _ Hs) Hv) as E.
  unfold do_unreserve, bind, with_currency. destruct (stake_unreserve who v (rl_currency s)) as [[rest | e |] c]; [| done | done].
  destruct E as [Hr E]. destruct (Z.eqb_spec rest 0) as [-> | Hne]; cbn.
  - exists c. split; [done |]. split; [| done]. by replace (- v) with (0 - v) by lia.
  - split; [done |]. by exists rest, c.
Qed.

(** The part of [register] that moves the stake. *)
Definition adjust_stake (relayer : AccountId) (old : Z) : M RState unit :=
  match checked_sub old RequiredStake with
  | Some to_unreserve => do_unreserve relayer to_unreserve
  | None =>
      match checked_sub RequiredStake old with
      | Some to_reserve =>
          map_err (RError FailedToReserve) (with_currency (stake_reserve relayer to_reserve))
      | None => ret tt
      end
  end.

Lemma adjust_stake_run who old (s : RState) : relayers_ok s -> 0 <= old <= staked who (rl_currency s) ->
  match adjust_stake who old s with
  | (Ok _, s') => exists c, restaked who (RequiredStake - old) (rl_currency s) c /\
      (if RequiredStake <=? old then stake_unreserve who (old - RequiredStake) (rl_currency s) = (Ok 0, c)
       else stake_reserve who (RequiredStake - old) (rl_currency s) = (Ok tt, c)) /\
      s' = Build_RelayersState c (RelayerRewards s) (RegisteredRelayers s) (relayers_events s)
  | (Err e, _) =>
      if RequiredStake <=? old
      then e = RError FailedToUnreserve /\ exists rest c,
             stake_unreserve who (old - RequiredStake) (rl_currency s) = (Ok rest, c) /\ rest <> 0
      else e = RError FailedToReserve /\ exists e' c,
             stake_reserve who (RequiredStake - old) (rl_currency s) = (Err e', c)
  | (Panic, _) => False
  end.
Proof.
  intros Hs Hold. pose proof required_stake_nonneg as Hreq. unfold adjust_stake, checked_sub.
  destruct (Z.leb_spec RequiredStake old) as [Hle | Hlt].
  - assert (Hv : 0 <= old - RequiredStake <= staked who (rl_currency s)) by lia.
    pose proof (do_unreserve_run who (old - RequiredStake) s Hs Hv) as E.
    destruct (do_unreserve who (old - RequiredStake) s) as [[[] | e |] s']; [| done | done].
    destruct E as (c & Hc & Hr & ->). exists c. split; [| done]. by replace (RequiredStake - old) with (- (old - RequiredStake)) by lia.
  - rewrite (proj2 (Z.leb_le _ _)) by lia. unfold map_err, with_currency.
    assert (Hv : 0 <= RequiredStake - old <= RequiredStake) by lia.
    pose proof (reserve_law who (RequiredStake - old) _ (ro_currency _ Hs) Hv) as E.
    destruct (stake_reserve who (RequiredStake - old) (rl_currency s)) as [[[] | e |] c]; [| | done].
    + by exists c.
    + split; [done |]. by exists e, c.
Qed.

Definition old_registration (who : AccountId) (vt : Z) (s : RState) : Registration :=
  default {| valid_till := vt; stake := 0 |} (RegisteredRelayers s !! who).

Lemma old_stake who vt s : relayers_ok s -> 0 <= stake (old_registration who vt s) <= staked who (rl_currency s).
Proof.
  intros Hs. unfold old_registration. destruct (RegisteredRelayers s !! who) as [reg |] eqn:E; simpl.
  - by apply (ro_covered _ Hs).
  - pose proof (staked_nonneg who _ (ro_currency _ Hs)). lia.
Qed.

(** What a registration of [who] until [vt] has done to the currency. *)
Definition stake_moved (who : AccountId) (old : Z) (c c' : C) : Prop :=
  restaked who (RequiredStake - old) c c' /\
  if RequiredStake <=? old then stake_unreserve who (old - RequiredStake) c = (Ok 0, c')
  else stake_reserve who (RequiredStake - old) c = (Ok tt, c').

Definition stake_stuck (who : AccountId) (old : Z) (c : C) (e : DispatchError) : Prop :=
  if RequiredStake <=? old
  then e = RError FailedToUnreserve /\ exists rest c', stake_unreserve who (old - RequiredStake) c = (Ok rest, c') /\ rest <> 0
  else e = RError FailedToReserve /\ exists e' c', stake_reserve who (RequiredStake - old) c = (Err e', c').

Lemma register_run who vt (s : RState) : relayers_ok s ->
  let old := old_registration who vt s in
  match register (Signed who) vt s with
  | (Ok _, s') => RequiredRegistrationLease < saturating_sub vt (now s) /\ valid_till old <= vt /\
      exists c, stake_moved who (stake old) (rl_currency s) c /\
        s' = Build_RelayersState c (RelayerRewards s)
               (<[who := {| valid_till := vt; stake := RequiredStake |}]> (RegisteredRelayers s))
               (relayers_events s ++ [RegistrationUpdated who {| valid_till := vt; stake := RequiredStake |}])
  | (Err e, s') => s' = s /\
      (e = RError InvalidRegistrationLease /\ saturating_sub vt (now s) <= RequiredRegistrationLease \/
       e = RError CannotReduceRegistrationLease /\ vt < valid_till old \/
       stake_stuck who (stake old) (rl_currency s) e)
  | (Panic, _) => False
  end.
Proof.
  intros Hs old. unfold register, with_storage_layer. unfold bind at 1. cbn [ensure_signed ret].
  unfold bind at 1, gets at 1. unfold bind at 1, ensure at 1.
  destruct (Z.ltb_spec RequiredRegistrationLease (saturating_sub vt (now s))); [| by split; [| left]].
  cbn [ret]. unfold map_try_mutate_exists. cbn [lget RegisteredRelayersL]. fold (old_registration who vt s). fold old.
  unfold bind at 1, ensure at 1. destruct (Z.leb_spec (valid_till old) vt); [| by split; [| right; left]].
  cbn [ret]. unfold bind at 1. fold (adjust_stake who (stake old)).
  pose proof (adjust_stake_run who (stake old) s Hs (old_stake who vt s Hs)) as E.
  destruct (adjust_stake who (stake old) s) as [[[] | e |] s']; [| by split; [| right; right] | done].
  destruct E as (c & Hr & Hm & ->). cbn. split; [done |]. split; [done |]. by exists c.
Qed.

Lemma deregister_run who (s : RState) : relayers_ok s ->
  match deregister (Signed who) s with
  | (Ok _, s') => exists reg c, RegisteredRelayers s !! who = Some reg /\ valid_till reg < now s /\
      restaked who (- stake reg) (rl_currency s) c /\
      (if stake reg =? 0 then c = rl_currency s else stake_unreserve who (stake reg) (rl_currency s) = (Ok 0, c)) /\
      s' = Build_RelayersState c (RelayerRewards s) (delete who (RegisteredRelayers s))
             (relayers_events s ++ [Deregistered who])
  | (Err e, s') => s' = s /\
      match RegisteredRelayers s !! who with
      | None => e = RError NotRegistered
      | Some reg =>
          e = RError RegistrationIsStillActive /\ now s <= valid_till reg \/
          e = RError FailedToUnreserve /\ valid_till reg < now s /\
          exists rest c, stake_unreserve who (stake reg) (rl_currency s) = (Ok rest, c) /\ rest <> 0
      end
  | (Panic, _) => False
  end.
Proof.
  intros Hs. unfold deregister, with_storage_layer. unfold bind at 1. cbn [ensure_signed ret].
  unfold map_try_mutate_exists. cbn [lget RegisteredRelayersL].
  destruct (RegisteredRelayers s !! who) as [reg |] eqn:Er; [| done]. pose proof (ro_covered _ Hs _ _ Er) as Hcov.
  unfold bind at 1, gets at 1. unfold bind at 1, ensure at 1.
  destruct (Z.ltb_spec (valid_till reg) (now s)); [| by split; [| left]]. cbn [ret]. unfold bind at 1.
  destruct (Z.eqb_spec (stake reg) 0) as [E0 | E0]; cbn [negb].
  - cbn. exists reg, (rl_currency s). rewrite (proj2 (Z.eqb_eq _ _) E0).
    split; [done |]. split; [done |]. split; [| done]. split; [apply Hs | rewrite E0; lia | done | done].
  - pose proof (do_unreserve_run who (stake reg) s Hs Hcov) as E.
    destruct (do_unreserve who (stake reg) s) as [[[] | e |] s']; [| split; [done | right; by destruct E] | done].
    destruct E as (c & Hc & Hr & ->). cbn. exists reg, c. by rewrite (proj2 (Z.eqb_neq _ _) E0).
Qed.

Lemma slash_call_run who dest (s : RState) : relayers_ok s ->
  match RegisteredRelayers s !! who with
  | None => exists s', slash_and_deregister who dest s = (Ok tt, s') /\ rl_currency s' = rl_currency s /\
      RelayerRewards s' = RelayerRewards s /\ RegisteredRelayers s' = RegisteredRelayers s /\
      relayers_events s' = relayers_events s
  | Some reg => exists r c, stake_repatriate_reserved who (into_account dest) (stake reg) (rl_currency s) = (r, c) /\
      match r with
      | Ok rest => 0 <= rest <= stake reg /\ restaked who (rest - stake reg) (rl_currency s) c
      | Err _ => restaked who 0 (rl_currency s) c
      | Panic => False
      end /\
      slash_and_deregister who dest s =
        (Ok tt, Build_RelayersState c (RelayerRewards s) (delete who (RegisteredRelayers s))
                  (relayers_events s ++ [SlashedAndDeregistered who reg]))
  end.
Proof.
  intros Hs. unfold slash_and_deregister. unfold bind at 1, gets at 1, registered_relayer.
  destruct (RegisteredRelayers s !! who) as [reg |] eqn:Er.
  - pose proof (repatriate_law who (into_account dest) (stake reg) _ (ro_currency _ Hs) (ro_covered _ Hs _ _ Er)) as E.
    unfold bind, storage_remove, modify, try, with_currency. cbn.
    destruct (stake_repatriate_reserved who (into_account dest) (stake reg) (rl_currency s)) as [r c] eqn:Ec.
    exists r, c. by destruct r as [rest | e |].
  - unfold bind at 1, gets at 1. rewrite Er. cbn. eexists. split; [done |]. cbn. split; [done |]. split; [done |].
    split; [by apply delete_id | done].
Qed.

Lemma do_claim_run who kind b (s : RState) : relayers_ok s ->
  match with_storage_layer (do_claim_rewards who kind b) s with
  | (Ok _, s') => exists v c, RelayerRewards s !! (who, kind) = Some v /\
      pay_reward who kind v b (rl_currency s) = (Ok tt, c) /\ restaked who 0 (rl_currency s) c /\
      s' = Build_RelayersState c (delete (who, kind) (RelayerRewards s)) (RegisteredRelayers s)
             (relayers_events s ++ [RewardPaid who kind v b])
  | (Err e, s') => s' = s /\
      match RelayerRewards s !! (who, kind) with
      | None => e = RError NoRewardForRelayer
      | Some v => e = RError FailedToPayReward /\ exists e' c, pay_reward who kind v b (rl_currency s) = (Err e', c)
      end
  | (Panic, _) => False
  end.
Proof.
  intros Hs. unfold with_storage_layer, do_claim_rewards, map_try_mutate_exists. cbn [lget RelayerRewardsL].
  destruct (RelayerRewards s !! (who, kind)) as [v |] eqn:Ev; [| done]. pose proof (ro_rewards _ Hs _ _ Ev) as Hv.
  cbn [ok_or]. unfold bind at 1. cbn [ret]. unfold bind at 1, map_err, with_currency.
  assert (Hv' : 0 <= v <= reward_max) by lia. pose proof (payment_law who kind v b _ (ro_currency _ Hs) Hv') as E.
  destruct (pay_reward who kind v b (rl_currency s)) as [[[] | e |] c] eqn:Ec; [| | done].
  - cbn. by exists v, c.
  - split; [done |]. split; [done |]. by exists e, c.
Qed.

(** ** Registering rewards *)

Definition reward_of (who : AccountId) (kind : RewardsAccountParams) (s : RState) : Z :=
  default 0 (RelayerRewards s !! (who, kind)).

Definition rewards_in_range (s : RState) : Prop :=
  forall k v, RelayerRewards s !! k = Some v -> 0 < v <= reward_max.

(** Rewards have changed, and nothing else but the event log. *)
Record rewarded_by (s s' : RState) : Prop := {
  rb_currency : rl_currency s' = rl_currency s;
  rb_registered : RegisteredRelayers s' = RegisteredRelayers s;
  rb_range : rewards_in_range s -> rewards_in_range s';
}.

#[local] Instance rewarded_by_preorder : PreOrder rewarded_by.
Proof.
  split; [by split |]. intros s1 s2 s3 [A1 A2 A3] [B1 B2 B3]. split; [congruence | congruence | intros Hr; exact (B3 (A3 Hr))].
Qed.

Lemma reward_of_range who kind s : rewards_in_range s -> 0 <= reward_of who kind s <= reward_max.
Proof.
  intros Hs. unfold reward_of. destruct (RelayerRewards s !! _) as [v |] eqn:E; simpl.
  - specialize (Hs _ _ E). lia.
  - pose proof reward_max_pos. lia.
Qed.

Lemma register_relayer_reward_run kind who v (s : RState) : 0 <= v -> rewards_in_range s ->
  exists s', register_relayer_reward kind who v s = (Ok tt, s') /\ rewarded_by s s' /\
    reward_of who kind s' = reward_saturating_add (reward_of who kind s) v /\
    forall w k, (w, k) <> (who, kind) -> reward_of w k s' = reward_of w k s.
Proof.
  intros Hv Hs. unfold register_relayer_reward. pose proof (reward_of_range who kind s Hs) as Hr.
  unfold reward_saturating_add. destruct (Z.eqb_spec v 0) as [-> | Hne].
  - exists s. split; [done |]. split; [done |]. split; [lia | done].
  - cbn. eexists. split; [done |]. unfold reward_of at 1. cbn. rewrite lookup_insert_eq. split; [| split; [done |]].
    + split; [done | done |]. intros Hold k v'. cbn [RelayerRewards]. rewrite lookup_insert_Some. unfold reward_of in Hr.
      intros [[_ <-] | [_ ?]]; [| by eapply Hold]. pose proof reward_max_pos. lia.
    + intros w k Hk. unfold reward_of. cbn. by rewrite lookup_insert_ne.
Qed.

(** What [n] messages earn. *)
Definition earned (n : Z) (fee : Z) : Z := reward_saturating_mul (Z.min n reward_max) fee.

Lemma earned_nonneg n fee : 0 <= n -> 0 <= fee -> 0 <= earned n fee <= reward_max.
Proof. intros. pose proof reward_max_pos. unfold earned, reward_saturating_mul. nia. Qed.

Lemma earned_0 fee : earned 0 fee = 0.
Proof. pose proof reward_max_pos. unfold earned, reward_saturating_mul. lia. Qed.

Lemma reward_add_0 a : 0 <= a <= reward_max -> reward_saturating_add a 0 = a.
Proof. unfold reward_saturating_add. lia. Qed.

Lemma register_each_reward_run conf put_aside l kind fee (s : RState) :
  0 <= put_aside <= reward_max -> 0 <= fee -> rewards_in_range s -> Forall (fun e => 0 <= snd e) l -> NoDup (l.*1) ->
  exists s', register_each_reward conf put_aside l kind fee s =
      (Ok (reward_saturating_add put_aside (earned (default 0 ((list_to_map l : gmap AccountId Z) !! conf)) fee)), s') /\
    rewarded_by s s' /\ reward_of conf kind s' = reward_of conf kind s /\
    (forall w, w <> conf -> reward_of w kind s' =
       reward_saturating_add (reward_of w kind s) (earned (default 0 ((list_to_map l : gmap AccountId Z) !! w)) fee)) /\
    forall w k, k <> kind -> reward_of w k s' = reward_of w k s.
Proof.
  revert put_aside s. induction l as [| [r n] l IH]; intros p s Hp Hfee Hs Hl Hnd; cbn [register_each_reward].
  { exists s. simpl. rewrite earned_0, reward_add_0 by done. split; [done |]. split; [done |].
    split; [done |]. split; [| done]. intros w _. rewrite lookup_empty. simpl.
    by rewrite earned_0, reward_add_0 by by apply reward_of_range. }
  apply Forall_cons in Hl as [Hn Hl]. simpl in Hn, Hnd. apply NoDup_cons in Hnd as [Hr Hnd].
  apply (not_elem_of_list_to_map_1 (M := gmap AccountId)) in Hr. fold (earned n fee).
  change (list_to_map ((r, n) :: l) : gmap AccountId Z) with (<[r := n]> (list_to_map l) : gmap AccountId Z).
  pose proof (earned_nonneg n fee Hn Hfee) as He. destruct (N.eqb_spec r conf) as [-> | Hne]; cbn [negb].
  - destruct (IH (reward_saturating_add p (earned n fee)) s) as (s' & Hrun & Hby & Hc & Hw & Hk); try done.
    { unfold reward_saturating_add. lia. }
    exists s'. rewrite lookup_insert_eq. rewrite Hr in Hrun. simpl in Hrun |- *. rewrite earned_0, reward_add_0 in Hrun
      by (unfold reward_saturating_add; lia). split; [done |]. split; [done |]. split; [done |]. split; [| done].
    intros w Hne. rewrite lookup_insert_ne by done. by apply Hw.
  - destruct (register_relayer_reward_run kind r (earned n fee) s) as (s1 & Hr0 & Hb1 & Hr1 & Ho1); [lia | done |].
    destruct (IH p s1) as (s' & Hrun & Hby & Hc & Hw & Hk); try done; [exact (rb_range _ _ Hb1 Hs) |].
    exists s'. unfold bind. rewrite Hr0, Hrun, lookup_insert_ne by done. split; [done |]. split; [by etrans |].
    split; [rewrite Hc; apply Ho1; congruence |]. split.
    + intros w Hwc. rewrite Hw by done. destruct (decide (w = r)) as [-> | Hwr].
      * rewrite Hr, lookup_insert_eq. simpl. rewrite earned_0, reward_add_0, Hr1; [done |].
        apply reward_of_range. exact (rb_range _ _ Hb1 Hs).
      * rewrite lookup_insert_ne by done. by rewrite Ho1 by congruence.
    + intros w k Hkk. rewrite Hk by done. apply Ho1. congruence.
Qed.

Lemma btree_entries_lookup m w : (list_to_map (btree_entries m) : gmap AccountId Z) !! w = m !! w.
Proof.
  f_equal. etrans; [| apply list_to_map_to_list]. apply list_to_map_proper; [| apply merge_sort_Permutation].
  unfold btree_entries. rewrite merge_sort_Permutation. apply NoDup_fst_map_to_list.
Qed.

(** Everyone gets what the messages they delivered earn, whoever confirms. *)
Lemma register_relayers_rewards_run conf m kind fee (s : RState) :
  0 <= fee -> rewards_in_range s -> map_Forall (fun _ n => 0 <= n) m ->
  exists s', register_relayers_rewards conf m kind fee s = (Ok tt, s') /\ rewarded_by s s' /\
    (forall w, reward_of w kind s' = reward_saturating_add (reward_of w kind s) (earned (default 0 (m !! w)) fee)) /\
    forall w k, k <> kind -> reward_of w k s' = reward_of w k s.
Proof.
  intros Hfee Hs Hm. pose proof reward_max_pos as Hmax.
  destruct (register_each_reward_run conf 0 (btree_entries m) kind fee s) as (s1 & Hrun & Hby & Hc & Hw & Hk); try done.
  - lia.
  - unfold btree_entries. rewrite merge_sort_Permutation. by apply map_Forall_to_list in Hm; eapply Forall_impl; [exact Hm | intros []].
  - unfold btree_entries. rewrite merge_sort_Permutation. apply NoDup_fst_map_to_list.
  - rewrite btree_entries_lookup in Hrun. set (e := earned (default 0 (m !! conf)) fee) in *.
    assert (He : 0 <= e <= reward_max).
    { apply earned_nonneg; [| done]. destruct (m !! conf) as [n |] eqn:E; simpl; [by apply (Hm _ _ E) | done]. }
    assert (Hse : reward_saturating_add 0 e = e) by (unfold reward_saturating_add; lia). rewrite Hse in Hrun.
    destruct (register_relayer_reward_run kind conf e s1) as (s' & Hr0 & Hb1 & Hr1 & Ho1); [lia | exact (rb_range _ _ Hby Hs) |].
    exists s'. unfold register_relayers_rewards, bind. rewrite Hrun. split; [done |]. split; [by etrans |]. split.
    + intros w. destruct (decide (w = conf)) as [-> | Hne]; [by rewrite Hr1, Hc |].
      rewrite Ho1 by congruence. rewrite Hw by done. by rewrite btree_entries_lookup.
    + intros w k Hkk. rewrite Ho1 by congruence. by apply Hk.
Qed.

Definition lane_kind (lane : LaneId) : RewardsAccountParams :=
  RewardsAccountParams_new lane BridgedChainId OwnerBridgedChain.

(** [n] more messages, by [due], for everyone on the lane. *)
Record pays_due (lane : LaneId) (l : list UnrewardedRelayer) (a b : Z) (s s' : RState) : Prop := {
  pd_rewarded : rewarded_by s s';
  pd_due w : reward_of w (lane_kind lane) s' =
    reward_saturating_add (reward_of w (lane_kind lane) s) (earned (due w l a b) DeliveryReward);
  pd_others w k : k <> lane_kind lane -> reward_of w k s' = reward_of w k s;
}.

Lemma adapter_pay_reward_run lane l conf a b (s : RState) : rewards_in_range s ->
  match adapter_pay_reward lane l conf a b s with
  | (Ok _, s') => pays_due lane l a b s s'
  | (Err _, _) => False
  | (Panic, s') => s' = s
  end.
Proof.
  intros Hs. unfold adapter_pay_reward. unfold bind at 1, calc_relayers_rewards.
  assert (Hp0 : pays ∅ (fun _ => 0)) by done.
  pose proof (calc_relayers_rewards_from_total ∅ (fun _ => 0) l a b s Hp0 (fun _ => Z.le_refl 0)) as E.
  destruct (calc_relayers_rewards_from ∅ l a b s) as [[m | e |] s1]; [| done | done].
  destruct E as [-> Hp]. pose proof DeliveryReward_range as Hd.
  assert (Hm : map_Forall (fun _ n => 0 <= n) m).
  { intros r n Hr. specialize (Hp r). rewrite Hr in Hp. pose proof (due_nonneg r l a b). destruct (decide _); [done |].
    injection Hp as ->. lia. }
  destruct (register_relayers_rewards_run conf m (lane_kind lane) DeliveryReward s (proj1 Hd) Hs Hm)
    as (s' & Hrun & Hby & Hw & Hk).
  unfold bind. fold (lane_kind lane). rewrite Hrun. cbn. split; [done | | done].
  intros w. rewrite Hw. do 2 f_equal. rewrite Hp. destruct (decide _); simpl; lia.
Qed.

(** ** Every stake on record stays covered *)

Inductive relayers_step (s s' : RState) : Prop :=
  | rs_register origin vt res : register origin vt s = (res, s') -> relayers_step s s'
  | rs_deregister origin res : deregister origin s = (res, s') -> relayers_step s s'
  | rs_claim origin kind res : claim_rewards origin kind s = (res, s') -> relayers_step s s'
  | rs_claim_to origin kind b res : claim_rewards_to origin kind b s = (res, s') -> relayers_step s s'
  | rs_slash who dest res : slash_and_deregister who dest s = (res, s') -> relayers_step s s'
  | rs_reward kind who v res : 0 <= v <= reward_max ->
      register_relayer_reward kind who v s = (res, s') -> relayers_step s s'
  | rs_confirmation lane l conf a b res : adapter_pay_reward lane l conf a b s = (res, s') -> relayers_step s s'
  | rs_currency c : currency_ok c -> (forall who, staked who (rl_currency s) <= staked who c) ->
      s' = Build_RelayersState c (RelayerRewards s) (RegisteredRelayers s) (relayers_events s) -> relayers_step s s'.

Lemma relayers_ok_rewarded s s' : relayers_ok s -> rewarded_by s s' -> relayers_ok s'.
Proof.
  intros [H1 H2 H3] [E1 E2 E3]. split; [by rewrite E1 | rewrite E1, E2; done | exact (E3 H3)].
Qed.

(** A registration of [who] put in place or removed together with the stake. *)
Lemma relayers_ok_restaked who n (s : RState) c m ev : relayers_ok s -> restaked who n (rl_currency s) c ->
  (forall w, w <> who -> m !! w = RegisteredRelayers s !! w) ->
  (forall reg, m !! who = Some reg -> 0 <= stake reg <= staked who c) ->
  relayers_ok (Build_RelayersState c (RelayerRewards s) m ev).
Proof.
  intros [H1 H2 H3] [E1 E2 E3 E4] Hm Hw. split; cbn; [done | | done]. intros w reg Hreg.
  destruct (decide (w = who)) as [-> | Hne]; [by apply Hw |]. rewrite E3 by done. apply H2. by rewrite <- Hm.
Qed.

Lemma claim_ok who kind b (s s' : RState) res : relayers_ok s ->
  with_storage_layer (do_claim_rewards who kind b) s = (res, s') -> relayers_ok s'.
Proof.
  intros Hs E. pose proof (do_claim_run who kind b s Hs) as R. rewrite E in R.
  destruct res as [[] | e |]; [| by destruct R as [-> _] | done].
  destruct R as (v & c & _ & _ & [E1 E2 E3 _] & ->). destruct Hs as [H1 H2 H3]. split; cbn; [done | |].
  - intros w reg Hreg. specialize (H2 _ _ Hreg). destruct (decide (w = who)) as [-> | Hne]; [lia | by rewrite E3].
  - intros k v'. rewrite lookup_delete_Some. intros [_ Hk]. by eapply H3.
Qed.

Lemma register_ok who vt (s s' : RState) res : relayers_ok s -> register (Signed who) vt s = (res, s') -> relayers_ok s'.
Proof.
  intros Hs E. pose proof (register_run who vt s Hs) as R. cbv zeta in R. rewrite E in R.
  destruct res as [[] | e |]; [| by destruct R as [-> _] | done].
  destruct R as (_ & _ & c & [Hr _] & ->). pose proof (old_stake who vt s Hs). pose proof required_stake_nonneg.
  eapply relayers_ok_restaked; [done | exact Hr | intros w Hw; by apply lookup_insert_ne |].
  intros reg. rewrite lookup_insert_eq. intros [= <-]. rewrite (rk_staked _ _ _ _ Hr). simpl. lia.
Qed.

Lemma deregister_ok who (s s' : RState) res : relayers_ok s -> deregister (Signed who) s = (res, s') -> relayers_ok s'.
Proof.
  intros Hs E. pose proof (deregister_run who s Hs) as R. rewrite E in R.
  destruct res as [[] | e |]; [| by destruct R as [-> _] | done]. destruct R as (reg & c & _ & _ & Hr & _ & ->).
  eapply relayers_ok_restaked; [done | exact Hr | intros w Hw; by apply lookup_delete_ne |].
  intros reg'. by rewrite lookup_delete_eq.
Qed.

Lemma slash_ok who dest (s s' : RState) res : relayers_ok s -> slash_and_deregister who dest s = (res, s') -> relayers_ok s'.
Proof.
  intros Hs E. pose proof (slash_call_run who dest s Hs) as R. destruct (RegisteredRelayers s !! who) as [reg |].
  - destruct R as (r & c & _ & Hr & R). rewrite R in E. injection E as _ <-.
    assert (exists n, restaked who n (rl_currency s) c) as [n Hn] by (destruct r as [rest | e |]; naive_solver).
    eapply relayers_ok_restaked; [done | exact Hn | intros w Hw; by apply lookup_delete_ne |].
    intros reg'. by rewrite lookup_delete_eq.
  - destruct R as (s1 & R & E1 & E2 & E3 & _). rewrite R in E. injection E as _ <-. destruct Hs as [H1 H2 H3].
    split; [by rewrite E1 | rewrite E1, E3; done | rewrite E2; done].
Qed.

Lemma relayers_step_ok s s' : relayers_ok s -> relayers_step s s' -> relayers_ok s'.
Proof.
  intros Hs [origin vt res E | origin res E | origin kind res E | origin kind b res E | who dest res E
            | kind who v res Hv E | lane l conf a b res E | c Hc Hst ->].
  - destruct origin as [| who | |]; try (by injection E as _ <-). by eapply register_ok.
  - destruct origin as [| who | |]; try (by injection E as _ <-). by eapply deregister_ok.
  - destruct origin as [| who | |]; try (by injection E as _ <-). exact (claim_ok who kind (Beneficiary_from who) s s' res Hs E).
  - destruct origin as [| who | |]; try (by injection E as _ <-). exact (claim_ok who kind b s s' res Hs E).
  - by eapply slash_ok.
  - destruct (register_relayer_reward_run kind who v s (proj1 Hv) (ro_rewards _ Hs)) as (s1 & R & Hby & _).
    rewrite R in E. injection E as _ <-. by eapply relayers_ok_rewarded.
  - pose proof (adapter_pay_reward_run lane l conf a b s (ro_rewards _ Hs)) as R. rewrite E in R.
    destruct res; [eapply relayers_ok_rewarded; [done | apply R] | done | by subst].
  - destruct Hs as [H1 H2 H3]. split; cbn; [done | | done]. intros who reg Hreg. specialize (H2 _ _ Hreg).
    specialize (Hst who). lia.
Qed.

(** C19. Starting without registrations and rewards, whatever relayers, confirmations and the slashing of
    relayers do, on any currency that keeps the laws of [StakeAndSlash] and [PaymentProcedure] and whose
    other uses do not lower what the scheme has on record: the stake of every registration is at most
    what the currency has on record as staked for that relayer (for the ledger, its reserve under the
    pallet's name), and every recorded reward stays positive and within its type.  It is a statement
    about records: whether the balance on record is still reserved depends on the other uses of the
    currency, which may slash it, and [deregister] reports when it is not. *)
Theorem stakes_stay_covered c ev (s : RState) : currency_ok c ->
  rtc relayers_step (Build_RelayersState c ∅ ∅ ev) s ->
  currency_ok (rl_currency s) /\
  (forall who reg, registered_relayer who s = Some reg -> 0 <= stake reg <= staked who (rl_currency s)) /\
  (forall who kind v, relayer_reward who kind s = Some v -> 0 < v <= reward_max).
Proof.
  intros Hc Hr. assert (Hs : relayers_ok s).
  { assert (H0 : relayers_ok (Build_RelayersState c ∅ ∅ ev)) by (split; cbn; [done | intros ? ? [=] | intros ? ? [=]]).
    revert H0. induction Hr; eauto using relayers_step_ok. }
  destruct Hs as [H1 H2 H3]. split; [done |]. split; [exact H2 |]. intros who kind v. apply H3.
Qed.
End relayers.

(** ** Confirmations of the messages pallet *)

Section confirmation.
Context `{RC : RelayersConfig} {C : Type} `{PP : PaymentProcedure C}.
Abbreviation RState := (RelayersState (C := C)).
Context `{MD : MessageDispatch RState} `{BC : BridgedChain} `{HC : HeaderChain RState} `{MC : MessagesConfig}.

Lemma due_empty w l a b : b < a -> due w l a b = 0.
Proof.
  intros Hab. unfold due. induction l as [| e l IH]; [done |]. cbn [list_sum]. rewrite IH. unfold overlap.
  destruct (decide _); lia.
Qed.

Lemma pays_nothing lane l a b (s : RState) : rewards_in_range s -> b < a -> pays_due lane l a b s s.
Proof.
  intros Hs Hab. split; [done | | done]. intros w.
  rewrite due_empty, earned_0, reward_add_0; [done | by apply reward_of_range | done].
Qed.

(** C20. With the relayers pallet as the payment mechanism of the messages pallet, an accepted delivery
    confirmation registers for every relayer exactly the delivery reward times the number of newly
    confirmed messages that the proven inbound lane says it delivered (saturating at the reward
    type), the confirming relayer included and whoever confirms; rewards of other lanes, registrations
    and the currency are untouched, and a repeated confirmation registers nothing. *)
Theorem confirmation_registers_rewards origin proof rs (s s' : BridgeState RState) weight o :
  OutboundLanes (lanes s) !! dp_lane proof = Some o ->
  outbound_wf (dp_lane proof) o (OutboundMessages (lanes s)) -> rewards_in_range (runtime s) ->
  receive_messages_delivery_proof origin proof rs s = (Ok weight, s') ->
  exists ld o', verify_messages_delivery_proof proof (runtime s) = inr (dp_lane proof, ld) /\
    OutboundLanes (lanes s') !! dp_lane proof = Some o' /\
    latest_received_nonce o' = Z.max (latest_received_nonce o) (last_delivered_nonce ld) /\
    rl_currency (runtime s') = rl_currency (runtime s) /\
    RegisteredRelayers (runtime s') = RegisteredRelayers (runtime s) /\
    (forall w, reward_of w (lane_kind (dp_lane proof)) (runtime s') =
       reward_saturating_add (reward_of w (lane_kind (dp_lane proof)) (runtime s))
         (earned (due w (relayers ld) (latest_received_nonce o + 1) (latest_received_nonce o')) DeliveryReward)) /\
    (forall w k, k <> lane_kind (dp_lane proof) -> reward_of w k (runtime s') = reward_of w k (runtime s)).
Proof.
  intros Ho Hwf Hs Hcall.
  destruct (receive_messages_delivery_proof_guards origin proof rs s) as [[e He] | (who & ld & o1 & -> & Hh & Hv & Hrs & Ho1)];
    [congruence |].
  rewrite Ho in Ho1. injection Ho1 as <-.
  pose proof (receive_messages_delivery_proof_eq who proof rs s ld o Hh Hv Hrs Ho (ow_nonces _ _ _ Hwf)) as E.
  cbv zeta in E. rewrite Hcall in E. exists ld.
  assert (exists o', OutboundLanes (lanes s') !! dp_lane proof = Some o' /\
    latest_received_nonce o' = Z.max (latest_received_nonce o) (last_delivered_nonce ld) /\
    pays_due (dp_lane proof) (relayers ld) (latest_received_nonce o + 1) (latest_received_nonce o') (runtime s) (runtime s'))
    as (o' & H1 & H2 & [[H3 H4 _] H5 H6]); [| by exists o'].
  destruct E as [(Hle & Hl & q & Hrun) | (Hlt & _ & _ & _ & Hl & conf & k & w & q & Hpay & Hrun)].
  - exists o. rewrite Hl. split; [done |]. split; [lia |]. rewrite Hrun. simpl. apply pays_nothing; [done | lia].
  - exists (confirmed_out (last_delivered_nonce ld) o). rewrite Hl. cbn [OutboundLanes]. split; [apply lookup_insert_eq |].
    split; [simpl; lia |]. simpl in Hpay, Hrun. subst w.
    pose proof (adapter_pay_reward_run (dp_lane proof) (relayers ld) conf (latest_received_nonce o + 1)
      (last_delivered_nonce ld) (runtime s) Hs) as A. by rewrite Hpay in A.
Qed.
End confirmation.
