(* ===== verification/BridgeRelayersLedger.v ===== *)
(** * The relayers pallet on the ledger

    The balances pallet keeps the laws the relayers pallet needs of its currency: stakes are named
    reserves, rewards are paid by transfers.  With it every call is exact in balances. *)

From stdpp Require Import base tactics numbers list gmap relations.
From S2P Require Import Prelude Dispatch System Tokens Fungible Balances BalancesFungible BalancesCurrency.
From S2P Require Import BalancesCalls ClockFacts CurrencyTraits AccountSpec AccountWf Ledger FungibleFacts.
From S2P Require Import TransferFacts CurrencyFacts ReserveFacts RepatriateFacts NamedReserveFacts TraitFacts.
From S2P Require Import Words BridgeLanes BridgeMessages BridgeLaneFacts BridgeMessagesFacts.
From S2P Require Import BridgeRelayers BridgeRelayersFacts.
Local Open Scope Z_scope.

Section named.
Context `{Config}.

(** ** Slashing a named reserve *)

(** [n] of the reserve [id] of [slashed] has gone to the free balance of [dest]. *)
Record named_slash (id : N) (slashed dest : AccountId) (n : Z) (s s' : State) : Prop := {
  ns_ledger : ledger_ok s';
  ns_gap : gap s' = gap s;
  ns_wf : named_wf s';
  ns_named : named id slashed s' = named id slashed s - n;
  ns_other_names w : w <> slashed -> reserves w s' = reserves w s;
  ns_others w : w <> slashed -> w <> dest -> account w s' = account w s;
  ns_slashed : reserved (account slashed s') = reserved (account slashed s) - n /\
    free (account slashed s') = free (account slashed s) -
      dust_left (with_reserved (account slashed s) (reserved (account slashed s) - n)) (free (account slashed s));
  ns_dest : reserved (account dest s') = reserved (account dest s) /\
    free (account dest s') = free (account dest s) + n - dust_left (account dest s) (free (account dest s) + n);
}.

Lemma ledger_ok_set who l s : ledger_ok s -> ledger_ok (set_reserves who l s).
Proof. intros Hok. by apply (ledger_ok_accts s). Qed.

Lemma account_set w who l s : account w (set_reserves who l s) = account w s.
Proof. done. Qed.

Lemma repatriated_named_slash id slashed dest n l s s1 : named_wf s -> slashed <> dest ->
  repatriated slashed dest n StatusFree s s1 -> vec_wf l ->
  default 0 (reserve_map l !! id) = named id slashed s - n ->
  named_slash id slashed dest n s (set_reserves slashed l s1).
Proof.
  intros Hn Hne [Hok Hg Hl Ho Hsl Hde _] Hv Hm. split.
  - by apply ledger_ok_set.
  - rewrite <- Hg. by apply gap_quiet.
  - by eapply named_wf_set.
  - unfold named, names. by rewrite reserves_set, decide_True.
  - intros w Hw. rewrite reserves_set, decide_False by done. by apply reserves_lists.
  - intros w H1 H2. rewrite account_set, !account_edata. by rewrite Ho.
  - rewrite account_set. by apply Hsl.
  - rewrite account_set. destruct (Hde Hne) as [E1 E2]. split; [done |]. rewrite E2. simpl. done.
Qed.

Lemma named_slash_zero id slashed dest s : ledger_ok s -> named_wf s -> slashed <> dest ->
  named_slash id slashed dest 0 s s.
Proof.
  intros Hok Hn Hne. destruct (repatriated_zero slashed dest StatusFree s Hok) as [_ _ _ _ Hsl Hde _].
  split; try done; [lia | by apply Hsl |].
  destruct (Hde Hne) as [E1 E2]. split; [done |]. rewrite E2 at 1. simpl. done.
Qed.

Lemma repatriate_named_spec id slashed dest v s : ledger_ok s -> named_wf s -> is_balance v -> slashed <> dest ->
  let n := Z.min (Z.min (named id slashed s) v) (bal_reducible_total_balance_on_hold slashed Polite s) in
  wp (cur_repatriate_reserved_named id slashed dest v StatusFree) s (fun r s' =>
    match r with
    | Ok rest => rest = v - n /\ named_slash id slashed dest n s s'
    | Err er => er = Error_into DeadAccount /\ holdings (account dest s) = 0 /\ harmless dest s s' /\ same_lists s s'
    | Panic => False
    end).
Proof.
  intros Hok Hn [Hv0 Hv1] Hne n. pose proof (lo_wf _ Hok) as Hw. pose proof (named_balance id slashed s Hn) as [Hb0 Hb1].
  pose proof (available_le_reserved slashed Polite s Hw) as Hav. unfold cur_repatriate_reserved_named.
  destruct (Z.eqb_spec v 0) as [-> | Hv].
  { apply wp_ret. assert (n = 0) as -> by lia. split; [lia |]. by apply named_slash_zero. }
  rewrite (proj2 (N.eqb_neq _ _)) by done. apply wp_map_try_mutate. simpl. fold (reserves slashed s).
  pose proof (Hn slashed) as [Hs Hlen Ham].
  destruct (search_reserve id (reserves slashed s)) as [i | i] eqn:Hr.
  - destruct (search_found _ id i Hs Hr) as (x & _ & _ & Ha & Hm). pose proof (Ham _ _ Hm) as [Hx0 Hx1].
    assert (Hnm : named id slashed s = rd_amount x) by (unfold named, names; by rewrite Hm).
    unfold n in *. clear n. rewrite Hnm in *. rewrite Ha. set (t := Z.min (rd_amount x) v).
    apply wp_bind, wp_bind. unfold cur_repatriate_reserved. apply wp_bind.
    eapply wp_mono; [apply (do_transfer_reserved_spec slashed dest t BestEffort Polite StatusFree s Hok); unfold is_balance; lia |].
    unfold repatriate_amount. set (n := Z.min t (bal_reducible_total_balance_on_hold slashed Polite s)).
    intros [y | er |] s1; [| | done].
    + intros (-> & _ & Hrep). apply wp_ret, wp_ret.
      assert (Hsat : saturating_sub t (saturating_sub t n) = n) by (unfold saturating_sub; lia). rewrite Hsat.
      unfold rust_sub. rewrite !(proj2 (Z.leb_le _ _)) by lia. apply wp_bind, wp_ret, wp_bind, wp_ret, wp_ret.
      split; [done |]. destruct (set_reserve_amount_map _ id i (rd_amount x - n) Hs Hr) as [Hs' Hm'].
      apply repatriated_named_slash; [done | done | done | | by rewrite Hm', lookup_insert_eq, Hnm].
      split; [done | by rewrite set_reserve_amount_length |].
      rewrite Hm'. apply map_Forall_insert_2; [unfold is_balance; lia | done].
    + intros (_ & _ & _ & Hl & [[Hh [[_ [=]] | [-> Hd]]] | [[=] _]]). done.
  - apply wp_ret. assert (Hnone : names slashed s !! id = None) by (eapply names_None_missing; done).
    assert (Hz : named id slashed s = 0) by (unfold named; by rewrite Hnone).
    assert (n = 0) as -> by lia. split; [lia |].
    apply repatriated_named_slash; [done | done | by apply repatriated_zero | by apply (Hn slashed) |].
    unfold names in Hnone. rewrite Hnone. simpl. lia.
Qed.
End named.

(** ** The ledger keeps the laws *)

(** [T::Balance: From<RewardBalance>]: every reward is a balance. *)
Class RewardFits `{BalanceType} `{RelayersConfig} : Prop := reward_fits : reward_max <= max_value.

#[export] Instance ledger_view `{Config} `{!StakeConfig} : CurrencyView State := {|
  currency_ok c := ledger_ok c /\ named_wf c;
  staked who c := named ReserveId who c;
|}.

Section laws.
Context `{CF : Config} `{RC : RelayersConfig} `{SC : !StakeConfig} `{RF : !RewardFits}.

Lemma named_lists id w s s' : same_lists s s' -> named id w s' = named id w s.
Proof. intros Hl. unfold named, names. by rewrite (reserves_lists _ _ _ Hl). Qed.

Lemma named_wf_lists s s' : same_lists s s' -> named_wf s -> named_wf s'.
Proof. intros Hl Hn w. rewrite (reserves_lists _ _ _ Hl). apply Hn. Qed.

Lemma named_reserves id w s s' : reserves w s' = reserves w s -> named id w s' = named id w s.
Proof. unfold named, names. by intros ->. Qed.

Lemma harmless_ok who s s' : ledger_ok s -> harmless who s s' -> ledger_ok s'.
Proof. intros Hok [Hst _ Ht]. eapply acct_step_ok; [done | done | lia]. Qed.

Lemma restaked_same who (c c' : State) : currency_ok c -> ledger_ok c' -> same_lists c c' ->
  rl_block_number c' = rl_block_number c -> restaked who 0 c c'.
Proof.
  intros [_ Hn] Hok Hl Ht. split; [split; [done | by eapply named_wf_lists] | | | done].
  - simpl. rewrite (named_lists _ _ _ _ Hl). lia.
  - intros w _. simpl. by apply named_lists.
Qed.

Lemma restaked_renamed who m n (c c' : State) : ledger_ok c' -> renamed who m 0 c c' ->
  default 0 (m !! ReserveId) = named ReserveId who c + n -> rl_block_number c' = rl_block_number c ->
  restaked who n c c'.
Proof.
  intros Hok Hr Hm Ht. split; [split; [done | apply Hr] | | | done].
  - simpl. unfold named at 1. by rewrite (rn_names _ _ _ _ _ Hr).
  - intros w Hw. simpl. apply named_reserves. by apply Hr.
Qed.

Lemma restaked_slash who dest n (c c' : State) : named_slash ReserveId who dest n c c' ->
  rl_block_number c' = rl_block_number c -> restaked who (- n) c c'.
Proof.
  intros [] Ht. split; [done | simpl; lia | | done]. intros w Hw. simpl. by apply named_reserves, ns_other_names0.
Qed.

Lemma renamed_ledger who m s s' : ledger_ok s -> renamed who m 0 s s' -> TotalIssuance s' <= TotalIssuance s -> ledger_ok s'.
Proof.
  intros [Hw Hg Hm] Hr Ht. split; [apply Hr | rewrite (rn_gap _ _ _ _ _ Hr); lia | lia].
Qed.

(** What unreserving up to [v] of the stake of [who] does. *)
Lemma unreserve_stake who v (c : State) : currency_ok c -> 0 <= v <= staked who c ->
  let d := account who c in
  let n := Z.min (reserved d) v in
  exists c', stake_unreserve who v c = (Ok (v - n), c') /\ restaked who (- n) c c' /\ gap c' = gap c /\
    (forall w, w <> who -> account w c' = account w c) /\
    reserved (account who c') = reserved d - n /\
    free (account who c') = free d + n - dust_left (with_reserved d (reserved d - n)) (free d + n).
Proof.
  intros [Hok Hn] Hv d n. simpl in *. pose proof (wf_account c who (lo_wf _ Hok)) as [_ [Hr0 _] _]. fold d in Hr0.
  pose proof (unreserve_named_keeps ReserveId who v c) as Hclock.
  destruct (Z.eq_dec v 0) as [-> | Hne].
  - assert (n = 0) as -> by lia. exists c. simpl. split; [unfold cur_unreserve_named; simpl; done |].
    split; [by apply (restaked_same who) |]. split; [done |]. split; [done |]. fold d.
    pose proof (dust_left_self who c (lo_wf _ Hok)) as Hd. fold d in Hd. unfold dust_left in *. simpl.
    rewrite Z.sub_0_r, Z.add_0_r. lia.
  - pose proof (named_balance ReserveId who c Hn) as Hb.
    assert (Hvb : is_balance v) by (destruct Hb; unfold is_balance; lia).
    pose proof (unreserve_named_spec ReserveId who v c Hok Hn Hvb Hne) as E. unfold wp in E. fold d in E.
    rewrite (Z.min_r (named _ _ _)) in E by lia. fold n in E.
    destruct (cur_unreserve_named ReserveId who v c) as [[x | |] c']; simpl in E; [| done | done].
    destruct E as (-> & Hr & [Uf Ur Ui]). fold d in Uf, Ui. exists c'. split; [done |].
    pose proof (dust_left_bounds (with_reserved d (reserved d - n)) (free d + n)).
    pose proof (wf_account c who (lo_wf _ Hok)) as [[Hf0 _] _ _]. fold d in Hf0.
    assert (Hok' : ledger_ok c') by (eapply renamed_ledger; [done | done | lia]).
    split; [| split; [rewrite (rn_gap _ _ _ _ _ Hr); lia | split; [apply Hr | by split]]].
    eapply restaked_renamed; [done | done | | done].
    rewrite released_to; [unfold named; lia | fold (names who c); unfold named in Hv; lia].
Qed.

(** What reserving [v] more for [who] does, when it can be done. *)
Lemma reserve_stake who v (c : State) : currency_ok c -> is_balance v ->
  let d := account who c in
  match stake_reserve who v c with
  | (Ok _, c') => restaked who v c c' /\ gap c' = gap c /\ (forall w, w <> who -> account w c' = account w c) /\
      reserved (account who c') = reserved d + v /\ free (account who c') = free d - v
  | (Err _, _) => v <> 0
  | (Panic, _) => False
  end.
Proof.
  intros [Hok Hn] Hv d. simpl in *. pose proof (reserve_named_keeps ReserveId who v c) as Hclock.
  destruct (Z.eq_dec v 0) as [-> | Hne].
  - unfold cur_reserve_named. simpl. fold d. split; [by apply (restaked_same who) |]. split; [done |]. split; [done |]. lia.
  - pose proof (reserve_named_spec ReserveId who v c Hok Hn Hv Hne) as E. unfold wp in E. fold d in E.
    destruct (cur_reserve_named ReserveId who v c) as [[[] | er |] c']; simpl in E; [| done | done].
    destruct E as (Hr & (Hf & Hre & _) & Ht). simpl in Hf, Hre.
    split; [| split; [rewrite (rn_gap _ _ _ _ _ Hr); lia | split; [apply Hr | by split]]].
    eapply restaked_renamed; [eapply renamed_ledger; [done | done | lia] | done | | done].
    by rewrite lookup_insert_eq.
Qed.

(** What slashing up to [v] of the stake of [who] does. *)
Lemma repatriate_stake who dest v (c : State) : currency_ok c -> 0 <= v <= staked who c -> who <> dest ->
  let n := Z.min v (bal_reducible_total_balance_on_hold who Polite c) in
  match stake_repatriate_reserved who dest v c with
  | (Ok rest, c') => rest = v - n /\ restaked who (- n) c c' /\ named_slash ReserveId who dest n c c'
  | (Err er, c') => er = Error_into DeadAccount /\ holdings (account dest c) = 0 /\ restaked who 0 c c' /\ harmless dest c c'
  | (Panic, _) => False
  end.
Proof.
  intros [Hok Hn] Hv Hne n. simpl in *. pose proof (named_balance ReserveId who c Hn) as Hb.
  assert (Hvb : is_balance v) by (destruct Hb; unfold is_balance; lia).
  pose proof (repatriate_named_keeps ReserveId who dest v StatusFree c) as Hclock.
  pose proof (repatriate_named_spec ReserveId who dest v c Hok Hn Hvb Hne) as E. unfold wp in E.
  rewrite (Z.min_r (named _ _ _)) in E by lia. fold n in E.
  destruct (cur_repatriate_reserved_named ReserveId who dest v StatusFree c) as [[x | er |] c']; [| | done].
  - destruct E as [-> E]. split; [done |]. split; [by eapply restaked_slash | done].
  - destruct E as (-> & Hd & Hh & Hl). split; [done |]. split; [done |]. split; [| done].
    apply (restaked_same who); [done | by eapply harmless_ok | done | done].
Qed.

#[export] Instance ledger_stake_laws : StakeLaws State.
Proof.
  split.
  - apply Stake_range.
  - intros who c [_ Hn]. apply (named_balance ReserveId who c Hn).
  - intros who v c Hc Hv. pose proof Stake_range as [Hs0 Hs1]. simpl in Hv.
    pose proof (reserve_stake who v c Hc ltac:(unfold is_balance; lia)) as E.
    destruct (stake_reserve who v c) as [[[] | |] c']; [apply E | done | done].
  - intros who v c Hc Hv. destruct (unreserve_stake who v c Hc Hv) as (c' & -> & Hr & _).
    pose proof (wf_account c who (lo_wf _ (proj1 Hc))) as [_ [Hr0 _] _]. split; [lia |].
    by replace (v - Z.min (reserved (account who c)) v - v) with (- Z.min (reserved (account who c)) v) by lia.
  - intros who dest v c Hc Hv. destruct (decide (who = dest)) as [<- | Hne].
    + assert (E : stake_repatriate_reserved who who v c = stake_unreserve who v c).
      { simpl. unfold cur_repatriate_reserved_named, cur_unreserve_named. rewrite N.eqb_refl. by destruct (v =? 0). }
      rewrite E. destruct (unreserve_stake who v c Hc Hv) as (c' & -> & Hr & _).
      pose proof (wf_account c who (lo_wf _ (proj1 Hc))) as [_ [Hr0 _] _]. split; [lia |].
      by replace (v - Z.min (reserved (account who c)) v - v) with (- Z.min (reserved (account who c)) v) by lia.
    + pose proof (repatriate_stake who dest v c Hc Hv Hne) as E. cbv zeta in E.
      pose proof (available_le_reserved who Polite c (lo_wf _ (proj1 Hc))).
      set (n := Z.min v (bal_reducible_total_balance_on_hold who Polite c)) in *.
      destruct (stake_repatriate_reserved who dest v c) as [[x | er |] c']; [| | done].
      * destruct E as (-> & Hr & _). split; [lia |]. by replace (v - n - v) with (- n) by lia.
      * by destruct E as (_ & _ & ? & _).
Qed.

#[export] Instance ledger_payment_laws : PaymentLaws State.
Proof.
  intros who kind v b c Hc Hv. simpl. pose proof reward_fits as Hfit. pose proof Hc as [Hok Hn].
  assert (Hb : is_balance v) by (unfold is_balance; lia).
  pose proof (transfer_spec (rewards_account kind) b v Expendable c Hok Hb) as E. unfold wp in E.
  pose proof (transfer_keeps (rewards_account kind) b v Expendable c) as Hclock. unfold bind.
  destruct (transfer (rewards_account kind) b v Expendable c) as [[x | er |] c']; [| done | done].
  destruct E as (_ & [] & _). by apply (restaked_same who).
Qed.
End laws.

Section ledger.
Context `{CF : Config} `{RC : RelayersConfig} `{SC : !StakeConfig} `{RF : !RewardFits}.
Abbreviation RState := (RelayersState (C := State)).

(** ** Registrations *)

Lemma stake_moved_balances who old (c c' : State) : currency_ok c -> 0 <= old <= staked who c ->
  stake_moved who old c c' ->
  reserved (account who c') = reserved (account who c) + (Stake - old) /\
  (old <= Stake -> free (account who c') = free (account who c) - (Stake - old)) /\
  (forall w, w <> who -> account w c' = account w c) /\ gap c' = gap c.
Proof.
  intros Hc Hold [_ Hm]. change RequiredStake with Stake in Hm. pose proof Stake_range as [Hs0 Hs1].
  destruct (Z.leb_spec Stake old) as [Hle | Hlt].
  - assert (Hv : 0 <= old - Stake <= staked who c) by lia.
    destruct (unreserve_stake who (old - Stake) c Hc Hv) as (c1 & E & _ & Hg & Ho & Hr & Hf).
    rewrite Hm in E. injection E as E <-.
    assert (Hmin : Z.min (reserved (account who c)) (old - Stake) = old - Stake) by lia. rewrite Hmin in *.
    split; [lia |]. split; [| done]. intros Hle'. assert (E0 : old - Stake = 0) by lia. rewrite E0 in Hf.
    pose proof (dust_left_self who c (lo_wf _ (proj1 Hc))) as Hd. unfold dust_left in *. simpl in Hf.
    rewrite Z.sub_0_r, Z.add_0_r in Hf. lia.
  - assert (Hv : is_balance (Stake - old)) by (unfold is_balance; lia).
    pose proof (reserve_stake who (Stake - old) c Hc Hv) as E. rewrite Hm in E.
    destruct E as (_ & Hg & Ho & Hr & Hf). done.
Qed.

(** Registering stakes exactly the required amount.  [register] succeeds only with a lease longer than
    required that does not end before the one on record; it then reserves, or gives back, exactly
    the difference between the required stake and the stake on record, touches no other account
    and no reward, loses no token, and leaves the registration active.  An error changes nothing and
    says which condition failed; it never panics. *)
Theorem register_exact who vt (s : RState) : relayers_ok s ->
  let c := rl_currency s in
  let old := default {| valid_till := vt; stake := 0 |} (registered_relayer who s) in
  match register (Signed who) vt s with
  | (Ok _, s') => let c' := rl_currency s' in
      Lease < vt - now s /\ valid_till old <= vt /\ relayers_ok s' /\
      RegisteredRelayers s' = <[who := {| valid_till := vt; stake := Stake |}]> (RegisteredRelayers s) /\
      RelayerRewards s' = RelayerRewards s /\
      named ReserveId who c' = named ReserveId who c + (Stake - stake old) /\
      reserved (account who c') = reserved (account who c) + (Stake - stake old) /\
      (stake old <= Stake -> free (account who c') = free (account who c) - (Stake - stake old)) /\
      (forall w, w <> who -> account w c' = account w c) /\ gap c' = gap c /\
      is_registration_active who s' = true
  | (Err e, s') => s' = s /\
      (e = RError InvalidRegistrationLease /\ vt - now s <= Lease \/
       e = RError CannotReduceRegistrationLease /\ vt < valid_till old \/
       e = RError FailedToReserve /\ stake old < Stake \/
       e = RError FailedToUnreserve /\ reserved (account who c) < stake old - Stake)
  | (Panic, _) => False
  end.
Proof.
  intros Hs c old. pose proof (register_run who vt s Hs) as E. cbv zeta in E.
  pose proof (old_stake who vt s Hs) as Hold. change (old_registration who vt s) with old in E, Hold. pose proof Lease_range as Hl. fold c in E, Hold.
  pose proof Stake_range as [Hst0 Hst1]. simpl in E.
  destruct (register (Signed who) vt s) as [[[] | e |] s'] eqn:Erun; [| | done].
  - destruct E as (Hlease & Hvt & c' & [Hr Hm] & Es). pose proof (register_ok who vt s s' _ Hs Erun) as Hs'.
    assert (Hlease' : Lease < vt - now s) by (unfold saturating_sub in Hlease; lia).
    pose proof (stake_moved_balances who (stake old) c c' (ro_currency _ Hs) Hold (conj Hr Hm)) as (H1 & H2 & H3 & H4).
    subst s'. cbn [rl_currency RegisteredRelayers RelayerRewards]. split_and!; try done.
    + apply (rk_staked _ _ _ _ Hr).
    + unfold is_registration_active, registered_relayer. cbn [RegisteredRelayers]. rewrite lookup_insert_eq.
      change (RequiredStake) with Stake. cbn [stake valid_till]. rewrite Z.ltb_irrefl.
      unfold now in *. cbn [rl_currency]. rewrite (rk_clock _ _ _ _ Hr). change RequiredRegistrationLease with Lease.
      by rewrite (proj2 (Z.leb_gt _ _)).
  - destruct E as [-> E]. split; [done |]. destruct E as [[-> E] | [E | E]].
    + left. split; [done |]. unfold saturating_sub in E. lia.
    + by right; left.
    + unfold stake_stuck in E. change RequiredStake with Stake in E. destruct (Z.leb_spec Stake (stake old)) as [Hle | Hlt].
      * destruct E as (-> & rest & c' & Hu & Hne). right; right; right. split; [done |].
        assert (Hv : 0 <= stake old - Stake <= staked who c) by lia.
        destruct (unreserve_stake who (stake old - Stake) c (ro_currency _ Hs) Hv) as (c1 & E & _).
        rewrite Hu in E. injection E as -> _. lia.
      * destruct E as [-> _]. by right; right; left.
Qed.

Lemma unreserve_all_stake who v (c c' : State) : currency_ok c -> 0 <= v <= staked who c ->
  stake_unreserve who v c = (Ok 0, c') ->
  gap c' = gap c /\ (forall w, w <> who -> account w c' = account w c) /\
  reserved (account who c') = reserved (account who c) - v /\
  free (account who c') = free (account who c) + v -
    dust_left (with_reserved (account who c) (reserved (account who c) - v)) (free (account who c) + v).
Proof.
  intros Hc Hv E. destruct (unreserve_stake who v c Hc Hv) as (c1 & E1 & _ & Hg & Ho & Hr & Hf).
  rewrite E in E1. injection E1 as E1 <-.
  assert (Hmin : Z.min (reserved (account who c)) v = v) by lia. rewrite Hmin in *. done.
Qed.

(** Deregistering gives the stake back.  [deregister] succeeds exactly for a registration that has ended and whose stake
    is still reserved: it removes the registration, moves exactly the stake on record from reserved to
    free balance (less dust), and leaves other accounts and rewards alone.  An error changes nothing and says why;
    it never panics. *)
Theorem deregister_exact who (s : RState) : relayers_ok s ->
  let c := rl_currency s in
  match deregister (Signed who) s with
  | (Ok _, s') => let c' := rl_currency s' in
      exists reg, registered_relayer who s = Some reg /\ valid_till reg < now s /\ relayers_ok s' /\
      RegisteredRelayers s' = delete who (RegisteredRelayers s) /\ RelayerRewards s' = RelayerRewards s /\
      named ReserveId who c' = named ReserveId who c - stake reg /\
      reserved (account who c') = reserved (account who c) - stake reg /\
      free (account who c') = free (account who c) + stake reg -
        dust_left (with_reserved (account who c) (reserved (account who c) - stake reg))
          (free (account who c) + stake reg) /\
      (forall w, w <> who -> account w c' = account w c) /\ gap c' = gap c
  | (Err e, s') => s' = s /\
      match registered_relayer who s with
      | None => e = RError NotRegistered
      | Some reg => e = RError RegistrationIsStillActive /\ now s <= valid_till reg \/
                    e = RError FailedToUnreserve /\ valid_till reg < now s /\ reserved (account who c) < stake reg
      end
  | (Panic, _) => False
  end.
Proof.
  intros Hs c. pose proof (deregister_run who s Hs) as E. unfold registered_relayer in *.
  destruct (deregister (Signed who) s) as [[[] | e |] s'] eqn:Erun; [| | done].
  - destruct E as (reg & c' & Hreg & Hvt & Hr & Hu & Es). pose proof (deregister_ok who s s' _ Hs Erun) as Hs'.
    fold c in Hr, Hu. pose proof (ro_covered _ Hs _ _ Hreg) as Hcov. fold c in Hcov.
    assert (Hu' : stake_unreserve who (stake reg) c = (Ok 0, c')).
    { destruct (Z.eqb_spec (stake reg) 0) as [-> | _]; [by subst c' | done]. }
    destruct (unreserve_all_stake who (stake reg) c c' (ro_currency _ Hs) Hcov Hu') as (H1 & H2 & H3 & H4).
    subst s'. cbn [rl_currency RegisteredRelayers RelayerRewards]. exists reg. split_and!; try done.
    pose proof (rk_staked _ _ _ _ Hr) as Hst. simpl in Hst. lia.
  - destruct E as [-> E]. split; [done |]. destruct (RegisteredRelayers s !! who) as [reg |] eqn:Hreg; [| done].
    destruct E as [E | (-> & Hvt & rest & c' & Hu & Hne)]; [by left |]. right. split; [done |]. split; [done |].
    pose proof (ro_covered _ Hs _ _ Hreg) as Hcov.
    destruct (unreserve_stake who (stake reg) c (ro_currency _ Hs) Hcov) as (c1 & E & _).
    unfold c in E. rewrite Hu in E. injection E as -> _. fold c in Hne. lia.
Qed.

(** ** Slashing *)

(** Slashing a registered relayer never fails outright and always removes the registration: as much of
    the stake as the relayer has reserved and unfrozen goes from its reserve to the free balance of the
    destination, and no token is lost.  But if the destination account does not exist nothing is
    slashed, although the function is documented to slash all staked balance: the stake stays reserved
    under the pallet's name with no registration left, and [deregister] no longer returns it. *)
Theorem slash_exact who dest reg (s : RState) : relayers_ok s -> registered_relayer who s = Some reg ->
  who <> into_account dest ->
  let c := rl_currency s in
  let n := Z.min (stake reg) (reducible_total_balance_on_hold who Polite c) in
  exists s', slash_and_deregister who dest s = (Ok tt, s') /\ relayers_ok s' /\
    registered_relayer who s' = None /\ (forall w, w <> who -> registered_relayer w s' = registered_relayer w s) /\
    RelayerRewards s' = RelayerRewards s /\ gap (rl_currency s') = gap c /\
    (named_slash ReserveId who (into_account dest) n c (rl_currency s') \/
     holdings (account (into_account dest) c) = 0 /\
     named ReserveId who (rl_currency s') = named ReserveId who c /\
     (forall w, holdings (account w (rl_currency s')) = holdings (account w c)) /\
     reserved (account who (rl_currency s')) = reserved (account who c) /\
     deregister (Signed who) s' = (Err (RError NotRegistered), s')).
Proof.
  intros Hs Hreg Hne c n. pose proof (slash_call_run who dest s Hs) as E. unfold registered_relayer in *. rewrite Hreg in E.
  destruct E as (r & c' & Hrep & Hr & E). pose proof (slash_ok who dest s _ _ Hs E) as Hs'.
  pose proof (ro_covered _ Hs _ _ Hreg) as Hcov.
  pose proof (repatriate_stake who (into_account dest) (stake reg) c (ro_currency _ Hs) Hcov Hne) as R. cbv zeta in R.
  unfold c in R. rewrite Hrep in R. fold c in R. eexists. split; [exact E |]. split; [done |].
  cbn [rl_currency RegisteredRelayers RelayerRewards]. split; [apply lookup_delete_eq |].
  split; [intros w Hw; by apply lookup_delete_ne |]. split; [done |].
  destruct r as [rest | er |]; [| | done].
  - destruct R as (_ & _ & R). split; [apply R |]. left. exact R.
  - destruct R as (_ & Hd & Hr0 & Hh). pose proof Hh as [Hst Hb _]. split; [rewrite (as_gap _ _ _ _ Hst); lia |].
    right. split; [done |]. split; [pose proof (rk_staked _ _ _ _ Hr0) as Hk; simpl in Hk; lia |]. split.
    + intros w. destruct (decide (w = into_account dest)) as [-> | Hw]; [by apply balances_eq_holdings |].
      by rewrite (acct_step_account _ _ _ _ w Hst).
    + split; [by rewrite (acct_step_account _ _ _ _ who Hst) |].
      unfold deregister, with_storage_layer, bind, map_try_mutate_exists. cbn. by rewrite lookup_delete_eq.
Qed.

(** ** Claims *)

(** C34. Claiming pays exactly what is on record, once.  A successful claim transfers the whole recorded
    reward from the rewards account to the beneficiary, deletes the record, and a second
    claim fails; a failed claim changes nothing, so a reward that cannot be paid now is kept.
    [claim_rewards] is the claim to oneself.  Neither panics. *)
Theorem claim_exact who kind b (s : RState) : relayers_ok s ->
  let c := rl_currency s in
  claim_rewards (Signed who) kind s = claim_rewards_to (Signed who) kind who s /\
  match claim_rewards_to (Signed who) kind b s with
  | (Ok _, s') => exists v, relayer_reward who kind s = Some v /\ relayers_ok s' /\
      transferred (rewards_account kind) b v c (rl_currency s') /\
      RelayerRewards s' = delete (who, kind) (RelayerRewards s) /\
      RegisteredRelayers s' = RegisteredRelayers s /\
      claim_rewards_to (Signed who) kind b s' = (Err (RError NoRewardForRelayer), s')
  | (Err e, s') => s' = s /\
      match relayer_reward who kind s with
      | None => e = RError NoRewardForRelayer
      | Some v => e = RError FailedToPayReward /\
          (~ transfer_checks (rewards_account kind) b v Expendable c \/
           is_new_logic (flags (account (rewards_account kind) c)) = false)
      end
  | (Panic, _) => False
  end.
Proof.
  intros Hs c. split; [done |]. pose proof (do_claim_run who kind b s Hs) as E. unfold relayer_reward.
  change (claim_rewards_to (Signed who) kind b s) with (with_storage_layer (do_claim_rewards who kind b) s).
  assert (Htr : forall v, RelayerRewards s !! (who, kind) = Some v -> is_balance v).
  { intros v Hv. pose proof (ro_rewards _ Hs _ _ Hv). pose proof reward_fits. unfold is_balance. lia. }
  destruct (with_storage_layer (do_claim_rewards who kind b) s) as [[[] | e |] s'] eqn:Erun; [| | done].
  - destruct E as (v & c' & Hv & Hpay & _ & Es). exists v. split; [done |].
    split; [exact (claim_ok who kind b s s' _ Hs Erun) |]. subst s'. cbn [rl_currency RelayerRewards RegisteredRelayers].
    pose proof (transfer_spec (rewards_account kind) b v Expendable c (proj1 (ro_currency _ Hs)) (Htr v Hv)) as T.
    unfold wp in T. simpl in Hpay. unfold bind in Hpay. fold c in Hpay.
    destruct (transfer (rewards_account kind) b v Expendable c) as [[x | |] c1]; [| done | done].
    injection Hpay as <-. destruct T as (_ & T & _). split; [done |]. split; [done |]. split; [done |].
    unfold claim_rewards_to, with_storage_layer, bind, do_claim_rewards, map_try_mutate_exists. cbn.
    by rewrite lookup_delete_eq.
  - destruct E as [-> E]. split; [done |]. destruct (RelayerRewards s !! (who, kind)) as [v |] eqn:Hv; [| done].
    destruct E as (-> & e' & c' & Hpay). split; [done |].
    pose proof (transfer_spec (rewards_account kind) b v Expendable c (proj1 (ro_currency _ Hs)) (Htr v eq_refl)) as T.
    unfold wp in T. simpl in Hpay. unfold bind in Hpay. fold c in Hpay.
    destruct (transfer (rewards_account kind) b v Expendable c) as [[x | |] c1]; [done | | done].
    destruct T as (_ & [T | [_ T]]); [by left | by right].
Qed.

(** ** Staking and getting it back *)

(** The same storage in block [n]. *)
Definition at_block (n : Z) (s : RState) : RState :=
  let c := rl_currency s in
  let y := sys c in
  Build_RelayersState (set_sys (Build_Sys (Account y) n (ExecutionPhase y) (EventCount y) (Events y)) c)
    (RelayerRewards s) (RegisteredRelayers s) (relayers_events s).

Lemma at_block_ok n s : relayers_ok s -> relayers_ok (at_block n s).
Proof.
  intros [[Hok Hn] Hcov Hrew]. split; [| exact Hcov | exact Hrew]. split; [| exact Hn].
  by apply (ledger_ok_accts (rl_currency s)).
Qed.

(** A stake of which nothing else has been taken comes back whole. *)
Lemma deregister_whole who reg (s : RState) : relayers_ok s -> RegisteredRelayers s !! who = Some reg ->
  valid_till reg < now s -> stake reg <= reserved (account who (rl_currency s)) ->
  exists c, deregister (Signed who) s = (Ok tt, Build_RelayersState c (RelayerRewards s)
      (delete who (RegisteredRelayers s)) (relayers_events s ++ [Deregistered who])) /\
    restaked who (- stake reg) (rl_currency s) c /\ stake_unreserve who (stake reg) (rl_currency s) = (Ok 0, c).
Proof.
  intros Hs Hreg Hvt Hres. pose proof (deregister_run who s Hs) as E. rewrite Hreg in E.
  pose proof (ro_covered _ Hs _ _ Hreg) as Hcov.
  destruct (deregister (Signed who) s) as [[[] | e |] s']; [| | done].
  - destruct E as (reg' & c & [= <-] & _ & Hr & Hu & ->). exists c. split; [done |]. split; [done |].
    destruct (Z.eqb_spec (stake reg) 0) as [-> | _]; [by subst c | done].
  - destruct E as (_ & [[_ E] | (_ & _ & rest & c & Hu & Hne)]); [lia |].
    destruct (unreserve_stake who (stake reg) _ (ro_currency _ Hs) Hcov) as (c1 & E & _).
    rewrite Hu in E. injection E as -> _. lia.
Qed.

(** Registering and, once the registration has ended, deregistering restores the relayer: its free
    and reserved balance and its named reserve are what they were, and so are all other accounts,
    the rewards and the unaccounted issuance. *)
Theorem stake_round_trip who vt n (s s1 : RState) : relayers_ok s -> registered_relayer who s = None ->
  register (Signed who) vt s = (Ok tt, s1) -> vt < n ->
  exists s2, deregister (Signed who) (at_block n s1) = (Ok tt, s2) /\ relayers_ok s2 /\
    RegisteredRelayers s2 = RegisteredRelayers s /\ RelayerRewards s2 = RelayerRewards s /\
    named ReserveId who (rl_currency s2) = named ReserveId who (rl_currency s) /\
    free (account who (rl_currency s2)) = free (account who (rl_currency s)) /\
    reserved (account who (rl_currency s2)) = reserved (account who (rl_currency s)) /\
    (forall w, w <> who -> account w (rl_currency s2) = account w (rl_currency s)) /\
    gap (rl_currency s2) = gap (rl_currency s).
Proof.
  intros Hs Hnone Hrun Hn. pose proof (register_run who vt s Hs) as E. cbv zeta in E.
  pose proof (old_stake who vt s Hs) as Hold. unfold registered_relayer in Hnone. unfold old_registration in E, Hold.
  rewrite Hnone in E, Hold. simpl in Hold. rewrite Hrun in E. destruct E as (_ & _ & c1 & Hmoved & E1).
  pose proof (register_ok who vt s s1 _ Hs Hrun) as Hs1. change (stake _) with 0 in Hmoved.
  destruct (stake_moved_balances who 0 _ c1 (ro_currency _ Hs) Hold Hmoved) as (R1 & F1 & O1 & G1).
  destruct Hmoved as [[_ K1 _ _] _]. pose proof Stake_range as [Hst0 _]. specialize (F1 Hst0).
  pose proof (at_block_ok n s1 Hs1) as Hs1'. pose proof (wf_account (rl_currency s) who (lo_wf _ (proj1 (ro_currency _ Hs)))) as [_ [Hr0 _] _].
  assert (Hreg : RegisteredRelayers (at_block n s1) !! who = Some {| valid_till := vt; stake := Stake |})
    by (subst s1; apply lookup_insert_eq).
  assert (Hacc : forall w, account w (rl_currency (at_block n s1)) = account w c1) by (subst s1; done).
  destruct (deregister_whole who _ _ Hs1' Hreg) as (c2 & Hrun2 & [_ K2 _ _] & Hu); [done | rewrite Hacc; simpl; lia |].
  assert (K2' : named ReserveId who c2 = named ReserveId who c1 + - Stake) by (subst s1; exact K2).
  pose proof (ro_covered _ Hs1' _ _ Hreg) as Hcov.
  destruct (unreserve_all_stake who _ _ c2 (ro_currency _ Hs1') Hcov Hu) as (G2 & O2 & R2 & F2).
  pose proof (deregister_ok who _ _ _ Hs1' Hrun2) as Hs2. eexists. split; [exact Hrun2 |]. split; [done |].
  cbn [rl_currency RegisteredRelayers RelayerRewards]. rewrite Hacc in R2, F2. simpl in R2, F2, K1.
  pose proof (dust_left_self who _ (lo_wf _ (proj1 (ro_currency _ Hs)))) as Hd. unfold dust_left in *. simpl in F2.
  replace (free (account who c1) + Stake) with (free (account who (rl_currency s))) in F2 by lia.
  replace (reserved (account who c1) - Stake) with (reserved (account who (rl_currency s))) in F2 by lia.
  split_and!; try lia.
  - subst s1. cbn. rewrite delete_insert_eq. by apply delete_id.
  - by subst s1.
  - intros w Hw. rewrite O2 by done. rewrite Hacc. by apply O1.
  - rewrite G2. subst s1. rewrite <- G1. by apply gap_quiet.
Qed.
End ledger.
