(* ===== verification/BridgeRelayersSample.v ===== *)
(** * A sample relayers pallet

    The sample chain with the relayers pallet: account 2 stakes 60, rewards are paid from account 2
    or 3, and a messages pallet whose lane 7 has two messages to be confirmed. *)

From stdpp Require Import base tactics numbers list gmap relations.
From S2P Require Import Prelude Dispatch System Tokens Fungible Balances BalancesFungible BalancesCurrency.
From S2P Require Import BalancesCalls CurrencyTraits AccountSpec AccountWf Ledger FungibleFacts TransferFacts.
From S2P Require Import CurrencyFacts ReserveFacts RepatriateFacts NamedReserveFacts Words BridgeLanes BridgeMessages.
From S2P Require Import BridgeLaneFacts BridgeMessagesFacts BridgeRelayers BridgeRelayersFacts.
From S2P Require Import BridgeRelayersLedger.
Local Open Scope Z_scope.

#[local] Existing Instance sample_config.

Definition sample_relayers : RelayersConfig.
Proof.
  refine {| RelayersPalletIndex := 50; reward_max := 2 ^ 64 - 1; DeliveryReward := 5; BridgedChainId := 17;
            rewards_account p := match params_owner p with OwnerThisChain => 3%N | OwnerBridgedChain => 2%N end |}.
  - unfold u32_max. lia.
  - lia.
Defined.

#[local] Existing Instance sample_relayers.

Definition sample_stakes : StakeConfig.
Proof. refine {| Stake := 60; Lease := 8; ReserveId := 98 |}; [split; vm_compute; discriminate | lia]. Defined.

#[local] Existing Instance sample_stakes.

#[local] Instance sample_fits : RewardFits.
Proof. vm_compute. discriminate. Qed.

Abbreviation RState := (RelayersState (C := State)).

Definition unstaked : RState := Build_RelayersState sample_state ∅ ∅ [].
Definition registered : RState := snd (register (Signed 2) 20 unstaked).
Definition kind7 : RewardsAccountParams := RewardsAccountParams_new 7 17 OwnerBridgedChain.
Definition owed : RState := snd (register_relayer_reward kind7 1 15 unstaked).

Lemma sample_currency : currency_ok (rl_currency unstaked).
Proof. split; [sample_ledger | apply named_check_sound; vm_compute; reflexivity]. Qed.

Lemma unstaked_ok : relayers_ok unstaked.
Proof.
  split; [exact sample_currency | intros who reg | intros k v].
  - change (RegisteredRelayers unstaked) with (∅ : gmap AccountId Registration). by rewrite lookup_empty.
  - change (RelayerRewards unstaked) with (∅ : gmap (AccountId * RewardsAccountParams) Z). by rewrite lookup_empty.
Qed.

Lemma run_snd {S A} (m : M S A) s a : fst (m s) = Ok a -> m s = (Ok a, snd (m s)).
Proof. destruct (m s). simpl. by intros ->. Qed.

Lemma registered_run : register (Signed 2) 20 unstaked = (Ok tt, registered).
Proof. apply (run_snd (register (Signed 2) 20)). vm_compute. reflexivity. Qed.

Lemma registered_ok : relayers_ok registered.
Proof. exact (register_ok 2%N 20 unstaked registered _ unstaked_ok registered_run). Qed.

Lemma owed_ok : relayers_ok owed.
Proof.
  refine (relayers_step_ok unstaked owed unstaked_ok (rs_reward _ _ kind7 1%N 15 (Ok tt) _ _)).
  - vm_compute. split; discriminate.
  - apply (run_snd (register_relayer_reward kind7 1 15)). vm_compute. reflexivity.
Qed.

Lemma stakes_stay_covered_witness : 60 <= staked 2%N (rl_currency registered).
Proof.
  refine (proj2 (proj1 (proj2 (stakes_stay_covered sample_state [] registered sample_currency _)) 2%N
    {| valid_till := 20; stake := 60 |} _)).
  - apply rtc_once. exact (rs_register _ _ (Signed 2) 20 (Ok tt) registered_run).
  - vm_compute. reflexivity.
Defined.

Lemma register_exact_witness : reserved (account 2%N (rl_currency registered)) = 60 /\
  is_registration_active 2%N registered = true.
Proof.
  pose proof (register_exact 2%N 20 unstaked unstaked_ok) as W. cbv zeta in W. rewrite registered_run in W.
  destruct W as (_ & _ & _ & _ & _ & _ & W & _ & _ & _ & Wa). split; [| exact Wa].
  rewrite W. vm_compute. reflexivity.
Defined.

Lemma deregister_exact_witness :
  exists s', deregister (Signed 2) (at_block 30 registered) = (Ok tt, s') /\ reserved (account 2%N (rl_currency s')) = 0.
Proof.
  assert (Hrun : fst (deregister (Signed 2) (at_block 30 registered)) = Ok tt) by (vm_compute; reflexivity).
  pose proof (deregister_exact 2%N (at_block 30 registered) (at_block_ok 30 registered registered_ok)) as W. cbv zeta in W.
  destruct (deregister (Signed 2) (at_block 30 registered)) as [[[] | e |] s']; [| discriminate Hrun | discriminate Hrun].
  exists s'. split; [reflexivity |]. destruct W as (reg & Hreg & _ & _ & _ & _ & _ & W & _).
  assert (E : registered_relayer 2%N (at_block 30 registered) = Some {| valid_till := 20; stake := 60 |})
    by (vm_compute; reflexivity).
  rewrite E in Hreg. injection Hreg as <-. rewrite W. vm_compute. reflexivity.
Defined.

Lemma slash_exact_witness :
  exists s', slash_and_deregister 2%N (Explicit 3%N) registered = (Ok tt, s') /\ registered_relayer 2%N s' = None.
Proof.
  destruct (slash_exact 2%N (Explicit 3%N) {| valid_till := 20; stake := 60 |} registered registered_ok)
    as (s' & H1 & _ & H2 & _); [vm_compute; reflexivity | vm_compute; discriminate |].
  exists s'. exact (conj H1 H2).
Defined.

Lemma claim_exact_witness :
  exists s', claim_rewards_to (Signed 1) kind7 1%N owed = (Ok tt, s') /\
    claim_rewards_to (Signed 1) kind7 1%N s' = (Err (RError NoRewardForRelayer), s').
Proof.
  assert (Hrun : fst (claim_rewards_to (Signed 1) kind7 1%N owed) = Ok tt) by (vm_compute; reflexivity).
  pose proof (claim_exact 1%N kind7 1%N owed owed_ok) as W. cbv zeta in W. destruct W as [_ W].
  match type of Hrun with fst ?run = _ => destruct run as [[[] | e |] s'] end;
    [| discriminate Hrun | discriminate Hrun].
  exists s'. split; [reflexivity |]. destruct W as (v & _ & _ & _ & _ & _ & W). exact W.
Defined.

Lemma stake_round_trip_witness :
  exists s2, deregister (Signed 2) (at_block 30 registered) = (Ok tt, s2) /\
    free (account 2%N (rl_currency s2)) = free (account 2%N sample_state).
Proof.
  destruct (stake_round_trip 2%N 20 30 unstaked registered unstaked_ok eq_refl registered_run) as (s2 & H1 & H); [lia |].
  exists s2. split; [exact H1 |]. destruct H as (_ & _ & _ & _ & H & _). exact H.
Defined.

(** ** A confirmation on the messages pallet *)

Definition relayer_entry (who : AccountId) (b e : Z) : UnrewardedRelayer :=
  {| ur_relayer := who; ur_messages := {| dm_begin := b; dm_end := e |} |}.

(** Relayer 1 has delivered message 1, relayer 2 message 2. *)
Definition target_lane : InboundLaneData :=
  {| relayers := [relayer_entry 1 1 1; relayer_entry 2 2 2]; last_confirmed_nonce := 0; in_state := Opened |}.

Section messages.
#[local] Instance relayers_dispatch : MessageDispatch RState := {|
  DispatchPayload := list Z;
  DispatchLevelResult := unit;
  decode_payload p := Some p;
  dispatcher_is_active _ _ := true;
  dispatch_weight m _ := ({| ref_time := 10; proof_size := 1 |}, m);
  dispatch m w := (Build_MessageDispatchResult {| ref_time := 4; proof_size := 0 |} tt, w);
|}.

#[local] Instance relayers_headers : HeaderChain RState := {|
  BridgedHeaderHash := unit;
  StorageProofChecker := unit;
  verify_storage_proof _ _ _ := inr tt;
  read_message_payload _ _ := (inl EmptyVal, tt);
  read_outbound_lane_data _ _ := (inl EmptyVal, tt);
  read_inbound_lane_data _ _ := (inr target_lane, tt);
  ensure_no_unused_keys _ := inr tt;
|}.

#[local] Instance relayers_chain : BridgedChain := {|
  MAX_UNREWARDED_RELAYERS_IN_CONFIRMATION_TX := 2;
  MAX_UNCONFIRMED_MESSAGES_IN_CONFIRMATION_TX := 3;
  max_extrinsic_size := 1000;
  relayer_max_encoded_len := 32;
|}.

#[local] Instance relayers_messages : MessagesConfig := {|
  MessagesPalletIndex := 40;
  receive_messages_proof_weight size count dw :=
    {| ref_time := 100 + 5 * count + ref_time dw; proof_size := size + proof_size dw |};
  receive_messages_delivery_proof_weight size _ := {| ref_time := 100; proof_size := size |};
|}.

Definition source_lane : OutboundLaneData :=
  {| oldest_unpruned_nonce := 1; latest_received_nonce := 0; latest_generated_nonce := 2; out_state := Opened |}.

Definition source_messages : BridgeState RState :=
  {| PalletOwner := None; PalletOperatingMode := Basic Normal;
     lanes := Build_LaneStore ∅ {[ 7%N := source_lane ]} {[ (7%N, 1) := [1]; (7%N, 2) := [2] ]};
     messages_events := []; runtime := unstaked |}.

Definition lane_proof : FromBridgedChainMessagesDeliveryProof (@BridgedHeaderHash RState relayers_headers) :=
  Build_FromBridgedChainMessagesDeliveryProof tt [] 7%N.

Lemma source_lane_wf : outbound_wf 7 source_lane (OutboundMessages (lanes source_messages)).
Proof.
  split; [by vm_compute | by vm_compute | by vm_compute | done |]. intros n. cbn [source_messages lanes OutboundMessages].
  destruct (decide (n = 1)) as [-> | H1]; [rewrite lookup_insert_eq; simpl; split; [lia | by eexists] |].
  rewrite lookup_insert_ne by congruence.
  destruct (decide (n = 2)) as [-> | H2]; [rewrite lookup_singleton_eq; simpl; split; [lia | by eexists] |].
  rewrite lookup_singleton_ne by congruence. simpl. split; [by intros [? [=]] | lia].
Qed.

Lemma confirmation_registers_rewards_witness :
  exists s' weight, receive_messages_delivery_proof (Signed 2) lane_proof (UnrewardedRelayersState_from target_lane)
      source_messages = (Ok weight, s') /\
    reward_of 1%N kind7 (runtime s') = 5 /\ reward_of 2%N kind7 (runtime s') = 5.
Proof.
  eexists _, {| ref_time := 100; proof_size := 0 |}. split.
  { apply run_snd.
    vm_compute. reflexivity. }
  match goal with |- reward_of _ _ (runtime ?s) = _ /\ _ => set (s' := s) end.
  destruct (confirmation_registers_rewards (Signed 2) lane_proof (UnrewardedRelayersState_from target_lane) source_messages s'
    {| ref_time := 100; proof_size := 0 |} source_lane) as (ld & o' & Hv & _ & Hn & _ & _ & Hd & _).
  - reflexivity.
  - exact source_lane_wf.
  - exact (ro_rewards _ unstaked_ok).
  - apply run_snd.
    vm_compute. reflexivity.
  - injection Hv as <-. change kind7 with (lane_kind (dp_lane lane_proof)). rewrite !Hd, Hn. split; vm_compute; reflexivity.
Defined.
End messages.
