(* ===== verification/SortedList.v ===== *)
(** * Sorted lists of accounts

    The traits [SortedListProvider] and [ScoreProvider] of
    [frame/election-provider-support/src/lib.rs]: a list of accounts with scores, kept by one pallet for
    another, which supplies the scores.  Required methods are fields of a class over the storage [S] of
    the implementation, provided methods are definitions over them.  An iterator is the list of what it
    would yield; [None] is an iterator that never ends. *)

From stdpp Require Import base tactics numbers list gmap.
From S2P Require Import Prelude Dispatch System.
Local Open Scope Z_scope.

Class ScoreProvider (W : Type) := score : AccountId -> W -> option Z.

Class SortedListProvider (S : Type) := {
  sl_iter : S -> option (list AccountId);
  sl_lock : S -> S;
  sl_unlock : S -> S;
  sl_iter_from : AccountId -> M S (option (list AccountId));
  sl_count : S -> Z;
  sl_contains : AccountId -> S -> bool;
  on_insert : AccountId -> Z -> M S unit;
  on_update : AccountId -> Z -> M S unit;
  sl_get_score : AccountId -> M S Z;
  on_remove : AccountId -> M S unit;
  sl_unsafe_regenerate : list AccountId -> (AccountId -> option Z) -> M S Z;
  sl_unsafe_clear : S -> S;
}.

Section provided.
Context {S : Type} `{BalanceType} `{SortedListProvider S}.

Definition on_increase (id : AccountId) (additional : Z) : M S unit :=
  old_score <- sl_get_score id ;;
  let new_score := saturating_add old_score additional in
  on_update id new_score.

Definition on_decrease (id : AccountId) (decreased : Z) : M S unit :=
  old_score <- sl_get_score id ;;
  let new_score := saturating_sub old_score decreased in
  if new_score =? 0 then on_remove id else on_update id new_score.
End provided.
