(* ===== verification/StakingLedgers.v ===== *)
(** * Staking ledgers

    [StakingLedger] of [frame/staking/src/lib.rs]: the stake of a stash, part active and part in chunks
    that unlock in a later era, and the functions on it.  [None] is a panic. *)

From stdpp Require Import base tactics numbers list gmap.
From S2P Require Import Prelude Words Helpers128 PerThings System.
Local Open Scope Z_scope.

(** Balances are unsigned integers of [balance_bits] bits. *)
Class StakeWidth := {
  balance_bits : Z;
  balance_bits_ge : 64 <= balance_bits;
}.

Definition stake_max `{StakeWidth} : Z := 2 ^ balance_bits - 1.
Definition stake_saturating_add `{StakeWidth} (a b : Z) : Z := Z.min stake_max (a + b).
Definition stake_add `{StakeWidth} (a b : Z) : option Z := if a + b <=? stake_max then Some (a + b) else None.
Definition stake_sub (a b : Z) : option Z := if b <=? a then Some (a - b) else None.

Record UnlockChunk := { chunk_value : Z; chunk_era : Z }.

(** [lg_controller] is not stored.  The claimed rewards of older releases are left out. *)
Record StakingLedger := {
  lg_stash : AccountId;
  lg_total : Z;
  lg_active : Z;
  lg_unlocking : list UnlockChunk;
  lg_controller : option AccountId;
}.

Definition StakingLedger_new (stash : AccountId) (stake : Z) : StakingLedger := {|
  lg_stash := stash;
  lg_total := stake;
  lg_active := stake;
  lg_unlocking := [];
  lg_controller := Some stash;
|}.

Definition set_total (v : Z) (l : StakingLedger) : StakingLedger :=
  Build_StakingLedger (lg_stash l) v (lg_active l) (lg_unlocking l) (lg_controller l).
Definition set_active (v : Z) (l : StakingLedger) : StakingLedger :=
  Build_StakingLedger (lg_stash l) (lg_total l) v (lg_unlocking l) (lg_controller l).
Definition set_unlocking (v : list UnlockChunk) (l : StakingLedger) : StakingLedger :=
  Build_StakingLedger (lg_stash l) (lg_total l) (lg_active l) v (lg_controller l).
Definition set_controller (v : option AccountId) (l : StakingLedger) : StakingLedger :=
  Build_StakingLedger (lg_stash l) (lg_total l) (lg_active l) (lg_unlocking l) v.

(** ** Withdrawing *)

(** [filter] with its closure, which subtracts what it drops. *)
Fixpoint filter_unlocked (current_era total : Z) (chunks : list UnlockChunk) : Z * list UnlockChunk :=
  match chunks with
  | [] => (total, [])
  | chunk :: chunks =>
      if current_era <? chunk_era chunk then
        let '(total, kept) := filter_unlocked current_era total chunks in (total, chunk :: kept)
      else filter_unlocked current_era (saturating_sub total (chunk_value chunk)) chunks
  end.

Definition consolidate_unlocked (self : StakingLedger) (current_era : Z) : StakingLedger :=
  let '(total, unlocking) := filter_unlocked current_era (lg_total self) (lg_unlocking self) in
  set_unlocking unlocking (set_total total self).

(** ** Taking from the last chunks

    The [while let Some(last) = self.unlocking.last_mut()] loops, on the reversed vector.  A round pops
    the last chunk or reduces it; [None] is a panic or too little fuel. *)

Section loops.
Context `{StakeWidth}.

Fixpoint withdraw_loop (fuel : nat) (to_withdraw withdrawn : Z) (rev_unlocking : list UnlockChunk) : option (list UnlockChunk) :=
  match fuel with
  | O => None
  | S fuel =>
      match rev_unlocking with
      | [] => Some []
      | last :: rest =>
          r ← (if stake_saturating_add withdrawn (chunk_value last) <=? to_withdraw then
                 withdrawn ← stake_add withdrawn (chunk_value last);
                 Some (withdrawn, rest)
               else
                 let diff := saturating_sub to_withdraw withdrawn in
                 withdrawn ← stake_add withdrawn diff;
                 value ← stake_sub (chunk_value last) diff;
                 Some (withdrawn, {| chunk_value := value; chunk_era := chunk_era last |} :: rest));
          let '(withdrawn, rev_unlocking) := r in
          if to_withdraw <=? withdrawn then Some rev_unlocking
          else withdraw_loop fuel to_withdraw withdrawn rev_unlocking
      end
  end.

Definition update_total_stake (self : StakingLedger) (new_total : Z) : option StakingLedger :=
  let old_total := lg_total self in
  let self := set_total new_total self in
  let to_withdraw := saturating_sub old_total new_total in
  if to_withdraw <=? lg_active self then Some (set_active (lg_active self - to_withdraw) self)
  else
    withdrawn ← stake_add 0 (lg_active self);
    let self := set_active 0 self in
    rev_unlocking ← withdraw_loop (S (length (lg_unlocking self))) to_withdraw withdrawn (rev (lg_unlocking self));
    Some (set_unlocking (rev rev_unlocking) self).

Fixpoint rebond_loop (fuel : nat) (value unlocking_balance active : Z) (rev_unlocking : list UnlockChunk) :
    option (Z * Z * list UnlockChunk) :=
  match fuel with
  | O => None
  | S fuel =>
      match rev_unlocking with
      | [] => Some (unlocking_balance, active, [])
      | last :: rest =>
          r ← (if stake_saturating_add unlocking_balance (chunk_value last) <=? value then
                 unlocking_balance ← stake_add unlocking_balance (chunk_value last);
                 active ← stake_add active (chunk_value last);
                 Some (unlocking_balance, active, rest)
               else
                 let diff := saturating_sub value unlocking_balance in
                 unlocking_balance ← stake_add unlocking_balance diff;
                 active ← stake_add active diff;
                 left ← stake_sub (chunk_value last) diff;
                 Some (unlocking_balance, active, {| chunk_value := left; chunk_era := chunk_era last |} :: rest));
          let '(unlocking_balance, active, rev_unlocking) := r in
          if value <=? unlocking_balance then Some (unlocking_balance, active, rev_unlocking)
          else rebond_loop fuel value unlocking_balance active rev_unlocking
      end
  end.

Definition ledger_rebond (self : StakingLedger) (value : Z) : option (StakingLedger * Z) :=
  r ← rebond_loop (S (length (lg_unlocking self))) value 0 (lg_active self) (rev (lg_unlocking self));
  let '(unlocking_balance, active, rev_unlocking) := r in
  Some (set_unlocking (rev rev_unlocking) (set_active active self), unlocking_balance).

(** ** Slashing *)

(** The closure [slash_out_of], on the target, the ledger's total and what remains to be slashed. *)
Definition slash_out_of (maybe_proportional : option Z) (minimum_balance target total slash_remaining : Z) :
    option (Z * Z * Z) :=
  wanted ← match maybe_proportional with
           | Some ratio => mul_ceil Perquintill balance_bits ratio target
           | None => Some slash_remaining
           end;
  let slash_from_target := Z.min (Z.min wanted target) slash_remaining in
  let target := target - slash_from_target in
  let '(target, slash_from_target) :=
    if target <? minimum_balance then (0, stake_saturating_add target slash_from_target)
    else (target, slash_from_target) in
  Some (target, saturating_sub total slash_from_target, saturating_sub slash_remaining slash_from_target).

(** The loop over [slash_chunks_priority], with the map of the slashed chunks. *)
Fixpoint slash_chunks (maybe_proportional : option Z) (minimum_balance : Z) (priority : list nat)
    (unlocking : list UnlockChunk) (total remaining : Z) (slashed_unlocking : gmap Z Z) :
    option (list UnlockChunk * Z * Z * gmap Z Z) :=
  match priority with
  | [] => Some (unlocking, total, remaining, slashed_unlocking)
  | i :: priority =>
      if remaining =? 0 then Some (unlocking, total, remaining, slashed_unlocking)
      else
        match unlocking !! i with
        | None => Some (unlocking, total, remaining, slashed_unlocking)
        | Some chunk =>
            r ← slash_out_of maybe_proportional minimum_balance (chunk_value chunk) total remaining;
            let '(value, total, remaining) := r in
            slash_chunks maybe_proportional minimum_balance priority
              (<[i := {| chunk_value := value; chunk_era := chunk_era chunk |}]> unlocking) total remaining
              (<[chunk_era chunk := value]> slashed_unlocking)
        end
  end.

(** [iter().position(|c| c.era >= start)] *)
Fixpoint first_slashable (start : Z) (chunks : list UnlockChunk) : option nat :=
  match chunks with
  | [] => None
  | chunk :: chunks => if start <=? chunk_era chunk then Some O else S <$> first_slashable start chunks
  end.

(** The ratio, if any, and the order in which chunks are slashed. *)
Definition slash_plan (self : StakingLedger) (slash_amount slashable_chunks_start : Z) : option (option Z * list nat) :=
  match first_slashable slashable_chunks_start (lg_unlocking self) with
  | Some first_slashable_index =>
      let affected := drop first_slashable_index (lg_unlocking self) in
      let unbonding_affected_balance := foldl (fun sum chunk => stake_saturating_add sum (chunk_value chunk)) 0 affected in
      let affected_balance := stake_saturating_add (lg_active self) unbonding_affected_balance in
      ratio ← from_rational_with_rounding Perquintill balance_bits slash_amount affected_balance Up;
      Some (Some (default (per_one Perquintill) ratio),
            seq first_slashable_index (length (lg_unlocking self) - first_slashable_index) ++ rev (seq 0 first_slashable_index))
  | None => Some (None, rev (seq 0 (length (lg_unlocking self))))
  end.

(** The new ledger, the amount slashed and, when the listeners were called, the map they were given. *)
Definition ledger_slash (bonding_duration : Z) (self : StakingLedger) (slash_amount minimum_balance slash_era : Z) :
    option (StakingLedger * Z * option (gmap Z Z)) :=
  if slash_amount =? 0 then Some (self, 0, None)
  else
    let pre_slash_total := lg_total self in
    let slashable_chunks_start := u32_saturating_add slash_era bonding_duration in
    plan ← slash_plan self slash_amount slashable_chunks_start;
    let '(maybe_proportional, slash_chunks_priority) := plan in
    r ← slash_out_of maybe_proportional minimum_balance (lg_active self) (lg_total self) slash_amount;
    let '(active, total, remaining) := r in
    r ← slash_chunks maybe_proportional minimum_balance slash_chunks_priority (lg_unlocking self) total remaining ∅;
    let '(unlocking, total, _, slashed_unlocking) := r in
    let unlocking := filter (fun c => chunk_value c <> 0) unlocking in
    Some (set_unlocking unlocking (set_active active (set_total total self)),
          saturating_sub pre_slash_total total, Some slashed_unlocking).
End loops.
