(* ===== verification/StakingLedgerFacts.v ===== *)
(** * Correctness of staking ledgers

    Withdrawing, rebonding, lowering the total and slashing keep the total of a ledger equal to its
    active and unlocking parts and have exactly the effect they promise on each; the loops end. *)

From stdpp Require Import base tactics numbers list gmap.
From S2P Require Import Prelude Words Helpers128 Helpers128Facts PerThings PerThingsFacts System StakingLedgers.
Local Open Scope Z_scope.

Definition chunks_sum (chunks : list UnlockChunk) : Z := foldr (fun c n => chunk_value c + n) 0 chunks.

Section facts.
Context `{StakeWidth}.

(** The check [ensure_ledger_consistent], with amounts in their range. *)
Record ledger_good (l : StakingLedger) : Prop := {
  lg_active_pos : 0 <= lg_active l;
  lg_chunks_pos : Forall (fun c => 0 <= chunk_value c) (lg_unlocking l);
  lg_sum : lg_total l = lg_active l + chunks_sum (lg_unlocking l);
  lg_bound : lg_total l <= stake_max;
}.

Lemma chunks_sum_app l1 l2 : chunks_sum (l1 ++ l2) = chunks_sum l1 + chunks_sum l2.
Proof. induction l1 as [| c l1 IH]; simpl; [done |]. rewrite IH. lia. Qed.

Lemma chunks_sum_rev l : chunks_sum (rev l) = chunks_sum l.
Proof. induction l as [| c l IH]; simpl; [done |]. rewrite chunks_sum_app, IH. simpl. lia. Qed.

Lemma chunks_sum_pos l : Forall (fun c => 0 <= chunk_value c) l -> 0 <= chunks_sum l.
Proof. induction 1; simpl; lia. Qed.

Lemma stake_add_Some a b : a + b <= stake_max -> stake_add a b = Some (a + b).
Proof. intros Hb. unfold stake_add. by rewrite (proj2 (Z.leb_le _ _)). Qed.

Lemma stake_sub_Some a b : b <= a -> stake_sub a b = Some (a - b).
Proof. intros Hb. unfold stake_sub. by rewrite (proj2 (Z.leb_le _ _)). Qed.

Lemma Forall_kept {A} (P Q : A -> Prop) `{forall x, Decision (Q x)} (l : list A) : Forall P l -> Forall P (filter Q l).
Proof. rewrite !Forall_forall. intros Hp x [_ Hx]%list_elem_of_filter. by apply Hp. Qed.

(** ** Withdrawing *)

Definition matured (era : Z) (c : UnlockChunk) : Prop := chunk_era c <= era.
#[export] Instance matured_dec era c : Decision (matured era c) := Z_le_dec _ _.

Lemma filter_unlocked_run era chunks total : Forall (fun c => 0 <= chunk_value c) chunks -> chunks_sum chunks <= total ->
  filter_unlocked era total chunks =
    (total - chunks_sum (filter (matured era) chunks), filter (fun c => ~ matured era c) chunks).
Proof.
  intros Hp. revert total. induction Hp as [| c chunks Hc Hp IH]; intros total Hle.
  { rewrite !filter_nil. simpl. f_equal. lia. }
  cbn [filter_unlocked chunks_sum foldr] in *. fold (chunks_sum chunks) in Hle. pose proof (chunks_sum_pos _ Hp). rewrite !filter_cons. unfold matured at 1 3. destruct (Z.ltb_spec era (chunk_era c)).
  - rewrite decide_False, decide_True by (unfold matured; lia). by rewrite IH by lia.
  - rewrite decide_True, decide_False by (unfold matured; lia). unfold saturating_sub. rewrite IH by lia. simpl. f_equal. lia.
Qed.

Lemma filter_split era chunks : chunks_sum chunks = chunks_sum (filter (matured era) chunks) + chunks_sum (filter (fun c => ~ matured era c) chunks).
Proof.
  induction chunks as [| c chunks IH]; [done |]. rewrite !filter_cons. destruct (decide (matured era c)).
  - rewrite decide_False by tauto. simpl. lia.
  - rewrite decide_True by done. simpl. lia.
Qed.

Lemma consolidate_run l era : ledger_good l ->
  lg_unlocking (consolidate_unlocked l era) = filter (fun c => ~ matured era c) (lg_unlocking l) /\
  lg_total (consolidate_unlocked l era) = lg_total l - chunks_sum (filter (matured era) (lg_unlocking l)) /\
  lg_active (consolidate_unlocked l era) = lg_active l /\ lg_stash (consolidate_unlocked l era) = lg_stash l /\
  lg_controller (consolidate_unlocked l era) = lg_controller l /\
  ledger_good (consolidate_unlocked l era).
Proof.
  intros [Ha Hc Hs Hb]. unfold consolidate_unlocked. rewrite filter_unlocked_run by (done || lia). simpl. do 5 (split; [done |]).
  pose proof (filter_split era (lg_unlocking l)). assert (Hm : 0 <= chunks_sum (filter (matured era) (lg_unlocking l))).
  { by apply chunks_sum_pos, Forall_kept. }
  split; simpl; [done | by apply Forall_kept | lia | lia].
Qed.

(** ** Taking from the end *)

(** Chunks are dropped from the end, and the last one that stays may be reduced. *)
Definition shrunk_from_end (old new : list UnlockChunk) : Prop :=
  new `prefix_of` old \/
  exists kept c v dropped, old = kept ++ c :: dropped /\ new = kept ++ [{| chunk_value := v; chunk_era := chunk_era c |}] /\
    0 <= v <= chunk_value c.

Definition shrunk_rev (old new : list UnlockChunk) : Prop := shrunk_from_end (rev old) (rev new).

Lemma shrunk_pop c old new : shrunk_rev old new -> shrunk_rev (c :: old) new.
Proof.
  unfold shrunk_rev. simpl. intros [Hp | (kept & d & v & dropped & -> & -> & Hv)].
  - left. by apply prefix_app_r.
  - right. exists kept, d, v, (dropped ++ [c]). by rewrite <- app_assoc.
Qed.

Lemma shrunk_reduce c old v : 0 <= v <= chunk_value c -> shrunk_rev (c :: old) ({| chunk_value := v; chunk_era := chunk_era c |} :: old).
Proof. intros Hv. right. exists (rev old), c, v, []. by simpl. Qed.

Lemma rebond_loop_run chunks fuel value ub active : (length chunks < fuel)%nat -> Forall (fun c => 0 <= chunk_value c) chunks ->
  0 <= ub <= value -> 0 <= active -> ub + chunks_sum chunks <= stake_max -> active + chunks_sum chunks <= stake_max ->
  let n := Z.min (value - ub) (chunks_sum chunks) in
  exists chunks', rebond_loop fuel value ub active chunks = Some (ub + n, active + n, chunks') /\
    shrunk_rev chunks chunks' /\ chunks_sum chunks' = chunks_sum chunks - n /\ Forall (fun c => 0 <= chunk_value c) chunks'.
Proof.
  revert fuel ub active. induction chunks as [| c chunks IH]; intros [| fuel] ub active Hf Hp Hu Ha Hm Hma; simpl in *; try lia.
  { exists []. rewrite Z.min_r by lia. rewrite !Z.add_0_r. split; [done |]. split; [by left | done]. }
  apply Forall_cons in Hp as [Hc Hp]. pose proof (chunks_sum_pos _ Hp) as Hpos. unfold stake_saturating_add. rewrite Z.min_r by lia.
  destruct (Z.leb_spec (ub + chunk_value c) value) as [Hle | Hgt].
  - rewrite !stake_add_Some by lia. simpl. destruct (Z.leb_spec value (ub + chunk_value c)).
    + exists chunks. rewrite Z.min_l by lia. split; [do 3 f_equal; lia |]. split; [apply shrunk_pop; by left |]. split; [lia | done].
    + destruct (IH fuel (ub + chunk_value c) (active + chunk_value c)) as (chunks' & -> & Hs & Hsum & Hf'); [lia | done | lia | lia | lia | lia |].
      exists chunks'. split; [do 3 f_equal; lia |]. split; [by apply shrunk_pop |]. split; [lia | done].
  - unfold saturating_sub. rewrite !(Z.max_r 0) by lia. rewrite !stake_add_Some by lia. rewrite stake_sub_Some by lia. simpl.
    rewrite (proj2 (Z.leb_le _ _)) by lia. eexists. rewrite Z.min_l by lia. split; [do 3 f_equal; lia |]. split; [apply shrunk_reduce; lia |].
    split; [simpl; lia | constructor; [simpl; lia | done]].
Qed.

(** The other loop does the same to the chunks. *)
Lemma withdraw_loop_eq fuel value ub active chunks ub' active' chunks' : 
  rebond_loop fuel value ub active chunks = Some (ub', active', chunks') -> withdraw_loop fuel value ub chunks = Some chunks'.
Proof.
  revert ub active chunks. induction fuel as [| fuel IH]; intros ub active chunks; simpl; [done |]. destruct chunks as [| c chunks]; [by intros [= <- <- <-] |].
  destruct (_ <=? value); unfold stake_add, stake_sub; repeat (case_match; simpl; try done); try (by intros [= <- <- <-]); apply IH.
Qed.

Lemma rebond_run l value : ledger_good l -> 0 <= value ->
  let n := Z.min value (chunks_sum (lg_unlocking l)) in
  exists unlocking, ledger_rebond l value = Some (set_unlocking unlocking (set_active (lg_active l + n) l), n) /\
    ledger_good (set_unlocking unlocking (set_active (lg_active l + n) l)) /\ shrunk_from_end (lg_unlocking l) unlocking.
Proof.
  intros [Ha Hc Hs Hb] Hv. cbv zeta. pose proof (chunks_sum_pos _ Hc).
  destruct (rebond_loop_run (rev (lg_unlocking l)) (S (length (lg_unlocking l))) value 0 (lg_active l)) as (chunks & Hrun & Hsh & Hsum & Hpos);
    rewrite ?chunks_sum_rev, ?length_rev, ?Z.sub_0_r in *; try lia.
  { by rewrite <- Permutation_rev. }
  exists (rev chunks). unfold ledger_rebond. rewrite Hrun. split; [done |]. unfold shrunk_rev in Hsh. rewrite rev_involutive in Hsh. split; [| done].
  split; simpl; [lia | by rewrite <- Permutation_rev | rewrite chunks_sum_rev; lia | done].
Qed.

Lemma update_total_run l new_total : ledger_good l -> 0 <= new_total <= lg_total l ->
  let lost := lg_total l - new_total in
  exists unlocking, update_total_stake l new_total =
      Some (set_unlocking unlocking (set_active (Z.max 0 (lg_active l - lost)) (set_total new_total l))) /\
    ledger_good (set_unlocking unlocking (set_active (Z.max 0 (lg_active l - lost)) (set_total new_total l))) /\
    shrunk_from_end (lg_unlocking l) unlocking /\ (lost <= lg_active l -> unlocking = lg_unlocking l).
Proof.
  intros [Ha Hc Hs Hb] Hn. cbv zeta. unfold update_total_stake, saturating_sub. cbn [lg_active lg_total lg_unlocking set_total set_active].
  rewrite (Z.max_r 0 (lg_total l - new_total)) by lia.
  destruct (Z.leb_spec (lg_total l - new_total) (lg_active l)) as [Hle | Hgt].
  - exists (lg_unlocking l). rewrite Z.max_r by lia. split; [by destruct l |]. split; [| split; [by left | done]].
    split; simpl; [lia | done | lia | lia].
  - rewrite stake_add_Some by lia. cbn [mbind option_bind]. rewrite Z.add_0_l. pose proof (chunks_sum_pos _ Hc).
    destruct (rebond_loop_run (rev (lg_unlocking l)) (S (length (lg_unlocking l))) (lg_total l - new_total) (lg_active l) 0) as (chunks & Hrun & Hsh & Hsum & Hpos);
      rewrite ?chunks_sum_rev, ?length_rev in *; try lia.
    { by rewrite <- Permutation_rev. }
    apply withdraw_loop_eq in Hrun. rewrite Hrun. cbn [mbind option_bind]. rewrite (Z.max_l 0) by lia. exists (rev chunks). split; [done |].
    unfold shrunk_rev in Hsh. rewrite rev_involutive in Hsh. split; [| split; [done | lia]].
    split; simpl; [lia | by rewrite <- Permutation_rev | rewrite chunks_sum_rev; lia | lia].
Qed.

(** ** Slashing *)

Lemma round_up_ge x c : 0 < c -> x <= round_div Up x c * c.
Proof.
  intros Hc. unfold round_div, rounds_up. pose proof (Z.div_mod x c ltac:(lia)). pose proof (Z.mod_pos_bound x c Hc).
  destruct (Z.ltb_spec 0 (x mod c)); nia.
Qed.

(** What one target loses: nothing beyond what it has, nothing beyond what remains except dust, and at
    least the share [a / A] of it unless nothing remains. *)
Definition share_of (ratio : option Z) (a A : Z) : Prop := forall minimum target total remaining,
  0 <= target <= total -> total <= stake_max -> 0 <= remaining -> 0 <= minimum ->
  exists out, slash_out_of ratio minimum target total remaining = Some (target - out, total - out, Z.max 0 (remaining - out)) /\
    0 <= out <= target /\ (out <= remaining \/ out < remaining + minimum) /\ (remaining <= out \/ a * target <= out * A).

Lemma slash_out_run ratio wanted minimum target total remaining :
  match ratio with Some r => mul_ceil Perquintill balance_bits r target | None => Some remaining end = Some wanted ->
  0 <= wanted -> 0 <= target <= total -> total <= stake_max -> 0 <= remaining -> 0 <= minimum ->
  exists out, slash_out_of ratio minimum target total remaining = Some (target - out, total - out, Z.max 0 (remaining - out)) /\
    0 <= out <= target /\ (out <= remaining \/ out < remaining + minimum) /\ Z.min (Z.min wanted target) remaining <= out.
Proof.
  intros Hw Hw0 Ht Hm Hr Hmin. unfold slash_out_of. rewrite Hw. simpl. set (k := Z.min (Z.min wanted target) remaining).
  unfold stake_saturating_add, saturating_sub. destruct (Z.ltb_spec (target - k) minimum).
  - exists target. replace (Z.min stake_max (target - k + k)) with target by lia. split; [do 3 f_equal; lia |]. split; [lia |]. split; lia.
  - exists k. split; [do 3 f_equal; lia |]. lia.
Qed.

Lemma share_greedy ratio : ratio = None \/ ratio = Some (per_one Perquintill) -> share_of ratio 1 1.
Proof.
  intros Hratio minimum target total remaining Ht Hm Hr Hmin. pose proof balance_bits_ge.
  assert (exists wanted, match ratio with Some r => mul_ceil Perquintill balance_bits r target | None => Some remaining end = Some wanted /\
    Z.min target remaining <= wanted) as (wanted & Hw & Hle).
  { destruct Hratio as [-> | ->]; [exists remaining; split; [done | lia] |]. unfold mul_ceil.
    destruct (overflow_prune_mul_spec Perquintill (per_things_wf Perquintill ltac:(simpl; tauto)) balance_bits target (per_one Perquintill) Up) as [-> _];
      [done | unfold is_word, stake_max in *; lia | done |]. eexists. split; [done |].
    change (per_one Perquintill) with (ACCURACY Perquintill). pose proof (round_up_ge (target * ACCURACY Perquintill) (ACCURACY Perquintill) ltac:(done)) as Hge.
    assert (0 < ACCURACY Perquintill) by done. nia. }
  destruct (slash_out_run ratio wanted minimum target total remaining Hw) as (out & Hrun & Ho & Hu & Hl); [lia.. |].
  exists out. split; [done |]. split; [done |]. split; [done |]. lia.
Qed.

Lemma share_proportional amount A : 0 <= amount <= A -> 0 < A <= stake_max ->
  share_of (Some (round_div Up (ACCURACY Perquintill * amount) A)) amount A.
Proof.
  intros Ha HA minimum target total remaining Ht Hm Hr Hmin. pose proof balance_bits_ge.
  pose proof (per_things_wf Perquintill ltac:(simpl; tauto)) as Hwf.
  assert (Hacc : 0 < ACCURACY Perquintill) by done. set (E := ACCURACY Perquintill) in *. set (r := round_div Up (E * amount) A).
  assert (Hr0 : 0 <= r <= E). { unfold r. split; [apply round_div_nonneg; nia | apply round_div_le; nia]. }
  destruct (overflow_prune_mul_spec Perquintill Hwf balance_bits target r Up) as [Hmul _]; [done | unfold is_word, stake_max in *; lia | done |].
  destruct (slash_out_run (Some r) (round_div Up (target * r) E) minimum target total remaining Hmul) as (out & Hrun & Ho & Hu & Hl); [| lia.. |].
  { apply round_div_nonneg; nia. }
  exists out. split; [done |]. split; [done |]. split; [done |]. destruct (decide (remaining <= out)); [by left |]. right.
  pose proof (round_up_ge (target * r) E Hacc) as H1'. pose proof (round_up_ge (E * amount) A ltac:(lia)) as H2'. fold r in H2'.
  assert (Hor : round_div Up (target * r) E <= out \/ target <= out) by lia. destruct Hor as [Hor | Hor]; [| nia].
  apply (Z.mul_le_mono_pos_r _ _ E); [done |]. assert (H3' : target * (E * amount) <= target * (r * A)) by (apply Z.mul_le_mono_nonneg_l; lia).
  assert (H4' : target * r * A <= out * E * A) by (apply Z.mul_le_mono_nonneg_r; [lia |]; nia). lia.
Qed.

(** A chunk that has lost something. *)
Definition reduced (c c' : UnlockChunk) : Prop := chunk_era c' = chunk_era c /\ 0 <= chunk_value c' <= chunk_value c.

Lemma reduced_trans l1 l2 l3 : Forall2 reduced l1 l2 -> Forall2 reduced l2 l3 -> Forall2 reduced l1 l3.
Proof.
  intros H1'. revert l3. induction H1' as [| c1 c2 l1 l2 [E1 ?] _ IH]; intros l3 H2'; inversion H2' as [| ? c3 ? l3' [E2 ?]]; subst; [constructor |].
  constructor; [split; [congruence | lia] | by apply IH].
Qed.

Lemma reduced_refl l : Forall (fun c => 0 <= chunk_value c) l -> Forall2 reduced l l.
Proof. intros Hl. induction Hl; constructor; [split; [done | lia] | done]. Qed.

Lemma reduced_pos l l' : Forall2 reduced l l' -> Forall (fun c => 0 <= chunk_value c) l'.
Proof. unfold reduced. induction 1; constructor; [lia | done]. Qed.

Lemma chunks_sum_insert l i c c' : l !! i = Some c -> chunks_sum (<[i := c']> l) = chunks_sum l - chunk_value c + chunk_value c'.
Proof.
  intros E. rewrite <- (take_drop_middle l i c E) at 2. rewrite insert_take_drop by (by eapply lookup_lt_Some).
  rewrite !chunks_sum_app. simpl. lia.
Qed.

Lemma reduced_insert l i c c' : Forall (fun c => 0 <= chunk_value c) l -> l !! i = Some c -> reduced c c' -> Forall2 reduced l (<[i := c']> l).
Proof.
  intros Hl E Hr. rewrite <- (list_insert_id l i c E) at 1. apply Forall2_insert; [by apply reduced_refl | done].
Qed.

Lemma lookup_pos l i c : Forall (fun c => 0 <= chunk_value c) l -> l !! i = Some c -> 0 <= chunk_value c <= chunks_sum l.
Proof.
  intros Hl E. rewrite <- (take_drop_middle l i c E) in Hl |- *. apply Forall_app in Hl as [H1' [H2' H3']%Forall_cons].
  rewrite chunks_sum_app. simpl. pose proof (chunks_sum_pos _ H1'). pose proof (chunks_sum_pos _ H3'). lia.
Qed.

(** What the chunks at some positions hold. *)
Definition picked (l : list UnlockChunk) (positions : list nat) : Z :=
  foldr (fun i n => from_option chunk_value 0 (l !! i) + n) 0 positions.

Lemma picked_insert l i c p : (i ∉ p) -> picked (<[i := c]> l) p = picked l p.
Proof.
  induction p as [| j p IH]; [done |]. intros [Hne Hi]%not_elem_of_cons. simpl. rewrite list_lookup_insert_ne by done. by rewrite IH.
Qed.

Lemma picked_app l p1 p2 : picked l (p1 ++ p2) = picked l p1 + picked l p2.
Proof. induction p1 as [| i p1 IH]; simpl; [done |]. rewrite IH. lia. Qed.

Lemma picked_rev l p : picked l (rev p) = picked l p.
Proof. induction p as [| i p IH]; simpl; [done |]. rewrite picked_app, IH. simpl. lia. Qed.

Lemma picked_seq l a n : picked l (seq a n) = chunks_sum (take n (drop a l)).
Proof.
  revert a. induction n as [| n IH]; intros a; [done |]. simpl. rewrite IH. destruct (l !! a) as [c |] eqn:E.
  - by rewrite (drop_S l c a E).
  - apply lookup_ge_None in E. rewrite !drop_ge by lia. simpl. by rewrite take_nil.
Qed.

Lemma slash_chunks_run ratio a A minimum priority : share_of ratio a A -> 0 <= a -> 0 <= A -> 0 <= minimum ->
  forall unlocking total remaining m, NoDup priority -> Forall (fun i => (i < length unlocking)%nat) priority ->
  Forall (fun c => 0 <= chunk_value c) unlocking -> chunks_sum unlocking <= total <= stake_max -> 0 <= remaining ->
  exists unlocking' remaining' m', let out := chunks_sum unlocking - chunks_sum unlocking' in
    slash_chunks ratio minimum priority unlocking total remaining m = Some (unlocking', total - out, remaining', m') /\
    Forall2 reduced unlocking unlocking' /\ 0 <= out /\ 0 <= remaining' /\
    (out = remaining - remaining' \/ 0 < remaining <= out /\ remaining' = 0 /\ out < remaining + minimum) /\
    (remaining' = 0 \/ remaining' * A <= remaining * A - a * picked unlocking priority).
Proof.
  intros Hshare Ha HA Hmin. induction priority as [| i priority IH]; intros unlocking total remaining m Hn Hlt Hp Ht Hr.
  { exists unlocking, remaining, m. cbv zeta. rewrite Z.sub_diag, Z.sub_0_r. simpl. split; [done |]. split; [by apply reduced_refl |]. lia. }
  apply NoDup_cons in Hn as [Hi Hn]. apply Forall_cons in Hlt as [Hil Hlt]. cbn [slash_chunks].
  destruct (Z.eqb_spec remaining 0) as [-> | Hne].
  { exists unlocking, 0, m. cbv zeta. rewrite Z.sub_diag, Z.sub_0_r. split; [done |]. split; [by apply reduced_refl |]. lia. }
  destruct (lookup_lt_is_Some_2 unlocking i Hil) as [c E]. rewrite E. pose proof (lookup_pos _ _ _ Hp E) as Hc.
  destruct (Hshare minimum (chunk_value c) total remaining) as (out & Hrun & Ho & Hu & Hl); [lia.. |]. rewrite Hrun. cbn [mbind option_bind].
  set (c' := {| chunk_value := chunk_value c - out; chunk_era := chunk_era c |}). assert (Hred : reduced c c') by (unfold reduced; simpl; lia).
  pose proof (reduced_insert _ _ _ _ Hp E Hred) as Hf. pose proof (chunks_sum_insert _ _ _ c' E) as Hsum. simpl in Hsum.
  destruct (IH (<[i := c']> unlocking) (total - out) (Z.max 0 (remaining - out)) (<[chunk_era c := chunk_value c - out]> m) Hn)
    as (unlocking' & remaining' & m' & Hrun' & Hf' & H0 & Hr' & Hu' & Hl'); [by rewrite length_insert | by eapply reduced_pos | lia | lia |].
  exists unlocking', remaining', m'. cbv zeta in *. rewrite Hrun'.
  split; [by replace (total - out - (chunks_sum (<[i := c']> unlocking) - chunks_sum unlocking')) with (total - (chunks_sum unlocking - chunks_sum unlocking')) by lia |].
  split; [by eapply reduced_trans |].
  rewrite picked_insert in Hl' by done. simpl. rewrite E. simpl. split; [lia |]. split; [done |]. split; [lia |].
  destruct Hl' as [? | Hl']; [by left |]. destruct (decide (remaining <= out)) as [Hge |].
  - rewrite Z.max_l in Hu' by lia. lia.
  - right. rewrite Z.max_r in Hl' by lia. destruct Hl as [? | Hl]; [lia |]. nia.
Qed.

Lemma first_slashable_lt start chunks i : first_slashable start chunks = Some i -> (i < length chunks)%nat.
Proof.
  revert i. induction chunks as [| c chunks IH]; intros i; simpl; [done |]. destruct (start <=? chunk_era c); [intros [= <-]; lia |].
  intros (j & E & ->)%fmap_Some. specialize (IH j E). lia.
Qed.

Lemma saturating_sum chunks acc : Forall (fun c => 0 <= chunk_value c) chunks -> 0 <= acc -> acc + chunks_sum chunks <= stake_max ->
  foldl (fun sum chunk => stake_saturating_add sum (chunk_value chunk)) acc chunks = acc + chunks_sum chunks.
Proof.
  intros Hp. revert acc. induction Hp as [| c chunks Hc Hp IH]; intros acc Ha Hm; simpl in *; [lia |]. pose proof (chunks_sum_pos _ Hp).
  unfold stake_saturating_add at 2. rewrite Z.min_r by lia. rewrite IH by lia. lia.
Qed.

Lemma all_positions n i : (i <= n)%nat -> let p := seq i (n - i) ++ rev (seq 0 i) in NoDup p /\ Forall (fun j => (j < n)%nat) p.
Proof.
  intros Hi. cbv zeta. split.
  - apply NoDup_app. rewrite <- Permutation_rev. split; [apply NoDup_seq |]. split; [| apply NoDup_seq].
    intros j [? ?]%elem_of_seq. rewrite <- Permutation_rev, elem_of_seq. lia.
  - apply Forall_app. rewrite <- Permutation_rev, !Forall_forall. split; intros j [? ?]%elem_of_seq; lia.
Qed.

Lemma picked_all l i : (i <= length l)%nat -> picked l (seq i (length l - i) ++ rev (seq 0 i)) = chunks_sum l.
Proof.
  intros Hi. rewrite picked_app, picked_rev, !picked_seq, drop_0. rewrite (take_ge (drop i l)) by (rewrite length_drop; lia).
  rewrite <- (take_drop i l) at 3. rewrite chunks_sum_app. lia.
Qed.

(** The plan reaches every chunk, and its share is enough for the amount, or all there is. *)
Lemma slash_plan_run l amount start : ledger_good l -> 0 < amount <= stake_max ->
  exists ratio p a A, slash_plan l amount start = Some (ratio, p) /\ share_of ratio a A /\ 0 <= a /\ 0 < A /\
    NoDup p /\ Forall (fun i => (i < length (lg_unlocking l))%nat) p /\ picked (lg_unlocking l) p = chunks_sum (lg_unlocking l) /\
    (a = 1 /\ A = 1 \/ a = amount /\ A <= lg_total l).
Proof.
  intros [Ha Hc Hs Hb] Ham. unfold slash_plan. destruct (first_slashable start (lg_unlocking l)) as [i |] eqn:Ei.
  - apply first_slashable_lt in Ei. destruct (all_positions (length (lg_unlocking l)) i ltac:(lia)) as [Hn Hl].
    pose proof (picked_all (lg_unlocking l) i ltac:(lia)) as Hpick.
    pose proof (chunks_sum_app (take i (lg_unlocking l)) (drop i (lg_unlocking l))) as Hcut. rewrite take_drop in Hcut.
    assert (Hpos : Forall (fun c => 0 <= chunk_value c) (take i (lg_unlocking l)) /\ Forall (fun c => 0 <= chunk_value c) (drop i (lg_unlocking l))).
    { apply Forall_app. by rewrite take_drop. }
    destruct Hpos as [Hp1 Hp2]. pose proof (chunks_sum_pos _ Hp1). pose proof (chunks_sum_pos _ Hp2).
    rewrite saturating_sum by (done || lia). rewrite Z.add_0_l. unfold stake_saturating_add. rewrite Z.min_r by lia.
    set (A := lg_active l + chunks_sum (drop i (lg_unlocking l))) in *. pose proof balance_bits_ge.
    destruct (from_rational_rounding_spec Perquintill (per_things_wf Perquintill ltac:(simpl; tauto)) balance_bits amount A Up) as [-> _];
      [done | unfold is_word, stake_max in *; lia | unfold is_word, stake_max in *; lia |]. cbn [mbind option_bind].
    destruct ((A =? 0) || (A <? amount)) eqn:E; cbn [default].
    + exists (Some (per_one Perquintill)). eexists _, 1, 1. split; [done |]. split; [apply share_greedy; by right |]. split; [done |]. split; [done |].
      split; [done |]. split; [done |]. split; [done |]. by left.
    + apply orb_false_iff in E as [E1 E2]. apply Z.eqb_neq in E1. apply Z.ltb_ge in E2.
      eexists _, _, amount, A. split; [done |]. split; [apply share_proportional; lia |]. split; [lia |]. split; [lia |].
      split; [done |]. split; [done |]. split; [done |]. right. lia.
  - destruct (all_positions (length (lg_unlocking l)) (length (lg_unlocking l)) ltac:(lia)) as [Hn Hl].
    pose proof (picked_all (lg_unlocking l) (length (lg_unlocking l)) ltac:(lia)) as Hpick. rewrite Nat.sub_diag in Hn, Hl, Hpick. simpl in Hn, Hl, Hpick.
    eexists _, _, 1, 1. split; [done |]. split; [apply share_greedy; by left |]. split; [done |]. split; [done |].
    split; [done |]. split; [done |]. split; [done |]. by left.
Qed.

Lemma filter_nonzero_sum l : chunks_sum (filter (fun c => chunk_value c <> 0) l) = chunks_sum l.
Proof. induction l as [| c l IH]; [done |]. rewrite filter_cons. case_decide as E; simpl; [lia |]. lia. Qed.

Lemma ledger_slash_run d l amount minimum era : ledger_good l -> 0 <= amount <= stake_max -> 0 <= minimum ->
  exists active unlocking n m, let l' := set_unlocking (filter (fun c => chunk_value c <> 0) unlocking) (set_active active (set_total (lg_total l - n) l)) in
    ledger_slash d l amount minimum era = Some (if decide (amount = 0) then l else l', n, m) /\
    ledger_good (if decide (amount = 0) then l else l') /\
    0 <= active <= lg_active l /\ Forall2 reduced (lg_unlocking l) unlocking /\
    Z.min amount (lg_total l) <= n <= lg_total l /\ (n <= amount \/ n < amount + minimum) /\ (amount = 0 -> n = 0).
Proof.
  intros Hg Ham Hmin. pose proof Hg as [Ha Hc Hs Hb]. pose proof (chunks_sum_pos _ Hc). unfold ledger_slash. destruct (Z.eqb_spec amount 0) as [-> | Hne].
  { exists (lg_active l), (lg_unlocking l), 0, None. cbv zeta. rewrite !decide_True by done. split; [done |]. split; [done |]. split; [lia |].
    split; [by apply reduced_refl |]. lia. }
  destruct (slash_plan_run l amount (u32_saturating_add era d) Hg ltac:(lia)) as (ratio & p & a & A & -> & Hsh & Ha0 & HA & Hn & Hl & Hpick & Hrate).
  cbn [mbind option_bind]. destruct (Hsh minimum (lg_active l) (lg_total l) amount) as (out & -> & Ho & Hu & Hlow); [lia.. |]. cbn [mbind option_bind].
  destruct (slash_chunks_run ratio a A minimum p Hsh Ha0 ltac:(lia) Hmin (lg_unlocking l) (lg_total l - out) (Z.max 0 (amount - out)) ∅ Hn Hl Hc)
    as (unlocking & remaining & m & -> & Hf & Hout & Hr & Hu' & Hl'); [lia | lia |]. cbn [mbind option_bind].
  set (out' := chunks_sum (lg_unlocking l) - chunks_sum unlocking) in *. rewrite Hpick in Hl'.
  exists (lg_active l - out), unlocking, (out + out'), (Some m). cbv zeta. rewrite !decide_False by done. pose proof (reduced_pos _ _ Hf) as Hpos.
  pose proof (chunks_sum_pos _ Hpos). unfold saturating_sub.
  replace (lg_total l - out - out') with (lg_total l - (out + out')) by lia.
  replace (Z.max 0 (lg_total l - (lg_total l - (out + out')))) with (out + out') by lia. split; [done |]. split.
  { split; simpl; [lia | by apply Forall_kept | rewrite filter_nonzero_sum; lia | lia]. }
  split; [lia |]. split; [done |]. assert (Hrem : remaining = 0 \/ amount <= out \/ remaining <= amount - lg_total l).
  { destruct Hl' as [? | Hl']; [by left |]. destruct (decide (amount <= out)) as [| Hlt]; [right; by left |].
    destruct Hlow as [? | Hlow]; [lia |]. rewrite Z.max_r in Hl' by lia. destruct Hrate as [[-> ->] | [-> HA']]; [right; right; lia |]. left. nia. }
  split; [| lia]. lia.
Qed.

(** ** What the operations do *)

(** Rebonding moves the amount, or all that unlocks, from the chunks back to the active stake, the chunks
    that were added last first; the total does not change and the loop ends. *)
Theorem rebond_exact l value : ledger_good l -> 0 <= value ->
  let n := Z.min value (chunks_sum (lg_unlocking l)) in
  exists unlocking, ledger_rebond l value = Some (set_unlocking unlocking (set_active (lg_active l + n) l), n) /\
    ledger_good (set_unlocking unlocking (set_active (lg_active l + n) l)) /\ shrunk_from_end (lg_unlocking l) unlocking.
Proof. apply rebond_run. Qed.

(** Slashing never leaves less than the minimum in a part: an active stake that would be left below it is
    slashed whole, so that more than the given amount is slashed. *)
Theorem slash_exceeds_amount d stash active amount minimum era : 0 < amount < active -> active <= stake_max -> active - amount < minimum ->
  ledger_slash d (StakingLedger_new stash active) amount minimum era =
    Some (set_active 0 (set_total 0 (StakingLedger_new stash active)), active, Some ∅).
Proof.
  intros Ha Hm Hmin. unfold ledger_slash, slash_plan, slash_out_of, stake_saturating_add, saturating_sub. cbn.
  rewrite (proj2 (Z.eqb_neq amount 0)) by lia. replace (Z.min (Z.min amount active) amount) with amount by lia.
  rewrite (proj2 (Z.ltb_lt _ _)) by lia. replace (Z.min stake_max (active - amount + amount)) with active by lia.
  rewrite Z.sub_diag. cbn. rewrite Z.max_id, Z.sub_0_r, Z.max_r by lia. done.
Qed.

(** Lowering the total takes from the active stake and then from the chunk that was added last, not from
    the oldest one. *)
Theorem total_lowered_newest_first stash oldest newest lost : 0 <= chunk_value oldest -> 0 <= lost < chunk_value newest ->
  chunk_value oldest + chunk_value newest <= stake_max -> 0 < lost ->
  let total := chunk_value oldest + chunk_value newest in
  let l := {| lg_stash := stash; lg_total := total; lg_active := 0; lg_unlocking := [oldest; newest]; lg_controller := None |} in
  update_total_stake l (total - lost) =
    Some (set_unlocking [oldest; {| chunk_value := chunk_value newest - lost; chunk_era := chunk_era newest |}] (set_total (total - lost) l)).
Proof.
  intros Ho Hl Hm Hpos. cbv zeta. unfold update_total_stake, saturating_sub. cbn [lg_active lg_total lg_unlocking set_total set_active].
  replace (Z.max 0 _) with lost by lia. rewrite (proj2 (Z.leb_gt _ _)) by lia. rewrite stake_add_Some by (cbn; unfold stake_max in *; lia).
  cbn. unfold stake_saturating_add, saturating_sub. rewrite Z.min_r by lia. rewrite (proj2 (Z.leb_gt _ _)) by lia.
  rewrite Z.sub_0_r, Z.max_r by lia. rewrite stake_add_Some by lia. cbn. rewrite stake_sub_Some by lia. cbn. by rewrite Z.leb_refl.
Qed.
End facts.
