(* ===== verification/StakingSpans.v ===== *)
(** * Slashing spans

    [frame/staking/src/slashing.rs]: a stash is slashed for the largest slash of a span of eras, not for
    their sum.  Slashes are computed on the records of slashes so far; [None] is a panic.  Applying them
    to ledgers is in [StakingBonds]. *)

From stdpp Require Import base tactics numbers list gmap.
From S2P Require Import Prelude Words Helpers128 PerThings System StakingLedgers.
Local Open Scope Z_scope.

(** ** Spans of a stash *)

Record SlashingSpan := { sp_index : Z; sp_start : Z; sp_length : option Z }.

Definition contains_era (self : SlashingSpan) (era : Z) : bool :=
  (sp_start self <=? era) && from_option (fun l => era <? u32_saturating_add (sp_start self) l) true (sp_length self).

(** The struct [SlashingSpans]; [prior] are lengths, the most recent first. *)
Record SlashingSpansRecord := { span_index : Z; last_start : Z; last_nonzero_slash : Z; prior : list Z }.

Definition SlashingSpans_new (window_start : Z) : SlashingSpansRecord :=
  {| span_index := 0; last_start := window_start; last_nonzero_slash := 0; prior := [] |}.

Definition spans_end_span (now : Z) (self : SlashingSpansRecord) : bool * SlashingSpansRecord :=
  let next_start := u32_saturating_add now 1 in
  if next_start <=? last_start self then (false, self)
  else
    let last_length := saturating_sub next_start (last_start self) in
    (true, {| span_index := u32_saturating_add (span_index self) 1; last_start := next_start;
              last_nonzero_slash := last_nonzero_slash self; prior := last_length :: prior self |}).

(** [SlashingSpans::iter] *)
Fixpoint prior_spans (last_start index : Z) (prior : list Z) : list SlashingSpan :=
  match prior with
  | [] => []
  | length :: prior =>
      let start := saturating_sub last_start length in
      let index := saturating_sub index 1 in
      {| sp_index := index; sp_start := start; sp_length := Some length |} :: prior_spans start index prior
  end.
Definition spans_iter (self : SlashingSpansRecord) : list SlashingSpan :=
  {| sp_index := span_index self; sp_start := last_start self; sp_length := None |} ::
  prior_spans (last_start self) (span_index self) (prior self).

(** The closure of [position] in [prune]. *)
Definition ended_by (window_start : Z) (span : SlashingSpan) : bool :=
  from_option (fun len => u32_saturating_add (sp_start span) len <=? window_start) false (sp_length span).

Definition prune (window_start : Z) (self : SlashingSpansRecord) : option (Z * Z) * SlashingSpansRecord :=
  let old_idx := fst <$> list_find (fun span => ended_by window_start span = true) (drop 1 (spans_iter self)) in
  let earliest_span_index := saturating_sub (span_index self) (Z.of_nat (length (prior self)) mod 2 ^ 32) in
  let '(pruned, prior) :=
    match old_idx with
    | Some o =>
        let prior := take o (prior self) in
        let new_earliest := saturating_sub (span_index self) (Z.of_nat (length prior) mod 2 ^ 32) in
        (Some (earliest_span_index, new_earliest), prior)
    | None => (None, prior self)
    end in
  (pruned, {| span_index := span_index self; last_start := Z.max (last_start self) window_start;
              last_nonzero_slash := last_nonzero_slash self; prior := prior |}).

(** ** Records of slashes *)

Record SpanRecord := { span_slashed : Z; span_paid_out : Z }.

Record SlashStore := {
  st_spans : gmap AccountId SlashingSpansRecord;
  st_span_slash : gmap (AccountId * Z) SpanRecord;
  ValidatorSlashInEra : gmap (Z * AccountId) (Z * Z);
  NominatorSlashInEra : gmap (Z * AccountId) Z;
}.

Definition no_slashes : SlashStore := {| st_spans := ∅; st_span_slash := ∅; ValidatorSlashInEra := ∅; NominatorSlashInEra := ∅ |}.

Definition put_spans (spans : gmap AccountId SlashingSpansRecord) (st : SlashStore) : SlashStore :=
  Build_SlashStore spans (st_span_slash st) (ValidatorSlashInEra st) (NominatorSlashInEra st).
Definition put_span_slash (slashes : gmap (AccountId * Z) SpanRecord) (st : SlashStore) : SlashStore :=
  Build_SlashStore (st_spans st) slashes (ValidatorSlashInEra st) (NominatorSlashInEra st).
Definition put_validator_slash (era : Z) (stash : AccountId) (v : Z * Z) (st : SlashStore) : SlashStore :=
  Build_SlashStore (st_spans st) (st_span_slash st) (<[(era, stash) := v]> (ValidatorSlashInEra st)) (NominatorSlashInEra st).
Definition put_nominator_slash (era : Z) (stash : AccountId) (v : Z) (st : SlashStore) : SlashStore :=
  Build_SlashStore (st_spans st) (st_span_slash st) (ValidatorSlashInEra st) (<[(era, stash) := v]> (NominatorSlashInEra st)).

Definition SpanSlash_get (key : AccountId * Z) (st : SlashStore) : SpanRecord :=
  default {| span_slashed := 0; span_paid_out := 0 |} (st_span_slash st !! key).

(** ** [InspectingSpans] *)

Record InspectingSpans := { dirty : bool; inspected : SlashingSpansRecord; paid_out : Z; slash_of : Z }.

Definition fetch_spans (stash : AccountId) (window_start paid_out slash_of : Z) (st : SlashStore) : InspectingSpans * SlashStore :=
  match st_spans st !! stash with
  | Some spans => ({| dirty := false; inspected := spans; paid_out := paid_out; slash_of := slash_of |}, st)
  | None =>
      let spans := SlashingSpans_new window_start in
      ({| dirty := false; inspected := spans; paid_out := paid_out; slash_of := slash_of |}, put_spans (<[stash := spans]> (st_spans st)) st)
  end.

Definition inspecting_end_span (now : Z) (self : InspectingSpans) : InspectingSpans :=
  let '(ended, spans) := spans_end_span now (inspected self) in
  {| dirty := ended || dirty self; inspected := spans; paid_out := paid_out self; slash_of := slash_of self |}.

Definition era_span (era : Z) (self : InspectingSpans) : option SlashingSpan :=
  snd <$> list_find (fun span => contains_era span era = true) (spans_iter (inspected self)).

(** The loop [for span_index in start..end]. *)
Definition remove_span_slashes (stash : AccountId) (start end_ : Z) (m : gmap (AccountId * Z) SpanRecord) : gmap (AccountId * Z) SpanRecord :=
  foldl (fun m i => delete (stash, i) m) m (seqZ start (end_ - start)).

Definition inspecting_drop (stash : AccountId) (window_start : Z) (self : InspectingSpans) (st : SlashStore) : SlashStore :=
  if negb (dirty self) then st
  else
    let '(pruned, spans) := prune window_start (inspected self) in
    let slashes := match pruned with
                   | Some (start, end_) => remove_span_slashes stash start end_ (st_span_slash st)
                   | None => st_span_slash st
                   end in
    put_spans (<[stash := spans]> (st_spans st)) (put_span_slash slashes st).

Section slashing.
Context `{StakeWidth}.

Definition REWARD_F1 : Z := from_percent Perbill 50.

Definition add_slash (amount slash_era : Z) (self : InspectingSpans) : option InspectingSpans :=
  slash_of ← stake_add (slash_of self) amount;
  let spans := inspected self in
  Some {| dirty := dirty self;
          inspected := {| span_index := span_index spans; last_start := last_start spans;
                          last_nonzero_slash := Z.max (last_nonzero_slash spans) slash_era; prior := prior spans |};
          paid_out := paid_out self; slash_of := slash_of |}.

(** [REWARD_F1 * (reward_proportion * slash).saturating_sub(paid_out)] *)
Definition span_reward (reward_proportion slash paid : Z) : option Z :=
  share ← mul_n Perbill balance_bits reward_proportion slash;
  mul_n Perbill balance_bits REWARD_F1 (saturating_sub share paid).

Definition compare_and_update_span_slash (stash : AccountId) (reward_proportion slash_era slash : Z) (self : InspectingSpans)
    (st : SlashStore) : option (option Z * InspectingSpans * SlashStore) :=
  match era_span slash_era self with
  | None => Some (None, self, st)
  | Some target_span =>
      let span_slash_key := (stash, sp_index target_span) in
      let record := SpanSlash_get span_slash_key st in
      r ← (if span_slashed record <? slash then
             let difference := saturating_sub slash (span_slashed record) in
             reward ← span_reward reward_proportion slash (span_paid_out record);
             self ← add_slash difference slash_era self;
             Some (slash, true, reward, self)
           else if span_slashed record =? slash then
             reward ← span_reward reward_proportion slash (span_paid_out record);
             Some (span_slashed record, false, reward, self)
           else Some (span_slashed record, false, 0, self));
      let '(slashed, changed, reward, self) := r in
      r ← (if reward =? 0 then Some (changed, span_paid_out record, paid_out self)
           else
             paid ← stake_add (span_paid_out record) reward;
             total ← stake_add (paid_out self) reward;
             Some (true, paid, total));
      let '(changed, paid, total) := r in
      let self := {| dirty := changed || dirty self; inspected := inspected self; paid_out := total; slash_of := slash_of self |} in
      let st := if changed : bool
                then put_span_slash (<[span_slash_key := {| span_slashed := slashed; span_paid_out := paid |}]> (st_span_slash st)) st
                else st in
      Some (Some (sp_index target_span), self, st)
  end.

(** The blocks that slash the validator and each nominator: what is paid out and slashed so far goes in
    and comes out. *)
Definition slash_in_span (stash : AccountId) (window_start now reward_proportion slash_era slash paid slashed : Z) (st : SlashStore) :
    option (Z * Z * SlashStore) :=
  let '(spans, st) := fetch_spans stash window_start paid slashed st in
  r ← compare_and_update_span_slash stash reward_proportion slash_era slash spans st;
  let '(target_span, spans, st) := r in
  let spans := if bool_decide (target_span = Some (span_index (inspected spans))) then inspecting_end_span now spans else spans in
  Some (paid_out spans, slash_of spans, inspecting_drop stash window_start spans st).

(** ** Computing a slash *)

Record Exposure := { exposure_total : Z; exposure_own : Z; exposure_others : list (AccountId * Z) }.

Record SlashParams := {
  sl_stash : AccountId;
  sl_slash : Z;
  sl_exposure : Exposure;
  sl_era : Z;
  sl_window_start : Z;
  sl_now : Z;
  sl_reward_proportion : Z;
}.

Record UnappliedSlash := {
  us_validator : AccountId;
  us_own : Z;
  us_others : list (AccountId * Z);
  us_reporters : list AccountId;
  us_payout : Z;
}.

Definition kick_out_if_recent (params : SlashParams) (st : SlashStore) : SlashStore :=
  let '(spans, st) := fetch_spans (sl_stash params) (sl_window_start params) 0 0 st in
  let spans := if bool_decide (sp_index <$> era_span (sl_era params) spans = Some (span_index (inspected spans)))
               then inspecting_end_span (sl_now params) spans else spans in
  inspecting_drop (sl_stash params) (sl_window_start params) spans st.

(** The slash of a nominator in the era grows by the difference to the previous largest proportion. *)
Definition nominator_era_slash (params : SlashParams) (prior_slash_p : Z) (stash : AccountId) (value : Z) (st : SlashStore) : option (Z * SlashStore) :=
  own_slash_prior ← mul_n Perbill balance_bits prior_slash_p value;
  own_slash_by_validator ← mul_n Perbill balance_bits (sl_slash params) value;
  let own_slash_difference := saturating_sub own_slash_by_validator own_slash_prior in
  era_slash ← stake_add (default 0 (NominatorSlashInEra st !! (sl_era params, stash))) own_slash_difference;
  Some (era_slash, put_nominator_slash (sl_era params) stash era_slash st).

Fixpoint slash_nominators (params : SlashParams) (prior_slash_p : Z) (others : list (AccountId * Z)) (reward_payout : Z) (st : SlashStore) :
    option (Z * list (AccountId * Z) * SlashStore) :=
  match others with
  | [] => Some (reward_payout, [], st)
  | (stash, value) :: others =>
      r ← nominator_era_slash params prior_slash_p stash value st;
      let '(era_slash, st) := r in
      r ← slash_in_span stash (sl_window_start params) (sl_now params) (sl_reward_proportion params) (sl_era params) era_slash reward_payout 0 st;
      let '(reward_payout, nom_slashed, st) := r in
      r ← slash_nominators params prior_slash_p others reward_payout st;
      let '(reward_payout, nominators_slashed, st) := r in
      Some (reward_payout, (stash, nom_slashed) :: nominators_slashed, st)
  end.

Definition compute_slash (params : SlashParams) (st : SlashStore) : option (option UnappliedSlash * SlashStore) :=
  own_slash ← mul_n Perbill balance_bits (sl_slash params) (exposure_own (sl_exposure params));
  total_slash ← mul_n Perbill balance_bits (sl_slash params) (exposure_total (sl_exposure params));
  if total_slash =? 0 then Some (None, kick_out_if_recent params st)
  else
    let prior_slash_p := from_option fst 0 (ValidatorSlashInEra st !! (sl_era params, sl_stash params)) in
    if prior_slash_p <? sl_slash params then
      let st := put_validator_slash (sl_era params) (sl_stash params) (sl_slash params, own_slash) st in
      r ← slash_in_span (sl_stash params) (sl_window_start params) (sl_now params) (sl_reward_proportion params) (sl_era params) own_slash 0 0 st;
      let '(reward_payout, val_slashed, st) := r in
      r ← slash_nominators params prior_slash_p (exposure_others (sl_exposure params)) 0 st;
      let '(nominators_payout, nominators_slashed, st) := r in
      payout ← stake_add reward_payout nominators_payout;
      Some (Some {| us_validator := sl_stash params; us_own := val_slashed; us_others := nominators_slashed; us_reporters := [];
                    us_payout := payout |}, st)
    else Some (None, st).

Definition clear_era_metadata (obsolete_era : Z) (st : SlashStore) : SlashStore :=
  Build_SlashStore (st_spans st) (st_span_slash st)
    (filter (fun '((era, _), _) => era <> obsolete_era) (ValidatorSlashInEra st))
    (filter (fun '((era, _), _) => era <> obsolete_era) (NominatorSlashInEra st)).
End slashing.
