(* ===== verification/StakingVoters.v ===== *)
(** * The voters of the staking pallet

    The part of [frame/staking/src/] that keeps the list of voters: the staking ledgers behind the scores
    ([ledger.rs], [pallet/impls.rs]), the registers of nominators and validators and the calls that enter
    and leave them ([pallet/mod.rs]), and the snapshot of voters for an election with its size tracker
    ([election_size_tracker.rs]).  The list is any implementation of [SortedListProvider] whose storage
    [S] contains the storage of the staking pallet. *)

From stdpp Require Import base tactics numbers list gmap.
From S2P Require Import Prelude Dispatch System BalancesCalls SortedList StakingLedgers StakingSpans.
Local Open Scope Z_scope.

Definition u64_max : Z := 2 ^ 64 - 1.

(** ** Votes: [primitives/staking/src/currency_to_vote.rs] *)

Class CurrencyToVote := { to_vote : Z -> Z -> Z }.

Definition factor (issuance : Z) : Z := Z.max (issuance / u64_max) 1.

Definition U128CurrencyToVote : CurrencyToVote := {|
  to_vote value issuance := Z.min u64_max (value / factor issuance);
|}.

Definition SaturatingCurrencyToVote : CurrencyToVote := {|
  to_vote value _ := Z.min u64_max value;
|}.

(** The largest quota is positive. *)
Class NominationsQuota := {
  MaxNominations : Z;
  curve : Z -> Z;
}.

Definition get_quota `{NominationsQuota} (balance : Z) : Z := Z.min MaxNominations (Z.max 1 (curve balance)).

(** ** Storage *)

Inductive StakingError :=
  | NotController
  | NotStash
  | AlreadyBonded
  | AlreadyPaired
  | EmptyTargets
  | DuplicateIndex
  | InvalidSlashIndex
  | InsufficientBond
  | NoMoreChunks
  | NoUnlockChunk
  | FundedTarget
  | InvalidEraToReward
  | InvalidNumberOfNominations
  | NotSortedAndUnique
  | AlreadyClaimed
  | InvalidPage
  | IncorrectHistoryDepth
  | IncorrectSlashingSpans
  | BadState
  | TooManyTargets
  | BadTarget
  | CannotChillOther
  | TooManyNominators
  | TooManyValidators
  | CommissionTooLow
  | BoundNotMet
  | ControllerDeprecated
  | CannotRestoreLedger
  | RewardDestinationRestricted
  | NotEnoughFunds
  | VirtualStakerNotAllowed
  | CannotReapStash
  | AlreadyMigrated
  | Restricted.

Definition StakingError_index (e : StakingError) : Z :=
  match e with
  | NotController => 0
  | NotStash => 1
  | AlreadyBonded => 2
  | AlreadyPaired => 3
  | EmptyTargets => 4
  | DuplicateIndex => 5
  | InvalidSlashIndex => 6
  | InsufficientBond => 7
  | NoMoreChunks => 8
  | NoUnlockChunk => 9
  | FundedTarget => 10
  | InvalidEraToReward => 11
  | InvalidNumberOfNominations => 12
  | NotSortedAndUnique => 13
  | AlreadyClaimed => 14
  | InvalidPage => 15
  | IncorrectHistoryDepth => 16
  | IncorrectSlashingSpans => 17
  | BadState => 18
  | TooManyTargets => 19
  | BadTarget => 20
  | CannotChillOther => 21
  | TooManyNominators => 22
  | TooManyValidators => 23
  | CommissionTooLow => 24
  | BoundNotMet => 25
  | ControllerDeprecated => 26
  | CannotRestoreLedger => 27
  | RewardDestinationRestricted => 28
  | NotEnoughFunds => 29
  | VirtualStakerNotAllowed => 30
  | CannotReapStash => 31
  | AlreadyMigrated => 32
  | Restricted => 33
  end.

(** [account_size_hint] is the encoded length of an account. *)
Class StakingConfig := {
  StakingPalletIndex : Z;
  account_size_hint : Z;
  BondingDuration : Z;
  MaxUnlockingChunks : nat;
  (** [T::Filter::contains] *)
  restricted : AccountId -> bool;
}.

Record ValidatorPrefs := { commission : Z; blocked : bool }.

Record Nominations := { targets : list AccountId; submitted_in : Z; suppressed : bool }.

Inductive RewardDestination :=
  | ToStaked
  | ToStash
  | ToController
  | ToAccount (who : AccountId)
  | ToNone.

#[export] Instance RewardDestination_eq_dec : EqDecision RewardDestination.
Proof. solve_decision. Defined.

Inductive StakingEvent :=
  | BondedEvent (stash : AccountId) (amount : Z)
  | Unbonded (stash : AccountId) (amount : Z)
  | Withdrawn (stash : AccountId) (amount : Z)
  | Slashed (staker : AccountId) (amount : Z)
  | ValidatorPrefsSet (stash : AccountId) (prefs : ValidatorPrefs)
  | Chilled (stash : AccountId)
  | Kicked (nominator stash : AccountId)
  | SnapshotVotersSizeExceeded (size : Z)
  | ControllerBatchDeprecated (failures : Z).

(** The calls of [T::EventListeners]. *)
Inductive StakingNotice :=
  | on_slash (stash : AccountId) (slashed_active : Z) (slashed_unlocking : gmap Z Z) (total_slashed : Z)
  | on_withdraw (controller : AccountId) (amount : Z).

(** [asset] is the storage of the currency. *)
Record StakingCore (C : Type) := {
  Bonded : gmap AccountId AccountId;
  Ledger : gmap AccountId StakingLedger;
  Payee : gmap AccountId RewardDestination;
  VirtualStakers : gset AccountId;
  (** [frame_system::Account], the nonces *)
  AccountNonce : gmap AccountId Z;
  (** [SlashingSpans], [SpanSlash], [ValidatorSlashInEra] and [NominatorSlashInEra] *)
  slash_store : SlashStore;
  Validators : gmap AccountId ValidatorPrefs;
  CounterForValidators : Z;
  Nominators : gmap AccountId Nominations;
  CounterForNominators : Z;
  MinNominatorBond : Z;
  MinValidatorBond : Z;
  MinCommission : Z;
  MaxValidatorsCount : option Z;
  MaxNominatorsCount : option Z;
  ChillThreshold : option Z;
  CurrentEra : option Z;
  MinimumActiveStake : Z;
  asset : C;
  staking_events : list StakingEvent;
  staking_notices : list StakingNotice;
}.
Arguments Bonded {C}.
Arguments Ledger {C}.
Arguments Payee {C}.
Arguments VirtualStakers {C}.
Arguments AccountNonce {C}.
Arguments slash_store {C}.
Arguments Validators {C}.
Arguments CounterForValidators {C}.
Arguments Nominators {C}.
Arguments CounterForNominators {C}.
Arguments MinNominatorBond {C}.
Arguments MinValidatorBond {C}.
Arguments MinCommission {C}.
Arguments MaxValidatorsCount {C}.
Arguments MaxNominatorsCount {C}.
Arguments ChillThreshold {C}.
Arguments CurrentEra {C}.
Arguments MinimumActiveStake {C}.
Arguments asset {C}.
Arguments staking_events {C}.
Arguments staking_notices {C}.

Definition set_bonds {C : Type} (bonded : gmap AccountId AccountId) (ledger : gmap AccountId StakingLedger) (payee : gmap AccountId RewardDestination) (c : StakingCore C) : StakingCore C :=
  Build_StakingCore C bonded ledger payee (VirtualStakers c) (AccountNonce c) (slash_store c) (Validators c)
    (CounterForValidators c) (Nominators c) (CounterForNominators c) (MinNominatorBond c) (MinValidatorBond c)
    (MinCommission c) (MaxValidatorsCount c) (MaxNominatorsCount c) (ChillThreshold c) (CurrentEra c)
    (MinimumActiveStake c) (asset c) (staking_events c) (staking_notices c).
Definition set_virtual {C : Type} (v : gset AccountId) (c : StakingCore C) : StakingCore C :=
  Build_StakingCore C (Bonded c) (Ledger c) (Payee c) v (AccountNonce c) (slash_store c) (Validators c)
    (CounterForValidators c) (Nominators c) (CounterForNominators c) (MinNominatorBond c) (MinValidatorBond c)
    (MinCommission c) (MaxValidatorsCount c) (MaxNominatorsCount c) (ChillThreshold c) (CurrentEra c)
    (MinimumActiveStake c) (asset c) (staking_events c) (staking_notices c).
Definition set_slash_store {C : Type} (st : SlashStore) (c : StakingCore C) : StakingCore C :=
  Build_StakingCore C (Bonded c) (Ledger c) (Payee c) (VirtualStakers c) (AccountNonce c) st (Validators c)
    (CounterForValidators c) (Nominators c) (CounterForNominators c) (MinNominatorBond c) (MinValidatorBond c)
    (MinCommission c) (MaxValidatorsCount c) (MaxNominatorsCount c) (ChillThreshold c) (CurrentEra c)
    (MinimumActiveStake c) (asset c) (staking_events c) (staking_notices c).
Definition SlashingSpans {C : Type} (c : StakingCore C) : gmap AccountId SlashingSpansRecord := st_spans (slash_store c).
Definition SpanSlash {C : Type} (c : StakingCore C) : gmap (AccountId * Z) SpanRecord := st_span_slash (slash_store c).
Definition set_validators {C : Type} (m : gmap AccountId ValidatorPrefs) (n : Z) (c : StakingCore C) : StakingCore C :=
  Build_StakingCore C (Bonded c) (Ledger c) (Payee c) (VirtualStakers c) (AccountNonce c) (slash_store c) m n
    (Nominators c) (CounterForNominators c) (MinNominatorBond c) (MinValidatorBond c) (MinCommission c)
    (MaxValidatorsCount c) (MaxNominatorsCount c) (ChillThreshold c) (CurrentEra c) (MinimumActiveStake c)
    (asset c) (staking_events c) (staking_notices c).
Definition set_nominators {C : Type} (m : gmap AccountId Nominations) (n : Z) (c : StakingCore C) : StakingCore C :=
  Build_StakingCore C (Bonded c) (Ledger c) (Payee c) (VirtualStakers c) (AccountNonce c) (slash_store c)
    (Validators c) (CounterForValidators c) m n (MinNominatorBond c) (MinValidatorBond c) (MinCommission c)
    (MaxValidatorsCount c) (MaxNominatorsCount c) (ChillThreshold c) (CurrentEra c) (MinimumActiveStake c)
    (asset c) (staking_events c) (staking_notices c).
Definition set_minimum_active_stake {C : Type} (v : Z) (c : StakingCore C) : StakingCore C :=
  Build_StakingCore C (Bonded c) (Ledger c) (Payee c) (VirtualStakers c) (AccountNonce c) (slash_store c)
    (Validators c) (CounterForValidators c) (Nominators c) (CounterForNominators c) (MinNominatorBond c)
    (MinValidatorBond c) (MinCommission c) (MaxValidatorsCount c) (MaxNominatorsCount c) (ChillThreshold c)
    (CurrentEra c) v (asset c) (staking_events c) (staking_notices c).
Definition set_asset {C : Type} (v : C) (c : StakingCore C) : StakingCore C :=
  Build_StakingCore C (Bonded c) (Ledger c) (Payee c) (VirtualStakers c) (AccountNonce c) (slash_store c)
    (Validators c) (CounterForValidators c) (Nominators c) (CounterForNominators c) (MinNominatorBond c)
    (MinValidatorBond c) (MinCommission c) (MaxValidatorsCount c) (MaxNominatorsCount c) (ChillThreshold c)
    (CurrentEra c) (MinimumActiveStake c) v (staking_events c) (staking_notices c).
Definition staking_deposit_event {C : Type} (e : StakingEvent) (c : StakingCore C) : StakingCore C :=
  Build_StakingCore C (Bonded c) (Ledger c) (Payee c) (VirtualStakers c) (AccountNonce c) (slash_store c)
    (Validators c) (CounterForValidators c) (Nominators c) (CounterForNominators c) (MinNominatorBond c)
    (MinValidatorBond c) (MinCommission c) (MaxValidatorsCount c) (MaxNominatorsCount c) (ChillThreshold c)
    (CurrentEra c) (MinimumActiveStake c) (asset c) (staking_events c ++ [e]) (staking_notices c).
Definition notify {C : Type} (n : StakingNotice) (c : StakingCore C) : StakingCore C :=
  Build_StakingCore C (Bonded c) (Ledger c) (Payee c) (VirtualStakers c) (AccountNonce c) (slash_store c)
    (Validators c) (CounterForValidators c) (Nominators c) (CounterForNominators c) (MinNominatorBond c)
    (MinValidatorBond c) (MinCommission c) (MaxValidatorsCount c) (MaxNominatorsCount c) (ChillThreshold c)
    (CurrentEra c) (MinimumActiveStake c) (asset c) (staking_events c) (staking_notices c ++ [n]).

(** Counted maps, as in [CountedStorageMap]. *)
Definition inserted_count {V} (m : gmap AccountId V) (k : AccountId) (n : Z) : Z :=
  if bool_decide (is_Some (m !! k)) then n else u32_saturating_add n 1.
Definition removed_count {V} (m : gmap AccountId V) (k : AccountId) (n : Z) : Z :=
  if bool_decide (is_Some (m !! k)) then saturating_sub n 1 else n.

Section core.
Context {C : Type}.

Definition Validators_insert (who : AccountId) (p : ValidatorPrefs) (c : StakingCore C) : StakingCore C :=
  set_validators (<[who := p]> (Validators c)) (inserted_count (Validators c) who (CounterForValidators c)) c.
Definition Validators_remove (who : AccountId) (c : StakingCore C) : StakingCore C :=
  set_validators (delete who (Validators c)) (removed_count (Validators c) who (CounterForValidators c)) c.
Definition Nominators_insert (who : AccountId) (p : Nominations) (c : StakingCore C) : StakingCore C :=
  set_nominators (<[who := p]> (Nominators c)) (inserted_count (Nominators c) who (CounterForNominators c)) c.
Definition Nominators_remove (who : AccountId) (c : StakingCore C) : StakingCore C :=
  set_nominators (delete who (Nominators c)) (removed_count (Nominators c) who (CounterForNominators c)) c.

Definition is_validator (who : AccountId) (c : StakingCore C) : bool := bool_decide (is_Some (Validators c !! who)).
Definition is_nominator (who : AccountId) (c : StakingCore C) : bool := bool_decide (is_Some (Nominators c !! who)).

(** ** Ledgers and scores *)

Inductive StakingAccount := Stash (who : AccountId) | Controller (who : AccountId).

(** [StakingLedger::get], which [Pallet::ledger] calls. *)
Definition ledger_get (account : StakingAccount) (c : StakingCore C) : StakingError + StakingLedger :=
  let pair :=
    match account with
    | Stash stash =>
        match Bonded c !! stash with
        | Some controller => inr (stash, controller)
        | None => inl NotStash
        end
    | Controller controller =>
        match Ledger c !! controller with
        | Some l => inr (lg_stash l, controller)
        | None => inl NotController
        end
    end in
  match pair with
  | inl e => inl e
  | inr (stash, controller) =>
      match Ledger c !! controller with
      | None => inl NotController
      | Some ledger =>
          let ledger := set_controller (Some controller) ledger in
          if bool_decide (Bonded c !! stash = Some controller) && (lg_stash ledger =? stash)%N then inr ledger
          else inl BadState
      end
  end.

Definition slashable_balance_of (stash : AccountId) (c : StakingCore C) : Z :=
  match ledger_get (Stash stash) c with
  | inr l => lg_active l
  | inl _ => 0
  end.

End core.

(** [asset.rs]: what the pallet does with the currency, whose storage is [C].  A slash returns the value
    of the imbalance and what could not be slashed. *)
Class StakeAsset (C : Type) := {
  asset_existential_deposit : Z;
  asset_total_issuance : C -> Z;
  asset_total_balance : AccountId -> C -> Z;
  asset_staked : AccountId -> C -> Z;
  asset_free_to_stake : AccountId -> C -> Z;
  asset_update_stake : AccountId -> Z -> M C unit;
  asset_kill_stake : AccountId -> M C unit;
  asset_slash : AccountId -> Z -> M C (Z * Z);
}.

Section votes.
Context {C : Type} `{StakeAsset C} `{CurrencyToVote}.

Definition weight_of (who : AccountId) (c : StakingCore C) : Z :=
  to_vote (slashable_balance_of who c) (asset_total_issuance (asset c)).

#[export] Instance StakingScore : ScoreProvider (StakingCore C) := fun who c =>
  match ledger_get (Stash who) c with
  | inr l => Some (to_vote (lg_active l) (asset_total_issuance (asset c)))
  | inl _ => None
  end.
End votes.

(** ** The size tracker *)

Record DataProviderBounds := { bound_count : option Z; bound_size : option Z }.

Definition size_exhausted (bounds : DataProviderBounds) (given_size : Z) : bool :=
  match bound_size bounds with
  | Some size => size <? given_size
  | None => false
  end.

Record StaticTracker := { tracker_size : Z; tracker_counter : Z }.

(** The length of a compact [u32]. *)
Definition compact_len (n : Z) : Z :=
  if n <? 2 ^ 6 then 1 else if n <? 2 ^ 14 then 2 else if n <? 2 ^ 30 then 4 else 5.

Definition length_prefix (len : Z) : Z := compact_len (len mod 2 ^ 32).

(** [usize] is 32 bits wide. *)
Definition usize_saturating_add (a b : Z) : Z := Z.min u32_max (a + b).
Definition usize_saturating_mul (a b : Z) : Z := Z.min u32_max (a * b).

Definition final_byte_size_of (num_voters size : Z) : Z := usize_saturating_add (length_prefix num_voters) size.

Definition Voter : Type := AccountId * Z * list AccountId.

Definition voter_size_hint `{StakingConfig} (voter : Voter) : Z :=
  let '(_, _, targets) := voter in
  usize_saturating_add (usize_saturating_add account_size_hint 8)
    (usize_saturating_mul account_size_hint (Z.of_nat (length targets))).

Definition try_register_voter `{StakingConfig} (self : StaticTracker) (voter : Voter) (bounds : DataProviderBounds) :
    option StaticTracker :=
  let tracker_size_after :=
    final_byte_size_of (tracker_counter self + 1) (usize_saturating_add (tracker_size self) (voter_size_hint voter)) in
  if size_exhausted bounds (tracker_size_after mod 2 ^ 32) then None
  else Some {| tracker_size := tracker_size_after; tracker_counter := tracker_counter self + 1 |}.

(** ** The registers *)

(** The storage of the list contains the storage of the staking pallet. *)
Class HasStaking (S C : Type) := {
  core : S -> StakingCore C;
  set_core : StakingCore C -> S -> S;
}.

Section staking.
Context {S C : Type} `{SL : SortedListProvider S} `{HS : !HasStaking S C} `{AS : !StakeAsset C} `{CV : CurrencyToVote}.
Context `{NQ : NominationsQuota} `{SC : StakingConfig}.

Definition SError (e : StakingError) : DispatchError := ModuleError StakingPalletIndex (StakingError_index e).

Definition on_core (f : StakingCore C -> StakingCore C) : M S unit := modify (fun s => set_core (f (core s)) s).

Definition from_core {A} (f : StakingCore C -> A) : M S A := gets (fun s => f (core s)).

(** [let _ = ... .defensive()]: an error is only logged. *)
Definition defensive (m : M S unit) : M S unit := do try m ;; ret tt.

Definition do_add_nominator (who : AccountId) (nominations : Nominations) : M S unit :=
  contains <- from_core (is_nominator who) ;;
  do when (negb contains) (weight <- from_core (weight_of who) ;; defensive (on_insert who weight)) ;;
  on_core (Nominators_insert who nominations).

Definition do_remove_nominator (who : AccountId) : M S bool :=
  contains <- from_core (is_nominator who) ;;
  if contains : bool then
    do on_core (Nominators_remove who) ;;
    do defensive (on_remove who) ;;
    ret true
  else ret false.

Definition do_add_validator (who : AccountId) (prefs : ValidatorPrefs) : M S unit :=
  contains <- from_core (is_validator who) ;;
  do when (negb contains) (weight <- from_core (weight_of who) ;; defensive (on_insert who weight)) ;;
  on_core (Validators_insert who prefs).

Definition do_remove_validator (who : AccountId) : M S bool :=
  contains <- from_core (is_validator who) ;;
  if contains : bool then
    do on_core (Validators_remove who) ;;
    do defensive (on_remove who) ;;
    ret true
  else ret false.

Definition chill_stash (stash : AccountId) : M S unit :=
  chilled_as_validator <- do_remove_validator stash ;;
  chilled_as_nominator <- do_remove_nominator stash ;;
  when (chilled_as_validator || chilled_as_nominator) (on_core (staking_deposit_event (Chilled stash))).

Definition get_ledger (account : StakingAccount) : M S StakingLedger :=
  l <- from_core (ledger_get account) ;;
  match l with
  | inr ledger => ret ledger
  | inl e => fail (SError e)
  end.

(** A limit, when there is one, is only checked for a stash that is not yet in the register. *)
Definition ensure_room (contains : bool) (limit : option Z) (count : Z) (e : StakingError) : M S unit :=
  match contains, limit with
  | false, Some max => ensure (count <? max) (SError e)
  | _, _ => ret tt
  end.

Definition validate (origin : RawOrigin) (prefs : ValidatorPrefs) : M S unit :=
  with_storage_layer (
    controller <- ensure_signed origin ;;
    ledger <- get_ledger (Controller controller) ;;
    c <- from_core id ;;
    do ensure (MinValidatorBond c <=? lg_active ledger) (SError InsufficientBond) ;;
    let stash := lg_stash ledger in
    do ensure (MinCommission c <=? commission prefs) (SError CommissionTooLow) ;;
    do ensure_room (is_validator stash c) (MaxValidatorsCount c) (CounterForValidators c) TooManyValidators ;;
    do do_remove_nominator stash ;;
    do do_add_validator stash prefs ;;
    on_core (staking_deposit_event (ValidatorPrefsSet stash prefs))).

(** Each target is looked up, and accepted when it was a target before or does not block nominations. *)
Fixpoint accept_targets (old : list AccountId) (targets : list MultiAddress) : M S (list AccountId) :=
  match targets with
  | [] => ret []
  | t :: targets =>
      n <- lookup_address t ;;
      c <- from_core id ;;
      do ensure (bool_decide (n ∈ old) || negb (from_option blocked false (Validators c !! n))) (SError BadTarget) ;;
      rest <- accept_targets old targets ;;
      ret (n :: rest)
  end.

Definition nominate (origin : RawOrigin) (wanted : list MultiAddress) : M S unit :=
  with_storage_layer (
    controller <- ensure_signed origin ;;
    ledger <- get_ledger (Controller controller) ;;
    c <- from_core id ;;
    do ensure (MinNominatorBond c <=? lg_active ledger) (SError InsufficientBond) ;;
    let stash := lg_stash ledger in
    do ensure_room (is_nominator stash c) (MaxNominatorsCount c) (CounterForNominators c) TooManyNominators ;;
    do ensure (negb (bool_decide (wanted = []))) (SError EmptyTargets) ;;
    do ensure (Z.of_nat (length wanted) <=? get_quota (lg_active ledger)) (SError TooManyTargets) ;;
    let old := from_option targets [] (Nominators c !! stash) in
    accepted <- accept_targets old wanted ;;
    do ensure (Z.of_nat (length accepted) <=? MaxNominations) (SError TooManyNominators) ;;
    let nominations := {| targets := accepted; submitted_in := default 0 (CurrentEra c); suppressed := false |} in
    do do_remove_validator stash ;;
    do_add_nominator stash nominations).

Definition chill (origin : RawOrigin) : M S unit :=
  with_storage_layer (
    controller <- ensure_signed origin ;;
    ledger <- get_ledger (Controller controller) ;;
    chill_stash (lg_stash ledger)).

(** The first check of [check_count]. *)
Definition check_count (s : S) : bool := sl_count s =? CounterForNominators (core s) + CounterForValidators (core s).

(** ** The snapshot of voters *)

Definition NPOS_MAX_ITERATIONS_COEFFICIENT : Z := 2.

Record Snapshot := {
  all_voters : list Voter;
  min_active_stake : Z;
  voters_tracker : StaticTracker;
  size_exceeded : option Z;
}.

(** What one account of the list adds: nothing, a voter, or the end of the loop. *)
Definition snapshot_round (bounds : DataProviderBounds) (c : StakingCore C) (voter : AccountId) (a : Snapshot) :
    Snapshot * bool :=
  let voter_weight := weight_of voter c in
  let register (v : Voter) (min : Z) :=
    match try_register_voter (voters_tracker a) v bounds with
    | Some t => ({| all_voters := all_voters a ++ [v]; min_active_stake := min; voters_tracker := t; size_exceeded := None |}, true)
    | None => ({| all_voters := all_voters a; min_active_stake := min_active_stake a; voters_tracker := voters_tracker a;
                  size_exceeded := Some (tracker_size (voters_tracker a) mod 2 ^ 32) |}, false)
    end in
  if voter_weight =? 0 then (a, true)
  else
    match Nominators c !! voter with
    | Some nominations =>
        let min := if voter_weight <? min_active_stake a then voter_weight else min_active_stake a in
        match targets nominations with
        | [] => ({| all_voters := all_voters a; min_active_stake := min; voters_tracker := voters_tracker a;
                    size_exceeded := None |}, true)
        | ts => register (voter, voter_weight, ts) min
        end
    | None =>
        if is_validator voter c then register (voter, voter_weight, [voter]) (min_active_stake a)
        else (a, true)
    end.

(** The loop over the list, until there are enough voters, enough have been seen, or there is no more
    room. *)
Fixpoint snapshot_loop (bounds : DataProviderBounds) (c : StakingCore C) (len limit seen : Z) (voters : list AccountId)
    (a : Snapshot) : Snapshot :=
  match voters with
  | [] => a
  | voter :: voters =>
      if (Z.of_nat (length (all_voters a)) <? len) && (seen <? limit) then
        let '(a, continue) := snapshot_round bounds c voter a in
        if continue then snapshot_loop bounds c len limit (u32_saturating_add seen 1) voters a else a
      else a
  end.

(** Weights are not modelled.  The product of the loop condition is checked for overflow. *)
Definition get_npos_voters (bounds : DataProviderBounds) : M S (list Voter) :=
  all_voter_count <- gets sl_count ;;
  let final_predicted_len := Z.min (default all_voter_count (bound_count bounds)) all_voter_count in
  c <- from_core id ;;
  iter <- gets sl_iter ;;
  let start := {| all_voters := []; min_active_stake := u64_max;
                  voters_tracker := {| tracker_size := 0; tracker_counter := 0 |}; size_exceeded := None |} in
  let limit := NPOS_MAX_ITERATIONS_COEFFICIENT * final_predicted_len in
  match iter with
  | None => panic
  | Some sorted_voters =>
      if (0 <? final_predicted_len) && (u32_max <? limit) then panic
      else
        let a := snapshot_loop bounds c final_predicted_len limit 0 sorted_voters start in
        do match size_exceeded a with
           | Some size => on_core (staking_deposit_event (SnapshotVotersSizeExceeded size))
           | None => ret tt
           end ;;
        do on_core (set_minimum_active_stake (if bool_decide (all_voters a = []) then 0 else min_active_stake a)) ;;
        ret (all_voters a)
  end.
End staking.
