(* ===== verification/StakingBonds.v ===== *)
(** * Bonding and its administration

    The part of [frame/staking/src/] that moves stake: how ledgers are stored ([ledger.rs]), bonding,
    unbonding, withdrawing and rebonding, the removal of a stash, and slashing ([pallet/impls.rs],
    [pallet/mod.rs], [slashing.rs]); in the second half payees, controllers and repairs.  Weights are not
    modelled. *)

From stdpp Require Import base tactics numbers list gmap.
From S2P Require Import Prelude Dispatch System BalancesCalls PerThings SortedList StakingLedgers StakingSpans StakingVoters.
Local Open Scope Z_scope.

Section core.
Context {C : Type}.

Definition paired_account (account : StakingAccount) (c : StakingCore C) : option AccountId :=
  match account with
  | Stash stash => Bonded c !! stash
  | Controller controller => lg_stash <$> Ledger c !! controller
  end.

Definition is_bonded (account : StakingAccount) (c : StakingCore C) : bool :=
  match account with
  | Stash stash => bool_decide (is_Some (Bonded c !! stash))
  | Controller controller => bool_decide (is_Some (Ledger c !! controller))
  end.

Definition account_nonce (who : AccountId) (c : StakingCore C) : Z := default 0 (AccountNonce c !! who).

Definition is_virtual_staker (who : AccountId) (c : StakingCore C) : bool :=
  (account_nonce who c =? 0) && bool_decide (who ∈ VirtualStakers c).

Definition ledger_controller (self : StakingLedger) (c : StakingCore C) : option AccountId :=
  match lg_controller self with
  | Some controller => Some controller
  | None => paired_account (Stash (lg_stash self)) c
  end.

Definition Bonded_insert (stash controller : AccountId) (c : StakingCore C) : StakingCore C :=
  set_bonds (<[stash := controller]> (Bonded c)) (Ledger c) (Payee c) c.
Definition Ledger_insert (controller : AccountId) (l : StakingLedger) (c : StakingCore C) : StakingCore C :=
  set_bonds (Bonded c) (<[controller := set_controller None l]> (Ledger c)) (Payee c) c.
Definition Payee_insert (stash : AccountId) (payee : RewardDestination) (c : StakingCore C) : StakingCore C :=
  set_bonds (Bonded c) (Ledger c) (<[stash := payee]> (Payee c)) c.

(** [Vec::swap_remove] *)
Definition swap_remove {A} (pos : nat) (l : list A) : list A :=
  match last l with
  | None => l
  | Some x => take (length l - 1) (<[pos := x]> l)
  end.

(** The closure of [kick]. *)
Definition kick_one (stash nom_stash : AccountId) (c : StakingCore C) : StakingCore C :=
  match Nominators c !! nom_stash with
  | None => c
  | Some nom =>
      match list_find (fun v => v = stash) (targets nom) with
      | None => c
      | Some (pos, _) =>
          staking_deposit_event (Kicked nom_stash stash)
            (set_nominators
               (<[nom_stash := {| targets := swap_remove pos (targets nom); submitted_in := submitted_in nom;
                                  suppressed := suppressed nom |}]> (Nominators c))
               (CounterForNominators c) c)
      end
  end.
End core.

Section bonds.
Context {S C : Type} `{SL : SortedListProvider S} `{HS : !HasStaking S C} `{AS : !StakeAsset C} `{CV : CurrencyToVote}.
Context `{SC : StakingConfig} `{SW : StakeWidth}.

(** The currency is part of the storage. *)
Definition on_asset {A} (m : M C A) : M S A := fun s =>
  let '(r, a) := m (asset (core s)) in (r, set_core (set_asset a (core s)) s).

Definition map_err {A} (m : M S A) (e : DispatchError) : M S A :=
  r <- try m ;;
  match r with
  | inl a => ret a
  | inr _ => fail e
  end.

Definition arith {A} (o : option A) : M S A :=
  match o with
  | Some a => ret a
  | None => panic
  end.

Definition from_asset {A} (f : C -> A) : M S A := from_core (fun c => f (asset c)).

(** ** [ledger.rs] *)

Definition ledger_update (self : StakingLedger) : M S unit :=
  c <- from_core id ;;
  do ensure (is_bonded (Stash (lg_stash self)) c) (SError NotStash) ;;
  do when (negb (is_virtual_staker (lg_stash self) c))
       (map_err (on_asset (asset_update_stake (lg_stash self) (lg_total self))) (SError NotEnoughFunds)) ;;
  controller <- ok_or (ledger_controller self c) (SError NotController) ;;
  on_core (Ledger_insert controller self).

Definition ledger_bond (self : StakingLedger) (payee : RewardDestination) : M S unit :=
  bonded <- from_core (is_bonded (Stash (lg_stash self))) ;;
  do ensure (negb bonded) (SError AlreadyBonded) ;;
  do on_core (Payee_insert (lg_stash self) payee) ;;
  do on_core (Bonded_insert (lg_stash self) (lg_stash self)) ;;
  ledger_update self.

Definition ledger_kill (stash : AccountId) : M S unit :=
  c <- from_core id ;;
  controller <- ok_or (Bonded c !! stash) (SError NotStash) ;;
  ledger <- ok_or (Ledger c !! controller) (SError NotController) ;;
  do on_core (fun c => set_bonds (Bonded c) (delete controller (Ledger c)) (Payee c) c) ;;
  do on_core (fun c => set_bonds (delete stash (Bonded c)) (Ledger c) (Payee c) c) ;;
  do on_core (fun c => set_bonds (Bonded c) (Ledger c) (delete stash (Payee c)) c) ;;
  taken <- from_core (fun c => bool_decide (lg_stash ledger ∈ VirtualStakers c)) ;;
  do on_core (fun c => set_virtual (VirtualStakers c ∖ {[lg_stash ledger]}) c) ;;
  when (negb taken) (on_asset (asset_kill_stake (lg_stash ledger))).

(** ** Stashes *)

Definition clear_stash_metadata (stash : AccountId) (num_slashing_spans : Z) : M S unit :=
  spans <- from_core (fun c => SlashingSpans c !! stash) ;;
  match spans with
  | None => ret tt
  | Some spans =>
      do ensure (Z.of_nat (length (spans_iter spans)) <=? num_slashing_spans) (SError IncorrectSlashingSpans) ;;
      do on_core (fun c => set_slash_store (put_spans (delete stash (SlashingSpans c)) (slash_store c)) c) ;;
      on_core (fun c => set_slash_store (put_span_slash
                 (foldl (fun m span => delete (stash, sp_index span) m) (SpanSlash c) (spans_iter spans)) (slash_store c)) c)
  end.

Definition kill_stash (stash : AccountId) (num_slashing_spans : Z) : M S unit :=
  do clear_stash_metadata stash num_slashing_spans ;;
  do ledger_kill stash ;;
  do do_remove_validator stash ;;
  do do_remove_nominator stash ;;
  ret tt.

(** The list follows the active stake of a voter. *)
Definition update_voter (stash : AccountId) : M S unit :=
  contains <- gets (sl_contains stash) ;;
  when contains (weight <- from_core (weight_of stash) ;; defensive (on_update stash weight)).

Definition do_bond_extra (stash : AccountId) (additional : Z) : M S unit :=
  ledger <- get_ledger (Stash stash) ;;
  virtual <- from_core (is_virtual_staker stash) ;;
  free <- from_asset (asset_free_to_stake stash) ;;
  let extra := if virtual : bool then additional else Z.min additional free in
  total <- ok_or (stake_add (lg_total ledger) extra) (Arithmetic Overflow) ;;
  active <- ok_or (stake_add (lg_active ledger) extra) (Arithmetic Overflow) ;;
  let ledger := set_active active (set_total total ledger) in
  do ensure (asset_existential_deposit <=? lg_active ledger) (SError InsufficientBond) ;;
  do ledger_update ledger ;;
  do update_voter stash ;;
  on_core (staking_deposit_event (BondedEvent stash extra)).

Definition do_withdraw_unbonded (controller : AccountId) (num_slashing_spans : Z) : M S unit :=
  ledger <- get_ledger (Controller controller) ;;
  let stash := lg_stash ledger in
  let old_total := lg_total ledger in
  era <- from_core CurrentEra ;;
  let ledger := match era with
                | Some current_era => consolidate_unlocked ledger current_era
                | None => ledger
                end in
  let new_total := lg_total ledger in
  let ed := asset_existential_deposit in
  do (if bool_decide (lg_unlocking ledger = []) && ((lg_active ledger <? ed) || (lg_active ledger =? 0))
      then kill_stash (lg_stash ledger) num_slashing_spans
      else ledger_update ledger) ;;
  when (new_total <? old_total) (
    let value := saturating_sub old_total new_total in
    do on_core (staking_deposit_event (Withdrawn stash value)) ;;
    on_core (notify (on_withdraw controller value))).

(** Adding to the chunk of this era, or a new chunk. *)
Definition push_chunk (value era : Z) (unlocking : list UnlockChunk) : option (list UnlockChunk) :=
  match last unlocking with
  | Some chunk =>
      if chunk_era chunk =? era then
        Some (take (length unlocking - 1) unlocking ++
                [{| chunk_value := stake_saturating_add (chunk_value chunk) value; chunk_era := era |}])
      else if (length unlocking <? MaxUnlockingChunks)%nat
           then Some (unlocking ++ [{| chunk_value := value; chunk_era := era |}]) else None
  | None =>
      if (length unlocking <? MaxUnlockingChunks)%nat
      then Some (unlocking ++ [{| chunk_value := value; chunk_era := era |}]) else None
  end.

(** The minimum for the role of the stash. *)
Definition min_active_bond (stash : AccountId) (c : StakingCore C) : Z :=
  if is_nominator stash c then MinNominatorBond c
  else if is_validator stash c then MinValidatorBond c
  else 0.

Definition do_unbond (controller : AccountId) (value : Z) : M S unit :=
  ledger <- get_ledger (Controller controller) ;;
  do when (length (lg_unlocking ledger) =? MaxUnlockingChunks)%nat (
       spans <- from_core (fun c => SlashingSpans c !! controller) ;;
       let real_num_slashing_spans := from_option (fun s => Z.of_nat (length (spans_iter s))) 0 spans in
       do_withdraw_unbonded controller (real_num_slashing_spans mod 2 ^ 32)) ;;
  ledger <- get_ledger (Controller controller) ;;
  let value := Z.min value (lg_active ledger) in
  let stash := lg_stash ledger in
  do ensure (length (lg_unlocking ledger) <? MaxUnlockingChunks)%nat (SError NoMoreChunks) ;;
  when (negb (value =? 0)) (
    let active := lg_active ledger - value in
    '(value, active) <- (if active <? asset_existential_deposit then
                           value <- arith (stake_add value active) ;; ret (value, 0)
                         else ret (value, active)) ;;
    minimum <- from_core (min_active_bond stash) ;;
    do ensure (minimum <=? active) (SError InsufficientBond) ;;
    current_era <- from_core CurrentEra ;;
    let era := u32_saturating_add (default 0 current_era) BondingDuration in
    unlocking <- ok_or (push_chunk value era (lg_unlocking ledger)) (SError NoMoreChunks) ;;
    do ledger_update (set_unlocking unlocking (set_active active ledger)) ;;
    do update_voter stash ;;
    on_core (staking_deposit_event (Unbonded stash value))).

(** ** Calls *)

Definition bond (origin : RawOrigin) (value : Z) (payee : RewardDestination) : M S unit :=
  with_storage_layer (
    stash <- ensure_signed origin ;;
    do ensure (negb (restricted stash)) (SError Restricted) ;;
    c <- from_core id ;;
    do ensure (negb (is_bonded (Stash stash) c)) (SError AlreadyBonded) ;;
    do ensure (negb (is_bonded (Controller stash) c)) (SError AlreadyPaired) ;;
    do ensure (asset_existential_deposit <=? value) (SError InsufficientBond) ;;
    stash_balance <- from_asset (asset_free_to_stake stash) ;;
    let value := Z.min value stash_balance in
    do on_core (staking_deposit_event (BondedEvent stash value)) ;;
    ledger_bond (StakingLedger_new stash value) payee).

Definition bond_extra (origin : RawOrigin) (max_additional : Z) : M S unit :=
  with_storage_layer (
    stash <- ensure_signed origin ;;
    do ensure (negb (restricted stash)) (SError Restricted) ;;
    do_bond_extra stash max_additional).

Definition unbond (origin : RawOrigin) (value : Z) : M S unit :=
  with_storage_layer (
    controller <- ensure_signed origin ;;
    ledger <- get_ledger (Controller controller) ;;
    do when (lg_total ledger <=? value) (chill_stash (lg_stash ledger)) ;;
    do_unbond controller value).

Definition withdraw_unbonded (origin : RawOrigin) (num_slashing_spans : Z) : M S unit :=
  with_storage_layer (
    controller <- ensure_signed origin ;;
    do_withdraw_unbonded controller num_slashing_spans).

Definition rebond (origin : RawOrigin) (value : Z) : M S unit :=
  with_storage_layer (
    controller <- ensure_signed origin ;;
    ledger <- get_ledger (Controller controller) ;;
    do ensure (negb (restricted (lg_stash ledger))) (SError Restricted) ;;
    do ensure (negb (bool_decide (lg_unlocking ledger = []))) (SError NoUnlockChunk) ;;
    '(ledger, rebonded_value) <- arith (ledger_rebond ledger value) ;;
    do ensure (asset_existential_deposit <=? lg_active ledger) (SError InsufficientBond) ;;
    let stash := lg_stash ledger in
    do on_core (staking_deposit_event (BondedEvent stash rebonded_value)) ;;
    do ledger_update ledger ;;
    update_voter stash).

Definition force_unstake (origin : RawOrigin) (stash : AccountId) (num_slashing_spans : Z) : M S unit :=
  with_storage_layer (
    do ensure_root origin ;;
    kill_stash stash num_slashing_spans).

Definition reap_stash (origin : RawOrigin) (stash : AccountId) (num_slashing_spans : Z) : M S unit :=
  with_storage_layer (
    do ensure_signed origin ;;
    c <- from_core id ;;
    do ensure (negb (is_virtual_staker stash c)) (SError VirtualStakerNotAllowed) ;;
    let ed := asset_existential_deposit in
    let origin_balance := asset_total_balance stash (asset c) in
    let ledger_total := match ledger_get (Stash stash) c with inr l => lg_total l | inl _ => 0 end in
    let reapable := (origin_balance <? ed) || (origin_balance =? 0) || (ledger_total <? ed) || (ledger_total =? 0) in
    do ensure reapable (SError FundedTarget) ;;
    kill_stash stash num_slashing_spans).

(** [collect] on the looked up accounts. *)
Fixpoint lookup_all (l : list MultiAddress) : M S (list AccountId) :=
  match l with
  | [] => ret []
  | a :: l => x <- lookup_address a ;; rest <- lookup_all l ;; ret (x :: rest)
  end.

Definition kick (origin : RawOrigin) (who : list MultiAddress) : M S unit :=
  with_storage_layer (
    controller <- ensure_signed origin ;;
    ledger <- get_ledger (Controller controller) ;;
    who <- lookup_all who ;;
    for_each who (fun nom_stash => on_core (kick_one (lg_stash ledger) nom_stash))).

(** A nominator that is stored can be decoded here, so the first test of the code does not apply. *)
Definition chill_other (origin : RawOrigin) (stash : AccountId) : M S unit :=
  with_storage_layer (
    caller <- ensure_signed origin ;;
    ledger <- get_ledger (Stash stash) ;;
    c <- from_core id ;;
    controller <- ok_or (ledger_controller ledger c) (SError NotController) ;;
    do when (negb (caller =? controller)%N) (
         threshold <- ok_or (ChillThreshold c) (SError CannotChillOther) ;;
         minimum <- (if is_nominator stash c then
                       max_nominator_count <- ok_or (MaxNominatorsCount c) (SError CannotChillOther) ;;
                       reached <- arith (mul_n Percent 32 threshold max_nominator_count) ;;
                       do ensure (reached <? CounterForNominators c) (SError CannotChillOther) ;;
                       ret (MinNominatorBond c)
                     else if is_validator stash c then
                       max_validator_count <- ok_or (MaxValidatorsCount c) (SError CannotChillOther) ;;
                       reached <- arith (mul_n Percent 32 threshold max_validator_count) ;;
                       do ensure (reached <? CounterForValidators c) (SError CannotChillOther) ;;
                       ret (MinValidatorBond c)
                     else ret 0) ;;
         ensure (lg_active ledger <? minimum) (SError CannotChillOther)) ;;
    chill_stash stash).

(** ** Slashing *)

(** [slashing::do_slash], with the reward payout and the value of the slashed imbalance. *)
Definition do_slash (stash : AccountId) (value reward_payout slashed_imbalance slash_era : Z) : M S (Z * Z) :=
  l <- from_core (ledger_get (Stash stash)) ;;
  match l with
  | inl _ => ret (reward_payout, slashed_imbalance)
  | inr ledger =>
      '(ledger, value, notice) <- arith (ledger_slash BondingDuration ledger value asset_existential_deposit slash_era) ;;
      do match notice with
         | Some slashed_unlocking => on_core (notify (on_slash (lg_stash ledger) (lg_active ledger) slashed_unlocking value))
         | None => ret tt
         end ;;
      if value =? 0 then ret (reward_payout, slashed_imbalance)
      else
        virtual <- from_core (is_virtual_staker stash) ;;
        '(reward_payout, slashed_imbalance) <-
          (if virtual : bool then ret (reward_payout, slashed_imbalance)
           else
             '(imbalance, missing) <- on_asset (asset_slash stash value) ;;
             ret (if missing =? 0 then reward_payout else saturating_sub reward_payout missing,
                  stake_saturating_add slashed_imbalance imbalance)) ;;
        do defensive (ledger_update ledger) ;;
        do on_core (staking_deposit_event (Slashed stash value)) ;;
        ret (reward_payout, slashed_imbalance)
  end.

(** [compute_slash] on the storage of the pallet. *)
Definition report_slash (params : SlashParams) : M S (option UnappliedSlash) :=
  st <- from_core slash_store ;;
  '(unapplied, st) <- arith (compute_slash params st) ;;
  do on_core (set_slash_store st) ;;
  ret unapplied.
End bonds.

(** * Payees, controllers and repairs

    The calls of [frame/staking/src/pallet/mod.rs] that set where rewards go, retire controllers and
    restore ledgers, and the interface to pallets that stake for others ([pallet/impls.rs]). *)

(** [T::AdminOrigin] *)
Class AdminOrigin := admin_origin : RawOrigin -> bool.

(** [T::OldCurrency::balance_locked] for the staking lock of earlier releases. *)
Class OldCurrency (C : Type) := old_balance_locked : AccountId -> C -> Z.

Inductive LedgerIntegrityState := LedgerOk | Corrupted | CorruptedKilled | LockCorrupted.

#[export] Instance LedgerIntegrityState_eq_dec : EqDecision LedgerIntegrityState.
Proof. solve_decision. Defined.
#[export] Instance StakingError_eq_dec : EqDecision StakingError.
Proof. solve_decision. Defined.

Section core.
Context {C : Type} `{AS : !StakeAsset C} `{OC : !OldCurrency C}.

Definition reward_destination (account : StakingAccount) (c : StakingCore C) : option RewardDestination :=
  let stash := match account with
               | Stash stash => Some stash
               | Controller controller => paired_account (Controller controller) c
               end in
  match stash with
  | Some stash => Payee c !! stash
  | None => None
  end.

Definition inspect_bond_state (stash : AccountId) (c : StakingCore C) : StakingError + LedgerIntegrityState :=
  let held := asset_staked stash (asset c) in
  let hold_or_lock := if held =? 0 then old_balance_locked stash (asset c) else held in
  match Bonded c !! stash with
  | None => inl (if hold_or_lock =? 0 then NotStash else BadState)
  | Some controller =>
      match Ledger c !! controller with
      | Some ledger =>
          if negb (lg_stash ledger =? stash)%N then inr Corrupted
          else if negb (hold_or_lock =? lg_total ledger) then inr LockCorrupted
          else inr LedgerOk
      | None => inr CorruptedKilled
      end
  end.

(** The closure of [filter_map] in [deprecate_controller_batch]. *)
Definition to_deprecate (c : StakingCore C) (controller : AccountId) : option StakingLedger :=
  match ledger_get (Controller controller) c with
  | inl _ => None
  | inr ledger =>
      let payee_deprecated := bool_decide (Payee c !! lg_stash ledger = Some ToController) in
      if negb (lg_stash ledger =? controller)%N && negb payee_deprecated then Some ledger else None
  end.
End core.

Section admin.
Context {S C : Type} `{SL : SortedListProvider S} `{HS : !HasStaking S C} `{AS : !StakeAsset C} `{CV : CurrencyToVote}.
Context `{SC : StakingConfig} `{SW : StakeWidth} `{AO : AdminOrigin} `{OC : !OldCurrency C}.

Definition ensure_admin (origin : RawOrigin) : M S unit := ensure (admin_origin origin) BadOrigin.

(** ** [ledger.rs] *)

Definition ledger_set_payee (self : StakingLedger) (payee : RewardDestination) : M S unit :=
  bonded <- from_core (is_bonded (Stash (lg_stash self))) ;;
  do ensure bonded (SError NotStash) ;;
  on_core (Payee_insert (lg_stash self) payee).

Definition set_controller_to_stash (self : StakingLedger) : M S unit :=
  controller <- ok_or (lg_controller self) (SError NotController) ;;
  do ensure (negb (lg_stash self =? controller)%N) (SError AlreadyPaired) ;;
  bonded_ledger <- from_core (fun c => Ledger c !! lg_stash self) ;;
  do match bonded_ledger with
     | Some bonded_ledger => ensure (lg_stash bonded_ledger =? lg_stash self)%N (SError BadState)
     | None => ret tt
     end ;;
  do on_core (fun c => set_bonds (Bonded c) (delete controller (Ledger c)) (Payee c) c) ;;
  do on_core (Ledger_insert (lg_stash self) self) ;;
  on_core (Bonded_insert (lg_stash self) (lg_stash self)).

(** ** Calls *)

Definition set_payee (origin : RawOrigin) (payee : RewardDestination) : M S unit :=
  with_storage_layer (
    controller <- ensure_signed origin ;;
    ledger <- get_ledger (Controller controller) ;;
    do ensure (negb (bool_decide (payee = ToController))) (SError ControllerDeprecated) ;;
    ledger_set_payee ledger payee).

Definition set_controller_call (origin : RawOrigin) : M S unit :=
  with_storage_layer (
    stash <- ensure_signed origin ;;
    ledger <- get_ledger (Stash stash) ;;
    c <- from_core id ;;
    controller <- ok_or (ledger_controller ledger c) (SError NotController) ;;
    do ensure (negb (controller =? stash)%N) (SError AlreadyPaired) ;;
    set_controller_to_stash ledger).

Definition update_payee (origin : RawOrigin) (controller : AccountId) : M S unit :=
  with_storage_layer (
    do ensure_signed origin ;;
    ledger <- get_ledger (Controller controller) ;;
    payee <- from_core (fun c => Payee c !! lg_stash ledger) ;;
    do ensure (bool_decide (payee = Some ToController)) (SError NotController) ;;
    ledger_set_payee ledger (ToAccount controller)).

(** The loop of [deprecate_controller_batch], with the failures so far. *)
Fixpoint deprecate_loop (failures : Z) (ledgers : list StakingLedger) : M S Z :=
  match ledgers with
  | [] => ret failures
  | ledger :: ledgers =>
      r <- try (set_controller_to_stash ledger) ;;
      deprecate_loop (match r with inl _ => failures | inr _ => failures + 1 end) ledgers
  end.

Definition deprecate_controller_batch (origin : RawOrigin) (controllers : list AccountId) : M S unit :=
  with_storage_layer (
    do ensure_admin origin ;;
    c <- from_core id ;;
    failures <- deprecate_loop 0 (omap (to_deprecate c) controllers) ;;
    on_core (staking_deposit_event (ControllerBatchDeprecated failures))).

Definition restore_ledger (origin : RawOrigin) (stash : AccountId) (maybe_controller : option AccountId) (maybe_total : option Z)
    (maybe_unlocking : option (list UnlockChunk)) : M S unit :=
  with_storage_layer (
    do ensure_admin origin ;;
    c <- from_core id ;;
    do ensure (negb (is_virtual_staker stash c)) (SError VirtualStakerNotAllowed) ;;
    let current_lock := asset_staked stash (asset c) in
    let stash_balance := stake_saturating_add (asset_free_to_stake stash (asset c)) (asset_staked stash (asset c)) in
    let rebond new_controller new_total : M S unit :=
      do on_core (Bonded_insert stash new_controller) ;;
      let ledger := set_unlocking (default [] maybe_unlocking) (set_controller (Some new_controller) (StakingLedger_new stash new_total)) in
      do ledger_update ledger ;;
      state <- from_core (inspect_bond_state stash) ;;
      ensure (bool_decide (state = inr LedgerOk)) (SError BadState) in
    match inspect_bond_state stash c with
    | inr Corrupted =>
        let new_controller := default stash maybe_controller in
        new_total <- match maybe_total with
                     | Some total =>
                         let new_total := Z.min total stash_balance in
                         do on_asset (asset_update_stake stash new_total) ;;
                         ret new_total
                     | None => ret current_lock
                     end ;;
        rebond new_controller new_total
    | inr CorruptedKilled =>
        if current_lock =? 0 then
          new_total <- ok_or maybe_total (SError CannotRestoreLedger) ;;
          rebond stash new_total
        else rebond stash current_lock
    | inr LockCorrupted =>
        total <- ok_or maybe_total (SError CannotRestoreLedger) ;;
        let new_total := Z.min total stash_balance in
        do on_asset (asset_update_stake stash new_total) ;;
        rebond stash new_total
    | inl BadState =>
        do on_asset (asset_kill_stake stash) ;;
        state <- from_core (inspect_bond_state stash) ;;
        ensure (bool_decide (state = inl NotStash)) (SError BadState)
    | inr LedgerOk | inl _ => fail (SError CannotRestoreLedger)
    end).

(** ** The interface for pallets that stake for others *)

Definition migrate_to_virtual_staker (who : AccountId) : M S unit :=
  do on_asset (asset_kill_stake who) ;;
  on_core (fun c => set_virtual (VirtualStakers c ∪ {[who]}) c).

Definition virtual_bond (keyless_who : AccountId) (value : Z) (payee : AccountId) : M S unit :=
  bonded <- from_core (is_bonded (Stash keyless_who)) ;;
  do ensure (negb bonded) (SError AlreadyBonded) ;;
  do ensure (negb (keyless_who =? payee)%N) (SError RewardDestinationRestricted) ;;
  do on_core (fun c => set_virtual (VirtualStakers c ∪ {[keyless_who]}) c) ;;
  do on_core (staking_deposit_event (BondedEvent keyless_who value)) ;;
  ledger_bond (StakingLedger_new keyless_who value) (ToAccount payee).

Definition interface_set_payee (stash reward_acc : AccountId) : M S unit :=
  virtual <- from_core (is_virtual_staker stash) ;;
  do ensure (negb virtual || negb (stash =? reward_acc)%N) (SError RewardDestinationRestricted) ;;
  ledger <- get_ledger (Stash stash) ;;
  ledger_set_payee ledger (ToAccount reward_acc).
End admin.
