(* ===== verification/StakingFacts.v ===== *)
(** * The voters of the staking pallet stay in the list

    The laws a sorted list promises to the staking pallet ([SortedListLaws]); under them the registers of
    nominators and validators and the list of voters stay in agreement, and every call has exactly the
    effect of its specification. *)

From stdpp Require Import base tactics numbers list gmap.
From S2P Require Import Prelude Dispatch System BalancesCalls SortedList StakingLedgers StakingSpans StakingVoters.
Local Open Scope Z_scope.

(** ** What the list promises *)

Class SortedListLaws (S C : Type) `{BalanceType} `{SL : SortedListProvider S} `{HS : !HasStaking S C} := {
  (** The list is intact and accepts changes. *)
  sl_ready : S -> Prop;
  core_set c (s : S) : core (set_core c s) = c;
  set_twice c c' (s : S) : set_core c (set_core c' s) = set_core c s;
  ready_set c (s : S) : sl_ready s -> sl_ready (set_core c s);
  contains_set c (s : S) x : sl_contains x (set_core c s) = sl_contains x s;
  iter_set c (s : S) : sl_iter (set_core c s) = sl_iter s;
  count_set c (s : S) : sl_count (set_core c s) = sl_count s;
  insert_law (s : S) x v : sl_ready s -> sl_contains x s = false -> is_balance v -> sl_count s < u32_max ->
    exists s', on_insert x v s = (Ok tt, s') /\ sl_ready s' /\ core s' = core s /\
      forall y, sl_contains y s' = bool_decide (y = x) || sl_contains y s;
  remove_law (s : S) x : sl_ready s -> sl_contains x s = true ->
    exists s', on_remove x s = (Ok tt, s') /\ sl_ready s' /\ core s' = core s /\
      forall y, sl_contains y s' = negb (bool_decide (y = x)) && sl_contains y s;
  update_law (s : S) x v : sl_ready s -> sl_contains x s = true -> is_balance v ->
    exists s', on_update x v s = (Ok tt, s') /\ sl_ready s' /\ core s' = core s /\ forall y, sl_contains y s' = sl_contains y s;
  iter_law (s : S) : sl_ready s -> exists l, sl_iter s = Some l /\ NoDup l /\ Z.of_nat (length l) = sl_count s /\
    (forall x, x ∈ l <-> sl_contains x s = true);
}.

(** Votes are scores. *)
Class VotesTyped `{BalanceType} `{CurrencyToVote} : Prop :=
  to_vote_typed value issuance : 0 <= value -> 0 <= issuance -> is_balance (to_vote value issuance).

(** Amounts are unsigned. *)
Definition core_typed {C : Type} `{StakeAsset C} (c : StakingCore C) : Prop :=
  0 <= asset_total_issuance (asset c) /\ forall k l, Ledger c !! k = Some l -> 0 <= lg_active l.

(** ** Specification of the calls *)

Inductive StakingCall :=
  | CallValidate (prefs : ValidatorPrefs)
  | CallNominate (wanted : list MultiAddress)
  | CallChill.

Definition run_call {S C : Type} `{SortedListProvider S} `{!HasStaking S C} `{!StakeAsset C} `{CurrencyToVote} `{NominationsQuota} `{StakingConfig}
    (origin : RawOrigin) (call : StakingCall) : M S unit :=
  match call with
  | CallValidate prefs => validate origin prefs
  | CallNominate wanted => nominate origin wanted
  | CallChill => chill origin
  end.

(** The error of the first requirement that does not hold. *)
Definition first_failure (l : list (bool * StakingError)) : option StakingError :=
  head (omap (fun p => if fst p : bool then None else Some (snd p)) l).

Definition has_room (contains : bool) (limit : option Z) (count : Z) : bool :=
  contains || from_option (Z.ltb count) true limit.

Definition target_id (t : MultiAddress) : option AccountId :=
  match t with
  | Id n => Some n
  | _ => None
  end.

Section spec.
Context {C : Type} `{CV : CurrencyToVote} `{NQ : NominationsQuota} `{SC : StakingConfig}.

(** A target is an account that was nominated before or does not block nominations. *)
Definition target_error (old : list AccountId) (c : StakingCore C) (t : MultiAddress) : option DispatchError :=
  match target_id t with
  | Some n =>
      if decide (n ∈ old) then None
      else if from_option blocked false (Validators c !! n) then Some (SError BadTarget) else None
  | None => Some CannotLookup
  end.

Definition spec_validate (l : StakingLedger) (prefs : ValidatorPrefs) (c : StakingCore C) : DispatchError + StakingCore C :=
  let stash := lg_stash l in
  match first_failure [(MinValidatorBond c <=? lg_active l, InsufficientBond);
                       (MinCommission c <=? commission prefs, CommissionTooLow);
                       (has_room (is_validator stash c) (MaxValidatorsCount c) (CounterForValidators c), TooManyValidators)] with
  | Some e => inl (SError e)
  | None => inr (staking_deposit_event (ValidatorPrefsSet stash prefs) (Validators_insert stash prefs (Nominators_remove stash c)))
  end.

Definition spec_nominate (l : StakingLedger) (wanted : list MultiAddress) (c : StakingCore C) : DispatchError + StakingCore C :=
  let stash := lg_stash l in
  match first_failure [(MinNominatorBond c <=? lg_active l, InsufficientBond);
                       (has_room (is_nominator stash c) (MaxNominatorsCount c) (CounterForNominators c), TooManyNominators);
                       (negb (bool_decide (wanted = [])), EmptyTargets);
                       (Z.of_nat (length wanted) <=? get_quota (lg_active l), TooManyTargets)] with
  | Some e => inl (SError e)
  | None =>
      match head (omap (target_error (from_option targets [] (Nominators c !! stash)) c) wanted) with
      | Some e => inl e
      | None =>
          inr (Nominators_insert stash
                 {| targets := omap target_id wanted; submitted_in := default 0 (CurrentEra c); suppressed := false |}
                 (Validators_remove stash c))
      end
  end.

Definition spec_chill (l : StakingLedger) (c : StakingCore C) : StakingCore C :=
  let stash := lg_stash l in
  let c' := Nominators_remove stash (Validators_remove stash c) in
  if is_validator stash c || is_nominator stash c then staking_deposit_event (Chilled stash) c' else c'.

Definition spec_call (origin : RawOrigin) (call : StakingCall) (c : StakingCore C) : DispatchError + StakingCore C :=
  match origin with
  | Signed who =>
      match ledger_get (Controller who) c with
      | inl e => inl (SError e)
      | inr l =>
          match call with
          | CallValidate prefs => spec_validate l prefs c
          | CallNominate wanted => spec_nominate l wanted c
          | CallChill => inr (spec_chill l c)
          end
      end
  | _ => inl BadOrigin
  end.
End spec.

(** ** Registers *)

Section facts.
Context {S C : Type} `{LW : SortedListLaws S C} `{AS : !StakeAsset C} `{CV : CurrencyToVote} `{VT : !VotesTyped}.
Context `{NQ : NominationsQuota} `{SC : StakingConfig}.

(** The list holds the nominators and the validators, and no stash is both. *)
Record in_sync (s : S) : Prop := {
  sy_ready : sl_ready s;
  sy_typed : core_typed (core s);
  sy_contains x : sl_contains x s = is_nominator x (core s) || is_validator x (core s);
  sy_disjoint x : is_nominator x (core s) && is_validator x (core s) = false;
  sy_nominators : CounterForNominators (core s) = Z.of_nat (size (Nominators (core s)));
  sy_validators : CounterForValidators (core s) = Z.of_nat (size (Validators (core s)));
}.

Lemma sync_count s : in_sync s -> sl_count s = CounterForNominators (core s) + CounterForValidators (core s).
Proof.
  intros [Hr _ Hc Hd -> ->]. destruct (iter_law s Hr) as (l & _ & Hn & <- & Hl).
  rewrite <- !size_dom, <- Nat2Z.inj_add. f_equal. rewrite <- (size_list_to_set (C := gset AccountId)) by done.
  rewrite <- size_union.
  - f_equal. apply set_eq. intros x. rewrite elem_of_list_to_set, Hl, Hc, elem_of_union, !elem_of_dom, orb_true_iff.
    unfold is_nominator, is_validator. by rewrite !bool_decide_eq_true.
  - intros x. rewrite !elem_of_dom. intros H1' H2'. specialize (Hd x). unfold is_nominator, is_validator in Hd.
    by rewrite !bool_decide_eq_true_2 in Hd.
Qed.

Lemma size_inserted {V} (m : gmap AccountId V) k v : Z.of_nat (size m) < u32_max ->
  inserted_count m k (Z.of_nat (size m)) = Z.of_nat (size (<[k := v]> m)).
Proof.
  intros Hs. unfold inserted_count, u32_saturating_add. rewrite map_size_insert. case_bool_decide as Hk.
  - by destruct Hk as [? ->].
  - apply eq_None_not_Some in Hk. rewrite Hk. lia.
Qed.

Lemma size_removed {V} (m : gmap AccountId V) k : removed_count m k (Z.of_nat (size m)) = Z.of_nat (size (delete k m)).
Proof.
  unfold removed_count, saturating_sub. rewrite map_size_delete. case_bool_decide as Hk.
  - destruct Hk as [v Hk]. rewrite Hk. assert (size m <> 0%nat); [| lia]. intros ->%map_size_empty_inv. by rewrite lookup_empty in Hk.
  - apply eq_None_not_Some in Hk. by rewrite Hk.
Qed.

Lemma is_some_insert {V} (m : gmap AccountId V) k v x :
  bool_decide (is_Some (<[k := v]> m !! x)) = bool_decide (x = k) || bool_decide (is_Some (m !! x)).
Proof.
  destruct (decide (x = k)) as [-> |].
  - rewrite lookup_insert_eq. by rewrite !bool_decide_eq_true_2 by eauto.
  - rewrite lookup_insert_ne by done. by rewrite (bool_decide_eq_false_2 (x = k)).
Qed.

Lemma is_some_delete {V} (m : gmap AccountId V) k x :
  bool_decide (is_Some (delete k m !! x)) = negb (bool_decide (x = k)) && bool_decide (is_Some (m !! x)).
Proof.
  destruct (decide (x = k)) as [-> |].
  - rewrite lookup_delete_eq, (bool_decide_eq_true_2 (k = k)) by done. by rewrite bool_decide_eq_false_2 by (by intros []).
  - rewrite lookup_delete_ne by done. by rewrite (bool_decide_eq_false_2 (x = k)).
Qed.

Lemma removed_same {V} (m : gmap AccountId V) k n : bool_decide (is_Some (m !! k)) = false ->
  delete k m = m /\ removed_count m k n = n.
Proof.
  intros E. unfold removed_count. rewrite E. split; [| done]. apply bool_decide_eq_false, eq_None_not_Some in E.
  by apply delete_id.
Qed.

Lemma Validators_remove_absent x (c : StakingCore C) : is_validator x c = false -> Validators_remove x c = c.
Proof. intros E. unfold Validators_remove. destruct (removed_same _ _ (CounterForValidators c) E) as [-> ->]. by destruct c. Qed.

Lemma Nominators_remove_absent x (c : StakingCore C) : is_nominator x c = false -> Nominators_remove x c = c.
Proof. intros E. unfold Nominators_remove. destruct (removed_same _ _ (CounterForNominators c) E) as [-> ->]. by destruct c. Qed.

Lemma weight_typed x (c : StakingCore C) : core_typed c -> is_balance (weight_of x c).
Proof.
  intros [Hi Hl]. apply to_vote_typed; [| done]. unfold slashable_balance_of, ledger_get.
  destruct (Bonded c !! x) as [k |]; [| done]. destruct (Ledger c !! k) as [l |] eqn:E; [| done]. destruct (_ && _); [| done]. exact (Hl k l E).
Qed.

Lemma defensive_Ok (m : M S unit) s s' : m s = (Ok tt, s') -> defensive m s = (Ok tt, s').
Proof. intros E. unfold defensive, bind, try. by rewrite E. Qed.

(** Case analysis on whether an account is the one that moves. *)
Ltac at_account y st :=
  destruct (decide (y = st)) as [-> |];
  [rewrite ?(bool_decide_eq_true_2 (st = st)) by done | rewrite ?(bool_decide_eq_false_2 (y = st)) by done]; simpl.

Lemma remove_validator_run s st : in_sync s -> exists s',
  do_remove_validator st s = (Ok (is_validator st (core s)), s') /\ core s' = Validators_remove st (core s) /\ in_sync s'.
Proof.
  intros Hs. unfold do_remove_validator, bind at 1, from_core, gets. destruct (is_validator st (core s)) eqn:Ev.
  2: { exists s. by rewrite Validators_remove_absent. }
  pose proof Hs as [Hr Ht Hc Hd Hn Hv]. set (s1 := set_core (Validators_remove st (core s)) s).
  destruct (remove_law s1 st) as (s' & Hrun & Hr' & Hcore & Hc'); [by apply ready_set | |].
  { unfold s1. by rewrite contains_set, Hc, Ev, orb_true_r. }
  assert (Ec : core s' = Validators_remove st (core s)) by (unfold s1 in Hcore; by rewrite Hcore, core_set).
  exists s'. split; [| split; [done |]].
  { rewrite (bind_Ok _ _ s tt s1) by done. by rewrite (bind_Ok _ _ _ _ _ (defensive_Ok _ _ _ Hrun)). }
  split; rewrite ?Ec; [done | done | | | done |].
  - intros y. rewrite Hc'. unfold s1. rewrite contains_set, Hc. specialize (Hd st). rewrite Ev, andb_true_r in Hd.
    unfold is_validator, is_nominator in *. cbn. rewrite is_some_delete. at_account y st; [by rewrite Hd | done].
  - intros y. specialize (Hd y). unfold is_validator, is_nominator in *. cbn. rewrite is_some_delete.
    at_account y st; [apply andb_false_r | done].
  - cbn. rewrite Hv. apply size_removed.
Qed.

Lemma remove_nominator_run s st : in_sync s -> exists s',
  do_remove_nominator st s = (Ok (is_nominator st (core s)), s') /\ core s' = Nominators_remove st (core s) /\ in_sync s'.
Proof.
  intros Hs. unfold do_remove_nominator, bind at 1, from_core, gets. destruct (is_nominator st (core s)) eqn:Ev.
  2: { exists s. by rewrite Nominators_remove_absent. }
  pose proof Hs as [Hr Ht Hc Hd Hn Hv]. set (s1 := set_core (Nominators_remove st (core s)) s).
  destruct (remove_law s1 st) as (s' & Hrun & Hr' & Hcore & Hc'); [by apply ready_set | |].
  { unfold s1. by rewrite contains_set, Hc, Ev. }
  assert (Ec : core s' = Nominators_remove st (core s)) by (unfold s1 in Hcore; by rewrite Hcore, core_set).
  exists s'. split; [| split; [done |]].
  { rewrite (bind_Ok _ _ s tt s1) by done. by rewrite (bind_Ok _ _ _ _ _ (defensive_Ok _ _ _ Hrun)). }
  split; rewrite ?Ec; [done | done | | | | done].
  - intros y. rewrite Hc'. unfold s1. rewrite contains_set, Hc. specialize (Hd st). rewrite Ev in Hd. simpl in Hd.
    unfold is_validator, is_nominator in *. cbn. rewrite is_some_delete. at_account y st; [by rewrite Hd | done].
  - intros y. specialize (Hd y). unfold is_validator, is_nominator in *. cbn. rewrite is_some_delete. by at_account y st.
  - cbn. rewrite Hn. apply size_removed.
Qed.

(** Entering a register, for a stash that is not in the other one. *)
Lemma enter_run s st (contains : bool) : in_sync s -> sl_count s < u32_max -> sl_contains st s = contains ->
  exists s', when (negb contains) (weight <- from_core (weight_of st) ;; defensive (on_insert st weight)) s = (Ok tt, s') /\
    sl_ready s' /\ core s' = core s /\ forall y, sl_contains y s' = bool_decide (y = st) || sl_contains y s.
Proof.
  intros Hs Hc E. destruct contains; simpl.
  - exists s. split; [done |]. split; [apply Hs |]. split; [done |]. intros y. by at_account y st.
  - destruct (insert_law s st (weight_of st (core s))) as (s' & Hrun & Hrest); [apply Hs | done | apply weight_typed, Hs | done |].
    exists s'. split; [| done]. rewrite (bind_Ok _ _ s (weight_of st (core s)) s) by done. by apply defensive_Ok.
Qed.

Lemma add_validator_run s st prefs : in_sync s -> sl_count s < u32_max -> is_nominator st (core s) = false -> exists s',
  do_add_validator st prefs s = (Ok tt, s') /\ core s' = Validators_insert st prefs (core s) /\ in_sync s'.
Proof.
  intros Hs Hfit Hno. pose proof Hs as [Hr Ht Hc Hd Hn Hv].
  destruct (enter_run s st (is_validator st (core s)) Hs Hfit) as (s1 & Hrun & Hr1 & Hcore & Hc1); [by rewrite Hc, Hno |].
  set (s' := set_core (Validators_insert st prefs (core s1)) s1). exists s'. split.
  { unfold do_add_validator. rewrite (bind_Ok _ _ s (is_validator st (core s)) s) by done. by rewrite (bind_Ok _ _ _ _ _ Hrun). }
  assert (Ec : core s' = Validators_insert st prefs (core s)) by (unfold s'; by rewrite core_set, Hcore).
  pose proof (sync_count s Hs). split; [done |]. split; rewrite ?Ec; [by apply ready_set | done | | | done |].
  - intros y. unfold s'. rewrite contains_set, Hc1, Hc. unfold is_validator, is_nominator in *. cbn. rewrite is_some_insert.
    destruct (bool_decide (y = st)), (bool_decide (is_Some (Nominators _ !! y))); done.
  - intros y. specialize (Hd y). unfold is_validator, is_nominator in *. cbn. rewrite is_some_insert. at_account y st; [by rewrite Hno | done].
  - cbn. rewrite Hv. apply size_inserted. rewrite <- Hv. lia.
Qed.

Lemma add_nominator_run s st n : in_sync s -> sl_count s < u32_max -> is_validator st (core s) = false -> exists s',
  do_add_nominator st n s = (Ok tt, s') /\ core s' = Nominators_insert st n (core s) /\ in_sync s'.
Proof.
  intros Hs Hfit Hno. pose proof Hs as [Hr Ht Hc Hd Hn Hv].
  destruct (enter_run s st (is_nominator st (core s)) Hs Hfit) as (s1 & Hrun & Hr1 & Hcore & Hc1); [by rewrite Hc, Hno, orb_false_r |].
  set (s' := set_core (Nominators_insert st n (core s1)) s1). exists s'. split.
  { unfold do_add_nominator. rewrite (bind_Ok _ _ s (is_nominator st (core s)) s) by done. by rewrite (bind_Ok _ _ _ _ _ Hrun). }
  assert (Ec : core s' = Nominators_insert st n (core s)) by (unfold s'; by rewrite core_set, Hcore).
  pose proof (sync_count s Hs). split; [done |]. split; rewrite ?Ec; [by apply ready_set | done | | | | done].
  - intros y. unfold s'. rewrite contains_set, Hc1, Hc. unfold is_validator, is_nominator in *. cbn. rewrite is_some_insert.
    destruct (bool_decide (y = st)); done.
  - intros y. specialize (Hd y). unfold is_validator, is_nominator in *. cbn. rewrite is_some_insert. by at_account y st.
  - cbn. rewrite Hn. apply size_inserted. rewrite <- Hn. lia.
Qed.

(** The registers are not touched. *)
Definition same_registers (c c' : StakingCore C) : Prop :=
  Nominators c' = Nominators c /\ Validators c' = Validators c /\
  CounterForNominators c' = CounterForNominators c /\ CounterForValidators c' = CounterForValidators c.

Lemma sync_core s s' : in_sync s -> sl_ready s' -> core_typed (core s') -> same_registers (core s) (core s') ->
  (forall x, sl_contains x s' = sl_contains x s) -> in_sync s'.
Proof.
  intros [_ _ Hc Hd Hn Hv] Hr Ht (En & Ev & Ecn & Ecv) Hcon. unfold is_nominator, is_validator in *.
  split; unfold is_nominator, is_validator; rewrite ?En, ?Ev, ?Ecn, ?Ecv; try done. intros x. by rewrite Hcon, Hc.
Qed.

Lemma sync_event s e : in_sync s -> in_sync (set_core (staking_deposit_event e (core s)) s).
Proof.
  intros [Hr Ht Hc Hd Hn Hv]. split; rewrite ?core_set; try done; [by apply ready_set |].
  intros x. by rewrite contains_set, Hc.
Qed.

Lemma check_count_sync s : in_sync s -> check_count s = true.
Proof. intros Hs. apply Z.eqb_eq. by apply sync_count. Qed.

(** ** Calls *)

(** [m], run from [s], does what [o] says, and leaves the registers and the list in agreement. *)
Definition performs (m : M S unit) (s : S) (o : DispatchError + StakingCore C) : Prop :=
  match o with
  | inl e => with_storage_layer m s = (Err e, s)
  | inr c' => exists s', with_storage_layer m s = (Ok tt, s') /\ core s' = c' /\ in_sync s'
  end.

Lemma performs_Ok m s s' c' : m s = (Ok tt, s') -> core s' = c' -> in_sync s' -> performs m s (inr c').
Proof. intros Hm Hc Hs. exists s'. unfold with_storage_layer. by rewrite Hm. Qed.

Lemma performs_step {A} (m : M S A) (k : A -> M S unit) s a o : m s = (Ok a, s) -> performs (k a) s o -> performs (bind m k) s o.
Proof. intros Hm. unfold performs, with_storage_layer, bind. by rewrite Hm. Qed.

Lemma performs_require (b : bool) e (k : unit -> M S unit) s o : (b = true -> performs (k tt) s o) ->
  performs (bind (ensure b e) k) s (if b then o else inl e).
Proof. intros Hk. destruct b; [by apply Hk | done]. Qed.

Lemma performs_room contains limit count e (k : unit -> M S unit) s o :
  performs (k tt) s o -> performs (bind (ensure_room contains limit count e) k) s (if has_room contains limit count then o else inl (SError e)).
Proof. intros Hk. unfold has_room, ensure_room. destruct contains, limit; try done. simpl. by apply performs_require. Qed.

(** The first requirement that fails decides. *)
Lemma first_failure_cons (b : bool) e l (o : DispatchError + StakingCore C) :
  match first_failure ((b, e) :: l) with Some e => inl (SError e) | None => o end =
  if b then match first_failure l with Some e => inl (SError e) | None => o end else inl (SError e).
Proof. by destruct b. Qed.

Lemma first_failure_nil (o : DispatchError + StakingCore C) : match first_failure [] with Some e => inl (SError e) | None => o end = o.
Proof. done. Qed.

Lemma remove_count_le s s' st : in_sync s -> in_sync s' ->
  core s' = Validators_remove st (core s) \/ core s' = Nominators_remove st (core s) -> sl_count s' <= sl_count s.
Proof.
  intros Hs Hs' E. rewrite (sync_count s), (sync_count s') by done.
  pose proof (sy_nominators _ Hs). pose proof (sy_validators _ Hs).
  destruct E as [-> | ->]; cbn; unfold removed_count, saturating_sub; case_bool_decide; lia.
Qed.

Lemma validate_performs s l prefs : in_sync s -> sl_count s < u32_max ->
  performs (do do_remove_nominator (lg_stash l) ;; do do_add_validator (lg_stash l) prefs ;;
    on_core (staking_deposit_event (ValidatorPrefsSet (lg_stash l) prefs))) s
    (inr (staking_deposit_event (ValidatorPrefsSet (lg_stash l) prefs)
            (Validators_insert (lg_stash l) prefs (Nominators_remove (lg_stash l) (core s))))).
Proof.
  intros Hs Hfit. destruct (remove_nominator_run s (lg_stash l) Hs) as (s1 & Hrun1 & E1 & Hs1).
  destruct (add_validator_run s1 (lg_stash l) prefs Hs1) as (s2 & Hrun2 & E2 & Hs2).
  - pose proof (remove_count_le s s1 _ Hs Hs1 (or_intror E1)). lia.
  - rewrite E1. unfold is_nominator. cbn. rewrite is_some_delete. by rewrite bool_decide_eq_true_2.
  - eapply performs_Ok; [rewrite (bind_Ok _ _ _ _ _ Hrun1), (bind_Ok _ _ _ _ _ Hrun2); reflexivity | | by apply sync_event].
    by rewrite core_set, E2, E1.
Qed.

Lemma nominate_performs s l n : in_sync s -> sl_count s < u32_max ->
  performs (do do_remove_validator (lg_stash l) ;; do_add_nominator (lg_stash l) n) s
    (inr (Nominators_insert (lg_stash l) n (Validators_remove (lg_stash l) (core s)))).
Proof.
  intros Hs Hfit. destruct (remove_validator_run s (lg_stash l) Hs) as (s1 & Hrun1 & E1 & Hs1).
  destruct (add_nominator_run s1 (lg_stash l) n Hs1) as (s2 & Hrun2 & E2 & Hs2).
  - pose proof (remove_count_le s s1 _ Hs Hs1 (or_introl E1)). lia.
  - rewrite E1. unfold is_validator. cbn. rewrite is_some_delete. by rewrite bool_decide_eq_true_2.
  - eapply performs_Ok; [rewrite (bind_Ok _ _ _ _ _ Hrun1); exact Hrun2 | by rewrite E2, E1 | done].
Qed.

Lemma chill_performs s l : in_sync s -> performs (chill_stash (lg_stash l)) s (inr (spec_chill l (core s))).
Proof.
  intros Hs. destruct (remove_validator_run s (lg_stash l) Hs) as (s1 & Hrun1 & E1 & Hs1).
  destruct (remove_nominator_run s1 (lg_stash l) Hs1) as (s2 & Hrun2 & E2 & Hs2).
  assert (En : is_nominator (lg_stash l) (core s1) = is_nominator (lg_stash l) (core s)) by (by rewrite E1).
  rewrite En in Hrun2. unfold spec_chill. destruct (_ || _) eqn:Eb.
  - eapply performs_Ok; [unfold chill_stash; rewrite (bind_Ok _ _ _ _ _ Hrun1), (bind_Ok _ _ _ _ _ Hrun2), Eb; reflexivity | | by apply sync_event].
    by rewrite core_set, E2, E1.
  - eapply performs_Ok; [unfold chill_stash; rewrite (bind_Ok _ _ _ _ _ Hrun1), (bind_Ok _ _ _ _ _ Hrun2), Eb; reflexivity | by rewrite E2, E1 | done].
Qed.

Lemma accept_targets_run old wanted s : accept_targets old wanted s =
  (match head (omap (target_error old (core s)) wanted) with
   | Some e => Err e
   | None => Ok (omap target_id wanted)
   end, s).
Proof.
  induction wanted as [| t wanted IH]; [done |]. cbn [accept_targets].
  destruct t as [n | | | |]; try done. rewrite (bind_Ok _ _ s n s), (bind_Ok _ _ s (core s) s) by done.
  unfold target_error at 1. cbn. destruct (decide (n ∈ old)) as [Hin | Hin].
  - rewrite bool_decide_eq_true_2 by done. cbn. unfold bind at 1, ret at 1. unfold bind. rewrite IH.
    unfold omap. by destruct (head _).
  - rewrite bool_decide_eq_false_2 by done. destruct (from_option blocked false _); [done |]. cbn. unfold bind at 1, ret at 1.
    unfold bind. rewrite IH. unfold omap. by destruct (head _).
Qed.

Lemma accepted_length old (c : StakingCore C) wanted : head (omap (target_error old c) wanted) = None -> length (omap target_id wanted) = length wanted.
Proof.
  induction wanted as [| t wanted IH]; [done |]. destruct t; try done. unfold target_error. simpl.
  intros E. f_equal. apply IH. revert E. destruct (decide _); [done |]. by destruct (from_option blocked false _).
Qed.

Lemma call_performs origin call s : in_sync s -> sl_count s < u32_max ->
  match spec_call origin call (core s) with
  | inl e => run_call origin call s = (Err e, s)
  | inr c' => exists s', run_call origin call s = (Ok tt, s') /\ core s' = c' /\ in_sync s'
  end.
Proof.
  intros Hs Hfit. destruct origin as [| who | |]; try (by destruct call). simpl.
  assert (Hget : forall k o, (forall l, performs (k l) s (o l)) ->
    performs (controller <- ensure_signed (Signed who) ;; ledger <- get_ledger (Controller controller) ;; k ledger) s
      (match ledger_get (Controller who) (core s) with inl e => inl (SError e) | inr l => o l end)).
  { intros k o Hk. unfold performs, with_storage_layer, get_ledger, bind, from_core, gets. simpl ensure_signed. unfold ret.
    destruct (ledger_get _ _) as [e | l]; [done |]. apply Hk. }
  destruct call as [prefs | wanted |].
  - apply Hget. intros l. unfold spec_validate. apply (performs_step _ _ _ (core s)); [done |].
    rewrite !first_failure_cons. do 2 (apply performs_require; intros _). apply performs_room.
    by apply validate_performs.
  - apply Hget. intros l. unfold spec_nominate. apply (performs_step _ _ _ (core s)); [done |]. rewrite !first_failure_cons.
    apply performs_require; intros _. apply performs_room. apply performs_require; intros Hne.
    apply performs_require; intros Hq. rewrite first_failure_nil.
    pose proof (accept_targets_run (from_option targets [] (Nominators (core s) !! lg_stash l)) wanted s) as Ha.
    destruct (head _) as [e |] eqn:Eh; [unfold performs, with_storage_layer, bind at 1; by rewrite Ha |].
    apply accepted_length in Eh. apply (performs_step _ _ _ _ _ Ha). rewrite Eh. apply (performs_step _ _ _ tt).
    { rewrite (proj2 (Z.leb_le _ _)); [done |]. apply Z.leb_le in Hq. unfold get_quota in Hq. lia. }
    by apply nominate_performs.
  - apply (Hget (fun l => chill_stash (lg_stash l)) (fun l => inr (spec_chill l (core s)))). intros l. by apply chill_performs.
Qed.

(** C22. Declaring to validate, to nominate or to do neither has exactly the effect of its specification, on
    every input and with every error, and leaves the list of voters equal to the union of the two
    registers, disjoint and rightly counted. *)
Theorem calls_keep_voters origin call s : in_sync s -> sl_count s < u32_max ->
  match spec_call origin call (core s) with
  | inl e => run_call origin call s = (Err e, s)
  | inr c' => exists s', run_call origin call s = (Ok tt, s') /\ core s' = c' /\ in_sync s' /\ check_count s' = true
  end.
Proof.
  intros Hs Hfit. pose proof (call_performs origin call s Hs Hfit) as Hp. destruct (spec_call _ _ _); [done |].
  destruct Hp as (s' & Hrun & Hc & Hs'). exists s'. by pose proof (check_count_sync s' Hs').
Qed.
End facts.
