(* ===== verification/StakingBondFacts.v ===== *)
(** * Stake stays backed

    What the staking pallet relies on from the currency ([StakeAssetLaws]); under it every call keeps the
    stake of every stash equal to what is on hold for it, and to the sum of its parts. *)

From stdpp Require Import base tactics numbers list gmap relations.
From S2P Require Import Prelude Dispatch System BalancesCalls Words Helpers128 PerThings PerThingsFacts SortedList StakingLedgers StakingLedgerFacts StakingSpans.
From S2P Require Import StakingVoters StakingBonds StakingFacts.
Local Open Scope Z_scope.

(** ** What the currency promises *)

Class StakeAssetLaws (C : Type) `{StakeWidth} `{AS : !StakeAsset C} := {
  asset_ok : C -> Prop;
  asset_ed_pos : 0 <= asset_existential_deposit;
  issuance_pos c : asset_ok c -> 0 <= asset_total_issuance c;
  free_law c who : asset_ok c -> 0 <= asset_free_to_stake who c <= stake_max;
  (** Setting the stake, within what is free to stake, does that and nothing else; it can only fail to raise it. *)
  update_stake_law c who amount : asset_ok c -> 0 <= amount <= stake_max -> amount <= asset_staked who c + asset_free_to_stake who c ->
    match asset_update_stake who amount c with
    | (Ok _, c') => asset_ok c' /\ asset_staked who c' = amount /\ (forall w, w <> who -> asset_staked w c' = asset_staked w c)
    | (Err _, _) => asset_staked who c < amount
    | (Panic, _) => False
    end;
  kill_stake_law c who : asset_ok c ->
    match asset_kill_stake who c with
    | (Ok _, c') => asset_ok c' /\ asset_staked who c' = 0 /\ (forall w, w <> who -> asset_staked w c' = asset_staked w c)
    | (Err _, _) => asset_staked who c = 0
    | (Panic, _) => False
    end;
  slash_law c who v : asset_ok c -> 0 <= v <= asset_staked who c -> 0 < asset_staked who c ->
    exists c', asset_slash who v c = (Ok (v, 0), c') /\ asset_ok c' /\ asset_staked who c' = asset_staked who c - v /\
      (forall w, w <> who -> asset_staked w c' = asset_staked w c);
}.

(** ** Runs that do not panic *)

Definition safe {S A} (m : M S A) (s : S) (Q : A -> S -> Prop) : Prop :=
  match m s with
  | (Ok a, s') => Q a s'
  | (Err _, _) => True
  | (Panic, _) => False
  end.

Section safe.
Context {S : Type}.

Lemma safe_bind {A B} (m : M S A) (k : A -> M S B) s Q : safe m s (fun a s' => safe (k a) s' Q) -> safe (bind m k) s Q.
Proof. unfold safe, bind. by destruct (m s) as [[] ?]. Qed.

Lemma safe_ret {A} (a : A) (s : S) (Q : A -> S -> Prop) : Q a s -> safe (ret a) s Q.
Proof. done. Qed.

Lemma safe_mono {A} (m : M S A) s (P Q : A -> S -> Prop) : safe m s P -> (forall a s', P a s' -> Q a s') -> safe m s Q.
Proof. unfold safe. destruct (m s) as [[] ?]; auto. Qed.

Lemma safe_ensure (b : bool) e s (Q : unit -> S -> Prop) : (b = true -> Q tt s) -> safe (ensure b e) s Q.
Proof. destruct b; [| done]. intros Hq. by apply Hq. Qed.

Lemma safe_ok_or {A} (o : option A) e s (Q : A -> S -> Prop) : (forall a, o = Some a -> Q a s) -> safe (ok_or o e) s Q.
Proof. destruct o as [a |]; [| done]. intros Hq. by apply Hq. Qed.

Lemma safe_when (b : bool) (m : M S unit) s Q : (b = true -> safe m s Q) -> (b = false -> Q tt s) -> safe (when b m) s Q.
Proof. destruct b; intros Ht Hf; [by apply Ht | by apply Hf]. Qed.

Lemma safe_layer {A} (m : M S A) s Q : safe m s Q -> safe (with_storage_layer m) s Q.
Proof. unfold safe, with_storage_layer. by destruct (m s) as [[] ?]. Qed.

Lemma safe_gets {A} (f : S -> A) s (Q : A -> S -> Prop) : Q (f s) s -> safe (gets f) s Q.
Proof. done. Qed.

Lemma safe_signed o s (Q : AccountId -> S -> Prop) : (forall who, o = Signed who -> Q who s) -> safe (ensure_signed o) s Q.
Proof. destruct o; try done. intros Hq. by apply Hq. Qed.

Lemma safe_Ok {A} (m : M S A) s a s' (Q : A -> S -> Prop) : m s = (Ok a, s') -> Q a s' -> safe m s Q.
Proof. unfold safe. by intros ->. Qed.
End safe.

Create HintDb safe_db.
#[export] Hint Resolve safe_ret safe_gets : safe_db.

(** One step of a run. *)
Ltac safe_step :=
  lazymatch goal with
  | |- safe (with_storage_layer _) _ _ => apply safe_layer
  | |- safe (bind _ _) _ _ => apply safe_bind
  | |- safe (ret _) _ _ => apply safe_ret
  | |- safe (gets _) _ _ => apply safe_gets
  | |- safe (from_core _) _ _ => apply safe_gets
  | |- safe (from_asset _) _ _ => apply safe_gets
  | |- safe (ensure _ _) _ _ => apply safe_ensure; intro
  | |- safe (ok_or _ _) _ _ => apply safe_ok_or; intros ? ?
  | |- safe (ensure_signed _) _ _ => apply safe_signed; intros ? ?
  end; cbv beta.

Section facts.
Context {S C : Type} `{LW : SortedListLaws S C} `{AS : !StakeAsset C} `{CV : CurrencyToVote} `{VT : !VotesTyped}.
Context `{NQ : NominationsQuota} `{SC : StakingConfig} `{SW : StakeWidth} `{AL : !StakeAssetLaws C}.

(** ** Bonds *)

(** The limits are values of their types. *)
Definition limits (c : StakingCore C) : option Z * option Z * option Z := (ChillThreshold c, MaxNominatorsCount c, MaxValidatorsCount c).

Definition limits_typed (c : StakingCore C) : Prop :=
  let '(threshold, nominators, validators) := limits c in
  (forall t, threshold = Some t -> 0 <= t <= 100) /\
  (forall n, nominators = Some n -> 0 <= n <= u32_max) /\ (forall n, validators = Some n -> 0 <= n <= u32_max).

(** Bonds and ledgers are in one to one correspondence, and the stake of a ledger is on hold, except that
    of virtual stakers; [hole] is a stash in the middle of a change. *)
Record bonds_at (hole : option AccountId) (c : StakingCore C) : Prop := {
  bd_asset : asset_ok (asset c);
  bd_ledger stash k : Bonded c !! stash = Some k -> hole <> Some stash ->
    exists l, Ledger c !! k = Some l /\ lg_stash l = stash /\ ledger_good l /\
      asset_staked stash (asset c) = if is_virtual_staker stash c then 0 else lg_total l;
  bd_bonded k l : Ledger c !! k = Some l -> Bonded c !! lg_stash l = Some k;
  bd_unbonded stash : Bonded c !! stash = None -> hole <> Some stash -> asset_staked stash (asset c) = 0;
  bd_virtual stash : is_virtual_staker stash c = true -> hole <> Some stash -> is_Some (Bonded c !! stash);
  bd_keyless stash : stash ∈ VirtualStakers c -> account_nonce stash c = 0;
  bd_payee stash : is_Some (Payee c !! stash) <-> is_Some (Bonded c !! stash);
  bd_limits : limits_typed c;
}.

Definition bonds_ok (s : S) : Prop := in_sync s /\ bonds_at None (core s).

(** The part of the storage that bonds are about. *)
Definition same_bonds (c c' : StakingCore C) : Prop :=
  Bonded c' = Bonded c /\ Ledger c' = Ledger c /\ Payee c' = Payee c /\ (VirtualStakers c' = VirtualStakers c /\ AccountNonce c' = AccountNonce c) /\
  asset c' = asset c /\ limits c' = limits c.

Lemma virtual_same x (c c' : StakingCore C) : VirtualStakers c' = VirtualStakers c /\ AccountNonce c' = AccountNonce c -> is_virtual_staker x c' = is_virtual_staker x c.
Proof. intros [Ev En]. unfold is_virtual_staker, account_nonce. by rewrite Ev, En. Qed.

Lemma bonds_same hole c c' : same_bonds c c' -> bonds_at hole c -> bonds_at hole c'.
Proof.
  intros (Eb & El & Ep & Ev & Ea & Elim) [Ha Hl Hb Hu Hv Hk Hp Ht]. unfold limits_typed in *.
  split; unfold limits_typed; rewrite ?Eb, ?El, ?Ep, ?Ea, ?Elim; try done.
  - intros stash k. rewrite (virtual_same _ _ _ Ev). apply Hl.
  - intros stash. rewrite (virtual_same _ _ _ Ev). apply Hv.
  - intros stash. unfold account_nonce. rewrite (proj1 Ev), (proj2 Ev). apply Hk.
Qed.

(** Virtual stakers are keyless. *)
Lemma virtual_member hole c x : bonds_at hole c -> is_virtual_staker x c = bool_decide (x ∈ VirtualStakers c).
Proof.
  intros Hc. unfold is_virtual_staker. destruct (bool_decide (x ∈ VirtualStakers c)) eqn:E; [| by rewrite andb_false_r].
  apply bool_decide_eq_true in E. by rewrite (bd_keyless _ _ Hc x E).
Qed.

(** Two stashes do not share a controller. *)
Lemma bonds_inj hole c a b k : bonds_at hole c -> hole <> Some a -> hole <> Some b ->
  Bonded c !! a = Some k -> Bonded c !! b = Some k -> a = b.
Proof.
  intros Hc Ha Hb Ea Eb. destruct (bd_ledger _ _ Hc a k Ea Ha) as (l & El & <- & _).
  destruct (bd_ledger _ _ Hc b k Eb Hb) as (l' & El' & <- & _). congruence.
Qed.

(** What the code gets when it asks for a ledger. *)
Lemma ledger_get_found c account l : bonds_at None c -> ledger_get account c = inr l ->
  exists k l0, Bonded c !! lg_stash l = Some k /\ Ledger c !! k = Some l0 /\ l = set_controller (Some k) l0 /\ ledger_good l /\
    asset_staked (lg_stash l) (asset c) = (if is_virtual_staker (lg_stash l) c then 0 else lg_total l) /\
    match account with Stash x => lg_stash l = x | Controller x => k = x end.
Proof.
  intros Hc. unfold ledger_get.
  assert (Hpair : forall stash k, match Ledger c !! k with
      | None => inl NotController
      | Some ledger => let ledger := set_controller (Some k) ledger in
          if bool_decide (Bonded c !! stash = Some k) && (lg_stash ledger =? stash)%N then inr ledger else inl BadState
      end = inr l ->
    exists l0, Bonded c !! lg_stash l = Some k /\ lg_stash l = stash /\ Ledger c !! k = Some l0 /\ l = set_controller (Some k) l0 /\ ledger_good l /\
      asset_staked (lg_stash l) (asset c) = (if is_virtual_staker (lg_stash l) c then 0 else lg_total l)).
  { intros stash k. destruct (Ledger c !! k) as [l0 |] eqn:El; [| done]. cbv zeta. destruct (_ && _) eqn:E; [| done]. intros [= <-].
    apply andb_true_iff in E as [Eb%bool_decide_eq_true Es%N.eqb_eq]. simpl in Es. exists l0. simpl. rewrite Es.
    destruct (bd_ledger _ _ Hc stash k Eb ltac:(done)) as (l1 & El1 & _ & [G1 G2 G3 G4] & Hst). rewrite El1 in El. simplify_eq.
    do 4 (split; [done |]). split; [by split | done]. }
  destruct account as [x | x]; cbv zeta.
  - destruct (Bonded c !! x) as [k |]; [| done]. intros (l0 & Eb & Es & El & Ec & Hg & Hst)%Hpair. exists k, l0. done.
  - destruct (Ledger c !! x) as [l1 |] eqn:E1; [| done].
    intros (l0 & Eb & Es & El & Ec & Hg & Hst)%Hpair. exists x, l0. done.
Qed.

Lemma safe_on_core f (s : S) (Q : unit -> S -> Prop) : Q tt (set_core (f (core s)) s) -> safe (on_core f) s Q.
Proof. done. Qed.

Lemma safe_get_ledger account (s : S) (Q : StakingLedger -> S -> Prop) : (forall l, ledger_get account (core s) = inr l -> Q l s) ->
  safe (get_ledger account) s Q.
Proof. intros Hq. unfold safe, get_ledger, bind, from_core, gets. destruct (ledger_get account (core s)) as [e | l]; [done |]. by apply Hq. Qed.

Lemma sync_set s c' : in_sync s -> core_typed c' -> same_registers (core s) c' -> in_sync (set_core c' s).
Proof.
  intros Hs Ht Hr. apply (sync_core s); rewrite ?core_set; try done; [apply ready_set, Hs |]. intros x. apply contains_set.
Qed.

(** A change that touches neither the registers nor the bonds. *)
Lemma bonds_ok_set s c' : bonds_ok s -> same_registers (core s) c' -> same_bonds (core s) c' -> bonds_ok (set_core c' s).
Proof.
  intros [Hs Hb] Hr Hsame. split; [| rewrite core_set; by eapply bonds_same]. apply sync_set; [done | | done].
  destruct Hsame as (_ & El & _ & _ & Ea & _), (sy_typed _ Hs) as [Hi Hl]. split; [by rewrite Ea | by rewrite El].
Qed.

Lemma bonds_ok_event s e : bonds_ok s -> bonds_ok (set_core (staking_deposit_event e (core s)) s).
Proof. intros Hs. by apply bonds_ok_set. Qed.

Lemma bonds_ok_notice s n : bonds_ok s -> bonds_ok (set_core (notify n (core s)) s).
Proof. intros Hs. by apply bonds_ok_set. Qed.

Lemma bonds_hole c x : bonds_at None c -> bonds_at (Some x) c.
Proof. intros [Ha Hl Hb Hu Hv Hke Hp Ht]. split; try done; intros; [by apply Hl | by apply Hu | by apply Hv]. Qed.

(** Setting the stake of one account. *)
Lemma safe_update_stake who amount (s : S) (Q : unit -> S -> Prop) : asset_ok (asset (core s)) -> 0 <= amount <= stake_max ->
  amount <= asset_staked who (asset (core s)) + asset_free_to_stake who (asset (core s)) ->
  (forall a, asset_ok a -> asset_staked who a = amount ->
     (forall w, w <> who -> asset_staked w a = asset_staked w (asset (core s))) -> Q tt (set_core (set_asset a (core s)) s)) ->
  safe (on_asset (asset_update_stake who amount)) s Q.
Proof.
  intros Ha Hm Hf Hq. pose proof (update_stake_law (asset (core s)) who amount Ha Hm Hf) as Hl. unfold safe, on_asset.
  destruct (asset_update_stake who amount (asset (core s))) as [[[] | e |] a]; [| done | done]. destruct Hl as (Hok & Hst & Ho). by apply Hq.
Qed.

Lemma safe_map_err {A} (m : M S A) e s Q : safe m s Q -> safe (map_err m e) s Q.
Proof. unfold safe, map_err, bind, try. by destruct (m s) as [[] ?]. Qed.

(** Storing a ledger closes the hole. *)
Lemma bonds_close c a k l : bonds_at (Some (lg_stash l)) c -> asset_ok a ->
  (forall w, w <> lg_stash l -> asset_staked w a = asset_staked w (asset c)) ->
  asset_staked (lg_stash l) a = (if is_virtual_staker (lg_stash l) c then 0 else lg_total l) ->
  Bonded c !! lg_stash l = Some k -> ledger_good l -> (forall l0, Ledger c !! k = Some l0 -> lg_stash l0 = lg_stash l) ->
  bonds_at None (Ledger_insert k l (set_asset a c)).
Proof.
  intros Hc Hok Ho Hst Hk Hg Hl0. pose proof Hc as [_ Hl Hb Hu Hv Hke Hp Ht]. split; cbn.
  - done.
  - intros stash k' E _. destruct (decide (stash = lg_stash l)) as [-> | Hne].
    + assert (k' = k) as -> by congruence. rewrite lookup_insert_eq. eexists. split; [done |]. split; [done |]. split; [| exact Hst].
      destruct Hg as [G1 G2 G3 G4]. by split.
    + destruct (Hl stash k' E ltac:(congruence)) as (l1 & E1 & Es & Hg1 & Hst1). exists l1. rewrite Ho by done. split; [| done].
      rewrite lookup_insert_ne; [done |]. intros ->. apply Hl0 in E1. congruence.
  - intros k' l1 [[<- <-] | [_ E1]]%lookup_insert_Some; [done | by apply Hb].
  - intros stash E _. destruct (decide (stash = lg_stash l)) as [-> | Hne]; [congruence |]. rewrite Ho by done. apply Hu; [done | congruence].
  - intros stash E _. destruct (decide (stash = lg_stash l)) as [-> | Hne]; [eauto |]. apply Hv; [done | congruence].
  - done.
  - done.
  - done.
Qed.

Lemma typed_insert (c : StakingCore C) a k l : core_typed c -> asset_ok a -> ledger_good l -> core_typed (Ledger_insert k l (set_asset a c)).
Proof.
  intros [_ Hl] Ha Hg. split; cbn; [by apply issuance_pos |]. intros k' l' [[_ <-] | [_ E]]%lookup_insert_Some; [apply Hg | by eapply Hl].
Qed.

(** The total of a ledger is at stake or free to stake; nothing is at stake for a virtual staker. *)
Definition stakeable (l : StakingLedger) (c : StakingCore C) : Prop :=
  if is_virtual_staker (lg_stash l) c then asset_staked (lg_stash l) (asset c) = 0
  else lg_total l <= asset_staked (lg_stash l) (asset c) + asset_free_to_stake (lg_stash l) (asset c).

Lemma ledger_update_safe s l k : in_sync s -> bonds_at (Some (lg_stash l)) (core s) -> Bonded (core s) !! lg_stash l = Some k ->
  lg_controller l = Some k -> ledger_good l -> (forall l0, Ledger (core s) !! k = Some l0 -> lg_stash l0 = lg_stash l) ->
  stakeable l (core s) -> safe (ledger_update l) s (fun _ s' => bonds_ok s' /\ exists a, core s' = Ledger_insert k l (set_asset a (core s))).
Proof.
  intros Hs Hc Hk Hcon Hg Hl0 Hvirt. pose proof (bd_asset _ _ Hc) as Ha.
  assert (Hfin : forall s1 a, s1 = s \/ s1 = set_core (set_asset a (core s)) s -> asset (core s1) = a -> asset_ok a ->
    (forall w, w <> lg_stash l -> asset_staked w a = asset_staked w (asset (core s))) ->
    asset_staked (lg_stash l) a = (if is_virtual_staker (lg_stash l) (core s) then 0 else lg_total l) ->
    safe (controller <- ok_or (ledger_controller l (core s)) (SError NotController) ;; on_core (Ledger_insert controller l)) s1
      (fun _ s' => bonds_ok s' /\ exists a, core s' = Ledger_insert k l (set_asset a (core s)))).
  { intros s1 a Hs1 Ea Hok Ho Hst. unfold ledger_controller. rewrite Hcon. apply safe_bind, safe_ret, safe_on_core. rewrite core_set.
    assert (E1 : Ledger_insert k l (core s1) = Ledger_insert k l (set_asset a (core s))).
    { destruct Hs1 as [-> | ->]; [| by rewrite core_set]. rewrite <- Ea. by destruct (core s). }
    rewrite E1. split; [| by exists a]. split; [| rewrite core_set; by apply bonds_close].
    assert (Hs1' : in_sync s1).
    { destruct Hs1 as [-> | ->]; [done |]. apply sync_set; [done | | done]. split; [by apply issuance_pos | apply (sy_typed _ Hs)]. }
    apply sync_set; [done | apply typed_insert; [apply Hs | done | done] |]. destruct Hs1 as [-> | ->]; [done | by rewrite core_set]. }
  unfold ledger_update. repeat safe_step. apply safe_when; intros Hv; unfold id in *.
  - apply negb_true_iff in Hv. apply safe_map_err, safe_update_stake; [done | | by unfold stakeable in Hvirt; rewrite Hv in Hvirt |].
    { destruct Hg as [G1 G2 G3 G4]. pose proof (chunks_sum_pos _ G2). lia. }
    intros a Hok Hst Ho. eapply Hfin; [by right | by rewrite core_set | done | done |]. by rewrite Hv.
  - apply negb_false_iff in Hv. eapply Hfin; [by left | done | done | done |]. rewrite Hv. unfold stakeable in Hvirt. by rewrite Hv in Hvirt.
Qed.

(** ** Calls that change a ledger *)

(** The total does not grow by more than is free to stake. *)
Definition grows_within (l l' : StakingLedger) (c : StakingCore C) : Prop :=
  lg_total l' <= lg_total l \/
  is_virtual_staker (lg_stash l) c = false /\ lg_total l' <= lg_total l + asset_free_to_stake (lg_stash l) (asset c) \/
  is_virtual_staker (lg_stash l) c = true.

(** Storing a changed ledger of a stash. *)
Lemma ledger_replace_safe s account l l' : bonds_ok s -> ledger_get account (core s) = inr l ->
  lg_stash l' = lg_stash l -> lg_controller l' = lg_controller l -> ledger_good l' -> grows_within l l' (core s) ->
  safe (ledger_update l') s (fun _ s' => bonds_ok s' /\
    exists k a, Bonded (core s) !! lg_stash l = Some k /\ core s' = Ledger_insert k l' (set_asset a (core s))).
Proof.
  intros [Hs Hb] Hl Es Ec Hg Hgr. destruct (ledger_get_found _ _ _ Hb Hl) as (k & l0 & Ek & El0 & -> & _ & Hst & _). unfold grows_within in Hgr. simpl in Ek, Es, Ec, Hst, Hgr.
  eapply safe_mono; [apply (ledger_update_safe s l' k); [done | by apply bonds_hole | congruence | congruence | done | |] |].
  - intros l1 El1. congruence.
  - unfold stakeable. rewrite Es, Hst. pose proof (free_law (asset (core s)) (lg_stash l0) (bd_asset _ _ Hb)).
    destruct (is_virtual_staker (lg_stash l0) (core s)); [done |]. destruct Hgr as [? | [[_ ?] | ?]]; [lia | lia | done].
  - intros [] s' [Hs' (a & Ha)]. split; [done |]. exists k, a. done.
Qed.

Lemma update_voter_safe s x : bonds_ok s -> safe (update_voter x) s (fun _ s' => bonds_ok s' /\ core s' = core s).
Proof.
  intros [Hs Hb]. unfold update_voter. repeat safe_step. apply safe_when; intros Hc; [| done].
  repeat safe_step. destruct (update_law s x (weight_of x (core s))) as (s' & Hrun & Hr & Ec & Hc'); [apply Hs | done | apply weight_typed, Hs |].
  apply (safe_Ok _ _ tt s' _ (defensive_Ok _ _ _ Hrun)). split; [| done]. split; [| by rewrite Ec].
  apply (sync_core s); [done | done | rewrite Ec; apply Hs | by rewrite Ec | done].
Qed.

Lemma stake_add_inv a b v : stake_add a b = Some v -> v = a + b /\ a + b <= stake_max.
Proof. unfold stake_add. destruct (Z.leb_spec (a + b) stake_max); [| done]. by intros [= <-]. Qed.

(** Storing, and letting the list follow. *)
Lemma replace_and_follow s account l l' e : bonds_ok s -> ledger_get account (core s) = inr l ->
  lg_stash l' = lg_stash l -> lg_controller l' = lg_controller l -> ledger_good l' -> grows_within l l' (core s) ->
  safe (ledger_update l') s (fun _ s1 =>
    safe (do update_voter (lg_stash l) ;; on_core (staking_deposit_event e)) s1 (fun _ s' => bonds_ok s')).
Proof.
  intros Hs Hl Es Ec Hg Hgr. eapply safe_mono; [by eapply ledger_replace_safe |]. intros [] s1 [Hs1 _].
  apply safe_bind. eapply safe_mono; [by apply update_voter_safe |]. intros [] s2 [Hs2 _]. apply safe_on_core. by apply bonds_ok_event.
Qed.

Lemma do_bond_extra_safe s stash additional : bonds_ok s -> 0 <= additional -> safe (do_bond_extra stash additional) s (fun _ s' => bonds_ok s').
Proof.
  intros Hs Ha. pose proof Hs as [_ Hb]. unfold do_bond_extra. apply safe_bind, safe_get_ledger. intros l Hl. repeat safe_step.
  destruct (ledger_get_found _ _ _ Hb Hl) as (k & l0 & _ & _ & _ & Hg & _ & Es). subst stash.
  set (extra := if is_virtual_staker _ _ then additional else _) in *.
  assert (He : 0 <= extra).
  { unfold extra. destruct (is_virtual_staker _ _); [done |]. pose proof (free_law _ (lg_stash l) (bd_asset _ _ Hb)). lia. }
  destruct (stake_add_inv _ _ _ H0) as [-> Ht], (stake_add_inv _ _ _ H1) as [-> Hac].
  apply (replace_and_follow s (Stash (lg_stash l)) l); [done | done | done | done | |].
  - destruct Hg as [G1 G2 G3 G4]. split; simpl; [lia | done | lia | lia].
  - unfold grows_within, extra. simpl. destruct (is_virtual_staker _ _); [by right; right |]. right. left. split; [done | lia].
Qed.

Lemma bond_extra_safe s origin v : bonds_ok s -> 0 <= v -> safe (bond_extra origin v) s (fun _ s' => bonds_ok s').
Proof. intros Hs Hv. unfold bond_extra. repeat safe_step. by apply do_bond_extra_safe. Qed.

Lemma rebond_safe s origin v : bonds_ok s -> 0 <= v -> safe (rebond origin v) s (fun _ s' => bonds_ok s').
Proof.
  intros Hs Hv. pose proof Hs as [_ Hb]. unfold rebond. repeat safe_step. apply safe_bind, safe_get_ledger. intros l Hl. repeat safe_step.
  destruct (ledger_get_found _ _ _ Hb Hl) as (k & l0 & Ek & El0 & E0 & Hg & Hst & _).
  destruct (rebond_run l v Hg Hv) as (unlocking & Hrun & Hg' & _). rewrite Hrun. cbn [arith]. safe_step. repeat safe_step. apply safe_on_core.
  set (s1 := set_core _ s). assert (Hs1 : bonds_ok s1) by (by apply bonds_ok_event).
  assert (Hgr : grows_within l (set_unlocking unlocking (set_active (lg_active l + Z.min v (chunks_sum (lg_unlocking l))) l)) (core s1)) by (by left).
  match type of Hl with ledger_get ?acc _ = _ =>
    assert (Hl1 : ledger_get acc (core s1) = inr l) by (unfold s1; rewrite core_set; exact Hl) end.
  apply safe_bind. eapply safe_mono; [by eapply (ledger_replace_safe s1) |]. intros [] s2 [Hs2 _].
  eapply safe_mono; [by apply update_voter_safe |]. by intros [] s3 [Hs3 _].
Qed.

(** ** New and removed stashes *)

Lemma bonds_open c stash payee : bonds_at (Some stash) c -> Bonded c !! stash = None -> bonds_at (Some stash) (Bonded_insert stash stash (Payee_insert stash payee c)).
Proof.
  intros [Ha Hl Hb Hu Hv Hke Hp Ht] Hn. split; cbn.
  - done.
  - intros x k E Hx. rewrite lookup_insert_ne in E by congruence. by apply Hl.
  - intros k l E. rewrite lookup_insert_ne; [by apply Hb |]. intros Es. apply Hb in E. congruence.
  - intros x E Hx. rewrite lookup_insert_ne in E by congruence. by apply Hu.
  - intros x E Hx. rewrite lookup_insert_ne by congruence. by apply Hv.
  - done.
  - intros x. destruct (decide (x = stash)) as [-> |]; [rewrite !lookup_insert_eq; split; eauto |]. by rewrite !lookup_insert_ne by done.
  - done.
Qed.

Lemma ledger_bond_hole s stash v payee : in_sync s -> bonds_at (Some stash) (core s) -> Bonded (core s) !! stash = None -> Ledger (core s) !! stash = None ->
  0 <= v <= stake_max -> stakeable (StakingLedger_new stash v) (core s) -> safe (ledger_bond (StakingLedger_new stash v) payee) s (fun _ s' => bonds_ok s').
Proof.
  intros Hs Hb Hn Hn' Hv Hf. unfold ledger_bond. repeat safe_step. apply safe_on_core. safe_step. apply safe_on_core.
  set (s1 := set_core (Payee_insert _ _ _) s). set (s2 := set_core (Bonded_insert _ _ _) s1). simpl in s2, s1.
  assert (E2 : core s2 = Bonded_insert stash stash (Payee_insert stash payee (core s))) by (unfold s2, s1; by rewrite !core_set).
  assert (Hs2 : in_sync s2).
  { unfold s2. apply sync_set; [by apply sync_set; [| apply Hs |] | |]; unfold s1; rewrite ?core_set; [apply Hs | done]. }
  eapply safe_mono; [apply (ledger_update_safe s2 (StakingLedger_new stash v) stash); simpl; rewrite ?E2 |].
  - done.
  - by apply bonds_open.
  - cbn. by rewrite lookup_insert_eq.
  - done.
  - split; simpl; [lia | done | lia | lia].
  - cbn. congruence.
  - exact Hf.
  - by intros [] s' [Hs' _].
Qed.

Lemma ledger_bond_safe s stash v payee : bonds_ok s -> is_bonded (Stash stash) (core s) = false -> is_bonded (Controller stash) (core s) = false ->
  0 <= v <= stake_max -> v <= asset_free_to_stake stash (asset (core s)) -> safe (ledger_bond (StakingLedger_new stash v) payee) s (fun _ s' => bonds_ok s').
Proof.
  intros [Hs Hb] Hn Hn' Hv Hf. apply bool_decide_eq_false, eq_None_not_Some in Hn, Hn'. apply ledger_bond_hole; [done | by apply bonds_hole | done.. |].
  unfold stakeable. cbn. rewrite (bd_unbonded _ _ Hb) by done. by destruct (is_virtual_staker _ _).
Qed.

Lemma bond_safe s origin v payee : bonds_ok s -> safe (bond origin v payee) s (fun _ s' => bonds_ok s').
Proof.
  intros Hs. pose proof Hs as [_ Hb]. unfold bond. repeat safe_step. apply safe_on_core. rewrite ?negb_true_iff, ?Z.leb_le in *. unfold id in *.
  pose proof asset_ed_pos. match goal with |- context [asset_free_to_stake ?x ?c] => pose proof (free_law c x (bd_asset _ _ Hb)) end.
  apply ledger_bond_safe; [by apply bonds_ok_event | by rewrite core_set | by rewrite core_set | lia | rewrite core_set; cbn; lia].
Qed.

Lemma bonds_delete c c' stash k l : bonds_at None c -> Bonded c !! stash = Some k -> Ledger c !! k = Some l ->
  Bonded c' = delete stash (Bonded c) -> Ledger c' = delete k (Ledger c) -> Payee c' = delete stash (Payee c) ->
  VirtualStakers c' = VirtualStakers c ∖ {[stash]} -> AccountNonce c' = AccountNonce c -> limits c' = limits c -> asset_ok (asset c') -> asset_staked stash (asset c') = 0 ->
  (forall w, w <> stash -> asset_staked w (asset c') = asset_staked w (asset c)) -> bonds_at None c'.
Proof.
  intros Hc Ek El Eb' El' Ep' Ev' En' Elim Ha Hz Ho. pose proof Hc as [_ Hl Hb Hu Hv Hke Hp Ht]. assert (Hvx : forall x, x <> stash -> is_virtual_staker x c' = is_virtual_staker x c).
  { intros x Hx. unfold is_virtual_staker, account_nonce. rewrite Ev', En'. f_equal. apply bool_decide_ext. rewrite elem_of_difference, elem_of_singleton. tauto. }
  split; rewrite ?Eb', ?El', ?Ep'.
  - done.
  - intros x k' [Hx E]%lookup_delete_Some _. rewrite Hvx, Ho by done. destruct (Hl x k' E ltac:(done)) as (l' & E' & Hrest). exists l'. split; [| done].
    apply lookup_delete_Some. split; [| done]. intros <-. apply Hx. by apply (bonds_inj None c _ _ k).
  - intros k' l' [Hk E]%lookup_delete_Some. apply lookup_delete_Some. split; [| by apply Hb]. intros Es. apply Hb in E. rewrite <- Es in E. congruence.
  - intros x E _. destruct (decide (x = stash)) as [-> |]; [done |]. rewrite Ho by done. apply Hu; [| done]. by rewrite lookup_delete_ne in E.
  - intros x E _. destruct (decide (x = stash)) as [-> |].
    + unfold is_virtual_staker in E. rewrite Ev' in E. apply andb_true_iff in E as [_ E%bool_decide_eq_true]. set_solver.
    + rewrite Hvx in E by done. rewrite lookup_delete_ne by done. by apply Hv.
  - intros x. unfold account_nonce. rewrite Ev', En'. intros [Hx _]%elem_of_difference. by apply Hke.
  - intros x. destruct (decide (x = stash)) as [-> |]; [rewrite !lookup_delete_eq; split; by intros [] |]. by rewrite !lookup_delete_ne by done.
  - unfold limits_typed in *. by rewrite Elim.
Qed.

Lemma ledger_kill_safe s stash : bonds_ok s -> safe (ledger_kill stash) s (fun _ s' => bonds_ok s').
Proof.
  intros [Hs Hb]. unfold ledger_kill. repeat safe_step. unfold id in *. do 3 (apply safe_on_core; safe_step; rewrite ?core_set, ?set_twice). safe_step. rewrite ?core_set. safe_step. apply safe_on_core. rewrite core_set, set_twice.
  destruct (bd_ledger _ _ Hb _ _ H0 ltac:(done)) as (l & El & Es & Hg & Hst). assert (a0 = l) as -> by congruence. rewrite Es.
  match goal with |- safe _ (set_core ?c' s) _ => set (c1 := c') end.
  assert (Hty : forall a', asset_ok a' -> core_typed (set_asset a' c1)).
  { intros a' Ha'. split; cbn; [by apply issuance_pos |]. intros k' l' [_ E]%lookup_delete_Some. by eapply (proj2 (sy_typed _ Hs)). }
  apply safe_when; intros Hv.
  - unfold safe, on_asset. rewrite core_set. change (asset c1) with (asset (core s)).
    pose proof (kill_stake_law (asset (core s)) stash (bd_asset _ _ Hb)) as Hk.
    destruct (asset_kill_stake stash (asset (core s))) as [[[] | e |] a']; [| done | done]. destruct Hk as (Hok & Hz & Ho). rewrite set_twice.
    split; [apply sync_set; [done | by apply Hty | done] |]. rewrite core_set. by eapply (bonds_delete (core s)).
  - apply negb_false_iff in Hv. split; [apply sync_set; [done | apply (Hty (asset (core s))), Hb | done] |]. rewrite core_set.
    eapply (bonds_delete (core s)); try done; [apply Hb |]. change (asset c1) with (asset (core s)). rewrite Hst.
    rewrite (virtual_member None) by done. change (bool_decide (stash ∈ VirtualStakers (core s)) = true) in Hv. by rewrite Hv.
Qed.

Lemma remove_validator_bonds s st : bonds_ok s -> exists s', do_remove_validator st s = (Ok (is_validator st (core s)), s') /\ bonds_ok s'.
Proof.
  intros [Hs Hb]. destruct (remove_validator_run s st Hs) as (s' & Hrun & Ec & Hs'). exists s'. split; [done |]. split; [done |].
  rewrite Ec. by eapply bonds_same; [| exact Hb].
Qed.

Lemma remove_nominator_bonds s st : bonds_ok s -> exists s', do_remove_nominator st s = (Ok (is_nominator st (core s)), s') /\ bonds_ok s'.
Proof.
  intros [Hs Hb]. destruct (remove_nominator_run s st Hs) as (s' & Hrun & Ec & Hs'). exists s'. split; [done |]. split; [done |].
  rewrite Ec. by eapply bonds_same; [| exact Hb].
Qed.

Lemma chill_stash_bonds s st : bonds_ok s -> safe (chill_stash st) s (fun _ s' => bonds_ok s').
Proof.
  intros Hs. unfold chill_stash. destruct (remove_validator_bonds s st Hs) as (s1 & Hrun1 & Hs1).
  destruct (remove_nominator_bonds s1 st Hs1) as (s2 & Hrun2 & Hs2). apply safe_bind, (safe_Ok _ _ _ _ _ Hrun1), safe_bind, (safe_Ok _ _ _ _ _ Hrun2).
  apply safe_when; intros _; [apply safe_on_core; by apply bonds_ok_event | done].
Qed.

Lemma clear_metadata_safe s stash n : bonds_ok s -> safe (clear_stash_metadata stash n) s (fun _ s' => bonds_ok s').
Proof.
  intros Hs. unfold clear_stash_metadata. repeat safe_step. destruct (SlashingSpans (core s) !! stash); [| done].
  repeat safe_step. apply safe_on_core. apply safe_on_core. apply bonds_ok_set; rewrite ?core_set; [by apply bonds_ok_set | done | done].
Qed.

Lemma kill_stash_safe s stash n : bonds_ok s -> safe (kill_stash stash n) s (fun _ s' => bonds_ok s').
Proof.
  intros Hs. unfold kill_stash. apply safe_bind. eapply safe_mono; [by apply clear_metadata_safe |]. intros [] s1 Hs1.
  apply safe_bind. eapply safe_mono; [by apply ledger_kill_safe |]. intros [] s2 Hs2.
  destruct (remove_validator_bonds s2 stash Hs2) as (s3 & Hrun3 & Hs3). destruct (remove_nominator_bonds s3 stash Hs3) as (s4 & Hrun4 & Hs4).
  apply safe_bind, (safe_Ok _ _ _ _ _ Hrun3), safe_bind, (safe_Ok _ _ _ _ _ Hrun4). by apply safe_ret.
Qed.

(** ** Withdrawing and unbonding *)

Lemma consolidated l era : ledger_good l ->
  let l' := match era with Some e => consolidate_unlocked l e | None => l end in
  ledger_good l' /\ lg_stash l' = lg_stash l /\ lg_controller l' = lg_controller l /\ lg_total l' <= lg_total l.
Proof. intros Hg. destruct era as [e |]; [| done]. destruct (consolidate_run l e Hg) as (_ & Et & _ & Es & Ec & Hg').
  do 3 (split; [done |]). rewrite Et. assert (0 <= chunks_sum (filter (matured e) (lg_unlocking l))); [| lia]. apply chunks_sum_pos, Forall_kept, Hg.
Qed.

Lemma do_withdraw_safe s controller n : bonds_ok s -> safe (do_withdraw_unbonded controller n) s (fun _ s' => bonds_ok s').
Proof.
  intros Hs. pose proof Hs as [_ Hb]. unfold do_withdraw_unbonded. apply safe_bind, safe_get_ledger. intros l Hl. repeat safe_step.
  destruct (ledger_get_found _ _ _ Hb Hl) as (k & l0 & _ & _ & _ & Hg & _). destruct (consolidated l (CurrentEra (core s)) Hg) as (Hg' & Es & Ec & Et).
  set (l' := match CurrentEra (core s) with Some _ => _ | None => _ end) in *.
  assert (Hrest : forall s1, bonds_ok s1 -> safe (when (lg_total l' <? lg_total l) (let value := saturating_sub (lg_total l) (lg_total l') in
    do on_core (staking_deposit_event (Withdrawn (lg_stash l) value)) ;; on_core (notify (on_withdraw controller value)))) s1 (fun _ s' => bonds_ok s')).
  { intros s1 Hs1. apply safe_when; intros _; [| done]. cbv zeta. safe_step. apply safe_on_core, safe_on_core. by apply bonds_ok_notice, bonds_ok_event. }
  destruct (_ && _).
  - eapply safe_mono; [by apply kill_stash_safe |]. intros [] s1 Hs1. by apply Hrest.
  - eapply safe_mono; [eapply ledger_replace_safe; [done | done | done | done | done | by left] |]. intros [] s1 [Hs1 _]. by apply Hrest.
Qed.

Lemma push_chunk_good value era l l' : Forall (fun c => 0 <= chunk_value c) l -> 0 <= value -> chunks_sum l + value <= stake_max ->
  push_chunk value era l = Some l' -> Forall (fun c => 0 <= chunk_value c) l' /\ chunks_sum l' = chunks_sum l + value.
Proof.
  intros Hp Hv Hm. assert (Hnew : Forall (fun c => 0 <= chunk_value c) (l ++ [{| chunk_value := value; chunk_era := era |}]) /\
    chunks_sum (l ++ [{| chunk_value := value; chunk_era := era |}]) = chunks_sum l + value).
  { rewrite chunks_sum_app. simpl. split; [apply Forall_app; split; [done | by repeat constructor] | lia]. }
  unfold push_chunk. destruct (last l) as [c |] eqn:E; [| destruct (_ <? _)%nat; by intros [= <-]].
  destruct (_ =? _); [| destruct (_ <? _)%nat; by intros [= <-]]. intros [= <-]. apply last_Some in E as [k ->].
  replace (length (k ++ [c]) - 1)%nat with (length k) by (rewrite length_app; simpl; lia). rewrite take_app_length.
  apply Forall_app in Hp as [Hp1 [Hc _]%Forall_cons]. rewrite !chunks_sum_app in *. simpl in *. pose proof (chunks_sum_pos _ Hp1).
  unfold stake_saturating_add. rewrite Z.min_r by lia. split; [apply Forall_app; split; [done |]; repeat constructor; simpl; lia | lia].
Qed.

Lemma do_unbond_safe s controller v : bonds_ok s -> 0 <= v -> safe (do_unbond controller v) s (fun _ s' => bonds_ok s').
Proof.
  intros Hs Hv. unfold do_unbond. apply safe_bind, safe_get_ledger. intros l0 _. apply safe_bind.
  apply (safe_mono _ _ (fun _ s' => bonds_ok s')).
  { apply safe_when; intros _; [| done]. repeat safe_step. by apply do_withdraw_safe. }
  intros [] s1 Hs1. pose proof Hs1 as [_ Hb]. apply safe_bind, safe_get_ledger. intros l Hl. repeat safe_step. apply safe_when; intros Hnz; [| done].
  destruct (ledger_get_found _ _ _ Hb Hl) as (k & l1 & _ & _ & _ & [G1 G2 G3 G4] & _). pose proof (chunks_sum_pos _ G2). pose proof asset_ed_pos. cbv zeta. apply safe_bind.
  apply (safe_mono _ _ (fun p s' => s' = s1 /\ 0 <= fst p /\ 0 <= snd p /\ fst p + snd p = lg_active l)).
  { case_match; [rewrite stake_add_Some by lia; safe_step |]; apply safe_ret; (split; [done |]); simpl; lia. }
  intros [value active] s2 (-> & Hval & Hact & Hsum). simpl in Hval, Hact, Hsum. repeat safe_step.
  match goal with Hc : push_chunk _ _ _ = Some ?u |- _ => destruct (push_chunk_good _ _ _ _ G2 Hval ltac:(lia) Hc) as [Hp Hs'] end.
  apply (replace_and_follow s1 (Controller controller) l); [done | done | done | done | | by left]. split; simpl; [done | done | lia | done].
Qed.

Lemma unbond_safe s origin v : bonds_ok s -> 0 <= v -> safe (unbond origin v) s (fun _ s' => bonds_ok s').
Proof.
  intros Hs Hv. unfold unbond. repeat safe_step. apply safe_bind, safe_get_ledger. intros l _. safe_step.
  apply (safe_mono _ _ (fun _ s' => bonds_ok s')); [apply safe_when; intros _; [by apply chill_stash_bonds | done] |].
  intros [] s1 Hs1. by apply do_unbond_safe.
Qed.

Lemma withdraw_safe s origin n : bonds_ok s -> safe (withdraw_unbonded origin n) s (fun _ s' => bonds_ok s').
Proof. intros Hs. unfold withdraw_unbonded. repeat safe_step. by apply do_withdraw_safe. Qed.

Lemma force_unstake_safe s origin stash n : bonds_ok s -> safe (force_unstake origin stash n) s (fun _ s' => bonds_ok s').
Proof. intros Hs. unfold force_unstake. safe_step. safe_step. destruct origin; try done. by apply kill_stash_safe. Qed.

Lemma reap_safe s origin stash n : bonds_ok s -> safe (reap_stash origin stash n) s (fun _ s' => bonds_ok s').
Proof. intros Hs. unfold reap_stash. repeat safe_step. by apply kill_stash_safe. Qed.

(** ** Chilling and kicking others *)

Lemma mul_n_total threshold count : 0 <= threshold <= 100 -> 0 <= count <= u32_max -> exists v, mul_n Percent 32 threshold count = Some v.
Proof.
  intros Ht Hc. destruct (overflow_prune_mul_spec Percent (per_things_wf Percent ltac:(simpl; tauto)) 32 count threshold NearestPrefDown) as [E _];
    [done | unfold is_word, u32_max in *; lia | exact Ht | eauto].
Qed.

Lemma chill_other_safe s origin stash : bonds_ok s -> safe (chill_other origin stash) s (fun _ s' => bonds_ok s').
Proof.
  intros Hs. pose proof Hs as [_ Hb]. destruct (bd_limits _ _ Hb) as (Lt & Ln & Lv). unfold chill_other. repeat safe_step. apply safe_bind, safe_get_ledger.
  intros l _. repeat safe_step. apply (safe_mono _ _ (fun _ s' => s' = s)); [| intros [] s' ->; by apply chill_stash_bonds]. unfold id in *.
  apply safe_when; intros _; [| done]. repeat safe_step. apply (safe_mono _ _ (fun _ s' => s' = s)); [| intros m s' ->; by safe_step].
  assert (Hcheck : forall threshold limit count e v, 0 <= threshold <= 100 -> (forall n, limit = Some n -> 0 <= n <= u32_max) ->
    safe (max_count <- ok_or limit e ;; reached <- arith (mul_n Percent 32 threshold max_count) ;; do ensure (reached <? count) e ;; ret v) s
      (fun (_ : Z) s' => s' = s)).
  { intros threshold limit count e v Ht Hlim. safe_step. apply safe_ok_or. intros n En. safe_step.
    destruct (mul_n_total threshold n Ht (Hlim n En)) as [w ->]. cbn [arith]. by repeat safe_step. }
  match goal with E : ChillThreshold _ = Some ?t |- _ => pose proof (Lt t E) end.
  destruct (is_nominator stash (core s)); [by apply Hcheck |]. destruct (is_validator stash (core s)); [by apply Hcheck | by apply safe_ret].
Qed.

Lemma kick_one_ok s stash x : bonds_ok s -> bonds_ok (set_core (kick_one stash x (core s)) s).
Proof.
  intros Hs. unfold kick_one. destruct (Nominators (core s) !! x) as [nom |] eqn:E; [| by apply bonds_ok_set].
  destruct (list_find _ _) as [[pos y] |]; [| by apply bonds_ok_set]. destruct Hs as [Hs Hb].
  match goal with |- bonds_ok (set_core ?c' s) => set (c1 := c') end.
  assert (Hn : forall y, is_nominator y c1 = is_nominator y (core s)).
  { intros z. unfold is_nominator, c1. cbn. rewrite is_some_insert. destruct (decide (z = x)) as [-> |].
    - rewrite E. by rewrite !bool_decide_eq_true_2.
    - by rewrite (bool_decide_eq_false_2 (z = x)). }
  split; [| rewrite core_set; by eapply bonds_same; [| exact Hb]]. destruct Hs as [Hr Ht Hc Hd Hcn Hcv]. split; rewrite ?core_set.
  - by apply ready_set.
  - exact Ht.
  - intros z. rewrite contains_set, Hn. apply Hc.
  - intros z. rewrite Hn. apply Hd.
  - unfold c1. cbn. by rewrite map_size_insert, E.
  - exact Hcv.
Qed.

Lemma kick_safe s origin who : bonds_ok s -> safe (kick origin who) s (fun _ s' => bonds_ok s').
Proof.
  intros Hs. unfold kick. repeat safe_step. apply safe_bind, safe_get_ledger. intros l _. apply safe_bind.
  apply (safe_mono _ _ (fun _ s' => s' = s)).
  - clear Hs. induction who as [| a who IH]; [done |]. cbn [lookup_all]. safe_step. destruct a; try done. apply safe_ret. safe_step.
    eapply safe_mono; [exact IH |]. by intros rest s' ->.
  - intros ids s' ->. revert s Hs. induction ids as [| x ids IH]; intros s Hs; [done |]. cbn [for_each]. safe_step. apply safe_on_core. apply IH. by apply kick_one_ok.
Qed.

(** ** Runs that succeed *)

(** A ledger whose stake is on hold can be stored. *)
Lemma ledger_update_ok s l k : in_sync s -> bonds_at (Some (lg_stash l)) (core s) -> Bonded (core s) !! lg_stash l = Some k ->
  lg_controller l = Some k -> ledger_good l -> (forall l0, Ledger (core s) !! k = Some l0 -> lg_stash l0 = lg_stash l) ->
  (if is_virtual_staker (lg_stash l) (core s) then asset_staked (lg_stash l) (asset (core s)) = 0
   else lg_total l <= asset_staked (lg_stash l) (asset (core s))) ->
  exists s', ledger_update l s = (Ok tt, s') /\ bonds_ok s' /\ exists a, core s' = Ledger_insert k l (set_asset a (core s)).
Proof.
  intros Hs Hc Hk Hcon Hg Hl0 Hst. assert (Hsafe := ledger_update_safe s l k Hs Hc Hk Hcon Hg Hl0).
  assert (Hrun : exists s', ledger_update l s = (Ok tt, s')).
  { unfold ledger_update, bind at 1, from_core, gets, id, bind at 1. unfold is_bonded. rewrite Hk, bool_decide_eq_true_2 by eauto.
    cbn [ensure]. unfold ledger_controller. rewrite Hcon. cbn [ok_or].
    destruct (is_virtual_staker (lg_stash l) (core s)); cbn [negb when]; [eexists; reflexivity |].
    assert (Hm : 0 <= lg_total l <= stake_max). { destruct Hg as [G1 G2 G3 G4]. pose proof (chunks_sum_pos _ G2). lia. }
    pose proof (free_law (asset (core s)) (lg_stash l) (bd_asset _ _ Hc)).
    pose proof (update_stake_law (asset (core s)) (lg_stash l) (lg_total l) (bd_asset _ _ Hc) Hm ltac:(lia)) as Hu.
    unfold map_err, bind, try, on_asset, ret. cbn beta iota.
    destruct (asset_update_stake _ _ _) as [[[] | e |] a]; [eexists; reflexivity | lia | done]. }
  destruct Hrun as [s' Hrun]. exists s'. split; [done |]. unfold safe in Hsafe. rewrite Hrun in Hsafe. apply Hsafe. unfold stakeable.
  destruct (is_virtual_staker _ _); [done |]. pose proof (free_law (asset (core s)) (lg_stash l) (bd_asset _ _ Hc)). lia.
Qed.

(** What is on hold after a ledger was stored. *)
Lemma staked_after s s' k l a : bonds_ok s' -> core s' = Ledger_insert k l (set_asset a (core s)) -> Bonded (core s) !! lg_stash l = Some k ->
  asset_staked (lg_stash l) (asset (core s')) = if is_virtual_staker (lg_stash l) (core s) then 0 else lg_total l.
Proof.
  intros [_ Hb] E Ek. destruct (bd_ledger _ _ Hb (lg_stash l) k) as (l' & El & _ & _ & ->); [by rewrite E | done |].
  rewrite E in El |- *. cbn in El. rewrite lookup_insert_eq in El. by simplify_eq.
Qed.

(** Taking a slash off the hold and storing the slashed ledger. *)
Lemma slash_stored s l l' k n : bonds_ok s -> Bonded (core s) !! lg_stash l = Some k ->
  (forall l0, Ledger (core s) !! k = Some l0 -> lg_stash l0 = lg_stash l) ->
  is_virtual_staker (lg_stash l) (core s) = false -> asset_staked (lg_stash l) (asset (core s)) = lg_total l -> 0 < n <= lg_total l ->
  lg_stash l' = lg_stash l -> lg_controller l' = Some k -> lg_total l' = lg_total l - n -> ledger_good l' ->
  exists a s', asset_slash (lg_stash l) n (asset (core s)) = (Ok (n, 0), a) /\
    ledger_update l' (set_core (set_asset a (core s)) s) = (Ok tt, s') /\ bonds_ok s' /\
    exists a', core s' = Ledger_insert k l' (set_asset a' (core s)).
Proof.
  intros [Hsy Hb] Ek Hkey Hv Hst Hn Es Ec Et Hg.
  destruct (slash_law (asset (core s)) (lg_stash l) n) as (a & Hsl & Hok & Hst' & Ho); [apply Hb | lia | lia |]. exists a.
  set (s2 := set_core (set_asset a (core s)) s).
  assert (Hb2 : bonds_at (Some (lg_stash l)) (core s2)).
  { unfold s2. rewrite core_set. destruct (bonds_hole _ (lg_stash l) Hb) as [_ B2 B3 B4 B5 B6 B7 B8]. split; cbn; try done.
    - intros x k' E Hx. destruct (B2 x k' E Hx) as (lx & ? & ? & ? & Hx'). exists lx. rewrite Ho by congruence. done.
    - intros x E Hx. rewrite Ho by congruence. by apply B4. }
  assert (Hsy2 : in_sync s2). { apply sync_set; [done | | done]. split; [by apply issuance_pos | apply Hsy]. }
  assert (E2 : core s2 = set_asset a (core s)) by apply core_set. rewrite <- Es in *.
  destruct (ledger_update_ok s2 l' k) as (s3 & Hrun3 & Hs3 & a3 & Ha3); try done; rewrite ?E2; try done.
  { change (is_virtual_staker (lg_stash l') (set_asset a (core s))) with (is_virtual_staker (lg_stash l') (core s)). rewrite Hv. cbn. lia. }
  exists s3. split; [done |]. split; [done |]. split; [done |]. exists a3. by rewrite Ha3, E2.
Qed.

(** The ledger that slashing computes. *)
Lemma slashed_ledger l k value era : ledger_good l -> lg_controller l = Some k -> 0 <= value <= stake_max ->
  exists l' n m, ledger_slash BondingDuration l value asset_existential_deposit era = Some (l', n, m) /\ ledger_good l' /\
    lg_stash l' = lg_stash l /\ lg_controller l' = Some k /\ lg_total l' = lg_total l - n /\
    Z.min value (lg_total l) <= n <= lg_total l /\ (n <= value \/ n < value + asset_existential_deposit).
Proof.
  intros Hg Hk Hv. destruct (ledger_slash_run BondingDuration l value asset_existential_deposit era Hg Hv asset_ed_pos) as (active & unlocking & n & m & Hrun & Hg' & _ & _ & Hn & Hu & Hz).
  cbv zeta in *. do 3 eexists. split; [exact Hrun |]. split; [done |]. destruct (decide (value = 0)); simpl; [rewrite Hz by done |]; (do 2 (split; [done |])); lia.
Qed.

(** A bonded stash has a ledger. *)
Lemma ledger_get_bonded c stash k : bonds_at None c -> Bonded c !! stash = Some k ->
  exists l, Ledger c !! k = Some l /\ lg_stash l = stash /\
    ledger_get (Stash stash) c = inr (set_controller (Some k) l) /\ ledger_get (Controller k) c = inr (set_controller (Some k) l).
Proof.
  intros Hb Ek. destruct (bd_ledger _ _ Hb _ _ Ek ltac:(done)) as (l & El & <- & _). exists l. split; [done |]. split; [done |].
  unfold ledger_get. rewrite Ek, El. cbn [lg_stash set_controller]. by rewrite El, bool_decide_eq_true_2, N.eqb_refl.
Qed.

(** The ledger that is found after a ledger was stored. *)
Lemma found_after s s' k l a : bonds_ok s' -> core s' = Ledger_insert k l (set_asset a (core s)) -> Bonded (core s) !! lg_stash l = Some k ->
  exists l', ledger_get (Stash (lg_stash l)) (core s') = inr l' /\ lg_total l' = lg_total l.
Proof.
  intros [_ Hb] E Ek. assert (Ek' : Bonded (core s') !! lg_stash l = Some k) by (by rewrite E).
  destruct (ledger_get_bonded _ _ _ Hb Ek') as (l' & El & _ & Eg & _). eexists. split; [exact Eg |].
  rewrite E in El. cbn in El. rewrite lookup_insert_eq in El. by simplify_eq.
Qed.

(** Slashing takes the slashed amount off the ledger and off the hold. *)
Lemma do_slash_run s stash l value payout imbalance era : bonds_ok s -> ledger_get (Stash stash) (core s) = inr l ->
  0 <= value <= stake_max -> exists n s' l',
  do_slash stash value payout imbalance era s =
    (Ok (payout, if (n =? 0) || is_virtual_staker stash (core s) then imbalance else stake_saturating_add imbalance n), s') /\ bonds_ok s' /\
  Z.min value (lg_total l) <= n <= lg_total l /\ (n <= value \/ n < value + asset_existential_deposit) /\
  ledger_get (Stash stash) (core s') = inr l' /\ lg_total l' = lg_total l - n /\
  is_virtual_staker stash (core s') = is_virtual_staker stash (core s).
Proof.
  intros Hs Hl Hv. pose proof Hs as [Hsy Hb]. destruct (ledger_get_found _ _ _ Hb Hl) as (k & l0 & Ek & El0 & El & Hg & Hst & Es). subst stash.
  assert (Hkey : forall l1, Ledger (core s) !! k = Some l1 -> lg_stash l1 = lg_stash l) by (intros l1; rewrite El0, El; by intros [= <-]).
  destruct (slashed_ledger l k value era Hg) as (l' & n & m & Hrun & Hg' & Es' & Ec' & Et' & Hn & Hu); [by rewrite El | done |]. exists n.
  unfold do_slash. rewrite (bind_Ok _ _ s (inr l) s) by (unfold from_core, gets; by rewrite Hl). cbv beta iota. rewrite Hrun.
  rewrite (bind_Ok _ _ s (l', n, m) s) by done. cbv beta iota.
  assert (Hnote : exists s1, match m with Some su => on_core (notify (on_slash (lg_stash l') (lg_active l') su n)) | None => ret tt end s = (Ok tt, s1) /\
    bonds_ok s1 /\ same_bonds (core s) (core s1)).
  { destruct m as [su |]; [| exists s; done]. eexists. split; [done |]. split; [by apply bonds_ok_notice |]. by rewrite core_set. }
  destruct Hnote as (s1 & Hnote & Hs1 & Sb & Sl & Sp & Sv & Sa & Slim). rewrite (bind_Ok _ _ _ _ _ Hnote). rewrite <- Sl in Hkey. rewrite <- Sb in Ek.
  assert (Ev : is_virtual_staker (lg_stash l) (core s1) = is_virtual_staker (lg_stash l) (core s)) by (by apply virtual_same).
  destruct (Z.eqb_spec n 0) as [-> | Hne].
  { exists s1, l. split; [done |]. split; [done |]. split; [lia |]. split; [lia |]. split; [| split; [lia | done]].
    rewrite <- Hl. unfold ledger_get. by rewrite Sb, Sl. }
  rewrite (bind_Ok _ _ s1 (is_virtual_staker (lg_stash l) (core s)) s1) by (unfold from_core, gets; by rewrite Ev). rewrite <- Sa in Hst.
  destruct (is_virtual_staker (lg_stash l) (core s)) eqn:Evirt; cbn [orb].
  - destruct (ledger_update_ok s1 l' k) as (s2 & Hrun2 & Hs2 & a & Ea); rewrite ?Es', ?Ev; try done; [apply Hs1 | apply bonds_hole, Hs1 |].
    rewrite (bind_Ok _ _ s1 (payout, imbalance) s1) by done. cbv beta iota. rewrite (bind_Ok _ _ _ _ _ (defensive_Ok _ _ _ Hrun2)).
    pose proof Hs2 as Hs2'. apply (found_after s1 _ k l' a) in Hs2' as (l2 & Hg2 & Et2); [| done | by rewrite Es']. rewrite Es' in Hg2.
    eexists _, l2. split; [reflexivity |]. split; [by apply bonds_ok_event |]. split; [done |]. split; [done |]. rewrite core_set.
    split; [exact Hg2 |]. split; [lia |]. rewrite Ea. exact Ev.
  - destruct (slash_stored s1 l l' k n) as (a & s3 & Hsl & Hrun3 & Hs3 & a3 & Ea3); try done.
    { destruct Hg as [G1 G2 G3 G4]. pose proof (chunks_sum_pos _ G2). lia. }
    rewrite (bind_Ok _ _ s1 (payout, stake_saturating_add imbalance n) (set_core (set_asset a (core s1)) s1)).
    2: { unfold bind, on_asset. by rewrite Hsl. }
    cbv beta iota. rewrite (bind_Ok _ _ _ _ _ (defensive_Ok _ _ _ Hrun3)).
    pose proof Hs3 as Hs3'. apply (found_after s1 _ k l' a3) in Hs3' as (l2 & Hg2 & Et2); [| done | by rewrite Es']. rewrite Es' in Hg2.
    eexists _, l2. split; [reflexivity |]. split; [by apply bonds_ok_event |]. split; [done |]. split; [done |]. rewrite core_set.
    split; [exact Hg2 |]. split; [lia |]. rewrite Ea3. exact Ev.
Qed.

(** Removing a stash that has stake on hold, or is virtual. *)
Lemma ledger_kill_ok s stash k l : bonds_ok s -> Bonded (core s) !! stash = Some k -> Ledger (core s) !! k = Some l ->
  (is_virtual_staker stash (core s) = false -> 0 < lg_total l) ->
  exists s', ledger_kill stash s = (Ok tt, s') /\ bonds_ok s' /\ Bonded (core s') = delete stash (Bonded (core s)).
Proof.
  intros Hs Ek El Hpos. pose proof (ledger_kill_safe s stash Hs) as Hsafe. destruct Hs as [Hsy Hb].
  destruct (bd_ledger _ _ Hb _ _ Ek ltac:(done)) as (l' & El' & Es & _ & Hst). rewrite El in El'. simplify_eq.
  assert (Hrun : exists s', ledger_kill (lg_stash l') s = (Ok tt, s') /\ Bonded (core s') = delete (lg_stash l') (Bonded (core s))).
  { unfold ledger_kill, bind, from_core, gets, ok_or, id, on_core, modify, ret. rewrite Ek, El. cbn beta iota. rewrite !core_set, !set_twice.
    change (bool_decide (lg_stash l' ∈ VirtualStakers ?c)) with (bool_decide (lg_stash l' ∈ VirtualStakers (core s))).
    rewrite (virtual_member None) in Hpos, Hst by done. destruct (bool_decide (lg_stash l' ∈ VirtualStakers (core s))); cbn [negb when].
    - eexists. split; [reflexivity |]. by rewrite core_set.
    - pose proof (kill_stake_law (asset (core s)) (lg_stash l') (bd_asset _ _ Hb)) as Hk. unfold on_asset. rewrite core_set. cbn [asset set_virtual set_bonds].
      destruct (asset_kill_stake (lg_stash l') (asset (core s))) as [[[] | e |] a]; [| lia | done]. eexists. split; [reflexivity |]. by rewrite core_set. }
  destruct Hrun as (s' & Hrun & E). exists s'. split; [done |]. split; [| done]. unfold safe in Hsafe. by rewrite Hrun in Hsafe.
Qed.
End facts.
