(* ===== verification/StakingAdminFacts.v ===== *)
(** * Payees, controllers and repairs keep the stake backed

    A sound ledger is never restored, and retiring controllers keeps every ledger, given each of them
    once; given twice, a controller can cost another stash its ledger. *)

From stdpp Require Import base tactics numbers list gmap relations.
From S2P Require Import Prelude Dispatch System BalancesCalls SortedList StakingLedgers StakingLedgerFacts StakingSpans.
From S2P Require Import StakingVoters StakingBonds StakingFacts StakingBondFacts.
Local Open Scope Z_scope.

Section facts.
Context {S C : Type} `{LW : SortedListLaws S C} `{AS : !StakeAsset C} `{CV : CurrencyToVote} `{VT : !VotesTyped}.
Context `{NQ : NominationsQuota} `{SC : StakingConfig} `{SW : StakeWidth} `{AL : !StakeAssetLaws C} `{AO : AdminOrigin} `{OC : !OldCurrency C}.

(** ** Payees *)

Lemma bonds_payee c x p : bonds_at None c -> is_Some (Bonded c !! x) -> bonds_at None (Payee_insert x p c).
Proof.
  intros [B1 B2 B3 B4 B5 B6 B7 B8] Hx. split; cbn; try done. intros y. destruct (decide (y = x)) as [-> | Hne].
  - rewrite lookup_insert_eq. split; [by intros _ | by eauto].
  - rewrite lookup_insert_ne by done. apply B7.
Qed.

Lemma ledger_set_payee_safe s l p : bonds_ok s -> safe (ledger_set_payee l p) s (fun _ s' => bonds_ok s').
Proof.
  intros [Hs Hb]. unfold ledger_set_payee. apply safe_bind, safe_gets, safe_bind, safe_ensure. intros Hx. apply safe_on_core. split.
  - apply sync_set; [done | apply Hs | done].
  - rewrite core_set. apply bonds_payee; [done |]. by apply bool_decide_eq_true in Hx.
Qed.

(** ** Controllers *)

(** The ledger [l] of [x] moves from [k] to [k']. *)
Definition relocate (x k k' : AccountId) (l : StakingLedger) (c : StakingCore C) : StakingCore C :=
  set_bonds (<[x := k']> (Bonded c)) (<[k' := set_controller None l]> (delete k (Ledger c))) (Payee c) c.

Lemma bonds_relocate c x k k' l : bonds_at None c -> Bonded c !! x = Some k -> Ledger c !! k = Some l -> Ledger c !! k' = None ->
  bonds_at None (relocate x k k' l c).
Proof.
  intros Hc Ek El En. pose proof Hc as [B1 B2 B3 B4 B5 B6 B7 B8].
  assert (Hx : forall y, is_Some (<[x := k']> (Bonded c) !! y) <-> is_Some (Bonded c !! y)).
  { intros y. destruct (decide (y = x)) as [-> | Hne]; [| by rewrite lookup_insert_ne]. rewrite lookup_insert_eq, Ek. by split; eauto. }
  split; cbn; try done.
  - intros y k1 E _. destruct (decide (y = x)) as [-> | Hne].
    + rewrite lookup_insert_eq in E. injection E as <-. rewrite lookup_insert_eq. eexists. split; [done |].
      destruct (B2 x k Ek ltac:(done)) as (l1 & El1 & Es & [G1 G2 G3 G4] & Hst). rewrite El in El1. injection El1 as <-. do 2 (split; [done |]). done.
    + rewrite lookup_insert_ne in E by done. destruct (B2 y k1 E ltac:(done)) as (l1 & El1 & Hrest). exists l1. split; [| done].
      rewrite lookup_insert_ne by congruence. rewrite lookup_delete_ne; [done |]. intros ->. destruct Hrest as [<- _].
      destruct (B2 x k1 Ek ltac:(done)) as (l2 & El2 & <- & _). congruence.
  - intros k1 l1 [[<- <-] | [Hne [Hne' E1]%lookup_delete_Some]]%lookup_insert_Some.
    + cbn. destruct (B2 x k Ek ltac:(done)) as (l2 & El2 & <- & _). rewrite El in El2. injection El2 as <-. by rewrite lookup_insert_eq.
    + rewrite lookup_insert_ne; [by apply B3 |]. intros ->. apply B3 in E1. congruence.
  - intros y E _. apply B4; [| done]. destruct (Bonded c !! y) eqn:Ey; [| done]. destruct (proj2 (Hx y)) as [? Hy]; [by rewrite Ey | congruence].
  - intros y Hv _. apply Hx. by apply B5.
  - intros y. rewrite Hx. apply B7.
Qed.

Lemma relocate_ok s x k k' l : bonds_ok s -> Bonded (core s) !! x = Some k -> Ledger (core s) !! k = Some l -> Ledger (core s) !! k' = None ->
  bonds_ok (set_core (relocate x k k' l (core s)) s).
Proof.
  intros [Hs Hb] Ek El En. split; [| rewrite core_set; by apply bonds_relocate]. apply sync_set; [done | | done].
  destruct (sy_typed _ Hs) as [Hi Hl]. split; [done |]. cbn. intros k1 l1 [[_ <-] | [_ [_ E]%lookup_delete_Some]]%lookup_insert_Some; [| by eapply Hl].
  exact (Hl _ _ El).
Qed.

(** The ledger [l] is the one found for its stash. *)
Definition owned (c : StakingCore C) (l : StakingLedger) : Prop := exists k l0,
  Bonded c !! lg_stash l0 = Some k /\ Ledger c !! k = Some l0 /\ l = set_controller (Some k) l0.

Lemma owned_get c account l : bonds_at None c -> ledger_get account c = inr l -> owned c l.
Proof. intros Hb Hl. destruct (ledger_get_found _ _ _ Hb Hl) as (k & l0 & Ek & El & -> & _). by exists k, l0. Qed.

Lemma to_stash_moves s l k : lg_controller l = Some k -> lg_stash l <> k ->
  (forall l1, Ledger (core s) !! lg_stash l = Some l1 -> lg_stash l1 = lg_stash l) ->
  set_controller_to_stash l s = (Ok tt, set_core (relocate (lg_stash l) k (lg_stash l) l (core s)) s).
Proof.
  intros Hk Hne Hl1. unfold set_controller_to_stash. rewrite Hk. rewrite (bind_Ok _ _ s k s) by done.
  rewrite (bind_Ok _ _ s tt s) by (by rewrite (proj2 (N.eqb_neq _ _) Hne)). rewrite (bind_Ok _ _ s (Ledger (core s) !! lg_stash l) s) by done.
  rewrite (bind_Ok _ _ s tt s).
  - unfold bind, on_core, modify. cbv beta iota. rewrite !set_twice, !core_set. done.
  - destruct (Ledger (core s) !! lg_stash l) as [l1 |]; [| done]. by rewrite (Hl1 l1 eq_refl), N.eqb_refl.
Qed.

(** It moves, or nothing happens. *)
Lemma to_stash_run s l : bonds_ok s -> owned (core s) l ->
  (exists e, set_controller_to_stash l s = (Err e, s)) \/
  exists k, lg_controller l = Some k /\ Ledger (core s) !! lg_stash l = None /\ let s' := set_core (relocate (lg_stash l) k (lg_stash l) l (core s)) s in
    set_controller_to_stash l s = (Ok tt, s') /\ bonds_ok s'.
Proof.
  intros Hs (k & l0 & Ek & El & ->). pose proof Hs as [_ Hb]. destruct (N.eqb_spec (lg_stash l0) k) as [<- | Hne].
  { left. unfold set_controller_to_stash. cbn. rewrite N.eqb_refl. by eexists. }
  destruct (Ledger (core s) !! lg_stash l0) as [l1 |] eqn:E1.
  - left. assert (Hn : (lg_stash l1 =? lg_stash l0)%N = false).
    { apply N.eqb_neq. intros E. apply (bd_bonded _ _ Hb) in E1. rewrite E in E1. congruence. }
    unfold set_controller_to_stash. cbn [lg_controller set_controller lg_stash]. rewrite (bind_Ok _ _ s k s) by done.
    rewrite (bind_Ok _ _ s tt s) by (by rewrite (proj2 (N.eqb_neq _ _) Hne)). rewrite (bind_Ok _ _ s (Some l1) s) by (unfold from_core, gets; by rewrite E1).
    rewrite Hn. by eexists.
  - right. exists k. split; [done |]. split; [done |]. cbv zeta. split; [| by apply (relocate_ok s _ k _ l0)].
    apply to_stash_moves; cbn; [done | done | congruence].
Qed.

(** Every ledger is kept, with its controller or with its stash for controller. *)
Definition ledgers_kept (c c' : StakingCore C) : Prop := forall x l, ledger_get (Stash x) c = inr l ->
  exists k, ledger_get (Stash x) c' = inr (set_controller (Some k) l) /\ (lg_controller l = Some k \/ k = x).

Lemma get_owned (c : StakingCore C) l0 k : Bonded c !! lg_stash l0 = Some k -> Ledger c !! k = Some l0 -> ledger_get (Stash (lg_stash l0)) c = inr (set_controller (Some k) l0).
Proof. intros Ek El. unfold ledger_get. rewrite Ek, El. cbn [lg_stash set_controller]. by rewrite bool_decide_eq_true_2, N.eqb_refl. Qed.

Lemma ledgers_kept_trans c1 c2 c3 : ledgers_kept c1 c2 -> ledgers_kept c2 c3 -> ledgers_kept c1 c3.
Proof.
  intros H1 H2 x l Hl. destruct (H1 x l Hl) as (k & Hk & Hor). destruct (H2 _ _ Hk) as (k' & Hk' & Hor'). exists k'.
  split; [exact Hk' |]. cbn in Hor'. destruct Hor' as [[= ->] | ->]; [done | by right].
Qed.

Lemma ledgers_kept_refl c : bonds_at None c -> ledgers_kept c c.
Proof. intros Hb x l Hl. destruct (ledger_get_found _ _ _ Hb Hl) as (k & l0 & _ & _ & -> & _). exists k. split; [exact Hl | by left]. Qed.

(** Moving one ledger leaves the others where they are. *)
Lemma relocate_other c x k k' l y ky ly : bonds_at None c -> Bonded c !! x = Some k -> Ledger c !! k' = None -> y <> x ->
  Bonded c !! y = Some ky -> Ledger c !! ky = Some ly ->
  Bonded (relocate x k k' l c) !! y = Some ky /\ Ledger (relocate x k k' l c) !! ky = Some ly.
Proof.
  intros Hb Ek En Hne Ey Ely. cbn. rewrite !lookup_insert_ne by congruence. split; [done |]. rewrite lookup_delete_ne; [done |].
  intros ->. by destruct Hne; eapply (bonds_inj None c).
Qed.

Lemma relocate_keeps c x k l0 : bonds_at None c -> Bonded c !! x = Some k -> Ledger c !! k = Some l0 -> Ledger c !! x = None ->
  ledgers_kept c (relocate x k x l0 c).
Proof.
  intros Hb Ek El En y l Hl. destruct (ledger_get_found _ _ _ Hb Hl) as (ky & ly & Ey & Ely & -> & _ & _ & Es). cbn in Es, Ey. subst y.
  destruct (decide (lg_stash ly = x)) as [Hx | Hne].
  - exists x. split; [| by right]. rewrite Hx in Ey. assert (ky = k) as -> by congruence. assert (ly = l0) as -> by congruence.
    apply (get_owned (relocate x k x l0 c) (set_controller None l0) x); cbn.
    + by rewrite Hx, lookup_insert_eq.
    + by rewrite lookup_insert_eq.
  - exists ky. split; [| by left]. destruct (relocate_other c x k x l0 (lg_stash ly) ky ly) as [E1 E2]; [done.. |]. exact (get_owned _ ly ky E1 E2).
Qed.

(** The stashes become their own controllers, one after the other, unless the key of the stash is that of
    a controller by then; with the number of those that do not. *)
Fixpoint retire_all (stashes : list AccountId) (bonded : gmap AccountId AccountId) (failures : Z) : gmap AccountId AccountId * Z :=
  match stashes with
  | [] => (bonded, failures)
  | x :: stashes =>
      if bool_decide (x ∈ (map_img bonded : gset AccountId)) then retire_all stashes bonded (failures + 1)
      else retire_all stashes (<[x := x]> bonded) failures
  end.

Lemma retired_stays xs b n x : b !! x = Some x -> fst (retire_all xs b n) !! x = Some x.
Proof.
  revert b n. induction xs as [| y xs IH]; intros b n Hx; [done |]. simpl. case_bool_decide; [by apply IH |]. apply IH.
  destruct (decide (y = x)) as [-> | Hne]; [by rewrite lookup_insert_eq | by rewrite lookup_insert_ne].
Qed.

Lemma retire_others xs b n x : (x ∉ xs) -> fst (retire_all xs b n) !! x = b !! x.
Proof.
  revert b n. induction xs as [| y xs IH]; intros b n Hx; [done |]. apply not_elem_of_cons in Hx as [Hne Hx]. simpl.
  case_bool_decide; rewrite IH by done; [done | by rewrite lookup_insert_ne].
Qed.

(** A key that is free at the start stays so until its turn. *)
Lemma retire_free xs b n x : x ∈ xs -> (x ∉ (map_img b : gset AccountId)) -> fst (retire_all xs b n) !! x = Some x.
Proof.
  revert b n. induction xs as [| y xs IH]; intros b n Hx Hfree; [by apply not_elem_of_nil in Hx |]. simpl.
  destruct (decide (y = x)) as [-> | Hne].
  - rewrite bool_decide_eq_false_2 by done. apply retired_stays, lookup_insert_eq.
  - apply elem_of_cons in Hx as [-> | Hx]; [done |]. case_bool_decide; apply IH; try done.
    intros (z & [[_ ->] | [_ Hz]]%lookup_insert_Some)%elem_of_map_img; [done |]. apply Hfree, elem_of_map_img. eauto.
Qed.

(** A key has a ledger exactly when it is that of a controller. *)
Lemma key_taken c k : bonds_at None c -> k ∈ (map_img (Bonded c) : gset AccountId) <-> is_Some (Ledger c !! k).
Proof.
  intros Hb. rewrite elem_of_map_img. split.
  - intros (x & Hx). destruct (bd_ledger _ _ Hb x k Hx ltac:(done)) as (l & -> & _). by eexists.
  - intros (l & Hl). exists (lg_stash l). by apply (bd_bonded _ _ Hb).
Qed.

(** One turn of the loop. *)
Lemma to_stash_turn s l : bonds_ok s -> owned (core s) l -> lg_controller l <> Some (lg_stash l) ->
  if bool_decide (lg_stash l ∈ (map_img (Bonded (core s)) : gset AccountId)) then exists e, set_controller_to_stash l s = (Err e, s)
  else exists k, lg_controller l = Some k /\ Ledger (core s) !! lg_stash l = None /\
    let s' := set_core (relocate (lg_stash l) k (lg_stash l) l (core s)) s in set_controller_to_stash l s = (Ok tt, s') /\ bonds_ok s'.
Proof.
  intros Hs Hl Hne. pose proof (key_taken (core s) (lg_stash l) (proj2 Hs)) as Ht.
  destruct (to_stash_run s l Hs Hl) as [(e & Hrun) | (k & Hk & En & Hrest)].
  - case_bool_decide as Hin; [by exists e |]. exfalso. pose proof Hl as (k & l0 & Ek & El & E).
    assert (Hk : lg_controller l = Some k) by (by rewrite E).
    rewrite (to_stash_moves s l k) in Hrun; [done | done | congruence |]. intros l1 El1. exfalso. apply Hin, Ht. by eexists.
  - rewrite bool_decide_eq_false_2; [by exists k |]. intros [l1 El1]%Ht. congruence.
Qed.

(** The loop, when no controller comes twice. *)
Lemma deprecate_run ls : forall s n, bonds_ok s -> Forall (owned (core s)) ls -> Forall (fun l => lg_controller l <> Some (lg_stash l)) ls ->
  NoDup (lg_controller <$> ls) ->
  exists s', deprecate_loop n ls s = (Ok (snd (retire_all (lg_stash <$> ls) (Bonded (core s)) n)), s') /\ bonds_ok s' /\
    ledgers_kept (core s) (core s') /\ Bonded (core s') = fst (retire_all (lg_stash <$> ls) (Bonded (core s)) n) /\
    staking_events (core s') = staking_events (core s).
Proof.
  induction ls as [| l ls IH]; intros s n Hs Hown Hdiff Hnd.
  { exists s. split; [done |]. split; [done |]. split; [apply ledgers_kept_refl, Hs | done]. }
  apply Forall_cons in Hown as [Hl Hown], Hdiff as [Hd Hdiff]. apply NoDup_cons in Hnd as [Hni Hnd]. cbn [deprecate_loop fmap list_fmap retire_all].
  pose proof (to_stash_turn s l Hs Hl Hd) as Hturn. case_bool_decide.
  { destruct Hturn as (e & Hrun). destruct (IH s (n + 1) Hs Hown Hdiff Hnd) as (s' & Hr & ?). exists s'. split; [| done]. unfold bind, try. by rewrite Hrun. }
  destruct Hturn as (k & Hk & En & Hrun & Hs'). set (s1 := set_core _ _) in *.
  destruct Hl as (k0 & l0 & Ek & El & ->). cbn in Hk, Hni. injection Hk as ->. pose proof (proj2 Hs) as Hb.
  assert (E1 : core s1 = relocate (lg_stash l0) k (lg_stash l0) l0 (core s)) by apply core_set.
  destruct (IH s1 n Hs') as (s' & Hr & Hs2 & Hkept & Hbd & Hev); [| done | done |].
  - apply Forall_forall. intros l' Hin. destruct (proj1 (Forall_forall _ _) Hown l' Hin) as (k1 & l1 & Ek1 & El1 & ->).
    assert (Hk1 : k1 <> k) by (intros ->; apply Hni; by apply (list_elem_of_fmap_2 lg_controller) in Hin).
    exists k1, l1. rewrite E1. destruct (relocate_other (core s) (lg_stash l0) k (lg_stash l0) l0 (lg_stash l1) k1 l1) as [F1 F2];
      [done.. | congruence | done | done |]. done.
  - rewrite E1 in Hr, Hbd, Hev, Hkept. exists s'. split; [unfold bind, try; by rewrite Hrun |]. split; [done |]. split; [| done].
    eapply ledgers_kept_trans; [| exact Hkept]. exact (relocate_keeps (core s) (lg_stash l0) k l0 Hb Ek El En).
Qed.

Lemma to_deprecate_owned c k l : bonds_at None c -> to_deprecate c k = Some l ->
  owned c l /\ lg_controller l = Some k /\ lg_stash l <> k /\ Payee c !! lg_stash l <> Some ToController.
Proof.
  intros Hb. unfold to_deprecate. destruct (ledger_get (Controller k) c) as [| l1] eqn:E; [done |]. destruct (_ && _) eqn:Ec; [| done]. intros [= <-].
  apply andb_true_iff in Ec as [E1%negb_true_iff%N.eqb_neq E2%negb_true_iff%bool_decide_eq_false].
  split; [by eapply owned_get |]. split; [| done]. by destruct (ledger_get_found _ _ _ Hb E) as (k' & l0 & _ & _ & -> & _ & _ & <-).
Qed.

Lemma to_deprecate_found c l x k : bonds_at None c -> ledger_get (Stash x) c = inr l -> lg_controller l = Some k -> x <> k ->
  Payee c !! x <> Some ToController -> to_deprecate c k = Some l /\ lg_stash l = x.
Proof.
  intros Hb Hl Hk Hne Hp. destruct (ledger_get_found _ _ _ Hb Hl) as (k' & l0 & Ek & El & -> & _ & _ & Es). cbn in *. injection Hk as ->. subst x.
  split; [| done]. unfold to_deprecate, ledger_get. rewrite El. cbn [lg_stash set_controller]. rewrite El, (bool_decide_eq_true_2 _ Ek), N.eqb_refl.
  cbn. by rewrite (proj2 (N.eqb_neq _ _) Hne), bool_decide_eq_false_2.
Qed.

Lemma batch_owned c ks : bonds_at None c -> NoDup ks -> let ls := omap (to_deprecate c) ks in
  Forall (owned c) ls /\ Forall (fun l => lg_controller l <> Some (lg_stash l)) ls /\ NoDup (lg_controller <$> ls).
Proof.
  intros Hb Hnd. cbv zeta. split; [| split].
  - apply Forall_forall. intros l (k & _ & E)%list_elem_of_omap. by eapply to_deprecate_owned.
  - apply Forall_forall. intros l (k & _ & E)%list_elem_of_omap. apply to_deprecate_owned in E as (_ & -> & Hne & _); [congruence | done].
  - induction Hnd as [| k ks Hni _ IH]; [constructor |]. cbn. destruct (to_deprecate c k) as [l |] eqn:E; [| done]. apply NoDup_cons. split; [| done].
    intros (l' & Hl' & (k' & Hk' & E')%list_elem_of_omap)%list_elem_of_fmap.
    apply to_deprecate_owned in E as (_ & E & _), E' as (_ & E' & _); [| done..]. congruence.
Qed.

(** The stashes of the controllers that a batch is to retire. *)
Definition to_retire (controllers : list AccountId) (c : StakingCore C) : list AccountId := lg_stash <$> omap (to_deprecate c) controllers.

Lemma to_retire_iff c ks x l k : bonds_at None c -> ledger_get (Stash x) c = inr l -> lg_controller l = Some k ->
  x ∈ to_retire ks c <-> k ∈ ks /\ k <> x /\ Payee c !! x <> Some ToController.
Proof.
  intros Hb Hl Hk. unfold to_retire. rewrite list_elem_of_fmap. setoid_rewrite list_elem_of_omap. split.
  - intros (l' & -> & k' & Hin & E). apply to_deprecate_owned in E as ((k1 & l1 & E1 & F1 & ->) & [= ->] & Hne & Hp); [| done]. cbn in *.
    destruct (ledger_get_found _ _ _ Hb Hl) as (k2 & l2 & E2 & F2 & -> & _ & _ & Es). cbn in *. injection Hk as ->. rewrite Es in E2.
    rewrite E1 in E2. injection E2 as ->. done.
  - intros (Hin & Hne & Hp). destruct (to_deprecate_found c l x k) as [E Es]; [done.. | congruence | done |]. exists l. split; [done |]. by exists k.
Qed.

Lemma batch_run s origin ks : bonds_ok s -> NoDup ks -> admin_origin origin = true ->
  let r := retire_all (to_retire ks (core s)) (Bonded (core s)) 0 in
  exists s', deprecate_controller_batch origin ks s = (Ok tt, s') /\ bonds_ok s' /\ ledgers_kept (core s) (core s') /\
    Bonded (core s') = fst r /\ staking_events (core s') = staking_events (core s) ++ [ControllerBatchDeprecated (snd r)].
Proof.
  intros Hs Hnd Ho. destruct (batch_owned (core s) ks) as (Hown & Hdiff & Hnd'); [apply Hs | done |].
  destruct (deprecate_run _ s 0 Hs Hown Hdiff Hnd') as (s1 & Hrun & Hs1 & Hkept & Hbd & Hev). cbv zeta. eexists. split; [| split].
  - unfold deprecate_controller_batch, with_storage_layer, ensure_admin. rewrite Ho. rewrite (bind_Ok _ _ s tt s), (bind_Ok _ _ s (core s) s) by done.
    rewrite (bind_Ok _ _ _ _ _ Hrun). reflexivity.
  - by apply bonds_ok_event.
  - rewrite core_set. split; [done |]. split; [done |]. cbn. by rewrite Hev.
Qed.

(** ** Repairs *)

Definition no_old_lock (x : AccountId) (c : StakingCore C) : Prop := old_balance_locked x (asset c) = 0.

(** Bonds in order are not reported. *)
Lemma inspect_sound c x : bonds_at None c -> is_virtual_staker x c = false -> no_old_lock x c ->
  inspect_bond_state x c = match Bonded c !! x with Some _ => inr LedgerOk | None => inl NotStash end.
Proof.
  intros Hb Hv Ho. unfold inspect_bond_state. rewrite Ho. destruct (Bonded c !! x) as [k |] eqn:Ek.
  - destruct (bd_ledger _ _ Hb x k Ek ltac:(done)) as (l & -> & -> & _ & Hst). rewrite Hv in Hst. rewrite N.eqb_refl. cbn [negb]. rewrite Hst.
    assert (E : (if lg_total l =? 0 then 0 else lg_total l) = lg_total l) by (destruct (Z.eqb_spec (lg_total l) 0); lia). by rewrite E, Z.eqb_refl.
  - by rewrite (bd_unbonded _ _ Hb x Ek ltac:(done)).
Qed.

Lemma restore_run s origin x mc mt mu : bonds_ok s -> no_old_lock x (core s) ->
  restore_ledger origin x mc mt mu s =
    (Err (if negb (admin_origin origin) then BadOrigin
          else if is_virtual_staker x (core s) then SError VirtualStakerNotAllowed else SError CannotRestoreLedger), s).
Proof.
  intros [_ Hb] Ho. unfold restore_ledger, ensure_admin, with_storage_layer. destruct (admin_origin origin); [| done].
  rewrite (bind_Ok _ _ s tt s), (bind_Ok _ _ s (core s) s) by done. destruct (is_virtual_staker x (core s)) eqn:Hv; [done |].
  rewrite (bind_Ok _ _ s tt s) by done. cbv zeta. rewrite (inspect_sound _ _ Hb Hv Ho). by destruct (Bonded (core s) !! x).
Qed.

(** A sound ledger is never restored: for a stash that is not locked by an earlier release, the call
    only tells why it refuses. *)
Theorem healthy_never_restored s origin x maybe_controller maybe_total maybe_unlocking : bonds_ok s -> no_old_lock x (core s) ->
  restore_ledger origin x maybe_controller maybe_total maybe_unlocking s =
    (Err (if negb (admin_origin origin) then BadOrigin
          else if is_virtual_staker x (core s) then SError VirtualStakerNotAllowed else SError CannotRestoreLedger), s).
Proof. apply restore_run. Qed.

(** C28. Retiring a batch of controllers, each given once, is a call that does not fail, keeps every ledger
    and reports what it did.  To retire are the controllers of the batch that are not their own stash
    and whose stash is not paid to the controller; in order, each of these stashes becomes its own
    controller, unless its key is that of another controller by then, and the event has the number of
    those that do not.  Every stash keeps its ledger, under the controller it has afterwards: the same as
    before if it is not to retire, the stash itself if it is to and its key was free at the start, and
    one of the two in any case. *)
Theorem batch_keeps_ledgers s origin controllers : bonds_ok s -> NoDup controllers -> admin_origin origin = true ->
  let r := retire_all (to_retire controllers (core s)) (Bonded (core s)) 0 in
  exists s', deprecate_controller_batch origin controllers s = (Ok tt, s') /\ bonds_ok s' /\ Bonded (core s') = fst r /\
  staking_events (core s') = staking_events (core s) ++ [ControllerBatchDeprecated (snd r)] /\
  forall x l k, ledger_get (Stash x) (core s) = inr l -> lg_controller l = Some k ->
    let retires := k ∈ controllers /\ k <> x /\ Payee (core s) !! x <> Some ToController in
    exists k', ledger_get (Stash x) (core s') = inr (set_controller (Some k') l) /\ fst r !! x = Some k' /\ (k' = k \/ k' = x) /\
      (~ retires -> k' = k) /\ (retires -> Ledger (core s) !! x = None -> k' = x).
Proof.
  intros Hs Hnd Ho r. destruct (batch_run s origin controllers Hs Hnd Ho) as (s' & Hrun & Hs' & Hkept & Hbd & Hev). fold r in Hbd, Hev.
  exists s'. do 4 (split; [done |]). intros x l k Hl Hk retires. pose proof (proj2 Hs) as Hb.
  destruct (Hkept x l Hl) as (k' & Hl' & Hor). exists k'. split; [done |].
  assert (Hx' : fst r !! x = Some k').
  { rewrite <- Hbd. destruct (ledger_get_found _ _ _ (proj2 Hs') Hl') as (k1 & l1 & E1 & _ & E & _ & _ & Es). rewrite Es in E1.
    apply (f_equal lg_controller) in E. cbn in E. congruence. }
  split; [done |]. split; [destruct Hor; [left; congruence | by right] |]. pose proof (to_retire_iff _ controllers x l k Hb Hl Hk) as Hr. split.
  - intros Hn. unfold r in Hx'. rewrite retire_others in Hx' by (by rewrite Hr).
    destruct (ledger_get_found _ _ _ Hb Hl) as (k1 & l1 & E1 & _ & -> & _ & _ & Es). cbn in *. rewrite Es in E1. congruence.
  - intros Hret En. unfold r in Hx'. rewrite retire_free in Hx'; [congruence | by apply Hr |].
    intros [l1 E1]%(key_taken _ _ Hb). congruence.
Qed.

(** ** Virtual stakers *)

Lemma virtual_union (c : StakingCore C) x y : account_nonce x c = 0 ->
  is_virtual_staker y (set_virtual (VirtualStakers c ∪ {[x]}) c) = is_virtual_staker y c || bool_decide (y = x).
Proof.
  intros Hn. unfold is_virtual_staker, account_nonce in *. cbn. destruct (decide (y = x)) as [-> | Hne].
  - rewrite Hn, (bool_decide_eq_true_2 (x = x)), orb_true_r by done. cbn. apply bool_decide_eq_true_2. set_solver.
  - rewrite (bool_decide_eq_false_2 (y = x)), orb_false_r by done. f_equal. apply bool_decide_ext. set_solver.
Qed.

(** Taking the stake of a bonded stash over. *)
Lemma bonds_virtual c x a : bonds_at None c -> is_Some (Bonded c !! x) -> account_nonce x c = 0 -> asset_ok a -> asset_staked x a = 0 ->
  (forall w, w <> x -> asset_staked w a = asset_staked w (asset c)) ->
  bonds_at None (set_virtual (VirtualStakers c ∪ {[x]}) (set_asset a c)).
Proof.
  intros [B1 B2 B3 B4 B5 B6 B7 B8] Hx Hn Ha H0 Hother.
  assert (Hv : forall y, is_virtual_staker y (set_virtual (VirtualStakers c ∪ {[x]}) (set_asset a c)) = is_virtual_staker y c || bool_decide (y = x)).
  { intros y. exact (virtual_union (set_asset a c) x y Hn). }
  split; cbn; try done.
  - intros y k E _. destruct (B2 y k E ltac:(done)) as (l & El & Es & Hg & Hst). exists l. rewrite Hv. do 3 (split; [done |]).
    destruct (decide (y = x)) as [-> | Hne]; [by rewrite bool_decide_eq_true_2, orb_true_r by done |].
    by rewrite Hother, bool_decide_eq_false_2, orb_false_r by done.
  - intros y E _. destruct (decide (y = x)) as [-> | Hne]; [done |]. rewrite Hother by done. by apply B4.
  - intros y. rewrite Hv. intros [Hy | ->%bool_decide_eq_true]%orb_true_iff _; [by apply B5 | done].
  - intros y [Hy | ->%elem_of_singleton]%elem_of_union; [by apply B6 | exact Hn].
Qed.

Lemma migrate_virtual_safe s x : bonds_ok s -> is_Some (Bonded (core s) !! x) -> account_nonce x (core s) = 0 ->
  safe (migrate_to_virtual_staker x) s (fun _ s' => bonds_ok s').
Proof.
  intros [Hs Hb] Hx Hn. unfold migrate_to_virtual_staker. apply safe_bind. unfold safe at 1, on_asset.
  pose proof (kill_stake_law (asset (core s)) x (bd_asset _ _ Hb)) as Hk. destruct (asset_kill_stake x (asset (core s))) as [[[] | e |] a]; [| done | done].
  destruct Hk as (Ha & H0 & Hother). apply safe_on_core. rewrite core_set, set_twice. split.
  - apply sync_set; [done | | done]. split; [by apply issuance_pos | apply Hs].
  - rewrite core_set. exact (bonds_virtual (core s) x a Hb Hx Hn Ha H0 Hother).
Qed.

(** A keyless account, not in use as a controller, is bonded with nothing on hold. *)
Lemma virtual_bond_safe s x value payee : bonds_ok s -> account_nonce x (core s) = 0 -> Ledger (core s) !! x = None -> 0 <= value <= stake_max ->
  safe (virtual_bond x value payee) s (fun _ s' => bonds_ok s').
Proof.
  intros [Hs Hb] Hn En Hval. unfold virtual_bond. apply safe_bind, safe_gets, safe_bind, safe_ensure. intros Hnb%negb_true_iff%bool_decide_eq_false.
  apply eq_None_not_Some in Hnb. apply safe_bind, safe_ensure. intros _. apply safe_bind, safe_on_core, safe_bind, safe_on_core.
  set (s1 := set_core _ _). assert (E1 : core s1 = staking_deposit_event (BondedEvent x value) (set_virtual (VirtualStakers (core s) ∪ {[x]}) (core s))).
  { unfold s1. by rewrite !core_set. }
  pose proof (fun y => virtual_union (core s) x y Hn) as Hv.
  apply ledger_bond_hole; rewrite ?E1; [| | done | done | done |].
  - unfold s1. rewrite core_set, set_twice. apply sync_set; [done | apply Hs | done].
  - destruct Hb as [B1 B2 B3 B4 B5 B6 B7 B8]. split; cbn; try done.
    + intros y k E Hy. destruct (B2 y k E ltac:(done)) as (l & El & Es & Hg & Hst). exists l. do 3 (split; [done |]). rewrite Hst.
      change (is_virtual_staker y (staking_deposit_event _ ?c)) with (is_virtual_staker y c). rewrite Hv, bool_decide_eq_false_2, orb_false_r by congruence. done.
    + intros y E _. by apply B4.
    + intros y E Hy. apply B5; [| done]. change (is_virtual_staker y (set_virtual (VirtualStakers (core s) ∪ {[x]}) (core s)) = true) in E.
      rewrite Hv, bool_decide_eq_false_2, orb_false_r in E by congruence. done.
    + intros y [Hy | ->%elem_of_singleton]%elem_of_union; [by apply B6 | exact Hn].
  - unfold stakeable. change (is_virtual_staker _ _) with (is_virtual_staker x (set_virtual (VirtualStakers (core s) ∪ {[x]}) (core s))).
    rewrite Hv, (bool_decide_eq_true_2 (x = x)), orb_true_r by done. by apply (bd_unbonded _ _ Hb).
Qed.

(** ** Calls *)

Inductive AdminCall :=
  | CallSetPayee (payee : RewardDestination)
  | CallSetController
  | CallUpdatePayee (controller : AccountId)
  | CallDeprecateControllerBatch (controllers : list AccountId)
  | CallRestoreLedger (stash : AccountId) (maybe_controller : option AccountId) (maybe_total : option Z)
      (maybe_unlocking : option (list UnlockChunk)).

Definition run_admin_call (origin : RawOrigin) (call : AdminCall) : M S unit :=
  match call with
  | CallSetPayee payee => set_payee origin payee
  | CallSetController => set_controller_call origin
  | CallUpdatePayee controller => update_payee origin controller
  | CallDeprecateControllerBatch controllers => deprecate_controller_batch origin controllers
  | CallRestoreLedger stash maybe_controller maybe_total maybe_unlocking =>
      restore_ledger origin stash maybe_controller maybe_total maybe_unlocking
  end.

(** Controllers are retired once, and nothing is left locked by an earlier release. *)
Definition admin_call_ready (call : AdminCall) (c : StakingCore C) : Prop :=
  match call with
  | CallDeprecateControllerBatch controllers => NoDup controllers
  | CallRestoreLedger stash _ _ _ => no_old_lock stash c
  | _ => True
  end.

Lemma admin_call_safe origin call s : bonds_ok s -> admin_call_ready call (core s) -> safe (run_admin_call origin call) s (fun _ s' => bonds_ok s').
Proof.
  intros Hs Hr. destruct call as [p | | k | ks | x mc mt mu]; cbn [run_admin_call admin_call_ready] in *.
  - unfold set_payee. repeat safe_step. apply safe_bind, safe_get_ledger. intros l _. repeat safe_step. by apply ledger_set_payee_safe.
  - unfold set_controller_call. repeat safe_step. apply safe_bind, safe_get_ledger. intros l Hl. repeat safe_step.
    destruct (to_stash_run s l Hs) as [(e & Hrun) | (k & _ & _ & Hrun & Hs')]; [eapply owned_get; [apply Hs | exact Hl] | |]; unfold safe; by rewrite Hrun.
  - unfold update_payee. repeat safe_step. apply safe_bind, safe_get_ledger. intros l _. repeat safe_step. by apply ledger_set_payee_safe.
  - destruct (admin_origin origin) eqn:Ho.
    + destruct (batch_run s origin ks Hs Hr Ho) as (s' & Hrun & Hs' & _). by apply (safe_Ok _ _ _ _ _ Hrun).
    + unfold deprecate_controller_batch, ensure_admin. rewrite Ho. done.
  - unfold safe. by rewrite restore_run.
Qed.

Lemma interface_set_payee_safe s x y : bonds_ok s -> safe (interface_set_payee x y) s (fun _ s' => bonds_ok s').
Proof.
  intros Hs. unfold interface_set_payee. repeat safe_step. apply safe_bind, safe_get_ledger. intros l _. by apply ledger_set_payee_safe.
Qed.

(** What is kept through runs that are rolled back when they fail. *)
Lemma layer_keeps {A} (m : M S A) s : bonds_ok s -> safe m s (fun _ s' => bonds_ok s') -> bonds_ok (snd (with_storage_layer m s)).
Proof. unfold safe, with_storage_layer. by destruct (m s) as [[] ?]. Qed.

Lemma admin_call_keeps origin call s : bonds_ok s -> admin_call_ready call (core s) -> bonds_ok (snd (run_admin_call origin call s)).
Proof.
  intros Hs Hr. pose proof (admin_call_safe origin call s Hs Hr) as Hsafe.
  assert (Hlayer : exists m, run_admin_call origin call = with_storage_layer m) by (destruct call; by eexists).
  destruct Hlayer as [m E]. rewrite E in *. unfold safe, with_storage_layer in *. by destruct (m s) as [[] ?].
Qed.

(** The controller of a ledger sets where the rewards go, and nothing else. *)
Theorem payee_round_trip s k l payee : bonds_ok s -> ledger_get (Controller k) (core s) = inr l -> payee <> ToController ->
  exists s', set_payee (Signed k) payee s = (Ok tt, s') /\ bonds_ok s' /\
  reward_destination (Controller k) (core s') = Some payee /\ reward_destination (Stash (lg_stash l)) (core s') = Some payee /\
  (forall x, x <> lg_stash l -> reward_destination (Stash x) (core s') = reward_destination (Stash x) (core s)) /\
  Ledger (core s') = Ledger (core s) /\ Bonded (core s') = Bonded (core s) /\ asset (core s') = asset (core s).
Proof.
  intros Hs Hl Hp. pose proof (admin_call_keeps (Signed k) (CallSetPayee payee) s Hs I) as Hs'. cbn [run_admin_call] in Hs'.
  destruct (ledger_get_found _ _ _ (proj2 Hs) Hl) as (k' & l0 & Ek & El & -> & _ & _ & ->). cbn in Ek.
  assert (Hrun : set_payee (Signed k) payee s = (Ok tt, set_core (Payee_insert (lg_stash l0) payee (core s)) s)).
  { unfold set_payee, with_storage_layer. rewrite (bind_Ok _ _ s k s) by done.
    rewrite (bind_Ok _ _ s (set_controller (Some k) l0) s) by (unfold get_ledger, bind, from_core, gets; by rewrite Hl).
    rewrite (bind_Ok _ _ s tt s) by (by rewrite bool_decide_eq_false_2). unfold ledger_set_payee. rewrite (bind_Ok _ _ s true s); [done |].
    unfold from_core, gets. cbn. by rewrite Ek, bool_decide_eq_true_2. }
  rewrite Hrun in Hs' |- *. eexists. split; [done |]. split; [exact Hs' |]. rewrite core_set.
  unfold reward_destination, paired_account. change (Ledger (Payee_insert _ _ ?c)) with (Ledger c). rewrite El. cbn. rewrite lookup_insert_eq.
  do 2 (split; [done |]). split; [| done]. intros x Hx. by rewrite lookup_insert_ne.
Qed.

(** ** How ledgers are lost and restored *)

(** What the batch takes up. *)
(** C38. Given a controller twice, its second turn removes whatever ledger has its key by then.  When it is
    itself a stash, retired in between, that is its own ledger: it stays bonded with stake on hold, and
    without a ledger, and no failure is reported. *)
Theorem repeated_controller_loses_ledger s origin x k z lx lk : bonds_ok s -> admin_origin origin = true ->
  x <> k -> k <> z ->
  ledger_get (Stash x) (core s) = inr lx -> lg_controller lx = Some k -> Ledger (core s) !! x = None ->
  ledger_get (Stash k) (core s) = inr lk -> lg_controller lk = Some z ->
  Payee (core s) !! x <> Some ToController -> Payee (core s) !! k <> Some ToController ->
  exists s', deprecate_controller_batch origin [k; z; k] s = (Ok tt, s') /\
  staking_events (core s') = staking_events (core s) ++ [ControllerBatchDeprecated 0] /\
  Bonded (core s') !! k = Some k /\ ledger_get (Stash k) (core s') = inl NotController /\ asset (core s') = asset (core s).
Proof.
  intros Hs Ho Hxk Hkz Hlx Ekx En Hlk Ekk Hpx Hpk. pose proof Hs as [_ Hb].
  destruct (to_deprecate_found _ lx x k Hb Hlx Ekx Hxk Hpx) as [Ex Esx]. destruct (to_deprecate_found _ lk k z Hb Hlk Ekk Hkz Hpk) as [Ez Esk].
  set (s1 := set_core (relocate x k x lx (core s)) s). set (s2 := set_core (relocate k z k lk (core s1)) s1).
  set (s3 := set_core (relocate x k x lx (core s2)) s2).
  assert (H1 : set_controller_to_stash lx s = (Ok tt, s1)) by (pose proof (to_stash_moves s lx k Ekx) as Hm; rewrite Esx in Hm; apply Hm; congruence).
  assert (H2 : set_controller_to_stash lk s1 = (Ok tt, s2)).
  { pose proof (to_stash_moves s1 lk z Ekk) as Hm. rewrite Esk in Hm. apply Hm; [done |]. unfold s1. rewrite core_set. cbn.
    by rewrite lookup_insert_ne, lookup_delete_eq by done. }
  assert (H3 : set_controller_to_stash lx s2 = (Ok tt, s3)).
  { pose proof (to_stash_moves s2 lx k Ekx) as Hm. rewrite Esx in Hm. apply Hm; [done |]. unfold s2, s1. rewrite !core_set. cbn.
    intros l1. rewrite lookup_insert_ne by done. intros [_ E]%lookup_delete_Some. rewrite lookup_insert_eq in E. by injection E as <-. }
  assert (Ec : core s3 = relocate x k x lx (relocate k z k lk (relocate x k x lx (core s)))) by (unfold s3, s2, s1; by rewrite !core_set).
  eexists. split.
  { unfold deprecate_controller_batch, with_storage_layer, ensure_admin. rewrite Ho. rewrite (bind_Ok _ _ s tt s), (bind_Ok _ _ s (core s) s) by done.
    cbn [omap list_omap]. rewrite Ex, Ez. cbn [deprecate_loop]. unfold bind at 1. unfold try at 1, bind at 1. rewrite H1. unfold try at 1, bind at 1. rewrite H2.
    unfold try at 1, bind at 1. rewrite H3. reflexivity. }
  rewrite core_set, Ec. cbn. split; [done |]. assert (Eb : <[x := x]> (<[k := k]> (<[x := x]> (Bonded (core s)))) !! k = Some k).
  { by rewrite lookup_insert_ne, lookup_insert_eq by done. }
  split; [done |]. split; [| done]. unfold ledger_get. cbn. by rewrite Eb, lookup_insert_ne, lookup_delete_eq by done.
Qed.

(** Storing a ledger whose total is what is on hold. *)
Lemma update_same_stake s l k : asset_ok (asset (core s)) -> is_virtual_staker (lg_stash l) (core s) = false ->
  is_bonded (Stash (lg_stash l)) (core s) = true -> lg_controller l = Some k -> 0 < lg_total l <= stake_max ->
  lg_total l = asset_staked (lg_stash l) (asset (core s)) ->
  exists a, ledger_update l s = (Ok tt, set_core (Ledger_insert k l (set_asset a (core s))) s) /\ asset_staked (lg_stash l) a = lg_total l.
Proof.
  intros Ha Hv Hb Hk Hpos Hst. pose proof (free_law (asset (core s)) (lg_stash l) Ha) as Hfree.
  pose proof (update_stake_law (asset (core s)) (lg_stash l) (lg_total l) Ha ltac:(lia) ltac:(lia)) as Hlaw.
  destruct (asset_update_stake (lg_stash l) (lg_total l) (asset (core s))) as [[[] | e |] a] eqn:Ea; [| lia | done].
  exists a. split; [| exact (proj1 (proj2 Hlaw))]. unfold ledger_update. rewrite (bind_Ok _ _ s (core s) s) by done.
  rewrite (bind_Ok _ _ s tt s) by (by rewrite Hb). rewrite Hv. cbn [negb when].
  rewrite (bind_Ok _ _ s tt (set_core (set_asset a (core s)) s)) by (unfold map_err, try, bind, on_asset; by rewrite Ea).
  unfold ledger_controller. rewrite Hk. unfold bind, on_core, modify. cbn. by rewrite core_set, set_twice.
Qed.

(** A lost ledger is restored with all the stake active, and the chunks given besides: the parts exceed
    the total, and the check at the end of the call does not see it. *)
Theorem restored_chunks_unbacked s origin x k chunks : admin_origin origin = true -> asset_ok (asset (core s)) -> is_virtual_staker x (core s) = false ->
  0 < asset_staked x (asset (core s)) <= stake_max -> Bonded (core s) !! x = Some k -> Ledger (core s) !! k = None -> 0 < chunks_sum chunks ->
  exists s' l, restore_ledger origin x None None (Some chunks) s = (Ok tt, s') /\ ledger_get (Stash x) (core s') = inr l /\
  lg_unlocking l = chunks /\ lg_total l = asset_staked x (asset (core s')) /\ lg_total l < lg_active l + chunks_sum (lg_unlocking l).
Proof.
  intros Ho Ha Hv Hst Ek En Hch. set (h := asset_staked x (asset (core s))) in *.
  assert (E0 : inspect_bond_state x (core s) = inr CorruptedKilled) by (unfold inspect_bond_state; by rewrite Ek, En).
  set (l := set_unlocking chunks (set_controller (Some x) (StakingLedger_new x h))). set (s1 := set_core (Bonded_insert x x (core s)) s).
  assert (Hup : exists a, ledger_update l s1 = (Ok tt, set_core (Ledger_insert x l (set_asset a (core s1))) s1) /\ asset_staked x a = h).
  { unfold s1. apply (update_same_stake _ l x); unfold is_bonded; rewrite ?core_set; cbn; [done | done | by rewrite bool_decide_eq_true_2 by (rewrite lookup_insert_eq; eauto) | done | done | done]. }
  destruct Hup as (a & Hup & Hsta). set (s2 := set_core _ s1) in Hup. assert (Ec : core s2 = Ledger_insert x l (set_asset a (Bonded_insert x x (core s)))) by (unfold s2, s1; by rewrite !core_set).
  exists s2, l. split; [| split; [| split; [done | split]]].
  - unfold restore_ledger, with_storage_layer, ensure_admin. rewrite Ho. rewrite (bind_Ok _ _ s tt s), (bind_Ok _ _ s (core s) s) by done. rewrite Hv.
    rewrite (bind_Ok _ _ s tt s) by done. cbv zeta. rewrite E0. rewrite (proj2 (Z.eqb_neq _ _)) by (fold h; lia). fold h.
    rewrite (bind_Ok _ _ s tt s1) by done. rewrite (bind_Ok _ _ _ _ _ Hup). rewrite (bind_Ok _ _ s2 (inr LedgerOk) s2); [done |].
    unfold from_core, gets. rewrite Ec. unfold inspect_bond_state. cbn. rewrite Hsta, !lookup_insert_eq. cbn. rewrite N.eqb_refl.
    rewrite (proj2 (Z.eqb_neq h 0)) by lia. cbn. by rewrite Z.eqb_refl.
  - rewrite Ec. unfold ledger_get. cbn. rewrite !lookup_insert_eq. cbn. by rewrite bool_decide_eq_true_2, N.eqb_refl.
  - by rewrite Ec.
  - change (h < h + chunks_sum chunks). lia.
Qed.
End facts.
