(* ===== verification/StakingStake.v ===== *)
(** * Stake on hold

    The calls of the staking pallet that move stake, and slashes, in any order: what is on hold for a
    stash is the total of its ledger, and that the sum of its parts; matured stake can be withdrawn. *)

From stdpp Require Import base tactics numbers list gmap relations.
From S2P Require Import Prelude Dispatch System BalancesCalls SortedList StakingLedgers StakingLedgerFacts StakingSpans.
From S2P Require Import StakingVoters StakingBonds StakingFacts StakingBondFacts StakingAdminFacts.
Local Open Scope Z_scope.

(** ** Calls *)

Inductive StakeCall :=
  | CallVote (call : StakingCall)
  | CallBond (value : Z) (payee : RewardDestination)
  | CallBondExtra (max_additional : Z)
  | CallUnbond (value : Z)
  | CallWithdrawUnbonded (num_slashing_spans : Z)
  | CallRebond (value : Z)
  | CallForceUnstake (stash : AccountId) (num_slashing_spans : Z)
  | CallReapStash (stash : AccountId) (num_slashing_spans : Z)
  | CallKick (who : list MultiAddress)
  | CallChillOther (stash : AccountId).

Definition run_stake_call {S C : Type} `{SortedListProvider S} `{!HasStaking S C} `{!StakeAsset C} `{CurrencyToVote} `{NominationsQuota}
    `{StakingConfig} `{StakeWidth} (origin : RawOrigin) (call : StakeCall) : M S unit :=
  match call with
  | CallVote call => run_call origin call
  | CallBond value payee => bond origin value payee
  | CallBondExtra max_additional => bond_extra origin max_additional
  | CallUnbond value => unbond origin value
  | CallWithdrawUnbonded n => withdraw_unbonded origin n
  | CallRebond value => rebond origin value
  | CallForceUnstake stash n => force_unstake origin stash n
  | CallReapStash stash n => reap_stash origin stash n
  | CallKick who => kick origin who
  | CallChillOther stash => chill_other origin stash
  end.

(** The amounts are unsigned. *)
Definition stake_call_typed (call : StakeCall) : Prop :=
  match call with
  | CallBond v _ | CallBondExtra v | CallUnbond v | CallRebond v => 0 <= v
  | _ => True
  end.

Definition set_era {C : Type} (era : option Z) (c : StakingCore C) : StakingCore C :=
  {| Bonded := Bonded c; Ledger := Ledger c; Payee := Payee c; VirtualStakers := VirtualStakers c; AccountNonce := AccountNonce c;
     slash_store := slash_store c;
     Validators := Validators c; CounterForValidators := CounterForValidators c;
     Nominators := Nominators c; CounterForNominators := CounterForNominators c;
     MinNominatorBond := MinNominatorBond c; MinValidatorBond := MinValidatorBond c; MinCommission := MinCommission c;
     MaxValidatorsCount := MaxValidatorsCount c; MaxNominatorsCount := MaxNominatorsCount c; ChillThreshold := ChillThreshold c;
     CurrentEra := era; MinimumActiveStake := MinimumActiveStake c; asset := asset c;
     staking_events := staking_events c; staking_notices := staking_notices c |}.

Definition set_nonce {C : Type} (who : AccountId) (nonce : Z) (c : StakingCore C) : StakingCore C :=
  {| Bonded := Bonded c; Ledger := Ledger c; Payee := Payee c; VirtualStakers := VirtualStakers c; AccountNonce := <[who := nonce]> (AccountNonce c);
     slash_store := slash_store c;
     Validators := Validators c; CounterForValidators := CounterForValidators c;
     Nominators := Nominators c; CounterForNominators := CounterForNominators c;
     MinNominatorBond := MinNominatorBond c; MinValidatorBond := MinValidatorBond c; MinCommission := MinCommission c;
     MaxValidatorsCount := MaxValidatorsCount c; MaxNominatorsCount := MaxNominatorsCount c; ChillThreshold := ChillThreshold c;
     CurrentEra := CurrentEra c; MinimumActiveStake := MinimumActiveStake c; asset := asset c;
     staking_events := staking_events c; staking_notices := staking_notices c |}.

Section stake.
Context {S C : Type} `{LW : SortedListLaws S C} `{AS : !StakeAsset C} `{CV : CurrencyToVote} `{VT : !VotesTyped}.
Context `{NQ : NominationsQuota} `{SC : StakingConfig} `{SW : StakeWidth} `{AL : !StakeAssetLaws C} `{AO : AdminOrigin} `{OC : !OldCurrency C}.

(** A call by anyone, a slash of anyone, computed or applied, a use of the interface for keyless stakers, or
    another era; accounts that are not virtual stakers sign transactions.  Left out are batches that name
    a controller twice and restoring the ledger of a stash under an old lock ([admin_call_ready]). *)
Inductive staking_step : S -> S -> Prop :=
  | ss_call origin call s : stake_call_typed call -> sl_count s < u32_max -> staking_step s (snd (run_stake_call origin call s))
  | ss_slash stash value payout imbalance era s : 0 <= value <= stake_max ->
      staking_step s (snd (do_slash stash value payout imbalance era s))
  | ss_report params s : staking_step s (snd (report_slash params s))
  | ss_admin origin call s : admin_call_ready call (core s) -> staking_step s (snd (run_admin_call origin call s))
  | ss_virtual_bond x value payee s : account_nonce x (core s) = 0 -> Ledger (core s) !! x = None -> 0 <= value <= stake_max ->
      staking_step s (snd (with_storage_layer (virtual_bond x value payee) s))
  | ss_migrate_virtual x s : is_Some (Bonded (core s) !! x) -> account_nonce x (core s) = 0 ->
      staking_step s (snd (with_storage_layer (migrate_to_virtual_staker x) s))
  | ss_set_payee x y s : staking_step s (snd (with_storage_layer (interface_set_payee x y) s))
  | ss_nonce x n s : x ∉ VirtualStakers (core s) -> staking_step s (set_core (set_nonce x n (core s)) s)
  | ss_era era s : staking_step s (set_core (set_era era (core s)) s).

Lemma nonce_keeps s x n : bonds_ok s -> x ∉ VirtualStakers (core s) -> bonds_ok (set_core (set_nonce x n (core s)) s).
Proof.
  intros [Hs Hb] Hx. split; [apply sync_set; [done | apply Hs | done] |]. rewrite core_set.
  assert (Hn : forall y, y ∈ VirtualStakers (core s) -> account_nonce y (set_nonce x n (core s)) = account_nonce y (core s)).
  { intros y Hy. unfold account_nonce. cbn. by rewrite lookup_insert_ne by congruence. }
  assert (Hv : forall y, is_virtual_staker y (set_nonce x n (core s)) = is_virtual_staker y (core s)).
  { intros y. unfold is_virtual_staker. cbn [VirtualStakers set_nonce]. destruct (bool_decide (y ∈ VirtualStakers (core s))) eqn:E; [| by rewrite !andb_false_r].
    apply bool_decide_eq_true in E. by rewrite Hn. }
  destruct Hb as [B1 B2 B3 B4 B5 B6 B7 B8]. split; cbn; try done.
  - intros y k. rewrite Hv. apply B2.
  - intros y. rewrite Hv. apply B5.
  - intros y Hy. rewrite Hn by done. by apply B6.
Qed.

Lemma vote_safe origin call s : bonds_ok s -> sl_count s < u32_max -> safe (run_call origin call) s (fun _ s' => bonds_ok s').
Proof.
  intros [Hs Hb] Hfit. pose proof (call_performs origin call s Hs Hfit) as Hp. unfold safe.
  destruct (spec_call origin call (core s)) as [e | c'] eqn:E; [by rewrite Hp |]. destruct Hp as (s' & -> & Ec & Hs'). split; [done |].
  rewrite Ec. apply (bonds_same None (core s)); [| done]. destruct origin as [| who | |]; try done. simpl in E.
  destruct (ledger_get _ _) as [| l]; [done |]. destruct call as [prefs | wanted |].
  - unfold spec_validate in E. destruct (first_failure _); [done |]. by injection E as <-.
  - unfold spec_nominate in E. destruct (first_failure _); [done |]. destruct (head _); [done |]. by injection E as <-.
  - unfold spec_chill in E. injection E as <-. by destruct (_ || _).
Qed.

Lemma stake_call_safe origin call s : bonds_ok s -> stake_call_typed call -> sl_count s < u32_max ->
  safe (run_stake_call origin call) s (fun _ s' => bonds_ok s').
Proof.
  intros Hs Ht Hfit. destruct call; simpl in *;
    by first [apply vote_safe | apply bond_safe | apply bond_extra_safe | apply unbond_safe | apply withdraw_safe | apply rebond_safe
             | apply force_unstake_safe | apply reap_safe | apply kick_safe | apply chill_other_safe].
Qed.

(** A call that fails changes nothing. *)
Lemma stake_call_error origin call s e s' : bonds_ok s -> sl_count s < u32_max -> run_stake_call origin call s = (Err e, s') -> s' = s.
Proof.
  intros [Hs _] Hfit. assert (Hlayer : forall m : M S unit, with_storage_layer m s = (Err e, s') -> s' = s).
  { intros m. unfold with_storage_layer. by destruct (m s) as [[] ?]; intros; simplify_eq. }
  destruct call; simpl; try apply Hlayer. pose proof (call_performs origin call s Hs Hfit) as Hp. destruct (spec_call _ _ _) as [e' | c'].
  - rewrite Hp. by intros [= _ <-].
  - by destruct Hp as (s1 & -> & _).
Qed.

Lemma staking_step_ok s s' : staking_step s s' -> bonds_ok s -> bonds_ok s'.
Proof.
  intros Hstep Hs. destruct Hstep as [origin call s Ht Hfit | stash value payout imbalance era s Hv | params s
    | origin call s Hready | x value payee s Hn Hl Hv | x s Hx Hn | x y s | x n s Hx | era s].
  - pose proof (stake_call_safe origin call s Hs Ht Hfit) as Hsafe. unfold safe in Hsafe.
    destruct (run_stake_call origin call s) as [[[] | e |] s'] eqn:E; [done | | done]. by rewrite (stake_call_error _ _ _ _ _ Hs Hfit E).
  - destruct (ledger_get (Stash stash) (core s)) as [e | l] eqn:E.
    + unfold do_slash, bind, from_core, gets. by rewrite E.
    + destruct (do_slash_run s stash l value payout imbalance era Hs E Hv) as (n & s' & l' & -> & Hs' & _). exact Hs'.
  - unfold report_slash, bind, from_core, gets. destruct (compute_slash params (slash_store (core s))) as [[unapplied st] |]; [by apply bonds_ok_set | exact Hs].
  - by apply admin_call_keeps.
  - apply layer_keeps; [done |]. by apply virtual_bond_safe.
  - apply layer_keeps; [done |]. by apply migrate_virtual_safe.
  - apply layer_keeps; [done |]. by apply interface_set_payee_safe.
  - by apply nonce_keeps.
  - by apply bonds_ok_set.
Qed.

Lemma staking_reachable s s' : rtc staking_step s s' -> bonds_ok s -> bonds_ok s'.
Proof. induction 1 as [| s1 s2 s3 Hstep _ IH]; [done |]. intros Hs. apply IH. by eapply staking_step_ok. Qed.

(** C3. From a state in agreement, in every state that calls, slashes, new eras and uses of the interface
    for virtual stakers lead to: every bonded stash has a ledger, of its own controller, whose total is
    its active stake and the chunks that unlock; what is on hold for the stash is this total, nothing
    when it is virtual or not bonded; a stash has a payee exactly when it is bonded; the registers and
    the list agree; and no call panics.  The steps leave out what breaks this: retiring a batch of
    controllers that names one twice (see [repeated_controller_loses_ledger]) and restoring the ledger of
    a stash that an earlier release still locks.  They also assume that the list has room for one more
    entry, that a virtual bond or migration is of an account that never signs transactions, a bond of
    one that is no controller and a migration of one that is bonded, and that virtual stakers sign no
    transactions. *)
Theorem stake_stays_backed s s' : bonds_ok s -> rtc staking_step s s' ->
  (forall stash k, Bonded (core s') !! stash = Some k -> exists l, ledger_get (Stash stash) (core s') = inr l /\
     ledger_get (Controller k) (core s') = inr l /\ lg_total l = lg_active l + chunks_sum (lg_unlocking l) /\
     asset_staked stash (asset (core s')) = if is_virtual_staker stash (core s') then 0 else lg_total l) /\
  (forall stash, Bonded (core s') !! stash = None -> asset_staked stash (asset (core s')) = 0) /\
  (forall stash, is_Some (Payee (core s') !! stash) <-> is_Some (Bonded (core s') !! stash)) /\
  check_count s' = true /\
  (forall origin call, stake_call_typed call -> sl_count s' < u32_max -> fst (run_stake_call origin call s') <> Panic) /\
  (forall origin call, admin_call_ready call (core s') -> fst (run_admin_call origin call s') <> Panic).
Proof.
  intros Hs Hr. pose proof (staking_reachable _ _ Hr Hs) as Hs'. pose proof Hs' as [Hsy Hb]. split; [| split; [| split; [| split; [| split]]]].
  - intros stash k Ek. destruct (ledger_get_bonded _ _ _ Hb Ek) as (l & El & Es & Eg & Eg'). eexists. split; [exact Eg |].
    destruct (ledger_get_found _ _ _ Hb Eg) as (k' & _ & _ & _ & _ & [_ _ Hsum _] & Hst & _). split; [exact Eg' |]. split; [done |].
    cbn in Hst. by rewrite <- Es.
  - intros stash En. by apply Hb.
  - apply Hb.
  - by apply check_count_sync.
  - intros origin call Ht Hfit. pose proof (stake_call_safe origin call s' Hs' Ht Hfit) as Hsafe. unfold safe in Hsafe.
    by destruct (run_stake_call origin call s') as [[] ?].
  - intros origin call Hready. pose proof (admin_call_safe origin call s' Hs' Hready) as Hsafe. unfold safe in Hsafe.
    by destruct (run_admin_call origin call s') as [[] ?].
Qed.

(** ** Slashing *)

(** C15. A slash of a bonded stash always takes at least the amount or all there is, and at most the amount,
    or less than an existential deposit more; what it takes leaves the ledger of the stash, virtual or
    not, whose total is still its active stake and the chunks that unlock, and the hold of a stash that
    is not virtual; nothing is missing, and the reward is not reduced. *)
Theorem slash_takes_stake s stash l value payout imbalance era : bonds_ok s -> ledger_get (Stash stash) (core s) = inr l ->
  0 <= value <= stake_max -> exists n s' l',
  do_slash stash value payout imbalance era s =
    (Ok (payout, if (n =? 0) || is_virtual_staker stash (core s) then imbalance else stake_saturating_add imbalance n), s') /\ bonds_ok s' /\
  Z.min value (lg_total l) <= n <= lg_total l /\ (n <= value \/ n < value + asset_existential_deposit) /\
  ledger_get (Stash stash) (core s') = inr l' /\ lg_total l' = lg_total l - n /\
  lg_total l' = lg_active l' + chunks_sum (lg_unlocking l') /\
  asset_staked stash (asset (core s')) = if is_virtual_staker stash (core s) then 0 else lg_total l - n.
Proof.
  intros Hs Hl Hv. destruct (do_slash_run s stash l value payout imbalance era Hs Hl Hv) as (n & s' & l' & Hrun & Hs' & Hn & Hu & Hg & Et & Ev).
  destruct (ledger_get_found _ _ _ (proj2 Hs') Hg) as (k & l0 & _ & _ & _ & Hgood & Hst & Es). rewrite Es, Ev, Et in Hst.
  exists n, s', l'. do 6 (split; [done |]). split; [apply Hgood | done].
Qed.

(** ** Withdrawing *)

(** The number of slashing spans given is enough. *)
Definition spans_given (stash : AccountId) (n : Z) (c : StakingCore C) : Prop :=
  forall spans, SlashingSpans c !! stash = Some spans -> Z.of_nat (length (spans_iter spans)) <= n.

Lemma clear_metadata_ok s stash n : bonds_ok s -> spans_given stash n (core s) ->
  exists s', clear_stash_metadata stash n s = (Ok tt, s') /\ bonds_ok s' /\ same_bonds (core s) (core s').
Proof.
  intros Hs Hn. pose proof (clear_metadata_safe s stash n Hs) as Hsafe. unfold safe in Hsafe.
  assert (Hrun : exists s', clear_stash_metadata stash n s = (Ok tt, s') /\ same_bonds (core s) (core s')).
  { unfold clear_stash_metadata, bind at 1, from_core, gets. specialize (Hn). unfold spans_given in Hn. destruct (SlashingSpans (core s) !! stash) as [spans |]; [| by exists s].
    rewrite (proj2 (Z.leb_le _ _)) by (by apply Hn). eexists. split; [reflexivity |]. rewrite !core_set. done. }
  destruct Hrun as (s' & Hrun & E). exists s'. rewrite Hrun in Hsafe. done.
Qed.

Lemma kill_stash_ok s stash k l n : bonds_ok s -> Bonded (core s) !! stash = Some k -> Ledger (core s) !! k = Some l ->
  (is_virtual_staker stash (core s) = false -> 0 < lg_total l) -> spans_given stash n (core s) ->
  exists s', kill_stash stash n s = (Ok tt, s') /\ bonds_ok s' /\ Bonded (core s') = delete stash (Bonded (core s)) /\
    is_nominator stash (core s') || is_validator stash (core s') = false.
Proof.
  intros Hs Ek El Hpos Hn. destruct (clear_metadata_ok s stash n Hs Hn) as (s1 & Hrun1 & Hs1 & (Eb & Ell & _ & Ev & _)).
  destruct (ledger_kill_ok s1 stash k l) as (s2 & Hrun2 & Hs2 & E2); [done | congruence | congruence | by rewrite (virtual_same _ _ _ Ev) |].
  destruct Hs2 as [Hsy2 Hb2]. destruct (remove_validator_run s2 stash Hsy2) as (s3 & Hrun3 & E3 & Hsy3).
  destruct (remove_nominator_run s3 stash Hsy3) as (s4 & Hrun4 & E4 & Hsy4). exists s4.
  assert (Hb4 : same_bonds (core s2) (core s4)) by (by rewrite E4, E3).
  split; [| split; [split; [done | by apply (bonds_same None (core s2))] |]].
  - unfold kill_stash. by rewrite (bind_Ok _ _ _ _ _ Hrun1), (bind_Ok _ _ _ _ _ Hrun2), (bind_Ok _ _ _ _ _ Hrun3), (bind_Ok _ _ _ _ _ Hrun4).
  - split; [by rewrite (proj1 Hb4), E2, Eb |]. rewrite E4, E3. unfold is_nominator, is_validator. cbn. by rewrite !lookup_delete_eq.
Qed.

(** The part of a ledger that can be withdrawn, and the chunks that cannot. *)
Definition mature_part (era : Z) (l : StakingLedger) : Z := chunks_sum (filter (fun c => chunk_era c <= era) (lg_unlocking l)).
Definition later_chunks (era : Z) (l : StakingLedger) : list UnlockChunk := filter (fun c => era < chunk_era c) (lg_unlocking l).

Definition after_withdrawal (era : Z) (l : StakingLedger) : StakingLedger :=
  set_unlocking (later_chunks era l) (set_total (lg_total l - mature_part era l) l).

Lemma consolidate_after era l : ledger_good l -> consolidate_unlocked l era = after_withdrawal era l /\ ledger_good (after_withdrawal era l).
Proof.
  intros Hg. destruct (consolidate_run l era Hg) as (Eu & Et & Ea & Es & Ec & Hg'). assert (E : consolidate_unlocked l era = after_withdrawal era l).
  2: { split; [done |]. by rewrite <- E. }
  unfold after_withdrawal, later_chunks. rewrite (list_filter_iff (fun c => era < chunk_era c) (fun c => ~ matured era c)) by (intros c; unfold matured; lia).
  rewrite <- Eu. unfold mature_part. unfold matured in Et. rewrite <- Et. destruct (consolidate_unlocked l era), l. simpl in *. by simplify_eq.
Qed.

Lemma withdraw_note s old new stash k : bonds_ok s -> exists s', when (new <? old) (
    let value := saturating_sub old new in
    do on_core (staking_deposit_event (Withdrawn stash value)) ;; on_core (notify (on_withdraw k value))) s = (Ok tt, s') /\ bonds_ok s' /\
  same_bonds (core s) (core s') /\ same_registers (core s) (core s').
Proof.
  intros Hs. destruct (new <? old); [| by exists s]. eexists. split; [reflexivity |]. rewrite !core_set. split; [| done].
  apply bonds_ok_set; rewrite ?core_set; [by apply bonds_ok_event | done | done].
Qed.

(** C14. Matured stake can always be withdrawn.  When stake is left, exactly the matured chunks leave the
    ledger and the hold, and the other chunks and the active stake stay.  When less than the existential
    deposit is active and no chunk is left, the stash is removed, with nothing left on hold and no role,
    given the number of its slashing spans. *)
Theorem matured_stake_withdrawn s k l era n : bonds_ok s -> ledger_get (Controller k) (core s) = inr l ->
  CurrentEra (core s) = Some era -> is_virtual_staker (lg_stash l) (core s) = false -> 0 < lg_total l -> spans_given (lg_stash l) n (core s) ->
  exists s', withdraw_unbonded (Signed k) n s = (Ok tt, s') /\ bonds_ok s' /\
  if bool_decide (later_chunks era l = []) && ((lg_active l <? asset_existential_deposit) || (lg_active l =? 0)) then
    Bonded (core s') !! lg_stash l = None /\ asset_staked (lg_stash l) (asset (core s')) = 0 /\
    is_nominator (lg_stash l) (core s') || is_validator (lg_stash l) (core s') = false
  else
    ledger_get (Controller k) (core s') = inr (after_withdrawal era l) /\
    asset_staked (lg_stash l) (asset (core s')) = lg_total l - mature_part era l.
Proof.
  intros Hs Hl He Hv Hpos Hn. pose proof Hs as [Hsy Hb]. destruct (ledger_get_found _ _ _ Hb Hl) as (k' & l0 & Ek & El0 & El & Hg & Hst & ->).
  destruct (consolidate_after era l Hg) as [Ecl Hg']. rewrite Hv in Hst.
  assert (Hrun : exists s1, (if bool_decide (later_chunks era l = []) && ((lg_active l <? asset_existential_deposit) || (lg_active l =? 0))
      then kill_stash (lg_stash l) n else ledger_update (after_withdrawal era l)) s = (Ok tt, s1) /\ bonds_ok s1 /\
    if bool_decide (later_chunks era l = []) && ((lg_active l <? asset_existential_deposit) || (lg_active l =? 0))
    then Bonded (core s1) !! lg_stash l = None /\ is_nominator (lg_stash l) (core s1) || is_validator (lg_stash l) (core s1) = false
    else exists a, core s1 = Ledger_insert k (after_withdrawal era l) (set_asset a (core s))).
  { destruct (_ && _).
    - destruct (kill_stash_ok s (lg_stash l) k l0 n) as (s1 & ? & ? & E & ?); [done | done | done | by rewrite El in Hpos | done |].
      exists s1. rewrite E, lookup_delete_eq. done.
    - apply (ledger_update_ok s (after_withdrawal era l) k); [done | by apply bonds_hole | done | by rewrite El | done | |].
      + intros l1. rewrite El0, El. by intros [= <-].
      + simpl. rewrite Hv, Hst. assert (0 <= mature_part era l); [| lia]. apply chunks_sum_pos, Forall_kept, Hg. }
  destruct Hrun as (s1 & Hrun & Hs1 & Hres).
  destruct (withdraw_note s1 (lg_total l) (lg_total (after_withdrawal era l)) (lg_stash l) k Hs1) as (s2 & Hnote & Hs2 & (Eb & Ell & _ & Ev & Ea & _) & (Ern & Erv & _)).
  exists s2. split; [| split; [done |]].
  { unfold withdraw_unbonded, with_storage_layer. rewrite (bind_Ok _ _ s k s) by done. unfold do_withdraw_unbonded.
    rewrite (bind_Ok _ _ s l s) by (unfold get_ledger, bind, from_core, gets; by rewrite Hl). cbv zeta.
    rewrite (bind_Ok _ _ s (Some era) s) by (unfold from_core, gets; by rewrite He). rewrite Ecl.
    rewrite (bind_Ok _ _ _ _ _ Hrun). cbv zeta in Hnote. by rewrite Hnote. }
  destruct (_ && _).
  - destruct Hres as [En Er]. rewrite Eb. split; [done |]. split; [by apply Hs2; [rewrite Eb |] |]. unfold is_nominator, is_validator in *. by rewrite Ern, Erv.
  - destruct Hres as (a & E). destruct Hs2 as [_ Hb2]. destruct (ledger_get_bonded (core s2) (lg_stash l) k Hb2) as (l2 & El2 & _ & _ & Eg).
    { by rewrite Eb, E. }
    rewrite Ell, E in El2. cbn in El2. rewrite lookup_insert_eq in El2. injection El2 as <-. rewrite Eg, Ea. split.
    + rewrite El. done.
    + pose proof (staked_after s s1 k (after_withdrawal era l) a Hs1 E Ek) as Hafter. simpl in Hafter. by rewrite Hv in Hafter.
Qed.
End stake.
