(* ===== verification/StakingAsset.v ===== *)
(** * Stake held in the balances pallet

    [frame/staking/src/asset.rs]: stake as balance on hold, and that the balances pallet keeps the
    promises the staking pallet relies on. *)

From stdpp Require Import base tactics numbers list gmap.
From S2P Require Import Prelude Dispatch System Tokens Fungible Balances BalancesFungible BalancesCurrency AccountSpec AccountWf Ledger FungibleFacts.
From S2P Require Import CurrencyFacts ReserveFacts TransferFacts NamedReserveFacts RepatriateFacts HoldFacts StakingLedgers StakingSpans StakingVoters StakingBonds StakingBondFacts.
Local Open Scope Z_scope.

(** ** [asset.rs] *)

Section asset.
Context `{Config} (Staking : N).

Definition existential_deposit : Z := minimum_balance.
Definition stake_total_issuance (s : State) : Z := total_issuance s.
Definition stake_total_balance (who : AccountId) (s : State) : Z := total_balance who s.
Definition staked (who : AccountId) (s : State) : Z := balance_on_hold Staking who s.
Definition free_to_stake (who : AccountId) (s : State) : Z := reducible_balance who Preserve Force s.
Definition stakeable_balance (who : AccountId) (s : State) : Z := saturating_add (free_to_stake who s) (staked who s).
Definition update_stake (who : AccountId) (amount : Z) : M State unit := set_on_hold Staking who amount.
Definition kill_stake (who : AccountId) : M State unit := do release_all Staking who BestEffort ;; ret tt.
Definition slash (who : AccountId) (value : Z) : M State (Z * Z) :=
  '(credit, missing) <- slash_on_hold Staking who value ;;
  ret (imb_peek credit, missing).

Definition BalancesAsset : StakeAsset State := {|
  asset_existential_deposit := existential_deposit;
  asset_total_issuance := stake_total_issuance;
  asset_total_balance := stake_total_balance;
  asset_staked := staked;
  asset_free_to_stake := free_to_stake;
  asset_update_stake := update_stake;
  asset_kill_stake := kill_stake;
  asset_slash := slash;
|}.

(** The lock of earlier releases, [STAKING_ID]. *)
Definition OldBalances (id : N) : OldCurrency State := fun who s =>
  match fst (cur_balance_locked id who s) with
  | Ok amount => amount
  | _ => 0
  end.
End asset.

(** ** The promises *)

Section laws.
Context `{Config} (Staking : N) `{StakeWidth}.

(** What is on hold is part of the reserved balance, an account with stake keeps the existential deposit
    free, and the issuance leaves room for the check of a deposit that counts a released amount twice. *)
Record stake_ok (s : State) : Prop := {
  so_ledger : ledger_ok s;
  so_holds : holds_wf s;
  so_backed who : backed Staking who s;
  so_alive who : 0 < held Staking who s -> ed <= free (account who s);
  so_room : 2 * TotalIssuance s <= max_value;
}.

Lemma stake_ok_step who s s' : stake_ok s -> ledger_ok s' -> holds_wf s' -> TotalIssuance s' <= TotalIssuance s ->
  (forall w, w <> who -> accts s' !! w = accts s !! w) -> (forall w, w <> who -> holds w s' = holds w s) ->
  backed Staking who s' -> (0 < held Staking who s' -> ed <= free (account who s')) ->
  stake_ok s' /\ (forall w, w <> who -> held Staking w s' = held Staking w s).
Proof.
  intros [Hl Hh Hb Ha Hr] Hl' Hh' Ht Hacc Hho Hb' Ha'.
  assert (Hheld : forall w, w <> who -> held Staking w s' = held Staking w s) by (intros w Hw; unfold held, held_map; by rewrite Hho).
  assert (Hdat : forall w, w <> who -> account w s' = account w s) by (intros w Hw; by rewrite !account_edata, Hacc).
  split; [| done]. split; [done | done | | | lia]; intros w; (destruct (decide (w = who)) as [-> |]; [done |]).
  - unfold backed. rewrite Hheld, Hdat by done. apply Hb.
  - rewrite Hheld, Hdat by done. apply Ha.
Qed.

Lemma held_of_map who n s s' : held_map who s' = put_amount Staking n (held_map who s) -> held Staking who s' = n.
Proof.
  intros E. unfold held. rewrite E. unfold put_amount. destruct (Z.eqb_spec n 0) as [-> |]; by rewrite ?lookup_delete_eq, ?lookup_insert_eq.
Qed.

(** What all changes of the stake have in common. *)
Definition stake_set (who : AccountId) (n : Z) (s s' : State) : Prop :=
  stake_ok s' /\ held Staking who s' = n /\ (forall w, w <> who -> held Staking w s' = held Staking w s).

Lemma released_stake who n freed s s' : stake_ok s -> ed <= free (account who s) -> 0 <= freed <= n -> n <= held Staking who s ->
  released_hold Staking who n freed s s' -> TotalIssuance s' = TotalIssuance s -> stake_set who (held Staking who s - n) s s'.
Proof.
  intros Hs Hed Hf Hn Hrel Ht. pose proof (held_of_map _ _ _ _ (rh_held _ _ _ _ _ _ Hrel)) as Hh. destruct Hrel as [Rf Rr _ _ Ro Roh Rw Ra Rg].
  pose proof Hs as [[Hw Hg Hm] Hho Hb _ _]. specialize (Hb who). unfold backed in Hb.
  assert (Hl' : ledger_ok s') by (split; [done | lia | lia]).
  destruct (stake_ok_step who s s' Hs Hl' Rw ltac:(lia) Ro Roh) as [Hs' Ho]; [unfold backed; lia | lia | done].
Qed.

(** Lowering the stake, of an account that has some. *)
Lemma release_stake who n s : stake_ok s -> 0 < held Staking who s -> 0 <= n <= held Staking who s -> forall precision,
  exists s', release Staking who n precision s = (Ok n, s') /\ stake_set who (held Staking who s - n) s s'.
Proof.
  intros Hs Hpos Hn precision. pose proof Hs as [Hok Hh Hb Ha Hr]. pose proof (held_bounds Staking who s Hh).
  pose proof (release_spec Staking who n precision s Hok Hh (Hb who) ltac:(unfold is_balance; lia) (Ha who Hpos)) as Hrel. unfold wp in Hrel.
  assert (En : match precision with Exact => n | BestEffort => Z.min n (held Staking who s) end = n) by (destruct precision; lia).
  cbv zeta in Hrel. rewrite En in Hrel.
  pose proof (holdings_le_supply s who (lo_wf _ Hok)) as Hhm. pose proof (lo_gap _ Hok) as Hgap. unfold gap in Hgap. unfold holdings in Hhm. specialize (Hb who). unfold backed in Hb.
  pose proof (wf_account s who (lo_wf _ Hok)) as [[] [] _].
  destruct (release Staking who n precision s) as [[x | er |] s']; simpl in Hrel; [| | done].
  - destruct Hrel as (-> & _ & Hrel & Ht). exists s'. split; [done |]. eapply released_stake; try done; [by apply Ha | lia | lia].
  - destruct Hrel as (_ & [[_ ?] | [_ ?]]); lia.
Qed.

(** Raising the stake within what is free to stake. *)
Lemma hold_stake who n s : stake_ok s -> 0 < n <= free_to_stake who s ->
  match hold Staking who n s with
  | (Ok _, s') => stake_set who (held Staking who s + n) s s'
  | (Err _, _) => True
  | (Panic, _) => False
  end.
Proof.
  intros Hs Hn. pose proof Hs as [Hok Hh Hb Ha Hr]. pose proof (wf_account s who (lo_wf _ Hok)) as [[] [] _].
  unfold free_to_stake in Hn. cbn in Hn. rewrite reducible_untouchable in Hn. unfold untouchable in Hn.
  change (bool_decide (Force = Polite)) with false in Hn. change (keeps_ed who Preserve s) with true in Hn. cbv iota in Hn. pose proof ed_pos.
  pose proof (hold_spec Staking who n s Hok Hh (Hb who) ltac:(unfold is_balance; lia)) as Hh'. unfold wp in Hh'.
  destruct (hold Staking who n s) as [[[] | er |] s']; simpl in Hh'; [| done | done]. destruct Hh' as [Of Or Oh Oi Oo Ooh Ow Ol Og].
  unfold dust_left in *. rewrite (proj2 (Z.ltb_ge _ _)) in * by lia. simpl in *. rewrite (proj2 (Z.eqb_neq n 0)) in Oh by lia.
  assert (Eh : held Staking who s' = held Staking who s + n) by (unfold held at 1; by rewrite Oh, lookup_insert_eq).
  specialize (Hb who). unfold backed in Hb.
  destruct (stake_ok_step who s s' Hs Ol Ow ltac:(lia) Oo Ooh) as [Hs' Ho]; [unfold backed; lia | lia | done].
Qed.

(** Releasing nothing. *)
Lemma release_nothing who s : stake_ok s -> held Staking who s = 0 ->
  exists s', release Staking who 0 BestEffort s = (Ok 0, s') /\ stake_set who 0 s s'.
Proof.
  intros Hs Hz. pose proof Hs as [Hok Hh Hb Ha Hr]. pose proof (lo_wf _ Hok) as Hw. pose proof max_value_pos.
  pose proof (wf_account s who Hw) as [[] [] _]. pose proof (ledger_issuance_nonneg s Hok).
  pose proof (decrease_on_hold_spec Staking who 0 BestEffort s Hw Hh (Hb who) ltac:(unfold is_balance; lia)) as Hd. unfold wp in Hd.
  cbv zeta in Hd. rewrite Hz, Z.min_id, Z.sub_0_r in Hd. unfold release. rewrite (bind_Ok _ _ s DepositSuccess s) by done.
  rewrite (bind_Ok _ _ s tt s) by done.
  destruct (decrease_balance_on_hold Staking who 0 BestEffort s) as [[x | er |] s1] eqn:E1; simpl in Hd; [| by destruct Hd as (_ & _ & ? & _) | done].
  destruct Hd as (-> & _ & Hd & Hrb & Or & Of & _ & Og). rewrite (bind_Ok _ _ _ _ _ E1). rewrite Hz in *. set (dust := dust_left _ _) in *.
  pose proof (dust_left_bounds (with_reserved (account who s) (reserved (account who s) + (0 - 0))) (free (account who s))) as Hdust. fold dust in Hdust.
  pose proof (hs_issuance _ _ _ _ _ Hd) as Ht.
  pose proof (increase_balance_spec who 0 BestEffort s1 (hs_accounts _ _ _ _ _ Hd) ltac:(lia) ltac:(unfold is_balance; lia)) as Hi. unfold wp in Hi.
  destruct (increase_balance who 0 BestEffort s1) as [[x | er |] s2]; simpl in Hi; [| by destruct Hi as (_ & ? & _) | done].
  destruct Hi as (Ex & _ & Hcr). assert (x = 0) as ->.
  { rewrite Ex. pose proof (wf_account s1 who (hs_accounts _ _ _ _ _ Hd)) as [[] _ _]. unfold saturating_add. destruct (_ <? ed); lia. }
  exists s2. split; [done |]. destruct Hcr as [Cst Cf Cr _ Ci]. pose proof (as_lists _ _ _ _ Cst) as Hl. pose proof (as_gap _ _ _ _ Cst) as Hg.
  pose proof (held_of_map _ _ _ _ (hs_map _ _ _ _ _ Hd)) as Eh. rewrite <- (held_lists Staking who s1 s2 Hl) in Eh. pose proof (lo_gap _ Hok). pose proof (lo_max _ Hok).
  assert (Hl2 : ledger_ok s2) by (split; [apply Cst | lia | lia]).
  assert (Hh2 : holds_wf s2) by (intros w; rewrite (holds_lists w _ _ Hl); apply (hs_wf _ _ _ _ _ Hd)).
  destruct (stake_ok_step who s s2 Hs Hl2 Hh2 ltac:(lia)) as [Hs2 Ho].
  - intros w Hne. rewrite (as_others _ _ _ _ Cst) by done. by apply (hs_other_accounts _ _ _ _ _ Hd).
  - intros w Hne. rewrite (holds_lists _ _ _ Hl). by apply (hs_other_holds _ _ _ _ _ Hd).
  - unfold backed. lia.
  - lia.
  - done.
Qed.

Lemma staked_held who s : stake_ok s -> staked Staking who s = held Staking who s.
Proof. intros Hs. apply balance_on_hold_map, Hs. Qed.

(** The change of the stake, in terms of the functions of the asset. *)
Lemma stake_set_asset who n s s' : stake_ok s -> stake_set who n s s' ->
  stake_ok s' /\ staked Staking who s' = n /\ (forall w, w <> who -> staked Staking w s' = staked Staking w s).
Proof.
  intros Hs (Hs' & Hn & Ho). split; [done |]. rewrite !staked_held by done. split; [done |]. intros w Hw. rewrite !staked_held by done. by apply Ho.
Qed.

Lemma update_stake_run who amount s : stake_ok s -> 0 <= amount <= max_value -> amount <= staked Staking who s + free_to_stake who s ->
  match update_stake Staking who amount s with
  | (Ok _, s') => stake_ok s' /\ staked Staking who s' = amount /\ (forall w, w <> who -> staked Staking w s' = staked Staking w s)
  | (Err _, _) => staked Staking who s < amount
  | (Panic, _) => False
  end.
Proof.
  intros Hs Ha Hf. unfold update_stake, set_on_hold. rewrite (bind_Ok _ _ s (staked Staking who s) s) by done.
  pose proof (staked_held who s Hs) as Eh. destruct (Z.ltb_spec (staked Staking who s) amount) as [Hlt | Hge].
  - assert (Hn : 0 < amount - staked Staking who s <= free_to_stake who s) by lia. pose proof (hold_stake who _ s Hs Hn) as Hh.
    replace (held Staking who s + (amount - staked Staking who s)) with amount in Hh by lia.
    destruct (hold _ _ _ s) as [[[] | er |] s']; [by apply stake_set_asset | done | done].
  - destruct (Z.ltb_spec amount (staked Staking who s)).
    + assert (Hn : 0 < held Staking who s /\ 0 <= staked Staking who s - amount <= held Staking who s) by lia.
      destruct (release_stake who _ s Hs (proj1 Hn) (proj2 Hn) Exact) as (s' & Hrun & Hset).
      replace (held Staking who s - (staked Staking who s - amount)) with amount in Hset by lia.
      rewrite (bind_Ok _ _ _ _ _ Hrun). by apply (stake_set_asset who amount s s').
    + simpl. split; [done |]. split; [lia | done].
Qed.

Lemma kill_stake_run who s : stake_ok s ->
  exists s', kill_stake Staking who s = (Ok tt, s') /\ stake_ok s' /\ staked Staking who s' = 0 /\ (forall w, w <> who -> staked Staking w s' = staked Staking w s).
Proof.
  intros Hs. pose proof (staked_held who s Hs) as Eh. unfold kill_stake, release_all.
  assert (Hrun : exists s', release Staking who (staked Staking who s) BestEffort s = (Ok (staked Staking who s), s') /\ stake_set who 0 s s').
  { rewrite Eh. destruct (decide (held Staking who s = 0)) as [Ez |].
    - rewrite Ez. by apply release_nothing.
    - pose proof (held_bounds Staking who s (so_holds _ Hs)).
      destruct (release_stake who (held Staking who s) s Hs ltac:(lia) ltac:(lia) BestEffort) as (s' & Hrun & Hset). rewrite Z.sub_diag in Hset. by exists s'. }
  destruct Hrun as (s' & Hrun & Hset). exists s'. split; [| by apply stake_set_asset]. unfold bind at 1. by rewrite (bind_Ok _ _ s (staked Staking who s) s), Hrun.
Qed.

Lemma stake_slash_run who v s : stake_ok s -> 0 <= v <= staked Staking who s -> 0 < staked Staking who s ->
  exists s', slash Staking who v s = (Ok (v, 0), s') /\ stake_ok s' /\ staked Staking who s' = staked Staking who s - v /\
    (forall w, w <> who -> staked Staking w s' = staked Staking w s).
Proof.
  intros Hs Hv Hpos. pose proof (staked_held who s Hs) as Eh. rewrite Eh in *. pose proof Hs as [Hok Hh Hb Ha Hr]. pose proof (held_bounds Staking who s Hh).
  destruct (slash_on_hold_run Staking who v s Hok Hh (Hb who) ltac:(unfold is_balance; lia) (Ha who Hpos)) as (s' & Hrun & Hrel & Ht).
  rewrite Z.min_l in * by lia. exists s'. unfold slash. rewrite (bind_Ok _ _ _ _ _ Hrun), Z.sub_diag. split; [done |].
  apply stake_set_asset; [done |]. eapply released_stake; try done; [by apply Ha | lia | lia].
Qed.

Hypothesis same_width : max_value = stake_max.

(** The balances pallet keeps the promises of the staked asset. *)
Definition BalancesAssetLaws : @StakeAssetLaws State _ (BalancesAsset Staking).
Proof using same_width.
  refine (@Build_StakeAssetLaws State _ (BalancesAsset Staking) stake_ok _ _ _ _ _ _).
  - pose proof ed_pos. cbn. unfold existential_deposit. cbn. unfold ed in *. lia.
  - intros s Hs. apply ledger_issuance_nonneg, Hs.
  - intros s who Hs. rewrite <- same_width. pose proof (wf_account s who (lo_wf _ (so_ledger _ Hs))) as [[] _ _].
    pose proof (reducible_le_free who Preserve Force s (lo_wf _ (so_ledger _ Hs))). cbn. unfold free_to_stake. cbn. lia.
  - intros s who amount Hs. rewrite <- same_width. by apply update_stake_run.
  - intros s who Hs. destruct (kill_stake_run who s Hs) as (s' & Hrun & Hrest). cbn. by rewrite Hrun.
  - intros s who v Hs. by apply stake_slash_run.
Defined.
End laws.
