(* ===== verification/StakingSnapshot.v ===== *)
(** * The snapshot of voters

    What the snapshot for an election holds: the voters of the list in its order, up to the bounds on
    their number and on their size, and how the tracked size relates to the encoded size. *)

From stdpp Require Import base tactics numbers list gmap.
From S2P Require Import Prelude Dispatch System BalancesCalls SortedList StakingLedgers StakingSpans StakingVoters StakingFacts.
Local Open Scope Z_scope.

Section snapshot.
Context {S C : Type} `{LW : SortedListLaws S C} `{AS : !StakeAsset C} `{CV : CurrencyToVote} `{SC : StakingConfig}.

(** ** What the snapshot should be *)

(** The vote of an account: that of a nominator with targets, or of a validator for itself. *)
Definition vote_of (c : StakingCore C) (x : AccountId) : option Voter :=
  let w := weight_of x c in
  if w =? 0 then None
  else
    match Nominators c !! x with
    | Some n => if decide (targets n = []) then None else Some (x, w, targets n)
    | None => if is_validator x c then Some (x, w, [x]) else None
    end.

Definition tracker_start : StaticTracker := {| tracker_size := 0; tracker_counter := 0 |}.

(** The longest prefix that the tracker accepts, and the tracker after it. *)
Fixpoint fit (bounds : DataProviderBounds) (t : StaticTracker) (vs : list Voter) : list Voter * StaticTracker :=
  match vs with
  | [] => ([], t)
  | v :: vs =>
      match try_register_voter t v bounds with
      | Some t => let '(l, t) := fit bounds t vs in (v :: l, t)
      | None => ([], t)
      end
  end.

(** The stake of a nominator, with or without targets. *)
Definition nominator_weight (c : StakingCore C) (x : AccountId) : option Z :=
  if is_nominator x c && negb (weight_of x c =? 0) then Some (weight_of x c) else None.

Definition least_weight (c : StakingCore C) (start : Z) (accounts : list AccountId) : Z :=
  foldl Z.min start (omap (nominator_weight c) accounts).

(** The accounts that are looked at for a snapshot of [voters]: all of them, or up to the one whose vote
    fills it, or up to the first whose vote does not fit. *)
Definition looked_at (bounds : DataProviderBounds) (c : StakingCore C) (len : Z) (t : StaticTracker) (accounts seen : list AccountId)
    (voters : list Voter) : Prop :=
  exists rest, accounts = seen ++ rest /\ voters = omap (vote_of c) seen /\
    (rest = [] \/
     (len <= Z.of_nat (length voters) /\ forall x, last seen = Some x -> is_Some (vote_of c x)) \/
     (exists x rest' v, rest = x :: rest' /\ vote_of c x = Some v /\ try_register_voter t v bounds = None)).

Definition snapshot_len (bounds : DataProviderBounds) (s : S) : Z := Z.min (default (sl_count s) (bound_count bounds)) (sl_count s).

(** The votes within the bound on their number, among twice as many accounts of the list. *)
Definition candidates (c : StakingCore C) (len : Z) (order : list AccountId) : list Voter :=
  take (Z.to_nat len) (omap (vote_of c) (take (Z.to_nat (NPOS_MAX_ITERATIONS_COEFFICIENT * len)) order)).

(** ** The loop *)

(** One account of the list. *)
Lemma snapshot_round_run bounds (c : StakingCore C) x a : size_exceeded a = None ->
  let m := least_weight c (min_active_stake a) [x] in
  snapshot_round bounds c x a =
    match vote_of c x with
    | None => ({| all_voters := all_voters a; min_active_stake := m; voters_tracker := voters_tracker a; size_exceeded := None |}, true)
    | Some v =>
        match try_register_voter (voters_tracker a) v bounds with
        | Some t => ({| all_voters := all_voters a ++ [v]; min_active_stake := m; voters_tracker := t; size_exceeded := None |}, true)
        | None => ({| all_voters := all_voters a; min_active_stake := min_active_stake a; voters_tracker := voters_tracker a;
                      size_exceeded := Some (tracker_size (voters_tracker a) mod 2 ^ 32) |}, false)
        end
    end.
Proof.
  intros He. unfold snapshot_round, vote_of, least_weight, nominator_weight, is_nominator.
  assert (Ea : a = {| all_voters := all_voters a; min_active_stake := min_active_stake a; voters_tracker := voters_tracker a; size_exceeded := None |})
    by (destruct a; simpl in *; by subst).
  cbn [omap list_omap]. destruct (_ =? 0); [rewrite andb_false_r; cbn; by rewrite <- Ea |].
  destruct (Nominators c !! x) as [n |].
  - rewrite bool_decide_eq_true_2 by eauto. cbn [andb negb foldl].
    assert (Hmin : (if weight_of x c <? min_active_stake a then weight_of x c else min_active_stake a) = Z.min (min_active_stake a) (weight_of x c))
      by (destruct (Z.ltb_spec (weight_of x c) (min_active_stake a)); lia).
    rewrite Hmin. destruct (targets n) as [| t ts]; [by rewrite decide_True |]. rewrite decide_False by done. by destruct (try_register_voter _ _ _).
  - rewrite bool_decide_eq_false_2 by (by intros []). cbn [andb foldl].
    destruct (is_validator x c); [by destruct (try_register_voter _ _ _) | by rewrite <- Ea].
Qed.

Lemma least_weight_cons (c : StakingCore C) m x l : least_weight c m (x :: l) = least_weight c (least_weight c m [x]) l.
Proof. unfold least_weight. cbn. by destruct (nominator_weight c x). Qed.

Lemma looked_at_none bounds (c : StakingCore C) len t x accounts seen voters : vote_of c x = None -> 0 < len ->
  looked_at bounds c len t accounts seen voters -> looked_at bounds c len t (x :: accounts) (x :: seen) voters.
Proof.
  intros Ev Hlen (rest & -> & -> & Hstop). exists rest. split; [done |]. cbn. rewrite Ev. split; [done |].
  destruct Hstop as [-> | [[Hfull Hlast] | Hstop]]; [by left | right; left | by right; right].
  split; [done |]. intros y. destruct seen as [| z seen]; [cbn in Hfull; lia |]. apply Hlast.
Qed.

Lemma looked_at_some bounds (c : StakingCore C) len t x v accounts seen voters : vote_of c x = Some v ->
  looked_at bounds c (len - 1) t accounts seen voters -> looked_at bounds c len t (x :: accounts) (x :: seen) (v :: voters).
Proof.
  intros Ev (rest & -> & -> & Hstop). exists rest. split; [done |]. cbn. rewrite Ev. split; [done |].
  destruct Hstop as [-> | [[Hfull Hlast] | Hstop]]; [by left | right; left | by right; right].
  split; [cbn; lia |]. intros y. destruct seen as [| z seen]; [cbn; intros [= <-]; eauto | apply Hlast].
Qed.

Lemma snapshot_loop_run bounds (c : StakingCore C) len limit voters seen a : size_exceeded a = None -> 0 <= seen -> limit <= u32_max ->
  let left := len - Z.of_nat (length (all_voters a)) in
  let accounts := take (Z.to_nat (limit - seen)) voters in
  let vs := take (Z.to_nat left) (omap (vote_of c) accounts) in
  let '(l, t) := fit bounds (voters_tracker a) vs in
  exists p, snapshot_loop bounds c len limit seen voters a =
    {| all_voters := all_voters a ++ l; min_active_stake := least_weight c (min_active_stake a) p; voters_tracker := t;
       size_exceeded := if bool_decide (length l < length vs)%nat then Some (tracker_size t mod 2 ^ 32) else None |} /\
  looked_at bounds c left t accounts p l.
Proof.
  revert seen a. induction voters as [| x voters IH]; intros seen a He Hs Hl; cbv zeta.
  { rewrite take_nil. simpl. rewrite take_nil. simpl. rewrite app_nil_r. exists []. split; [destruct a; simpl in *; by subst |].
    exists []. split; [done |]. split; [done | by left]. }
  cbn [snapshot_loop]. destruct (_ && _) eqn:Ec.
  2: { assert (take (Z.to_nat (len - Z.of_nat (length (all_voters a)))) (omap (vote_of c) (take (Z.to_nat (limit - seen)) (x :: voters))) = []) as ->.
       { apply andb_false_iff in Ec as [Ec | Ec]; apply Z.ltb_ge in Ec.
         - by rewrite Z2Nat.nonpos by lia.
         - rewrite (Z2Nat.nonpos (limit - seen)) by lia. simpl. apply take_nil. }
       simpl. rewrite app_nil_r. exists []. split; [destruct a; simpl in *; by subst |]. eexists. split; [done |]. split; [done |].
       apply andb_false_iff in Ec as [Ec | Ec]; apply Z.ltb_ge in Ec; [right; left; split; [cbn; lia | done] |].
       left. by rewrite (Z2Nat.nonpos (limit - seen)) by lia. }
  apply andb_true_iff in Ec as [Ec1 Ec2]. apply Z.ltb_lt in Ec1, Ec2.
  replace (u32_saturating_add seen 1) with (seen + 1) by (unfold u32_saturating_add; lia).
  replace (Z.to_nat (limit - seen)) with (Datatypes.S (Z.to_nat (limit - (seen + 1)))) by lia.
  rewrite (snapshot_round_run bounds c x a He).
  cbn [take omap list_omap]. change (list_omap _ _ (vote_of c)) with (omap (vote_of c)).
  assert (Hstep := fun a' He' => IH (seen + 1) a' He' ltac:(lia) Hl). clear IH.
  destruct (vote_of c x) as [v |] eqn:Ev.
  2: { match goal with |- context [snapshot_loop _ _ _ _ _ _ ?a'] => specialize (Hstep a' eq_refl) end. cbn [all_voters min_active_stake voters_tracker] in Hstep.
       cbv zeta in Hstep. destruct (fit _ _ _) as [l t]. destruct Hstep as (p & -> & Hp). exists (x :: p). rewrite (least_weight_cons c _ x p). split; [done |].
       apply looked_at_none; [done | lia | done]. }
  replace (Z.to_nat (len - Z.of_nat (length (all_voters a)))) with (Datatypes.S (Z.to_nat (len - Z.of_nat (length (all_voters a)) - 1))) by lia.
  cbn [take fit]. destruct (try_register_voter _ v bounds) as [t |] eqn:Et.
  - match goal with |- context [snapshot_loop _ _ _ _ _ _ ?a'] => specialize (Hstep a' eq_refl) end.
    cbn [all_voters min_active_stake voters_tracker] in Hstep. rewrite length_app in Hstep. cbn [length] in Hstep.
    replace (len - Z.of_nat (length (all_voters a) + 1)) with (len - Z.of_nat (length (all_voters a)) - 1) in Hstep by lia.
    cbv zeta in Hstep. destruct (fit _ _ _) as [l t']. destruct Hstep as (p & -> & Hp). exists (x :: p). rewrite (least_weight_cons c _ x p). split.
    + rewrite <- app_assoc. cbn [length app]. f_equal. erewrite bool_decide_ext; [reflexivity | lia].
    + by apply looked_at_some.
  - rewrite app_nil_r, bool_decide_eq_true_2 by (cbn [length]; lia). exists []. split; [done |].
    eexists. split; [done |]. split; [done |]. right; right. by eexists _, _, _.
Qed.

(** ** The snapshot *)

Definition after_snapshot (least : Z) (voters vs : list Voter) (t : StaticTracker) (c : StakingCore C) : StakingCore C :=
  set_minimum_active_stake (if bool_decide (voters = []) then 0 else least)
    (if bool_decide (length voters < length vs)%nat
     then staking_deposit_event (SnapshotVotersSizeExceeded (tracker_size t mod 2 ^ 32)) c else c).

Lemma snapshot_run bounds s : in_sync s -> NPOS_MAX_ITERATIONS_COEFFICIENT * snapshot_len bounds s <= u32_max ->
  exists order, sl_iter s = Some order /\ NoDup order /\
    (forall x, x ∈ order <-> is_nominator x (core s) = true \/ is_validator x (core s) = true) /\
    Z.of_nat (length order) = sl_count s /\
    let vs := candidates (core s) (snapshot_len bounds s) order in
    let '(voters, t) := fit bounds tracker_start vs in
    exists seen s', get_npos_voters bounds s = (Ok voters, s') /\
      looked_at bounds (core s) (snapshot_len bounds s) t
        (take (Z.to_nat (NPOS_MAX_ITERATIONS_COEFFICIENT * snapshot_len bounds s)) order) seen voters /\
      core s' = after_snapshot (least_weight (core s) u64_max seen) voters vs t (core s) /\ in_sync s'.
Proof.
  intros Hs Hl. destruct (iter_law s) as (order & Eo & Hn & Hlen & Hin); [apply Hs |]. exists order. split; [done |]. split; [done |].
  split; [intros x; by rewrite Hin, (sy_contains _ Hs), orb_true_iff |]. split; [done |]. cbv zeta.
  assert (Hloop := fun limit Hlim => snapshot_loop_run bounds (core s) (snapshot_len bounds s) limit order 0
    {| all_voters := []; min_active_stake := u64_max; voters_tracker := tracker_start; size_exceeded := None |}
    eq_refl ltac:(lia) Hlim).
  specialize (Hloop (NPOS_MAX_ITERATIONS_COEFFICIENT * snapshot_len bounds s) Hl). simpl all_voters in Hloop.
  rewrite !Z.sub_0_r in Hloop. cbn [voters_tracker min_active_stake app] in Hloop. fold (candidates (core s) (snapshot_len bounds s) order) in Hloop.
  cbv zeta in Hloop. destruct (fit _ _ _) as [voters t]. destruct Hloop as (seen & Hloop & Hseen). exists seen.
  unfold get_npos_voters. rewrite (bind_Ok _ _ s (sl_count s) s) by done. fold (snapshot_len bounds s).
  rewrite (bind_Ok _ _ s (core s) s), (bind_Ok _ _ s (Some order) s) by (done || by unfold gets; rewrite Eo).
  rewrite (proj2 (Z.ltb_ge u32_max _)), andb_false_r by done. fold tracker_start. rewrite Hloop. cbn [size_exceeded all_voters min_active_stake].
  unfold after_snapshot. destruct (bool_decide (length voters < _)%nat); (eexists; split; [reflexivity |]);
    rewrite !core_set; (split; [done |]); (split; [done |]); apply (sync_core s); rewrite ?core_set; try done.
  - apply ready_set, ready_set, Hs.
  - apply Hs.
  - intros x. by rewrite !contains_set.
  - apply ready_set, Hs.
  - apply Hs.
  - intros x. by rewrite !contains_set.
Qed.

Lemma fit_prefix bounds t vs : fst (fit bounds t vs) `prefix_of` vs.
Proof.
  revert t. induction vs as [| v vs IH]; intros t; simpl; [done |]. destruct (try_register_voter t v bounds) as [t' |]; [| apply prefix_nil].
  specialize (IH t'). destruct (fit bounds t' vs). by apply prefix_cons.
Qed.

Lemma fit_unbounded bounds t vs : bound_size bounds = None -> fst (fit bounds t vs) = vs.
Proof.
  intros E. revert t. induction vs as [| v vs IH]; intros t; simpl; [done |]. unfold try_register_voter, size_exhausted. rewrite E.
  match goal with |- context [fit bounds ?t' vs] => specialize (IH t'); destruct (fit bounds t' vs) end. simpl in *. by rewrite IH.
Qed.

Definition voter_account (v : Voter) : AccountId := fst (fst v).

Lemma vote_of_account (c : StakingCore C) x v : vote_of c x = Some v -> voter_account v = x.
Proof. unfold vote_of. repeat case_match; intros [= <-]; done. Qed.

Lemma votes_sublist (c : StakingCore C) l : map voter_account (omap (vote_of c) l) `sublist_of` l.
Proof.
  induction l as [| x l IH]; simpl; [done |]. destruct (vote_of c x) as [v |] eqn:E; simpl; [| by apply sublist_cons].
  rewrite (vote_of_account _ _ _ E). by apply sublist_skip.
Qed.

Lemma sublist_map {A B} (f : A -> B) (l k : list A) : l `sublist_of` k -> map f l `sublist_of` map f k.
Proof. induction 1; simpl; by constructor. Qed.

Lemma voters_sublist (c : StakingCore C) len order l : l `prefix_of` candidates c len order -> map voter_account l `sublist_of` order.
Proof.
  intros [k Hk]. transitivity (map voter_account (candidates c len order)); [rewrite Hk; by apply sublist_map, sublist_inserts_r |].
  transitivity (map voter_account (omap (vote_of c) (take (Z.to_nat (NPOS_MAX_ITERATIONS_COEFFICIENT * len)) order))).
  - apply sublist_map, sublist_take.
  - etrans; [apply votes_sublist | apply sublist_take].
Qed.


(** Without bounds the snapshot is the vote of every validator and every nominator with targets that have
    an active stake. *)
Theorem snapshot_complete bounds s : in_sync s -> NPOS_MAX_ITERATIONS_COEFFICIENT * sl_count s <= u32_max ->
  bound_size bounds = None -> sl_count s <= default (sl_count s) (bound_count bounds) ->
  exists order s', sl_iter s = Some order /\ get_npos_voters bounds s = (Ok (omap (vote_of (core s)) order), s') /\
    forall x, (is_nominator x (core s) = true \/ is_validator x (core s) = true) -> weight_of x (core s) <> 0 ->
      (forall n, Nominators (core s) !! x = Some n -> targets n <> []) -> x ∈ map voter_account (omap (vote_of (core s)) order).
Proof.
  intros Hs Hl Eb Hc. assert (El : snapshot_len bounds s = sl_count s) by (unfold snapshot_len; lia).
  destruct (snapshot_run bounds s Hs) as (order & Ho & Hn & Hin & Hlen & Hrun); [by rewrite El |]. cbv zeta in Hrun. rewrite El in Hrun.
  assert (Ec : candidates (core s) (sl_count s) order = omap (vote_of (core s)) order).
  { unfold candidates, NPOS_MAX_ITERATIONS_COEFFICIENT. rewrite (take_ge order) by lia. apply take_ge.
    pose proof (sublist_length _ _ (votes_sublist (core s) order)) as Hsub. rewrite length_map in Hsub. lia. }
  pose proof (fit_unbounded bounds tracker_start (candidates (core s) (sl_count s) order) Eb) as Ef. destruct (fit _ _ _) as [voters t].
  simpl in Ef. subst voters. rewrite Ec in Hrun. destruct Hrun as (seen & s' & Hrun & _). exists order, s'. split; [done |]. split; [done |].
  intros x Hx Hw Ht. assert (exists v, vote_of (core s) x = Some v) as [v Ev].
  { unfold vote_of. rewrite (proj2 (Z.eqb_neq _ _)) by done. unfold is_nominator in Hx. destruct (Nominators (core s) !! x) as [n |]; [rewrite decide_False by (by apply Ht); eauto |].
    destruct Hx as [Hx | ->]; [by apply bool_decide_eq_true in Hx as [] | eauto]. }
  rewrite <- (vote_of_account _ _ _ Ev). apply list_elem_of_fmap_2, list_elem_of_omap. exists x. split; [by apply Hin | done].
Qed.

(** ** Sizes *)

Definition plain_size (v : Voter) : Z := account_size_hint + 8 + account_size_hint * Z.of_nat (length (snd v)).

(** The encoding of a vector of voters: a vector is its compact length and its elements. *)
Definition encoded_size (vs : list Voter) : Z :=
  compact_len (Z.of_nat (length vs)) +
  foldr (fun v n => plain_size v + compact_len (Z.of_nat (length (snd v))) + n) 0 vs.

(** What the tracker adds for the lengths of [n] vectors from the [k]-th on. *)
Fixpoint prefix_bytes (k : Z) (n : nat) : Z :=
  match n with
  | O => 0
  | Datatypes.S n => compact_len (k + 1) + prefix_bytes (k + 1) n
  end.

Definition plain_sizes (vs : list Voter) : Z := foldr (fun v n => plain_size v + n) 0 vs.

Lemma compact_len_pos n : 1 <= compact_len n.
Proof. unfold compact_len. repeat case_match; lia. Qed.

Lemma compact_len_small n : n < 64 -> compact_len n = 1.
Proof. intros Hn. unfold compact_len. by rewrite (proj2 (Z.ltb_lt _ _)) by lia. Qed.

Lemma compact_len_mono n m : n <= m -> compact_len n <= compact_len m.
Proof.
  intros Hn. unfold compact_len.
  destruct (Z.ltb_spec n (2 ^ 6)), (Z.ltb_spec m (2 ^ 6)); try lia; destruct (Z.ltb_spec n (2 ^ 14)), (Z.ltb_spec m (2 ^ 14)); try lia;
    destruct (Z.ltb_spec n (2 ^ 30)), (Z.ltb_spec m (2 ^ 30)); lia.
Qed.

Lemma prefix_bytes_snoc k n : prefix_bytes k (Datatypes.S n) = prefix_bytes k n + compact_len (k + 1 + Z.of_nat n).
Proof.
  revert k. induction n as [| n IH]; intros k; [replace (k + 1 + Z.of_nat 0) with (k + 1) by lia; cbn [prefix_bytes]; lia |].
  change (prefix_bytes k (Datatypes.S (Datatypes.S n))) with (compact_len (k + 1) + prefix_bytes (k + 1) (Datatypes.S n)).
  rewrite IH. cbn [prefix_bytes]. replace (k + 1 + 1 + Z.of_nat n) with (k + 1 + Z.of_nat (Datatypes.S n)) by lia. lia.
Qed.

(** The lengths of the vectors of targets and of the list itself, against those of the tracker. *)
Lemma prefix_bytes_bound n : (0 < n)%nat ->
  Z.of_nat n + compact_len (Z.of_nat n) <= 1 + prefix_bytes 0 n /\
  ((64 < n)%nat -> Z.of_nat n + compact_len (Z.of_nat n) <= prefix_bytes 0 n).
Proof.
  induction n as [| n IH]; [lia |]. intros _. rewrite prefix_bytes_snoc. replace (0 + 1 + Z.of_nat n) with (Z.of_nat (Datatypes.S n)) by lia.
  destruct (decide (n = 0%nat)) as [-> | Hn]; [split; [simpl | lia]; done |]. destruct (IH ltac:(lia)) as [IH1 IH2].
  pose proof (compact_len_pos (Z.of_nat n)). split; [lia |]. intros Hlt. destruct (decide (n = 64%nat)) as [-> |]; [| specialize (IH2 ltac:(lia)); lia].
  vm_compute in IH1. vm_compute. done.
Qed.

Context (Hacc : 0 <= account_size_hint).

Lemma plain_size_pos v : 8 <= plain_size v.
Proof. unfold plain_size. nia. Qed.

(** A voter that the tracker accepts below a bound is counted without saturation. *)
Lemma tracker_register_run b t v t' bounds : bound_size bounds = Some b -> b < u32_max ->
  0 <= tracker_counter t <= tracker_size t -> tracker_size t <= b -> try_register_voter t v bounds = Some t' ->
  tracker_counter t' = tracker_counter t + 1 /\
  tracker_size t' = tracker_size t + plain_size v + compact_len (tracker_counter t + 1) /\ tracker_size t' <= b.
Proof.
  intros Eb Hb Hc Hs. destruct v as [[x w] ts]. unfold try_register_voter, size_exhausted. rewrite Eb.
  unfold final_byte_size_of, voter_size_hint, length_prefix. assert (Hm : (tracker_counter t + 1) mod 2 ^ 32 = tracker_counter t + 1).
  { apply Z.mod_small. unfold u32_max in *. lia. }
  rewrite Hm. pose proof (compact_len_pos (tracker_counter t + 1)). pose proof (plain_size_pos (x, w, ts)). unfold plain_size in *. cbn [snd] in *.
  unfold usize_saturating_add, usize_saturating_mul. set (k := account_size_hint * _) in *.
  assert (0 <= k) by (unfold k; nia). set (size := Z.min _ (compact_len _ + _)).
  rewrite (Z.mod_small size) by (unfold size, u32_max in *; lia).
  destruct (Z.ltb_spec b size) as [| Hle]; [done |]. intros [= <-]. cbn. unfold size in *. lia.
Qed.

Lemma fit_size b bounds vs : bound_size bounds = Some b -> b < u32_max -> forall t,
  0 <= tracker_counter t <= tracker_size t -> tracker_size t <= b ->
  let '(l, t') := fit bounds t vs in
  tracker_size t' = tracker_size t + plain_sizes l + prefix_bytes (tracker_counter t) (length l) /\ tracker_size t' <= b.
Proof.
  intros Eb Hb. induction vs as [| v vs IH]; intros t Hc Hs; [simpl; lia |]. cbn [fit].
  destruct (try_register_voter t v bounds) as [t1 |] eqn:Er; [| simpl; lia].
  destruct (tracker_register_run b t v t1 bounds Eb Hb Hc Hs Er) as (Ec & Es & Hle).
  pose proof (compact_len_pos (tracker_counter t + 1)). pose proof (plain_size_pos v).
  specialize (IH t1 ltac:(lia) Hle). destruct (fit bounds t1 vs) as [l t2]. cbn [length prefix_bytes]. change (plain_sizes (v :: l)) with (plain_size v + plain_sizes l).
  rewrite Ec in IH. lia.
Qed.

Lemma encoded_size_small l : (forall v, v ∈ l -> Z.of_nat (length (snd v)) < 64) ->
  encoded_size l = compact_len (Z.of_nat (length l)) + plain_sizes l + Z.of_nat (length l).
Proof.
  unfold encoded_size. rewrite <- Z.add_assoc. intros Hv. f_equal. induction l as [| v l IH]; [done |].
  cbn [foldr length]. rewrite compact_len_small by (apply Hv; left). rewrite IH by (intros ? ?; apply Hv; by right).
  unfold plain_sizes. cbn [foldr]. lia.
Qed.

(** When votes have less than 64 targets, the encoded snapshot exceeds the bound on its size by at most
    one byte, and not at all when there are more than 64 voters. *)
Theorem snapshot_size bounds b s : in_sync s -> NPOS_MAX_ITERATIONS_COEFFICIENT * snapshot_len bounds s <= u32_max ->
  bound_size bounds = Some b -> 0 <= b < u32_max ->
  (forall x n, Nominators (core s) !! x = Some n -> Z.of_nat (length (targets n)) < 64) ->
  exists voters s', get_npos_voters bounds s = (Ok voters, s') /\ encoded_size voters <= b + 1 /\
    ((64 < length voters)%nat -> encoded_size voters <= b).
Proof.
  intros Hs Hl Eb Hb Ht. destruct (snapshot_run bounds s Hs Hl) as (order & _ & _ & _ & _ & Hrun). cbv zeta in Hrun.
  pose proof (fit_prefix bounds tracker_start (candidates (core s) (snapshot_len bounds s) order)) as Hp.
  pose proof (fit_size b bounds (candidates (core s) (snapshot_len bounds s) order) Eb ltac:(lia) tracker_start ltac:(done) ltac:(simpl; lia)) as Hf.
  destruct (fit _ _ _) as [voters t]. destruct Hrun as (least & s' & Hrun & _). exists voters, s'. split; [done |]. simpl in Hp, Hf.
  assert (Hv : forall v, v ∈ voters -> Z.of_nat (length (snd v)) < 64).
  { intros v Hv. assert (Hc' : v ∈ candidates (core s) (snapshot_len bounds s) order) by (destruct Hp as [k ->]; apply elem_of_app; by left).
    pose proof (elem_of_sublist _ _ _ Hc' (sublist_take _ _)) as Hv'. apply list_elem_of_omap in Hv' as (x & _ & E). unfold vote_of in E.
    destruct (_ =? 0); [done |]. destruct (Nominators (core s) !! x) as [n |] eqn:En; [case_decide; simplify_eq; by eapply Ht |].
    destruct (is_validator _ _); by simplify_eq. }
  rewrite encoded_size_small by done. destruct (decide (voters = [])) as [-> | Hne]; [simpl; unfold plain_sizes; simpl; vm_compute compact_len; lia |].
  assert (0 < length voters)%nat by (destruct voters; [done | simpl; lia]). destruct (prefix_bytes_bound (length voters)) as [H1' H2']; [done |].
  split; [lia |]. intros Hlt. specialize (H2' Hlt). lia.
Qed.

(** The tracker is one byte short: a voter is accepted when its encoding is one byte over the bound. *)
Theorem tracker_one_byte_short v : Z.of_nat (length (snd v)) < 64 -> plain_size v + 1 < u32_max ->
  let bounds := {| bound_count := None; bound_size := Some (plain_size v + 1) |} in
  try_register_voter tracker_start v bounds = Some {| tracker_size := plain_size v + 1; tracker_counter := 1 |} /\
  encoded_size [v] = plain_size v + 2.
Proof.
  intros Hv Hp. cbv zeta. split.
  - pose proof (plain_size_pos v). destruct v as [[x w] ts]. unfold try_register_voter, size_exhausted, final_byte_size_of, voter_size_hint.
    unfold plain_size, usize_saturating_add, usize_saturating_mul, length_prefix in *. cbn [snd tracker_counter tracker_size tracker_start bound_size] in *.
    change (compact_len ((0 + 1) mod 2 ^ 32)) with 1. assert (0 <= account_size_hint * Z.of_nat (length ts)) by nia. set (k := account_size_hint * _) in *.
    rewrite !Z.min_r by lia. rewrite Z.mod_small by (unfold u32_max in *; lia). rewrite (proj2 (Z.ltb_ge _ _)) by lia. do 2 f_equal. lia.
  - unfold encoded_size. cbn [foldr length]. rewrite (compact_len_small (Z.of_nat (length (snd v)))) by done. vm_compute (compact_len _). lia.
Qed.
End snapshot.
