(* ===== verification/BagsList.v ===== *)
(** * The bags list

    [frame/bags-list/src/list/mod.rs] and [lib.rs]: accounts with scores in bags, one per interval between
    thresholds, each bag a doubly linked list in storage.  A [Node] is stored under its account with the
    links to its neighbours, a [Bag] under its upper threshold with the ends of its list.  Functions that
    cannot fail take the storage to the storage; a method on [&mut self] also returns the bag.

    A [ListError] is the [DispatchError] it is converted into, which is injective.  An iterator over a
    bag is the list of its nodes, or [None] when the links run in a circle and it never ends; its fuel is
    one more than the number of nodes stored. *)

From stdpp Require Import base tactics numbers list gmap sorting.
From S2P Require Import Prelude Dispatch System BalancesCalls SortedList.
Local Open Scope Z_scope.

(** ** Data *)

Inductive ListError := Duplicate | NotHeavier | NotInSameBag | NodeNotFound | ListLocked.

(** The error of the pallet; a list error is nested in the first variant. *)
Inductive BagsError := BList (e : ListError) | BLocked.

Definition ListError_index (e : ListError) : Z :=
  match e with
  | Duplicate => 0
  | NotHeavier => 1
  | NotInSameBag => 2
  | NodeNotFound => 3
  | ListLocked => 4
  end.

Record Node := {
  node_id : AccountId;
  node_prev : option AccountId;
  node_next : option AccountId;
  node_bag_upper : Z;
  node_score : Z;
}.

Record Bag := {
  bag_head : option AccountId;
  bag_tail : option AccountId;
  bag_upper : Z;
}.

Inductive BagsEvent :=
  | Rebagged (who : AccountId) (from to : Z)
  | ScoreUpdated (who : AccountId) (new_score : Z).

(** The thresholds are scores; [integrity_test] checks that they increase. *)
Class BagsConfig := {
  BagThresholds : list Z;
  BagsPalletIndex : Z;
}.

(** A stored bag is its two ends, the threshold being the key.  [outside] is the storage of the other
    pallets, which the score provider reads. *)
Record BagsState (W : Type) := {
  ListNodes : gmap AccountId Node;
  CounterForListNodes : Z;
  ListBags : gmap Z (option AccountId * option AccountId);
  ListLock : option unit;
  bags_events : list BagsEvent;
  outside : W;
}.
Arguments ListNodes {W}.
Arguments CounterForListNodes {W}.
Arguments ListBags {W}.
Arguments ListLock {W}.
Arguments bags_events {W}.
Arguments outside {W}.

(** ** Thresholds *)

(** The length of the prefix on which [f] holds, which is what a binary search finds in a slice
    partitioned by [f]. *)
Fixpoint partition_point (f : Z -> bool) (l : list Z) : nat :=
  match l with
  | [] => 0
  | x :: l => if f x then S (partition_point f l) else 0
  end.

Definition notional_bag `{BalanceType} (thresholds : list Z) (score : Z) : Z :=
  let idx := partition_point (fun threshold => threshold <? score) thresholds in
  default max_value (thresholds !! idx).

Definition notional_bag_for `{BalanceType} `{BagsConfig} (score : Z) : Z := notional_bag BagThresholds score.

(** [windows(2).all(|window| window[1] > window[0])] *)
Fixpoint strictly_increasing (l : list Z) : bool :=
  match l with
  | x :: (y :: _) as l' => (x <? y) && strictly_increasing l'
  | _ => true
  end.

Definition integrity_test `{BagsConfig} : bool := strictly_increasing BagThresholds.

(** All the thresholds, the implied last one included. *)
Definition all_thresholds `{BalanceType} `{BagsConfig} : list Z :=
  if decide (last BagThresholds = Some max_value) then BagThresholds else BagThresholds ++ [max_value].

Section bags.
Context {W : Type} `{BalanceType} `{BagsConfig} `{SP : ScoreProvider W}.
Abbreviation State := (BagsState W).

Definition BError (e : BagsError) : DispatchError :=
  ModuleError BagsPalletIndex
    match e with
    | BList e => 256 * ListError_index e
    | BLocked => 1
    end.

(** [u32] addition with overflow checks on. *)
Definition u32_inc (n : Z) : M State Z := if n + 1 <=? u32_max then ret (n + 1) else panic.

(** ** Storage *)

Definition set_nodes (m : gmap AccountId Node) (c : Z) (s : State) : State :=
  Build_BagsState W m c (ListBags s) (ListLock s) (bags_events s) (outside s).
Definition set_bags (m : gmap Z (option AccountId * option AccountId)) (s : State) : State :=
  Build_BagsState W (ListNodes s) (CounterForListNodes s) m (ListLock s) (bags_events s) (outside s).
Definition set_lock (l : option unit) (s : State) : State :=
  Build_BagsState W (ListNodes s) (CounterForListNodes s) (ListBags s) l (bags_events s) (outside s).
Definition bags_deposit_event (e : BagsEvent) (s : State) : State :=
  Build_BagsState W (ListNodes s) (CounterForListNodes s) (ListBags s) (ListLock s) (bags_events s ++ [e]) (outside s).

(** The map of nodes counts its entries. *)
Definition counted_insert (k : AccountId) (v : Node) (s : State) : State :=
  let count := CounterForListNodes s in
  let count := if bool_decide (is_Some (ListNodes s !! k)) then count else u32_saturating_add count 1 in
  set_nodes (<[k := v]> (ListNodes s)) count s.

Definition counted_remove (k : AccountId) (s : State) : State :=
  let count := CounterForListNodes s in
  let count := if bool_decide (is_Some (ListNodes s !! k)) then saturating_sub count 1 else count in
  set_nodes (delete k (ListNodes s)) count s.

Definition counted_remove_all (s : State) : State := set_nodes ∅ 0 s.

(** ** Nodes *)

Definition node_get (id : AccountId) (s : State) : option Node := ListNodes s !! id.

Definition node_put (self : Node) (s : State) : State := counted_insert (node_id self) self s.

Definition prev_node (self : Node) (s : State) : option Node := node_prev self ≫= fun id => node_get id s.
Definition next_node (self : Node) (s : State) : option Node := node_next self ≫= fun id => node_get id s.

Definition set_prev (p : option AccountId) (n : Node) : Node :=
  {| node_id := node_id n; node_prev := p; node_next := node_next n; node_bag_upper := node_bag_upper n;
     node_score := node_score n |}.
Definition set_next (x : option AccountId) (n : Node) : Node :=
  {| node_id := node_id n; node_prev := node_prev n; node_next := x; node_bag_upper := node_bag_upper n;
     node_score := node_score n |}.
Definition set_bag_upper (b : Z) (n : Node) : Node :=
  {| node_id := node_id n; node_prev := node_prev n; node_next := node_next n; node_bag_upper := b;
     node_score := node_score n |}.
Definition set_score (v : Z) (n : Node) : Node :=
  {| node_id := node_id n; node_prev := node_prev n; node_next := node_next n;
     node_bag_upper := node_bag_upper n; node_score := v |}.

Definition excise (self : Node) (s : State) : State :=
  let s := match prev_node self s with
           | Some prev => node_put (set_next (node_next self) prev) s
           | None => s
           end in
  match next_node self s with
  | Some next => node_put (set_prev (node_prev self) next) s
  | None => s
  end.

Definition remove_from_storage_unchecked (self : Node) (s : State) : State := counted_remove (node_id self) s.

Definition is_misplaced (self : Node) (current_score : Z) : bool :=
  negb (notional_bag_for current_score =? node_bag_upper self).

Definition is_terminal (self : Node) : bool :=
  bool_decide (node_prev self = None) || bool_decide (node_next self = None).

(** ** Bags *)

Definition bag_get (upper : Z) (s : State) : option Bag :=
  (fun ends => {| bag_head := fst ends; bag_tail := snd ends; bag_upper := upper |}) <$> ListBags s !! upper.

Definition bag_get_or_make (upper : Z) (s : State) : Bag :=
  default {| bag_head := None; bag_tail := None; bag_upper := upper |} (bag_get upper s).

Definition bag_is_empty (self : Bag) : bool :=
  bool_decide (bag_head self = None) && bool_decide (bag_tail self = None).

Definition bag_put (self : Bag) (s : State) : State :=
  if bag_is_empty self then set_bags (delete (bag_upper self) (ListBags s)) s
  else set_bags (<[bag_upper self := (bag_head self, bag_tail self)]> (ListBags s)) s.

Definition head_node (self : Bag) (s : State) : option Node := bag_head self ≫= fun id => node_get id s.
Definition tail_node (self : Bag) (s : State) : option Node := bag_tail self ≫= fun id => node_get id s.

(** [core::iter::successors] *)
Fixpoint successors (fuel : nat) (first : option Node) (next : Node -> option Node) : option (list Node) :=
  match first with
  | None => Some []
  | Some n =>
      match fuel with
      | O => None
      | S fuel => cons n <$> successors fuel (next n) next
      end
  end.

Definition iter_fuel (s : State) : nat := S (size (ListNodes s)).

Definition bag_iter (self : Bag) (s : State) : option (list Node) :=
  successors (iter_fuel s) (head_node self s) (fun prev => next_node prev s).

Definition insert_node_unchecked (self : Bag) (node : Node) (s : State) : Bag * State :=
  if bool_decide (bag_tail self = Some (node_id node)) then (self, s)
  else
    let node := set_bag_upper (bag_upper self) node in
    let id := node_id node in
    let node := set_next None (set_prev (bag_tail self) node) in
    let s := node_put node s in
    let s := match tail_node self s with
             | Some old_tail => node_put (set_next (Some id) old_tail) s
             | None => s
             end in
    ({| bag_head := match bag_head self with Some h => Some h | None => Some id end;
        bag_tail := Some id; bag_upper := bag_upper self |}, s).

Definition insert_unchecked (self : Bag) (id : AccountId) (score : Z) (s : State) : Bag * State :=
  insert_node_unchecked self
    {| node_id := id; node_prev := None; node_next := None; node_bag_upper := 0; node_score := score |} s.

Definition remove_node_unchecked (self : Bag) (node : Node) (s : State) : Bag * State :=
  let s := excise node s in
  let tail := if bool_decide (bag_tail self = Some (node_id node)) then node_prev node else bag_tail self in
  let head := if bool_decide (bag_head self = Some (node_id node)) then node_next node else bag_head self in
  ({| bag_head := head; bag_tail := tail; bag_upper := bag_upper self |}, s).

(** ** The list *)

Definition unsafe_clear (s : State) : State := counted_remove_all (set_bags ∅ s).

Definition list_contains (id : AccountId) (s : State) : bool := bool_decide (is_Some (ListNodes s !! id)).

Definition get_score (id : AccountId) : M State Z :=
  node <- gets (node_get id) ;;
  ok_or (node_score <$> node) (BError (BList NodeNotFound)).

(** The nodes of the bags with the given thresholds, bag by bag. *)
Definition iter_bags (thresholds : list Z) (s : State) : option (list Node) :=
  mjoin <$> mapM (fun bag => bag_iter bag s) (omap (fun t => bag_get t s) thresholds).

Definition list_iter (s : State) : option (list Node) := iter_bags (rev all_thresholds) s.

Definition list_iter_from (start : AccountId) : M State (option (list Node)) :=
  node <- gets (node_get start) ;;
  start_node <- ok_or node (BError (BList NodeNotFound)) ;;
  gets (fun s =>
    let start_node_upper := node_bag_upper start_node in
    let start_bag := successors (iter_fuel s) (next_node start_node s) (fun prev => next_node prev s) in
    let idx := partition_point (fun threshold => threshold <? start_node_upper) BagThresholds in
    let leftover_bags := iter_bags (rev (take idx BagThresholds)) s in
    rest ← start_bag; lower ← leftover_bags; Some (rest ++ lower)).

Definition list_insert (id : AccountId) (score : Z) : M State unit :=
  contains <- gets (list_contains id) ;;
  if contains : bool then fail (BError (BList Duplicate))
  else modify (fun s =>
    let bag_score := notional_bag_for score in
    let bag := bag_get_or_make bag_score s in
    let '(bag, s) := insert_unchecked bag id score s in
    bag_put bag s).

Fixpoint insert_many (ids : list AccountId) (score_of : AccountId -> option Z) (count : Z) : M State Z :=
  match ids with
  | [] => ret count
  | v :: ids =>
      match score_of v with
      | Some score =>
          inserted <- try (list_insert v score) ;;
          count <- match inserted with
                   | inl _ => u32_inc count
                   | inr _ => ret count
                   end ;;
          insert_many ids score_of count
      | None => insert_many ids score_of count
      end
  end.

(** The bags touched so far are kept in a map and written at the end, in the order of their keys. *)
Fixpoint remove_many_loop (ids : list AccountId) (bags : gmap Z Bag) (count : Z) : M State (gmap Z Bag * Z) :=
  match ids with
  | [] => ret (bags, count)
  | id :: ids =>
      node <- gets (node_get id) ;;
      match node with
      | None => remove_many_loop ids bags count
      | Some node =>
          count <- u32_inc count ;;
          bags <- (if negb (is_terminal node) then do modify (excise node) ;; ret bags
                   else
                     bag <- gets (fun s => default (bag_get_or_make (node_bag_upper node) s)
                                              (bags !! node_bag_upper node)) ;;
                     fun s =>
                       let '(bag, s) := remove_node_unchecked bag node s in
                       (Ok (<[node_bag_upper node := bag]> bags), s)) ;;
          do modify (remove_from_storage_unchecked node) ;;
          remove_many_loop ids bags count
      end
  end.

Definition key_le (p q : Z * Bag) : Prop := fst p <= fst q.

#[export] Instance key_le_dec : RelDecision key_le.
Proof. intros p q. apply Z_le_dec. Defined.

Definition put_all (bags : gmap Z Bag) (s : State) : State :=
  foldl (fun s p => bag_put (snd p) s) s (merge_sort key_le (map_to_list bags)).

Definition remove_many (ids : list AccountId) : M State Z :=
  '(bags, count) <- remove_many_loop ids ∅ 0 ;;
  do modify (put_all bags) ;;
  ret count.

Definition list_remove (id : AccountId) : M State unit :=
  contains <- gets (list_contains id) ;;
  if contains : bool then do remove_many [id] ;; ret tt
  else fail (BError (BList NodeNotFound)).

Definition unsafe_regenerate (all : list AccountId) (score_of : AccountId -> option Z) : M State Z :=
  do modify unsafe_clear ;;
  insert_many all score_of 0.

Definition update_position_for (node : Node) (new_score : Z) (s : State) : option (Z * Z) * State :=
  let node := set_score new_score node in
  if is_misplaced node new_score then
    let old_bag_upper := node_bag_upper node in
    let s :=
      if negb (is_terminal node) then excise node s
      else match bag_get (node_bag_upper node) s with
           | Some bag => let '(bag, s) := remove_node_unchecked bag node s in bag_put bag s
           | None => s
           end in
    let new_bag_upper := notional_bag_for new_score in
    let bag := bag_get_or_make new_bag_upper s in
    let '(bag, s) := insert_node_unchecked bag node s in
    (Some (old_bag_upper, new_bag_upper), bag_put bag s)
  else (None, node_put node s).

(** The [expect] on the bag of [at_node] is the only panic. *)
Definition insert_at_unchecked (at_node node : Node) : M State unit :=
  let node := set_prev (node_prev at_node) node in
  do modify (fun s => match prev_node at_node s with
                      | Some prev => node_put (set_next (Some (node_id node)) prev) s
                      | None => s
                      end) ;;
  let node := set_next (Some (node_id at_node)) node in
  let at_node := set_prev (Some (node_id node)) at_node in
  do (if is_terminal node then
        bag <- gets (bag_get (node_bag_upper at_node)) ;;
        match bag with
        | None => panic
        | Some bag =>
            let bag := if bool_decide (node_prev node = None)
                       then {| bag_head := Some (node_id node); bag_tail := bag_tail bag; bag_upper := bag_upper bag |}
                       else bag in
            modify (bag_put bag)
        end
      else ret tt) ;;
  do modify (node_put at_node) ;;
  modify (node_put node).

(** [None < Some(_)] *)
Definition score_gt (a b : option Z) : bool :=
  match a, b with
  | Some a, Some b => b <? a
  | Some _, None => true
  | None, _ => false
  end.

Definition list_put_in_front_of (lighter_id heavier_id : AccountId) : M State unit :=
  lighter <- gets (node_get lighter_id) ;;
  lighter_node <- ok_or lighter (BError (BList NodeNotFound)) ;;
  heavier <- gets (node_get heavier_id) ;;
  heavier_node <- ok_or heavier (BError (BList NodeNotFound)) ;;
  do ensure (node_bag_upper lighter_node =? node_bag_upper heavier_node) (BError (BList NotInSameBag)) ;;
  w <- gets outside ;;
  do ensure (score_gt (score heavier_id w) (score lighter_id w)) (BError (BList NotHeavier)) ;;
  do try (list_remove heavier_id) ;;
  lighter <- gets (node_get lighter_id) ;;
  lighter_node <- ok_or lighter (BError (BList NodeNotFound)) ;;
  insert_at_unchecked lighter_node heavier_node.

(** ** Migration to other thresholds *)

(** A [BTreeSet] iterates in increasing order. *)
Definition BTreeSet_Z (l : list Z) : list Z := merge_sort Z.le (remove_dups l).
Definition BTreeSet_N (l : list AccountId) : list AccountId := merge_sort N.le (remove_dups l).

(** The accounts of a bag; an endless iteration gives no result. *)
Definition bag_members (upper : Z) : M State (list AccountId) := fun s =>
  match bag_get upper s with
  | None => (Ok [], s)
  | Some bag =>
      match bag_iter bag s with
      | Some nodes => (Ok (map node_id nodes), s)
      | None => (Panic, s)
      end
  end.

(** One loop of the migration: visit each bag once and collect its accounts. *)
Fixpoint collect_bags (uppers : list Z) (seen : list Z) (accounts : list AccountId) :
    M State (list Z * list AccountId) :=
  match uppers with
  | [] => ret (seen, accounts)
  | upper :: uppers =>
      if bool_decide (upper ∈ seen) then collect_bags uppers seen accounts
      else
        members <- bag_members upper ;;
        collect_bags uppers (upper :: seen) (accounts ++ members)
  end.

Definition migrate (old_thresholds : list Z) : M State Z :=
  let new_thresholds := BagThresholds in
  if bool_decide (new_thresholds = old_thresholds) then ret 0
  else
    let old_set := BTreeSet_Z old_thresholds in
    let new_set := BTreeSet_Z new_thresholds in
    let new_bags := filter (fun t => t ∉ old_set) new_set in
    '(affected_old_bags, affected) <- collect_bags (notional_bag old_thresholds <$> new_bags) [] [] ;;
    let removed_bags := filter (fun t => t ∉ new_set) old_set in
    '(_, affected) <- collect_bags removed_bags affected_old_bags affected ;;
    let affected_accounts := BTreeSet_N affected in
    let num_affected := Z.of_nat (length affected_accounts) mod 2 ^ 32 in
    w <- gets outside ;;
    do remove_many affected_accounts ;;
    do insert_many affected_accounts (fun id => score id w) 0 ;;
    do modify (fun s => foldl (fun s removed_bag => set_bags (delete removed_bag (ListBags s)) s) s removed_bags) ;;
    ret num_affected.

(** ** Self checks *)

(** [iter.all(|id| seen.insert(id))]: an endless iteration meets an account again. *)
Definition ids_unique (nodes : option (list Node)) : bool :=
  match nodes with
  | Some nodes => bool_decide (NoDup (map node_id nodes))
  | None => false
  end.

Definition bag_do_try_state (self : Bag) (s : State) : bool :=
  match head_node self s with
  | Some head => bool_decide (prev_node head s = None)
  | None => bool_decide (bag_tail self = None)
  end &&
  match tail_node self s with
  | Some tail => bool_decide (next_node tail s = None)
  | None => bool_decide (bag_head self = None)
  end &&
  ids_unique (bag_iter self s).

Definition node_do_try_state (self : Node) (s : State) : bool :=
  match bag_get (node_bag_upper self) s with
  | None => false
  | Some expected_bag =>
      let id := node_id self in
      let non_terminal_check := negb (is_terminal self) && bool_decide (bag_head expected_bag <> Some id) &&
                                bool_decide (bag_tail expected_bag <> Some id) in
      let terminal_check := bool_decide (bag_head expected_bag = Some id) || bool_decide (bag_tail expected_bag = Some id) in
      non_terminal_check || terminal_check
  end.

Definition as_u32 (n : nat) : Z := Z.of_nat n mod 2 ^ 32.

Definition get_bags (s : State) : option (list (Z * list AccountId)) :=
  let active_bags : list Bag := omap (fun t => bag_get t s) all_thresholds in
  mapM (M := option) (fun bag => nodes ← bag_iter bag s; Some (bag_upper bag, map node_id nodes)) active_bags.

(** Whether all checks pass.  The bags are only collected after their iteration has been seen to end. *)
Definition do_try_state (s : State) : bool :=
  let nodes := list_iter s in
  let iter_count := as_u32 (length (default [] nodes)) in
  let stored_count := CounterForListNodes s in
  let nodes_count := as_u32 (size (ListNodes s)) in
  let active_bags : list Bag := omap (fun t => bag_get t s) all_thresholds in
  let bags := default [] (get_bags s) in
  let bags_map : gmap Z (list AccountId) := list_to_map bags in
  let nodes_in_bags_count := foldl (fun acc b => acc + as_u32 (length (snd b))) 0 bags in
  ids_unique nodes && (iter_count =? stored_count) && (stored_count =? nodes_count) &&
  forallb (fun b => bag_do_try_state b s) active_bags &&
  (nodes_count =? nodes_in_bags_count) &&
  forallb (fun p =>
    match bags_map !! node_bag_upper (snd p) with
    | None => false
    | Some expected_bag => bool_decide (node_id (snd p) ∈ expected_bag) && node_do_try_state (snd p) s
    end) (map_to_list (ListNodes s)).

(** ** The pallet *)

Definition ensure_unlocked : M State unit :=
  lock <- gets ListLock ;;
  match lock with
  | None => ret tt
  | Some tt => fail (BError (BList ListLocked))
  end.

Definition do_rebag (account : AccountId) (new_score : Z) : M State (option (Z * Z)) :=
  node <- gets (node_get account) ;;
  node <- ok_or node (BError (BList NodeNotFound)) ;;
  fun s =>
    let '(maybe_movement, s) := update_position_for node new_score s in
    let s := match maybe_movement with
             | Some (from, to) => bags_deposit_event (Rebagged account from to) s
             | None => s
             end in
    (Ok maybe_movement, bags_deposit_event (ScoreUpdated account new_score) s).

Definition bags_on_insert (id : AccountId) (score : Z) : M State unit :=
  do ensure_unlocked ;; list_insert id score.

Definition bags_on_update (id : AccountId) (new_score : Z) : M State unit :=
  do ensure_unlocked ;; do do_rebag id new_score ;; ret tt.

Definition bags_on_remove (id : AccountId) : M State unit :=
  do ensure_unlocked ;; list_remove id.

Definition bags_range : Z * Z := (default 0 (head BagThresholds), default 0 (last BagThresholds)).

#[export] Instance BagsList : SortedListProvider State := {
  sl_iter s := map node_id <$> list_iter s;
  sl_lock := set_lock (Some tt);
  sl_unlock := set_lock None;
  sl_iter_from start := nodes <- list_iter_from start ;; ret (map node_id <$> nodes);
  sl_count := CounterForListNodes;
  sl_contains := list_contains;
  on_insert := bags_on_insert;
  on_update := bags_on_update;
  sl_get_score := get_score;
  on_remove := bags_on_remove;
  sl_unsafe_regenerate := unsafe_regenerate;
  sl_unsafe_clear := unsafe_clear;
}.

(** The score the list knows of, which makes the pallet a score provider itself. *)
Definition bags_score (id : AccountId) (s : State) : option Z := node_score <$> node_get id s.

Definition scores (who : AccountId) (s : State) : option Z * option Z := (bags_score who s, score who (outside s)).

(** [ensure_unlocked().map_err(|_| Error::Locked)?] *)
Definition ensure_unlocked_call : M State unit :=
  r <- try ensure_unlocked ;;
  match r with
  | inl _ => ret tt
  | inr _ => fail (BError BLocked)
  end.

Definition rebag (origin : RawOrigin) (dislocated : MultiAddress) : M State unit :=
  with_storage_layer (
    do ensure_signed origin ;;
    dislocated <- lookup_address dislocated ;;
    do ensure_unlocked_call ;;
    existed <- gets (list_contains dislocated) ;;
    w <- gets outside ;;
    match existed, score dislocated w with
    | true, Some current_score => do do_rebag dislocated current_score ;; ret tt
    | false, Some current_score => bags_on_insert dislocated current_score
    | true, None => bags_on_remove dislocated
    | false, None => fail (BError (BList NodeNotFound))
    end).

Definition put_in_front_of (origin : RawOrigin) (lighter : MultiAddress) : M State unit :=
  with_storage_layer (
    heavier <- ensure_signed origin ;;
    lighter <- lookup_address lighter ;;
    do ensure_unlocked_call ;;
    list_put_in_front_of lighter heavier).

Definition put_in_front_of_other (origin : RawOrigin) (heavier lighter : MultiAddress) : M State unit :=
  with_storage_layer (
    do ensure_signed origin ;;
    lighter <- lookup_address lighter ;;
    heavier <- lookup_address heavier ;;
    do ensure_unlocked_call ;;
    list_put_in_front_of lighter heavier).
End bags.
