(* ===== verification/BagsLinks.v ===== *)
(** * Linked bags as lists

    The abstract state of the bags list is a [Ranking]: the accounts of every bag in order and their
    scores.  [linked] says that the stored nodes are exactly the doubly linked lists of a ranking, except
    for at most one account that is being moved.  The lemmas give the effect on the lists of cutting a
    node out, appending one and putting one in front of another. *)

From stdpp Require Import base tactics numbers list gmap sorting.
From S2P Require Import Prelude Dispatch System BalancesCalls SortedList BagsList.
Local Open Scope Z_scope.

(** ** Lists *)

Section lists.
Context {A : Type}.

(** Where an element of a concatenation is. *)
Lemma app_split (l1 l2 a c : list A) y : l1 ++ l2 = a ++ y :: c ->
  (exists d, l1 = a ++ y :: d /\ c = d ++ l2) \/ (exists d, a = l1 ++ d /\ l2 = d ++ y :: c).
Proof.
  intros E. apply app_eq_inv in E as [(k & -> & E) | (k & -> & ->)]; [| by right; exists k].
  destruct k as [| z k]; simpl in E.
  - right. exists []. by rewrite !app_nil_r.
  - left. injection E as -> ->. by exists k.
Qed.

Lemma head_app_ne (d l : list A) : d <> [] -> head (d ++ l) = head d.
Proof. by destruct d. Qed.

Lemma last_app_ne (d l : list A) : l <> [] -> last (d ++ l) = last l.
Proof. intros Hl. rewrite last_app. destruct l as [| x l] using rev_ind; [done | by rewrite last_snoc]. Qed.

Lemma last_elem (l : list A) x : last l = Some x -> x ∈ l.
Proof. intros [l' ->]%last_Some. apply elem_of_app. right. by left. Qed.

Lemma head_elem (l : list A) x : head l = Some x -> x ∈ l.
Proof. destruct l; intros; simplify_eq/=. by left. Qed.

Lemma split_unique (a c a' c' : list A) y :
  NoDup (a ++ y :: c) -> a ++ y :: c = a' ++ y :: c' -> a = a' /\ c = c'.
Proof.
  intros Hn E. rewrite E in Hn. symmetry in E. apply app_split in E as [(d & -> & ->) | (d & -> & E)].
  - apply NoDup_app in Hn as (Hn & Hd & _). apply NoDup_app in Hn as (_ & Hn & _).
    exfalso. apply (Hd y); [| by left]. apply elem_of_app. right. by left.
  - destruct d as [| z d]; simplify_eq/=; [by rewrite app_nil_r |].
    apply NoDup_app in Hn as (_ & _ & Hn). apply NoDup_cons in Hn as [Hn _]. exfalso. apply Hn.
    apply elem_of_app. right. by left.
Qed.
End lists.

(** The stored ends of a list. *)
Definition ends (l : list AccountId) : option (option AccountId * option AccountId) :=
  match l with
  | [] => None
  | _ => Some (head l, last l)
  end.

Definition set_members (b : Z) (l : list AccountId) (mem : Z -> list AccountId) : Z -> list AccountId :=
  fun b' => if decide (b' = b) then l else mem b'.

Definition set_points (x : AccountId) (v : Z) (pts : AccountId -> Z) : AccountId -> Z :=
  fun y => if decide (y = x) then v else pts y.

Lemma set_members_eq b l mem : set_members b l mem b = l.
Proof. unfold set_members. by rewrite decide_True. Qed.

Lemma set_members_ne b l mem b' : b' <> b -> set_members b l mem b' = mem b'.
Proof. intros. unfold set_members. by rewrite decide_False. Qed.

Lemma set_points_eq x v pts : set_points x v pts x = v.
Proof. unfold set_points. by rewrite decide_True. Qed.

Lemma set_points_ne x v pts y : y <> x -> set_points x v pts y = pts y.
Proof. intros. unfold set_points. by rewrite decide_False. Qed.

(** The node of [x] between [l1] and [l2]. *)
Definition node_between (l1 : list AccountId) (x : AccountId) (l2 : list AccountId) (b v : Z) : Node :=
  {| node_id := x; node_prev := last l1; node_next := head l2; node_bag_upper := b; node_score := v |}.

Record linked (hole : option AccountId) (m : gmap AccountId Node) (mem : Z -> list AccountId)
    (pts : AccountId -> Z) : Prop := {
  ln_nodup b : NoDup (mem b);
  ln_node b l1 x l2 : mem b = l1 ++ x :: l2 -> m !! x = Some (node_between l1 x l2 b (pts x));
  ln_in x nd : m !! x = Some nd -> hole = Some x \/ x ∈ mem (node_bag_upper nd);
  ln_hole x b : hole = Some x -> x ∉ mem b;
}.

Section linked.
Context {hole : option AccountId} {m : gmap AccountId Node} {mem : Z -> list AccountId} {pts : AccountId -> Z}.
Hypothesis L : linked hole m mem pts.

Lemma linked_elem b x : x ∈ mem b -> exists l1 l2, mem b = l1 ++ x :: l2 /\
  m !! x = Some (node_between l1 x l2 b (pts x)).
Proof. intros (l1 & l2 & E)%list_elem_of_split. exists l1, l2. split; [done | by apply L]. Qed.

Lemma linked_disjoint x b b' : x ∈ mem b -> x ∈ mem b' -> b = b'.
Proof.
  intros (l1 & l2 & _ & E1)%linked_elem (k1 & k2 & _ & E2)%linked_elem. rewrite E1 in E2. by simplify_eq.
Qed.

(** A stored node determines its place. *)
Lemma linked_lookup x nd : m !! x = Some nd -> hole <> Some x -> exists l1 l2,
  mem (node_bag_upper nd) = l1 ++ x :: l2 /\ nd = node_between l1 x l2 (node_bag_upper nd) (pts x).
Proof.
  intros E Hh. destruct (ln_in _ _ _ _ L x nd E) as [? | Hx]; [done |].
  destruct (linked_elem _ _ Hx) as (l1 & l2 & El & En). exists l1, l2. split; [done |]. congruence.
Qed.

Lemma linked_absent x b : m !! x = None -> x ∉ mem b.
Proof. intros E (l1 & l2 & _ & E')%linked_elem. congruence. Qed.

Lemma linked_iff x b nd : m !! x = Some nd -> hole <> Some x -> x ∈ mem b <-> node_bag_upper nd = b.
Proof.
  intros E Hh. split.
  - intros (l1 & l2 & _ & E')%linked_elem. rewrite E in E'. by simplify_eq.
  - intros <-. by destruct (ln_in _ _ _ _ L x nd E).
Qed.
End linked.

(** An absent account can be taken as the hole and back. *)
Lemma linked_open m mem pts x : linked None m mem pts -> m !! x = None -> linked (Some x) m mem pts.
Proof.
  intros L E. split; [apply L | apply L | |].
  - intros y nd Ey. right. by destruct (ln_in _ _ _ _ L y nd Ey).
  - intros y b [= <-]. by apply (linked_absent L).
Qed.

Lemma linked_close m mem pts x : linked (Some x) m mem pts -> linked None (delete x m) mem pts.
Proof.
  intros L. assert (Hx : forall b, x ∉ mem b) by (intros b; by apply (ln_hole _ _ _ _ L)). split; [apply L | | | done].
  - intros b l1 y l2 E. rewrite lookup_delete_ne; [by apply L |].
    intros ->. apply (Hx b). rewrite E. apply elem_of_app. right. by left.
  - intros y nd [Hne E]%lookup_delete_Some. right.
    destruct (ln_in _ _ _ _ L y nd E) as [? |]; [congruence | done].
Qed.

(** ** Cutting a node out *)

Definition on_key (k : option AccountId) (f : Node -> Node) (m : gmap AccountId Node) : gmap AccountId Node :=
  match k with
  | Some k => alter f k m
  | None => m
  end.

Definition unlink (l1 l2 : list AccountId) (m : gmap AccountId Node) : gmap AccountId Node :=
  on_key (head l2) (set_prev (last l1)) (on_key (last l1) (set_next (head l2)) m).

Lemma on_key_ne k f m y : k <> Some y -> on_key k f m !! y = m !! y.
Proof. destruct k as [k |]; [| done]. intros Hne. apply lookup_alter_ne. congruence. Qed.

Lemma on_key_eq f m y : on_key (Some y) f m !! y = f <$> m !! y.
Proof. apply lookup_alter_eq. Qed.

Lemma on_key_size k f m : size (on_key k f m) = size m.
Proof. destruct k as [k |]; [| done]. simpl. by rewrite <- !size_dom, dom_alter_L. Qed.

Lemma unlink_lookup l1 x l2 m mem pts b a y c : linked None m mem pts -> mem b = l1 ++ x :: l2 ->
  l1 ++ l2 = a ++ y :: c -> unlink l1 l2 m !! y = Some (node_between a y c b (pts y)).
Proof.
  intros L E Es. pose proof (ln_nodup _ _ _ _ L b) as Hn. rewrite E in Hn.
  apply NoDup_app in Hn as (Hn1 & Hd & Hn2). apply NoDup_cons in Hn2 as [Hx2 Hn2].
  unfold unlink. apply app_split in Es as [(d & -> & ->) | (d & -> & ->)].
  - assert (Hy : y ∈ a ++ y :: d) by (apply elem_of_app; right; by left).
    rewrite on_key_ne by (intros Hh%head_elem; apply (Hd y Hy); by right).
    assert (Em := ln_node _ _ _ _ L b a y (d ++ x :: l2)). rewrite <- app_assoc in E. specialize (Em E).
    destruct d as [| z d].
    + rewrite last_snoc, on_key_eq, Em. done.
    + rewrite on_key_ne, Em; [done |]. rewrite last_app_ne, last_cons_cons by done. intros Hl%last_elem.
      apply NoDup_app in Hn1 as (_ & _ & Hn1). by apply NoDup_cons in Hn1 as [? _].
  - assert (Em := ln_node _ _ _ _ L b (l1 ++ x :: d) y c). rewrite <- app_assoc in Em. specialize (Em E).
    assert (Hp : last l1 <> Some y).
    { intros Hl%last_elem. apply (Hd y Hl). right. apply elem_of_app. right. by left. }
    destruct d as [| z d]; cbn [app head].
    + rewrite on_key_eq, on_key_ne by done. rewrite Em. unfold node_between, set_prev. simpl. by rewrite app_nil_r.
    + rewrite !on_key_ne; [| done |].
      * rewrite Em. unfold node_between. by rewrite !last_app_ne, last_cons_cons by done.
      * intros [= ->]. apply NoDup_cons in Hn2 as [Hn2 _]. apply Hn2. apply elem_of_app. right. by left.
Qed.

Lemma unlink_other l1 l2 m y : y ∉ l1 ++ l2 -> unlink l1 l2 m !! y = m !! y.
Proof.
  intros Hy. rewrite elem_of_app in Hy. unfold unlink. rewrite !on_key_ne; [done | |].
  - intros ?%last_elem. tauto.
  - intros ?%head_elem. tauto.
Qed.

Lemma unlink_linked m mem pts b l1 x l2 : linked None m mem pts -> mem b = l1 ++ x :: l2 ->
  linked (Some x) (unlink l1 l2 m) (set_members b (l1 ++ l2) mem) pts /\ unlink l1 l2 m !! x = m !! x.
Proof.
  intros L E. pose proof (ln_nodup _ _ _ _ L b) as Hn. rewrite E in Hn.
  assert (Hx : x ∉ l1 ++ l2).
  { apply NoDup_app in Hn as (_ & Hd & Hn2). apply NoDup_cons in Hn2 as [Hx2 _].
    rewrite elem_of_app. intros [Hx | Hx]; [| done]. apply (Hd x Hx). by left. }
  assert (Hxb : x ∈ mem b) by (rewrite E; apply elem_of_app; right; by left).
  assert (Hsub : forall y, y ∈ l1 ++ l2 -> y ∈ mem b).
  { intros y. rewrite E, !elem_of_app, elem_of_cons. tauto. }
  split; [| by apply unlink_other]. split.
  - intros b'. unfold set_members. destruct (decide (b' = b)); [| apply L].
    apply NoDup_app in Hn as (Hn1 & Hd & Hn2). apply NoDup_cons in Hn2 as [_ Hn2].
    apply NoDup_app. split; [done |]. split; [| done]. intros y Hy Hy2. apply (Hd y Hy). by right.
  - intros b' a y c. unfold set_members. destruct (decide (b' = b)) as [-> | Hne]; intros Ey.
    + by eapply unlink_lookup.
    + rewrite unlink_other; [by apply L |]. intros Hy%Hsub. apply Hne. apply (linked_disjoint L y); [| done].
      rewrite Ey. apply elem_of_app. right. by left.
  - intros y nd Ey. destruct (decide (y = x)) as [-> |]; [by left |]. right.
    destruct (decide (y ∈ l1 ++ l2)) as [Hy | Hy].
    + pose proof Hy as (a & c & Es)%list_elem_of_split. rewrite (unlink_lookup l1 x l2 m mem pts b a y c) in Ey by done.
      simplify_eq/=. by rewrite set_members_eq.
    + rewrite unlink_other in Ey by done. destruct (ln_in _ _ _ _ L y nd Ey) as [? | Hin]; [done |].
      rewrite set_members_ne; [done |]. intros Eb. rewrite Eb, E in Hin. apply Hy.
      rewrite elem_of_app in Hin. rewrite elem_of_app. set_solver.
  - intros y b' [= <-]. unfold set_members. destruct (decide (b' = b)) as [-> | Hne]; [done |].
    intros Hx'. apply Hne. by apply (linked_disjoint L x).
Qed.

(** ** Putting a node in *)

Definition link (l1 : list AccountId) (x : AccountId) (l2 : list AccountId) (b v : Z) (m : gmap AccountId Node) :
    gmap AccountId Node :=
  <[x := node_between l1 x l2 b v]> (on_key (head l2) (set_prev (Some x)) (on_key (last l1) (set_next (Some x)) m)).

Lemma link_other l1 x l2 b v m y : y <> x -> y ∉ l1 ++ l2 -> link l1 x l2 b v m !! y = m !! y.
Proof.
  intros Hne Hy. rewrite elem_of_app in Hy. unfold link. rewrite lookup_insert_ne by done.
  rewrite !on_key_ne; [done | |].
  - intros ?%last_elem. tauto.
  - intros ?%head_elem. tauto.
Qed.

Lemma link_lookup l1 x l2 v m mem pts b a y c : linked (Some x) m mem pts -> mem b = l1 ++ l2 ->
  l1 ++ x :: l2 = a ++ y :: c -> link l1 x l2 b v m !! y = Some (node_between a y c b (set_points x v pts y)).
Proof.
  intros L E Es. pose proof (ln_nodup _ _ _ _ L b) as Hn.
  pose proof (ln_hole _ _ _ _ L x b eq_refl) as Hx. rewrite E in Hn, Hx. apply not_elem_of_app in Hx as [Hx1 Hx2].
  apply NoDup_app in Hn as (Hn1 & Hd & Hn2). unfold link. apply app_split in Es as [(d & -> & ->) | (d & -> & Ed)].
  - assert (Hy : y ∈ a ++ y :: d) by (apply elem_of_app; right; by left).
    assert (Hyx : y <> x) by congruence. rewrite set_points_ne, lookup_insert_ne by done.
    rewrite on_key_ne by (intros Hh%head_elem; by apply (Hd y Hy)).
    assert (Em := ln_node _ _ _ _ L b a y (d ++ l2)). rewrite <- app_assoc in E. specialize (Em E).
    destruct d as [| z d].
    + rewrite last_snoc, on_key_eq, Em. done.
    + rewrite on_key_ne, Em; [done |]. rewrite last_app_ne, last_cons_cons by done. intros Hl%last_elem.
      apply NoDup_app in Hn1 as (_ & _ & Hn1). by apply NoDup_cons in Hn1 as [? _].
  - destruct d as [| z d]; simpl in Ed.
    + injection Ed as <- <-. by rewrite lookup_insert_eq, set_points_eq, app_nil_r.
    + injection Ed as <- ->. assert (Hyx : y <> x) by (intros ->; apply Hx2, elem_of_app; right; by left).
      assert (Hp : last l1 <> Some y).
      { intros Hl%last_elem. apply (Hd y Hl). apply elem_of_app. right. by left. }
      assert (Em := ln_node _ _ _ _ L b (l1 ++ d) y c). rewrite <- app_assoc in Em. specialize (Em E).
      rewrite set_points_ne, lookup_insert_ne by done. destruct d as [| z d]; cbn [app head].
      * rewrite on_key_eq, on_key_ne, Em by done. unfold node_between, set_prev. simpl. by rewrite last_snoc.
      * rewrite !on_key_ne; [| done |].
        { rewrite Em. unfold node_between. by rewrite !last_app_ne, last_cons_cons by done. }
        intros [= ->]. apply NoDup_cons in Hn2 as [Hn2 _]. apply Hn2. apply elem_of_app. right. by left.
Qed.

Lemma link_linked m mem pts b l1 x l2 v : linked (Some x) m mem pts -> mem b = l1 ++ l2 ->
  linked None (link l1 x l2 b v m) (set_members b (l1 ++ x :: l2) mem) (set_points x v pts).
Proof.
  intros L E. pose proof (ln_nodup _ _ _ _ L b) as Hn.
  pose proof (fun b' => ln_hole _ _ _ _ L x b' eq_refl) as Hx. pose proof (Hx b) as Hxb. rewrite E in Hn, Hxb.
  assert (Hperm : l1 ++ x :: l2 ≡ₚ x :: l1 ++ l2) by (by rewrite Permutation_middle). split; [| | | done].
  - intros b'. unfold set_members. destruct (decide (b' = b)); [| apply L]. rewrite Hperm. by constructor.
  - intros b' a y c. unfold set_members. destruct (decide (b' = b)) as [-> | Hne]; intros Ey.
    + by eapply link_lookup.
    + assert (Hy : y ∈ mem b') by (rewrite Ey; apply elem_of_app; right; by left).
      assert (Hyx : y <> x) by (intros ->; by apply (Hx b')).
      rewrite set_points_ne, link_other; [by apply L | done | | done]. intros Hy'. apply Hne.
      apply (linked_disjoint L y); [done |]. by rewrite E.
  - intros y nd Ey. right. destruct (decide (y ∈ l1 ++ x :: l2)) as [Hy | Hy].
    + pose proof Hy as (a & c & Es)%list_elem_of_split. rewrite (link_lookup l1 x l2 v m mem pts b a y c) in Ey by done.
      simplify_eq/=. by rewrite set_members_eq.
    + rewrite Hperm, not_elem_of_cons in Hy. destruct Hy as [Hyx Hy]. rewrite link_other in Ey by done.
      destruct (ln_in _ _ _ _ L y nd Ey) as [? | Hin]; [congruence |].
      rewrite set_members_ne; [done |]. intros Eb. by rewrite Eb, E in Hin.
Qed.

Lemma link_size l1 x l2 b v m : size (link l1 x l2 b v m) = size (<[x := node_between l1 x l2 b v]> m).
Proof.
  unfold link. rewrite <- !size_dom, !dom_insert_L. do 2 f_equal.
  destruct (last l1), (head l2); simpl; by rewrite ?dom_alter_L.
Qed.
