(* ===== verification/BagsRun.v ===== *)
(** * Every operation of the bags list on rankings

    [rep r s]: the storage [s] is the ranking [r].  A ranking determines the nodes, the bags and the
    counter, and each operation of the list takes a storage that represents a ranking to one that
    represents the ranking the operation is meant to produce. *)

From stdpp Require Import base tactics numbers list gmap sorting.
From S2P Require Import Prelude Dispatch System BalancesCalls SortedList BagsList BagsLinks.
Local Open Scope Z_scope.

(** ** Rankings *)

Record Ranking := { rk_members : Z -> list AccountId; rk_points : AccountId -> Z }.

#[export] Instance ranking_equiv : Equiv Ranking := fun r r' =>
  (forall b, rk_members r b = rk_members r' b) /\
  (forall b x, x ∈ rk_members r b -> rk_points r x = rk_points r' x).

#[export] Instance ranking_equivalence : Equivalence (≡@{Ranking}).
Proof.
  split.
  - by intros r.
  - intros r r' [Hm Hp]. split; [done |]. intros b x Hx. symmetry. apply (Hp b). by rewrite Hm.
  - intros r r' r'' [Hm Hp] [Hm' Hp']. split; [congruence |].
    intros b x Hx. rewrite (Hp b) by done. apply (Hp' b). by rewrite <- Hm.
Qed.

Definition in_ranking (x : AccountId) (r : Ranking) : Prop := exists b, x ∈ rk_members r b.

Definition rk_empty : Ranking := {| rk_members := fun _ => []; rk_points := fun _ => 0 |}.

Definition without (x : AccountId) (l : list AccountId) : list AccountId := filter (fun y => y <> x) l.

Definition rk_append (b : Z) (x : AccountId) (v : Z) (r : Ranking) : Ranking :=
  {| rk_members := set_members b (rk_members r b ++ [x]) (rk_members r); rk_points := set_points x v (rk_points r) |}.

Definition rk_remove (x : AccountId) (r : Ranking) : Ranking :=
  {| rk_members := fun b => without x (rk_members r b); rk_points := rk_points r |}.

(** [x] directly in front of [y]. *)
Fixpoint before (y x : AccountId) (l : list AccountId) : list AccountId :=
  match l with
  | [] => []
  | z :: l => if decide (z = y) then x :: z :: l else z :: before y x l
  end.

Definition rk_front (y x : AccountId) (r : Ranking) : Ranking :=
  {| rk_members := fun b => before y x (without x (rk_members r b)); rk_points := rk_points r |}.

Definition rk_score (x : AccountId) (v : Z) (r : Ranking) : Ranking :=
  {| rk_members := rk_members r; rk_points := set_points x v (rk_points r) |}.

Lemma without_absent x l : x ∉ l -> without x l = l.
Proof.
  unfold without. induction l as [| y l IH]; intros Hx; [done |]. apply not_elem_of_cons in Hx as [? ?].
  rewrite filter_cons_True by done. by rewrite IH.
Qed.

Lemma without_split x l1 l2 : x ∉ l1 ++ l2 -> without x (l1 ++ x :: l2) = l1 ++ l2.
Proof.
  intros [? ?]%not_elem_of_app. unfold without. rewrite filter_app, filter_cons_False by naive_solver.
  f_equal; by apply without_absent.
Qed.

Lemma before_split y x l1 l2 : y ∉ l1 -> before y x (l1 ++ y :: l2) = l1 ++ x :: y :: l2.
Proof.
  induction l1 as [| z l1 IH]; intros Hy; simpl.
  - by rewrite decide_True.
  - apply not_elem_of_cons in Hy as [? ?]. rewrite decide_False by done. by rewrite IH.
Qed.

Lemma before_absent y x l : y ∉ l -> before y x l = l.
Proof.
  induction l as [| z l IH]; intros Hy; simpl; [done |].
  apply not_elem_of_cons in Hy as [? ?]. rewrite decide_False by done. by rewrite IH.
Qed.

Lemma NoDup_split (x : AccountId) l1 l2 : NoDup (l1 ++ x :: l2) -> x ∉ l1 ++ l2.
Proof. rewrite <- Permutation_middle. by intros [? _]%NoDup_cons. Qed.

(** ** Storages that represent a ranking *)

Section rep.
Context {W : Type} `{BalanceType} `{BagsConfig} `{SP : ScoreProvider W}.
Abbreviation State := (BagsState W).

Record rep (r : Ranking) (s : State) : Prop := {
  rp_linked : linked None (ListNodes s) (rk_members r) (rk_points r);
  rp_bags b : ListBags s !! b = ends (rk_members r b);
  rp_count : CounterForListNodes s = Z.of_nat (size (ListNodes s));
  rp_small : Z.of_nat (size (ListNodes s)) <= u32_max;
}.

#[export] Instance rep_proper : Proper ((≡) ==> eq ==> iff) rep.
Proof.
  assert (Himp : forall r r' s, r ≡ r' -> rep r s -> rep r' s).
  { intros r r' s [Hm Hp] [L Hb Hc Hs]. split; [| | done | done]; [| intros b; by rewrite <- Hm].
    split.
    - intros b. rewrite <- Hm. apply L.
    - intros b l1 x l2 E. rewrite <- Hm in E. rewrite (ln_node _ _ _ _ L b l1 x l2 E), (Hp b x); [done |].
      rewrite E. apply elem_of_app. right. by left.
    - intros x nd Ex. rewrite <- Hm. by apply L.
    - done. }
  intros r r' Hr s ? <-. split; apply Himp; by rewrite Hr.
Qed.

(** Everything but the nodes and the bags is as it was. *)
Definition same_rest (s s' : State) : Prop :=
  ListLock s' = ListLock s /\ bags_events s' = bags_events s /\ outside s' = outside s.

#[export] Instance same_rest_preorder : PreOrder same_rest.
Proof. split; [done |]. intros s1 s2 s3 (? & ? & ?) (? & ? & ?). repeat split; congruence. Qed.

Lemma rep_in r s x nd : rep r s -> ListNodes s !! x = Some nd -> exists l1 l2,
  rk_members r (node_bag_upper nd) = l1 ++ x :: l2 /\ nd = node_between l1 x l2 (node_bag_upper nd) (rk_points r x).
Proof. intros R E. by apply (linked_lookup (rp_linked _ _ R)). Qed.

Lemma rep_elem r s x b : rep r s -> x ∈ rk_members r b -> exists l1 l2, rk_members r b = l1 ++ x :: l2 /\
  ListNodes s !! x = Some (node_between l1 x l2 b (rk_points r x)).
Proof. intros R. apply (linked_elem (rp_linked _ _ R)). Qed.

Lemma rep_contains r s x : rep r s -> is_Some (ListNodes s !! x) <-> in_ranking x r.
Proof.
  intros R. split.
  - intros [nd E]. destruct (rep_in _ _ _ _ R E) as (l1 & l2 & El & _). exists (node_bag_upper nd).
    rewrite El. apply elem_of_app. right. by left.
  - intros [b Hx]. destruct (rep_elem _ _ _ _ R Hx) as (l1 & l2 & _ & E). eauto.
Qed.

(** A ranking has one representation. *)
Lemma rep_unique r s s' : rep r s -> rep r s' -> same_rest s s' -> s = s'.
Proof.
  intros R R' (El & Ee & Eo).
  assert (En : ListNodes s = ListNodes s').
  { apply map_eq. intros x. destruct (ListNodes s !! x) as [nd |] eqn:E.
    - destruct (rep_in _ _ _ _ R E) as (l1 & l2 & Em & ->). symmetry. by apply (rp_linked _ _ R').
    - destruct (ListNodes s' !! x) as [nd |] eqn:E'; [| done].
      destruct (rep_in _ _ _ _ R' E') as (l1 & l2 & Em & _). rewrite <- E. symmetry.
      rewrite (ln_node _ _ _ _ (rp_linked _ _ R) _ _ _ _ Em) in E. done. }
  assert (Eb : ListBags s = ListBags s').
  { apply map_eq. intros b. by rewrite (rp_bags _ _ R), (rp_bags _ _ R'). }
  assert (Ec : CounterForListNodes s = CounterForListNodes s') by (rewrite (rp_count _ _ R), (rp_count _ _ R'); congruence).
  destruct s, s'. simpl in *. congruence.
Qed.

Lemma rep_empty s : ListNodes s = ∅ -> ListBags s = ∅ -> CounterForListNodes s = 0 -> rep rk_empty s.
Proof.
  intros En Eb Ec. split.
  - split; simpl; intros.
    + apply NoDup_nil. done.
    + by destruct l1.
    + by rewrite En in *.
    + done.
  - intros b. by rewrite Eb.
  - by rewrite En, Ec.
  - rewrite En. unfold u32_max. rewrite map_size_empty. lia.
Qed.

(** ** Steps of the operations *)

Lemma put_existing (n n0 : Node) (s : State) : ListNodes s !! node_id n = Some n0 ->
  node_put n s = set_nodes (<[node_id n := n]> (ListNodes s)) (CounterForListNodes s) s.
Proof. intros E. unfold node_put, counted_insert. by rewrite E, bool_decide_eq_true_2. Qed.

Lemma put_on_key (k : option AccountId) (f : Node -> Node) (s : State) :
  (forall x nd, ListNodes s !! x = Some nd -> node_id nd = x) -> (forall nd, node_id (f nd) = node_id nd) ->
  match k ≫= fun id => node_get id s with
  | Some n => node_put (f n) s
  | None => s
  end = set_nodes (on_key k f (ListNodes s)) (CounterForListNodes s) s.
Proof.
  intros Hid Hf. unfold node_get. destruct k as [k |]; simpl; [| by destruct s].
  destruct (ListNodes s !! k) as [n |] eqn:E.
  - pose proof (Hid k n E) as Ek. rewrite (put_existing _ n) by (by rewrite Hf, Ek). rewrite Hf, Ek.
    f_equal. apply map_eq. intros y. destruct (decide (y = k)) as [-> |].
    + by rewrite lookup_insert_eq, lookup_alter_eq, E.
    + by rewrite lookup_insert_ne, lookup_alter_ne by done.
  - replace (alter f k (ListNodes s)) with (ListNodes s); [by destruct s |].
    apply map_eq. intros y. destruct (decide (y = k)) as [-> |].
    + by rewrite lookup_alter_eq, E.
    + by rewrite lookup_alter_ne by done.
Qed.

Lemma linked_ids h m mem pts x nd : linked h m mem pts -> h <> Some x -> m !! x = Some nd -> node_id nd = x.
Proof. intros L Hh E. by destruct (linked_lookup L x nd E Hh) as (l1 & l2 & _ & ->). Qed.

Lemma on_key_ids k f m :
  (forall x nd, m !! x = Some nd -> node_id nd = x) -> (forall nd, node_id (f nd) = node_id nd) ->
  forall x nd, on_key k f m !! x = Some nd -> node_id nd = x.
Proof.
  intros Hid Hf x nd. destruct (decide (k = Some x)) as [-> |].
  - rewrite on_key_eq. intros (nd0 & E & ->)%fmap_Some. rewrite Hf. by apply Hid.
  - rewrite on_key_ne by done. apply Hid.
Qed.

Lemma excise_run mem pts b l1 x l2 (nd : Node) (s : State) :
  linked None (ListNodes s) mem pts -> mem b = l1 ++ x :: l2 -> node_prev nd = last l1 -> node_next nd = head l2 ->
  excise nd s = set_nodes (unlink l1 l2 (ListNodes s)) (CounterForListNodes s) s.
Proof.
  intros L E Ep En. unfold excise, prev_node, next_node. rewrite Ep, En.
  assert (Hid : forall x nd, ListNodes s !! x = Some nd -> node_id nd = x) by (intros ? ?; by apply (linked_ids _ _ _ _ _ _ L)).
  rewrite (put_on_key (last l1) (set_next (head l2)) s) by done. rewrite put_on_key; [done | | done].
  simpl. by apply on_key_ids.
Qed.

(** The bag as the code holds it. *)
Definition bag_of (b : Z) (l : list AccountId) : Bag := {| bag_head := head l; bag_tail := last l; bag_upper := b |}.

Definition set_ends (b : Z) (l : list AccountId) (m : gmap Z (option AccountId * option AccountId)) :=
  partial_alter (fun _ => ends l) b m.

Lemma lookup_set_ends b l m b' : set_ends b l m !! b' = if decide (b' = b) then ends l else m !! b'.
Proof.
  unfold set_ends. destruct (decide (b' = b)) as [-> |].
  - apply lookup_partial_alter_eq.
  - by apply lookup_partial_alter_ne.
Qed.

Lemma bag_get_ends b (l : list AccountId) (s : State) : ListBags s !! b = ends l ->
  bag_get b s = (if decide (l = []) then None else Some (bag_of b l)) /\ bag_get_or_make b s = bag_of b l.
Proof. intros E. unfold bag_get_or_make, bag_get. rewrite E. by destruct l. Qed.

Lemma bag_put_of b l (s : State) : bag_put (bag_of b l) s = set_bags (set_ends b l (ListBags s)) s.
Proof.
  unfold bag_put, set_ends, bag_is_empty. by destruct l as [| x l].
Qed.

Lemma insert_node_run mem pts b l x (nd : Node) (s : State) :
  linked (Some x) (ListNodes s) mem pts -> mem b = l -> node_id nd = x ->
  insert_node_unchecked (bag_of b l) nd s =
    (bag_of b (l ++ [x]),
     set_nodes (link l x [] b (node_score nd) (ListNodes s))
       (if bool_decide (is_Some (ListNodes s !! x)) then CounterForListNodes s
        else u32_saturating_add (CounterForListNodes s) 1) s).
Proof.
  intros L E Ex. pose proof (ln_hole _ _ _ _ L x b eq_refl) as Hx. rewrite E in Hx.
  assert (Hl : last l <> Some x) by (intros ?%last_elem; done).
  unfold insert_node_unchecked. cbn [bag_tail bag_of]. rewrite Ex, bool_decide_eq_false_2 by done.
  cbn [bag_upper bag_head bag_of]. set (n := set_next None _). set (s1 := node_put n s). unfold tail_node.
  assert (En : ListNodes s1 = <[x := node_between l x [] b (node_score nd)]> (ListNodes s)).
  { subst s1 n. cbn. by rewrite <- Ex. }
  cbn [bag_tail bag_of node_id set_bag_upper]. rewrite Ex, put_on_key; [| | done].
  - unfold bag_of. f_equal; [f_equal; [by destruct l | by rewrite last_snoc] |]. rewrite En.
    transitivity (set_nodes (link l x [] b (node_score nd) (ListNodes s)) (CounterForListNodes s1) s).
    + subst s1. unfold node_put, counted_insert, set_nodes. simpl. f_equal.
      unfold link. apply map_eq. intros y. destruct (decide (y = x)) as [-> |].
      * by rewrite on_key_ne, !lookup_insert_eq.
      * rewrite lookup_insert_ne by done. simpl. destruct (decide (last l = Some y)) as [-> |].
        { by rewrite !on_key_eq, lookup_insert_ne. }
        by rewrite !on_key_ne, lookup_insert_ne by done.
    + f_equal. subst s1 n. cbn. by rewrite Ex.
  - intros y nd'. rewrite En. destruct (decide (y = x)) as [-> |].
    + rewrite lookup_insert_eq. by intros [= <-].
    + rewrite lookup_insert_ne by done. apply (linked_ids _ _ _ _ _ _ L). congruence.
Qed.

(** ** Insertion *)

Lemma append_rep r (s : State) b x (nd : Node) :
  linked (Some x) (ListNodes s) (rk_members r) (rk_points r) ->
  (forall b, ListBags s !! b = ends (rk_members r b)) ->
  CounterForListNodes s = Z.of_nat (size (ListNodes s)) -> Z.of_nat (size (ListNodes s)) <= u32_max ->
  is_Some (ListNodes s !! x) \/ Z.of_nat (size (ListNodes s)) < u32_max -> node_id nd = x ->
  exists bag s1, insert_node_unchecked (bag_get_or_make b s) nd s = (bag, s1) /\
    rep (rk_append b x (node_score nd) r) (bag_put bag s1) /\ same_rest s (bag_put bag s1).
Proof.
  intros L Hb Hc Hs Hfit Hid. rewrite (proj2 (bag_get_ends b _ s (Hb b))).
  rewrite (insert_node_run _ _ _ _ _ _ _ L eq_refl Hid). eexists _, _. split; [done |].
  rewrite bag_put_of. split; [| done]. split.
  - cbn. apply link_linked; [done | by rewrite app_nil_r].
  - intros b'. cbn. rewrite lookup_set_ends, Hb. unfold set_members. by destruct (decide (b' = b)).
  - cbn. rewrite link_size. destruct (ListNodes s !! x) as [n |] eqn:E.
    + rewrite bool_decide_eq_true_2, map_size_insert_Some by eauto. done.
    + rewrite bool_decide_eq_false_2, map_size_insert_None by (done || by intros [? ?]). rewrite Hc.
      destruct Hfit as [[? ?] | Hfit]; [done |]. unfold u32_saturating_add. lia.
  - cbn. rewrite link_size. destruct (ListNodes s !! x) as [n |] eqn:E.
    + by rewrite map_size_insert_Some by eauto.
    + rewrite map_size_insert_None by done. destruct Hfit as [[? ?] | Hfit]; [done |]. lia.
Qed.

Lemma list_contains_true r x (s : State) : rep r s -> in_ranking x r -> list_contains x s = true.
Proof. intros R Hx. apply bool_decide_eq_true_2. by apply (rep_contains r). Qed.

Lemma list_contains_false r x (s : State) : rep r s -> ~ in_ranking x r -> list_contains x s = false.
Proof. intros R Hx. apply bool_decide_eq_false_2. by rewrite (rep_contains r). Qed.

Lemma rep_absent r x (s : State) : rep r s -> ~ in_ranking x r -> ListNodes s !! x = None.
Proof. intros R Hx. apply eq_None_not_Some. by rewrite (rep_contains r). Qed.

Lemma insert_duplicate r x v (s : State) : rep r s -> in_ranking x r ->
  list_insert x v s = (Err (BError (BList Duplicate)), s).
Proof. intros R Hx. unfold list_insert, bind, gets. by rewrite (list_contains_true r). Qed.

Lemma insert_run r x v (s : State) : rep r s -> ~ in_ranking x r -> Z.of_nat (size (ListNodes s)) < u32_max ->
  exists s', list_insert x v s = (Ok tt, s') /\ rep (rk_append (notional_bag_for v) x v r) s' /\ same_rest s s'.
Proof.
  intros R Hx Hs. pose proof (rep_absent r x s R Hx) as E.
  unfold list_insert, bind, gets. rewrite (list_contains_false r) by done. unfold modify, insert_unchecked.
  destruct (append_rep r s (notional_bag_for v) x
    {| node_id := x; node_prev := None; node_next := None; node_bag_upper := 0; node_score := v |})
    as (bag & s1 & -> & R' & Hr); [| apply R | apply R | apply R | by right | done |].
  - apply linked_open; [apply R | done].
  - eauto.
Qed.

(** ** Removal *)

Lemma set_members_without r b x l1 l2 (s : State) : rep r s -> rk_members r b = l1 ++ x :: l2 ->
  forall b', set_members b (l1 ++ l2) (rk_members r) b' = rk_members (rk_remove x r) b'.
Proof.
  intros R E b'. pose proof (ln_nodup _ _ _ _ (rp_linked _ _ R) b) as Hn. rewrite E in Hn. simpl.
  unfold set_members. destruct (decide (b' = b)) as [-> | Hne].
  - rewrite E, without_split; [done | by apply NoDup_split].
  - rewrite without_absent; [done |]. intros Hx. apply Hne.
    apply (linked_disjoint (rp_linked _ _ R) x); [done |]. rewrite E. apply elem_of_app. right. by left.
Qed.

(** The storage in which the cached bags have been written, as far as the bags go. *)
Definition flushed (bags : gmap Z Bag) (s : State) (mem : Z -> list AccountId) : Prop :=
  forall b, match bags !! b with
            | Some bag => bag = bag_of b (mem b)
            | None => ListBags s !! b = ends (mem b)
            end.

Lemma is_terminal_split l1 x l2 b v : is_terminal (node_between l1 x l2 b v) = false -> l1 <> [] /\ l2 <> [].
Proof. intros E. split; intros ->; unfold is_terminal in E; simpl in E; [done |]. by rewrite orb_true_r in E. Qed.

Lemma bag_of_inner b l1 x l2 : l1 <> [] -> l2 <> [] -> bag_of b (l1 ++ x :: l2) = bag_of b (l1 ++ l2) /\
  ends (l1 ++ x :: l2) = ends (l1 ++ l2).
Proof.
  intros H1 H2. assert (Eh : head (l1 ++ x :: l2) = head (l1 ++ l2)) by (by destruct l1).
  assert (El : last (l1 ++ x :: l2) = last (l1 ++ l2)).
  { rewrite !last_app_ne by done. destruct l2; [done |]. by rewrite last_cons_cons. }
  split; [unfold bag_of; by f_equal |]. destruct l1; [done |]. unfold ends. simpl app. cbn [head]. by f_equal; f_equal.
Qed.

Lemma remove_node_run mem pts b l1 x l2 (nd : Node) (s : State) :
  linked None (ListNodes s) mem pts -> mem b = l1 ++ x :: l2 ->
  node_id nd = x -> node_prev nd = last l1 -> node_next nd = head l2 ->
  remove_node_unchecked (bag_of b (l1 ++ x :: l2)) nd s =
    (bag_of b (l1 ++ l2), set_nodes (unlink l1 l2 (ListNodes s)) (CounterForListNodes s) s).
Proof.
  intros L E Eid Ep En. pose proof (ln_nodup _ _ _ _ L b) as Hn. rewrite E in Hn. apply NoDup_split in Hn.
  apply not_elem_of_app in Hn as [H1 H2].
  unfold remove_node_unchecked. rewrite (excise_run _ _ _ _ _ _ _ _ L E Ep En), Eid, Ep, En. f_equal.
  unfold bag_of. cbn [bag_head bag_tail bag_upper]. f_equal.
  - destruct l1 as [| z l1]; simpl.
    + by rewrite bool_decide_eq_true_2.
    + apply not_elem_of_cons in H1 as [? ?]. rewrite bool_decide_eq_false_2 by congruence. done.
  - destruct l2 as [| z l2].
    + by rewrite last_snoc, bool_decide_eq_true_2, app_nil_r.
    + rewrite !last_app_ne, last_cons_cons by done. rewrite bool_decide_eq_false_2; [done |]. by intros ?%last_elem.
Qed.

(** What holds while [remove_many] runs. *)
Record removing (r : Ranking) (bags : gmap Z Bag) (s : State) : Prop := {
  rm_linked : linked None (ListNodes s) (rk_members r) (rk_points r);
  rm_bags : flushed bags s (rk_members r);
  rm_count : CounterForListNodes s = Z.of_nat (size (ListNodes s));
  rm_small : Z.of_nat (size (ListNodes s)) <= u32_max;
}.

Lemma removing_ext r r' bags s :
  (forall b, rk_members r b = rk_members r' b) -> rk_points r = rk_points r' -> removing r bags s -> removing r' bags s.
Proof.
  intros Hm Hp [L Hb Hc Hs]. split; [| | done | done].
  - rewrite <- Hp. split; [| | | done].
    + intros b. rewrite <- Hm. apply L.
    + intros b l1 x l2 E. rewrite <- Hm in E. by apply L.
    + intros x nd E. rewrite <- Hm. by apply L.
  - intros b. specialize (Hb b). by rewrite Hm in Hb.
Qed.

Lemma removing_rep r s : removing r ∅ s <-> rep r s.
Proof.
  by split; intros [L Hb Hc Hs]; split.
Qed.

(** The members and the points, extensionally. *)
Definition rk_same (r r' : Ranking) : Prop :=
  (forall b, rk_members r b = rk_members r' b) /\ rk_points r = rk_points r'.

Lemma rk_remove_absent r x : ~ in_ranking x r -> rk_same r (rk_remove x r).
Proof. intros Hx. split; [| done]. intros b. simpl. rewrite without_absent; [done |]. intros ?. apply Hx. by exists b. Qed.

(** One round of the loop, on a stored account. *)
Lemma remove_round r bags (s : State) x l1 l2 b count :
  removing r bags s -> rk_members r b = l1 ++ x :: l2 -> 0 <= count -> count + Z.of_nat (size (ListNodes s)) <= u32_max ->
  exists bags' s', (forall ids, remove_many_loop (x :: ids) bags count s = remove_many_loop ids bags' (count + 1) s') /\
    removing (rk_remove x r) bags' s' /\ same_rest s s' /\ S (size (ListNodes s')) = size (ListNodes s).
Proof.
  intros I E H0' Hfit. destruct I as [L Hb Hc Hs]. pose proof (ln_node _ _ _ _ L _ _ _ _ E) as Ex.
  assert (Hpos : (0 < size (ListNodes s))%nat).
  { apply Nat.neq_0_lt_0. intros Hz%map_size_empty_iff. by rewrite Hz in Ex. }
  destruct (unlink_linked _ _ _ _ _ _ _ L E) as [L' Ex']. apply linked_close in L'.
  set (nd := node_between l1 x l2 b (rk_points r x)) in *.
  set (s' := set_nodes (delete x (unlink l1 l2 (ListNodes s))) (CounterForListNodes s - 1) s).
  assert (Hsize : size (ListNodes s') = Nat.pred (size (ListNodes s))).
  { subst s'. simpl. rewrite map_size_delete_Some by (rewrite Ex', Ex; eauto). unfold unlink. by rewrite !on_key_size. }
  set (bags' := if negb (is_terminal nd) then bags else <[b := bag_of b (l1 ++ l2)]> bags).
  exists bags', s'. split; [| split; [| split; [done | lia]]].
  - intros ids. cbn [remove_many_loop]. unfold bind at 1, gets, node_get. rewrite Ex. unfold bind at 1, u32_inc.
    rewrite (proj2 (Z.leb_le _ _)) by lia. cbn [ret]. unfold bind at 1.
    assert (Hrm : forall s0, s0 = set_nodes (unlink l1 l2 (ListNodes s)) (CounterForListNodes s) s ->
      remove_from_storage_unchecked nd s0 = s').
    { intros s0 ->. unfold remove_from_storage_unchecked, counted_remove. cbn. rewrite Ex', Ex.
      rewrite bool_decide_eq_true_2 by eauto. unfold s', saturating_sub, set_nodes. simpl. f_equal. lia. }
    subst bags'. destruct (is_terminal nd); cbn [negb].
    + unfold bind at 1. cbn beta iota. unfold bind at 1. cbn [node_bag_upper nd node_between].
      assert (Ebag : default (bag_get_or_make b s) (bags !! b) = bag_of b (l1 ++ x :: l2)).
      { specialize (Hb b). destruct (bags !! b) as [bag |]; simpl; [by rewrite Hb, E |].
        by rewrite (proj2 (bag_get_ends b _ s Hb)), E. }
      rewrite Ebag, (remove_node_run _ _ _ _ _ _ _ _ L E) by done. unfold modify. by rewrite Hrm.
    + unfold bind at 1, modify at 1. rewrite (excise_run _ _ _ _ _ _ _ _ L E) by done. cbn [ret].
      unfold bind at 1, modify. by rewrite Hrm.
  - apply (removing_ext {| rk_members := set_members b (l1 ++ l2) (rk_members r); rk_points := rk_points r |});
      [| done |].
    + intros b'. simpl. unfold set_members. pose proof (ln_nodup _ _ _ _ L b) as Hn. rewrite E in Hn.
      destruct (decide (b' = b)) as [-> | Hne]; [rewrite E, without_split; [done | by apply NoDup_split] |].
      rewrite without_absent; [done |]. intros Hx. apply Hne. apply (linked_disjoint L x); [done |].
      rewrite E. apply elem_of_app. right. by left.
    + split; [done | | subst s'; simpl in *; lia | lia].
      intros b'. simpl. subst bags'. unfold set_members. specialize (Hb b').
      destruct (is_terminal nd) eqn:Et; cbn [negb]; destruct (decide (b' = b)) as [-> | Hne].
      * by rewrite lookup_insert_eq.
      * by rewrite lookup_insert_ne.
      * apply is_terminal_split in Et as [H1 H2]. destruct (bag_of_inner b l1 x l2 H1 H2) as [E1 E2].
        rewrite E in Hb. destruct (bags !! b); congruence.
      * done.
Qed.

Definition rk_remove_all (ids : list AccountId) (r : Ranking) : Ranking := foldl (fun r x => rk_remove x r) r ids.

Lemma remove_loop_run ids r bags (s : State) count :
  removing r bags s -> 0 <= count -> count + Z.of_nat (size (ListNodes s)) <= u32_max ->
  exists bags' s', remove_many_loop ids bags count s =
      (Ok (bags', count + (Z.of_nat (size (ListNodes s)) - Z.of_nat (size (ListNodes s')))), s') /\
    removing (rk_remove_all ids r) bags' s' /\ same_rest s s'.
Proof.
  revert r bags s count. induction ids as [| x ids IH]; intros r bags s count I H0' Hfit; simpl.
  { exists bags, s. split; [| done]. unfold ret. do 3 f_equal. lia. }
  destruct (ListNodes s !! x) as [nd |] eqn:Ex.
  - destruct (linked_lookup (rm_linked _ _ _ I) x nd Ex) as (l1 & l2 & E & _); [done |].
    destruct (remove_round _ _ _ _ _ _ _ _ I E H0' Hfit) as (bags1 & s1 & Hrun & I1 & Hr1 & Hsz).
    destruct (IH _ _ _ (count + 1) I1) as (bags' & s' & Hrun' & I' & Hr'); [lia | lia |].
    exists bags', s'. split; [| split; [done | by etrans]]. etrans; [exact (Hrun ids) |]. rewrite Hrun'.
    do 3 f_equal. lia.
  - unfold bind at 1, gets, node_get. rewrite Ex. apply IH; [| done | done].
    eapply removing_ext; [| | exact I]; [| done]. apply rk_remove_absent. intros [b Hx].
    by apply (linked_absent (rm_linked _ _ _ I) x b Ex).
Qed.

Lemma put_bags_run mem (l : list (Z * Bag)) (s : State) :
  NoDup l.*1 -> (forall b bag, (b, bag) ∈ l -> bag = bag_of b (mem b)) ->
  exists m, foldl (fun s p => bag_put (snd p) s) s l = set_bags m s /\
    forall b, m !! b = if decide (b ∈ l.*1) then ends (mem b) else ListBags s !! b.
Proof.
  revert s. induction l as [| [b bag] l IH]; intros s Hn Hbag.
  { exists (ListBags s). split; [by destruct s | done]. }
  apply NoDup_cons in Hn as [Hb Hn]. simpl. rewrite (Hbag b bag) by (by left). rewrite bag_put_of.
  destruct (IH (set_bags (set_ends b (mem b) (ListBags s)) s) Hn) as (m & -> & Hm).
  { intros b' bag' Hin. apply Hbag. by right. }
  exists m. split; [done |]. intros b'. rewrite Hm. cbn. rewrite lookup_set_ends.
  destruct (decide (b' = b)) as [-> | Hne].
  - rewrite decide_False by done. by rewrite decide_True by left.
  - destruct (decide (b' ∈ l.*1)) as [Hin | Hin].
    + by rewrite decide_True by (by right).
    + by rewrite decide_False by (by intros [? | ?]%elem_of_cons).
Qed.

Lemma put_all_rep r bags (s : State) : removing r bags s -> rep r (put_all bags s) /\ same_rest s (put_all bags s) /\
  ListNodes (put_all bags s) = ListNodes s.
Proof.
  intros [L Hb Hc Hs]. unfold put_all.
  assert (Hperm : merge_sort key_le (map_to_list bags) ≡ₚ map_to_list bags) by apply merge_sort_Permutation.
  destruct (put_bags_run (rk_members r) (merge_sort key_le (map_to_list bags)) s) as (m & -> & Hm).
  - rewrite Hperm. apply NoDup_fst_map_to_list.
  - intros b bag Hin. rewrite Hperm, elem_of_map_to_list in Hin. specialize (Hb b). by rewrite Hin in Hb.
  - split; [| done]. split; [done | | done | done]. intros b. cbn. rewrite Hm. specialize (Hb b).
    destruct (decide _) as [Hin | Hin]; [done |]. destruct (bags !! b) as [bag |] eqn:Eb; [| done].
    exfalso. apply Hin. rewrite Hperm. apply list_elem_of_fmap. exists (b, bag). by rewrite elem_of_map_to_list.
Qed.

Lemma remove_many_run ids r (s : State) : rep r s -> exists s',
  remove_many ids s = (Ok (Z.of_nat (size (ListNodes s)) - Z.of_nat (size (ListNodes s'))), s') /\
  rep (rk_remove_all ids r) s' /\ same_rest s s'.
Proof.
  intros R. destruct (remove_loop_run ids r ∅ s 0) as (bags & s1 & Hrun & I & Hr);
    [by apply removing_rep | done | apply R |].
  destruct (put_all_rep _ _ _ I) as (R' & Hr' & En). exists (put_all bags s1).
  split; [| split; [done | by etrans]]. unfold remove_many, bind. rewrite Hrun. unfold modify, ret. by rewrite En.
Qed.

Lemma remove_run r x (s : State) : rep r s -> in_ranking x r ->
  exists s', list_remove x s = (Ok tt, s') /\ rep (rk_remove x r) s' /\ same_rest s s'.
Proof.
  intros R Hx. destruct (remove_many_run [x] r s R) as (s' & Hrun & R' & Hr). exists s'. split; [| done].
  unfold list_remove, bind at 1, gets. rewrite (list_contains_true r) by done. unfold bind. by rewrite Hrun.
Qed.

Lemma remove_absent r x (s : State) : rep r s -> ~ in_ranking x r ->
  list_remove x s = (Err (BError (BList NodeNotFound)), s).
Proof. intros R Hx. unfold list_remove, bind, gets. by rewrite (list_contains_false r). Qed.

(** ** Moving *)

#[export] Instance rk_append_proper b x v : Proper ((≡) ==> (≡)) (rk_append b x v).
Proof.
  intros r r' [Hm Hp]. split; simpl.
  - intros b'. unfold set_members. rewrite Hm. by destruct (decide _).
  - intros b' y. unfold set_members, set_points. destruct (decide (y = x)) as [-> | Hne]; [done |].
    destruct (decide (b' = b)) as [-> | Hb].
    + intros [Hy | Hy]%elem_of_app; [by apply (Hp b) |]. by apply list_elem_of_singleton in Hy.
    + apply Hp.
Qed.

Lemma set_members_remove r b x l1 l2 (s : State) : rep r s -> rk_members r b = l1 ++ x :: l2 ->
  {| rk_members := set_members b (l1 ++ l2) (rk_members r); rk_points := rk_points r |} ≡ rk_remove x r.
Proof. intros R E. split; [by eapply set_members_without | done]. Qed.

(** The place [x] is taken from, whichever way the code takes it. *)
Lemma detach_run r (s : State) b l1 x l2 (nd : Node) : rep r s -> rk_members r b = l1 ++ x :: l2 ->
  node_id nd = x -> node_prev nd = last l1 -> node_next nd = head l2 -> node_bag_upper nd = b ->
  (if negb (is_terminal nd) then excise nd s
   else match bag_get (node_bag_upper nd) s with
        | Some bag => let '(bag, s) := remove_node_unchecked bag nd s in bag_put bag s
        | None => s
        end) =
  set_bags (set_ends b (l1 ++ l2) (ListBags s)) (set_nodes (unlink l1 l2 (ListNodes s)) (CounterForListNodes s) s).
Proof.
  intros R E Ei Ep En Eb. pose proof (rp_bags _ _ R b) as Hb. destruct (is_terminal nd) eqn:Et; cbn [negb].
  - rewrite Eb, (proj1 (bag_get_ends _ _ _ Hb)), E, decide_False by (by destruct l1).
    rewrite (remove_node_run _ _ _ _ _ _ _ _ (rp_linked _ _ R) E Ei Ep En). by rewrite bag_put_of.
  - rewrite (excise_run _ _ _ _ _ _ _ _ (rp_linked _ _ R) E Ep En).
    destruct (is_terminal_split l1 x l2 b 0) as [H1 H2]; [by unfold is_terminal in *; rewrite Ep, En in Et |].
    replace (set_ends b (l1 ++ l2) (ListBags s)) with (ListBags s); [done |].
    apply map_eq. intros b'. rewrite lookup_set_ends. destruct (decide (b' = b)) as [-> |]; [| done].
    by rewrite Hb, E, (proj2 (bag_of_inner b l1 x l2 H1 H2)).
Qed.

Lemma update_run r (s : State) x v nd : rep r s -> ListNodes s !! x = Some nd ->
  let b := node_bag_upper nd in
  exists s', same_rest s s' /\
    if decide (notional_bag_for v = b)
    then update_position_for nd v s = (None, s') /\ rep (rk_score x v r) s'
    else update_position_for nd v s = (Some (b, notional_bag_for v), s') /\
         rep (rk_append (notional_bag_for v) x v (rk_remove x r)) s'.
Proof.
  intros R Ex b. destruct (rep_in _ _ _ _ R Ex) as (l1 & l2 & E & End). fold b in E, End.
  unfold update_position_for, is_misplaced. replace (node_bag_upper (set_score v nd)) with b by (by rewrite End).
  destruct (decide (notional_bag_for v = b)) as [Hb | Hb].
  - rewrite (proj2 (Z.eqb_eq _ _)) by done. cbn [negb].
    assert (Eid : node_id (set_score v nd) = x) by (by rewrite End).
    rewrite (put_existing _ nd) by (by rewrite Eid). rewrite Eid. eexists. split; [| split; [reflexivity |]]; [done |].
    assert (Hsize : size (<[x := set_score v nd]> (ListNodes s)) = size (ListNodes s)) by (apply map_size_insert_Some; eauto).
    split; [| apply R | cbn; rewrite Hsize; apply R | cbn; rewrite Hsize; apply R].
    pose proof (rp_linked _ _ R) as L. cbn. split; [apply L | | | done].
    + intros b' k1 y k2 Ey. unfold set_points. destruct (decide (y = x)) as [-> | Hne].
      * rewrite lookup_insert_eq. pose proof (ln_node _ _ _ _ L _ _ _ _ Ey) as Ey'. rewrite Ex in Ey'.
        injection Ey' as ->. done.
      * rewrite lookup_insert_ne by done. by apply L.
    + intros y nd'. destruct (decide (y = x)) as [-> | Hne].
      * rewrite lookup_insert_eq. intros [= <-]. right. simpl. by destruct (ln_in _ _ _ _ L x nd Ex).
      * rewrite lookup_insert_ne by done. apply L.
  - rewrite (proj2 (Z.eqb_neq _ _)) by done. cbn [negb].
    rewrite (detach_run r s b l1 x l2) by (done || by rewrite End). set (s1 := set_bags _ _).
    destruct (unlink_linked _ _ _ _ _ _ _ (rp_linked _ _ R) E) as [L' Ex'].
    destruct (append_rep {| rk_members := set_members b (l1 ++ l2) (rk_members r); rk_points := rk_points r |} s1
      (notional_bag_for v) x (set_score v nd)) as (bag & s2 & -> & R' & Hr).
    + done.
    + intros b'. cbn. rewrite lookup_set_ends, (rp_bags _ _ R). unfold set_members. by destruct (decide _).
    + cbn. unfold unlink. rewrite !on_key_size. apply R.
    + cbn. unfold unlink. rewrite !on_key_size. apply R.
    + left. cbn. rewrite Ex', Ex. eauto.
    + by rewrite End.
    + exists (bag_put bag s2). split; [exact Hr |]. split; [done |].
      rewrite <- (set_members_remove r b x l1 l2 s R E). exact R'.
Qed.

(** ** In front of another account *)

(** The head of the bag, which only changes when the new node is first. *)
Lemma insert_at_bag r (s s1 : State) b l1 y l2 x (nd : Node) :
  rep r s -> rk_members r b = l1 ++ y :: l2 -> ListBags s1 = ListBags s ->
  (if is_terminal (set_next (Some y) (set_prev (last l1) nd)) then
     bag <- gets (bag_get b) ;;
     match bag with
     | None => panic
     | Some bag => modify (bag_put (if bool_decide (last l1 = None)
         then {| bag_head := Some x; bag_tail := bag_tail bag; bag_upper := bag_upper bag |} else bag))
     end
   else ret tt) s1 = (Ok tt, set_bags (set_ends b (l1 ++ x :: y :: l2) (ListBags s)) s1).
Proof.
  intros R E Es. unfold is_terminal. cbn [node_prev node_next set_next set_prev].
  rewrite (bool_decide_eq_false_2 (Some y = None)), orb_false_r by done. destruct l1 as [| z l1].
  - assert (Hb : ListBags s1 !! b = ends (y :: l2)) by (by rewrite Es, (rp_bags _ _ R), E).
    cbn. unfold bind, gets, modify. rewrite (proj1 (bag_get_ends b _ s1 Hb)), decide_False by done.
    change (bag_put _ s1) with (bag_put (bag_of b (x :: y :: l2)) s1). by rewrite bag_put_of, Es.
  - rewrite bool_decide_eq_false_2; [| rewrite last_cons; by destruct (last l1)].
    replace (set_ends _ _ _) with (ListBags s1); [by destruct s1 |]. rewrite Es. apply map_eq. intros b'.
    rewrite lookup_set_ends, (rp_bags _ _ R). destruct (decide (b' = b)) as [-> |]; [| done]. rewrite E.
    symmetry. apply (bag_of_inner b (z :: l1) x (y :: l2)); done.
Qed.

Lemma insert_at_nodes r (s : State) b l1 y l2 x (nd : Node) :
  rep r s -> rk_members r b = l1 ++ y :: l2 -> ListNodes s !! x = None -> Z.of_nat (size (ListNodes s)) < u32_max ->
  node_id nd = x -> node_bag_upper nd = b ->
  insert_at_unchecked (node_between l1 y l2 b (rk_points r y)) nd s =
    (Ok tt, set_bags (set_ends b (l1 ++ x :: y :: l2) (ListBags s))
              (set_nodes (link l1 x (y :: l2) b (node_score nd) (ListNodes s)) (CounterForListNodes s + 1) s)).
Proof.
  intros R E Ex Hs Eid Eb. pose proof (rp_linked _ _ R) as L. pose proof (ln_node _ _ _ _ L _ _ _ _ E) as Ey.
  pose proof (ln_nodup _ _ _ _ L b) as Hn. rewrite E in Hn. apply NoDup_split, not_elem_of_app in Hn as [Hy1 _].
  assert (Hly : last l1 <> Some y) by (by intros ?%last_elem).
  assert (Hlx : last l1 <> Some x).
  { intros Hl%last_elem. apply (linked_absent L x b Ex). rewrite E. apply elem_of_app. by left. }
  assert (Hyx : y <> x) by (intros ->; congruence).
  unfold insert_at_unchecked, bind at 1, modify at 1, prev_node. cbn [node_prev node_between set_prev node_id]. rewrite Eid.
  rewrite put_on_key; [| intros ? ?; by apply (linked_ids _ _ _ _ _ _ L) | done]. set (s1 := set_nodes _ _ s).
  etrans; [eapply bind_Ok; rewrite <- Eid; exact (insert_at_bag r s s1 b l1 y l2 (node_id nd) nd R E eq_refl) |].
  rewrite Eid. unfold bind, modify. f_equal.
  subst s1. unfold node_put, counted_insert. cbn.
  rewrite (on_key_ne _ _ _ _ Hly), Ey, Eid, (bool_decide_eq_true_2 (is_Some (Some _))) by eauto.
  rewrite lookup_insert_ne, on_key_ne, Ex by done.
  rewrite bool_decide_eq_false_2 by (by intros [? ?]).
  assert (Ec : u32_saturating_add (CounterForListNodes s) 1 = CounterForListNodes s + 1).
  { rewrite (rp_count _ _ R). unfold u32_saturating_add. lia. }
  rewrite Ec. unfold set_bags, set_nodes, link. cbn. f_equal. f_equal.
  { unfold set_next, node_between. cbn. by rewrite Eid, Eb. }
  apply map_eq. intros z. destruct (decide (z = y)) as [-> |].
  - by rewrite lookup_insert_eq, lookup_alter_eq, on_key_ne, Ey.
  - by rewrite lookup_insert_ne, lookup_alter_ne by done.
Qed.

Lemma insert_at_run r (s : State) b l1 y l2 x (nd : Node) :
  rep r s -> rk_members r b = l1 ++ y :: l2 -> ListNodes s !! x = None -> Z.of_nat (size (ListNodes s)) < u32_max ->
  node_id nd = x -> node_bag_upper nd = b ->
  exists s', insert_at_unchecked (node_between l1 y l2 b (rk_points r y)) nd s = (Ok tt, s') /\ same_rest s s' /\
    rep {| rk_members := set_members b (l1 ++ x :: y :: l2) (rk_members r);
           rk_points := set_points x (node_score nd) (rk_points r) |} s'.
Proof.
  intros R E Ex Hs Eid Eb. rewrite (insert_at_nodes r s b l1 y l2 x nd) by done. eexists. split; [done |]. split; [done |].
  assert (Hsz : size (link l1 x (y :: l2) b (node_score nd) (ListNodes s)) = S (size (ListNodes s))).
  { rewrite link_size. by apply map_size_insert_None. }
  split.
  - cbn. apply link_linked; [apply linked_open; [apply R | done] | done].
  - intros b'. cbn. rewrite lookup_set_ends, (rp_bags _ _ R). unfold set_members. by destruct (decide _).
  - cbn. rewrite Hsz, (rp_count _ _ R). lia.
  - cbn. rewrite Hsz. lia.
Qed.

Lemma remove_size r x (s s' : State) : rep r s -> rep (rk_remove x r) s' -> in_ranking x r ->
  ListNodes s' !! x = None /\ Z.of_nat (size (ListNodes s')) < u32_max.
Proof.
  intros R R' Hx. assert (Ex : ListNodes s' !! x = None).
  { apply (rep_absent _ _ _ R'). intros [b Hb]. simpl in Hb. apply list_elem_of_filter in Hb as [? _]. done. }
  split; [done |]. enough (size (ListNodes s') < size (ListNodes s))%nat by (pose proof (rp_small _ _ R); lia).
  rewrite <- !size_dom. apply subset_size. split.
  - intros y. rewrite !elem_of_dom, (rep_contains _ _ _ R), (rep_contains _ _ _ R'). intros [b Hb].
    exists b. simpl in Hb. by apply list_elem_of_filter in Hb as [_ ?].
  - intros Hsub. apply (rep_contains _ _ _ R) in Hx. apply elem_of_dom, Hsub, elem_of_dom in Hx as [? ?]. congruence.
Qed.

Lemma front_run r (s : State) b y x : rep r s -> y ∈ rk_members r b -> x ∈ rk_members r b ->
  score_gt (score x (outside s)) (score y (outside s)) = true ->
  exists s', list_put_in_front_of y x s = (Ok tt, s') /\ rep (rk_front y x r) s' /\ same_rest s s'.
Proof.
  intros R Hy Hx Hgt. assert (Hne : y <> x).
  { intros ->. destruct (score x (outside s)); simpl in Hgt; [lia | done]. }
  destruct (rep_elem _ _ _ _ R Hy) as (k1 & k2 & Ky & Ey). destruct (rep_elem _ _ _ _ R Hx) as (m1 & m2 & Kx & Ex).
  assert (Hin : in_ranking x r) by (by exists b).
  destruct (remove_run r x s R Hin) as (s1 & Hrun & R1 & Hr1).
  destruct (remove_size r x s s1 R R1 Hin) as [Ex1 Hsz].
  assert (Hy1 : y ∈ rk_members (rk_remove x r) b) by (by apply list_elem_of_filter).
  destruct (rep_elem _ _ _ _ R1 Hy1) as (l1 & l2 & E1 & Ey1).
  destruct (insert_at_run _ s1 b l1 y l2 x (node_between m1 x m2 b (rk_points r x)) R1 E1 Ex1 Hsz)
    as (s' & Hrun' & Hr' & R'); [done | done |].
  exists s'. split; [| split; [| by etrans]].
  - unfold list_put_in_front_of, bind at 1, gets, node_get. rewrite Ey. cbn [ok_or]. unfold bind at 1, ret at 1.
    unfold bind at 1. rewrite Ex. cbn [ok_or]. unfold bind at 1, ret at 1. cbn [node_bag_upper node_between].
    rewrite Z.eqb_refl. unfold ensure at 1, bind at 1, ret at 1, bind at 1. rewrite Hgt. unfold ensure, bind at 1, ret at 1.
    unfold bind at 1, try. rewrite Hrun. unfold bind at 1. rewrite Ey1. cbn [ok_or]. unfold bind, ret. exact Hrun'.
  - assert (Heq : {| rk_members := set_members b (l1 ++ x :: y :: l2) (rk_members (rk_remove x r));
        rk_points := set_points x (rk_points r x) (rk_points (rk_remove x r)) |} ≡ rk_front y x r).
    { split; simpl.
      - intros b'. unfold set_members. destruct (decide (b' = b)) as [-> | Hb].
        + simpl in E1. rewrite E1, before_split; [done |]. pose proof (ln_nodup _ _ _ _ (rp_linked _ _ R1) b) as Hn.
          simpl in Hn. rewrite E1 in Hn. apply NoDup_split, not_elem_of_app in Hn. tauto.
        + rewrite before_absent; [done |]. intros Hy'. apply Hb. apply (linked_disjoint (rp_linked _ _ R1) y); done.
      - intros b' z _. unfold set_points. by destruct (decide (z = x)) as [-> |]. }
    by rewrite <- Heq.
Qed.

Lemma front_errors r (s : State) y x : rep r s ->
  (~ (exists b, y ∈ rk_members r b /\ x ∈ rk_members r b) ->
   exists e, e ∈ [NodeNotFound; NotInSameBag] /\ list_put_in_front_of y x s = (Err (BError (BList e)), s)) /\
  (forall b, y ∈ rk_members r b -> x ∈ rk_members r b -> score_gt (score x (outside s)) (score y (outside s)) = false ->
   list_put_in_front_of y x s = (Err (BError (BList NotHeavier)), s)).
Proof.
  intros R. split.
  - intros Hno. unfold list_put_in_front_of, bind at 1, gets, node_get. destruct (ListNodes s !! y) as [ny |] eqn:Ey; cbn [ok_or]; [| exists NodeNotFound; split; [left | done]].
    unfold bind at 1, ret at 1, bind at 1.
    destruct (ListNodes s !! x) as [nx |] eqn:Ex; cbn [ok_or]; [| exists NodeNotFound; split; [left | done]].
    unfold bind at 1, ret at 1. exists NotInSameBag. split; [right; left |].
    destruct (rep_in _ _ _ _ R Ey) as (k1 & k2 & Ky & _). destruct (rep_in _ _ _ _ R Ex) as (m1 & m2 & Kx & _).
    unfold bind at 1, ensure. rewrite (proj2 (Z.eqb_neq _ _)); [done |]. intros Eb. apply Hno.
    exists (node_bag_upper ny). rewrite Ky at 1. rewrite Eb, Kx. split; apply elem_of_app; right; left.
  - intros b Hy Hx Hgt. destruct (rep_elem _ _ _ _ R Hy) as (k1 & k2 & _ & Ey). destruct (rep_elem _ _ _ _ R Hx) as (m1 & m2 & _ & Ex).
    unfold list_put_in_front_of, bind at 1, gets, node_get. rewrite Ey. cbn [ok_or].
    unfold bind at 1, ret at 1. unfold bind at 1. rewrite Ex. cbn [ok_or].
    unfold bind at 1, ret at 1. cbn [node_bag_upper node_between]. rewrite Z.eqb_refl.
    unfold ensure at 1, bind at 1, ret at 1, bind at 1. rewrite Hgt. done.
Qed.
End rep.
