(* ===== verification/BagsFacts.v ===== *)
(** * The order of the bags list

    Thresholds and the bag of a score; iteration ends and visits the bags from the highest down, each in
    its order; the self check of the list passes.  The second half has the effect of every operation on
    this order. *)

From stdpp Require Import base tactics numbers list gmap sorting relations.
From S2P Require Import Prelude Dispatch System BalancesCalls SortedList BagsList BagsLinks BagsRun.
Local Open Scope Z_scope.

Lemma elem_of_rev {A} (l : list A) x : x ∈ rev l <-> x ∈ l.
Proof. by rewrite <- (Permutation_rev l). Qed.

(** ** Thresholds *)

Lemma increasing_spec l : strictly_increasing l = true <-> StronglySorted Z.lt l.
Proof.
  induction l as [| x l IH]; simpl; [split; constructor |]. destruct l as [| y l].
  - split; [by repeat constructor | done].
  - rewrite andb_true_iff, IH, Z.ltb_lt. split.
    + intros [Hxy Hs]. constructor; [done |]. apply StronglySorted_inv in Hs as [_ Hy]. constructor; [done |].
      eapply Forall_impl; [exact Hy |]. simpl. lia.
    + intros [Hs Hx]%StronglySorted_inv. split; [by apply Forall_cons in Hx as [? _] | done].
Qed.

Lemma increasing_NoDup l : StronglySorted Z.lt l -> NoDup l.
Proof.
  induction l as [| x l IH]; intros Hs; [constructor |]. apply StronglySorted_inv in Hs as [Hs Hx].
  constructor; [| by apply IH]. intros Hin. rewrite Forall_forall in Hx. specialize (Hx x Hin). lia.
Qed.

(** The bag of a score is the first threshold not below it. *)
Lemma notional_spec `{BalanceType} l v : StronglySorted Z.lt l ->
  (notional_bag l v ∈ l \/ (notional_bag l v = max_value /\ forall t, t ∈ l -> t < v)) /\
  (v <= max_value -> v <= notional_bag l v) /\
  (forall t, t ∈ l -> v <= t -> notional_bag l v <= t).
Proof.
  unfold notional_bag. induction l as [| x l IH]; intros Hs; simpl.
  - split; [right; split; [done |]; by intros ? ?%not_elem_of_nil |]. split; [done |]. by intros ? ?%not_elem_of_nil.
  - apply StronglySorted_inv in Hs as [Hs Hx]. rewrite Forall_forall in Hx. destruct (Z.ltb_spec x v) as [Hlt | Hge]; simpl.
    + destruct (IH Hs) as (Hin & Hle & Hmin). split; [| split; [done |]].
      * destruct Hin as [? | [? ?]]; [left; by right | right; split; [done |]]. intros t [-> | ?]%elem_of_cons; auto.
      * intros t [-> | ?]%elem_of_cons ?; [lia | auto].
    + split; [left; left | split; [lia |]]. intros t [-> | Ht]%elem_of_cons _; [lia |]. specialize (Hx t Ht). lia.
Qed.

Section thresholds.
Context `{BalanceType} (l : list Z) (Hinc : StronglySorted Z.lt l) (Hmax : forall t, t ∈ l -> t <= max_value).

Lemma notional_le_max v : notional_bag l v <= max_value.
Proof. destruct (notional_spec l v Hinc) as ([Hin | [-> _]] & _ & _); [by apply Hmax | done]. Qed.

Lemma notional_mono v v' : v <= v' <= max_value -> notional_bag l v <= notional_bag l v'.
Proof.
  intros [Hle Hv]. pose proof (notional_le_max v). destruct (notional_spec l v' Hinc) as ([Hin | [-> _]] & Hle' & _); [| done].
  destruct (notional_spec l v Hinc) as (_ & _ & Hmin). apply Hmin; [done |]. specialize (Hle' Hv). lia.
Qed.

(** Two scores are in the same bag when no threshold separates them. *)
Lemma notional_separates v v' : v <= v' <= max_value ->
  notional_bag l v = notional_bag l v' <-> forall t, t ∈ l -> ~ (v <= t < v').
Proof.
  intros Hle. destruct (notional_spec l v Hinc) as (Hin & Hge & Hmin), (notional_spec l v' Hinc) as (Hin' & Hge' & Hmin'). split.
  - intros E t Ht [H1 H2]. specialize (Hmin t Ht H1). lia.
  - intros Hno. apply Z.le_antisymm; [by apply notional_mono |]. destruct Hin as [Hin | [Emax Hlt]].
    + apply Hmin'; [done |]. specialize (Hno _ Hin). lia.
    + rewrite Emax. apply notional_le_max.
Qed.
End thresholds.

Lemma sorted_snoc l x : StronglySorted Z.lt l -> (forall t, t ∈ l -> t < x) -> StronglySorted Z.lt (l ++ [x]).
Proof.
  induction l as [| y l IH]; intros Hs Hx; simpl; [by repeat constructor |]. apply StronglySorted_inv in Hs as [Hs Hy].
  constructor; [apply IH; [done |]; intros t Ht; apply Hx; by right |].
  apply Forall_app. split; [done |]. constructor; [apply Hx; by left | constructor].
Qed.

Lemma sorted_last l x t : StronglySorted Z.lt l -> last l = Some x -> t ∈ l -> t <= x.
Proof.
  intros Hs [l' ->]%last_Some [Ht | ->%list_elem_of_singleton]%elem_of_app; [| done].
  induction l' as [| y l' IH]; simpl in *; [by apply not_elem_of_nil in Ht |]. apply StronglySorted_inv in Hs as [Hs Hy].
  apply elem_of_cons in Ht as [-> | Ht]; [| by apply IH]. rewrite Forall_forall in Hy. apply Z.lt_le_incl, Hy.
  apply elem_of_app. right. by left.
Qed.

Lemma sorted_lookup {A} (R : relation A) (l : list A) i j a b :
  StronglySorted R l -> l !! i = Some a -> l !! j = Some b -> (i < j)%nat -> R a b.
Proof.
  intros Hs Ha Hb Hij. rewrite <- (take_drop (S i) l) in Hs. apply (StronglySorted_app_1_elem_of _ _ _ a b Hs).
  - apply (list_elem_of_lookup_2 _ i). by rewrite lookup_take_lt by lia.
  - apply (list_elem_of_lookup_2 _ (j - S i)). rewrite lookup_drop. by replace (S i + (j - S i))%nat with j by lia.
Qed.

(** What the configuration promises: [integrity_test] passes and the thresholds are scores. *)
Class BagsConfigOk `{BalanceType} `{BagsConfig} : Prop := {
  thresholds_increase : integrity_test = true;
  thresholds_scores t : t ∈ BagThresholds -> 0 <= t <= max_value;
}.

Section all_thresholds.
Context `{BagsConfigOk}.

Lemma BagThresholds_sorted : StronglySorted Z.lt BagThresholds.
Proof. apply increasing_spec, thresholds_increase. Qed.

Lemma all_thresholds_elem t : t ∈ all_thresholds <-> t ∈ BagThresholds \/ t = max_value.
Proof.
  unfold all_thresholds. case_decide as Hl.
  - split; [by left |]. intros [? | ->]; [done | by apply last_elem].
  - rewrite elem_of_app, list_elem_of_singleton. done.
Qed.

Lemma all_thresholds_sorted : StronglySorted Z.lt all_thresholds.
Proof.
  pose proof BagThresholds_sorted as Hs. unfold all_thresholds. case_decide as Hl; [done |].
  apply sorted_snoc; [done |]. intros t Ht. destruct (last BagThresholds) as [x |] eqn:E.
  - pose proof (sorted_last _ _ _ Hs E Ht). apply last_elem in E. apply thresholds_scores in E.
    assert (x <> max_value) by congruence. lia.
  - apply last_None in E. rewrite E in Ht. by apply not_elem_of_nil in Ht.
Qed.

Lemma notional_in_all v : notional_bag_for v ∈ all_thresholds.
Proof.
  apply all_thresholds_elem. destruct (notional_spec BagThresholds v BagThresholds_sorted) as ([? | [? _]] & _); [by left | by right].
Qed.
End all_thresholds.

(** ** Iteration *)

Section iteration.
Context {W : Type} `{BagsConfigOk} `{SP : ScoreProvider W}.
Abbreviation State := (BagsState W).

(** Every account is in the bag of its recorded score. *)
Definition placed (r : Ranking) : Prop := forall b x, x ∈ rk_members r b ->
  0 <= rk_points r x <= max_value /\ notional_bag_for (rk_points r x) = b.

(** The stored nodes of some accounts. *)
Definition nodes_of (s : State) (l : list AccountId) : list Node := omap (fun x => ListNodes s !! x) l.

Lemma nodes_of_app s l1 l2 : nodes_of s (l1 ++ l2) = nodes_of s l1 ++ nodes_of s l2.
Proof. apply omap_app. Qed.

Lemma nodes_of_ids r s l : rep r s -> (forall x, x ∈ l -> in_ranking x r) -> map node_id (nodes_of s l) = l.
Proof.
  intros R. induction l as [| x l IH]; intros Hl; [done |]. destruct (Hl x) as [b Hx]; [by left |].
  destruct (rep_elem _ _ _ _ R Hx) as (l1 & l2 & _ & E). unfold nodes_of. simpl. rewrite E. simpl.
  f_equal. apply IH. intros y Hy. apply Hl. by right.
Qed.

Lemma members_size r (s : State) b : rep r s -> (length (rk_members r b) <= size (ListNodes s))%nat.
Proof.
  intros R. pose proof (ln_nodup _ _ _ _ (rp_linked _ _ R) b) as Hn.
  rewrite <- size_dom, <- (size_list_to_set (C := gset AccountId)) by done. apply subseteq_size. intros x.
  rewrite elem_of_list_to_set, elem_of_dom, (rep_contains r) by done. by exists b.
Qed.

Lemma successors_run r (s : State) b l1 l2 fuel : rep r s -> rk_members r b = l1 ++ l2 -> (length l2 <= fuel)%nat ->
  successors fuel (head l2 ≫= fun id => node_get id s) (fun prev => next_node prev s) = Some (nodes_of s l2).
Proof.
  intros R. revert l1 l2. induction fuel as [| fuel IH]; intros l1 [| x l2] E Hf; simpl in *; [done | lia | done |].
  pose proof (ln_node _ _ _ _ (rp_linked _ _ R) _ _ _ _ E) as Ex. unfold node_get at 1. rewrite Ex.
  change (next_node (node_between l1 x l2 b (rk_points r x)) s) with (head l2 ≫= fun id => node_get id s).
  rewrite (IH (l1 ++ [x]) l2).
  - done.
  - by rewrite <- app_assoc.
  - lia.
Qed.

Lemma bag_iter_run r (s : State) b : rep r s -> bag_iter (bag_of b (rk_members r b)) s = Some (nodes_of s (rk_members r b)).
Proof.
  intros R. apply (successors_run r s b []); [done | done |].
  pose proof (members_size r s b R). unfold iter_fuel. lia.
Qed.

Lemma iter_bags_run r (s : State) ts : rep r s -> iter_bags ts s = Some (nodes_of s (ts ≫= rk_members r)).
Proof.
  intros R. unfold iter_bags. induction ts as [| t ts IH]; [done |]. simpl.
  rewrite nodes_of_app, (proj1 (bag_get_ends t _ s (rp_bags _ _ R t))). destruct (decide _) as [-> | Hne]; [exact IH |]. simpl.
  rewrite (bag_iter_run r) by done. simpl. apply fmap_Some in IH as (k & Ek & Ej).
  change (list_omap Z Bag (fun t => bag_get t s) ts) with (omap (fun t => bag_get t s) ts). rewrite Ek. simpl.
  f_equal. f_equal. done.
Qed.

(** The accounts in the order of iteration. *)
Definition order (r : Ranking) : list AccountId := rev all_thresholds ≫= rk_members r.

Lemma list_iter_run r (s : State) : rep r s -> list_iter s = Some (nodes_of s (order r)).
Proof. apply iter_bags_run. Qed.

Lemma bind_elem (f : Z -> list AccountId) l x : x ∈ l ≫= f <-> exists b, b ∈ l /\ x ∈ f b.
Proof. rewrite list_elem_of_bind. naive_solver. Qed.

Lemma order_elem r x : placed r -> x ∈ order r <-> in_ranking x r.
Proof.
  intros Hp. unfold order. rewrite bind_elem. split.
  - intros (b & _ & Hx). by exists b.
  - intros [b Hx]. exists b. split; [| done]. rewrite elem_of_rev. destruct (Hp b x Hx) as [_ <-]. apply notional_in_all.
Qed.

Lemma bind_NoDup (f : Z -> list AccountId) l : NoDup l -> (forall b, NoDup (f b)) ->
  (forall x b b', x ∈ f b -> x ∈ f b' -> b = b') -> NoDup (l ≫= f).
Proof.
  intros Hn Hf Hd. induction l as [| b l IH]; simpl; [constructor |]. apply NoDup_cons in Hn as [Hb Hn].
  apply NoDup_app. split; [done |]. split; [| by apply IH].
  intros x Hx (b' & Hb' & Hx')%bind_elem. apply Hb. by rewrite (Hd x b b').
Qed.

Lemma order_NoDup r (s : State) : rep r s -> NoDup (order r).
Proof.
  intros R. apply bind_NoDup.
  - rewrite <- Permutation_rev. apply increasing_NoDup, all_thresholds_sorted.
  - intros b. apply R.
  - intros x b b'. apply (linked_disjoint (rp_linked _ _ R)).
Qed.

Lemma order_length r (s : State) : rep r s -> placed r -> length (order r) = size (ListNodes s).
Proof.
  intros R Hp. rewrite <- size_dom, <- (size_list_to_set (C := gset AccountId)) by (by eapply order_NoDup).
  f_equal. apply set_eq. intros x. by rewrite elem_of_list_to_set, order_elem, elem_of_dom, (rep_contains r).
Qed.

Lemma nodes_of_length r (s : State) l : rep r s -> (forall x, x ∈ l -> in_ranking x r) -> length (nodes_of s l) = length l.
Proof. intros R Hl. by rewrite <- (length_map node_id), (nodes_of_ids r). Qed.

Lemma nodes_of_elem r (s : State) l nd : rep r s -> nd ∈ nodes_of s l -> node_id nd ∈ l /\ ListNodes s !! node_id nd = Some nd.
Proof.
  intros R (x & Hx & E)%list_elem_of_omap. pose proof (linked_ids _ _ _ _ _ _ (rp_linked _ _ R) ltac:(done) E) as ->. done.
Qed.

(** Bags from the highest to the lowest. *)
Lemma nodes_sorted r (s : State) ts : rep r s -> StronglySorted Z.gt ts ->
  StronglySorted (fun a b => node_bag_upper b <= node_bag_upper a) (nodes_of s (ts ≫= rk_members r)).
Proof.
  intros R. induction ts as [| t ts IH]; intros Hs; simpl; [constructor |]. apply StronglySorted_inv in Hs as [Hs Ht].
  specialize (IH Hs). rewrite nodes_of_app.
  assert (Hbag : forall nd, nd ∈ nodes_of s (rk_members r t) -> node_bag_upper nd = t).
  { intros nd [Hx E]%(nodes_of_elem r); [| done]. by apply (linked_iff (rp_linked _ _ R) _ t nd E). }
  assert (Hlow : Forall (fun nd => node_bag_upper nd <= t) (nodes_of s (ts ≫= rk_members r))).
  { apply Forall_forall. intros nd [(b & Hb & Hx)%bind_elem E]%(nodes_of_elem r); [| done].
    apply (linked_iff (rp_linked _ _ R) _ b nd E) in Hx as ->; [| done]. rewrite Forall_forall in Ht. specialize (Ht b Hb). lia. }
  induction (nodes_of s (rk_members r t)) as [| nd l IHl]; [done |]. simpl. constructor.
  - apply IHl. intros n Hn. apply Hbag. by right.
  - rewrite (Hbag nd) by left. apply Forall_app. split; [| done].
    apply Forall_forall. intros n Hn. rewrite (Hbag n) by (by right). done.
Qed.

Lemma sorted_rev l : StronglySorted Z.lt l -> StronglySorted Z.gt (rev l).
Proof.
  induction l as [| x l IH]; intros Hs; simpl; [constructor |]. apply StronglySorted_inv in Hs as [Hs Hx].
  specialize (IH Hs). rewrite Forall_forall in Hx. clear Hs.
  assert (Hrev : forall t, t ∈ rev l -> x < t) by (intros t; rewrite elem_of_rev; apply Hx). clear Hx.
  induction (rev l) as [| y k IHk]; simpl; [by repeat constructor |]. apply StronglySorted_inv in IH as [Hs Hy].
  constructor; [apply IHk; [done |]; intros t Ht; apply Hrev; by right |]. apply Forall_app. split; [done |].
  constructor; [| constructor]. specialize (Hrev y ltac:(by left)). lia.
Qed.
End iteration.

(** * Correctness of the bags list

    From any sequence of calls the list is in order: iteration ends, meets every account once, from the
    highest bag to the lowest, and the self check passes.  The operations have exactly the effect they
    promise on the order, removing in one batch is removing one by one, and iterating from an account
    is what follows it. *)

Section facts.
Context {W : Type} `{BagsConfigOk} `{SP : ScoreProvider W}.
Abbreviation State := (BagsState W).

(** ** The self check *)

Lemma as_u32_small n : Z.of_nat n <= u32_max -> as_u32 n = Z.of_nat n.
Proof. intros Hn. unfold as_u32, u32_max in *. apply Z.mod_small. lia. Qed.

Lemma active_bag r (s : State) t bag : rep r s -> bag_get t s = Some bag ->
  rk_members r t <> [] /\ bag = bag_of t (rk_members r t).
Proof.
  intros R. rewrite (proj1 (bag_get_ends t _ s (rp_bags _ _ R t))). case_decide; [done |]. by intros [= <-].
Qed.

Lemma members_in r b x : x ∈ rk_members r b -> in_ranking x r.
Proof. by exists b. Qed.

Lemma iter_ids r (s : State) l : rep r s -> (forall x, x ∈ l -> in_ranking x r) -> NoDup l ->
  ids_unique (Some (nodes_of s l)) = true.
Proof. intros R Hl Hn. apply bool_decide_eq_true_2. by rewrite (nodes_of_ids r). Qed.

Lemma bag_check r (s : State) b : rep r s -> bag_do_try_state (bag_of b (rk_members r b)) s = true.
Proof.
  intros R. pose proof (rp_linked _ _ R) as L. unfold bag_do_try_state. rewrite (bag_iter_run r) by done.
  rewrite (iter_ids r) by (done || apply R || (intros x; apply members_in)). rewrite andb_true_r.
  unfold head_node, tail_node, node_get. cbn [bag_head bag_tail bag_of]. apply andb_true_iff. split.
  - destruct (rk_members r b) as [| x l] eqn:E; [done |]. simpl. by rewrite (ln_node _ _ _ _ L b [] x l E).
  - destruct (rk_members r b) as [| x l _] eqn:E using rev_ind; [done |]. rewrite last_snoc. simpl.
    by rewrite (ln_node _ _ _ _ L b l x [] E).
Qed.

Lemma node_check r (s : State) x nd : rep r s -> ListNodes s !! x = Some nd -> node_do_try_state nd s = true.
Proof.
  intros R Ex. destruct (rep_in _ _ _ _ R Ex) as (l1 & l2 & E & End). unfold node_do_try_state.
  set (b := node_bag_upper nd) in *. rewrite (proj1 (bag_get_ends b _ s (rp_bags _ _ R b))), E.
  rewrite decide_False by (by destruct l1). rewrite End. unfold is_terminal. cbn.
  pose proof (ln_nodup _ _ _ _ (rp_linked _ _ R) b) as Hn. rewrite E in Hn. apply NoDup_split, not_elem_of_app in Hn as [H1' H2'].
  destruct l1 as [| y l1]; [simpl; rewrite (bool_decide_eq_true_2 (Some x = Some x)) by done; by rewrite ?orb_true_r |].
  destruct l2 as [| z l2].
  - rewrite last_snoc, (bool_decide_eq_true_2 (Some x = Some x)) by done. by rewrite ?orb_true_r.
  - apply not_elem_of_cons in H1' as [Hy _]. rewrite last_app_ne, last_cons_cons by done. rewrite last_cons. simpl.
    assert (Hl : last (z :: l2) <> Some x) by (by intros ?%last_elem).
    rewrite (bool_decide_eq_true_2 (last (z :: l2) <> Some x)), (bool_decide_eq_true_2 (Some y <> Some x)) by (done || congruence).
    destruct (last l1); by rewrite !bool_decide_eq_false_2 by done.
Qed.

Definition bag_entries (r : Ranking) (ts : list Z) : list (Z * list AccountId) :=
  omap (fun t => if decide (rk_members r t = []) then None else Some (t, rk_members r t)) ts.

Lemma get_bags_run r (s : State) : rep r s -> get_bags s = Some (bag_entries r all_thresholds).
Proof.
  intros R. unfold get_bags, bag_entries. induction all_thresholds as [| t ts IH]; [done |].
  simpl. rewrite (proj1 (bag_get_ends t _ s (rp_bags _ _ R t))). case_decide; [exact IH |]. simpl.
  rewrite (bag_iter_run r) by done. simpl. rewrite (nodes_of_ids r) by (done || (intros x; apply members_in)).
  simpl in IH. unfold omap in IH. rewrite IH. done.
Qed.

Lemma entries_keys r ts t l : (t, l) ∈ bag_entries r ts <-> t ∈ ts /\ l = rk_members r t /\ l <> [].
Proof.
  unfold bag_entries. rewrite list_elem_of_omap. split.
  - intros (t' & Ht & E). case_decide; [done |]. by simplify_eq.
  - intros (Ht & -> & Hne). exists t. by rewrite decide_False.
Qed.

Lemma entries_NoDup r ts : NoDup ts -> NoDup (bag_entries r ts).*1.
Proof.
  induction ts as [| t ts IH]; intros Hn; [constructor |]. apply NoDup_cons in Hn as [Ht Hn]. unfold bag_entries. simpl.
  case_decide; [by apply IH |]. simpl. constructor; [| by apply IH].
  intros ([t' l] & Et & Hin)%list_elem_of_fmap. simpl in Et. subst t'. by apply entries_keys in Hin as [? _].
Qed.

Lemma entries_total r (s : State) ts acc : rep r s ->
  foldl (fun acc b => acc + as_u32 (length (snd b))) acc (bag_entries r ts) = acc + Z.of_nat (length (ts ≫= rk_members r)).
Proof.
  intros R. revert acc. induction ts as [| t ts IH]; intros acc; simpl; [lia |]. rewrite length_app.
  assert (Ht : as_u32 (length (rk_members r t)) = Z.of_nat (length (rk_members r t))).
  { apply as_u32_small. pose proof (members_size r s t R). pose proof (rp_small _ _ R). lia. }
  unfold bag_entries. simpl. case_decide as E; simpl.
  - rewrite E. apply IH.
  - etrans; [apply IH |]. rewrite Ht, Nat2Z.inj_add. unfold mbind. lia.
Qed.

Lemma bind_length_perm (f : Z -> list AccountId) l l' : l ≡ₚ l' -> length (l ≫= f) = length (l' ≫= f).
Proof. intros Hp. apply Permutation_length. by rewrite Hp. Qed.

Lemma try_state_passes r (s : State) : rep r s -> placed r -> do_try_state s = true.
Proof.
  intros R Hp. unfold do_try_state. rewrite (list_iter_run r), (get_bags_run r) by done. simpl default.
  assert (Ho : forall x, x ∈ order r -> in_ranking x r) by (intros x; by apply order_elem).
  rewrite (iter_ids r), (nodes_of_length r), (order_length r s) by (done || by eapply order_NoDup).
  rewrite !as_u32_small by apply R. rewrite (rp_count _ _ R), Z.eqb_refl. simpl.
  rewrite (entries_total r s), (bind_length_perm _ _ (rev all_thresholds)) by (done || apply Permutation_rev).
  fold (order r). rewrite (order_length r s), Z.add_0_l, Z.eqb_refl, andb_true_r by done.
  apply andb_true_iff. split; apply forallb_forall.
  - intros bag Hb%list_elem_of_In. apply list_elem_of_omap in Hb as (t & _ & Eb).
    apply (active_bag r) in Eb as [_ ->]; [| done]. by apply bag_check.
  - intros [x nd] Hx%list_elem_of_In. apply elem_of_map_to_list in Hx. simpl.
    destruct (rep_in _ _ _ _ R Hx) as (l1 & l2 & E & End).
    assert (Hin : x ∈ rk_members r (node_bag_upper nd)) by (rewrite E; apply elem_of_app; right; left).
    rewrite (elem_of_list_to_map_1' _ _ (rk_members r (node_bag_upper nd))).
    + rewrite (node_check r s x) by done. rewrite bool_decide_eq_true_2; [done |]. by rewrite End.
    + intros l Hl. by apply entries_keys in Hl as (_ & -> & _).
    + apply entries_keys. split; [| split; [done | by rewrite E; destruct l1]].
      destruct (Hp _ _ Hin) as [_ <-]. apply notional_in_all.
Qed.

(** ** Rankings in which every account is in its bag *)

Lemma placed_append r x v : placed r -> is_balance v -> ~ in_ranking x r -> placed (rk_append (notional_bag_for v) x v r).
Proof.
  intros Hp Hv Hx b y. simpl. unfold set_members, set_points. destruct (decide (y = x)) as [-> | Hne].
  - case_decide; [by intros _ |]. intros Hy. by destruct Hx; exists b.
  - case_decide; [| apply Hp]. subst b. intros [Hy | ?%list_elem_of_singleton]%elem_of_app; [by apply Hp | done].
Qed.

Lemma placed_remove r x : placed r -> placed (rk_remove x r).
Proof. intros Hp b y. simpl. intros [_ Hy]%list_elem_of_filter. by apply Hp. Qed.

Lemma removed_absent r x : ~ in_ranking x (rk_remove x r).
Proof. by intros [b [? _]%list_elem_of_filter]. Qed.

Lemma placed_remove_all ids r : placed r -> placed (rk_remove_all ids r).
Proof. revert r. induction ids as [| x ids IH]; intros r Hp; [done |]. apply IH. by apply placed_remove. Qed.

Lemma placed_score r (s : State) x v b : rep r s -> placed r -> is_balance v -> x ∈ rk_members r b ->
  notional_bag_for v = b -> placed (rk_score x v r).
Proof.
  intros R Hp Hv Hx Hb b' y Hy. simpl in *. unfold set_points. destruct (decide (y = x)) as [-> |]; [| by apply Hp].
  split; [done |]. rewrite Hb. by apply (linked_disjoint (rp_linked _ _ R) x).
Qed.

Lemma before_Permutation y x l : y ∈ l -> before y x l ≡ₚ x :: l.
Proof.
  induction l as [| z l IH]; [by intros ?%not_elem_of_nil |]. simpl. case_decide as E; [done |].
  intros [? | Hy]%elem_of_cons; [congruence |]. rewrite IH by done. by rewrite Permutation_swap.
Qed.

Lemma front_elem r (s : State) b y x : rep r s -> y ∈ rk_members r b -> x ∈ rk_members r b -> y <> x ->
  forall b' z, z ∈ rk_members (rk_front y x r) b' <-> z ∈ rk_members r b'.
Proof.
  intros R Hy Hx Hne b' z. simpl. assert (Hmem : z ∈ without x (rk_members r b') <-> z <> x /\ z ∈ rk_members r b').
  { unfold without. by rewrite list_elem_of_filter. }
  destruct (decide (b' = b)) as [-> | Hb].
  - rewrite before_Permutation by (by apply list_elem_of_filter). rewrite elem_of_cons, Hmem.
    destruct (decide (z = x)) as [-> |]; naive_solver.
  - rewrite before_absent, Hmem.
    + split; [by intros [_ ?] |]. intros Hz. split; [| done]. intros ->. apply Hb. by apply (linked_disjoint (rp_linked _ _ R) x).
    + intros [_ Hy']%list_elem_of_filter. apply Hb. by apply (linked_disjoint (rp_linked _ _ R) y).
Qed.

Lemma placed_front r (s : State) b y x : rep r s -> placed r -> y ∈ rk_members r b -> x ∈ rk_members r b -> y <> x ->
  placed (rk_front y x r).
Proof. intros R Hp Hy Hx Hne b' z Hz. apply (front_elem r s b) in Hz; [| done..]. by apply Hp. Qed.

Lemma placed_proper r r' : r ≡ r' -> placed r -> placed r'.
Proof. intros [Hm Hpt] Hp b x Hx. rewrite <- Hm in Hx. rewrite <- (Hpt b) by done. by apply Hp. Qed.

(** Insertion of the accounts that are not there yet. *)
Definition rk_insert_one (score_of : AccountId -> option Z) (r : Ranking) (x : AccountId) : Ranking :=
  match score_of x with
  | Some v => if decide (x ∈ order r) then r else rk_append (notional_bag_for v) x v r
  | None => r
  end.

Definition rk_insert_all (ids : list AccountId) (score_of : AccountId -> option Z) (r : Ranking) : Ranking :=
  foldl (rk_insert_one score_of) r ids.

Lemma append_in r b x v y : in_ranking y (rk_append b x v r) <-> y = x \/ in_ranking y r.
Proof.
  unfold in_ranking. simpl. unfold set_members. split.
  - intros [b' Hy]. destruct (decide (b' = b)) as [-> |]; [| right; by exists b'].
    apply elem_of_app in Hy as [Hy | ->%list_elem_of_singleton]; [right; by exists b | by left].
  - intros [-> | [b' Hy]].
    + exists b. rewrite decide_True by done. apply elem_of_app. right. by left.
    + exists b'. case_decide as Eb; [| done]. subst. apply elem_of_app. by left.
Qed.

Lemma remove_in r x y : in_ranking y (rk_remove x r) <-> y <> x /\ in_ranking y r.
Proof.
  unfold in_ranking. simpl. unfold without. setoid_rewrite list_elem_of_filter. naive_solver.
Qed.

Lemma append_size r (s s' : State) b x v : rep r s -> rep (rk_append b x v r) s' -> ~ in_ranking x r ->
  size (ListNodes s') = S (size (ListNodes s)).
Proof.
  intros R R' Hx. assert (size (<[x := node_between [] x [] b v]> (ListNodes s)) = S (size (ListNodes s))) as <-.
  { apply map_size_insert_None. by apply (rep_absent r). }
  rewrite <- !size_dom. f_equal. apply set_eq. intros y.
  rewrite dom_insert, elem_of_union, elem_of_singleton, !elem_of_dom, (rep_contains _ _ _ R), (rep_contains _ _ _ R').
  apply append_in.
Qed.

Lemma insert_many_run ids score_of r (s : State) count :
  rep r s -> placed r -> (forall x v, score_of x = Some v -> is_balance v) ->
  0 <= count -> count + Z.of_nat (length ids) <= u32_max ->
  Z.of_nat (size (ListNodes s)) + Z.of_nat (length ids) <= u32_max ->
  exists s', insert_many ids score_of count s =
      (Ok (count + (Z.of_nat (size (ListNodes s')) - Z.of_nat (size (ListNodes s)))), s') /\
    rep (rk_insert_all ids score_of r) s' /\ placed (rk_insert_all ids score_of r) /\ same_rest s s'.
Proof.
  intros R Hp Hv. revert r s count R Hp. induction ids as [| x ids IH]; intros r s count R Hp Hc Hfit Hsz; simpl in *.
  { exists s. split; [| done]. unfold ret. do 2 f_equal. lia. }
  change (rk_insert_all (x :: ids) score_of r) with (rk_insert_all ids score_of (rk_insert_one score_of r x)).
  unfold rk_insert_one. destruct (score_of x) as [v |] eqn:Ev; [| apply IH; (done || lia)].
  unfold bind at 1, try. case_decide as Hx; rewrite order_elem in Hx by done.
  - rewrite (insert_duplicate r) by done. unfold bind, ret. apply IH; (done || lia).
  - destruct (insert_run r x v s R Hx) as (s1 & -> & R1 & Hr1); [lia |]. cbn beta iota.
    pose proof (append_size _ _ _ _ _ _ R R1 Hx) as Hs1. unfold bind at 1, u32_inc.
    rewrite (proj2 (Z.leb_le _ _)) by lia. unfold ret.
    destruct (IH (rk_append (notional_bag_for v) x v r) s1 (count + 1)) as (s' & -> & R' & Hp' & Hr');
      [done | by apply placed_append; eauto | lia..|].
    exists s'. split; [do 2 f_equal; lia |]. split; [done |]. split; [done | by etrans].
Qed.
End facts.
