(* ===== verification/BagsSpec.v ===== *)
(** * What the bags list promises

    The specification of every operation on rankings, errors and events included, the theorem that the
    pallet implements it, and its consequences for every storage that calls can lead to. *)

From stdpp Require Import base tactics numbers list gmap sorting relations.
From S2P Require Import Prelude Dispatch System BalancesCalls SortedList BagsList BagsLinks BagsRun BagsFacts.
Local Open Scope Z_scope.

(** Scores are values of the score type. *)
Definition scores_typed {W : Type} `{BalanceType} `{ScoreProvider W} (w : W) : Prop :=
  forall x v, score x w = Some v -> is_balance v.

Section spec.
Context {W : Type} `{BagsConfigOk} `{SP : ScoreProvider W}.
Abbreviation State := (BagsState W).

(** ** Specification *)

(** The operations of the trait and the calls. *)
Inductive BagsOp :=
  | OpInsert (id : AccountId) (v : Z)
  | OpUpdate (id : AccountId) (v : Z)
  | OpIncrease (id : AccountId) (v : Z)
  | OpDecrease (id : AccountId) (v : Z)
  | OpRemove (id : AccountId)
  | OpRebag (origin : RawOrigin) (who : MultiAddress)
  | OpFront (origin : RawOrigin) (lighter : MultiAddress)
  | OpFrontOther (origin : RawOrigin) (heavier lighter : MultiAddress).

Definition run_op (op : BagsOp) : M State unit :=
  match op with
  | OpInsert id v => on_insert id v
  | OpUpdate id v => on_update id v
  | OpIncrease id v => on_increase id v
  | OpDecrease id v => on_decrease id v
  | OpRemove id => on_remove id
  | OpRebag origin who => rebag origin who
  | OpFront origin lighter => put_in_front_of origin lighter
  | OpFrontOther origin heavier lighter => put_in_front_of_other origin heavier lighter
  end.

(** The arguments are values of their types. *)
Definition op_typed (op : BagsOp) : Prop :=
  match op with
  | OpInsert _ v | OpUpdate _ v | OpIncrease _ v | OpDecrease _ v => is_balance v
  | _ => True
  end.

(** An error, or a ranking and the events. *)
Definition Outcome : Type := DispatchError + (Ranking * list BagsEvent).

Definition bag_holding (r : Ranking) (x : AccountId) : option Z :=
  find (fun b => bool_decide (x ∈ rk_members r b)) all_thresholds.

Definition not_found : Outcome := inl (BError (BList NodeNotFound)).

Definition spec_insert (x : AccountId) (v : Z) (r : Ranking) : Outcome :=
  match bag_holding r x with
  | Some _ => inl (BError (BList Duplicate))
  | None => inr (rk_append (notional_bag_for v) x v r, [])
  end.

Definition spec_update (x : AccountId) (v : Z) (r : Ranking) : Outcome :=
  match bag_holding r x with
  | None => not_found
  | Some b =>
      if decide (notional_bag_for v = b) then inr (rk_score x v r, [ScoreUpdated x v])
      else inr (rk_append (notional_bag_for v) x v (rk_remove x r),
                [Rebagged x b (notional_bag_for v); ScoreUpdated x v])
  end.

Definition spec_remove (x : AccountId) (r : Ranking) : Outcome :=
  match bag_holding r x with
  | None => not_found
  | Some _ => inr (rk_remove x r, [])
  end.

Definition spec_rebag (w : W) (x : AccountId) (r : Ranking) : Outcome :=
  match bag_holding r x, score x w with
  | Some _, Some v => spec_update x v r
  | None, Some v => spec_insert x v r
  | Some _, None => spec_remove x r
  | None, None => not_found
  end.

Definition spec_front (w : W) (y x : AccountId) (r : Ranking) : Outcome :=
  match bag_holding r y, bag_holding r x with
  | Some b, Some b' =>
      if decide (b = b') then
        if score_gt (score x w) (score y w) then inr (rk_front y x r, [])
        else inl (BError (BList NotHeavier))
      else inl (BError (BList NotInSameBag))
  | _, _ => not_found
  end.

Definition unlocked (lock : option unit) (e : BagsError) (o : Outcome) : Outcome :=
  match lock with
  | None => o
  | Some _ => inl (BError e)
  end.

Definition signed (o : RawOrigin) (k : AccountId -> Outcome) : Outcome :=
  match o with
  | Signed who => k who
  | _ => inl BadOrigin
  end.

Definition found (a : MultiAddress) (k : AccountId -> Outcome) : Outcome :=
  match a with
  | Id who => k who
  | _ => inl CannotLookup
  end.

Definition spec_op (w : W) (lock : option unit) (op : BagsOp) (r : Ranking) : Outcome :=
  match op with
  | OpInsert x v => unlocked lock (BList ListLocked) (spec_insert x v r)
  | OpUpdate x v => unlocked lock (BList ListLocked) (spec_update x v r)
  | OpIncrease x v =>
      match bag_holding r x with
      | None => not_found
      | Some _ => unlocked lock (BList ListLocked) (spec_update x (Z.min max_value (rk_points r x + v)) r)
      end
  | OpDecrease x v =>
      match bag_holding r x with
      | None => not_found
      | Some _ =>
          unlocked lock (BList ListLocked)
            (if rk_points r x <=? v then spec_remove x r else spec_update x (rk_points r x - v) r)
      end
  | OpRemove x => unlocked lock (BList ListLocked) (spec_remove x r)
  | OpRebag o a => signed o (fun _ => found a (fun x => unlocked lock BLocked (spec_rebag w x r)))
  | OpFront o a => signed o (fun x => found a (fun y => unlocked lock BLocked (spec_front w y x r)))
  | OpFrontOther o h a =>
      signed o (fun _ => found a (fun y => found h (fun x => unlocked lock BLocked (spec_front w y x r))))
  end.

(** ** Refinement *)

Lemma bag_holding_Some r (s : State) x b : rep r s -> placed r -> bag_holding r x = Some b <-> x ∈ rk_members r b.
Proof.
  intros R Hp. unfold bag_holding. split.
  - intros [_ E]%find_some. by apply bool_decide_eq_true in E.
  - intros Hx. destruct (find _ _) as [b' |] eqn:E.
    + apply find_some in E as [_ E]. apply bool_decide_eq_true in E. f_equal. by apply (linked_disjoint (rp_linked _ _ R) x).
    + destruct (Hp b x Hx) as [_ Hn]. pose proof (notional_in_all (rk_points r x)) as Hin. rewrite Hn in Hin.
      apply list_elem_of_In in Hin. pose proof (find_none _ _ E b Hin) as Hb. simpl in Hb. by apply bool_decide_eq_false in Hb.
Qed.

Lemma bag_holding_None r (s : State) x : rep r s -> placed r -> bag_holding r x = None <-> ~ in_ranking x r.
Proof.
  intros R Hp. destruct (bag_holding r x) as [b |] eqn:E.
  - apply (bag_holding_Some r s) in E; [| done..]. split; [done |]. intros Hx. destruct Hx. by exists b.
  - split; [| done]. intros _ [b Hx]. apply (bag_holding_Some r s) in Hx; [congruence | done..].
Qed.

(** The pallet, run from [s], does what [o] says. *)
Definition implements (m : M State unit) (s : State) (o : Outcome) : Prop :=
  match o with
  | inl e => m s = (Err e, s)
  | inr (r', evs) => exists s', m s = (Ok tt, s') /\ rep r' s' /\ placed r' /\
      ListLock s' = ListLock s /\ outside s' = outside s /\ bags_events s' = bags_events s ++ evs
  end.

Lemma implements_quiet (m : M State unit) s s' r' : m s = (Ok tt, s') -> rep r' s' -> placed r' -> same_rest s s' ->
  implements m s (inr (r', [])).
Proof. intros Hm R Hp (Hl & He & Ho). exists s'. rewrite app_nil_r. done. Qed.

Lemma implements_unlocked (m : M State unit) s e o : (ListLock s = None -> implements m s o) ->
  (ListLock s <> None -> m s = (Err (BError e), s)) -> implements m s (unlocked (ListLock s) e o).
Proof. intros Hn Hs. destruct (ListLock s) as [[] |]; simpl; [by apply Hs | by apply Hn]. Qed.

Lemma insert_spec r (s : State) x v : rep r s -> placed r -> is_balance v -> CounterForListNodes s < u32_max ->
  implements (list_insert x v) s (spec_insert x v r).
Proof.
  intros R Hp Hv Hc. rewrite (rp_count _ _ R) in Hc. unfold spec_insert. destruct (bag_holding r x) as [b |] eqn:E; simpl.
  - apply (bag_holding_Some r s) in E; [| done..]. apply (insert_duplicate r); [done | by exists b].
  - apply (bag_holding_None r s) in E; [| done..]. destruct (insert_run r x v s R E Hc) as (s' & Hrun & R' & Hr).
    eapply implements_quiet; [done | done | by apply placed_append | done].
Qed.

Lemma remove_spec r (s : State) x : rep r s -> placed r -> implements (list_remove x) s (spec_remove x r).
Proof.
  intros R Hp. unfold spec_remove. destruct (bag_holding r x) as [b |] eqn:E; simpl.
  - apply (bag_holding_Some r s) in E; [| done..]. destruct (remove_run r x s R) as (s' & Hrun & R' & Hr); [by exists b |].
    eapply implements_quiet; [done | done | by apply placed_remove | done].
  - apply (bag_holding_None r s) in E; [| done..]. by apply (remove_absent r).
Qed.

Lemma update_spec r (s : State) x v : rep r s -> placed r -> is_balance v ->
  implements (do do_rebag x v ;; ret tt) s (spec_update x v r).
Proof.
  intros R Hp Hv. unfold spec_update, implements, do_rebag, bind, gets, node_get. destruct (bag_holding r x) as [b |] eqn:E; simpl.
  - apply (bag_holding_Some r s) in E; [| done..]. destruct (rep_elem _ _ _ _ R E) as (l1 & l2 & _ & Ex). rewrite Ex. simpl.
    destruct (update_run r s x v _ R Ex) as (s' & (Hl & He & Ho) & Hrun). cbn [node_bag_upper node_between] in Hrun.
    destruct (decide (notional_bag_for v = b)) as [Hb | Hb]; destruct Hrun as [-> R']; eexists; (split; [done |]).
    + split; [by destruct R' as [? ? ? ?]; split |]. split; [by eapply placed_score |]. simpl. by rewrite He.
    + split; [by destruct R' as [? ? ? ?]; split |]. split; [| simpl; by rewrite He, <- app_assoc].
      apply placed_append; [by apply placed_remove | done | apply removed_absent].
  - apply (bag_holding_None r s) in E; [| done..]. by rewrite (rep_absent r x s).
Qed.

Lemma front_spec r (s : State) y x : rep r s -> placed r ->
  implements (list_put_in_front_of y x) s (spec_front (outside s) y x r).
Proof.
  intros R Hp. unfold spec_front. destruct (front_errors r s y x R) as [Hdiff Hlight].
  assert (Hnf : forall z, ~ in_ranking z r -> z = x \/ z = y -> list_put_in_front_of y x s = (Err (BError (BList NodeNotFound)), s)).
  { intros z Hz%(rep_absent r _ s); [| done]. unfold list_put_in_front_of, bind at 1, gets, node_get.
    intros [-> | ->]; [| by rewrite Hz]. destruct (ListNodes s !! y); [| done]. cbn [ok_or].
    unfold bind at 1, ret at 1, bind at 1. by rewrite Hz. }
  destruct (bag_holding r y) as [b |] eqn:Ey; [| apply (bag_holding_None r s) in Ey; [| done..]; apply (Hnf y); tauto].
  destruct (bag_holding r x) as [b' |] eqn:Ex; [| apply (bag_holding_None r s) in Ex; [| done..]; apply (Hnf x); tauto].
  apply (bag_holding_Some r s) in Ey, Ex; [| done..]. destruct (decide (b = b')) as [<- | Hne].
  - destruct (score_gt _ _) eqn:Eg; [| by apply (Hlight b)].
    destruct (front_run r s b y x R Ey Ex Eg) as (s' & Hrun & R' & Hr). eapply implements_quiet; [done | done | | done].
    apply (placed_front r s b); [done.. |]. intros ->. destruct (score x (outside s)); simpl in Eg; [lia | done].
  - unfold implements, list_put_in_front_of, bind at 1, gets, node_get. destruct (rep_elem _ _ _ _ R Ey) as (? & ? & _ & ->).
    simpl. unfold bind at 1, ret at 1, bind at 1. destruct (rep_elem _ _ _ _ R Ex) as (? & ? & _ & ->). simpl.
    unfold bind, ret. by rewrite (proj2 (Z.eqb_neq _ _)).
Qed.

Lemma implements_lock (m : M State unit) s o : implements m s o ->
  implements (do ensure_unlocked ;; m) s (unlocked (ListLock s) (BList ListLocked) o).
Proof.
  intros Hm. unfold implements, bind, ensure_unlocked, bind, gets in *. destruct (ListLock s) as [[] |]; [done |]. simpl. exact Hm.
Qed.

Lemma implements_lock_call (m : M State unit) s o : implements m s o ->
  implements (do ensure_unlocked_call ;; m) s (unlocked (ListLock s) BLocked o).
Proof.
  intros Hm. unfold implements, bind, ensure_unlocked_call, bind, try, ensure_unlocked, bind, gets in *.
  destruct (ListLock s) as [[] |]; [done |]. simpl. exact Hm.
Qed.

Lemma implements_layer (m : M State unit) s o : implements m s o -> implements (with_storage_layer m) s o.
Proof.
  unfold implements, with_storage_layer. destruct o as [e | [r' evs]]; [by intros -> |].
  intros (s' & -> & Hrest). by exists s'.
Qed.

Lemma implements_signed o (m : AccountId -> M State unit) s k : (forall who, implements (m who) s (k who)) ->
  implements (who <- ensure_signed o ;; m who) s (signed o k).
Proof. intros Hm. destruct o; try done. apply Hm. Qed.

Lemma implements_lookup a (m : AccountId -> M State unit) s k : (forall who, implements (m who) s (k who)) ->
  implements (who <- lookup_address a ;; m who) s (found a k).
Proof. intros Hm. destruct a; try done. apply Hm. Qed.

Lemma get_score_run r (s : State) x : rep r s -> placed r ->
  get_score x s = (match bag_holding r x with
                   | Some _ => Ok (rk_points r x)
                   | None => Err (BError (BList NodeNotFound))
                   end, s).
Proof.
  intros R Hp. unfold get_score, bind, gets, node_get. destruct (bag_holding r x) as [b |] eqn:E.
  - apply (bag_holding_Some r s) in E; [| done..]. by destruct (rep_elem _ _ _ _ R E) as (l1 & l2 & _ & ->).
  - apply (bag_holding_None r s) in E; [| done..]. by rewrite (rep_absent r x s).
Qed.

Lemma holding_points r (s : State) x b : rep r s -> placed r -> bag_holding r x = Some b -> is_balance (rk_points r x).
Proof. intros R Hp E. apply (bag_holding_Some r s) in E; [| done..]. by destruct (Hp _ _ E). Qed.

Lemma implements_score r (s : State) x (m : Z -> M State unit) o : rep r s -> placed r ->
  (is_balance (rk_points r x) -> implements (m (rk_points r x)) s o) ->
  implements (v <- get_score x ;; m v) s (match bag_holding r x with Some _ => o | None => not_found end).
Proof.
  intros R Hp Hm. pose proof (get_score_run r s x R Hp) as E. destruct (bag_holding r x) as [b |] eqn:Eb.
  - specialize (Hm (holding_points r s x b R Hp Eb)). unfold implements, bind in *. by rewrite E.
  - unfold implements, not_found, bind. by rewrite E.
Qed.

Lemma implements_gets {A} (f : State -> A) (k : A -> M State unit) s o : implements (k (f s)) s o ->
  implements (x <- gets f ;; k x) s o.
Proof. done. Qed.

Lemma rebag_spec r (s : State) x : rep r s -> placed r -> scores_typed (outside s) -> CounterForListNodes s < u32_max ->
  ListLock s = None ->
  implements (existed <- gets (list_contains x) ;;
    w <- gets outside ;;
    match existed, score x w with
    | true, Some current_score => do do_rebag x current_score ;; ret tt
    | false, Some current_score => bags_on_insert x current_score
    | true, None => bags_on_remove x
    | false, None => fail (BError (BList NodeNotFound))
    end) s (spec_rebag (outside s) x r).
Proof.
  intros R Hp Hty Hc Hl.
  assert (Hun : forall (m : M State unit) o, implements m s o -> implements (do ensure_unlocked ;; m) s o).
  { intros m o Hm. pose proof (implements_lock m s o Hm) as Hi. by rewrite Hl in Hi. }
  unfold spec_rebag. destruct (bag_holding r x) as [b |] eqn:Eb.
  - pose proof Eb as Hx. apply (bag_holding_Some r s) in Hx; [| done..].
    assert (Ec : list_contains x s = true) by (apply (list_contains_true r); [done | by exists b]).
    apply implements_gets, implements_gets. rewrite Ec. destruct (score x (outside s)) as [v |] eqn:Ev.
    + apply update_spec; (done || by eapply Hty).
    + apply Hun. by apply remove_spec.
  - pose proof Eb as Hx. apply (bag_holding_None r s) in Hx; [| done..].
    assert (Ec : list_contains x s = false) by (by apply (list_contains_false r)).
    apply implements_gets, implements_gets. rewrite Ec. destruct (score x (outside s)) as [v |] eqn:Ev; [| done].
    apply Hun. apply insert_spec; (done || by eapply Hty).
Qed.

Lemma op_refines op r (s : State) : rep r s -> placed r -> scores_typed (outside s) -> op_typed op ->
  CounterForListNodes s < u32_max -> implements (run_op op) s (spec_op (outside s) (ListLock s) op r).
Proof.
  intros R Hp Hty Ht Hc. pose proof max_value_pos as Hpos. destruct op; simpl in *.
  - by apply implements_lock, insert_spec.
  - by apply implements_lock, update_spec.
  - apply implements_score; [done.. |]. intros Hv. apply implements_lock. apply update_spec; [done.. |].
    unfold is_balance, saturating_add in *. lia.
  - apply implements_score; [done.. |]. intros Hv. unfold saturating_sub, is_balance in *.
    destruct (Z.leb_spec (rk_points r id) v).
    + rewrite (proj2 (Z.eqb_eq _ _)) by lia. by apply implements_lock, remove_spec.
    + rewrite (proj2 (Z.eqb_neq _ _)) by lia. replace (Z.max 0 _) with (rk_points r id - v) by lia.
      apply implements_lock, update_spec; [done.. |]. unfold is_balance. lia.
  - by apply implements_lock, remove_spec.
  - apply implements_layer, implements_signed. intros _. apply implements_lookup. intros x.
    destruct (ListLock s) as [[] |] eqn:El.
    + by unfold implements, bind, ensure_unlocked_call, try, ensure_unlocked, bind, gets; rewrite El.
    + simpl. pose proof (implements_lock_call _ s _ (rebag_spec r s x R Hp Hty Hc El)) as Hi. by rewrite El in Hi.
  - apply implements_layer, implements_signed. intros x. apply implements_lookup. intros y.
    apply implements_lock_call. by apply front_spec.
  - apply implements_layer, implements_signed. intros _. apply implements_lookup. intros y.
    apply implements_lookup. intros x. apply implements_lock_call. by apply front_spec.
Qed.

(** C7. The pallet implements the specification: on a storage that represents a ranking every operation of
    the trait and every call ends, with the error, or the ranking and the events, that the
    specification gives; errors leave the storage as it was. *)
Theorem bags_refine op r (s : State) : rep r s -> placed r -> scores_typed (outside s) -> op_typed op ->
  CounterForListNodes s < u32_max -> implements (run_op op) s (spec_op (outside s) (ListLock s) op r).
Proof. apply op_refines. Qed.

(** ** Every storage calls can lead to *)

Definition bags_empty (w : W) : State := Build_BagsState W ∅ 0 ∅ None [] w.

Definition with_outside (w : W) (s : State) : State :=
  Build_BagsState W (ListNodes s) (CounterForListNodes s) (ListBags s) (ListLock s) (bags_events s) w.

(** Operations and calls in any order with any arguments, on a list that is not full; the rest of the
    runtime may change the scores at any time. *)
Inductive bags_step : State -> State -> Prop :=
  | bs_op op s : op_typed op -> CounterForListNodes s < u32_max -> bags_step s (snd (run_op op s))
  | bs_lock s : bags_step s (sl_lock s)
  | bs_unlock s : bags_step s (sl_unlock s)
  | bs_clear s : bags_step s (sl_unsafe_clear s)
  | bs_regenerate all score_of s : (forall x v, score_of x = Some v -> is_balance v) ->
      Z.of_nat (length all) <= u32_max -> bags_step s (snd (sl_unsafe_regenerate all score_of s))
  | bs_outside w s : scores_typed w -> bags_step s (with_outside w s).

Lemma placed_empty : placed rk_empty.
Proof. intros b x Hx. by apply not_elem_of_nil in Hx. Qed.

(** What every such storage satisfies. *)
Definition bags_good (s : State) : Prop := (exists r, rep r s /\ placed r) /\ scores_typed (outside s).

Lemma step_good s s' : bags_step s s' -> bags_good s -> bags_good s'.
Proof.
  assert (Hkeep : forall r (s1 s2 : State), ListNodes s2 = ListNodes s1 -> ListBags s2 = ListBags s1 ->
    CounterForListNodes s2 = CounterForListNodes s1 -> rep r s1 -> rep r s2).
  { intros r s1 s2 En Eb Ec [L Hb Hc Hs]. by split; rewrite ?En, ?Eb, ?Ec. }
  intros Hstep ((r & R & Hp) & Hty). destruct Hstep as [op s Ht Hc | s | s | s | all score_of s Hsc Hlen | w s Hw].
  - pose proof (op_refines op r s R Hp Hty Ht Hc) as Hi. unfold implements in Hi.
    destruct (spec_op _ _ op r) as [e | [r' evs]]; [rewrite Hi; split; [by exists r | done] |].
    destruct Hi as (s' & -> & R' & Hp' & _ & Ho & _). split; [by exists r' |]. simpl. by rewrite Ho.
  - split; [exists r; split; [by apply (Hkeep r s) | done] | done].
  - split; [exists r; split; [by apply (Hkeep r s) | done] | done].
  - split; [exists rk_empty; split; [by apply rep_empty | apply placed_empty] | done].
  - destruct (insert_many_run all score_of rk_empty (unsafe_clear s) 0) as (s' & Hrun & R' & Hp' & (_ & _ & Ho));
      [by apply rep_empty | apply placed_empty | done | done | lia | |].
    + cbn [ListNodes unsafe_clear counted_remove_all set_nodes]. rewrite map_size_empty. lia.
    + cbn. unfold unsafe_regenerate, bind, modify. rewrite Hrun. simpl. split; [eauto |]. by rewrite Ho.
  - split; [exists r; split; [by apply (Hkeep r s) | done] | done].
Qed.

Lemma reachable_good w s : scores_typed w -> rtc bags_step (bags_empty w) s -> bags_good s.
Proof.
  intros Hw Hr. apply (rtc_ind_l (fun s1 => bags_good s1 -> bags_good s) s) in Hr; [done | done | |].
  - intros s1 s2 Hstep _ IH Hg. apply IH. by eapply step_good.
  - split; [exists rk_empty; split; [by apply rep_empty | apply placed_empty] | done].
Qed.

Lemma iter_sorted r (s : State) : rep r s -> placed r ->
  StronglySorted (fun a b => node_bag_upper b <= node_bag_upper a) (nodes_of s (order r)).
Proof. intros R Hp. apply nodes_sorted; [done |]. apply sorted_rev, all_thresholds_sorted. Qed.

Lemma iter_node r (s : State) nd : rep r s -> placed r -> nd ∈ nodes_of s (order r) ->
  is_balance (node_score nd) /\ node_bag_upper nd = notional_bag_for (node_score nd).
Proof.
  intros R Hp [Hx E]%(nodes_of_elem r); [| done]. destruct (rep_in _ _ _ _ R E) as (l1 & l2 & El & End).
  assert (Hin : node_id nd ∈ rk_members r (node_bag_upper nd)) by (rewrite El; apply elem_of_app; right; left).
  destruct (Hp _ _ Hin) as [Hv Hb]. assert (Es : node_score nd = rk_points r (node_id nd)) by (by rewrite End at 1).
  by rewrite Es, Hb.
Qed.

(** C16. In every storage the list can get to, its self check passes and iteration ends after each account
    exactly once, in decreasing order of bags.  An account comes after one of lower score only where no
    threshold separates the two. *)
Theorem list_stays_in_order w s : scores_typed w -> rtc bags_step (bags_empty w) s ->
  do_try_state s = true /\
  exists nodes, list_iter s = Some nodes /\
    NoDup (map node_id nodes) /\ Z.of_nat (length nodes) = CounterForListNodes s /\
    (forall x nd, ListNodes s !! x = Some nd <-> nd ∈ nodes /\ node_id nd = x) /\
    StronglySorted (fun a b => node_bag_upper b <= node_bag_upper a) nodes /\
    (forall nd, nd ∈ nodes -> node_bag_upper nd = notional_bag_for (node_score nd)) /\
    (forall i j a b t, nodes !! i = Some a -> nodes !! j = Some b -> (i < j)%nat -> t ∈ BagThresholds ->
       ~ (node_score a <= t < node_score b)).
Proof.
  intros Hw ((r & R & Hp) & _)%reachable_good; [| done]. split; [by eapply try_state_passes |]. exists (nodes_of s (order r)).
  assert (Hin : forall x, x ∈ order r -> in_ranking x r) by (intros x; by apply order_elem).
  split; [by apply list_iter_run |].
  split; [rewrite (nodes_of_ids r) by done; by eapply order_NoDup |].
  split; [rewrite (nodes_of_length r), (order_length r s), (rp_count _ _ R) by done; done |].
  split; [| split; [by apply iter_sorted | split; [intros nd Hnd; by eapply iter_node |]]].
  - intros x nd. split.
    + intros E. split; [| by apply (linked_ids _ _ _ _ _ _ (rp_linked _ _ R))]. apply list_elem_of_omap.
      exists x. split; [| done]. apply order_elem; [done |]. apply (rep_contains r s); [done | eauto].
    + intros [[_ E]%(nodes_of_elem r) <-]; done.
  - intros i j a b t Ha Hb Hij Ht [H1' H2'].
    destruct (iter_node r s a R Hp (list_elem_of_lookup_2 _ _ _ Ha)) as [Va Ba].
    destruct (iter_node r s b R Hp (list_elem_of_lookup_2 _ _ _ Hb)) as [Vb Bb].
    assert (Hle : node_bag_upper b <= node_bag_upper a) by (by apply (sorted_lookup _ _ i j a b (iter_sorted r s R Hp))).
    unfold is_balance in *. pose proof BagThresholds_sorted as Hsort.
    destruct (notional_spec BagThresholds (node_score a) Hsort) as (_ & _ & Hmin).
    destruct (notional_spec BagThresholds (node_score b) Hsort) as (_ & Hge & _).
    specialize (Hmin t Ht H1'). specialize (Hge ltac:(lia)). unfold notional_bag_for in *. lia.
Qed.

(** ** Iterating from an account *)

Lemma partition_point_split k b l : StronglySorted Z.lt (k ++ b :: l) -> partition_point (fun t => t <? b) (k ++ b :: l) = length k.
Proof.
  intros Hs. induction k as [| t k IH]; simpl in *; [by rewrite Z.ltb_irrefl |]. apply StronglySorted_inv in Hs as [Hs Ht].
  rewrite (proj2 (Z.ltb_lt _ _)), IH; [done | done |]. rewrite Forall_forall in Ht. apply Ht, elem_of_app. right. left.
Qed.

Lemma partition_point_all b l : (forall t, t ∈ l -> t < b) -> partition_point (fun t => t <? b) l = length l.
Proof.
  induction l as [| t l IH]; intros Hl; simpl; [done |]. rewrite (proj2 (Z.ltb_lt _ _)) by (apply Hl; left).
  rewrite IH; [done |]. intros t' Ht'. apply Hl. by right.
Qed.

(** The thresholds below [b] are those the code takes. *)
Lemma thresholds_below b : b ∈ all_thresholds -> exists above,
  all_thresholds = take (partition_point (fun t => t <? b) BagThresholds) BagThresholds ++ b :: above.
Proof.
  intros Hb. destruct (decide (b ∈ BagThresholds)) as [(k & l & E)%list_elem_of_split | Hn].
  - pose proof BagThresholds_sorted as Hs. rewrite E in Hs. rewrite E, partition_point_split, take_app_length by done.
    unfold all_thresholds. rewrite E. case_decide; [by exists l |]. exists (l ++ [max_value]). by rewrite <- app_assoc.
  - apply all_thresholds_elem in Hb as [? | ->]; [done |]. rewrite partition_point_all.
    + rewrite take_ge by done. exists []. unfold all_thresholds. case_decide as Hl; [| done].
      by apply last_elem in Hl.
    + intros t Ht. pose proof (thresholds_scores t Ht). assert (t <> max_value) by congruence. lia.
Qed.

(** Iterating from an account yields what comes after it in the whole iteration, and refuses an account
    that is not in the list. *)
Theorem iter_from_suffix w s x : scores_typed w -> rtc bags_step (bags_empty w) s ->
  match sl_iter s with
  | Some l => forall l1 l2, l = l1 ++ x :: l2 -> sl_iter_from x s = (Ok (Some l2), s)
  | None => False
  end /\
  (list_contains x s = false -> sl_iter_from x s = (Err (BError (BList NodeNotFound)), s)).
Proof.
  intros Hw ((r & R & Hp) & _)%reachable_good; [| done]. cbn [sl_iter sl_iter_from BagsList]. split.
  - rewrite (list_iter_run r) by done. cbn [fmap option_fmap option_map].
    rewrite (nodes_of_ids r) by (done || (intros y; by apply order_elem)). intros l1 l2 E.
    assert (Hx : in_ranking x r) by (apply order_elem; [done |]; rewrite E; apply elem_of_app; right; left).
    destruct Hx as [b Hx]. destruct (rep_elem _ _ _ _ R Hx) as (k1 & k2 & Ek & Ex).
    destruct (thresholds_below b) as [above Ea]; [destruct (Hp _ _ Hx) as [_ <-]; apply notional_in_all |].
    set (below := take _ _) in Ea.
    assert (Eo : order r = ((rev above ≫= rk_members r) ++ k1) ++ x :: k2 ++ (rev below ≫= rk_members r)).
    { unfold order. rewrite Ea, rev_app_distr. simpl. rewrite !bind_app. simpl.
      rewrite Ek, app_nil_r, <- !app_assoc. done. }
    rewrite Eo in E. pose proof (order_NoDup r s R) as Hn. rewrite Eo in Hn.
    destruct (split_unique _ _ _ _ _ Hn E) as [_ <-].
    unfold bind, list_iter_from, bind, gets, node_get, ret. rewrite Ex. cbn [ok_or]. unfold ret.
    rewrite (iter_bags_run r) by done. fold below. unfold next_node. cbn [node_next node_between].
    rewrite (successors_run r s b (k1 ++ [x]) k2); [| done | by rewrite <- app_assoc |].
    + simpl. rewrite <- nodes_of_app, (nodes_of_ids r); [done | done |]. intros y Hy. apply order_elem; [done |].
      rewrite Eo. apply elem_of_app. right. by right.
    + pose proof (members_size r s b R) as Hsz. rewrite Ek, length_app in Hsz. simpl in Hsz. unfold iter_fuel. lia.
  - intros Hc. unfold bind, list_iter_from, bind, gets, node_get. apply bool_decide_eq_false in Hc.
    apply eq_None_not_Some in Hc. by rewrite Hc.
Qed.

(** ** Removing many accounts *)

Definition remove_one_by_one (ids : list AccountId) : M State unit :=
  for_each ids (fun x => do try (list_remove x) ;; ret tt).

Lemma one_by_one_run ids r (s : State) : rep r s ->
  exists s', remove_one_by_one ids s = (Ok tt, s') /\ rep (rk_remove_all ids r) s' /\ same_rest s s'.
Proof.
  revert r s. induction ids as [| x ids IH]; intros r s R; [by exists s |]. unfold remove_one_by_one in *. simpl.
  destruct (ListNodes s !! x) as [nd |] eqn:Ex.
  - destruct (remove_run r x s R) as (s1 & Hrun & R1 & Hr1); [by apply (rep_contains r s); eauto |].
    destruct (IH _ _ R1) as (s' & Hrun' & R' & Hr'). exists s'. split; [| split; [done | by etrans]].
    unfold bind at 1, bind, try. by rewrite Hrun.
  - assert (Hx : ~ in_ranking x r) by (rewrite <- (rep_contains r s) by done; rewrite Ex; by intros [? ?]).
    assert (R1 : rep (rk_remove x r) s).
    { destruct (rk_remove_absent r x Hx) as [Hm _]. apply (proj1 (rep_proper r (rk_remove x r) (conj Hm (fun _ _ _ => eq_refl)) s s eq_refl)), R. }
    destruct (IH _ _ R1) as (s' & Hrun' & R' & Hr'). exists s'. split; [| done].
    unfold bind at 1, bind, try. by rewrite (remove_absent r).
Qed.

(** C26. Removing many accounts at once, with the bags written at the end, leaves exactly the storage that
    removing them one by one leaves, whatever accounts are given, and counts the accounts removed. *)
Theorem remove_many_exact w s ids : scores_typed w -> rtc bags_step (bags_empty w) s -> exists s',
  remove_many ids s = (Ok (Z.of_nat (size (ListNodes s)) - Z.of_nat (size (ListNodes s'))), s') /\
  remove_one_by_one ids s = (Ok tt, s') /\
  forall x, list_contains x s' = list_contains x s && bool_decide (x ∉ ids).
Proof.
  intros Hw ((r & R & Hp) & _)%reachable_good; [| done]. destruct (remove_many_run ids r s R) as (s' & Hrun & R' & Hr').
  destruct (one_by_one_run ids r s R) as (s2 & Hrun2 & R2 & Hr2). exists s'. split; [done |].
  assert (s2 = s') as ->.
  { apply (rep_unique _ _ _ R2 R'). destruct Hr' as (? & ? & ?), Hr2 as (? & ? & ?). repeat split; congruence. }
  split; [done |]. intros x. unfold list_contains. rewrite <- bool_decide_and. apply bool_decide_ext.
  rewrite (rep_contains _ _ _ R), (rep_contains _ _ _ R'). clear. revert r. induction ids as [| y ids IH]; intros r; simpl.
  - set_solver.
  - unfold rk_remove_all in *. simpl. rewrite IH. unfold in_ranking. simpl. unfold without.
    setoid_rewrite list_elem_of_filter. rewrite elem_of_cons. naive_solver.
Qed.
End spec.
