(* ===== verification/BagsMigrate.v ===== *)
(** * Migrating the bags list to other thresholds

    [List::migrate] collects the accounts of every bag whose interval has changed and inserts them again.
    The list is then in order for the new thresholds and nothing else has changed, unless the old
    thresholds name the largest score and the new ones leave it implied: then the top bag is deleted
    with its accounts in it. *)

From stdpp Require Import base tactics numbers list gmap sorting relations.
From S2P Require Import Prelude Dispatch System BalancesCalls SortedList BagsList BagsLinks BagsRun BagsFacts BagsSpec.
Local Open Scope Z_scope.

(** ** Sets in order *)

Lemma BTreeSet_Z_elem l t : t ∈ BTreeSet_Z l <-> t ∈ l.
Proof. unfold BTreeSet_Z. by rewrite merge_sort_Permutation, elem_of_remove_dups. Qed.

Lemma BTreeSet_N_elem l x : x ∈ BTreeSet_N l <-> x ∈ l.
Proof. unfold BTreeSet_N. by rewrite merge_sort_Permutation, elem_of_remove_dups. Qed.

Lemma BTreeSet_N_NoDup l : NoDup (BTreeSet_N l).
Proof. unfold BTreeSet_N. rewrite merge_sort_Permutation. apply NoDup_remove_dups. Qed.

(** ** Which bags change *)

(** The bag is no longer there, or a new threshold falls into its interval. *)
Definition affected_bag `{BalanceType} (old new : list Z) (b : Z) : Prop :=
  (b ∈ old /\ b ∉ new) \/ (exists t, t ∈ new /\ (t ∉ old) /\ notional_bag old t = b).

Lemma unaffected_same `{BalanceType} old new v : StronglySorted Z.lt old -> StronglySorted Z.lt new ->
  (forall t, t ∈ old -> t <= max_value) -> (forall t, t ∈ new -> t <= max_value) -> v <= max_value ->
  ~ affected_bag old new (notional_bag old v) -> notional_bag new v = notional_bag old v.
Proof.
  intros So Sn Mo Mn Hv Haff. set (b := notional_bag old v) in *.
  destruct (notional_spec old v So) as (Hb & Hge & Hmin), (notional_spec new v Sn) as (Hn & Hgen & Hminn). fold b in Hb, Hge, Hmin.
  specialize (Hge Hv). specialize (Hgen Hv).
  assert (Hnew : forall t, t ∈ new -> v <= t -> b <= t).
  { intros t Ht Hvt. apply Z.le_ngt. intros Hlt. apply Haff. right. exists t. split; [done |].
    assert (Hto : t ∉ old) by (intros Hto; specialize (Hmin t Hto Hvt); lia). split; [done |].
    destruct (notional_spec old t So) as (Ht1 & Ht2 & Ht3). specialize (Ht2 (Mn t Ht)).
    destruct Ht1 as [Hin | [Emax Hall]].
    - destruct Hb as [Hb | [Eb Hall]]; [| specialize (Hall _ Hin); lia].
      specialize (Ht3 b Hb ltac:(lia)). specialize (Hmin _ Hin ltac:(lia)). lia.
    - destruct Hb as [Hb | [Eb _]]; [specialize (Hall b Hb); lia | congruence]. }
  destruct Hn as [Hn | [Emax Hall]].
  - specialize (Hnew _ Hn Hgen). apply Z.le_antisymm; [| done]. destruct Hb as [Hb | [Eb _]]; [| rewrite Eb; by apply Mn].
    apply Hminn; [| done]. destruct (decide (b ∈ new)) as [? | Hbn]; [done |]. destruct Haff. by left.
  - rewrite Emax. destruct Hb as [Hb | [Eb _]]; [| done]. destruct (decide (b ∈ new)) as [Hbn | Hbn].
    + specialize (Hall b Hbn). lia.
    + destruct Haff. by left.
Qed.

Section migrate.
Context {W : Type} `{BagsConfigOk} `{SP : ScoreProvider W}.
Abbreviation State := (BagsState W).

(** ** The accounts of the affected bags *)

Lemma bag_members_run r (s : State) b : rep r s -> bag_members b s = (Ok (rk_members r b), s).
Proof.
  intros R. unfold bag_members. rewrite (proj1 (bag_get_ends b _ s (rp_bags _ _ R b))). case_decide as E; [by rewrite E |].
  rewrite (bag_iter_run r), (nodes_of_ids r) by (done || (intros x; apply members_in)). done.
Qed.

(** The bags seen so far and the accounts collected agree. *)
Definition collected (r : Ranking) (seen : list Z) (accounts : list AccountId) : Prop :=
  forall x, x ∈ accounts <-> exists b, b ∈ seen /\ x ∈ rk_members r b.

Lemma collect_run r (s : State) uppers seen accounts : rep r s -> collected r seen accounts ->
  exists seen' accounts', collect_bags uppers seen accounts s = (Ok (seen', accounts'), s) /\
    collected r seen' accounts' /\ forall b, b ∈ seen' <-> b ∈ seen \/ b ∈ uppers.
Proof.
  intros R. revert seen accounts. induction uppers as [| u uppers IH]; intros seen accounts Hc; simpl.
  { exists seen, accounts. split; [done |]. split; [done |]. set_solver. }
  case_bool_decide as Hu.
  - destruct (IH seen accounts Hc) as (seen' & acc' & Hrun & Hc' & Hs'). exists seen', acc'. split; [done |]. split; [done |].
    intros b. rewrite Hs', elem_of_cons. naive_solver.
  - unfold bind. rewrite (bag_members_run r) by done.
    destruct (IH (u :: seen) (accounts ++ rk_members r u)) as (seen' & acc' & Hrun & Hc' & Hs').
    + intros x. rewrite elem_of_app, (Hc x). setoid_rewrite elem_of_cons. naive_solver.
    + exists seen', acc'. split; [done |]. split; [done |]. intros b. rewrite Hs', !elem_of_cons. naive_solver.
Qed.

(** ** Removing and inserting again *)

Lemma in_remove_all ids r b x : x ∈ rk_members (rk_remove_all ids r) b <-> x ∈ rk_members r b /\ x ∉ ids.
Proof.
  revert r. induction ids as [| y ids IH]; intros r; simpl; [set_solver |].
  unfold rk_remove_all in *. simpl. rewrite IH. simpl. unfold without. rewrite list_elem_of_filter, elem_of_cons. naive_solver.
Qed.

Lemma remove_all_points ids r : rk_points (rk_remove_all ids r) = rk_points r.
Proof. revert r. induction ids as [| y ids IH]; intros r; [done |]. unfold rk_remove_all in *. simpl. by rewrite IH. Qed.

Lemma remove_all_other ids r b : (forall x, x ∈ rk_members r b -> x ∉ ids) -> rk_members (rk_remove_all ids r) b = rk_members r b.
Proof.
  revert r. induction ids as [| y ids IH]; intros r Hx; [done |]. unfold rk_remove_all in *. simpl. rewrite IH.
  - simpl. apply without_absent. intros Hy. apply (Hx y Hy). left.
  - intros x Hxb. simpl in Hxb. apply list_elem_of_filter in Hxb as [_ Hxb]. intros Hin. apply (Hx x Hxb). by right.
Qed.

Lemma remove_all_size ids r (s s' : State) : rep r s -> rep (rk_remove_all ids r) s' -> NoDup ids ->
  (forall x, x ∈ ids -> in_ranking x r) -> (size (ListNodes s') + length ids = size (ListNodes s))%nat.
Proof.
  intros R R' Hn Hin. rewrite <- !size_dom, <- (size_list_to_set (C := gset AccountId) ids) by done.
  rewrite <- size_union.
  - f_equal. apply set_eq. intros x. rewrite elem_of_union, !elem_of_dom, elem_of_list_to_set.
    rewrite (rep_contains _ _ _ R), (rep_contains _ _ _ R'). unfold in_ranking. setoid_rewrite in_remove_all.
    destruct (decide (x ∈ ids)) as [Hx | Hx]; [| naive_solver]. pose proof (Hin x Hx). unfold in_ranking in *. naive_solver.
  - intros x Hx Hx'. apply elem_of_list_to_set in Hx'. apply elem_of_dom in Hx.
    apply (rep_contains _ _ _ R') in Hx as [b [_ Hb]%in_remove_all]. done.
Qed.

(** What inserting accounts adds. *)
Record adds (ids : list AccountId) (score_of : AccountId -> option Z) (r r' : Ranking) : Prop := {
  ad_members b : exists l, rk_members r' b = rk_members r b ++ l;
  ad_points x : in_ranking x r -> rk_points r' x = rk_points r x;
  ad_in x : in_ranking x r' <-> in_ranking x r \/ (x ∈ ids /\ is_Some (score_of x));
  ad_new x v : ~ in_ranking x r -> in_ranking x r' -> score_of x = Some v ->
    x ∈ rk_members r' (notional_bag_for v) /\ rk_points r' x = v;
}.

Lemma adds_skip y ids score_of r r' : (forall v, score_of y = Some v -> in_ranking y r) ->
  adds ids score_of r r' -> adds (y :: ids) score_of r r'.
Proof.
  intros Hy [Hm Hpt Hin Hnew]. split; [done | done | | done].
  intros x. rewrite Hin, elem_of_cons. unfold is_Some. naive_solver.
Qed.

Lemma in_append b y v r x : in_ranking x (rk_append b y v r) <-> in_ranking x r \/ x = y.
Proof.
  unfold in_ranking. simpl. unfold set_members. split.
  - intros [b' Hb]. case_decide; [| by left; exists b'].
    apply elem_of_app in Hb as [Hb | ->%list_elem_of_singleton]; [left; eauto | by right].
  - intros [[b' Hb] | ->]; [exists b' | exists b]; case_decide; simplify_eq; set_solver.
Qed.

Lemma insert_all_spec ids score_of r : placed r -> (forall x v, score_of x = Some v -> is_balance v) ->
  adds ids score_of r (rk_insert_all ids score_of r).
Proof.
  intros Hp Hv. revert r Hp. induction ids as [| y ids IH]; intros r Hp; simpl.
  { split; [intros b; exists []; by rewrite app_nil_r | done | set_solver | done]. }
  change (rk_insert_all (y :: ids) score_of r) with (rk_insert_all ids score_of (rk_insert_one score_of r y)).
  unfold rk_insert_one. destruct (score_of y) as [v |] eqn:Ey; [| apply adds_skip; [congruence | auto]].
  case_decide as Hy; rewrite order_elem in Hy by done; [by apply adds_skip; auto |].
  destruct (IH (rk_append (notional_bag_for v) y v r)) as [Hm Hpt Hin Hnew]; [apply placed_append; eauto |]. split.
  - intros b. destruct (Hm b) as [l ->]. simpl. unfold set_members. case_decide; subst; [| by exists l].
    exists ([y] ++ l). by rewrite app_assoc.
  - intros x Hx. rewrite Hpt by (apply in_append; by left). simpl. apply set_points_ne. by intros ->.
  - intros x. rewrite Hin, in_append, elem_of_cons. destruct (decide (x = y)) as [-> |]; [rewrite Ey |]; naive_solver.
  - intros x v' Hx Hx' Ev. destruct (decide (x = y)) as [-> | Hne].
    + rewrite Ey in Ev. injection Ev as <-. split.
      * destruct (Hm (notional_bag_for v)) as [l ->]. simpl. rewrite set_members_eq. set_solver.
      * rewrite Hpt by (apply in_append; by right). simpl. by rewrite set_points_eq.
    + apply Hnew; [| done | done]. rewrite in_append. naive_solver.
Qed.

(** ** The migration *)

(** The list is in order for other thresholds. *)
Definition placed_in (thresholds : list Z) (r : Ranking) : Prop := forall b x, x ∈ rk_members r b ->
  0 <= rk_points r x <= max_value /\ notional_bag thresholds (rk_points r x) = b.

(** What the caller promises: the old thresholds were a valid configuration. *)
Record old_config (old : list Z) : Prop := {
  oc_increase : StronglySorted Z.lt old;
  oc_scores t : t ∈ old -> 0 <= t <= max_value;
  oc_changed : BagThresholds <> old;
}.

(** The accounts that stay are in the right bags for the new thresholds. *)
Lemma placed_rest old r affected : StronglySorted Z.lt old -> (forall t, t ∈ old -> 0 <= t <= max_value) -> placed_in old r ->
  (forall x, x ∈ affected <-> exists b, affected_bag old BagThresholds b /\ x ∈ rk_members r b) ->
  placed (rk_remove_all affected r).
Proof.
  intros So Mo Hp Hin b x [Hx Hna]%in_remove_all. rewrite remove_all_points. destruct (Hp b x Hx) as [Hv Hb]. split; [done |].
  unfold notional_bag_for. rewrite <- Hb. apply unaffected_same; [done | apply BagThresholds_sorted | | | lia |].
  - intros t Ht. by apply Mo.
  - intros t Ht. by apply thresholds_scores.
  - rewrite Hb. intros Haff. apply Hna, Hin. by exists b.
Qed.

(** Up to the point where the old bags are deleted. *)
Lemma migrate_run old r (s : State) : old_config old -> rep r s -> placed_in old r -> scores_typed (outside s) ->
  exists affected r' s1 s', NoDup affected /\
    (forall x, x ∈ affected <-> exists b, affected_bag old BagThresholds b /\ x ∈ rk_members r b) /\
    adds affected (fun x => score x (outside s)) (rk_remove_all affected r) r' /\
    rep r' s1 /\ placed r' /\ same_rest s s1 /\
    s' = foldl (fun s b => set_bags (delete b (ListBags s)) s) s1
           (filter (fun t => t ∉ BTreeSet_Z BagThresholds) (BTreeSet_Z old)) /\
    migrate old s = (Ok (Z.of_nat (length affected)), s').
Proof.
  intros [So Mo Hne] R Hp Hty. unfold migrate. rewrite bool_decide_eq_false_2 by done.
  set (U1 := notional_bag old <$> filter (fun t => t ∉ BTreeSet_Z old) (BTreeSet_Z BagThresholds)).
  set (U2 := filter (fun t => t ∉ BTreeSet_Z BagThresholds) (BTreeSet_Z old)).
  destruct (collect_run r s U1 [] [] R) as (seen1 & acc1 & Hrun1 & Hc1 & Hs1); [intros x; set_solver |].
  destruct (collect_run r s U2 seen1 acc1 R Hc1) as (seen2 & acc2 & Hrun2 & Hc2 & Hs2).
  assert (Haff : forall b, b ∈ seen2 <-> affected_bag old BagThresholds b).
  { intros b. rewrite Hs2, Hs1. unfold U1, U2, affected_bag. rewrite list_elem_of_fmap, list_elem_of_filter.
    setoid_rewrite list_elem_of_filter. setoid_rewrite BTreeSet_Z_elem. rewrite elem_of_nil. naive_solver. }
  set (affected := BTreeSet_N acc2).
  assert (Hin : forall x, x ∈ affected <-> exists b, affected_bag old BagThresholds b /\ x ∈ rk_members r b).
  { intros x. unfold affected. rewrite BTreeSet_N_elem, (Hc2 x). by setoid_rewrite Haff. }
  destruct (remove_many_run affected r s R) as (s0 & Hrm & R0 & Hr0).
  assert (Hsz : (size (ListNodes s0) + length affected = size (ListNodes s))%nat).
  { apply (remove_all_size affected r); [done | done | apply BTreeSet_N_NoDup |]. intros x (b & _ & Hx)%Hin. by exists b. }
  pose proof (rp_small _ _ R) as Hsmall. pose proof (placed_rest old r affected So Mo Hp Hin) as Hp0.
  destruct (insert_many_run affected (fun x => score x (outside s)) _ s0 0 R0 Hp0) as (s1 & Hins & R1 & Hp1 & Hr1);
    [exact Hty | done | lia | lia |].
  eexists affected, _, s1, _. split; [apply BTreeSet_N_NoDup |]. split; [done |].
  split; [apply insert_all_spec; [done | exact Hty] |].
  split; [exact R1 |]. split; [exact Hp1 |]. split; [by etrans |]. split; [reflexivity |].
  unfold bind at 1. rewrite Hrun1. unfold bind at 1. rewrite Hrun2. unfold bind at 1, gets. unfold bind at 1. fold affected.
  rewrite Hrm. unfold bind at 1. rewrite Hins. unfold bind, modify, ret. do 2 f_equal.
  apply Z.mod_small. unfold u32_max in Hsmall. lia.
Qed.

(** Deleting bags. *)
Lemma delete_bags_run (l : list Z) (s : State) : exists m,
  foldl (fun s b => set_bags (delete b (ListBags s)) s) s l = set_bags m s /\
  forall b, m !! b = if decide (b ∈ l) then None else ListBags s !! b.
Proof.
  revert s. induction l as [| t l IH]; intros s; simpl; [exists (ListBags s); split; [by destruct s | done] |].
  destruct (IH (set_bags (delete t (ListBags s)) s)) as (m & -> & Hm). exists m. split; [done |]. intros b. rewrite Hm. cbn.
  destruct (decide (b ∈ l)) as [Hb | Hb]; [by rewrite decide_True by (by right) |]. destruct (decide (b = t)) as [-> | Hne].
  - by rewrite lookup_delete_eq, decide_True by left.
  - rewrite lookup_delete_ne, decide_False by (done || by intros [? | ?]%elem_of_cons). done.
Qed.

Lemma removed_elem (old : list Z) b : b ∈ filter (fun t => t ∉ BTreeSet_Z BagThresholds) (BTreeSet_Z old) <-> b ∈ old /\ b ∉ BagThresholds.
Proof. rewrite list_elem_of_filter, !BTreeSet_Z_elem. tauto. Qed.

(** Only the top bag can be both in use and deleted. *)
Lemma removed_empty (old : list Z) r' b : placed r' -> b ∈ old -> b ∉ BagThresholds -> rk_members r' b <> [] -> b = max_value.
Proof.
  intros Hp Ho Hn Hne. destruct (rk_members r' b) as [| x l] eqn:E; [done |].
  destruct (Hp b x) as [_ Eb]; [rewrite E; left |]. pose proof (notional_in_all (rk_points r' x)) as Hin.
  rewrite Eb in Hin. by apply all_thresholds_elem in Hin as [? | ?].
Qed.

(** C27. Migrating a list that is in order for the old thresholds puts it in order for the new ones, with the
    bags that are not affected as they were, apart from accounts inserted behind, and the accounts of the
    affected bags in the bags of their current scores; it returns how many there were.  With unchanged
    thresholds it does nothing.  This takes that the new thresholds name the largest score whenever the
    old ones did: the last bag has that key whether it is named or not, so that dropping it from the
    thresholds deletes the last bag (see [migrate_loses_top_bag]). *)
Theorem migrate_exact old r (s : State) : old_config old -> rep r s -> placed_in old r -> scores_typed (outside s) ->
  (max_value ∈ old -> max_value ∈ BagThresholds) ->
  migrate BagThresholds s = (Ok 0, s) /\
  exists affected r' s', migrate old s = (Ok (Z.of_nat (length affected)), s') /\
    rep r' s' /\ placed r' /\ same_rest s s' /\ do_try_state s' = true /\
    NoDup affected /\ (forall x, x ∈ affected <-> exists b, affected_bag old BagThresholds b /\ x ∈ rk_members r b) /\
    (forall b, ~ affected_bag old BagThresholds b -> exists l, rk_members r' b = rk_members r b ++ l) /\
    (forall x, in_ranking x r -> x ∉ affected -> rk_points r' x = rk_points r x) /\
    (forall x, x ∈ affected ->
       match score x (outside s) with
       | Some v => x ∈ rk_members r' (notional_bag_for v) /\ rk_points r' x = v
       | None => ~ in_ranking x r'
       end).
Proof.
  intros Hold R Hp Hty Hmax. split; [unfold migrate; by rewrite bool_decide_eq_true_2 |].
  destruct (migrate_run old r s Hold R Hp Hty) as (affected & r' & s1 & s' & Hn & Haff & [Hm Hpt Hin Hnew] & R1 & Hp1 & Hr1 & -> & Hrun).
  destruct (delete_bags_run (filter (fun t => t ∉ BTreeSet_Z BagThresholds) (BTreeSet_Z old)) s1) as (m & Em & Hdel).
  assert (Hm1 : m = ListBags s1).
  { apply map_eq. intros b. rewrite Hdel. case_decide as Hb; [| done]. apply removed_elem in Hb as [Ho Hb].
    rewrite (rp_bags _ _ R1). destruct (rk_members r' b) as [| x l] eqn:E; [done |].
    assert (b = max_value) as -> by (apply (removed_empty old r'); [done.. | congruence]). tauto. }
  rewrite Em, Hm1 in Hrun. replace (set_bags (ListBags s1) s1) with s1 in Hrun by (by destruct s1).
  exists affected, r', s1. split; [done |]. do 3 (split; [done |]). split; [by eapply try_state_passes |]. do 2 (split; [done |]).
  assert (Hgone : forall x, x ∈ affected -> ~ in_ranking x (rk_remove_all affected r)).
  { intros x Hx [b [_ ?]%in_remove_all]. done. }
  split; [| split].
  - intros b Hb. destruct (Hm b) as [l ->]. exists l. f_equal. apply remove_all_other. intros x Hx (b' & Hb' & Hx')%Haff.
    apply Hb. by rewrite (linked_disjoint (rp_linked _ _ R) x b b').
  - intros x [b Hx] Hna. rewrite Hpt, remove_all_points; [done |]. exists b. by apply in_remove_all.
  - intros x Hx. destruct (score x (outside s)) as [v |] eqn:Ev.
    + apply Hnew; [by apply Hgone | | done]. apply Hin. right. split; [done |]. rewrite Ev. eauto.
    + rewrite Hin. intros [? | [_ [v Hv]]]; [by apply (Hgone x) | congruence].
Qed.

(** ** The top bag *)

Lemma iter_bags_partial r (s s' : State) (f : Z -> list AccountId) ts : rep r s -> ListNodes s' = ListNodes s ->
  (forall b, ListBags s' !! b = ends (f b)) -> (forall b, f b = [] \/ f b = rk_members r b) ->
  iter_bags ts s' = Some (nodes_of s (ts ≫= f)).
Proof.
  intros R En Hb Hf. unfold iter_bags. induction ts as [| t ts IH]; [done |]. simpl.
  rewrite nodes_of_app, (proj1 (bag_get_ends t _ s' (Hb t))). destruct (Hf t) as [Et | Et]; rewrite Et.
  { rewrite decide_True by done. exact IH. }
  case_decide as Hne; [rewrite Hne; exact IH |]. simpl.
  assert (Hi : bag_iter (bag_of t (rk_members r t)) s' = Some (nodes_of s (rk_members r t))).
  { rewrite <- (bag_iter_run r) by done. unfold bag_iter, iter_fuel, head_node, node_get, next_node, node_get. by rewrite En. }
  rewrite Hi. simpl. apply fmap_Some in IH as (k & Ek & Ej).
  change (list_omap Z Bag (fun t => bag_get t s') ts) with (omap (fun t => bag_get t s') ts). rewrite Ek. simpl.
  f_equal. f_equal. done.
Qed.

(** A node whose bag is missing does not pass the check. *)
Lemma try_state_bag (s : State) x nd : do_try_state s = true -> ListNodes s !! x = Some nd -> ListBags s !! node_bag_upper nd <> None.
Proof.
  intros Et Ex Eb. unfold do_try_state in Et. apply andb_true_iff in Et as [_ Hall]. rewrite forallb_forall in Hall.
  specialize (Hall (x, nd)). simpl in Hall. rewrite <- list_elem_of_In, elem_of_map_to_list in Hall. specialize (Hall Ex).
  destruct (list_to_map _ !! _); [| done]. apply andb_true_iff in Hall as [_ Hn].
  unfold node_do_try_state, bag_get in Hn. by rewrite Eb in Hn.
Qed.

(** C40. When the old thresholds end with the largest score and the new ones leave it implied, which is
    documented to be the same configuration, the bag of the largest score is deleted after its accounts
    have been inserted into it again: they stay stored, but iteration no longer meets them and the self
    check does not pass. *)
Theorem migrate_loses_top_bag old r (s : State) x v : old_config old -> rep r s -> placed_in old r -> scores_typed (outside s) ->
  max_value ∈ old -> max_value ∉ BagThresholds -> x ∈ rk_members r max_value ->
  score x (outside s) = Some v -> notional_bag_for v = max_value ->
  exists n s' l, migrate old s = (Ok n, s') /\ list_contains x s' = true /\ sl_iter s' = Some l /\ (x ∉ l) /\
    do_try_state s' = false.
Proof.
  intros Hold R Hp Hty Ho Hnew Hx Ev Hv.
  destruct (migrate_run old r s Hold R Hp Hty) as (affected & r' & s1 & s' & _ & Haff & [_ _ Hin Hins] & R1 & Hp1 & _ & -> & Hrun).
  assert (Hxa : x ∈ affected) by (apply Haff; exists max_value; split; [by left | done]).
  assert (Hx1 : x ∈ rk_members r' max_value).
  { rewrite <- Hv. apply Hins; [| | done].
    - intros [b [_ ?]%in_remove_all]. done.
    - apply Hin. right. split; [done |]. rewrite Ev. eauto. }
  destruct (delete_bags_run (filter (fun t => t ∉ BTreeSet_Z BagThresholds) (BTreeSet_Z old)) s1) as (m & Em & Hdel).
  set (f := fun b => if decide (b ∈ filter (fun t => t ∉ BTreeSet_Z BagThresholds) (BTreeSet_Z old)) then [] else rk_members r' b).
  assert (Hiter : list_iter (set_bags m s1) = Some (nodes_of s1 (rev all_thresholds ≫= f))).
  { apply (iter_bags_partial r'); [done | done | |].
    - intros b. cbn. rewrite Hdel, (rp_bags _ _ R1). unfold f. by destruct (decide _).
    - intros b. unfold f. destruct (decide _); [by left | by right]. }
  assert (Hfin : forall y, y ∈ rev all_thresholds ≫= f -> in_ranking y r').
  { intros y (b & _ & Hy)%bind_elem. unfold f in Hy. destruct (decide _); [by apply not_elem_of_nil in Hy | by exists b]. }
  assert (Hxf : x ∉ rev all_thresholds ≫= f).
  { intros (b & _ & Hy)%bind_elem. unfold f in Hy. destruct (decide _) as [Hd | Hd]; [by apply not_elem_of_nil in Hy |].
    apply Hd, removed_elem. by rewrite (linked_disjoint (rp_linked _ _ R1) x b max_value). }
  eexists _, (set_bags m s1), _. split; [rewrite Hrun, Em; reflexivity |].
  split; [apply (list_contains_true r' x s1); [done | by exists max_value] |].
  split; [cbn; rewrite Hiter; cbn; by rewrite (nodes_of_ids r') |]. split; [done |].
  destruct (do_try_state (set_bags m s1)) eqn:Et; [| done]. exfalso.
  destruct (rep_elem _ _ _ _ R1 Hx1) as (l1 & l2 & _ & Ex). apply (try_state_bag _ x _ Et Ex). cbn.
  rewrite Hdel, decide_True; [done |]. by apply removed_elem.
Qed.
End migrate.
