(* ===== verification/StakingBags.v ===== *)
(** * Staking over the bags list

    The bags list keeps the laws the staking pallet relies on.  In the composed runtime, where both
    pallets' calls come in any order, the registers and the list stay in agreement, as long as nobody
    rebags a bonded account that is not a voter, and the list is not locked. *)

From stdpp Require Import base tactics numbers list gmap relations.
From S2P Require Import Prelude Dispatch System BalancesCalls SortedList BagsList BagsLinks BagsRun BagsFacts BagsSpec.
From S2P Require Import StakingLedgers StakingSpans StakingVoters StakingBonds StakingFacts StakingBondFacts StakingStake StakingSnapshot.
Local Open Scope Z_scope.

Section bags.
Context {C : Type} `{BagsConfigOk} `{AS : !StakeAsset C} `{CV : CurrencyToVote} `{VT : !VotesTyped} `{NQ : NominationsQuota} `{SC : StakingConfig}.
Abbreviation Runtime := (BagsState (StakingCore C)).

#[export] Instance BagsStaking : HasStaking Runtime C := {|
  core := outside;
  set_core := with_outside;
|}.

(** ** The laws *)

Lemma contains_ranking r (s : Runtime) x : rep r s -> list_contains x s = true <-> in_ranking x r.
Proof. intros R. unfold list_contains. by rewrite bool_decide_eq_true, (rep_contains r). Qed.

(** Agreement on who is in. *)
Lemma contains_eq r r' (s s' : Runtime) y (b : bool) : rep r s -> rep r' s' ->
  (in_ranking y r' <-> b = true /\ in_ranking y r) -> list_contains y s' = b && list_contains y s.
Proof.
  intros R R' Hiff. apply eq_bool_prop_intro. rewrite !Is_true_true, andb_true_iff, (contains_ranking r'), (contains_ranking r) by done. done.
Qed.

Definition bags_ready (s : Runtime) : Prop := (exists r, rep r s /\ placed r) /\ ListLock s = None.

Lemma rep_outside r c (s : Runtime) : rep r s -> rep r (with_outside c s).
Proof. intros [L Hb Hc Hs]. by split. Qed.

Lemma bags_insert_law (s : Runtime) x v : bags_ready s -> sl_contains x s = false -> is_balance v -> sl_count s < u32_max ->
  exists s', on_insert x v s = (Ok tt, s') /\ bags_ready s' /\ core s' = core s /\
    forall y, sl_contains y s' = bool_decide (y = x) || sl_contains y s.
Proof.
  intros ((r & R & Hp) & Hl) Hx Hv Hc. cbn in *. pose proof (insert_spec r s x v R Hp Hv Hc) as Hi.
  assert (Hno : ~ in_ranking x r) by (rewrite <- (contains_ranking r s) by done; by rewrite Hx).
  unfold spec_insert in Hi. rewrite (proj2 (bag_holding_None r s x R Hp)) in Hi by done.
  destruct Hi as (s' & Hrun & R' & Hp' & Hl' & Ho & _). exists s'. split.
  { unfold bags_on_insert, bind, ensure_unlocked, bind, gets. by rewrite Hl. }
  split; [split; [by eexists | congruence] |]. split; [done |]. intros y. apply eq_bool_prop_intro.
  rewrite !Is_true_true, orb_true_iff, (contains_ranking _ s' y R'), (contains_ranking r s y R), append_in, bool_decide_eq_true. done.
Qed.

Lemma bags_remove_law (s : Runtime) x : bags_ready s -> sl_contains x s = true ->
  exists s', on_remove x s = (Ok tt, s') /\ bags_ready s' /\ core s' = core s /\
    forall y, sl_contains y s' = negb (bool_decide (y = x)) && sl_contains y s.
Proof.
  intros ((r & R & Hp) & Hl) Hx. cbn in *. pose proof (remove_spec r s x R Hp) as Hi.
  apply (contains_ranking r s) in Hx; [| done]. destruct Hx as [b Hb].
  unfold spec_remove in Hi. rewrite (proj2 (bag_holding_Some r s x b R Hp)) in Hi by done.
  destruct Hi as (s' & Hrun & R' & Hp' & Hl' & Ho & _). exists s'. split.
  { unfold bags_on_remove, bind, ensure_unlocked, bind, gets. by rewrite Hl. }
  split; [split; [by eexists | congruence] |]. split; [done |]. intros y. apply (contains_eq r _ s s' y _ R R').
  rewrite remove_in, negb_true_iff, bool_decide_eq_false. done.
Qed.

Lemma update_members x v r (s : Runtime) b : rep r s -> placed r -> bag_holding r x = Some b ->
  exists r' evs, spec_update x v r = inr (r', evs) /\ forall y, in_ranking y r' <-> in_ranking y r.
Proof.
  intros R Hp Hb. unfold spec_update. rewrite Hb. apply (bag_holding_Some r s) in Hb; [| done..].
  case_decide; [by eexists _, _ |]. eexists _, _. split; [done |]. intros y. rewrite append_in, remove_in.
  destruct (decide (y = x)) as [-> |]; [| naive_solver]. split; [| by left]. intros _. by exists b.
Qed.

Lemma bags_update_law (s : Runtime) x v : bags_ready s -> sl_contains x s = true -> is_balance v ->
  exists s', on_update x v s = (Ok tt, s') /\ bags_ready s' /\ core s' = core s /\ forall y, sl_contains y s' = sl_contains y s.
Proof.
  intros ((r & R & Hp) & Hl) Hx Hv. cbn in *. pose proof (update_spec r s x v R Hp Hv) as Hi.
  apply (contains_ranking r s) in Hx; [| done]. destruct Hx as [b Hb]. apply (bag_holding_Some r s) in Hb; [| done..].
  destruct (update_members x v r s b R Hp Hb) as (r' & evs & Es & Hin). rewrite Es in Hi.
  destruct Hi as (s' & Hrun & R' & Hp' & Hl' & Ho & _). exists s'. split.
  { unfold bags_on_update, bind at 1, ensure_unlocked, bind at 1, gets. rewrite Hl. exact Hrun. }
  split; [split; [by eexists | congruence] |]. split; [done |]. intros y. apply (contains_eq r r' s s' y true R R'). rewrite Hin. tauto.
Qed.

Lemma bags_iter_law (s : Runtime) : bags_ready s -> exists l, sl_iter s = Some l /\ NoDup l /\ Z.of_nat (length l) = sl_count s /\
  (forall x, x ∈ l <-> sl_contains x s = true).
Proof.
  intros ((r & R & Hp) & _). exists (order r). cbn. rewrite (list_iter_run r) by done. cbn.
  rewrite (nodes_of_ids r) by (done || (intros x; by apply order_elem)). split; [done |]. split; [by eapply order_NoDup |].
  split; [by rewrite (order_length r s), (rp_count _ _ R) |]. intros x. by rewrite (contains_ranking r), order_elem.
Qed.

#[export] Instance BagsLaws : SortedListLaws Runtime C.
Proof.
  refine {| sl_ready := bags_ready |}; try done.
  - intros c s ((r & R & Hp) & Hl). split; [exists r; split; [by apply rep_outside | done] | done].
  - apply bags_insert_law.
  - apply bags_remove_law.
  - apply bags_update_law.
  - apply bags_iter_law.
Defined.

(** ** The composed runtime *)

Lemma staking_scores_typed (c : StakingCore C) : core_typed c -> scores_typed c.
Proof.
  intros [Hi Hl] x v. unfold score, StakingScore, ledger_get. destruct (Bonded c !! x) as [k |]; [| done].
  destruct (Ledger c !! k) as [l |] eqn:E; [| done]. destruct (_ && _); [| done]. intros [= <-]. apply to_vote_typed; [| done]. by eapply Hl.
Qed.

(** The same accounts are in the list. *)
Lemma sync_ranking r r' (s s' : Runtime) : in_sync s -> rep r s -> rep r' s' -> placed r' -> ListLock s' = ListLock s -> outside s' = outside s ->
  (forall y, in_ranking y r' <-> in_ranking y r) -> in_sync s'.
Proof.
  intros Hs R R' Hp' Hl Ho Hin. pose proof (sy_ready _ Hs) as [_ Hl0]. apply (sync_core s).
  - done.
  - split; [by exists r' | congruence].
  - cbn. rewrite Ho. apply Hs.
  - cbn. by rewrite Ho.
  - intros y. cbn. rewrite (contains_eq r r' s s' y true R R'); [done |]. rewrite Hin. tauto.
Qed.

Lemma front_members w y x r (s : Runtime) r' evs : rep r s -> placed r -> spec_front w y x r = inr (r', evs) ->
  forall z, in_ranking z r' <-> in_ranking z r.
Proof.
  intros R Hp. unfold spec_front. destruct (bag_holding r y) as [b |] eqn:Ey, (bag_holding r x) as [b' |] eqn:Ex; try done.
  case_decide; [| done]. subst b'. destruct (score_gt _ _) eqn:Eg; [| done]. intros [= <- <-] z.
  apply (bag_holding_Some r s) in Ey, Ex; [| done..]. unfold in_ranking.
  assert (y <> x) by (intros ->; destruct (score x w); simpl in Eg; [lia | done]).
  split; intros [b' Hz]; exists b'; revert Hz; by apply (front_elem r s b).
Qed.

(** A step of the list that does not change who is in it. *)
Lemma sync_op op (s : Runtime) : in_sync s -> sl_count s < u32_max -> op_typed op ->
  (forall r r' evs, rep r s -> placed r -> spec_op (outside s) None op r = inr (r', evs) -> forall y, in_ranking y r' <-> in_ranking y r) ->
  in_sync (snd (run_op op s)) /\ core (snd (run_op op s)) = core s.
Proof.
  intros Hs Hc Ht Hin. pose proof (sy_ready _ Hs) as ((r & R & Hp) & Hl).
  pose proof (op_refines op r s R Hp (staking_scores_typed _ (sy_typed _ Hs)) Ht Hc) as Hi. rewrite Hl in Hi.
  destruct (spec_op (outside s) None op r) as [e | [r' evs]] eqn:Eo; [by rewrite Hi |].
  destruct Hi as (s' & -> & R' & Hp' & Hl' & Ho & _). split; [| exact Ho]. apply (sync_ranking r r' s s'); [done.. | congruence | done |]. by eapply Hin.
Qed.

Definition is_voter (x : AccountId) (c : StakingCore C) : bool := is_nominator x c || is_validator x c.

(** An account has a score exactly when it is a voter. *)
Definition scored_as_voter (x : AccountId) (c : StakingCore C) : Prop := is_Some (score x c) <-> is_voter x c = true.

Section composed.
Context `{SW : StakeWidth} `{AL : !StakeAssetLaws C} `{AO : AdminOrigin} `{OC : !OldCurrency C}.

(** Calls of both pallets, slashes and eras, snapshots, and uses of the currency that keep its promises
    and leave the stakes alone.  An account is rebagged only if it has a score exactly when it is a voter
    ([rebag_admits_non_voter] shows what happens otherwise). *)
Inductive runtime_step : Runtime -> Runtime -> Prop :=
  | rs_stake s s' : staking_step s s' -> runtime_step s s'
  | rs_snapshot bounds s : NPOS_MAX_ITERATIONS_COEFFICIENT * snapshot_len bounds s <= u32_max ->
      runtime_step s (snd (get_npos_voters bounds s))
  | rs_rebag origin a s : sl_count s < u32_max -> (forall x, target_id a = Some x -> scored_as_voter x (core s)) ->
      runtime_step s (snd (rebag origin a s))
  | rs_front origin lighter s : sl_count s < u32_max -> runtime_step s (snd (put_in_front_of origin lighter s))
  | rs_front_other origin heavier lighter s : sl_count s < u32_max ->
      runtime_step s (snd (put_in_front_of_other origin heavier lighter s))
  | rs_currency a s : asset_ok a -> (forall who, asset_staked who a = asset_staked who (asset (core s))) ->
      runtime_step s (set_core (set_asset a (core s)) s).

Lemma rebag_sync origin a (s : Runtime) : in_sync s -> sl_count s < u32_max ->
  (forall x, target_id a = Some x -> scored_as_voter x (core s)) -> in_sync (snd (rebag origin a s)) /\ core (snd (rebag origin a s)) = core s.
Proof.
  intros Hs Hc Hv. apply (sync_op (OpRebag origin a)); [done.. |]. intros r r' evs R Hp E.
  destruct origin; try done. destruct a as [x | | | |]; try done. simpl in E. specialize (Hv x eq_refl). unfold scored_as_voter, is_voter in Hv.
  rewrite <- (sy_contains _ Hs) in Hv. cbn in Hv. rewrite (contains_ranking r) in Hv by done. unfold spec_rebag in E.
  destruct (bag_holding r x) as [b |] eqn:Eb.
  - destruct (score x (outside s)) as [v |] eqn:Ev.
    + destruct (update_members x v r s b R Hp Eb) as (r1 & ev1 & E1 & Hin). rewrite E1 in E. simplify_eq. exact Hin.
    + apply (bag_holding_Some r s) in Eb; [| done..]. destruct (proj2 Hv (ex_intro _ b Eb)) as [? Es]. cbn in Es. congruence.
  - apply (bag_holding_None r s) in Eb; [| done..]. destruct (score x (outside s)) as [v |] eqn:Ev; [| done].
    exfalso. apply Eb, Hv. eauto.
Qed.

Lemma bonds_core s s' : bonds_ok s -> in_sync s' /\ core s' = core s -> bonds_ok s'.
Proof. intros [_ Hb] [Hs' E]. split; [done | by rewrite E]. Qed.

Lemma runtime_step_ok s s' : runtime_step s s' -> bonds_ok s -> bonds_ok s'.
Proof.
  intros Hstep Hb. pose proof Hb as [Hs Hbonds].
  destruct Hstep as [s s' Hst | bounds s Hl | origin a s Hc Hv | origin l s Hc | origin h l s Hc | a s Ha Hst].
  - by eapply staking_step_ok.
  - destruct (snapshot_run bounds s Hs Hl) as (order & _ & _ & _ & _ & Hrun). cbv zeta in Hrun.
    destruct (fit _ _ _). destruct Hrun as (seen & s' & -> & _ & E & Hs'). split; [done |]. cbn [snd]. rewrite E.
    apply (bonds_same None (core s)); [| done]. unfold after_snapshot. by destruct (bool_decide (_ < _)%nat).
  - by apply (bonds_core s), rebag_sync.
  - apply (bonds_core s); [done |]. apply (sync_op (OpFront origin l)); [done.. |]. intros r r' evs R Hp E.
    destruct origin; try done. destruct l; try done. by eapply front_members.
  - apply (bonds_core s); [done |]. apply (sync_op (OpFrontOther origin h l)); [done.. |]. intros r r' evs R Hp E. destruct origin; try done.
    destruct l; try done. destruct h; try done. by eapply front_members.
  - split.
    + apply sync_set; [done | | done]. split; [by apply issuance_pos | apply Hs].
    + rewrite core_set. destruct Hbonds as [_ B2 B3 B4 B5 B6 B7 B8]. split; cbn; try done.
      * intros x k. rewrite Hst. apply B2.
      * intros x. rewrite Hst. apply B4.
Qed.

(** What is on hold for a stash is the total of its ledger. *)
Definition stake_of (x : AccountId) (c : StakingCore C) : Z :=
  match ledger_get (Stash x) c with
  | inr l => if is_virtual_staker x c then 0 else lg_total l
  | inl _ => 0
  end.

Lemma staked_is_stake (s : Runtime) x : bonds_ok s -> asset_staked x (asset (core s)) = stake_of x (core s).
Proof.
  intros [_ Hb]. unfold stake_of. destruct (Bonded (core s) !! x) as [k |] eqn:Ek.
  - destruct (ledger_get_bonded _ _ _ Hb Ek) as (l & El & <- & Eg & _). rewrite Eg. by destruct (ledger_get_found _ _ _ Hb Eg) as (_ & _ & _ & _ & _ & _ & Hst & _).
  - assert (E : ledger_get (Stash x) (core s) = inl NotStash) by (unfold ledger_get; by rewrite Ek). rewrite E. by apply Hb.
Qed.

(** C4. From a runtime in agreement, through calls of the staking pallet and of the list, slashes, eras,
    snapshots and other uses of the currency in any order: iteration meets every nominator and every
    validator exactly once, the checks of both pallets pass, and the currency holds the stake of every
    account, which is the total of its ledger.  The steps leave out what breaks this: rebagging a bonded
    account that is not a voter (see [rebag_admits_non_voter]) or a voter that is not bonded, retiring a
    batch of controllers that names one twice, and restoring the ledger of a stash that an earlier release
    still locks.  They also assume
    that the list has room for one more entry, that virtual stakers never sign transactions, that a
    snapshot is bounded so that its count of iterations fits, and that another use of the currency leaves
    the holds of the staking pallet alone. *)
Theorem voters_stay_listed s s' : bonds_ok s -> rtc runtime_step s s' ->
  check_count s' = true /\ do_try_state s' = true /\
  (exists order, sl_iter s' = Some order /\ NoDup order /\ (forall x, x ∈ order <-> is_voter x (core s') = true)) /\
  (forall x, is_nominator x (core s') && is_validator x (core s') = false) /\
  (forall x, asset_staked x (asset (core s')) = stake_of x (core s')).
Proof.
  intros Hs Hr. assert (Hs' : bonds_ok s').
  { induction Hr as [| s1 s2 s3 Hstep _ IH]; [done |]. apply IH. by eapply runtime_step_ok. }
  pose proof Hs' as [Hsy _]. split; [by apply check_count_sync |]. pose proof (sy_ready _ Hsy) as Hready.
  split; [destruct Hready as ((r & R & Hp) & _); by eapply try_state_passes |]. split; [| split; [apply Hsy | intros x; by apply staked_is_stake]].
  destruct (iter_law s' Hready) as (order & Ho & Hn & _ & Hin). exists order. split; [done |]. split; [done |].
  intros x. by rewrite Hin, (sy_contains _ Hsy).
Qed.
End composed.

(** ** How the agreement is lost *)

(** C39. Anyone can rebag a bonded account that is not a voter: the score of the staking pallet does not ask
    whether it is, the list takes it in, and the counts no longer agree. *)
Theorem rebag_admits_non_voter who x l (s : Runtime) : in_sync s -> sl_count s < u32_max ->
  ledger_get (Stash x) (core s) = inr l -> is_voter x (core s) = false ->
  exists s', rebag (Signed who) (Id x) s = (Ok tt, s') /\ sl_contains x s' = true /\ core s' = core s /\ check_count s' = false.
Proof.
  intros Hs Hc Hl Hx. pose proof (sy_ready _ Hs) as ((r & R & Hp) & Hlock).
  pose proof (op_refines (OpRebag (Signed who) (Id x)) r s R Hp (staking_scores_typed _ (sy_typed _ Hs)) I Hc) as Hi.
  assert (Hno : ~ in_ranking x r). { rewrite <- (contains_ranking r s) by done. pose proof (sy_contains _ Hs x) as E. cbn in E. rewrite E. unfold is_voter in Hx. cbn in Hx. by rewrite Hx. }
  cbn [spec_op signed found] in Hi. rewrite Hlock in Hi. unfold unlocked, spec_rebag, spec_insert, score, StakingScore in Hi.
  rewrite (proj2 (bag_holding_None r s x R Hp) Hno) in Hi. cbn in Hl. rewrite Hl in Hi. destruct Hi as (s' & Hrun & R' & Hp' & Hl' & Ho & _).
  exists s'. split; [exact Hrun |]. split; [cbn; apply (contains_ranking _ s' x R'), append_in; by left |]. split; [exact Ho |].
  apply Z.eqb_neq. cbn. rewrite Ho. pose proof (sync_count s Hs) as Hsc. cbn in Hsc. rewrite <- Hsc, (rp_count _ _ R'), (rp_count _ _ R).
  rewrite (append_size r s s' _ x _ R R' Hno). lia.
Qed.

(** While the list is locked, a nominator is registered but not listed, and no error is returned: the
    error of the list is dropped, and the counts no longer agree. *)
Theorem locked_nominator_unlisted who n (s : Runtime) : in_sync s -> sl_count s < u32_max -> is_voter who (core s) = false ->
  exists s', do_add_nominator who n (sl_lock s) = (Ok tt, s') /\ core s' = Nominators_insert who n (core s) /\
    sl_contains who s' = false /\ check_count s' = false.
Proof.
  intros Hs Hc Hx. apply orb_false_iff in Hx as [Hn Hv]. pose proof (sync_count s Hs) as Hsc. pose proof (sy_contains _ Hs who) as Hcon.
  eexists. split.
  { unfold do_add_nominator, bind at 1, from_core, gets. change (core (sl_lock s)) with (core s). rewrite Hn. reflexivity. }
  split; [done |]. split; [transitivity (sl_contains who s); [reflexivity | by rewrite Hcon, Hn, Hv] |]. apply Z.eqb_neq.
  change (CounterForListNodes s <> inserted_count (Nominators (outside s)) who (CounterForNominators (outside s)) + CounterForValidators (outside s)).
  cbn in *. unfold inserted_count. unfold is_nominator in Hn. rewrite Hn.
  pose proof (sy_validators _ Hs) as Ev. cbn in Ev. unfold u32_saturating_add. lia.
Qed.
End bags.
