(* ===== verification/StakingSample.v ===== *)
(** * Samples of the bags list and of staking

    Scores of 64 bits, bags up to 10, up to 1000 and above, and four accounts; the same accounts in a
    list with the thresholds of an earlier release.  The second half is a runtime with staking, the list and
    the balances pallet.  Both hold the witnesses of their theorems. *)

From stdpp Require Import base tactics numbers list gmap sorting relations.
From S2P Require Import Prelude Dispatch System Fungible Balances BalancesFungible BalancesCalls Ledger HoldFacts SortedList StakingLedgers.
From S2P Require Import StakingLedgerFacts StakingSpans StakingVoters StakingBonds StakingFacts StakingBondFacts StakingAdminFacts StakingStake StakingAsset StakingSnapshot BagsList BagsLinks.
From S2P Require Import BagsRun BagsFacts BagsSpec BagsMigrate StakingBags.
Local Open Scope Z_scope.

#[export] Instance score_u64 : BalanceType := {| max_value := 2 ^ 64 - 1; max_value_u32 := ltac:(lia) |}.

#[export] Instance sample_bags : BagsConfig := {| BagThresholds := [10; 1000]; BagsPalletIndex := 40 |}.

#[export] Instance sample_bags_ok : BagsConfigOk.
Proof.
  split; [reflexivity |]. intros t Ht. change (t ∈ [10; 1000]) in Ht. rewrite !elem_of_cons, elem_of_nil in Ht. cbn. lia.
Qed.

Abbreviation Scores := (gmap AccountId Z).

#[export] Instance scores_provider : ScoreProvider Scores := fun x w => w !! x.

Definition sample_scores : Scores := {[1%N := 7; 2%N := 500; 3%N := 40; 4%N := 2000]}.

Lemma sample_typed : scores_typed sample_scores.
Proof.
  intros x v Hv. assert (Hall : map_Forall (fun _ v => 0 <= v <= 2 ^ 64 - 1) sample_scores) by (apply (bool_decide_unpack _); vm_compute; exact I).
  exact (Hall x v Hv).
Qed.

Abbreviation SampleState := (BagsState Scores).

Definition listed (l : list (AccountId * Z)) (s : SampleState) : SampleState :=
  foldl (fun s p => snd (on_insert (fst p) (snd p) s)) s l.

(** In insertion order; account 3 was heavier when it came. *)
Definition sample_list : SampleState := listed [(1%N, 7); (2%N, 500); (3%N, 600); (4%N, 2000)] (bags_empty sample_scores).

Ltac bags_steps :=
  repeat first [apply rtc_refl
    | eapply rtc_r; [| apply (bs_op (OpInsert _ _)); [split; vm_compute; discriminate | vm_compute; reflexivity]]].

Lemma bags_sample_reachable : rtc bags_step (bags_empty sample_scores) sample_list.
Proof. unfold sample_list, listed. cbn [foldl fst snd]. bags_steps. Qed.

Definition old_thresholds : list Z := [10; 100; 1000].
Definition top_thresholds : list Z := [10; 1000; 2 ^ 64 - 1].

Definition old_bags : BagsConfig := {| BagThresholds := old_thresholds; BagsPalletIndex := 40 |}.
Definition top_bags : BagsConfig := {| BagThresholds := top_thresholds; BagsPalletIndex := 40 |}.

Lemma old_bags_ok : @BagsConfigOk _ old_bags.
Proof.
  split; [reflexivity |]. intros t Ht. change (t ∈ old_thresholds) in Ht. unfold old_thresholds in Ht.
  rewrite !elem_of_cons, elem_of_nil in Ht. cbn. lia.
Qed.

Lemma top_bags_ok : @BagsConfigOk _ top_bags.
Proof.
  split; [reflexivity |]. intros t Ht. change (t ∈ top_thresholds) in Ht. unfold top_thresholds in Ht.
  rewrite !elem_of_cons, elem_of_nil in Ht. cbn. lia.
Qed.

Definition listed_by (C : BagsConfig) : SampleState :=
  foldl (fun s p => snd (@on_insert _ (@BagsList Scores _ C) (fst p) (snd p) s)) (bags_empty sample_scores)
    [(1%N, 7); (2%N, 500); (3%N, 600); (4%N, 2000)].

Lemma listed_by_rep (C : BagsConfig) (ok : @BagsConfigOk _ C) :
  rtc (@bags_step Scores _ C _) (bags_empty sample_scores) (listed_by C) ->
  exists r, rep r (listed_by C) /\ placed_in (@BagThresholds C) r.
Proof. intros Hr. destruct (reachable_good _ _ sample_typed Hr) as [(r & R & Hp) _]. by exists r. Qed.

Lemma old_list_rep : exists r, rep r (listed_by old_bags) /\ placed_in old_thresholds r.
Proof. apply (listed_by_rep old_bags old_bags_ok). unfold listed_by. cbn [foldl fst snd]. bags_steps. Qed.

Lemma top_list_rep : exists r, rep r (listed_by top_bags) /\ placed_in top_thresholds r.
Proof. apply (listed_by_rep top_bags top_bags_ok). unfold listed_by. cbn [foldl fst snd]. bags_steps. Qed.

Lemma old_thresholds_valid : old_config old_thresholds.
Proof.
  split; [by apply increasing_spec | apply (@thresholds_scores _ _ old_bags_ok) | discriminate].
Qed.

Lemma top_thresholds_valid : old_config top_thresholds.
Proof.
  split; [by apply increasing_spec | apply (@thresholds_scores _ _ top_bags_ok) | discriminate].
Qed.

(** ** Witnesses *)

Lemma bags_refine_witness : exists r, rep r sample_list /\ placed r /\
  implements (run_op (OpRebag (Signed 9) (Id 3))) sample_list (spec_op sample_scores None (OpRebag (Signed 9) (Id 3)) r).
Proof.
  destruct (reachable_good _ _ sample_typed bags_sample_reachable) as [(r & R & Hp) _]. exists r. split; [done |]. split; [done |].
  apply (bags_refine (OpRebag (Signed 9) (Id 3)) r sample_list R Hp); [exact sample_typed | exact I | vm_compute; reflexivity].
Defined.

Lemma list_stays_in_order_witness : do_try_state sample_list = true /\ sl_iter sample_list = Some [4; 2; 3; 1]%N.
Proof.
  split; [exact (proj1 (list_stays_in_order sample_scores sample_list sample_typed bags_sample_reachable)) | vm_compute; reflexivity].
Defined.

Lemma iter_from_suffix_witness : sl_iter sample_list = Some [4; 2; 3; 1]%N /\ sl_iter_from 2%N sample_list = (Ok (Some [3; 1]%N), sample_list).
Proof.
  assert (E : sl_iter sample_list = Some [4; 2; 3; 1]%N) by (vm_compute; reflexivity). split; [exact E |].
  pose proof (iter_from_suffix sample_scores sample_list 2%N sample_typed bags_sample_reachable) as Hs. rewrite E in Hs.
  exact (proj1 Hs [4%N] [3; 1]%N eq_refl).
Defined.

Lemma remove_many_exact_witness : exists s',
  remove_many [1; 4; 1]%N sample_list = (Ok 2, s') /\ remove_one_by_one [1; 4; 1]%N sample_list = (Ok tt, s').
Proof.
  destruct (remove_many_exact sample_scores sample_list [1; 4; 1]%N sample_typed bags_sample_reachable) as (s' & Hm & Ho & _).
  exists s'. split; [| exact Ho]. assert (E : fst (remove_many [1; 4; 1]%N sample_list) = Ok 2) by (vm_compute; reflexivity).
  rewrite Hm in E |- *. cbn [fst] in E. by rewrite E.
Defined.

Lemma migrate_exact_witness : do_try_state (snd (migrate old_thresholds (listed_by old_bags))) = true /\
  sl_iter (snd (migrate old_thresholds (listed_by old_bags))) = Some [4; 2; 3; 1]%N.
Proof.
  split; [| vm_compute; reflexivity]. destruct old_list_rep as (r & R & Hp).
  destruct (migrate_exact old_thresholds r (listed_by old_bags) old_thresholds_valid R Hp) as [_ (affected & r' & s' & Hrun & _ & _ & _ & Ht & _)];
    [exact sample_typed | by apply (bool_decide_unpack _) |]. by rewrite Hrun.
Defined.

Lemma migrate_loses_top_bag_witness : exists n s' l, migrate top_thresholds (listed_by top_bags) = (Ok n, s') /\
  list_contains 4%N s' = true /\ sl_iter s' = Some l /\ (4%N ∉ l) /\ do_try_state s' = false.
Proof.
  destruct top_list_rep as (r & R & Hp). apply (migrate_loses_top_bag top_thresholds r (listed_by top_bags) 4%N 2000 top_thresholds_valid R Hp).
  - exact sample_typed.
  - by apply (bool_decide_unpack _).
  - by apply (bool_decide_unpack _).
  - assert (E : exists nd, ListNodes (listed_by top_bags) !! 4%N = Some nd /\ node_bag_upper nd = 2 ^ 64 - 1) by (vm_compute; eauto).
    destruct E as (nd & E & Eb). destruct (rep_in _ _ _ _ R E) as (l1 & l2 & El & _). cbn. rewrite <- Eb, El. apply elem_of_app. right. left.
  - vm_compute. reflexivity.
  - vm_compute. reflexivity.
Defined.

(** * A sample of staking over the bags list

    The stake is on hold in the balances pallet.  Account 1 validates, account 2 nominates it and unbonds
    a part, account 3 is bonded and does neither. *)

(** Both conversions of the repository give votes of 64 bits. *)
#[export] Instance u128_typed : @VotesTyped score_u64 U128CurrencyToVote.
Proof.
  intros value issuance Hv Hi. cbn. unfold is_balance, u64_max. cbn. split; [| lia].
  apply Z.min_glb; [lia |]. apply Z.div_pos; [done |]. unfold factor. lia.
Qed.

#[export] Instance saturating_typed : @VotesTyped score_u64 SaturatingCurrencyToVote.
Proof. intros value issuance Hv Hi. cbn. unfold is_balance, u64_max. cbn. lia. Qed.

#[local] Existing Instance U128CurrencyToVote.
#[local] Instance sample_quota : NominationsQuota := {| MaxNominations := 16; curve _ := 16 |}.
#[local] Instance sample_staking : StakingConfig := {|
  StakingPalletIndex := 7; account_size_hint := 32; BondingDuration := 2; MaxUnlockingChunks := 3; restricted _ := false |}.

(** ** The currency *)

#[local] Instance width128 : StakeWidth.
Proof. refine {| balance_bits := 128 |}. lia. Defined.

#[local] Instance sample_asset : StakeAsset State := @BalancesAsset sample_config 3.
#[local] Instance sample_asset_laws : StakeAssetLaws State := @BalancesAssetLaws sample_config 3 width128 eq_refl.

#[local] Instance sample_old : OldCurrency State := @OldBalances sample_config 77.
#[local] Instance sample_admin : AdminOrigin := fun o => match o with Root => true | _ => false end.

Definition endowed : State := snd (@genesis_build sample_config (fun _ => None) [(1%N, 1000); (2%N, 300); (3%N, 90)] None empty_state).

Lemma endowed_ok : asset_ok endowed.
Proof.
  assert (Hl : @ledger_ok sample_config endowed) by sample_ledger.
  assert (Hh : forall who, holds who endowed = []) by (intros who; unfold holds; assert (E : Holds endowed = ∅) by (vm_compute; reflexivity); by rewrite E).
  assert (Hz : forall who, held 3 who endowed = 0) by (intros who; unfold held, held_map; by rewrite Hh).
  split; [exact Hl | | | |].
  - apply (@holds_check_sound sample_config). vm_compute. reflexivity.
  - intros who. unfold backed. rewrite Hz. apply (@wf_account sample_config endowed who), Hl.
  - intros who. rewrite Hz. lia.
  - clear. vm_compute. discriminate.
Qed.

(** ** The runtime *)

Definition sample_core : StakingCore State := {|
  Bonded := ∅; Ledger := ∅; Payee := ∅; VirtualStakers := ∅; AccountNonce := ∅; slash_store := no_slashes;
  Validators := ∅; CounterForValidators := 0; Nominators := ∅; CounterForNominators := 0;
  MinNominatorBond := 10; MinValidatorBond := 100; MinCommission := 0; MaxValidatorsCount := Some 5; MaxNominatorsCount := None;
  ChillThreshold := Some 50; CurrentEra := Some 3; MinimumActiveStake := 0;
  asset := endowed; staking_events := []; staking_notices := [];
|}.

Abbreviation Runtime := (BagsState (StakingCore State)).

Definition fresh : Runtime := bags_empty sample_core.

Definition do_call (who : AccountId) (call : StakeCall) (s : Runtime) : Runtime := snd (run_stake_call (Signed who) call s).

Definition prefs0 : ValidatorPrefs := {| commission := 5; blocked := false |}.
Definition idle : Runtime :=
  do_call 2 (CallUnbond 10) (do_call 3 (CallBond 30 ToStash) (do_call 2 (CallBond 90 ToStaked) (do_call 1 (CallBond 500 ToStaked) fresh))).
Definition validating : Runtime := do_call 1 (CallVote (CallValidate prefs0)) idle.
Definition voting : Runtime := do_call 2 (CallVote (CallNominate [Id 1])) validating.

Lemma fresh_ok : bonds_ok fresh.
Proof.
  pose proof endowed_ok as Ha. split; split; try done.
  - split; [exists rk_empty; split; [by apply rep_empty | apply placed_empty] | done].
  - intros x. change (is_Some (@None RewardDestination) <-> is_Some (@None AccountId)). split; by intros [].
  - split; [intros t [= <-]; lia |]. split; [done |]. intros n [= <-]. by vm_compute.
Qed.

Definition balance_on_hold_of (who : AccountId) (s : Runtime) : Z := @staked sample_config 3 who (asset (core s)).

(** Calls lead from one to the other. *)
Lemma do_call_step who call s : stake_call_typed call -> sl_count s < u32_max -> staking_step s (do_call who call s).
Proof. apply ss_call. Qed.

Ltac sample_step := eapply rtc_r; [| apply do_call_step; [vm_compute; done | vm_compute; reflexivity]].

Lemma idle_steps : rtc staking_step fresh idle.
Proof. unfold idle. do 4 sample_step. apply rtc_refl. Qed.

Lemma voting_steps : rtc staking_step idle voting.
Proof. unfold voting, validating. do 2 sample_step. apply rtc_refl. Qed.

Lemma idle_ok : bonds_ok idle.
Proof. exact (staking_reachable _ _ idle_steps fresh_ok). Qed.

Lemma voting_ok : bonds_ok voting.
Proof. exact (staking_reachable _ _ voting_steps idle_ok). Qed.

Lemma validating_sync : in_sync validating.
Proof. assert (Hs : rtc staking_step idle validating) by (unfold validating; sample_step; apply rtc_refl). exact (proj1 (staking_reachable _ _ Hs idle_ok)). Qed.

Lemma voting_sync : in_sync voting.
Proof. apply voting_ok. Qed.

Lemma size_hint_pos : 0 <= account_size_hint.
Proof. vm_compute. discriminate. Qed.

(** ** Witnesses *)

Lemma calls_keep_voters_witness : check_count voting = true /\ sl_iter voting = Some [1; 2]%N.
Proof.
  split; [| vm_compute; reflexivity].
  assert (Hok : match spec_call (Signed 2) (CallNominate [Id 1]) (core validating) with inl _ => false | inr _ => true end = true) by (vm_compute; reflexivity).
  pose proof (calls_keep_voters (Signed 2) (CallNominate [Id 1]) validating validating_sync ltac:(vm_compute; reflexivity)) as Hc.
  destruct (spec_call (Signed 2) (CallNominate [Id 1]) (core validating)) as [e | c']; [discriminate Hok |].
  destruct Hc as (s' & Hrun & _ & _ & Hcheck). unfold voting, do_call. cbn [run_stake_call]. by rewrite Hrun.
Defined.

Definition two_voters : DataProviderBounds := {| bound_count := Some 2; bound_size := Some 1000 |}.
Definition no_bounds : DataProviderBounds := {| bound_count := None; bound_size := None |}.


Lemma snapshot_complete_witness : exists order s', sl_iter voting = Some order /\
  get_npos_voters no_bounds voting = (Ok (omap (vote_of (core voting)) order), s').
Proof.
  destruct (snapshot_complete no_bounds voting voting_sync) as (order & s' & Ho & Hrun & _); [vm_compute; discriminate | reflexivity | vm_compute; discriminate |].
  exists order, s'. split; [exact Ho | exact Hrun].
Defined.

Lemma snapshot_size_witness : exists voters s', get_npos_voters two_voters voting = (Ok voters, s') /\ encoded_size voters <= 1001.
Proof.
  destruct (snapshot_size size_hint_pos two_voters 1000 voting voting_sync) as (voters & s' & Hrun & Hle & _);
    [vm_compute; discriminate | reflexivity | by vm_compute | |].
  - assert (Hall : map_Forall (fun _ n => Z.of_nat (length (targets n)) < 64) (Nominators (core voting))) by (apply (bool_decide_unpack _); vm_compute; exact I).
    exact Hall.
  - exists voters, s'. split; [exact Hrun | exact Hle].
Defined.

Lemma tracker_one_byte_short_witness : plain_size (1%N, 500, [1%N]) = 72 /\ encoded_size [(1%N, 500, [1%N])] = 74 /\
  try_register_voter tracker_start (1%N, 500, [1%N]) {| bound_count := None; bound_size := Some 73 |} =
    Some {| tracker_size := 73; tracker_counter := 1 |}.
Proof.
  destruct (tracker_one_byte_short size_hint_pos (1%N, 500, [1%N]) ltac:(vm_compute; reflexivity) ltac:(vm_compute; reflexivity)) as [Hr He].
  split; [reflexivity |]. split; [exact He | exact Hr].
Defined.

Lemma voters_stay_listed_witness : check_count voting = true /\ do_try_state voting = true /\ balance_on_hold_of 2 voting = 90.
Proof.
  destruct (voters_stay_listed fresh voting fresh_ok) as (Hc & Ht & _ & _ & Hst).
  - apply (rtc_subrel staking_step); [exact rs_stake |]. transitivity idle; [exact idle_steps | exact voting_steps].
  - split; [exact Hc |]. split; [exact Ht |]. transitivity (stake_of 2 (core voting)); [exact (Hst 2%N) | vm_compute; reflexivity].
Defined.

Lemma rebag_admits_non_voter_witness : exists s', rebag (Signed 9) (Id 3) voting = (Ok tt, s') /\ sl_contains 3%N s' = true /\ check_count s' = false.
Proof.
  destruct (rebag_admits_non_voter 9%N 3%N {| lg_stash := 3; lg_total := 30; lg_active := 30; lg_unlocking := []; lg_controller := Some 3%N |} voting voting_sync) as (s' & Hrun & Hc & _ & Hn);
    [vm_compute; reflexivity.. |]. exists s'. split; [exact Hrun |]. split; [exact Hc | exact Hn].
Defined.

Lemma locked_nominator_unlisted_witness : exists s',
  do_add_nominator 3%N {| targets := [1%N]; submitted_in := 3; suppressed := false |} (sl_lock voting) = (Ok tt, s') /\
  sl_contains 3%N s' = false /\ check_count s' = false.
Proof.
  destruct (locked_nominator_unlisted 3%N {| targets := [1%N]; submitted_in := 3; suppressed := false |} voting voting_sync) as (s' & Hrun & _ & Hc & Hn);
    [vm_compute; reflexivity.. |]. exists s'. split; [exact Hrun |]. split; [exact Hc | exact Hn].
Defined.

(** ** Ledgers and stake *)

Definition ledger_of_2 (s : Runtime) : StakingLedger := default (StakingLedger_new 0 0) (Ledger (core s) !! 2%N).

Definition unbonding_ledger : StakingLedger := {|
  lg_stash := 2; lg_total := 90; lg_active := 50;
  lg_unlocking := [{| chunk_value := 10; chunk_era := 5 |}; {| chunk_value := 30; chunk_era := 6 |}]; lg_controller := Some 2%N |}.

Lemma unbonding_good : ledger_good unbonding_ledger.
Proof. split; [by vm_compute | by repeat constructor | reflexivity | by vm_compute]. Qed.

Lemma rebond_exact_witness : exists unlocking,
  ledger_rebond unbonding_ledger 35 = Some (set_unlocking unlocking (set_active 85 unbonding_ledger), 35).
Proof.
  destruct (rebond_exact unbonding_ledger 35 unbonding_good ltac:(lia)) as (unlocking & Hrun & _). exists unlocking. exact Hrun.
Defined.

Lemma slash_exceeds_amount_witness : ledger_slash 2 (StakingLedger_new 1 100) 95 10 3 =
  Some (set_active 0 (set_total 0 (StakingLedger_new 1 100)), 100, Some ∅).
Proof. apply slash_exceeds_amount; [lia | by vm_compute | lia]. Defined.

Lemma total_lowered_newest_first_witness :
  let l := {| lg_stash := 2; lg_total := 40; lg_active := 0; lg_unlocking := lg_unlocking unbonding_ledger; lg_controller := None |} in
  lg_unlocking <$> update_total_stake l 35 = Some [{| chunk_value := 10; chunk_era := 5 |}; {| chunk_value := 25; chunk_era := 6 |}].
Proof.
  cbv zeta. assert (Hm : 10 + 30 <= stake_max) by (by vm_compute).
  pose proof (total_lowered_newest_first 2%N {| chunk_value := 10; chunk_era := 5 |} {| chunk_value := 30; chunk_era := 6 |} 5
    ltac:(simpl; lia) ltac:(simpl; lia) Hm ltac:(lia)) as Hrun.
  exact (f_equal (fmap lg_unlocking) Hrun).
Defined.

Lemma stake_stays_backed_witness : check_count voting = true /\ fst (run_stake_call (Signed 2) (CallRebond 4) voting) <> Panic.
Proof.
  destruct (stake_stays_backed idle voting idle_ok voting_steps) as (_ & _ & _ & Hc & Hp & _).
  split; [exact Hc | apply Hp; [by vm_compute | vm_compute; reflexivity]].
Defined.

Lemma slash_takes_stake_witness : exists s' l', snd (do_slash 2 60 7 0 2 voting) = s' /\ bonds_ok s' /\ balance_on_hold_of 2 s' = 26 /\
  ledger_get (Stash 2) (core s') = inr l' /\ lg_total l' = 26.
Proof.
  destruct (slash_takes_stake voting 2%N (set_controller (Some 2%N) (ledger_of_2 voting)) 60 7 0 2 voting_ok) as (n & s' & l' & Hrun & Hs' & _ & _ & Hl & _ & _ & Hst);
    [vm_compute; reflexivity | by vm_compute |].
  assert (E : balance_on_hold_of 2 (snd (do_slash 2 60 7 0 2 voting)) = 26) by (vm_compute; reflexivity). rewrite Hrun in E.
  assert (El : (lg_total <$> match ledger_get (Stash 2) (core (snd (do_slash 2 60 7 0 2 voting))) with inr l => Some l | inl _ => None end) = Some 26)
    by (vm_compute; reflexivity). rewrite Hrun in El. cbn [snd] in El. rewrite Hl in El. injection El as El.
  exists s', l'. rewrite Hrun. split; [reflexivity |]. split; [exact Hs' |]. split; [exact E |]. split; [exact Hl | exact El].
Defined.

(** Two eras later the unbonded part has matured. *)
Definition matured_runtime : Runtime := set_core (set_era (Some 5) (core voting)) voting.

Lemma matured_ok : bonds_ok matured_runtime.
Proof. exact (staking_step_ok _ _ (ss_era (Some 5) voting) voting_ok). Qed.

Lemma matured_stake_withdrawn_witness : exists s', withdraw_unbonded (Signed 2) 0 matured_runtime = (Ok tt, s') /\ balance_on_hold_of 2 s' = 80.
Proof.
  destruct (matured_stake_withdrawn matured_runtime 2%N (set_controller (Some 2%N) (ledger_of_2 voting)) 5 0 matured_ok) as (s' & Hrun & _ & Hres);
    [vm_compute; reflexivity.. | by vm_compute |].
  exists s'. split; [exact Hrun |]. set (l := set_controller _ _) in Hres.
  assert (E : bool_decide (later_chunks 5 l = []) && ((lg_active l <? asset_existential_deposit) || (lg_active l =? 0)) = false) by (vm_compute; reflexivity).
  rewrite E in Hres. destruct Hres as [_ Hst]. transitivity (lg_total l - mature_part 5 l); [exact Hst | vm_compute; reflexivity].
Defined.

(** ** Payees, controllers and repairs *)

Lemma payee_round_trip_witness : exists s', set_payee (Signed 2) (ToAccount 8) idle = (Ok tt, s') /\
  reward_destination (Stash 2) (core s') = Some (ToAccount 8).
Proof.
  destruct (payee_round_trip idle 2%N (set_controller (Some 2%N) (ledger_of_2 idle)) (ToAccount 8) idle_ok) as (s' & Hrun & _ & _ & Hp & _);
    [vm_compute; reflexivity | discriminate |]. exists s'. split; [exact Hrun | exact Hp].
Defined.

Lemma healthy_never_restored_witness : restore_ledger Root 2 None (Some 40) None idle = (Err (SError CannotRestoreLedger), idle).
Proof.
  assert (E : SError CannotRestoreLedger = if negb (admin_origin Root) then BadOrigin else if is_virtual_staker 2 (core idle) then SError VirtualStakerNotAllowed else SError CannotRestoreLedger)
    by (vm_compute; reflexivity).
  rewrite E. apply (healthy_never_restored idle Root 2%N None (Some 40) None idle_ok). vm_compute. reflexivity.
Defined.

(** Account 2 is the controller of account 1, and account 9 that of account 2. *)
Definition ledger_of (x : AccountId) : StakingLedger := default (StakingLedger_new 0 0) (Ledger (core idle) !! x).
Definition moved : Runtime := set_core (relocate 2 2 9 (ledger_of 2) (core idle)) idle.
Definition crossed : Runtime := set_core (relocate 1 1 2 (ledger_of 1) (core moved)) moved.

Lemma moved_ok : bonds_ok moved.
Proof.
  assert (E1 : Bonded (core idle) !! 2%N = Some 2%N) by (vm_compute; reflexivity).
  assert (E2 : Ledger (core idle) !! 2%N = Some (ledger_of 2)) by (vm_compute; reflexivity).
  assert (E3 : Ledger (core idle) !! 9%N = None) by (vm_compute; reflexivity).
  exact (relocate_ok idle 2 2 9 (ledger_of 2) idle_ok E1 E2 E3).
Qed.

Lemma crossed_ok : bonds_ok crossed.
Proof.
  assert (E1 : Bonded (core moved) !! 1%N = Some 1%N) by (vm_compute; reflexivity).
  assert (E2 : Ledger (core moved) !! 1%N = Some (ledger_of 1)) by (vm_compute; reflexivity).
  assert (E3 : Ledger (core moved) !! 2%N = None) by (vm_compute; reflexivity).
  exact (relocate_ok moved 1 1 2 (ledger_of 1) moved_ok E1 E2 E3).
Qed.

(** Both retire: stash 1 comes first, and by its turn the key of stash 2 is no longer a controller's. *)
Lemma batch_keeps_ledgers_witness : exists s', deprecate_controller_batch Root [2; 9]%N crossed = (Ok tt, s') /\ bonds_ok s' /\
  staking_events (core s') = staking_events (core crossed) ++ [ControllerBatchDeprecated 0] /\
  ledger_get (Stash 1) (core s') = inr (set_controller (Some 1%N) (ledger_of 1)).
Proof.
  destruct (batch_keeps_ledgers crossed Root [2; 9]%N crossed_ok) as (s' & Hrun & Hs' & _ & Hev & Hl); [apply (bool_decide_unpack _); vm_compute; exact I | reflexivity |].
  exists s'. split; [exact Hrun |]. split; [exact Hs' |]. split.
  - assert (E : snd (retire_all (to_retire [2; 9]%N (core crossed)) (Bonded (core crossed)) 0) = 0) by (vm_compute; reflexivity).
    rewrite E in Hev. exact Hev.
  - assert (H1 : ledger_get (Stash 1) (core crossed) = inr (set_controller (Some 2%N) (ledger_of 1))) by (vm_compute; reflexivity).
    assert (Hin : 2%N ∈ [2; 9]%N) by left.
    assert (Hp : bool_decide (Payee (core crossed) !! 1%N = Some ToController) = false) by (vm_compute; reflexivity).
    assert (Hn : Ledger (core crossed) !! 1%N = None) by (vm_compute; reflexivity).
    apply bool_decide_eq_false in Hp. destruct (Hl 1%N _ 2%N H1 eq_refl) as (k' & Hk & _ & _ & _ & Hret).
    assert (Hr : k' = 1%N) by (apply Hret; [split; [exact Hin | split; [discriminate | exact Hp]] | exact Hn]).
    rewrite Hr in Hk. exact Hk.
Defined.

Definition lost : Runtime := snd (deprecate_controller_batch Root [2; 9; 2]%N crossed).

Lemma repeated_controller_loses_ledger_witness : ledger_get (Stash 2) (core lost) = inl NotController /\ balance_on_hold_of 2 lost = 90.
Proof.
  destruct (repeated_controller_loses_ledger crossed Root 1%N 2%N 9%N (set_controller (Some 2%N) (ledger_of 1)) (set_controller (Some 9%N) (ledger_of 2)) crossed_ok)
    as (s' & Hrun & _ & _ & Hl & _); [reflexivity | discriminate | discriminate | vm_compute; reflexivity | reflexivity | vm_compute; reflexivity | vm_compute; reflexivity | reflexivity | vm_compute; discriminate | vm_compute; discriminate |].
  split; [| vm_compute; reflexivity]. unfold lost. rewrite Hrun. exact Hl.
Defined.

Lemma lost_asset : asset (core lost) = asset (core idle).
Proof. vm_compute. reflexivity. Qed.

Lemma restored_chunks_unbacked_witness : exists s' l, restore_ledger Root 2 None None (Some [{| chunk_value := 25; chunk_era := 6 |}]) lost = (Ok tt, s') /\
  ledger_get (Stash 2) (core s') = inr l /\ lg_total l < lg_active l + chunks_sum (lg_unlocking l).
Proof.
  destruct (restored_chunks_unbacked lost Root 2%N 2%N [{| chunk_value := 25; chunk_era := 6 |}]) as (s' & l & Hrun & Hl & _ & _ & Hlt);
    [reflexivity | rewrite lost_asset; apply idle_ok | vm_compute; reflexivity | split; [vm_compute; reflexivity | vm_compute; discriminate] | vm_compute; reflexivity.. |].
  exists s', l. split; [exact Hrun |]. split; [exact Hl | exact Hlt].
Defined.
