(* ===== verification/StakingSpanFacts.v ===== *)
(** * Only the largest slash of a span

    The spans of a stash cover its eras without gaps, and over any sequence of slashes what is taken
    from a stash for a span is the largest slash reported in it, not the sum; the rewards paid for it stay
    within their proportion of that slash.  A sample of slashes is at the end. *)

From stdpp Require Import base tactics numbers list gmap.
From S2P Require Import Prelude Dispatch System Words Helpers128 Helpers128Facts PerThings PerThingsFacts StakingLedgers StakingLedgerFacts StakingSpans.
Local Open Scope Z_scope.

(** ** The spans of a stash *)

Definition lengths_sum (l : list Z) : Z := foldr Z.add 0 l.

Record spans_wf (s : SlashingSpansRecord) : Prop := {
  sw_prior : Forall (fun len => 1 <= len) (prior s);
  sw_start : lengths_sum (prior s) <= last_start s <= u32_max;
  sw_index : Z.of_nat (length (prior s)) <= span_index s <= u32_max;
}.

Definition earliest_index (s : SlashingSpansRecord) : Z := span_index s - Z.of_nat (length (prior s)).
Definition earliest_start (s : SlashingSpansRecord) : Z := last_start s - lengths_sum (prior s).
Definition live (s : SlashingSpansRecord) (i : Z) : Prop := earliest_index s <= i <= span_index s.

Lemma lengths_pos l : Forall (fun len => 1 <= len) l -> 0 <= lengths_sum l.
Proof. induction 1; simpl; lia. Qed.

Lemma lengths_take l n : Forall (fun len => 1 <= len) l -> lengths_sum (take n l) <= lengths_sum l.
Proof.
  intros Hl. revert n. induction Hl as [| len l Hlen Hl IH]; intros [| n]; simpl; [lia | lia | pose proof (lengths_pos _ Hl); lia | specialize (IH n); lia].
Qed.

Lemma prior_spans_length ls idx l : length (prior_spans ls idx l) = length l.
Proof. revert ls idx. induction l as [| len l IH]; intros ls idx; simpl; [done |]. by rewrite IH. Qed.

(** The earlier spans are adjacent, with consecutive indices. *)
Lemma prior_spans_lookup l ls idx j sp : Forall (fun len => 1 <= len) l -> lengths_sum l <= ls -> Z.of_nat (length l) <= idx ->
  prior_spans ls idx l !! j = Some sp ->
  sp_index sp = idx - Z.of_nat j - 1 /\ sp_start sp = ls - lengths_sum (take (S j) l) /\ sp_length sp = l !! j.
Proof.
  intros Hl. revert ls idx j. induction Hl as [| len l Hlen Hl IH]; intros ls idx [| j] Hs Hi; simpl in *; try done.
  - intros [= <-]. simpl. pose proof (lengths_pos _ Hl). unfold saturating_sub. split; [lia |]. split; [lia | done].
  - pose proof (lengths_pos _ Hl). unfold saturating_sub. rewrite !Z.max_r by lia. intros E. destruct (IH (ls - len) (idx - 1) j ltac:(lia) ltac:(lia) E) as (-> & -> & ->).
    split; [lia |]. split; [lia | done].
Qed.

Lemma era_span_live s e sp : spans_wf s -> snd <$> list_find (fun span => contains_era span e = true) (spans_iter s) = Some sp -> live s (sp_index sp).
Proof.
  intros [Hp Hs Hi] E. destruct (list_find _ _) as [[j sp'] |] eqn:F; [| done]. injection E as <-.
  apply list_find_Some in F as (F & _ & _). unfold live, earliest_index. destruct j as [| j]; simpl in F.
  - injection F as <-. simpl. lia.
  - pose proof (lookup_lt_Some _ _ _ F) as Hj. rewrite prior_spans_length in Hj.
    apply prior_spans_lookup in F as (-> & _); [lia | done | lia | lia].
Qed.

Lemma new_wf w : 0 <= w <= u32_max -> spans_wf (SlashingSpans_new w).
Proof. intros Hw. split; simpl; [done | lia | unfold u32_max; lia]. Qed.

Lemma end_span_run now s : spans_wf s -> span_index s < u32_max ->
  let '(ended, s') := spans_end_span now s in
  spans_wf s' /\ earliest_index s' = earliest_index s /\ span_index s <= span_index s' /\ (ended = false -> s' = s) /\
  last_nonzero_slash s' = last_nonzero_slash s.
Proof.
  intros [Hp Hs Hi] Hx. unfold spans_end_span, u32_saturating_add, saturating_sub.
  destruct (Z.leb_spec (Z.min u32_max (now + 1)) (last_start s)); [split; [by split |]; split; [done |]; split; [lia | done] |].
  unfold earliest_index. simpl. split; [| split; [lia | split; [lia | done]]]. pose proof (lengths_pos _ Hp).
  split; cbn [prior last_start span_index lengths_sum foldr length]; [constructor; [lia | done] | fold (lengths_sum (prior s)); lia | lia].
Qed.

Lemma prune_run w s : spans_wf s -> 0 <= w <= u32_max ->
  let '(pruned, s') := prune w s in
  spans_wf s' /\ earliest_index s <= earliest_index s' /\ span_index s' = span_index s /\
  match pruned with Some (a, b) => a = earliest_index s /\ b = earliest_index s' | None => earliest_index s' = earliest_index s end.
Proof.
  intros [Hp Hs Hi] Hw. unfold prune, earliest_index, saturating_sub.
  assert (Hm : forall l : list Z, Z.of_nat (length l) <= span_index s -> Z.of_nat (length l) mod 2 ^ 32 = Z.of_nat (length l)).
  { intros l Hl. apply Z.mod_small. unfold u32_max in *. lia. }
  destruct (list_find _ _) as [[o sp] |]; simpl.
  - assert (Hlen : (length (take o (prior s)) <= length (prior s))%nat) by (rewrite length_take; lia).
    rewrite !Hm by lia. split; [| lia]. pose proof (lengths_take _ o Hp).
    split; simpl; [by apply Forall_take | lia | lia].
  - split; [split; simpl; [done | lia | lia] | lia].
Qed.

(** ** The span of an era *)

(** The era's span, if it is still kept. *)
Definition span_of_era (e : Z) (s : SlashingSpansRecord) : option Z :=
  sp_index <$> (snd <$> list_find (fun span => contains_era span e = true) (spans_iter s)).

(** By the starts of the spans, from the last one back. *)
Fixpoint span_from (e ls idx : Z) (l : list Z) : option Z :=
  if ls <=? e then Some idx
  else match l with
       | [] => None
       | len :: l => span_from e (ls - len) (idx - 1) l
       end.

Lemma list_find_cons_index e sp l :
  sp_index <$> (snd <$> list_find (fun span => contains_era span e = true) (sp :: l)) =
  if contains_era sp e then Some (sp_index sp) else sp_index <$> (snd <$> list_find (fun span => contains_era span e = true) l).
Proof. simpl. destruct (contains_era sp e); simpl; [done |]. by destruct (list_find _ l) as [[] |]. Qed.

Lemma span_from_prior e l ls idx : Forall (fun len => 1 <= len) l -> lengths_sum l <= ls <= u32_max -> Z.of_nat (length l) <= idx -> e < ls ->
  sp_index <$> (snd <$> list_find (fun span => contains_era span e = true) (prior_spans ls idx l)) = span_from e ls idx l.
Proof.
  intros Hl. revert ls idx. induction Hl as [| len l Hlen Hl IH]; intros ls idx Hs Hi He; cbn [span_from]; rewrite (proj2 (Z.leb_gt _ _)) by lia; [done |].
  pose proof (lengths_pos _ Hl). cbn [lengths_sum foldr length] in *. fold (lengths_sum l) in *. cbn [prior_spans]. unfold saturating_sub. rewrite !Z.max_r by lia.
  rewrite list_find_cons_index. unfold contains_era. cbn [sp_start sp_length sp_index from_option]. unfold u32_saturating_add. rewrite Z.min_r by lia.
  rewrite (proj2 (Z.ltb_lt e _)), andb_true_r by lia. destruct (Z.leb_spec (ls - len) e) as [Hle | Hgt].
  - destruct l; cbn [span_from]; by rewrite (proj2 (Z.leb_le _ _)).
  - apply IH; lia.
Qed.

Lemma span_of_era_from e s : spans_wf s -> span_of_era e s = span_from e (last_start s) (span_index s) (prior s).
Proof.
  intros [Hp Hs Hi]. unfold span_of_era, spans_iter. rewrite list_find_cons_index. unfold contains_era. cbn [sp_start sp_length sp_index from_option].
  rewrite andb_true_r. destruct (Z.leb_spec (last_start s) e) as [Hle | Hgt].
  - destruct (prior s); cbn [span_from]; by rewrite (proj2 (Z.leb_le _ _)).
  - apply span_from_prior; [done | done | lia | done].
Qed.

Lemma span_from_before e l ls idx : Forall (fun len => 1 <= len) l -> e < ls - lengths_sum l -> span_from e ls idx l = None.
Proof.
  intros Hl. revert ls idx. induction Hl as [| len l Hlen Hl IH]; intros ls idx He; simpl in *.
  - by rewrite (proj2 (Z.leb_gt _ _)) by lia.
  - pose proof (lengths_pos _ Hl). rewrite (proj2 (Z.leb_gt _ _)) by lia. apply IH. lia.
Qed.

(** Spans that have ended by the era do not matter for it. *)
Lemma span_from_take e w l ls idx : Forall (fun len => 1 <= len) l -> lengths_sum l <= ls <= u32_max -> w <= e -> 0 <= w -> Z.of_nat (length l) <= idx ->
  let o := fst <$> list_find (fun span => ended_by w span = true) (prior_spans ls idx l) in
  span_from e ls idx (from_option (fun o => take o l) l o) = span_from e ls idx l /\ (o <> Some 0%nat -> l <> [] -> w < ls).
Proof.
  intros Hl. revert ls idx. induction Hl as [| len l Hlen Hl IH]; intros ls idx Hs Hwe Hw Hi; [done |].
  pose proof (lengths_pos _ Hl). cbn [lengths_sum foldr length] in *. fold (lengths_sum l) in *. cbn [prior_spans]. unfold saturating_sub. rewrite !Z.max_r by lia.
  assert (Eb : ended_by w {| sp_index := idx - 1; sp_start := ls - len; sp_length := Some len |} = (ls <=? w)).
  { unfold ended_by, u32_saturating_add. cbn. f_equal. lia. }
  cbn [list_find]. rewrite Eb.
  destruct (Z.leb_spec ls w) as [Hle | Hgt].
  - rewrite decide_True by done. cbv zeta. simpl. rewrite (proj2 (Z.leb_le ls e)) by lia. done.
  - rewrite decide_False by done. destruct (IH (ls - len) (idx - 1)) as [E _]; [lia | lia | lia | lia |]. cbv zeta in E |- *. split; [| lia].
    destruct (list_find _ (prior_spans (ls - len) (idx - 1) l)) as [[o sp] |]; simpl in E |- *; [by rewrite E | done].
Qed.

(** The slashes of an era go to the same span for as long as it is kept: when a span is ended, every era
    until then stays in its span, and when spans are pruned, every era of the window does. *)
Theorem era_keeps_span s e : spans_wf s -> span_index s < u32_max ->
  (forall now, e <= now < u32_max -> span_of_era e (snd (spans_end_span now s)) = span_of_era e s) /\
  (forall w, 0 <= w <= u32_max -> w <= e -> span_of_era e (snd (prune w s)) = span_of_era e s) /\
  (e < earliest_start s -> span_of_era e s = None).
Proof.
  intros Hwf Hx. pose proof Hwf as [Hp Hs Hi]. split; [| split].
  - intros now Hnow. pose proof (end_span_run now s Hwf Hx) as Hend. destruct (spans_end_span now s) as [ended s'] eqn:E. destruct Hend as (Hwf' & _ & _ & Hsame & _).
    simpl. destruct ended; [| by rewrite Hsame]. rewrite !span_of_era_from by done. unfold spans_end_span, u32_saturating_add, saturating_sub in E.
    destruct (_ <=? _) eqn:Ele; [done |]. apply Z.leb_gt in Ele. injection E as <-. cbn [last_start span_index prior span_from].
    rewrite (proj2 (Z.leb_gt _ e)) by lia. f_equal; lia.
  - intros w Hw He. pose proof (prune_run w s Hwf Hw) as Hpr. destruct (prune w s) as [pruned s'] eqn:E. destruct Hpr as (Hwf' & _). simpl. rewrite !span_of_era_from by done.
    destruct (span_from_take e w (prior s) (last_start s) (span_index s) Hp Hs He ltac:(lia) ltac:(lia)) as [Et Hlt]. cbv zeta in Et, Hlt. unfold prune in E. simpl in E. rewrite drop_0 in E.
    destruct (list_find _ _) as [[o sp] |]; simpl in *; injection E as _ <-; cbn [last_start span_index prior].
    + destruct o as [| o]; [| destruct (prior s) as [| len l]].
      * rewrite <- Et. simpl. destruct (Z.leb_spec (last_start s) e), (Z.leb_spec (Z.max (last_start s) w) e); lia || done.
      * simpl. destruct (Z.leb_spec (last_start s) e), (Z.leb_spec (Z.max (last_start s) w) e); lia || done.
      * specialize (Hlt ltac:(done) ltac:(done)). by rewrite Z.max_l by lia.
    + destruct (prior s) as [| len l].
      * simpl. destruct (Z.leb_spec (last_start s) e), (Z.leb_spec (Z.max (last_start s) w) e); lia || done.
      * specialize (Hlt ltac:(done) ltac:(done)). by rewrite Z.max_l by lia.
  - intros He. rewrite span_of_era_from by done. by apply span_from_before.
Qed.

(** ** Inspections *)

Record SlashEvent := { ev_stash : AccountId; ev_span : Z; ev_slash : Z; ev_taken : Z; ev_paid : Z }.

Definition in_span (x : AccountId) (i : Z) (ev : SlashEvent) : Prop := ev_stash ev = x /\ ev_span ev = i.
#[export] Instance in_span_dec x i ev : Decision (in_span x i ev) := ltac:(unfold in_span; apply _).

Definition taken_in (log : list SlashEvent) (x : AccountId) (i : Z) : Z := foldr (fun ev n => ev_taken ev + n) 0 (filter (in_span x i) log).
Definition paid_in (log : list SlashEvent) (x : AccountId) (i : Z) : Z := foldr (fun ev n => ev_paid ev + n) 0 (filter (in_span x i) log).
Definition largest_in (log : list SlashEvent) (x : AccountId) (i : Z) : Z := foldr (fun ev n => Z.max (ev_slash ev) n) 0 (filter (in_span x i) log).

(** The log has the last event first. *)
Lemma filter_other ev log x i : ~ in_span x i ev -> filter (in_span x i) (ev :: log) = filter (in_span x i) log.
Proof. intros Hn. by rewrite filter_cons_False. Qed.

Lemma in_cons ev log x i : in_span x i ev ->
  taken_in (ev :: log) x i = ev_taken ev + taken_in log x i /\ paid_in (ev :: log) x i = ev_paid ev + paid_in log x i /\
  largest_in (ev :: log) x i = Z.max (ev_slash ev) (largest_in log x i).
Proof. intros Hi. unfold taken_in, paid_in, largest_in. by rewrite !filter_cons_True by done. Qed.

Lemma out_cons ev log x i : ~ in_span x i ev ->
  taken_in (ev :: log) x i = taken_in log x i /\ paid_in (ev :: log) x i = paid_in log x i /\ largest_in (ev :: log) x i = largest_in log x i.
Proof. intros Hi. unfold taken_in, paid_in, largest_in. by rewrite !filter_other by done. Qed.

Section slashing.
Context `{StakeWidth}.

(** What the records say of the log: a span that is still kept has its largest slash recorded. *)
Record recorded (st : SlashStore) (log : list SlashEvent) : Prop := {
  rc_wf x s : st_spans st !! x = Some s -> spans_wf s;
  rc_live x i r : st_span_slash st !! (x, i) = Some r -> exists s, st_spans st !! x = Some s /\ live s i;
  rc_record x i s : st_spans st !! x = Some s -> live s i ->
    span_slashed (SpanSlash_get (x, i) st) = largest_in log x i /\ span_paid_out (SpanSlash_get (x, i) st) = paid_in log x i;
  rc_past x i s : st_spans st !! x = Some s -> span_index s < i -> filter (in_span x i) log = [];
  rc_unknown x i : st_spans st !! x = None -> filter (in_span x i) log = [];
  rc_taken x i : taken_in log x i = largest_in log x i;
  rc_paid x i : 0 <= paid_in log x i <= stake_max;
}.

(** Only the spans and their slashes matter. *)
Lemma recorded_same st st' log : st_spans st' = st_spans st -> st_span_slash st' = st_span_slash st -> recorded st log -> recorded st' log.
Proof.
  intros Es Er [R1 R2 R3 R4 R5 R6 R7]. unfold SpanSlash_get in *. split; unfold SpanSlash_get; rewrite ?Es, ?Er; done.
Qed.

Lemma recorded_empty : recorded no_slashes [].
Proof.
  assert (0 <= stake_max) by (unfold stake_max; pose proof balance_bits_ge; pose proof (Z.pow_pos_nonneg 2 balance_bits); lia).
  split; try done; intros; by rewrite lookup_empty in *.
Qed.

Lemma fetch_run x w paid taken st log : recorded st log -> 0 <= w <= u32_max ->
  let '(self, st') := fetch_spans x w paid taken st in
  recorded st' log /\ st_spans st' !! x = Some (inspected self) /\ dirty self = false /\ paid_out self = paid /\ slash_of self = taken /\
  inspected self = default (SlashingSpans_new w) (st_spans st !! x) /\ st_span_slash st' = st_span_slash st /\
  (ValidatorSlashInEra st' = ValidatorSlashInEra st /\ NominatorSlashInEra st' = NominatorSlashInEra st).
Proof.
  intros Hr Hw. unfold fetch_spans. destruct (st_spans st !! x) as [s |] eqn:E; [done |]. simpl. rewrite lookup_insert_eq. split; [| done].
  destruct Hr as [R1 R2 R3 R4 R5 R6 R7]. split; simpl.
  - intros y s [[_ <-] | [_ Hy]]%lookup_insert_Some; [by apply new_wf | by eapply R1].
  - intros y i r Hr. destruct (R2 y i r Hr) as (s & Hs & Hl). exists s. split; [| done]. rewrite lookup_insert_ne; [done | congruence].
  - intros y i s [[<- <-] | [_ Hy]]%lookup_insert_Some Hl; [| by eapply R3]. unfold SpanSlash_get. simpl.
    destruct (st_span_slash st !! (x, i)) as [r |] eqn:Er; [destruct (R2 _ _ _ Er) as (? & ? & _); congruence |].
    unfold largest_in, paid_in. by rewrite (R5 x i E).
  - intros y i s [[<- <-] | [_ Hy]]%lookup_insert_Some Hl; [by apply R5 | by eapply R4].
  - intros y i [Hn _]%lookup_insert_None. by apply R5.
  - done.
  - done.
Qed.

Lemma removed_lookup x a b m (k : AccountId * Z) : remove_span_slashes x a b m !! k = if decide (k.1 = x /\ a <= k.2 < b) then None else m !! k.
Proof.
  unfold remove_span_slashes. assert (Hg : forall l m, foldl (fun (m : gmap (AccountId * Z) SpanRecord) i => delete (x, i) m) m l !! k =
    if decide (k.1 = x /\ k.2 ∈ l) then None else m !! k).
  { induction l as [| i l IH]; intros m0; simpl; [rewrite decide_False; [done |]; intros [_ []%not_elem_of_nil] |]. rewrite IH. destruct k as [y j]; simpl.
    destruct (decide (y = x /\ j ∈ l)) as [[-> Hj] |]; [rewrite decide_True; [done |]; split; [done | by right] |].
    destruct (decide (y = x /\ j ∈ i :: l)) as [[-> Hj] | Hn].
    - apply elem_of_cons in Hj as [-> | Hj]; [by rewrite lookup_delete_eq | tauto].
    - rewrite lookup_delete_ne; [done |]. intros [= -> ->]. apply Hn. split; [done | by left]. }
  rewrite Hg. apply decide_ext. rewrite elem_of_seqZ. lia.
Qed.

(** The spans are written back. *)
Lemma drop_run x w self st log s0 : recorded st log -> 0 <= w <= u32_max -> st_spans st !! x = Some s0 -> spans_wf (inspected self) ->
  earliest_index (inspected self) = earliest_index s0 -> span_index s0 <= span_index (inspected self) ->
  recorded (inspecting_drop x w self st) log.
Proof.
  intros Hr Hw Hs Hwf He Hi. unfold inspecting_drop. destruct (dirty self); [| done]. simpl.
  pose proof (prune_run w (inspected self) Hwf Hw) as Hp. destruct (prune w (inspected self)) as [pruned s2]. destruct Hp as (Hwf2 & He2 & Hi2 & Hpr).
  set (slashes := match pruned with Some _ => _ | None => _ end).
  assert (Hlook : forall y i, slashes !! (y, i) = if decide (y = x /\ earliest_index s0 <= i < earliest_index s2) then None else st_span_slash st !! (y, i)).
  { intros y i. unfold slashes. destruct pruned as [[a b] |].
    - destruct Hpr as [-> ->]. rewrite removed_lookup. simpl. by rewrite He.
    - rewrite decide_False; [done |]. lia. }
  clearbody slashes. destruct Hr as [R1 R2 R3 R4 R5 R6 R7]. split; simpl.
  - intros y s [[_ <-] | [_ Hy]]%lookup_insert_Some; [done | by eapply R1].
  - intros y i r. rewrite Hlook. destruct (decide _) as [| Hn]; [done |]. intros E. destruct (R2 y i r E) as (s & Es & Hl).
    destruct (decide (y = x)) as [-> |]; [| exists s; by rewrite lookup_insert_ne]. exists s2. rewrite lookup_insert_eq. split; [done |].
    rewrite Hs in Es. injection Es as <-. unfold live in *. lia.
  - intros y i s. unfold SpanSlash_get. simpl. rewrite Hlook. intros [[<- <-] | [Hne Hy]]%lookup_insert_Some Hl.
    + rewrite decide_False by (unfold live in Hl; lia). destruct (decide (i <= span_index s0)).
      * apply R3 with (s := s0); [done |]. unfold live in *. lia.
      * destruct (st_span_slash st !! (x, i)) as [r |] eqn:Er.
        { destruct (R2 _ _ _ Er) as (s & Es & Hl'). rewrite Hs in Es. injection Es as <-. unfold live in Hl'. lia. }
        unfold largest_in, paid_in. rewrite (R4 x i s0 Hs) by lia. done.
    + rewrite decide_False by (intros [-> _]; done). by eapply R3.
  - intros y i s [[<- <-] | [Hne Hy]]%lookup_insert_Some Hl; [| by eapply R4]. apply (R4 x i s0 Hs). lia.
  - intros y i [Hn _]%lookup_insert_None. by apply R5.
  - done.
  - done.
Qed.

(** ** One slash *)

(** A proportion of an amount, rounded to the nearest. *)
Definition share (p v : Z) : Z := round_div NearestPrefDown (v * p) (ACCURACY Perbill).

Lemma mul_share p v : 0 <= p <= ACCURACY Perbill -> 0 <= v <= stake_max -> mul_n Perbill balance_bits p v = Some (share p v) /\ 0 <= share p v <= v.
Proof.
  intros Hp Hv. pose proof balance_bits_ge. assert (Hw : is_word balance_bits v) by (unfold is_word, stake_max in *; lia).
  destruct (overflow_prune_mul_spec Perbill (per_things_wf Perbill ltac:(simpl; tauto)) balance_bits v p NearestPrefDown) as [E Hle];
    [simpl; lia | done | done |]. split; [exact E |]. split; [| exact Hle]. apply round_div_nonneg; [| done]. nia.
Qed.

Lemma share_mono p v v' : 0 <= p -> 0 <= v <= v' -> share p v <= share p v'.
Proof.
  intros Hp Hv. pose proof (round_div_rounded NearestPrefDown (v * p) (ACCURACY Perbill) ltac:(nia) ltac:(done)) as H1.
  pose proof (round_div_rounded NearestPrefDown (v' * p) (ACCURACY Perbill) ltac:(nia) ltac:(done)) as H2. cbn in H1, H2.
  unfold share. set (a := round_div _ (v * p) _) in *. set (b := round_div _ (v' * p) _) in *. assert (v * p <= v' * p) by nia. cbn. lia.
Qed.

Lemma span_reward_run p v paid : 0 <= p <= ACCURACY Perbill -> 0 <= v <= stake_max -> 0 <= paid ->
  exists r, span_reward p v paid = Some r /\ 0 <= r <= Z.max 0 (share p v - paid).
Proof.
  intros Hp Hv Hpaid. unfold span_reward. destruct (mul_share p v Hp Hv) as [-> Hs]. cbn [mbind option_bind]. unfold saturating_sub.
  destruct (mul_share REWARD_F1 (Z.max 0 (share p v - paid))) as [-> Hr]; [by vm_compute | lia |]. eauto.
Qed.

(** The same spans, up to the era of the last slash. *)
Definition same_spans (s s' : SlashingSpansRecord) : Prop := span_index s' = span_index s /\ last_start s' = last_start s /\ prior s' = prior s.

Lemma same_spans_wf s s' : same_spans s s' -> spans_wf s -> spans_wf s' /\ earliest_index s' = earliest_index s.
Proof. intros (Ei & Es & Ep) [Hp Hs Hi]. unfold earliest_index. split; [split |]; rewrite ?Ei, ?Es, ?Ep; done. Qed.

Lemma largest_pos log x i : 0 <= largest_in log x i.
Proof. unfold largest_in. induction (filter _ log); simpl; lia. Qed.

(** A new record for the event. *)
Lemma recorded_event st log s0 ev paid : recorded st log -> st_spans st !! ev_stash ev = Some s0 -> live s0 (ev_span ev) ->
  ev_taken ev = Z.max 0 (ev_slash ev - largest_in log (ev_stash ev) (ev_span ev)) -> paid = paid_in log (ev_stash ev) (ev_span ev) + ev_paid ev ->
  0 <= ev_paid ev -> paid <= stake_max ->
  recorded (put_span_slash (<[(ev_stash ev, ev_span ev) :=
    {| span_slashed := Z.max (ev_slash ev) (largest_in log (ev_stash ev) (ev_span ev)); span_paid_out := paid |}]> (st_span_slash st)) st) (ev :: log).
Proof.
  intros [R1 R2 R3 R4 R5 R6 R7] Hs Hl Ht -> Hp Hm. set (x := ev_stash ev) in *. set (i := ev_span ev) in *.
  assert (Hin : in_span x i ev) by done. destruct (in_cons ev log x i Hin) as (E1 & E2 & E3). split; simpl.
  - done.
  - intros y j r [[[= <- <-] _] | [_ E]]%lookup_insert_Some; [by exists s0 | by eapply R2].
  - intros y j s Es Hj. unfold SpanSlash_get. simpl. destruct (decide (in_span y j ev)) as [[<- <-] | Hn].
    + rewrite lookup_insert_eq. simpl. fold x i. rewrite E2, E3. split; lia.
    + destruct (out_cons ev log y j Hn) as (_ & -> & ->). rewrite lookup_insert_ne; [by apply (R3 y j s) |]. intros [= <- <-]. by apply Hn.
  - intros y j s Es Hj. rewrite filter_other; [by eapply R4 |]. intros [<- <-]. fold x i in Es, Hj. rewrite Hs in Es. injection Es as <-. unfold live in Hl. lia.
  - intros y j Hy. rewrite filter_other; [by apply R5 |]. intros [<- <-]. fold x in Hy. congruence.
  - intros y j. destruct (decide (in_span y j ev)) as [[<- <-] | Hn].
    + fold x i. rewrite E1, E3, R6, Ht. pose proof (largest_pos log x i). lia.
    + destruct (out_cons ev log y j Hn) as (-> & _ & ->). apply R6.
  - intros y j. destruct (decide (in_span y j ev)) as [[<- <-] | Hn].
    + fold x i. rewrite E2. pose proof (R7 x i). lia.
    + destruct (out_cons ev log y j Hn) as (_ & -> & _). apply R7.
Qed.

(** Nothing changes when the slash is not larger and nothing is paid. *)
Lemma recorded_quiet st log ev : recorded st log -> ev_taken ev = 0 -> ev_paid ev = 0 -> ev_slash ev <= largest_in log (ev_stash ev) (ev_span ev) ->
  (exists s0, st_spans st !! ev_stash ev = Some s0 /\ live s0 (ev_span ev)) -> recorded st (ev :: log).
Proof.
  intros [R1 R2 R3 R4 R5 R6 R7] Ht Hp Hle (s0 & Hs & Hl).
  assert (Hsame : forall y j, taken_in (ev :: log) y j = taken_in log y j /\ paid_in (ev :: log) y j = paid_in log y j /\ largest_in (ev :: log) y j = largest_in log y j).
  { intros y j. destruct (decide (in_span y j ev)) as [Hin | Hn]; [| by apply out_cons]. destruct (in_cons ev log y j Hin) as (-> & -> & ->).
    destruct Hin as [<- <-]. rewrite Ht, Hp. split; [lia |]. split; [lia |]. lia. }
  split; try done.
  - intros y j s Es Hj. destruct (Hsame y j) as (_ & -> & ->). by apply (R3 y j s).
  - intros y j s Es Hj. rewrite filter_other; [by eapply R4 |]. intros [<- <-]. rewrite Hs in Es. injection Es as <-. unfold live in Hl. lia.
  - intros y j Hy. rewrite filter_other; [by apply R5 |]. intros [<- <-]. congruence.
  - intros y j. destruct (Hsame y j) as (-> & _ & ->). apply R6.
  - intros y j. destruct (Hsame y j) as (_ & -> & _). apply R7.
Qed.

Definition slash_event (x : AccountId) (v taken paid : Z) (i : Z) : SlashEvent :=
  {| ev_stash := x; ev_span := i; ev_slash := v; ev_taken := taken; ev_paid := paid |}.

(** Recording a slash in the span [i]: what is recorded, taken and paid. *)
Lemma update_span_run x p e v self st log s0 sp : recorded st log -> st_spans st !! x = Some s0 -> inspected self = s0 ->
  0 <= p <= ACCURACY Perbill -> 0 <= v <= stake_max -> 0 <= slash_of self -> slash_of self + v <= stake_max ->
  0 <= paid_out self -> paid_out self + v <= stake_max -> era_span e self = Some sp ->
  let i := sp_index sp in
  exists taken paid self' st', compare_and_update_span_slash x p e v self st = Some (Some i, self', st') /\
    same_spans s0 (inspected self') /\ (dirty self' = false -> self' = self) /\
    slash_of self' = slash_of self + taken /\ paid_out self' = paid_out self + paid /\
    recorded st' (slash_event x v taken paid i :: log) /\ st_spans st' = st_spans st /\ 0 <= taken <= v /\
    0 <= paid <= Z.max 0 (share p v - paid_in log x i) /\
    (ValidatorSlashInEra st' = ValidatorSlashInEra st /\ NominatorSlashInEra st' = NominatorSlashInEra st).
Proof.
  intros Hr Hs Hself Hp Hv Hso Hso' Hpo Hpo' Esp i. pose proof (rc_wf _ _ Hr x s0 Hs) as Hwf.
  assert (Hl : live s0 i) by (apply (era_span_live s0 e sp Hwf); rewrite <- Hself; exact Esp).
  destruct (rc_record _ _ Hr x i s0 Hs Hl) as [Erec Epaid]. pose proof (rc_paid _ _ Hr x i) as Hpaid. pose proof (largest_pos log x i) as Hlg.
  destruct (mul_share p v Hp Hv) as [_ Hsh]. unfold compare_and_update_span_slash. rewrite Esp. fold i. cbv zeta. rewrite Erec, Epaid.
  destruct (span_reward_run p v (paid_in log x i) Hp Hv ltac:(lia)) as (r & -> & Hrw).
  destruct (Z.ltb_spec (largest_in log x i) v) as [Hlt | Hge].
  - cbn [mbind option_bind]. unfold add_slash, saturating_sub. rewrite (Z.max_r 0 (v - largest_in log x i)) by lia. rewrite (stake_add_Some (slash_of self)) by lia. cbn [mbind option_bind].
    exists (v - largest_in log x i), r. destruct (Z.eqb_spec r 0) as [-> | Hrn]; cbn [mbind option_bind paid_out].
    + eexists _, _. split; [reflexivity |]. cbn. rewrite Hself. split; [done |]. split; [done |]. split; [done |]. split; [lia |]. split; [| split; [done | split; [lia | split; [lia | done]]]].
      replace v with (Z.max v (largest_in log x i)) at 1 by lia. apply (recorded_event st log s0 (slash_event x v (v - largest_in log x i) 0 i)); try done; cbn; lia.
    + rewrite (stake_add_Some (paid_in log x i)), (stake_add_Some (paid_out self)) by lia. cbn [mbind option_bind].
      eexists _, _. split; [reflexivity |]. cbn. rewrite Hself. split; [done |]. split; [done |]. split; [done |]. split; [done |]. split; [| split; [done | split; [lia | split; [lia | done]]]].
      replace v with (Z.max v (largest_in log x i)) at 1 by lia. apply (recorded_event st log s0 (slash_event x v (v - largest_in log x i) r i)); try done; cbn; lia.
  - exists 0. destruct (Z.eqb_spec (largest_in log x i) v) as [Eq | Hne]; cbn [mbind option_bind].
    + exists r. destruct (Z.eqb_spec r 0) as [-> | Hrn]; cbn [mbind option_bind].
      * eexists _, _. split; [reflexivity |]. cbn. rewrite Hself. split; [done |].
        split; [intros Hd; destruct self; cbn in *; by subst |]. split; [lia |]. split; [lia |]. split; [| split; [done | split; [lia | split; [lia | done]]]].
        apply recorded_quiet; cbn; [done | done | done | lia | by exists s0].
      * rewrite (stake_add_Some (paid_in log x i)), (stake_add_Some (paid_out self)) by lia. cbn [mbind option_bind].
        eexists _, _. split; [reflexivity |]. cbn. rewrite Hself. split; [done |]. split; [done |]. split; [lia |]. split; [done |]. split; [| split; [done | split; [lia | split; [lia | done]]]].
        replace (largest_in log x i) with (Z.max v (largest_in log x i)) at 1 by lia. apply (recorded_event st log s0 (slash_event x v 0 r i)); try done; cbn; lia.
    + exists 0. eexists _, _. split; [reflexivity |]. cbn. rewrite Hself. split; [done |].
      split; [intros Hd; destruct self; cbn in *; by subst |]. split; [lia |]. split; [lia |]. split; [| split; [done | split; [lia | split; [lia | done]]]].
      apply recorded_quiet; cbn; [done | done | done | lia | by exists s0].
Qed.

(** Ending the current span, if asked to, and writing the spans back. *)
Lemma close_run x w now self st log s0 (ending : bool) : recorded st log -> 0 <= w <= u32_max -> st_spans st !! x = Some s0 ->
  same_spans s0 (inspected self) -> span_index s0 < u32_max ->
  let self' := if ending then inspecting_end_span now self else self in
  recorded (inspecting_drop x w self' st) log /\ paid_out self' = paid_out self /\ slash_of self' = slash_of self.
Proof.
  intros Hr Hw Hs Hsame Hi. destruct (same_spans_wf _ _ Hsame (rc_wf _ _ Hr _ _ Hs)) as [Hwf He]. destruct Hsame as (Ei & _ & _).
  destruct ending; cbv zeta.
  - unfold inspecting_end_span. pose proof (end_span_run now (inspected self) Hwf ltac:(lia)) as Hend. destruct (spans_end_span now (inspected self)) as [ended s'].
    destruct Hend as (Hwf' & He' & Hi' & _). split; [| done]. apply (drop_run x w _ st log s0); cbn; [done | done | done | done | lia | lia].
  - split; [| done]. apply (drop_run x w _ st log s0); [done | done | done | done | lia | lia].
Qed.

Definition spans_at (x : AccountId) (w : Z) (st : SlashStore) : SlashingSpansRecord := default (SlashingSpans_new w) (st_spans st !! x).

(** The records of eras. *)
Definition era_records (st : SlashStore) := (ValidatorSlashInEra st, NominatorSlashInEra st).

Lemma drop_eras x w self st : era_records (inspecting_drop x w self st) = era_records st.
Proof. unfold inspecting_drop. destruct (negb _); [done |]. by destruct (prune _ _) as [[[] |] ?]. Qed.

Lemma slash_in_span_run x w now p e v paid0 taken0 st log : recorded st log -> 0 <= w <= u32_max -> span_index (spans_at x w st) < u32_max ->
  0 <= p <= ACCURACY Perbill -> 0 <= v <= stake_max -> 0 <= taken0 -> taken0 + v <= stake_max -> 0 <= paid0 -> paid0 + v <= stake_max ->
  exists taken paid st', slash_in_span x w now p e v paid0 taken0 st = Some (paid0 + paid, taken0 + taken, st') /\
    era_records st' = era_records st /\ 0 <= taken <= v /\ 0 <= paid <= v /\
    match span_of_era e (spans_at x w st) with
    | Some i => recorded st' (slash_event x v taken paid i :: log) /\ paid <= Z.max 0 (share p v - paid_in log x i)
    | None => recorded st' log /\ taken = 0 /\ paid = 0
    end.
Proof.
  intros Hr Hw Hx Hp Hv Ht Htv Hpa Hpv. unfold slash_in_span. pose proof (fetch_run x w paid0 taken0 st log Hr Hw) as Hf.
  destruct (fetch_spans x w paid0 taken0 st) as [self st1]. destruct Hf as (Hr1 & Hs1 & Hd & Epo & Eso & Ein & _ & Ev1 & En1). fold (spans_at x w st) in Ein.
  rewrite <- Ein in *. unfold span_of_era. fold (era_span e self). destruct (era_span e self) as [sp |] eqn:Esp; simpl.
  - destruct (update_span_run x p e v self st1 log (inspected self) sp) as (taken & paid & self2 & st2 & Hrun & Hsame & _ & Es2 & Ep2 & Hr2 & Est2 & Htk & Hpd & Ev2 & En2); try done; try lia.
    rewrite Hrun. cbn [mbind option_bind]. exists taken, paid. destruct (mul_share p v Hp Hv) as [_ Hsh]. pose proof (rc_paid _ _ Hr x (sp_index sp)).
    destruct (close_run x w now self2 st2 _ (inspected self) (bool_decide (Some (sp_index sp) = Some (span_index (inspected self2)))) Hr2 Hw) as (Hr3 & Ep3 & Es3); [by rewrite Est2 | done | done |].
    cbv zeta in *. eexists. split; [rewrite Ep3, Es3, Ep2, Es2, Epo, Eso; reflexivity |]. split; [rewrite drop_eras; unfold era_records; congruence |]. split; [lia |]. split; [lia |]. split; [exact Hr3 | lia].
  - exists 0, 0. unfold compare_and_update_span_slash. rewrite Esp. cbn [mbind option_bind]. rewrite bool_decide_eq_false_2 by done.
    unfold inspecting_drop. rewrite Hd. cbn [negb]. eexists. split; [rewrite Epo, Eso, !Z.add_0_r; reflexivity |]. split; [unfold era_records; congruence |]. split; [lia |]. split; [lia |]. done.
Qed.

Lemma kick_out_run params st log : recorded st log -> 0 <= sl_window_start params <= u32_max ->
  span_index (spans_at (sl_stash params) (sl_window_start params) st) < u32_max ->
  recorded (kick_out_if_recent params st) log /\ era_records (kick_out_if_recent params st) = era_records st.
Proof.
  intros Hr Hw Hx. unfold kick_out_if_recent. pose proof (fetch_run (sl_stash params) (sl_window_start params) 0 0 st log Hr Hw) as Hf.
  destruct (fetch_spans _ _ 0 0 st) as [self st1]. destruct Hf as (Hr1 & Hs1 & _ & _ & _ & Ein & _ & Ev1 & En1).
  split; [| rewrite drop_eras; unfold era_records; congruence].
  unfold spans_at in Hx. rewrite <- Ein in Hx. by apply (close_run _ _ (sl_now params) self st1 log (inspected self) _ Hr1 Hw Hs1).
Qed.

(** ** Any sequence of slashes *)

(** Slashes in the spans of any stashes, with the log of what was taken and paid, the last one first;
    validators are kicked out and the records of eras change in between. *)
Inductive inspected_all (p : Z) : SlashStore -> list SlashEvent -> Prop :=
  | ia_none : inspected_all p no_slashes []
  | ia_slash x w now e v paid0 taken0 paid taken st log st' : inspected_all p st log ->
      0 <= w <= u32_max -> span_index (spans_at x w st) < u32_max -> 0 <= v <= stake_max ->
      0 <= taken0 -> taken0 + v <= stake_max -> 0 <= paid0 -> paid0 + v <= stake_max ->
      slash_in_span x w now p e v paid0 taken0 st = Some (paid, taken, st') ->
      inspected_all p st' (match span_of_era e (spans_at x w st) with
                           | Some i => slash_event x v (taken - taken0) (paid - paid0) i :: log
                           | None => log
                           end)
  | ia_kick params st log : inspected_all p st log -> 0 <= sl_window_start params <= u32_max ->
      span_index (spans_at (sl_stash params) (sl_window_start params) st) < u32_max -> inspected_all p (kick_out_if_recent params st) log
  | ia_eras st st' log : inspected_all p st log -> st_spans st' = st_spans st -> st_span_slash st' = st_span_slash st -> inspected_all p st' log.

Lemma inspected_recorded p st log : 0 <= p <= ACCURACY Perbill -> inspected_all p st log ->
  recorded st log /\ forall x i, paid_in log x i <= share p (largest_in log x i).
Proof.
  intros Hp. induction 1 as [| x w now e v paid0 taken0 paid taken st log st' _ [IH IHp] Hw Hx Hv Ht Htv Hpa Hpv Hrun | params st log _ [IH IHp] Hw Hx | st st' log _ [IH IHp] Es Er].
  - split; [apply recorded_empty | done].
  - destruct (slash_in_span_run x w now p e v paid0 taken0 st log) as (taken' & paid' & st'' & Hrun' & _ & Htk & Hpd & Hres); try done.
    rewrite Hrun in Hrun'. injection Hrun' as -> -> <-. replace (taken0 + taken' - taken0) with taken' by lia. replace (paid0 + paid' - paid0) with paid' by lia.
    destruct (span_of_era e (spans_at x w st)) as [i |]; [| by split; [apply Hres | done]]. destruct Hres as [Hr Hpb]. split; [done |].
    intros y j. destruct (decide (in_span y j (slash_event x v taken' paid' i))) as [Hin | Hn].
    + destruct (in_cons _ log y j Hin) as (_ & -> & ->). destruct Hin as [<- <-]. cbn in *. pose proof (IHp x i). pose proof (largest_pos log x i).
      pose proof (share_mono p v (Z.max v (largest_in log x i)) ltac:(lia) ltac:(lia)). pose proof (share_mono p (largest_in log x i) (Z.max v (largest_in log x i)) ltac:(lia) ltac:(lia)). lia.
    + destruct (out_cons _ log y j Hn) as (_ & -> & ->). apply IHp.
  - split; [by apply kick_out_run | done].
  - split; [by apply (recorded_same st) | done].
Qed.

(** C10. However many slashes are reported, for whatever eras and in whatever order: what was taken from a
    stash for a span is the largest slash reported in it, and not their sum; the rewards that were paid
    for the span are at most their proportion of it; and the record of a span that is kept says both. *)
Theorem largest_slash_only p st log : 0 <= p <= ACCURACY Perbill -> inspected_all p st log ->
  (forall x i, taken_in log x i = largest_in log x i) /\ (forall x i, paid_in log x i <= share p (largest_in log x i)) /\
  (forall x i s, st_spans st !! x = Some s -> live s i ->
     SpanSlash_get (x, i) st = {| span_slashed := largest_in log x i; span_paid_out := paid_in log x i |}).
Proof.
  intros Hp Hl. destruct (inspected_recorded p st log Hp Hl) as [Hr Hpaid]. split; [apply Hr |]. split; [done |].
  intros x i s Hs Hi. destruct (rc_record _ _ Hr x i s Hs Hi) as [E1 E2]. destruct (SpanSlash_get (x, i) st). cbn in *. by subst.
Qed.

(** ** Computing a slash *)

(** A slash changes the spans of its stash only. *)
Definition others_kept (x : AccountId) (st st' : SlashStore) : Prop :=
  forall y, y <> x -> st_spans st' !! y = st_spans st !! y /\ forall i, st_span_slash st' !! (y, i) = st_span_slash st !! (y, i).

Lemma kept_trans x st1 st2 st3 : others_kept x st1 st2 -> others_kept x st2 st3 -> others_kept x st1 st3.
Proof. intros H1 H2 y Hy. destruct (H1 y Hy) as [E1 F1], (H2 y Hy) as [E2 F2]. split; [congruence |]. intros i. by rewrite F2. Qed.

Lemma drop_keeps x w self st : others_kept x st (inspecting_drop x w self st).
Proof.
  intros y Hy. unfold inspecting_drop. destruct (negb _); [done |]. destruct (prune _ _) as [[[a b] |] s]; simpl; (split; [by rewrite lookup_insert_ne |]); intros i; [| done].
  rewrite removed_lookup, decide_False; [done |]. simpl. tauto.
Qed.

Lemma compare_keeps x p e v self st r : compare_and_update_span_slash x p e v self st = Some r -> others_kept x st (snd r).
Proof.
  unfold compare_and_update_span_slash. destruct (era_span e self) as [sp |]; [| by intros [= <-]]. cbv zeta.
  destruct (if _ <? _ then _ else _) as [[[[slashed changed] reward] self1] |]; [| done]. cbn [mbind option_bind].
  destruct (if reward =? 0 then _ else _) as [[[changed' paid] total] |]; [| done]. cbn [mbind option_bind]. intros [= <-]. simpl.
  destruct changed'; [| done]. intros y Hy. simpl. split; [done |]. intros i. rewrite lookup_insert_ne; [done | congruence].
Qed.

Lemma fetch_keeps x w paid0 taken0 st : others_kept x st (snd (fetch_spans x w paid0 taken0 st)).
Proof. unfold fetch_spans. destruct (st_spans st !! x); [done |]. intros y Hy. simpl. by rewrite lookup_insert_ne. Qed.

Lemma kick_out_keeps params st : others_kept (sl_stash params) st (kick_out_if_recent params st).
Proof.
  unfold kick_out_if_recent. pose proof (fetch_keeps (sl_stash params) (sl_window_start params) 0 0 st) as Hk.
  destruct (fetch_spans _ _ 0 0 st) as [self st1]. eapply kept_trans; [exact Hk | apply drop_keeps].
Qed.

Lemma slash_in_span_keeps x w now p e v paid0 taken0 st paid taken st' : slash_in_span x w now p e v paid0 taken0 st = Some (paid, taken, st') -> others_kept x st st'.
Proof.
  unfold slash_in_span. pose proof (fetch_keeps x w paid0 taken0 st) as H1. destruct (fetch_spans x w paid0 taken0 st) as [self st1].
  destruct (compare_and_update_span_slash x p e v self st1) as [[[target self2] st2] |] eqn:Ec; [| done]. cbn [mbind option_bind]. intros [= _ _ <-].
  apply compare_keeps in Ec. eapply kept_trans; [exact H1 |]. eapply kept_trans; [exact Ec | apply drop_keeps].
Qed.

(** What is left to take for a slash of [v] in the era. *)
Definition left_to_take (x : AccountId) (w e v : Z) (st : SlashStore) : Z :=
  match span_of_era e (spans_at x w st) with
  | Some i => Z.max 0 (v - span_slashed (SpanSlash_get (x, i) st))
  | None => 0
  end.

Lemma left_kept x y w e v st st' : others_kept y st st' -> x <> y -> left_to_take x w e v st' = left_to_take x w e v st.
Proof.
  intros Hk Hx. destruct (Hk x Hx) as [Es Ei]. unfold left_to_take, spans_at, SpanSlash_get. rewrite Es. destruct (span_of_era _ _); [| done]. by rewrite Ei.
Qed.

Lemma span_of_live e x w st log i : recorded st log -> 0 <= w <= u32_max -> span_of_era e (spans_at x w st) = Some i ->
  span_slashed (SpanSlash_get (x, i) st) = largest_in log x i.
Proof.
  intros Hr Hw E. unfold span_of_era in E. destruct (snd <$> _) as [sp |] eqn:F; [| done]. injection E as <-.
  unfold spans_at in F. destruct (st_spans st !! x) as [s |] eqn:Es; simpl in F.
  - apply (rc_record _ _ Hr x _ s Es). eapply era_span_live; [by apply (rc_wf _ _ Hr x) | exact F].
  - unfold SpanSlash_get, largest_in. destruct (st_span_slash st !! (x, sp_index sp)) as [r |] eqn:Er; [destruct (rc_live _ _ Hr _ _ _ Er) as (? & ? & _); congruence |].
    by rewrite (rc_unknown _ _ Hr x _ Es).
Qed.

(** A slash takes what is left to take. *)
Lemma slash_taken x w now p e v paid0 taken0 st log : recorded st log -> 0 <= w <= u32_max -> span_index (spans_at x w st) < u32_max ->
  0 <= p <= ACCURACY Perbill -> 0 <= v <= stake_max -> 0 <= taken0 -> taken0 + v <= stake_max -> 0 <= paid0 -> paid0 + v <= stake_max ->
  exists paid st' log', slash_in_span x w now p e v paid0 taken0 st = Some (paid0 + paid, taken0 + left_to_take x w e v st, st') /\
    recorded st' log' /\ era_records st' = era_records st /\ 0 <= paid <= v /\ others_kept x st st'.
Proof.
  intros Hr Hw Hx Hp Hv Ht Htv Hpa Hpv.
  destruct (slash_in_span_run x w now p e v paid0 taken0 st log) as (taken & paid & st' & Hrun & He & Htk & Hpd & Hres); try done.
  pose proof (slash_in_span_keeps _ _ _ _ _ _ _ _ _ _ _ _ Hrun) as Hk. unfold left_to_take. destruct (span_of_era e (spans_at x w st)) as [i |] eqn:Ei.
  - destruct Hres as [Hr' _]. exists paid, st', (slash_event x v taken paid i :: log). rewrite (span_of_live e x w st log i Hr Hw Ei).
    assert (taken = Z.max 0 (v - largest_in log x i)) as <-; [| done]. pose proof (rc_taken _ _ Hr' x i) as E. rewrite <- (rc_taken _ _ Hr x i).
    destruct (in_cons (slash_event x v taken paid i) log x i ltac:(done)) as (E1 & _ & E3). rewrite E1, E3, (rc_taken _ _ Hr x i) in E. rewrite (rc_taken _ _ Hr x i). cbn in E. lia.
  - destruct Hres as (Hr' & -> & ->). exists 0, st', log. done.
Qed.

(** The slash of a nominator in the era, after its validator's proportion has grown. *)
Definition new_era_slash (params : SlashParams) (prior_p : Z) (st : SlashStore) (x : AccountId) (v : Z) : Z :=
  default 0 (NominatorSlashInEra st !! (sl_era params, x)) + Z.max 0 (share (sl_slash params) v - share prior_p v).

(** What can be slashed from the nominators at most. *)
Definition era_room (params : SlashParams) (st : SlashStore) (others : list (AccountId * Z)) : Z :=
  foldr (fun '(x, v) n => default 0 (NominatorSlashInEra st !! (sl_era params, x)) + v + n) 0 others.

(** The nominators are different accounts, with amounts in range and span indices to spare. *)
Definition nominators_ok (params : SlashParams) (st : SlashStore) (others : list (AccountId * Z)) : Prop :=
  NoDup (fst <$> others) /\
  Forall (fun '(x, v) => 0 <= v /\ 0 <= default 0 (NominatorSlashInEra st !! (sl_era params, x)) /\ span_index (spans_at x (sl_window_start params) st) < u32_max) others.

Lemma era_room_pos params st others : nominators_ok params st others -> 0 <= era_room params st others.
Proof. intros [_ Hf]. induction Hf as [| [x v] others (Hv & He & _) _ IH]; simpl; lia. Qed.

(** The conditions on the other nominators do not change. *)
Lemma nominators_kept params st st' x others : others_kept x st st' -> (x ∉ fst <$> others) ->
  (forall y, y <> x -> NominatorSlashInEra st' !! (sl_era params, y) = NominatorSlashInEra st !! (sl_era params, y)) ->
  nominators_ok params st others ->
  nominators_ok params st' others /\ era_room params st' others = era_room params st others /\
  forall prior_p, map (fun '(y, v) => (y, left_to_take y (sl_window_start params) (sl_era params) (new_era_slash params prior_p st' y v) st')) others =
    map (fun '(y, v) => (y, left_to_take y (sl_window_start params) (sl_era params) (new_era_slash params prior_p st y v) st)) others.
Proof.
  intros Hk Hx Hn [Hnd Hf]. assert (Hne : forall y v, (y, v) ∈ others -> y <> x) by (intros y v Hy ->; apply Hx, list_elem_of_fmap; by exists (x, v)).
  split; [split; [done |] | split].
  - apply Forall_forall. intros [y v] Hy. rewrite Forall_forall in Hf. specialize (Hf _ Hy). simpl in Hf. rewrite Hn by (by eapply Hne).
    unfold spans_at. by rewrite (proj1 (Hk y (Hne y v Hy))).
  - clear Hnd Hf Hx. induction others as [| [y v] others IH]; [done |]. simpl. rewrite Hn, IH; [done | | by eapply Hne; left]. intros z u Hz. apply (Hne z u). by right.
  - intros prior_p. apply map_ext_in. intros [y v] Hy%list_elem_of_In. f_equal. rewrite (left_kept y x _ _ _ st st' Hk) by (by eapply Hne).
    unfold new_era_slash. by rewrite Hn by (by eapply Hne).
Qed.

Lemma slash_nominators_run params prior_p others : 0 <= sl_window_start params <= u32_max -> 0 <= sl_reward_proportion params <= ACCURACY Perbill ->
  0 <= sl_slash params <= ACCURACY Perbill -> 0 <= prior_p <= ACCURACY Perbill ->
  forall paid0 st log, recorded st log -> nominators_ok params st others -> 0 <= paid0 -> paid0 + era_room params st others <= stake_max ->
  exists paid st' log', slash_nominators params prior_p others paid0 st =
      Some (paid0 + paid, map (fun '(x, v) => (x, left_to_take x (sl_window_start params) (sl_era params) (new_era_slash params prior_p st x v) st)) others, st') /\
    recorded st' log' /\ 0 <= paid <= era_room params st others /\ ValidatorSlashInEra st' = ValidatorSlashInEra st /\
    (forall x v, (x, v) ∈ others -> NominatorSlashInEra st' !! (sl_era params, x) = Some (new_era_slash params prior_p st x v)) /\
    (forall k, (forall v, (k.2, v) ∉ others) \/ k.1 <> sl_era params -> NominatorSlashInEra st' !! k = NominatorSlashInEra st !! k).
Proof.
  intros Hw Hp Hs Hpp. induction others as [| [x v] others IH]; intros paid0 st log Hr Hok Hpaid Hroom.
  { exists 0, st, log. simpl. rewrite Z.add_0_r. split; [done |]. split; [done |]. split; [lia |]. split; [done |]. split; [by intros ? ? ?%not_elem_of_nil | done]. }
  pose proof Hok as [Hnd Hf]. apply Forall_cons in Hf as [(Hv & He & Hx) Hf]. apply NoDup_cons in Hnd as [Hnotin Hnd].
  assert (Hok' : nominators_ok params st others) by done. pose proof (era_room_pos _ _ _ Hok'). cbn [slash_nominators era_room foldr] in *. fold (era_room params st others) in *.
  destruct (mul_share prior_p v Hpp ltac:(lia)) as [E1 B1], (mul_share (sl_slash params) v Hs ltac:(lia)) as [E2 B2].
  set (era_slash := new_era_slash params prior_p st x v). assert (Hes : 0 <= era_slash <= default 0 (NominatorSlashInEra st !! (sl_era params, x)) + v) by (unfold era_slash, new_era_slash; lia).
  unfold nominator_era_slash. rewrite E1, E2. cbn [mbind option_bind]. unfold saturating_sub. fold (new_era_slash params prior_p st x v).
  rewrite stake_add_Some by (fold (new_era_slash params prior_p st x v); fold era_slash; lia). fold (new_era_slash params prior_p st x v). fold era_slash. cbn [mbind option_bind].
  set (st1 := put_nominator_slash (sl_era params) x era_slash st). assert (Hr1 : recorded st1 log) by (by apply (recorded_same st)).
  destruct (slash_taken x (sl_window_start params) (sl_now params) (sl_reward_proportion params) (sl_era params) era_slash paid0 0 st1 log)
    as (paid1 & st2 & log2 & Hrun & Hr2 & Her & Hpd1 & Hk); try done; try lia.
  rewrite Hrun. cbn [mbind option_bind]. injection Her as EV EN.
  assert (Hn2 : forall y, y <> x -> NominatorSlashInEra st2 !! (sl_era params, y) = NominatorSlashInEra st !! (sl_era params, y)).
  { intros y Hy. rewrite EN. simpl. by rewrite lookup_insert_ne by congruence. }
  destruct (nominators_kept params st st2 x others Hk Hnotin Hn2 Hok') as (Hok2 & Eroom & Emap).
  destruct (IH (paid0 + paid1) st2 log2 Hr2 Hok2 ltac:(lia) ltac:(lia)) as (paid2 & st3 & log3 & Hrun3 & Hr3 & Hpd2 & EV3 & EN3 & EO3).
  rewrite Hrun3. cbn [mbind option_bind]. exists (paid1 + paid2), st3, log3. split; [| split; [done | split; [lia | split; [by rewrite EV3, EV |]]]].
  - rewrite Emap. simpl. by rewrite Z.add_assoc, Z.add_0_l.
  - split.
    + intros y u [[= -> ->] | Hy]%elem_of_cons.
      * rewrite EO3, EN; [simpl; by rewrite lookup_insert_eq |]. left. intros u' Hu. apply Hnotin, list_elem_of_fmap. by exists (x, u').
      * rewrite (EN3 y u Hy). unfold new_era_slash. rewrite Hn2; [done |]. intros ->. apply Hnotin, list_elem_of_fmap. by exists (x, u).
    + intros [e y] Hk'. simpl in Hk'. rewrite EO3; [rewrite EN; simpl; rewrite lookup_insert_ne; [done |] |].
      * intros [= <- <-]. destruct Hk' as [Hk' | Hk']; [apply (Hk' v); by left | done].
      * destruct Hk' as [Hk' | Hk']; [left; simpl; intros u Hu; apply (Hk' u); by right | by right].
Qed.

(** The validator and the nominators are different accounts with amounts in range, and all that can be
    slashed fits a balance. *)
Record params_ok (params : SlashParams) (st : SlashStore) : Prop := {
  po_window : 0 <= sl_window_start params <= u32_max;
  po_slash : 0 <= sl_slash params <= ACCURACY Perbill;
  po_reward : 0 <= sl_reward_proportion params <= ACCURACY Perbill;
  po_prior : 0 <= from_option fst 0 (ValidatorSlashInEra st !! (sl_era params, sl_stash params)) <= ACCURACY Perbill;
  po_own : 0 <= exposure_own (sl_exposure params);
  po_total : 0 <= exposure_total (sl_exposure params) <= stake_max;
  po_index : span_index (spans_at (sl_stash params) (sl_window_start params) st) < u32_max;
  po_others : nominators_ok params st (exposure_others (sl_exposure params));
  po_distinct : sl_stash params ∉ fst <$> exposure_others (sl_exposure params);
  po_room : exposure_own (sl_exposure params) + era_room params st (exposure_others (sl_exposure params)) <= stake_max;
}.

(** C11. Computing a slash never fails, when the exposed accounts are different ones, the proportions are
    proportions, every account has a span index to spare, and the amounts slashed for the era and exposed
    fit a balance together.  There are three cases.  A slash whose proportion of the whole exposure is
    zero takes nothing and records nothing for the era: the validator is only kicked out, which may end
    and prune its own spans and leaves what is recorded of the slashes, and the spans of others, alone.
    Otherwise, a proportion that is not the largest of the era changes nothing.  A larger one takes from
    the validator what its proportion of the own stake exceeds the largest slash of the span, and from
    every nominator what their slashes of the era, grown by the difference to the previous proportion,
    exceed theirs; and both are recorded for the era. *)
Theorem compute_slash_exact params st log : recorded st log -> params_ok params st ->
  let prior_p := from_option fst 0 (ValidatorSlashInEra st !! (sl_era params, sl_stash params)) in
  let own := share (sl_slash params) (exposure_own (sl_exposure params)) in
  let take x v := left_to_take x (sl_window_start params) (sl_era params) v st in
  if share (sl_slash params) (exposure_total (sl_exposure params)) =? 0 then exists st', st' = kick_out_if_recent params st /\
      compute_slash params st = Some (None, st') /\ recorded st' log /\ era_records st' = era_records st /\
      others_kept (sl_stash params) st st'
  else if sl_slash params <=? prior_p then compute_slash params st = Some (None, st)
  else exists payout st' log', compute_slash params st =
      Some (Some {| us_validator := sl_stash params; us_own := take (sl_stash params) own;
                    us_others := map (fun '(x, v) => (x, take x (new_era_slash params prior_p st x v))) (exposure_others (sl_exposure params));
                    us_reporters := []; us_payout := payout |}, st') /\
    recorded st' log' /\ 0 <= payout <= own + era_room params st (exposure_others (sl_exposure params)) /\
    ValidatorSlashInEra st' = <[(sl_era params, sl_stash params) := (sl_slash params, own)]> (ValidatorSlashInEra st) /\
    (forall x v, (x, v) ∈ exposure_others (sl_exposure params) ->
       NominatorSlashInEra st' !! (sl_era params, x) = Some (new_era_slash params prior_p st x v)).
Proof.
  intros Hr [Hw Hs Hp Hpp Ho Ht Hx Hoth Hd Hroom]. cbv zeta. pose proof (era_room_pos _ _ _ Hoth).
  destruct (mul_share (sl_slash params) (exposure_own (sl_exposure params)) Hs ltac:(lia)) as [E1 B1], (mul_share (sl_slash params) (exposure_total (sl_exposure params)) Hs Ht) as [E2 B2].
  unfold compute_slash. rewrite E1, E2. cbn [mbind option_bind].
  destruct (_ =? 0); [eexists; split; [done |]; split; [done |]; destruct (kick_out_run params st log Hr Hw Hx); split; [done |]; split; [done | apply kick_out_keeps] |].
  set (prior_p := from_option fst 0 _) in *.
  destruct (Z.leb_spec (sl_slash params) prior_p); [by rewrite (proj2 (Z.ltb_ge _ _)) by lia |]. rewrite (proj2 (Z.ltb_lt _ _)) by lia.
  set (own := share (sl_slash params) (exposure_own (sl_exposure params))) in *. set (st1 := put_validator_slash _ _ _ st).
  assert (Hr1 : recorded st1 log) by (by apply (recorded_same st)).
  destruct (slash_taken (sl_stash params) (sl_window_start params) (sl_now params) (sl_reward_proportion params) (sl_era params) own 0 0 st1 log)
    as (paid1 & st2 & log2 & Hrun & Hr2 & Her & Hpd1 & Hk); try done; try lia.
  rewrite Hrun. cbn [mbind option_bind]. injection Her as EV EN.
  destruct (nominators_kept params st st2 (sl_stash params) (exposure_others (sl_exposure params)) Hk Hd) as (Hok2 & Eroom & Emap); [by rewrite EN | done |].
  destruct (slash_nominators_run params prior_p (exposure_others (sl_exposure params)) Hw Hp Hs Hpp 0 st2 log2 Hr2 Hok2 ltac:(lia) ltac:(lia))
    as (paid2 & st3 & log3 & Hrun3 & Hr3 & Hpd2 & EV3 & EN3 & _).
  rewrite Hrun3. cbn [mbind option_bind]. rewrite !Z.add_0_l, stake_add_Some by lia. cbn [mbind option_bind].
  exists (paid1 + paid2), st3, log3. split; [by rewrite Emap |]. split; [done |]. split; [lia |]. split; [by rewrite EV3, EV |].
  intros x v Hxv. rewrite (EN3 x v Hxv). unfold new_era_slash. by rewrite EN.
Qed.
End slashing.

(** * A sample of slashes

    A validator is slashed for two eras of one span, and with a nominator for an offence. *)

#[local] Instance slash_width : StakeWidth.
Proof. refine {| balance_bits := 128 |}. lia. Defined.

(** Eras 2 to 4 are span 1, and eras 5 on span 2. *)
Definition two_spans : SlashingSpansRecord := {| span_index := 2; last_start := 5; last_nonzero_slash := 3; prior := [3] |}.

Lemma era_keeps_span_witness : span_of_era 6 (snd (spans_end_span 7 two_spans)) = Some 2 /\ span_of_era 4 (snd (prune 3 two_spans)) = Some 1.
Proof.
  assert (Hwf : spans_wf two_spans) by (split; [by repeat constructor | split; [vm_compute; discriminate | vm_compute; discriminate] | split; [vm_compute; discriminate | vm_compute; discriminate]]).
  assert (Hx : span_index two_spans < u32_max) by (vm_compute; reflexivity). split.
  - transitivity (span_of_era 6 two_spans); [apply (era_keeps_span two_spans 6 Hwf Hx) | reflexivity]. split; [lia | vm_compute; reflexivity].
  - transitivity (span_of_era 4 two_spans); [apply (era_keeps_span two_spans 4 Hwf Hx) | reflexivity]; [split; [lia | vm_compute; discriminate] | lia].
Defined.

(** Slashes of 30 and 50 for eras 4 and 3. *)
Definition after_slash (e v : Z) (st : SlashStore) : SlashStore :=
  from_option snd st (slash_in_span 1 2 4 (from_percent Perbill 10) e v 0 0 st).
Definition slashed_once : SlashStore := after_slash 4 30 no_slashes.
Definition slashed_twice : SlashStore := after_slash 3 50 slashed_once.

Definition two_slashes : list SlashEvent := [slash_event 1 50 20 2 0; slash_event 1 30 30 1 0].

(** One more slash of account 1. *)
Lemma log_slash e v paid taken st log : inspected_all (from_percent Perbill 10) st log -> (span_index (spans_at 1 2 st) <? u32_max) = true ->
  (0 <=? v) && (v <=? stake_max) = true -> slash_in_span 1 2 4 (from_percent Perbill 10) e v 0 0 st = Some (paid, taken, after_slash e v st) ->
  span_of_era e (spans_at 1 2 st) = Some 0 -> inspected_all (from_percent Perbill 10) (after_slash e v st) (slash_event 1 v taken paid 0 :: log).
Proof.
  intros Hl Hx%Z.ltb_lt [Hv%Z.leb_le Hm%Z.leb_le]%andb_true_iff Hrun Hs.
  assert (Hw : 0 <= 2 <= u32_max) by (split; vm_compute; discriminate).
  pose proof (ia_slash _ 1 2 4 e v 0 0 paid taken st log _ Hl Hw Hx (conj Hv Hm) ltac:(lia) ltac:(lia) ltac:(lia) ltac:(lia) Hrun) as Hia.
  by rewrite Hs, !Z.sub_0_r in Hia.
Qed.

Lemma slashed_log : inspected_all (from_percent Perbill 10) slashed_twice two_slashes.
Proof. do 2 (apply log_slash; [| vm_compute; reflexivity..]). constructor. Qed.

Lemma largest_slash_only_witness : taken_in two_slashes 1 0 = 50 /\ SpanSlash_get (1%N, 0) slashed_twice = {| span_slashed := 50; span_paid_out := 3 |}.
Proof.
  destruct (largest_slash_only (from_percent Perbill 10) slashed_twice two_slashes) as (Htaken & _ & Hrec);
    [split; vm_compute; discriminate | exact slashed_log |].
  split; [transitivity (largest_in two_slashes 1 0); [apply Htaken | reflexivity] |].
  apply (Hrec 1%N 0 {| span_index := 1; last_start := 5; last_nonzero_slash := 4; prior := [3] |}); [vm_compute; reflexivity |].
  split; vm_compute; discriminate.
Defined.

(** The validator has 100 at stake, the nominator 60, and a tenth is slashed. *)
Definition offence : SlashParams := {|
  sl_stash := 1; sl_slash := from_percent Perbill 10;
  sl_exposure := {| exposure_total := 160; exposure_own := 100; exposure_others := [(2%N, 60)] |};
  sl_era := 4; sl_window_start := 2; sl_now := 4; sl_reward_proportion := from_percent Perbill 10 |}.

Lemma offence_ok : params_ok offence no_slashes.
Proof.
  split; try (split; vm_compute; discriminate); try (vm_compute; first [reflexivity | discriminate]).
  - split; [apply NoDup_singleton |]. repeat constructor; vm_compute; first [reflexivity | discriminate].
  - cbn. rewrite list_elem_of_singleton. discriminate.
Qed.

Lemma nothing_recorded : recorded no_slashes [].
Proof. by split. Qed.

Lemma compute_slash_exact_witness : exists payout st', compute_slash offence no_slashes =
  Some (Some {| us_validator := 1; us_own := 10; us_others := [(2%N, 6)]; us_reporters := []; us_payout := payout |}, st') /\ 0 <= payout <= 70.
Proof.
  pose proof (compute_slash_exact offence no_slashes [] nothing_recorded offence_ok) as Hc. cbv zeta in Hc.
  assert (E1 : (share (sl_slash offence) (exposure_total (sl_exposure offence)) =? 0) = false) by (vm_compute; reflexivity). rewrite E1 in Hc.
  match type of Hc with if ?b then _ else _ => assert (E2 : b = false) by (vm_compute; reflexivity); rewrite E2 in Hc end.
  destruct Hc as (payout & st' & log' & Hrun & _ & Hp & _). exists payout, st'. split; [exact Hrun | exact Hp].
Defined.
